(* ===== verification/_CoqProject ===== *)
-Q . S2P
Prelude.v
CLib.v
Console.v
Vga.v
PigPath.v
PigFs.v
PigFsCmd.v
PigFsSpec.v
Ps2.v
Logger.v
Poing.v
Users.v
Sha256.v
Bignum.v
Rsa.v
Aes.v
Tetris.v
Snake.v
Json.v
Windows.v
Compositor.v
Drm.v
DisplayServer.v
LogFile.v
VdmClient.v
Terminal.v
Rtl.v
Net.v
Virtio.v
E1000.v
Asn1.v
WebSocket.v
Tls.v
Nano.v
Discord.v
Vi.v
ShellEnv.v
Rpk.v
ShellCmd.v
Polctl.v
NetCmd.v
Desktop.v
Wm.v
Shell.v
ShellRuns.v
Lash.v
ShellAuth.v
ShellInv.v
Kernel.v
Menuconfig.v
ShellProps.v
