(* ===== verification/Prelude.v ===== *)
(** * pigOS: a verification library

    pigOS is a small freestanding kernel with a text console, an in-memory file
    system, accounts, an init system, a shell with games, cryptography for its
    network clients, and a separate display server ("vdm") for Linux.  This
    library models its own C code, file by file, as executable definitions over
    explicit state, and proves what makes each part correct.

    ** How the parts interact

    The kernel's commands run in one address space over global tables, print on
    the console and read keys from the PS/2 queue.  A command that copies a
    string into a fixed buffer or indexes a table may fault; the monad of
    [Console.v] makes such faults values, so that their absence is a theorem.
    The console device ([Vga.v]) interprets the events the commands emit: it is
    an instance of the class [Console.Sink].  The kernel boots the tables and
    runs the shell, whose dispatcher calls the file system, the accounts, the
    init system, the editor, the package manager and the desktop; the session
    state [ShellCmd.sh] holds them all.
    The cryptographic routines are pure.  The display server's main loop accepts
    clients, handles their messages on the window table, dispatches input, and
    composes a frame.

    ** Files

    - [Prelude.v]: machine integers on [Z] with their wrap-around, C strings as
      byte lists, counted loops ([for_]) with invariant rules, arrays, rings.
    - [CLib.v]: [kernel/mem.h], [kernel/libc_stubs.c]: heap, strings, numbers.
    - [Console.v]: the effect monad, its weakest-precondition rules, the console
      interface; [Vga.v]: [drivers/vga/vga.h].
    - [PigPath.v], [PigFs.v], [PigFsCmd.v], [PigFsSpec.v]: [kernel/pigfs.h]: path
      resolution, tables and deletion store, the commands, their specifications.
    - [Ps2.v]: [drivers/ps2/ps2.h]: key queue, scan codes, mouse packets.
    - [Logger.v]: [kernel/logger.h], [kernel/netlog.h]: ring-buffer logs.
    - [Poing.v]: [kernel/poing/poing.h]: units and [poingctl].
    - [Users.v]: [kernel/users.h]: accounts and groups.
    - [Sha256.v], [Bignum.v], [Aes.v], [Json.v]: the files of [crypto/].
    - [Tetris.v]: [shell/games/tetris.h].
    - [Asn1.v]: [crypto/asn1.h], DER parsing and certificates.
    - [WebSocket.v]: [crypto/websocket.h] over [Transport], the interface of the
      connection below; [ByteStream] states what reading a frame back needs of it
      (the TLS client of this repository does not provide that).
    - [Rtl.v]: [lwip/port/netif/rtl8139.h], the card and its receive ring; the
      ports and the stack above are the interface [Nic] with its laws [NicOk].
    - [Net.v]: [drivers/net/network.h]: detection, set-up, synchronous TCP,
      HTTP, addresses and [ping]; lwIP is the interface [Lwip], a host that
      answers is [EchoHost].
    - [Virtio.v]: [lwip/port/netif/virtio.h], the queues shared with the device,
      which is the interface [VirtDev]; [E1000.v]: [lwip/port/netif/e1000.h].
    - [Rsa.v]: [crypto/rsa.h]; [Tls.v]: [crypto/tls_client.h] over the interface
      [Tcp], which [Net.v] implements; it is itself an instance of [Transport].
      [TcpSink] and [TcpStream] state what sending and receiving records rely
      on: [Net.v] provides the first and not the second.
    - [Discord.v]: [crypto/discord.h], the chat client over [Transport].
    - [VdmClient.v]: [vdm/project/libclient/], the calls of a client, composed
      with the server of [DisplayServer.v]; [Terminal.v]:
      [vdm/project/demo/demo-terminal.c], the terminal window over it;
      [LogFile.v]: [vdm/project/log/], the log files of the server; [Drm.v]:
      [drm.c] and [tty.c], mode, buffers, page flips and the virtual terminal
      over an interface to the card.
    - [Nano.v]: the editor [pnano] of [shell/shell.h]; [Vi.v]: the editor [pi]
      of [shell/vi.h].
    - [ShellEnv.v]: variables, aliases, expansion, histories and the calculator
      of [shell/shell.h] and [shell/lash.h]; [Rpk.v]: [shell/rpk.h].
    - [ShellCmd.v], [Desktop.v], [Shell.v]: the commands, the [wm] desktop and
      the dispatcher of [shell/shell.h]; [Wm.v]: [wm/wm.h], the window manager
      the kernel includes; [Snake.v]: the game of [shell/shell.h];
      [Polctl.v]: [shell/polctl.h]; [NetCmd.v]: [shell/netpg.h] and the network
      commands of [shell/shell.h].
    - [ShellRuns.v]: [Session], the interface of a relation that every command
      respects, and that then every dispatched line does; [ShellInv.v] (the
      invariant [sh_ok]) is an instance.  [ShellAuth.v]: [su] and the login.
    - [Lash.v]: the command line of [shell/lash.h] with history and completion,
      and the endless loop that dispatches; [ShellProps.v]: lines dispatched.
    - [Kernel.v]: [kernel/kernel.c], the run-time configuration and the boot
      sequence from the multiboot entry to the shell, the network brought up by
      [Net.v] included.
    - [Menuconfig.v]: [shell/menuconfig.h], the configuration menu, composed with
      [rt_cfg] of [Kernel.v].
    - [Windows.v], [Compositor.v], [DisplayServer.v]:
      [vdm/project/display-server/]: [window.c], [shm.c], [compositor.c],
      [socket.c], [input.c], [main.c].

    State is a record per component with the C globals (and the locals that live
    across loop passes) as fields; each function is one definition of the same
    name; loops are [for_], structural recursion, or recursion on fuel.

    ** What the theorems show

    - Paths: a relative path resolves to the path of the abstract walk over
      components, an absolute one to its normal form, always within the buffer.
    - File system: creating and writing refine a finite map from names to
      contents, full tables and names removed before included; deletions survive
      a reboot while the store has room; [rm] never removes a critical path
      and otherwise removes exactly its target; [cd], [touch], [cat] and [grep]
      do what they say.
    - Console: printing writes on a roll of paper of which the screen shows the
      last lines, and scrolling moves every line up by one.
    - Devices and logs: the key queue is a FIFO, letters are typed with the
      case of shift and caps lock, the pointer stays on the screen, a log keeps
      its last 64 entries in order.
    - Accounts and units: the commands keep the tables well-formed, and adding a
      user or changing a unit has exactly its effect.
    - Cryptography: streaming SHA-256 equals the padded block computation and
      the 16-word schedule equals the standard's; the multi-word routines
      compute integer arithmetic; padding round-trips; the AES layers.
    - JSON: the parser ends on every input with a well-formed tree; flat objects
      survive printing and parsing while the heap lasts, and what a parse takes of
      it is exact.
    - Tetris: no key sequence makes the game fault; line clearing is exact.
    - Crypto formats: the DER parser ends on every input, with a well-formed table
      or the one fault it can have, and gives back the tree of every encoding
      that fits its 256 nodes and sixteen levels; base64 decodes; a frame that is
      sent is the one RFC 6455 asks for.
    - Network: the frames the card puts into its ring reach the stack in order,
      except those for which it has no buffer, and no content of the ring makes a
      poll fault; [ping] sends packets whose
      checksum verifies and reports a host that answers; addresses are read
      back from what is printed; a TLS record is sent as the chained encryption
      of its data, code and padding; the PKCS#1 block has the standard's form.
    - Network cards: whatever the device does between the calls, what the virtio
      driver hands up is what the device delivered, in order and at most once, and
      no descriptor is lost; a poll of the e1000 never leaves its memory.
    - Discord: a line is read as an editor with a cursor would and shown masked;
      no answer of the server makes the tables ill-formed other than by the
      faults the model has; a message survives the JSON of its request.
    - Display client: a window that is created is the one the server made, a call
      that fails gives back what it took, and events arrive in the order in which
      they were sent.
    - Terminal window: the bytes of control sequences change the grid exactly as
      the commands they stand for change an abstract screen; no bytes leave the
      grid; every pixel of a frame is the glyph bit, the cursor or the ground.
      Double buffering ends with the frame whose flip the card took last on the
      screen, refused flips included; buffers are created whole or not at all and given back at shutdown, as is the terminal.
      The log files hold the lines that pass the level test, in order; rotation
      shifts the old files by one.
    - Editors: a session of [pi] saves what an editor on lines above, the line
      around the cursor and lines below holds.
    - Shell: an editing session of [pnano] refines an editor on text before and after the
      cursor; so does the command line, and Enter dispatches that text;
      expansion is token-wise substitution; a variable that is set is echoed; an
      alias of itself exhausts any stack; the calculator computes; package
      operations keep the database, the commands and the files consistent; [su]
      gives an identity for the account's password only, and the login of the
      desktop opens for an account's name and password only.
    - System: boot reaches the shell with every service registered, or stops in
      the fault of the network start; from then on and up to the first fault,
      whatever is typed, accounts, services, packages, identity, variables and the
      pipe stay well formed; [rt_cfg] decides by the first line that
      mentions the key.
    - Configuration: the first session of the menu saves the values of an editor
      on the table, and [rt_cfg] reads each of them back; with a saved file the
      menu does not open.
    - Window manager: the focus stays sound whatever is typed and clicked; a
      frame shows every window in view once, the focused one on top.
    - Snake: the snake stays a connected line that does not cross itself, and
      the screen shows exactly it and the food.
    - Log viewer: a line of options prints exactly the entries it selects ([-n 0]
      selects them all).
    - Display server: the window table refines a finite map; drawing and
      rendering are exact and in range; in every reachable state each window
      belongs to a connected client; a pass of the main loop serves the clients
      by what the poll reported, in the order of the table.

    Where the code does not do what it means to, a lemma shows it (the last
    column of [bn_mod], the column mixing of AES, the cursor trail, ...).

    ** Bounds and fuel

    Every fuel is proved or argued enough where it is defined: the reader loops
    use the length of their input, [Json.parse_value] twice the input plus one
    ([parse_value_total]), [Bignum.pow_loop] the bits of the exponent
    ([bn_powmod_fuel]), [Tetris.clear_loop] 40 passes ([clear_loop_correct]) and
    [Tetris.hard_drop] the height of the board ([hard_drop_correct]).
    [Bignum.inv_loop] and [bn_gen_prime] take their fuel as an argument, since
    the code need not end.  [Asn1.asn1_children] gets one pass per entry of its
    table, [Tls.hdr_loop] five passes and [Tls.body_loop] and [Tls.send_loop] one
    per byte, since a pass that does not end moves at least one; the polling
    loops of [Net.v] run the code's own number of passes, counted in binary.
    The fuel of [Shell.sh_dispatch] is the depth of the
    stack (running out of it is the fault [StackOverflow]); the one of
    [Lash.lash_loop] counts the keys read.  Integers keep their width wherever they can wrap;
    [int] overflow, undefined in C, is modelled as wrap-around.

    ** Not modelled

    lwIP, stb_truetype and bash-completion (third-party), the Go program
    larpshell, the other demos of the display server, port I/O beyond the values it delivers.
    The programs the dispatcher only starts (the list [Shell.APPS]) are its
    parameter [app]; what the devices answer at boot is the record [Kernel.hw]. *)

From Stdlib Require Import ZArith Lia Ascii.
From stdpp Require Import base numbers list list_numbers strings option.

#[global] Open Scope Z_scope.

(** ** C integers

    A [w]-bit unsigned value is a [Z] in [0, 2^w); every operation of the code
    that may leave that range is followed by the conversion of its type. *)

Definition u8 (z : Z) : Z := z mod 2^8.
Definition u16 (z : Z) : Z := z mod 2^16.
Definition u32 (z : Z) : Z := z mod 2^32.
Definition u64 (z : Z) : Z := z mod 2^64.

(** Two's complement conversion to the signed types [int8_t] and [int]. *)
Definition i8 (z : Z) : Z := (z + 2^7) mod 2^8 - 2^7.
Definition i32 (z : Z) : Z := (z + 2^31) mod 2^32 - 2^31.

Definition byte_ok (b : Z) : Prop := 0 <= b < 256.
Definition bytes_ok (l : list Z) : Prop := Forall byte_ok l.

Lemma u8_range z : 0 <= u8 z < 256.
Proof. unfold u8. apply Z.mod_pos_bound. lia. Qed.
Lemma u16_range z : 0 <= u16 z < 65536.
Proof. unfold u16. apply Z.mod_pos_bound. lia. Qed.
Lemma u32_range z : 0 <= u32 z < 2^32.
Proof. unfold u32. apply Z.mod_pos_bound. lia. Qed.
Lemma u64_range z : 0 <= u64 z < 2^64.
Proof. unfold u64. apply Z.mod_pos_bound. lia. Qed.
Lemma i8_range z : -128 <= i8 z < 128.
Proof. unfold i8. pose proof (Z.mod_pos_bound (z + 2^7) (2^8)). lia. Qed.
Lemma i32_range z : -2^31 <= i32 z < 2^31.
Proof. unfold i32. pose proof (Z.mod_pos_bound (z + 2^31) (2^32)). lia. Qed.

Lemma u8_id z : 0 <= z < 256 -> u8 z = z.
Proof. intros. unfold u8. apply Z.mod_small. lia. Qed.
Lemma u16_id z : 0 <= z < 65536 -> u16 z = z.
Proof. intros. unfold u16. apply Z.mod_small. lia. Qed.
Lemma u32_id z : 0 <= z < 2^32 -> u32 z = z.
Proof. intros. unfold u32. apply Z.mod_small. lia. Qed.
Lemma u64_id z : 0 <= z < 2^64 -> u64 z = z.
Proof. intros. unfold u64. apply Z.mod_small. lia. Qed.
Lemma i32_id z : -2^31 <= z < 2^31 -> i32 z = z.
Proof. intros. unfold i32. rewrite Z.mod_small; lia. Qed.

(** A value below bit [k] and one above it occupy disjoint bits. *)
Lemma lor_high x y k : 0 <= k -> 0 <= x < 2^k -> Z.lor x (2^k * y) = x + 2^k * y.
Proof.
  intros Hk Hx. rewrite <- Z.lxor_lor, <- Z.add_nocarry_lxor; [done| |].
  all: apply Z.bits_inj_iff; intros n; rewrite Z.land_spec, Z.bits_0.
  all: destruct (Z.lt_ge_cases n k) as [Hn|Hn];
    [rewrite Z.mul_comm, Z.mul_pow2_bits_low by lia; apply andb_false_r|].
  all: destruct (Z.eq_dec x 0) as [->|]; [by rewrite Z.bits_0|].
  all: rewrite (Z.bits_above_log2 x); [done|lia|].
  all: apply (Z.lt_le_trans _ k); [apply Z.log2_lt_pow2|]; lia.
Qed.

(** ** C strings

    A NUL-terminated string is the list of its bytes before the terminator;
    a buffer [char b[n]] holds one when the list is shorter than [n]. *)

Notation cstr := (list Z) (only parsing).

Fixpoint cs (s : string) : list Z :=
  match s with
  | EmptyString => []
  | String a s' => Z.of_N (N_of_ascii a) :: cs s'
  end.

Arguments cs _%_string_scope.

Definition no_nul (s : list Z) : Prop := Forall (fun c => c <> 0) s.

(** Length as the [int] or [size_t] the code compares with. *)
Definition zlen {A} (s : list A) : Z := Z.of_nat (length s).

(** [p[i]] where the string is read up to and including its terminator. *)
Definition cget (s : list Z) (i : Z) : Z :=
  if i <? 0 then 0 else nth (Z.to_nat i) s 0.

(** The character constants of the sources, by their ASCII codes. *)
Notation c_bs := 8 (only parsing).
Notation c_tab := 9 (only parsing).
Notation c_nl := 10 (only parsing).
Notation c_cr := 13 (only parsing).
Notation c_esc := 27 (only parsing).
Notation c_sp := 32 (only parsing).
Notation c_dquote := 34 (only parsing).
Notation c_hash := 35 (only parsing).
Notation c_dollar := 36 (only parsing).
Notation c_quote := 39 (only parsing).
Notation c_star := 42 (only parsing).
Notation c_plus := 43 (only parsing).
Notation c_dash := 45 (only parsing).
Notation c_dot := 46 (only parsing).
Notation c_slash := 47 (only parsing).
Notation c_0 := 48 (only parsing).
Notation c_9 := 57 (only parsing).
Notation c_colon := 58 (only parsing).
Notation c_eq := 61 (only parsing).
Notation c_A := 65 (only parsing).
Notation c_Z := 90 (only parsing).
Notation c_bslash := 92 (only parsing).
Notation c_uscore := 95 (only parsing).
Notation c_a := 97 (only parsing).
Notation c_z := 122 (only parsing).
Notation c_pipe := 124 (only parsing).
Notation c_del := 127 (only parsing).

Definition is_digit (c : Z) : bool := (c_0 <=? c) && (c <=? c_9).
Definition is_upper (c : Z) : bool := (c_A <=? c) && (c <=? c_Z).
Definition is_lower (c : Z) : bool := (c_a <=? c) && (c <=? c_z).
Definition to_lower (c : Z) : Z := if is_upper c then c + 32 else c.

(** ** Generic lemmas and automation *)

Create HintDb pig.

Lemma zlen_nonneg {A} (l : list A) : 0 <= zlen l.
Proof. unfold zlen. lia. Qed.
Lemma zlen_nil {A} : zlen (@nil A) = 0.
Proof. reflexivity. Qed.
Lemma zlen_cons {A} (x : A) l : zlen (x :: l) = 1 + zlen l.
Proof. unfold zlen. simpl. lia. Qed.
Lemma zlen_app {A} (l k : list A) : zlen (l ++ k) = zlen l + zlen k.
Proof. unfold zlen. rewrite length_app. lia. Qed.

#[export] Hint Rewrite @zlen_nil @zlen_cons @zlen_app : pig.
#[export] Hint Resolve zlen_nonneg u8_range u16_range u32_range u64_range : pig.

Lemma no_nul_app s t : no_nul (s ++ t) <-> no_nul s /\ no_nul t.
Proof. apply Forall_app. Qed.
Lemma no_nul_cons c s : no_nul (c :: s) <-> c <> 0 /\ no_nul s.
Proof. apply Forall_cons_iff. Qed.
Lemma no_nul_nil : no_nul [].
Proof. constructor. Qed.
#[export] Hint Resolve no_nul_nil : pig.

(** Counting the elements with a property after one is replaced. *)
Lemma zlen_filter_insert {A} (p : A -> bool) (l : list A) n a0 a :
  l !! n = Some a0 ->
  zlen (filter (fun a => p a = true) (<[n := a]> l)) =
  zlen (filter (fun a => p a = true) l) - (if p a0 then 1 else 0) + (if p a then 1 else 0).
Proof.
  assert (Hc : forall v (l : list A), zlen (filter (fun a => p a = true) (v :: l)) =
    (if p v then 1 else 0) + zlen (filter (fun a => p a = true) l)).
  { intros v k. destruct (p v) eqn:E.
    - rewrite filter_cons_True by done. by rewrite zlen_cons.
    - rewrite filter_cons_False by (by rewrite E). lia. }
  revert n. induction l as [|v l IH]; intros n Hn; [done|]. destruct n as [|n].
  - injection Hn as ->. change (<[0%nat := a]> (a0 :: l)) with (a :: l). rewrite !Hc. lia.
  - change (<[S n := a]> (v :: l)) with (v :: <[n := a]> l). rewrite !Hc, IH by done. lia.
Qed.

(** Boolean tests of the code as propositions, with case analysis. *)
Ltac bool_to_prop :=
  repeat match goal with
  | H : andb _ _ = true |- _ => apply andb_prop in H as [? ?]
  | H : orb _ _ = false |- _ => apply orb_false_elim in H as [? ?]
  | H : negb _ = true |- _ => apply negb_true_iff in H
  | H : negb _ = false |- _ => apply negb_false_iff in H
  | H : (_ =? _) = true |- _ => apply Z.eqb_eq in H
  | H : (_ =? _) = false |- _ => apply Z.eqb_neq in H
  | H : (_ <? _) = true |- _ => apply Z.ltb_lt in H
  | H : (_ <? _) = false |- _ => apply Z.ltb_ge in H
  | H : (_ <=? _) = true |- _ => apply Z.leb_le in H
  | H : (_ <=? _) = false |- _ => apply Z.leb_gt in H
  end.

(** Case analysis on a test in the goal, with its propositional reading. *)
Ltac case_test :=
  match goal with
  | |- context [if ?b then _ else _] =>
      lazymatch b with
      | context [if _ then _ else _] => fail
      | context [match _ with _ => _ end] => fail
      | _ => destruct b eqn:?
      end
  end; bool_to_prop.

(** ** Counted loops: [for(i=lo;i<hi;i++) s=f(i,s)]. *)

Definition for_ {T} (lo hi : Z) (f : Z -> T -> T) (s : T) : T :=
  fold_left (fun s i => f i s) (seqZ lo (hi - lo)) s.

Arguments for_ {T} lo hi f s : simpl never.

Lemma for_done {T} lo hi (f : Z -> T -> T) s : hi <= lo -> for_ lo hi f s = s.
Proof. intros. unfold for_. by rewrite seqZ_nil by lia. Qed.

Lemma for_step {T} lo hi (f : Z -> T -> T) s :
  lo < hi -> for_ lo hi f s = for_ (lo + 1) hi f (f lo s).
Proof.
  intros. unfold for_. rewrite seqZ_cons by lia. simpl. f_equal.
  f_equal; lia.
Qed.

(** The last iteration split off. *)
Lemma for_last {T} lo hi (f : Z -> T -> T) s :
  lo <= hi -> for_ lo (hi + 1) f s = f hi (for_ lo hi f s).
Proof.
  intros. unfold for_. replace (hi + 1 - lo) with (hi - lo + 1) by lia.
  rewrite seqZ_app by lia. rewrite fold_left_app.
  replace (lo + (hi - lo)) with hi by lia. by rewrite seqZ_cons.
Qed.

(** Loop invariant rule: [I] may speak of the counter. *)
Lemma for_ind {T} (I : Z -> T -> Prop) lo hi f s :
  lo <= hi -> I lo s ->
  (forall i s, lo <= i < hi -> I i s -> I (i + 1) (f i s)) ->
  I hi (for_ lo hi f s).
Proof.
  intros Hle H0 Hstep.
  assert (Hn : forall n, (n <= Z.to_nat (hi - lo))%nat ->
            I (lo + Z.of_nat n) (for_ lo (lo + Z.of_nat n) f s)).
  { induction n as [|n IH]; intros Hn.
    - rewrite for_done by lia. by rewrite Z.add_0_r.
    - replace (lo + Z.of_nat (S n)) with (lo + Z.of_nat n + 1) by lia.
      rewrite for_last by lia. apply Hstep; [lia|]. apply IH. lia. }
  specialize (Hn (Z.to_nat (hi - lo)) ltac:(lia)).
  by replace (lo + Z.of_nat (Z.to_nat (hi - lo))) with hi in Hn by lia.
Qed.

(** Invariant rule for a property that does not mention the counter; an empty
    range needs no side condition. *)
Lemma for_inv {T} (I : T -> Prop) lo hi f s :
  I s -> (forall i s, lo <= i < hi -> I s -> I (f i s)) -> I (for_ lo hi f s).
Proof.
  intros H0 Hstep. destruct (Z.le_gt_cases hi lo).
  - by rewrite for_done.
  - apply (for_ind (fun _ => I)); [lia|done|]. intros; by apply Hstep.
Qed.

Lemma for_ext {T} lo hi (f g : Z -> T -> T) s :
  (forall i s, lo <= i < hi -> f i s = g i s) -> for_ lo hi f s = for_ lo hi g s.
Proof.
  intros Hfg. unfold for_.
  assert (Ha : forall l, (forall i, i ∈ l -> lo <= i < hi) ->
     forall s, fold_left (fun s i => f i s) l s = fold_left (fun s i => g i s) l s).
  { induction l as [|i l IH]; intros Hl s0; simpl; [done|].
    rewrite Hfg by (apply Hl; left). apply IH. intros; apply Hl; by right. }
  apply Ha. intros i Hi. apply elem_of_seqZ in Hi. lia.
Qed.

(** ** Arrays addressed by an [int] *)

Section Arrays.
Context {A : Type} (d : A).

Definition aget (m : list A) (i : Z) : A := nth (Z.to_nat i) m d.
Definition aset (m : list A) (i : Z) (v : A) : list A := <[Z.to_nat i := v]> m.

Lemma zlen_aset m i v : zlen (aset m i v) = zlen m.
Proof. unfold zlen, aset. by rewrite length_insert. Qed.

Lemma aget_aset_eq m i v : 0 <= i < zlen m -> aget (aset m i v) i = v.
Proof.
  unfold zlen, aget, aset. intros. rewrite nth_lookup, list_lookup_insert_eq by lia. done.
Qed.

Lemma aget_aset_ne m i j v : 0 <= i -> 0 <= j -> i <> j -> aget (aset m i v) j = aget m j.
Proof.
  unfold aget, aset. intros. rewrite !nth_lookup, list_lookup_insert_ne by lia. done.
Qed.

Lemma array_ext (m m' : list A) :
  zlen m = zlen m' -> (forall i, 0 <= i < zlen m -> aget m i = aget m' i) -> m = m'.
Proof.
  unfold zlen, aget. intros Hl He. apply (nth_ext _ _ d d); [lia|].
  intros n Hn. specialize (He (Z.of_nat n) ltac:(lia)). by rewrite Nat2Z.id in He.
Qed.

Lemma Forall_aset (P : A -> Prop) m i v : Forall P m -> P v -> Forall P (aset m i v).
Proof. intros. by apply Forall_insert. Qed.

(** An access out of range reads the default. *)
Lemma Forall_aget_default (P : A -> Prop) m i : Forall P m -> P d -> P (aget m i).
Proof.
  intros H Hd. unfold aget. rewrite nth_lookup.
  destruct (m !! Z.to_nat i) eqn:E; simpl; [|done]. eapply Forall_lookup_1; eauto.
Qed.

Lemma Forall_aget (P : A -> Prop) m i : Forall P m -> 0 <= i < zlen m -> P (aget m i).
Proof.
  unfold zlen, aget. intros H Hi. rewrite nth_lookup.
  destruct (lookup_lt_is_Some_2 m (Z.to_nat i)) as [x Hx]; [lia|]. rewrite Hx.
  eapply Forall_lookup_1; eauto.
Qed.

(** A ring buffer with write position [pos] and [cnt] valid entries, read from
    the oldest to the newest. *)
Definition ring_view (buf : list A) (pos cnt : Z) : list A :=
  map (fun i => aget buf ((pos - cnt + i) mod zlen buf)) (seqZ 0 cnt).

Lemma ring_view_len buf pos cnt : 0 <= cnt -> zlen (ring_view buf pos cnt) = cnt.
Proof. intros. unfold zlen, ring_view. rewrite length_map, length_seqZ. lia. Qed.

(** Writing at [pos] appends the entry; a full ring loses its oldest one. *)
Lemma ring_view_push buf pos cnt x :
  0 <= pos < zlen buf -> 0 <= cnt <= zlen buf ->
  ring_view (aset buf pos x) ((pos + 1) mod zlen buf) (if cnt <? zlen buf then cnt + 1 else cnt) =
  (if cnt <? zlen buf then ring_view buf pos cnt else tail (ring_view buf pos cnt)) ++ [x].
Proof.
  intros Hp Hc. set (n := zlen buf) in *.
  assert (Hold : forall k, 0 <= k < n -> k <> 0 -> aget (aset buf pos x) ((pos - k) mod n) = aget buf ((pos - k) mod n)).
  { intros k Hk Hk0. pose proof (Z.mod_pos_bound (pos - k) n).
    apply aget_aset_ne; [lia|lia|]. intros He.
    destruct (Z.le_gt_cases k pos).
    - rewrite Z.mod_small in He by lia. lia.
    - rewrite <- (Z.mod_add (pos - k) 1 n) in He by lia. rewrite Z.mod_small in He by lia. lia. }
  assert (Hview : forall c, 0 <= c < n ->
    map (fun i => aget (aset buf pos x) (((pos + 1) mod n - (c + 1) + i) mod n)) (seqZ 0 c) =
    map (fun i => aget buf ((pos - c + i) mod n)) (seqZ 0 c)).
  { intros c Hcn. apply map_ext_in. intros i Hi%list_elem_of_In%elem_of_seqZ.
    replace ((pos + 1) mod n - (c + 1) + i) with ((pos + 1) mod n - (c + 1 - i)) by lia.
    rewrite Zminus_mod_idemp_l. replace (pos + 1 - (c + 1 - i)) with (pos - (c - i)) by lia.
    replace (pos - c + i) with (pos - (c - i)) by lia. apply Hold; lia. }
  assert (Hlast : forall c, aget (aset buf pos x) (((pos + 1) mod n - (c + 1) + c) mod n) = x).
  { intros c. replace ((pos + 1) mod n - (c + 1) + c) with ((pos + 1) mod n - 1) by lia.
    rewrite Zminus_mod_idemp_l. replace (pos + 1 - 1) with pos by lia.
    rewrite Z.mod_small by lia. by apply aget_aset_eq. }
  unfold ring_view. rewrite zlen_aset. fold n.
  destruct (Z.ltb_spec cnt n) as [Hlt|Hge].
  - rewrite seqZ_app, map_app by lia. rewrite Hview by lia.
    rewrite (seqZ_cons (0 + cnt)) by lia. simpl. by rewrite Hlast.
  - assert (cnt = n) as -> by lia.
    assert (E1 : seqZ 0 n = seqZ 0 (n - 1) ++ [n - 1]).
    { replace n with (n - 1 + 1) at 1 by lia. rewrite seqZ_app by lia.
      done. }
    assert (E2 : seqZ 0 n = 0 :: map (Z.add 1) (seqZ 0 (n - 1))).
    { rewrite seqZ_cons by lia. f_equal.
      replace (map (Z.add 1) (seqZ 0 (n - 1))) with (seqZ (1 + 0) (n - 1))
        by (symmetry; apply fmap_add_seqZ). f_equal; lia. }
    rewrite E1 at 1. rewrite E2, map_app. cbn [map tail]. f_equal.
    + etransitivity; [|etransitivity; [apply (Hview (n - 1)); lia|]].
      * apply map_ext_in. intros i _. do 2 f_equal. lia.
      * rewrite map_map. apply map_ext_in. intros i _. do 2 f_equal. lia.
    + f_equal. etransitivity; [|apply (Hlast (n - 1))]. do 2 f_equal. lia.
Qed.

End Arrays.

Lemma aget_app_l {A} (d : A) l k i : 0 <= i < zlen l -> aget d (l ++ k) i = aget d l i.
Proof. unfold aget, zlen. intros. rewrite app_nth1 by lia. done. Qed.
Lemma aget_app_r {A} (d : A) l k i : zlen l <= i -> aget d (l ++ k) i = aget d k (i - zlen l).
Proof. unfold aget, zlen. intros. rewrite app_nth2 by lia. f_equal. lia. Qed.
Lemma aget_app_plus {A} (d : A) a b i : 0 <= i -> aget d (a ++ b) (zlen a + i) = aget d b i.
Proof. intros Hi. unfold aget, zlen in *. rewrite app_nth2 by lia. f_equal. lia. Qed.

#[export] Hint Rewrite @zlen_aset : pig.
