(* ===== verification/CLib.v ===== *)
(** * Freestanding C library of the kernel

    Models [kernel/mem.h] (bump allocator, string and number helpers) and
    [kernel/libc_stubs.c] (the libc subset handed to lwIP).  Byte copies act on
    one memory, a [list Z], so that overlap of source and destination shows. *)

From Stdlib Require Import ZArith Lia.
From stdpp Require Import base numbers list.
From S2P Require Import Prelude.

(** ** The bump allocator [km] *)

Module Heap.

Definition HEAP_BASE : Z := 0x400000.
Definition HEAP_SIZE : Z := 4 * 1024 * 1024.
Definition HEAP_LIMIT : Z := HEAP_BASE + HEAP_SIZE.

(** [n=(n+15)&~15u]: the mask [~15u] is a 32-bit constant, widened with zeros
    to [size_t], so the request is also cut to its low 32 bits. *)
Definition round16 (n : Z) : Z := Z.land (u64 (n + 15)) 0xFFFFFFF0.

Definition km (hp n : Z) : option Z * Z :=
  let n := round16 n in
  if HEAP_LIMIT <? hp + n then (None, hp) else (Some hp, hp + n).

(** Successive requests, with the blocks handed out. *)
Fixpoint km_all (hp : Z) (ns : list Z) : list (Z * Z) * Z :=
  match ns with
  | [] => ([], hp)
  | n :: ns' =>
      match km hp n with
      | (Some p, hp') => let '(bs, hp'') := km_all hp' ns' in ((p, n) :: bs, hp'')
      | (None, hp') => km_all hp' ns'
      end
  end.

End Heap.

(** ** Strings *)

Section Strings.

(** [ksl]: the length. *)
Definition ksl (s : cstr) : Z := zlen s.

(** [ksc]: compare; zero exactly on equal strings. *)
Fixpoint ksc (a b : cstr) : Z :=
  match a, b with
  | x :: a', y :: b' => if x =? y then ksc a' b' else x - y
  | x :: _, [] => x - 0
  | [], y :: _ => 0 - y
  | [], [] => 0
  end.

(** [ksnc]: compare at most [n] characters. *)
Fixpoint ksnc (a b : cstr) (n : nat) : Z :=
  match n with
  | O => 0
  | S n' =>
      match a, b with
      | x :: a', y :: b' => if x =? y then ksnc a' b' n' else x - y
      | x :: _, [] => x - 0
      | [], y :: _ => 0 - y
      | [], [] => 0
      end
  end.

(** [!ksc(a,b)] and [ksnc(a,b,n)==0] as the clients test them; the lemmas
    [ksc_zero_iff] and [ksnc_zero_iff] tie them to the two functions above. *)
Definition streq (a b : cstr) : bool := bool_decide (a = b).
Definition strneq (a b : cstr) (n : nat) : bool := bool_decide (take n a = take n b).

(** [kcat] on the string values; the destination's room is checked by the
    caller's model. *)
Definition kcat (d s : cstr) : cstr := d ++ s.
Definition kcp (d s : cstr) : cstr := s.

End Strings.

(** ** Numbers *)

Section Numbers.

(** The digit loop [while(n){t[i++]='0'+n%base;n/=base;}], whose buffer [t] is
    read back to front; [fuel] is the size of [t]. *)
Fixpoint digits_loop (fuel : nat) (digit : Z -> Z) (base n : Z) (acc : cstr) : cstr :=
  match fuel with
  | O => acc
  | S f => if n =? 0 then acc
           else digits_loop f digit base (n / base) (digit (n mod base) :: acc)
  end.

Definition dec_digit (d : Z) : Z := c_0 + d.
Definition hex_digit (d : Z) : Z := if d <? 10 then c_0 + d else c_a + (d - 10).

(** [kia]: signed decimal. *)
Definition kia (n : Z) : cstr :=
  if n =? 0 then [c_0]
  else if n <? 0 then c_dash :: digits_loop 20 dec_digit 10 (- n) []
  else digits_loop 20 dec_digit 10 n [].

(** [kuia]: unsigned, any base up to 16. *)
Definition kuia (n base : Z) : cstr :=
  if n =? 0 then [c_0] else digits_loop 20 hex_digit base n [].

(** The reader loop: while the byte at [p] is a decimal digit [d],
    [v = v*base + d; p++]. *)
Fixpoint read_digits (base acc : Z) (s : cstr) : Z * cstr :=
  match s with
  | c :: s' => if is_digit c then read_digits base (acc * base + (c - c_0)) s' else (acc, s)
  | [] => (acc, s)
  end.

(** Skip every leading [c]: the loops that advance [p] over blanks. *)
Fixpoint skip_char (c : Z) (s : cstr) : cstr :=
  match s with
  | x :: s' => if x =? c then skip_char c s' else s
  | [] => []
  end.

(** Split at the first [c]: the token a scanning loop copies, and the rest,
    which starts with [c] or is empty. *)
Fixpoint span_until (c : Z) (s : cstr) : cstr * cstr :=
  match s with
  | x :: s' => if x =? c then ([], s) else let '(t, r) := span_until c s' in (x :: t, r)
  | [] => ([], [])
  end.
Definition skip_until (c : Z) (s : cstr) : cstr := (span_until c s).2.

(** The same with a token buffer of [n] characters: what does not fit stays. *)
Fixpoint span_max (n : nat) (c : Z) (s : cstr) : cstr * cstr :=
  match n, s with
  | S n', x :: s' => if x =? c then ([], s) else let '(t, r) := span_max n' c s' in (x :: t, r)
  | _, _ => ([], s)
  end.

(** The words of a line, separated by blanks, at most [n] of them. *)
Fixpoint words (fuel n : nat) (s : cstr) : list cstr :=
  match fuel, n with
  | S f, S n' =>
      match skip_char c_sp s with
      | [] => []
      | s' => let '(t, r) := span_until c_sp s' in t :: words f n' (tail r)
      end
  | _, _ => []
  end.

End Numbers.

(** ** libc stubs *)

Module Libc.

(** Byte copy in increasing index order, inside one memory. *)
Fixpoint copy_up (n d s : nat) (m : list Z) : list Z :=
  match n with
  | O => m
  | S n' => copy_up n' (S d) (S s) (<[d := nth s m 0]> m)
  end.

(** Byte copy in decreasing index order. *)
Fixpoint copy_down (n d s : nat) (m : list Z) : list Z :=
  match n with
  | O => m
  | S n' => copy_down n' d s (<[(d + n')%nat := nth (s + n') m 0]> m)
  end.

Definition pig_memcpy (m : list Z) (d s n : nat) : list Z := copy_up n d s m.

Definition pig_memmove (m : list Z) (d s n : nat) : list Z :=
  if (d <? s)%nat then copy_up n d s m else copy_down n d s m.

Fixpoint fill_up (n d : nat) (v : Z) (m : list Z) : list Z :=
  match n with
  | O => m
  | S n' => fill_up n' (S d) v (<[d := u8 v]> m)
  end.

Definition pig_memset (m : list Z) (d : nat) (c : Z) (n : nat) : list Z := fill_up n d c m.

(** The kernel's own byte fill and copy, the same loops in [mem.h]. *)
Definition kms (m : list Z) (d : nat) (v : Z) (n : nat) : list Z := fill_up n d v m.
Definition kmc (m : list Z) (d s n : nat) : list Z := copy_up n d s m.

Fixpoint pig_memcmp (p1 p2 : list Z) (n : nat) : Z :=
  match n with
  | O => 0
  | S n' =>
      let a := nth 0 p1 0 in let b := nth 0 p2 0 in
      if a =? b then pig_memcmp (tail p1) (tail p2) n'
      else if a <? b then -1 else 1
  end.

(** Strings are read with their terminator: the byte after the last is 0. *)
Fixpoint pig_strncmp (s1 s2 : cstr) (n : nat) : Z :=
  match n with
  | O => 0
  | S n' =>
      let a := nth 0 s1 0 in let b := nth 0 s2 0 in
      if negb (a =? b) then (if a <? b then -1 else 1)
      else if a =? 0 then 0
      else pig_strncmp (tail s1) (tail s2) n'
  end.

Definition pig_strlen (s : cstr) : Z := zlen s.

Fixpoint skip_blanks (s : cstr) : cstr :=
  match s with
  | c :: s' => if (c =? c_sp) || (c =? c_tab) then skip_blanks s' else s
  | [] => []
  end.

(** The value and [*endptr]; the digits accepted are '0'..'9' in every base. *)
Definition pig_strtol (nptr : cstr) (base : Z) : Z * cstr :=
  let p := skip_blanks nptr in
  let '(neg, p) :=
    match p with
    | c :: p' => if c =? c_dash then (true, p') else if c =? c_plus then (false, p') else (false, p)
    | [] => (false, p)
    end in
  let '(val, p) := read_digits base 0 p in
  ((if neg then - val else val), p).

(** [sys_now]: the first call records the time-stamp counter and returns 0. *)
Record clock := Clock { tsc_start : Z; clock_init : bool }.

Definition sys_now (tsc : Z) (c : clock) : Z * clock :=
  if clock_init c
  then (u32 (u64 (tsc - tsc_start c) / 2400000), c)
  else (0, Clock tsc true).

End Libc.

(** ** Lemmas on the string comparisons *)

Lemma ksc_zero_iff a b : no_nul a -> no_nul b -> ksc a b = 0 <-> a = b.
Proof.
  revert b; induction a as [|x a IH]; intros [|y b] Ha Hb; simpl; try done.
  - apply no_nul_cons in Hb. split; [lia | done].
  - apply no_nul_cons in Ha. split; [lia | done].
  - apply no_nul_cons in Ha, Hb. destruct (Z.eqb_spec x y) as [->|Hne].
    + rewrite IH by tauto. split; congruence.
    + split; [lia | congruence].
Qed.

Lemma ksnc_zero_iff a b n :
  no_nul a -> no_nul b -> ksnc a b n = 0 <-> take n a = take n b.
Proof.
  revert a b; induction n as [|n IH]; intros [|x a] [|y b] Ha Hb; simpl; try done.
  - apply no_nul_cons in Hb. split; [lia | done].
  - apply no_nul_cons in Ha. split; [lia | done].
  - apply no_nul_cons in Ha, Hb. destruct (Z.eqb_spec x y) as [->|Hne].
    + rewrite IH by tauto. split; congruence.
    + split; [lia | congruence].
Qed.

Lemma streq_true a b : streq a b = true <-> a = b.
Proof. unfold streq. apply bool_decide_eq_true. Qed.
Lemma streq_false a b : streq a b = false <-> a <> b.
Proof. unfold streq. apply bool_decide_eq_false. Qed.
Lemma streq_refl a : streq a a = true.
Proof. by apply streq_true. Qed.
#[export] Hint Rewrite streq_refl : pig.

(** [streq] is what [ksc] computes on NUL-free strings. *)
Lemma streq_ksc a b : no_nul a -> no_nul b -> streq a b = (ksc a b =? 0).
Proof.
  intros Ha Hb. destruct (streq a b) eqn:E; symmetry.
  - apply streq_true in E. by apply Z.eqb_eq, ksc_zero_iff.
  - apply streq_false in E. apply Z.eqb_neq. by rewrite ksc_zero_iff.
Qed.

Lemma strneq_ksnc a b n : no_nul a -> no_nul b -> strneq a b n = (ksnc a b n =? 0).
Proof.
  intros Ha Hb. unfold strneq. case_bool_decide as E; symmetry.
  - by apply Z.eqb_eq, ksnc_zero_iff.
  - apply Z.eqb_neq. by rewrite ksnc_zero_iff.
Qed.

Lemma strneq_prefix a p : strneq a p (length p) = true <-> p `prefix_of` a.
Proof.
  unfold strneq. rewrite bool_decide_eq_true, (take_ge p) by lia. split.
  - intros <-. apply prefix_take.
  - intros [k ->]. by rewrite take_app_length.
Qed.

(** Decide the comparisons of literal strings in the goal. *)
Ltac eval_streq :=
  repeat match goal with
  | |- context [streq ?a ?b] =>
      let r := eval vm_compute in (streq a b) in
      lazymatch r with true => idtac | false => idtac end;
      change (streq a b) with r
  end; cbn [orb andb negb].

(** ** The allocator *)

Section HeapLemmas.
Import Heap.

Lemma round16_spec n :
  0 <= n < 2^32 - 15 -> n <= round16 n < n + 16 /\ round16 n mod 16 = 0.
Proof.
  intros Hn. unfold round16. rewrite u64_id by lia.
  replace 0xFFFFFFF0 with (Z.ldiff (Z.ones 32) (Z.ones 4)) by reflexivity.
  rewrite <- Z.ldiff_land, <- Z.land_assoc || idtac.
  assert (Hx : Z.land (n + 15) (Z.ldiff (Z.ones 32) (Z.ones 4)) = Z.ldiff (n + 15) (Z.ones 4)).
  { rewrite !Z.ldiff_land, Z.land_assoc, Z.land_ones, Z.mod_small by lia. done. }
  rewrite Hx, Z.ldiff_ones_r, Z.shiftl_mul_pow2, Z.shiftr_div_pow2 by lia.
  change (2^4) with 16.
  pose proof (Z.div_mod (n + 15) 16). pose proof (Z.mod_pos_bound (n + 15) 16).
  split; [lia|]. apply Z.mod_mul. lia.
Qed.

(** Blocks handed out by consecutive calls are aligned, inside the heap and
    laid out one after the other. *)
Lemma km_all_layout hp ns :
  HEAP_BASE <= hp -> hp mod 16 = 0 -> Forall (fun n => 0 <= n < 2^32 - 15) ns ->
  let bs := (km_all hp ns).1 in
  Forall (fun b => hp <= b.1 /\ b.1 mod 16 = 0 /\ b.1 + b.2 <= HEAP_LIMIT) bs /\
  ForallOrdPairs (fun b1 b2 => b1.1 + b1.2 <= b2.1) bs.
Proof.
  revert hp; induction ns as [|n ns IH]; intros hp Hb Ha Hn; simpl.
  { split; constructor. }
  apply Forall_cons_iff in Hn as [Hn Hns].
  destruct (round16_spec n Hn) as [Hr Hm].
  unfold km. destruct (Z.ltb_spec HEAP_LIMIT (hp + round16 n)); [by apply IH|].
  destruct (km_all (hp + round16 n) ns) as [bs hp'] eqn:E. simpl.
  specialize (IH (hp + round16 n)). rewrite E in IH. simpl in IH.
  destruct IH as [IH1 IH2]; [lia| |done|].
  { rewrite Z.add_mod, Ha, Hm by lia. done. }
  split; constructor; simpl; try done.
  - lia.
  - eapply Forall_impl; [exact IH1|]. simpl. intros; lia.
  - eapply Forall_impl; [exact IH1|]. simpl. intros; lia.
Qed.

End HeapLemmas.

(** ** Byte copies *)

Section CopyLemmas.
Import Libc.

Lemma length_copy_up n d s m : length (copy_up n d s m) = length m.
Proof. revert d s m; induction n; intros; simpl; [done|]. by rewrite IHn, length_insert. Qed.
Lemma length_copy_down n d s m : length (copy_down n d s m) = length m.
Proof. revert d s m; induction n; intros; simpl; [done|]. by rewrite IHn, length_insert. Qed.

(** An increasing copy reads every source byte before it is overwritten when
    the destination does not start inside the source. *)
Lemma copy_up_lookup n d s m i :
  (d + n <= length m)%nat -> (s + n <= length m)%nat -> (d <= s \/ s + n <= d)%nat ->
  copy_up n d s m !! i =
    if bool_decide (d <= i < d + n)%nat then m !! (s + (i - d))%nat else m !! i.
Proof.
  revert d s m i; induction n as [|n IH]; intros d s m i Hd Hs Ho; simpl.
  { rewrite bool_decide_false by lia. done. }
  rewrite IH by (rewrite ?length_insert; lia).
  case_bool_decide as E1; case_bool_decide as E2; try lia.
  - replace (S s + (i - S d))%nat with (s + (i - d))%nat by lia.
    by rewrite list_lookup_insert_ne by lia.
  - assert (i = d) as -> by lia. rewrite list_lookup_insert_eq by lia.
    replace (s + (d - d))%nat with s by lia.
    symmetry. rewrite (nth_lookup m s 0).
    destruct (lookup_lt_is_Some_2 m s) as [x Hx]; [lia|]. by rewrite Hx.
  - by rewrite list_lookup_insert_ne by lia.
Qed.

Lemma copy_down_lookup n d s m i :
  (d + n <= length m)%nat -> (s + n <= length m)%nat -> (s <= d \/ d + n <= s)%nat ->
  copy_down n d s m !! i =
    if bool_decide (d <= i < d + n)%nat then m !! (s + (i - d))%nat else m !! i.
Proof.
  revert m i; induction n as [|n IH]; intros m i Hd Hs Ho; simpl.
  { rewrite bool_decide_false by lia. done. }
  rewrite IH by (rewrite ?length_insert; lia).
  case_bool_decide as E1; case_bool_decide as E2; try lia.
  - by rewrite list_lookup_insert_ne by lia.
  - assert (i = d + n)%nat as -> by lia. rewrite list_lookup_insert_eq by lia.
    replace (s + (d + n - d))%nat with (s + n)%nat by lia.
    symmetry. rewrite (nth_lookup m (s + n) 0).
    destruct (lookup_lt_is_Some_2 m (s + n)) as [x Hx]; [lia|]. by rewrite Hx.
  - by rewrite list_lookup_insert_ne by lia.
Qed.

End CopyLemmas.

(** ** Decimal conversion *)

Lemma digits_loop_dec fuel n acc :
  0 <= n < 10 ^ Z.of_nat fuel ->
  exists ds, digits_loop fuel dec_digit 10 n acc = ds ++ acc /\
    Forall (fun c => is_digit c = true) ds /\
    (n <> 0 -> ds <> []) /\
    forall v rest, read_digits 10 v (ds ++ rest) = read_digits 10 (v * 10 ^ zlen ds + n) rest.
Proof.
  revert n acc; induction fuel as [|f IH]; intros n acc Hn.
  { exists []. simpl in *. change (10 ^ Z.of_nat 0) with 1 in Hn.
    replace n with 0 by lia. split_and!; [done|constructor|done|].
    intros. simpl. f_equal. rewrite zlen_nil. lia. }
  simpl. destruct (Z.eqb_spec n 0) as [->|Hne].
  { exists []. split_and!; [done|constructor|done|].
    intros. simpl. f_equal. rewrite zlen_nil. lia. }
  assert (Hq : 0 <= n / 10 < 10 ^ Z.of_nat f).
  { split; [apply Z.div_pos; lia|]. apply Z.div_lt_upper_bound; [lia|].
    rewrite Nat2Z.inj_succ in Hn. rewrite Z.pow_succ_r in Hn by lia. lia. }
  pose proof (Z.mod_pos_bound n 10) as Hm.
  destruct (IH (n / 10) (dec_digit (n mod 10) :: acc) Hq) as (ds & -> & Hds & _ & Hr).
  exists (ds ++ [dec_digit (n mod 10)]). split_and!.
  - by rewrite <- app_assoc.
  - apply Forall_app; split; [done|]. repeat constructor.
    unfold is_digit, dec_digit. lia.
  - intros _ Hx. by destruct ds.
  - intros v rest. rewrite <- app_assoc. simpl. rewrite Hr. simpl.
    replace (is_digit (dec_digit (n mod 10))) with true by (unfold is_digit, dec_digit; lia).
    f_equal. autorewrite with pig. unfold dec_digit.
    replace (zlen ds + (1 + 0)) with (Z.succ (zlen ds)) by lia.
    rewrite Z.pow_succ_r by apply zlen_nonneg.
    pose proof (Z.div_mod n 10). nia.
Qed.

Lemma kia_digits n :
  0 < n < 10 ^ 20 -> exists c ds, kia n = c :: ds /\ Forall (fun c => is_digit c = true) (c :: ds) /\
    forall rest, read_digits 10 0 (c :: ds ++ rest) = read_digits 10 n rest.
Proof.
  intros Hn. unfold kia.
  destruct (Z.eqb_spec n 0); [lia|]. destruct (Z.ltb_spec n 0); [lia|].
  destruct (digits_loop_dec 20 n [] ltac:(change (Z.of_nat 20) with 20; lia)) as (ds & -> & Hd & Hne & Hr).
  rewrite app_nil_r. destruct ds as [|c ds]; [exfalso; apply Hne; [lia|done]|].
  exists c, ds. split_and!; try done.
  intros rest. by rewrite app_comm_cons, Hr.
Qed.

(** A number below [base^k] takes at most [k] digits. *)
Lemma digits_loop_length digit fuel k n acc :
  0 <= n < 10 ^ Z.of_nat k -> (length (digits_loop fuel digit 10 n acc) <= k + length acc)%nat.
Proof.
  revert k n acc. induction fuel as [|f IH]; intros k n acc Hn; simpl; [lia|].
  destruct (Z.eqb_spec n 0); [lia|].
  destruct k as [|k]; [change (10 ^ Z.of_nat 0) with 1 in Hn; lia|].
  rewrite Nat2Z.inj_succ, Z.pow_succ_r in Hn by lia.
  pose proof (IH k (n / 10) (digit (n mod 10) :: acc)) as H. simpl length in H.
  assert (0 <= n / 10 < 10 ^ Z.of_nat k)
    by (split; [apply Z.div_pos; lia|apply Z.div_lt_upper_bound; lia]). lia.
Qed.

(** The decimal form of an [int] takes at most 11 characters. *)
Lemma kia_int_length n : -2^31 <= n < 2^31 -> zlen (kia n) <= 11.
Proof.
  intros Hn. unfold kia, zlen.
  destruct (Z.eqb_spec n 0); [cbn [length]; lia|]. destruct (Z.ltb_spec n 0); cbn [length].
  - pose proof (digits_loop_length dec_digit 20 10 (- n) [] ltac:(change (10 ^ Z.of_nat 10) with 10000000000; lia)) as Hk.
    change (length (@nil Z)) with 0%nat in Hk. lia.
  - pose proof (digits_loop_length dec_digit 20 10 n [] ltac:(change (10 ^ Z.of_nat 10) with 10000000000; lia)) as Hk.
    change (length (@nil Z)) with 0%nat in Hk. lia.
Qed.

(** What [kia] prints, the digit reader reads back. *)
Lemma read_digits_kia n rest :
  0 <= n < 10 ^ 20 -> read_digits 10 0 (kia n ++ rest) = read_digits 10 n rest.
Proof.
  intros Hn. destruct (decide (n = 0)) as [->|]; [done|].
  destruct (kia_digits n) as (c & ds & -> & _ & Hr); [lia|]. apply Hr.
Qed.

Definition no_digit_first (s : cstr) : Prop :=
  match s with [] => True | c :: _ => is_digit c = false end.

Lemma read_digits_stop b v s : no_digit_first s -> read_digits b v s = (v, s).
Proof. destruct s; simpl; [done|]. by intros ->. Qed.

Lemma is_digit_no_blank c :
  is_digit c = true -> (c =? c_sp) = false /\ (c =? c_tab) = false /\
                       (c =? c_dash) = false /\ (c =? c_plus) = false.
Proof. unfold is_digit. intros. bool_to_prop. repeat split; lia. Qed.

Lemma strtol_digit_first c s :
  is_digit c = true ->
  Libc.pig_strtol (c :: s) 10 = read_digits 10 0 (c :: s).
Proof.
  intros Hc. destruct (is_digit_no_blank c Hc) as (E1 & E2 & E3 & E4).
  unfold Libc.pig_strtol.
  replace (Libc.skip_blanks (c :: s)) with (c :: s) by (simpl; by rewrite E1, E2).
  cbn beta iota. rewrite E3, E4. by destruct (read_digits _ _ (c :: s)).
Qed.

Lemma strtol_dash s :
  Libc.pig_strtol (c_dash :: s) 10 =
  (let '(v, r) := read_digits 10 0 s in (- v, r)).
Proof. reflexivity. Qed.

(** ** Properties *)

(** Every sequence of [km] requests of less than 4 GiB each is served with
    16-byte aligned blocks that lie inside the 4 MiB heap, in address order and
    without overlap; a request that does not fit gets [NULL] and moves nothing. *)
Theorem km_blocks_disjoint ns :
  Forall (fun n => 0 <= n < 2^32 - 15) ns ->
  let bs := (Heap.km_all Heap.HEAP_BASE ns).1 in
  Forall (fun b => Heap.HEAP_BASE <= b.1 /\ b.1 mod 16 = 0 /\ b.1 + b.2 <= Heap.HEAP_LIMIT) bs /\
  ForallOrdPairs (fun b1 b2 => b1.1 + b1.2 <= b2.1) bs.
Proof. intros. by apply km_all_layout. Qed.

Lemma km_blocks_disjoint_witness :
  let bs := (Heap.km_all Heap.HEAP_BASE [1; 4194304; 100]).1 in
  bs = [(0x400000, 1); (0x400010, 100)] /\ ForallOrdPairs (fun b1 b2 => b1.1 + b1.2 <= b2.1) bs.
Proof.
  split; [reflexivity|]. apply (km_blocks_disjoint [1; 4194304; 100]). repeat constructor; lia.
Defined.

(** The mask is 32 bits wide: a request of exactly 4 GiB is rounded to zero and
    served with a block of no bytes, which the next request gets again. *)
Lemma km_truncates_large_requests :
  Heap.km Heap.HEAP_BASE (2^32) = (Some Heap.HEAP_BASE, Heap.HEAP_BASE).
Proof. reflexivity. Qed.

(** [pig_memmove] is a simultaneous copy whatever the overlap of source and
    destination: afterwards the destination holds the bytes the source held
    before, and every other byte of the memory is unchanged. *)
Theorem memmove_correct m d s n i :
  (d + n <= length m)%nat -> (s + n <= length m)%nat ->
  Libc.pig_memmove m d s n !! i =
    if bool_decide (d <= i < d + n)%nat then m !! (s + (i - d))%nat else m !! i.
Proof.
  intros. unfold Libc.pig_memmove. destruct (Nat.ltb_spec d s).
  - apply copy_up_lookup; lia.
  - apply copy_down_lookup; lia.
Qed.

Lemma memmove_correct_witness :
  Libc.pig_memmove [1; 2; 3; 4; 5] 1 0 4 !! 4%nat = Some 4.
Proof. apply (memmove_correct [1; 2; 3; 4; 5] 1 0 4 4); simpl; lia. Defined.

(** A plain increasing copy is wrong on the same input, which is why lwIP is
    given [pig_memmove]. *)
Lemma memcpy_overlap_differs :
  Libc.pig_memcpy [1; 2; 3; 4; 5] 1 0 4 = [1; 1; 1; 1; 1].
Proof. reflexivity. Qed.

(** Printing a C [int] with [kia] and reading it back with [pig_strtol] in
    base 10 gives the same number, for every value but the one whose negation
    overflows, and leaves exactly the text after it. *)
Theorem kia_strtol_roundtrip n rest :
  -2^31 < n < 2^31 -> no_digit_first rest ->
  Libc.pig_strtol (kia n ++ rest) 10 = (n, rest).
Proof.
  intros Hn Hr. destruct (Z.lt_trichotomy n 0) as [Hneg|[->|Hpos]].
  - assert (Hk : kia n = c_dash :: kia (- n)).
    { unfold kia. replace (n =? 0) with false by lia. replace (n <? 0) with true by lia.
      replace (- n =? 0) with false by lia. by replace (- n <? 0) with false by lia. }
    rewrite Hk. simpl app. rewrite strtol_dash.
    rewrite read_digits_kia, read_digits_stop by (done || lia). f_equal. lia.
  - change (kia 0) with [c_0]. simpl app. rewrite strtol_digit_first by done.
    change (read_digits 10 0 (c_0 :: rest)) with (read_digits 10 0 rest).
    by apply read_digits_stop.
  - destruct (kia_digits n) as (c & ds & Hk & Hd & Hread); [lia|]. rewrite Hk.
    apply Forall_cons_iff in Hd as [Hc _]. simpl app. rewrite strtol_digit_first by done.
    rewrite Hread. by apply read_digits_stop.
Qed.

Lemma kia_strtol_roundtrip_witness :
  Libc.pig_strtol (kia (-1337) ++ [c_sp; c_0]) 10 = (-1337, [c_sp; c_0]).
Proof. apply (kia_strtol_roundtrip (-1337) [c_sp; c_0]); [lia|reflexivity]. Defined.
