(* ===== verification/Console.v ===== *)
(** * Console effects

    The kernel's commands run over shared C state, print on the console and may
    fault (write past a fixed buffer, dereference [NULL], halt the machine).
    They are modelled in one small monad: a computation maps a state to either a
    result or a fault, in both cases with the state it leaves and the console
    events it emitted, in order.  [Vga.v] interprets the events on the screen. *)

From Stdlib Require Import ZArith Lia.
From stdpp Require Import base numbers list.
From S2P Require Import Prelude.

(** ** Console events: one constructor per entry point of [vga.h] *)

Inductive cev :=
  | EPs (s : cstr)                              (* vps *)
  | EPln (s : cstr)                             (* vpln *)
  | EPc (c : Z)                                 (* vpc *)
  | ESet (fg bg : Z)                            (* vset *)
  | ERst                                        (* vrst *)
  | EClear                                      (* vclear, vga_init *)
  | EAt (c col x y : Z)                         (* vat *)
  | EFill (x y w h ch col : Z)                  (* vfill *)
  | EStr (x y col : Z) (s : cstr)               (* vstr *)
  | EHwCursor                                   (* vga_update_hw_cursor *)
  | EMove (x y : Z)                             (* vx=x; vy=y; *)
  | ECursorL                                    (* vcursor_left *)
  | ECursorR                                    (* vcursor_right *)
  | EPageUp                                     (* vscroll_pageup *)
  | EPageDown                                   (* vscroll_pagedown *)
  | EScrollUp                                   (* vscroll_up *)
  | EScrollDown                                 (* vscroll_down *)
  | EOut (port val : Z)                         (* outb *)
  | EPipe (on : bool)                           (* pipe_buf_len=0; pipe_active=1;  or  pipe_active=0; *)
  | EPutCur (c col : Z)                         (* vat(c,col,vx,vy); vx++; *)
  | ECursorOn (start end_ : Z)                  (* vga_enable_cursor *)
  | ECursorOff                                  (* vga_disable_cursor *)
  | EInvert (x y : Z).                          (* the colours of VGA_MEM[y*VGA_W+x] swapped, as [cmd_vi] does *)

#[export] Instance cev_eq_dec : EqDecision cev.
Proof. solve_decision. Defined.

(** ** Faults *)

Inductive fault :=
  | BufferOverflow   (* a string copy past the end of a fixed buffer *)
  | OutOfBounds      (* an array index outside the array *)
  | NullDeref        (* a NULL pointer read or written *)
  | Halted           (* [hlt] with interrupts off: the machine stops *)
  | Blocked          (* waiting for a key that never comes *)
  | StackOverflow    (* calls nested deeper than the kernel stack *)
  | DivByZero.       (* a division by zero: an exception without a handler *)

#[export] Instance fault_eq_dec : EqDecision fault.
Proof. solve_decision. Defined.

(** ** The monad *)

Inductive res (T A : Type) :=
  | Ok (a : A) (s : T) (out : list cev)
  | Err (f : fault) (s : T) (out : list cev).
Arguments Ok {T A} _ _ _.
Arguments Err {T A} _ _ _.

Definition M (T A : Type) : Type := T -> res T A.

#[export] Instance M_ret T : MRet (M T) := fun A a s => Ok a s [].
#[export] Instance M_bind T : MBind (M T) := fun A B k m s =>
  match m s with
  | Ok a s' o =>
      match k a s' with
      | Ok b s'' o' => Ok b s'' (o ++ o')
      | Err f s'' o' => Err f s'' (o ++ o')
      end
  | Err f s' o => Err f s' o
  end.

Section Primitives.
Context {T : Type}.

Definition get : M T T := fun s => Ok s s [].
Definition modify (f : T -> T) : M T unit := fun s => Ok tt (f s) [].
Definition fail {A} (f : fault) : M T A := fun s => Err f s [].
Definition emit (e : cev) : M T unit := fun s => Ok tt s [e].

(** Run a computation on a part of the state. *)
Definition zoom {U A} (g : T -> U) (p : U -> T -> T) (m : M U A) : M T A := fun s =>
  match m (g s) with
  | Ok a u o => Ok a (p u s) o
  | Err f u o => Err f (p u s) o
  end.

(** The guard of a copy into [char d[n]]: the string and its terminator fit. *)
Definition fits (n : Z) (s : cstr) : M T unit :=
  if zlen s <? n then mret tt else fail BufferOverflow.

(** The guard of an array access [a[i]] on an array of [n] elements. *)
Definition in_array (n i : Z) : M T unit :=
  if (0 <=? i) && (i <? n) then mret tt else fail OutOfBounds.

Fixpoint mapM_ {A} (f : A -> M T unit) (l : list A) : M T unit :=
  match l with
  | [] => mret tt
  | x :: l' => f x ;; mapM_ f l'
  end.

Definition vps (s : cstr) := emit (EPs s).
Definition vpln (s : cstr) := emit (EPln s).
Definition vpc (c : Z) := emit (EPc c).
Definition vset (fg bg : Z) := emit (ESet fg bg).
Definition vrst := emit ERst.
Definition vclear := emit EClear.
Definition vat (c col x y : Z) := emit (EAt c col x y).
Definition vfill (x y w h ch col : Z) := emit (EFill x y w h ch col).
Definition vstr (x y col : Z) (s : cstr) := emit (EStr x y col s).

(** [vset(C_LRED,C_BLACK); ...; vrst();] around a message is everywhere. *)
Definition in_color (fg bg : Z) (m : M T unit) : M T unit :=
  vset fg bg ;; m ;; vrst.

End Primitives.

(** The state after a run, whatever its outcome, and what it printed. *)
Definition post {T A} (r : res T A) : T :=
  match r with Ok _ s _ => s | Err _ s _ => s end.
Definition output {T A} (r : res T A) : list cev :=
  match r with Ok _ _ o => o | Err _ _ o => o end.
Definition result {T A} (r : res T A) : A + fault :=
  match r with Ok a _ _ => inl a | Err f _ _ => inr f end.

(** Colours of [vga.h]. *)
Notation C_BLACK := 0 (only parsing).
Notation C_BLUE := 1 (only parsing).
Notation C_GREEN := 2 (only parsing).
Notation C_CYAN := 3 (only parsing).
Notation C_RED := 4 (only parsing).
Notation C_MAG := 5 (only parsing).
Notation C_BROWN := 6 (only parsing).
Notation C_LGREY := 7 (only parsing).
Notation C_DGREY := 8 (only parsing).
Notation C_LBLUE := 9 (only parsing).
Notation C_LGREEN := 10 (only parsing).
Notation C_LCYAN := 11 (only parsing).
Notation C_LRED := 12 (only parsing).
Notation C_LMAG := 13 (only parsing).
Notation C_YELLOW := 14 (only parsing).
Notation C_WHITE := 15 (only parsing).

Definition COL (fg bg : Z) : Z := u8 (Z.lor fg (Z.shiftl bg 4)).

(** ** Reasoning: weakest preconditions *)

Definition wp {T A} (m : M T A) (s : T) (Q : A -> T -> Prop) (E : fault -> T -> Prop) : Prop :=
  match m s with Ok a s' _ => Q a s' | Err f s' _ => E f s' end.

Section Wp.
Context {T : Type}.
Implicit Types (s : T) (E : fault -> T -> Prop).

Lemma wp_ret {A} (a : A) s Q E : Q a s -> wp (mret a) s Q E.
Proof. done. Qed.

Lemma wp_bind {A B} (m : M T A) (k : A -> M T B) s Q E :
  wp m s (fun a s' => wp (k a) s' Q E) E -> wp (m ≫= k) s Q E.
Proof.
  unfold wp. unfold mbind, M_bind. destruct (m s) as [a s' o|f s' o]; [|done].
  by destruct (k a s').
Qed.

Lemma wp_get s Q E : Q s s -> wp get s Q E.
Proof. done. Qed.
Lemma wp_modify f s Q E : Q tt (f s) -> wp (modify f) s Q E.
Proof. done. Qed.
Lemma wp_emit e s Q E : Q tt s -> wp (emit e) s Q E.
Proof. done. Qed.
Lemma wp_fail {A} f s (Q : A -> T -> Prop) E : E f s -> wp (fail f) s Q E.
Proof. done. Qed.

Lemma wp_fits n x s Q E :
  (zlen x < n -> Q tt s) -> (n <= zlen x -> E BufferOverflow s) -> wp (fits n x) s Q E.
Proof. unfold fits. case_test; intros H1 H2; [apply H1 | apply H2]; lia. Qed.

Lemma wp_in_array n i s Q E :
  (0 <= i < n -> Q tt s) -> (~ 0 <= i < n -> E OutOfBounds s) -> wp (in_array n i) s Q E.
Proof.
  unfold in_array. destruct ((0 <=? i) && (i <? n)) eqn:Hb; intros H1 H2.
  - apply H1. bool_to_prop. lia.
  - apply H2. intros Hi. by assert ((0 <=? i) && (i <? n) = true) by lia; congruence.
Qed.

Lemma wp_zoom {U A} g p (m : M U A) s Q E :
  wp m (g s) (fun a u => Q a (p u s)) (fun f u => E f (p u s)) -> wp (zoom g p m) s Q E.
Proof. unfold wp, zoom. by destruct (m (g s)). Qed.

Lemma wp_mono {A} (m : M T A) s (Q Q' : A -> T -> Prop) (E E' : fault -> T -> Prop) :
  wp m s Q E -> (forall a s', Q a s' -> Q' a s') -> (forall f s', E f s' -> E' f s') ->
  wp m s Q' E'.
Proof. unfold wp. destruct (m s); auto. Qed.

Lemma wp_mapM {A} (f : A -> M T unit) l s (I : T -> Prop) E :
  I s -> (forall x s, x ∈ l -> I s -> wp (f x) s (fun _ => I) E) ->
  wp (mapM_ f l) s (fun _ => I) E.
Proof.
  revert s. induction l as [|x l IH]; intros s Hs Hf; simpl; [by apply wp_ret|].
  apply wp_bind. eapply wp_mono; [apply Hf; [left|done]| |done].
  simpl. intros _ s' Hs'. apply IH; [done|]. intros; apply Hf; [by right|done].
Qed.

(** A computation that only prints keeps the state. *)
Definition pure_out (m : M T unit) : Prop := forall s, post (m s) = s.

Lemma wp_post {A} (m : M T A) s (P : T -> Prop) :
  wp m s (fun _ => P) (fun _ => P) <-> P (post (m s)).
Proof. unfold wp, post. by destruct (m s). Qed.

End Wp.

(** One step of symbolic execution. *)
Ltac wp_step :=
  lazymatch goal with
  | |- wp (mbind _ _) _ _ _ => apply wp_bind
  | |- wp (mret _) _ _ _ => apply wp_ret
  | |- wp get _ _ _ => apply wp_get
  | |- wp (modify _) _ _ _ => apply wp_modify
  | |- wp (emit _) _ _ _ => apply wp_emit
  | |- wp (vps _) _ _ _ => apply wp_emit
  | |- wp (vpln _) _ _ _ => apply wp_emit
  | |- wp (vpc _) _ _ _ => apply wp_emit
  | |- wp (vset _ _) _ _ _ => apply wp_emit
  | |- wp vrst _ _ _ => apply wp_emit
  | |- wp vclear _ _ _ => apply wp_emit
  | |- wp (vat _ _ _ _) _ _ _ => apply wp_emit
  | |- wp (vfill _ _ _ _ _ _) _ _ _ => apply wp_emit
  | |- wp (vstr _ _ _ _) _ _ _ => apply wp_emit
  | |- wp (in_color _ _ _) _ _ _ => unfold in_color
  | |- wp (fits _ _) _ _ _ => apply wp_fits; intros ?
  | |- wp (in_array _ _) _ _ _ => apply wp_in_array; intros ?
  | |- wp (fail _) _ _ _ => apply wp_fail
  | |- wp (zoom _ _ _) _ _ _ => apply wp_zoom
  | |- wp (if ?b then _ else _) _ _ _ => destruct b eqn:?
  | |- wp (match ?o with Some _ => _ | None => _ end) _ _ _ => destruct o eqn:?
  end.
Ltac wp_run := repeat (wp_step; cbv beta).

(** Same state, more output: what a caller sees of a monadic sequence. *)
Lemma bind_ok {T A B} (m : M T A) (k : A -> M T B) s a s' o :
  m s = Ok a s' o ->
  (m ≫= k) s = match k a s' with
               | Ok b s'' o' => Ok b s'' (o ++ o')
               | Err f s'' o' => Err f s'' (o ++ o')
               end.
Proof. unfold mbind, M_bind. by intros ->. Qed.

(** A silent step in front. *)
Lemma bind_silent {T A B} (m : M T A) (k : A -> M T B) s a s' : m s = Ok a s' [] -> (m ≫= k) s = k a s'.
Proof. intros Hm. rewrite (bind_ok m k s a s' []) by done. by destruct (k a s'). Qed.

(** ** The interface to a console

    A device that interprets events.  A program's cursor moves stay on the
    80x25 screen ([ev_ok], which excludes the unchecked step of [EPutCur]); the
    device promises to keep its invariant. *)

Definition ev_ok (e : cev) : Prop :=
  match e with EMove x y | EInvert x y => 0 <= x < 80 /\ 0 <= y < 25 | EPutCur _ _ => False | _ => True end.

Class Sink (V : Type) (run : cev -> V -> V) := {
  sink_ok : V -> Prop;
  sink_step : forall e v, ev_ok e -> sink_ok v -> sink_ok (run e v);
}.

Lemma sink_run_ok {V run} `{!Sink V run} es v :
  Forall ev_ok es -> sink_ok v -> sink_ok (fold_left (fun v e => run e v) es v).
Proof. intros Hes. revert v. induction Hes; simpl; auto using sink_step. Qed.

(** A program whose cursor moves all stay on the screen, whatever its state. *)
Definition draws_ok {T A} (m : M T A) : Prop := forall s, Forall ev_ok (output (m s)).

Section Draws.
Context {T : Type}.

Lemma draws_ret {A} (a : A) : draws_ok (T := T) (mret a).
Proof. intros s. constructor. Qed.
Lemma draws_get : draws_ok (T := T) get.
Proof. intros s. constructor. Qed.
Lemma draws_modify (f : T -> T) : draws_ok (modify f).
Proof. intros s. constructor. Qed.
Lemma draws_fail {A} f : draws_ok (T := T) (A := A) (fail f).
Proof. intros s. constructor. Qed.
Lemma draws_emit e : ev_ok e -> draws_ok (T := T) (emit e).
Proof. intros He s. by repeat constructor. Qed.
Lemma draws_bind {A B} (m : M T A) (k : A -> M T B) :
  draws_ok m -> (forall a, draws_ok (k a)) -> draws_ok (m ≫= k).
Proof.
  intros Hm Hk s. specialize (Hm s). unfold mbind, M_bind. destruct (m s) as [a s' o|f s' o]; [|done].
  specialize (Hk a s'). destruct (k a s'); simpl in *; by apply Forall_app.
Qed.
Lemma draws_zoom {U A} (g : T -> U) p (m : M U A) : draws_ok m -> draws_ok (zoom g p m).
Proof. intros Hm s. specialize (Hm (g s)). unfold zoom. by destruct (m (g s)). Qed.
Lemma draws_mapM {A} (f : A -> M T unit) l : (forall x, draws_ok (f x)) -> draws_ok (mapM_ f l).
Proof. intros Hf. induction l; simpl; [apply draws_ret|]. apply draws_bind; auto. Qed.
Lemma draws_fits n x : draws_ok (T := T) (fits n x).
Proof. intros s. unfold fits. by case_match; constructor. Qed.
Lemma draws_in_array n i : draws_ok (T := T) (in_array n i).
Proof. intros s. unfold in_array. by case_match; constructor. Qed.

End Draws.

Create HintDb draws.
#[export] Hint Resolve draws_ret draws_get draws_modify draws_fail draws_fits draws_in_array : draws.
#[export] Hint Extern 1 (draws_ok (emit _)) => apply draws_emit; exact I : draws.
#[export] Hint Extern 1 (draws_ok (vps _)) => apply draws_emit; exact I : draws.
#[export] Hint Extern 1 (draws_ok (vpln _)) => apply draws_emit; exact I : draws.
#[export] Hint Extern 1 (draws_ok (vpc _)) => apply draws_emit; exact I : draws.
#[export] Hint Extern 1 (draws_ok (vset _ _)) => apply draws_emit; exact I : draws.
#[export] Hint Extern 1 (draws_ok (vrst)) => apply draws_emit; exact I : draws.
#[export] Hint Extern 1 (draws_ok (vclear)) => apply draws_emit; exact I : draws.
#[export] Hint Extern 1 (draws_ok (vat _ _ _ _)) => apply draws_emit; exact I : draws.
#[export] Hint Extern 1 (draws_ok (vfill _ _ _ _ _ _)) => apply draws_emit; exact I : draws.
#[export] Hint Extern 1 (draws_ok (vstr _ _ _ _)) => apply draws_emit; exact I : draws.

(** Walk through a program; what is left are its calls and cursor moves. *)
Ltac draws :=
  repeat first
    [ progress cbv zeta beta
    | apply draws_bind; [|intros ?]
    | solve [auto with draws]
    | apply draws_zoom
    | apply draws_mapM; intros ?
    | match goal with |- draws_ok (if ?b then _ else _) => destruct b end
    | match goal with |- draws_ok (match ?x with _ => _ end) => destruct x end ].

(** ** Programs whose runs stay in a preorder

    [runs R m]: whatever the outcome, [m] leaves a state related to the one it
    started from.  With [R s s' := I s -> I s'] this is preservation of [I], with
    a reachability relation it is refinement of a transition system. *)

Definition runs {T A} (R : T -> T -> Prop) (m : M T A) : Prop := forall s, R s (post (m s)).

Section Runs.
Context {T : Type} (R : T -> T -> Prop) `{!PreOrder R}.

Lemma runs_ret {A} (a : A) : runs R (mret a).
Proof. intros s. simpl. reflexivity. Qed.
Lemma runs_get : runs R get.
Proof. intros s. simpl. reflexivity. Qed.
Lemma runs_fail {A} f : runs R (fail (A := A) f).
Proof. intros s. simpl. reflexivity. Qed.
Lemma runs_emit e : runs R (emit e).
Proof. intros s. simpl. reflexivity. Qed.
Lemma runs_fits n x : runs R (fits n x).
Proof. intros s. unfold fits. case_match; simpl; reflexivity. Qed.
Lemma runs_in_array n i : runs R (in_array n i).
Proof. intros s. unfold in_array. case_match; simpl; reflexivity. Qed.
Lemma runs_modify f : (forall s, R s (f s)) -> runs R (modify f).
Proof. intros Hf s. apply Hf. Qed.
Lemma runs_bind {A B} (m : M T A) (k : A -> M T B) : runs R m -> (forall a, runs R (k a)) -> runs R (m ≫= k).
Proof.
  intros Hm Hk s. specialize (Hm s). unfold mbind, M_bind. destruct (m s) as [a s' o|f s' o]; [|done].
  specialize (Hk a s'). simpl in *. destruct (k a s'); simpl in *; by etrans.
Qed.
Lemma runs_mapM {A} (f : A -> M T unit) l : (forall x, runs R (f x)) -> runs R (mapM_ f l).
Proof. intros Hf. induction l; simpl; [apply runs_ret|]. apply runs_bind; auto. Qed.
Lemma runs_zoom {U A} (R' : U -> U -> Prop) (g : T -> U) p (m : M U A) :
  runs R' m -> (forall s u, R' (g s) u -> R s (p u s)) -> runs R (zoom g p m).
Proof. intros Hm Hp s. specialize (Hm (g s)). unfold zoom. destruct (m (g s)); simpl in *; by apply Hp. Qed.

(** A program may be run knowing the state it read. *)
Lemma runs_get_bind {B} (k : T -> M T B) : (forall s, R s (post (k s s))) -> runs R (s ← get; k s).
Proof. intros Hk s. unfold mbind, M_bind, get. specialize (Hk s). by destruct (k s s). Qed.

End Runs.

(** Preservation of a predicate. *)
Definition keeps {T} (I : T -> Prop) (s s' : T) : Prop := I s -> I s'.
#[export] Instance keeps_preorder {T} (I : T -> Prop) : PreOrder (keeps I).
Proof. split; [intros s H; exact H|intros s1 s2 s3 H1 H2 H; auto]. Qed.

Lemma runs_keeps_wp {T A} (I : T -> Prop) (m : M T A) :
  runs (keeps I) m <-> forall s, I s -> wp m s (fun _ => I) (fun _ => I).
Proof.
  unfold runs, keeps, wp. split; intros H s Hs; specialize (H s Hs); by destruct (m s).
Qed.

Create HintDb runs.
#[export] Hint Resolve runs_ret runs_get runs_fail runs_emit runs_fits runs_in_array : runs.
#[export] Hint Extern 1 (runs _ (vps _)) => apply runs_emit; typeclasses eauto : runs.
#[export] Hint Extern 1 (runs _ (vpln _)) => apply runs_emit; typeclasses eauto : runs.
#[export] Hint Extern 1 (runs _ (vpc _)) => apply runs_emit; typeclasses eauto : runs.
#[export] Hint Extern 1 (runs _ (vset _ _)) => apply runs_emit; typeclasses eauto : runs.
#[export] Hint Extern 1 (runs _ (vrst)) => apply runs_emit; typeclasses eauto : runs.
#[export] Hint Extern 1 (runs _ (vclear)) => apply runs_emit; typeclasses eauto : runs.
#[export] Hint Extern 1 (runs _ (vat _ _ _ _)) => apply runs_emit; typeclasses eauto : runs.
#[export] Hint Extern 1 (runs _ (vfill _ _ _ _ _ _)) => apply runs_emit; typeclasses eauto : runs.
#[export] Hint Extern 1 (runs _ (vstr _ _ _ _)) => apply runs_emit; typeclasses eauto : runs.

(** Walk through a program; what is left are its calls and state changes. *)
Ltac runs :=
  repeat first
    [ progress cbv zeta beta
    | solve [auto with runs typeclass_instances]
    | progress unfold in_color
    | apply runs_bind; [typeclasses eauto| |intros ?]
    | apply runs_mapM; [typeclasses eauto|intros ?]
    | match goal with |- runs _ (if ?b then _ else _) => destruct b end
    | match goal with |- runs _ (match ?x with _ => _ end) => destruct x end ].
