(* ===== verification/Vga.v ===== *)
(** * VGA text console ([drivers/vga/vga.h])

    The 80x25 text screen with its scrollback ring, the hardware cursor and the
    pipe buffer that captures output.  Text memory is a list of 16-bit cells;
    writes to the CRT controller ports are recorded in order.  [run_ev] gives
    the meaning of the console events of [Console.v] on this state. *)

From Stdlib Require Import ZArith Lia.
From stdpp Require Import base numbers list list_numbers strings.
From S2P Require Import Prelude CLib Console.

Notation VGA_W := 80 (only parsing).
Notation VGA_H := 25 (only parsing).
Notation VGA_CELLS := 2000 (only parsing).
Notation VGA_PORT_IDX := 0x3D4 (only parsing).
Notation VGA_PORT_DATA := 0x3D5 (only parsing).
Notation SCROLLBACK_LINES := 100 (only parsing).
Notation PIPE_MAX := 4095 (only parsing).

Definition ENT (c col : Z) : Z := Z.lor (u8 c) (Z.shiftl (u8 col) 8).

Record vga := Vga {
  vx : Z; vy : Z; vc : Z;
  vga_cursor_enabled : bool;
  VGA_MEM : list Z;
  scrollback : list (list Z);
  scrollback_pos : Z;
  scrollback_count : Z;
  pipe_buf : list Z;
  pipe_active : bool;
  ports : list (Z * Z);          (* port writes, oldest first *)
}.

(** Field updates. *)
Definition set_vx x v := Vga x (vy v) (vc v) (vga_cursor_enabled v) (VGA_MEM v) (scrollback v)
  (scrollback_pos v) (scrollback_count v) (pipe_buf v) (pipe_active v) (ports v).
Definition set_vy y v := Vga (vx v) y (vc v) (vga_cursor_enabled v) (VGA_MEM v) (scrollback v)
  (scrollback_pos v) (scrollback_count v) (pipe_buf v) (pipe_active v) (ports v).
Definition set_vc c v := Vga (vx v) (vy v) c (vga_cursor_enabled v) (VGA_MEM v) (scrollback v)
  (scrollback_pos v) (scrollback_count v) (pipe_buf v) (pipe_active v) (ports v).
Definition set_cursor_enabled b v := Vga (vx v) (vy v) (vc v) b (VGA_MEM v) (scrollback v)
  (scrollback_pos v) (scrollback_count v) (pipe_buf v) (pipe_active v) (ports v).
Definition set_mem m v := Vga (vx v) (vy v) (vc v) (vga_cursor_enabled v) m (scrollback v)
  (scrollback_pos v) (scrollback_count v) (pipe_buf v) (pipe_active v) (ports v).
Definition set_scrollback sb p n v := Vga (vx v) (vy v) (vc v) (vga_cursor_enabled v) (VGA_MEM v) sb
  p n (pipe_buf v) (pipe_active v) (ports v).
Definition set_pipe b v := Vga (vx v) (vy v) (vc v) (vga_cursor_enabled v) (VGA_MEM v) (scrollback v)
  (scrollback_pos v) (scrollback_count v) b (pipe_active v) (ports v).
Definition set_pipe_active b v := Vga (vx v) (vy v) (vc v) (vga_cursor_enabled v) (VGA_MEM v) (scrollback v)
  (scrollback_pos v) (scrollback_count v) (pipe_buf v) b (ports v).
Definition outb p x v := Vga (vx v) (vy v) (vc v) (vga_cursor_enabled v) (VGA_MEM v) (scrollback v)
  (scrollback_pos v) (scrollback_count v) (pipe_buf v) (pipe_active v) (ports v ++ [(p, u8 x)]).

Section Vga.

(** [crtc i]: what reading the data port returns when register [i] is selected. *)
Context (crtc : Z -> Z).

Definition vga_update_hw_cursor (v : vga) : vga :=
  if negb (vga_cursor_enabled v) then v
  else
    let pos := u16 (vy v * VGA_W + vx v) in
    let v := outb VGA_PORT_DATA (Z.land pos 0xFF) (outb VGA_PORT_IDX 0x0F v) in
    outb VGA_PORT_DATA (Z.shiftr pos 8) (outb VGA_PORT_IDX 0x0E v).

Definition vga_enable_cursor (start end_ : Z) (v : vga) : vga :=
  let v := outb VGA_PORT_IDX 0x0A v in
  let v := outb VGA_PORT_DATA (Z.lor (Z.land (u8 (crtc 0x0A)) 0xC0) start) v in
  let v := outb VGA_PORT_IDX 0x0B v in
  let v := outb VGA_PORT_DATA (Z.lor (Z.land (u8 (crtc 0x0B)) 0xE0) end_) v in
  set_cursor_enabled true v.

Definition vga_disable_cursor (v : vga) : vga :=
  set_cursor_enabled false (outb VGA_PORT_DATA 0x20 (outb VGA_PORT_IDX 0x0A v)).

(** A store to the text memory. *)
Definition mem_set (i x : Z) (v : vga) : vga := set_mem (aset (VGA_MEM v) i x) v.
Definition mem_get (v : vga) (i : Z) : Z := aget 0 (VGA_MEM v) i.

Definition vga_init (v : vga) : vga :=
  let v := set_vc (COL C_WHITE C_BLACK) (set_vy 0 (set_vx 0 v)) in
  let v := for_ 0 VGA_H (fun r v => for_ 0 VGA_W (fun c v =>
             mem_set (r * VGA_W + c) (ENT c_sp (COL C_WHITE C_BLACK)) v) v) v in
  vga_update_hw_cursor (vga_enable_cursor 13 15 v).

Definition vset (fg bg : Z) (v : vga) : vga := set_vc (COL fg bg) v.
Definition vrst (v : vga) : vga := set_vc (COL C_WHITE C_BLACK) v.

Definition off_screen (x y : Z) : bool :=
  (x <? 0) || (VGA_W <=? x) || (y <? 0) || (VGA_H <=? y).

Definition vat (c col x y : Z) (v : vga) : vga :=
  if off_screen x y then v else mem_set (y * VGA_W + x) (ENT c col) v.

Definition vget (x y : Z) (v : vga) : Z :=
  if off_screen x y then 0 else mem_get v (y * VGA_W + x).

Definition vfill (x y w h ch col : Z) (v : vga) : vga :=
  for_ 0 h (fun r v => for_ 0 w (fun c v => vat ch col (x + c) (y + r) v) v) v.

(** The row loops of the scrolling functions, cell by cell. *)
Definition copy_row (dst src : Z) (v : vga) : vga :=
  for_ 0 VGA_W (fun c v => mem_set (dst * VGA_W + c) (mem_get v (src * VGA_W + c)) v) v.
Definition clear_row (r col : Z) (v : vga) : vga :=
  for_ 0 VGA_W (fun c v => mem_set (r * VGA_W + c) (ENT c_sp col) v) v.
Definition row (v : vga) (r : Z) : list Z :=
  map (fun c => mem_get v (r * VGA_W + c)) (seqZ 0 VGA_W).

Arguments row v r : simpl never.

Definition vscroll (v : vga) : vga :=
  let v := set_scrollback
             (aset (scrollback v) (scrollback_pos v) (row v 0))
             ((scrollback_pos v + 1) mod SCROLLBACK_LINES)
             (if scrollback_count v <? SCROLLBACK_LINES
              then scrollback_count v + 1 else scrollback_count v) v in
  let v := for_ 1 VGA_H (fun r v => copy_row (r - 1) r v) v in
  let v := clear_row (VGA_H - 1) (vc v) v in
  set_vy (VGA_H - 1) v.

Definition sb_idx (v : vga) : Z :=
  Z.rem (scrollback_pos v - scrollback_count v + SCROLLBACK_LINES) SCROLLBACK_LINES.

Definition vscroll_up (v : vga) : vga :=
  if scrollback_count v =? 0 then v
  else
    let v := for_ 0 (VGA_H - 1) (fun k v =>
               let r := VGA_H - 1 - k in copy_row r (r - 1) v) v in
    let i := if sb_idx v <? 0 then sb_idx v + SCROLLBACK_LINES else sb_idx v in
    let v := for_ 0 VGA_W (fun c v => mem_set (0 * VGA_W + c) (aget 0 (aget [] (scrollback v) i) c) v) v in
    vga_update_hw_cursor (set_vy 0 v).

Definition vscroll_down (v : vga) : vga :=
  if scrollback_count v =? 0 then v
  else
    let v := for_ 0 (VGA_H - 1) (fun r v => copy_row r (r + 1) v) v in
    let v := clear_row (VGA_H - 1) (vc v) v in
    vga_update_hw_cursor (set_vy (VGA_H - 1) v).

(** [for(s=0; s<10 && scrollback_count>0; s++)]: the bodies keep the count. *)
Definition vscroll_pageup (v : vga) : vga :=
  for_ 0 10 (fun _ v => if 0 <? scrollback_count v then vscroll_up v else v) v.
Definition vscroll_pagedown (v : vga) : vga :=
  for_ 0 10 (fun _ v => if 0 <? scrollback_count v then vscroll_down v else v) v.

Definition vcursor_left (v : vga) : vga :=
  vga_update_hw_cursor
    (if 0 <? vx v then set_vx (vx v - 1) v
     else if 0 <? vy v then set_vx (VGA_W - 1) (set_vy (vy v - 1) v) else v).

Definition vcursor_right (v : vga) : vga :=
  vga_update_hw_cursor
    (if vx v <? VGA_W - 1 then set_vx (vx v + 1) v
     else let v := set_vx 0 v in if vy v <? VGA_H - 1 then set_vy (vy v + 1) v else v).

Definition vat_cur (c : Z) (v : vga) : vga := vat c (vc v) (vx v) (vy v) v.

(** [vx=0; if(++vy>=VGA_H)vscroll();] *)
Definition newline (v : vga) : vga :=
  let v := set_vy (vy v + 1) (set_vx 0 v) in
  if VGA_H <=? vy v then vscroll v else v.

Definition vpc (c : Z) (v : vga) : vga :=
  vga_update_hw_cursor
    (if c =? c_nl then newline v
     else if c =? c_cr then set_vx 0 v
     else if c =? c_bs then
       (if 0 <? vx v then let v := set_vx (vx v - 1) v in vat c_sp (vc v) (vx v) (vy v) v else v)
     else if c =? c_tab then
       let v := set_vx (Z.land (vx v + 8) (Z.lnot 7)) v in
       if VGA_W <=? vx v then newline v else v
     else
       let v := vat c (vc v) (vx v) (vy v) v in
       let v := set_vx (vx v + 1) v in
       if VGA_W <=? vx v then newline v else v).

Definition pipe_put (c : Z) (v : vga) : vga :=
  if zlen (pipe_buf v) <? PIPE_MAX then set_pipe (pipe_buf v ++ [c]) v else v.

Definition vps (s : cstr) (v : vga) : vga :=
  if pipe_active v then fold_left (fun v c => pipe_put c v) s v
  else fold_left (fun v c => vpc (u8 c) v) s v.

Definition vpln (s : cstr) (v : vga) : vga :=
  let v := vps s v in
  if negb (pipe_active v) then vpc c_nl v else pipe_put c_nl v.

Definition vclear (v : vga) : vga := vga_init v.

Fixpoint vstr (x y col : Z) (s : cstr) (v : vga) : vga :=
  match s with
  | [] => v
  | c :: s' => vstr (x + 1) y col s' (vat (u8 c) col x y v)
  end.

Definition vstrlen (s : cstr) : Z := zlen s.

(** Box-drawing characters used below. *)
Notation CH_TL := 0xC9 (only parsing).
Notation CH_TR := 0xBB (only parsing).
Notation CH_BL := 0xC8 (only parsing).
Notation CH_BR := 0xBC (only parsing).
Notation CH_H := 0xCD (only parsing).
Notation CH_V := 0xBA (only parsing).
Notation CH_ML := 0xCC (only parsing).
Notation CH_MR := 0xB9 (only parsing).
Notation CH_STL := 0xDA (only parsing).
Notation CH_STR := 0xBF (only parsing).
Notation CH_SH := 0xC4 (only parsing).
Notation CH_BLOCK := 0xDB (only parsing).

Definition vbox_win10 (x y w h title_bg : Z) (title : option cstr) (focused : bool) (v : vga) : vga :=
  let shadow := COL C_DGREY C_DGREY in
  let v := for_ 1 h (fun r v => vat CH_BLOCK shadow (x + w) (y + r) v) v in
  let v := for_ 1 (w + 1) (fun c v => vat CH_BLOCK shadow (x + c) (y + h) v) v in
  let v := vfill x y w h c_sp (COL C_WHITE C_BLACK) v in
  let tb1 := if focused then COL C_WHITE C_BLUE else COL C_LGREY C_DGREY in
  let tb2 := if focused then COL C_LCYAN C_BLUE else COL C_DGREY C_DGREY in
  let v := vfill x y w 1 c_sp tb1 v in
  let v := vfill x (y + 1) w 1 c_sp tb1 v in
  let v := vfill x (y + 2) w 1 c_sp tb2 v in
  let v := match title with
           | None => v
           | Some t =>
               let tl := vstrlen t in
               let tx := x + 1 in
               for_ 0 (Z.min tl (x + w - 4 - tx)) (fun i v =>
                 vat (u8 (aget 0 t i)) tb1 (tx + i) (y + 1) v) v
           end in
  let v := if 8 <=? w then
      let v := vat CH_SH (COL C_WHITE C_DGREY) (x + w - 7) (y + 1) v in
      let v := vat c_sp (COL C_WHITE C_DGREY) (x + w - 6) (y + 1) v in
      let v := vat CH_STL (COL C_WHITE C_DGREY) (x + w - 5) (y + 1) v in
      let v := vat CH_STR (COL C_WHITE C_DGREY) (x + w - 4) (y + 1) v in
      let v := vat c_sp (COL C_WHITE C_DGREY) (x + w - 3) (y + 1) v in
      let v := vat 88 (COL C_WHITE C_LRED) (x + w - 2) (y + 1) v in
      vat c_sp (COL C_WHITE C_LRED) (x + w - 1) (y + 1) v
    else v in
  let bc := if focused then COL C_LBLUE C_LBLUE else COL C_DGREY C_DGREY in
  let v := for_ y (y + h) (fun r v => vat c_sp bc (x - 1) r v) v in
  let v := for_ y (y + h) (fun r v => vat c_sp bc (x + w) r v) v in
  for_ x (x + w) (fun c v => vat c_sp bc c (y + h) v) v.

Definition vbox (x y w h bc tc : Z) (title : option cstr) (v : vga) : vga :=
  let v := vfill (x + 1) (y + 1) (w - 2) (h - 2) c_sp (COL C_WHITE C_BLACK) v in
  let v := vat CH_TL bc x y v in
  let v := for_ 1 (w - 1) (fun i v => vat CH_H bc (x + i) y v) v in
  let v := vat CH_TR bc (x + w - 1) y v in
  let v := vfill (x + 1) (y + 1) (w - 2) 1 c_sp tc v in
  let v := match title with
           | None => v
           | Some t => vstr (x + 1 + Z.quot (w - 2 - vstrlen t) 2) (y + 1) tc t v
           end in
  let v := vat 91 tc (x + w - 4) (y + 1) v in
  let v := vat 88 (COL C_WHITE C_RED) (x + w - 3) (y + 1) v in
  let v := vat 93 tc (x + w - 2) (y + 1) v in
  let v := vat CH_ML bc x (y + 2) v in
  let v := for_ 1 (w - 1) (fun i v => vat CH_H bc (x + i) (y + 2) v) v in
  let v := vat CH_MR bc (x + w - 1) (y + 2) v in
  let v := for_ 3 (h - 1) (fun r v => vat CH_V bc (x + w - 1) (y + r) (vat CH_V bc x (y + r) v)) v in
  let v := vat CH_BL bc x (y + h - 1) v in
  let v := for_ 1 (w - 1) (fun i v => vat CH_H bc (x + i) (y + h - 1) v) v in
  vat CH_BR bc (x + w - 1) (y + h - 1) v.

(** [vitoa]: [kia] that also returns the length. *)
Definition vitoa (n : Z) : Z * cstr := (zlen (kia n), kia n).

(** The escape sequence [vset_truecolor] leaves in its buffer. *)
Definition dec3 (x : Z) : cstr := [c_0 + x / 100; c_0 + (x / 10) mod 10; c_0 + x mod 10].
Definition vset_truecolor (r g b : Z) : cstr :=
  [c_esc] ++ cs "[38;2;" ++ dec3 r ++ [59] ++ dec3 g ++ [59] ++ dec3 b ++ cs "m".
Definition vrst_truecolor : cstr := [c_esc] ++ cs "[0m".

(** The cursor block [cmd_vi] draws: foreground and background of a cell swapped. *)
Definition invert_cell (x y : Z) (v : vga) : vga :=
  let i := y * VGA_W + x in
  let cell := mem_get v i in
  let col := u8 (Z.shiftr cell 8) in
  let fg := Z.land col 15 in
  let bg := Z.land (Z.shiftr col 4) 15 in
  mem_set i (u16 (Z.lor (Z.land cell 255) (Z.shiftl (u16 (Z.lor (Z.shiftl fg 4) bg)) 8))) v.

(** The meaning of console events. *)
Definition run_ev (e : cev) (v : vga) : vga :=
  match e with
  | EPs s => vps s v
  | EPln s => vpln s v
  | EPc c => vpc (u8 c) v
  | ESet fg bg => vset fg bg v
  | ERst => vrst v
  | EClear => vclear v
  | EAt c col x y => vat c col x y v
  | EFill x y w h ch col => vfill x y w h ch col v
  | EStr x y col s => vstr x y col s v
  | EHwCursor => vga_update_hw_cursor v
  | EMove x y => set_vy y (set_vx x v)
  | ECursorL => vcursor_left v
  | ECursorR => vcursor_right v
  | EPageUp => vscroll_pageup v
  | EPageDown => vscroll_pagedown v
  | EScrollUp => vscroll_up v
  | EScrollDown => vscroll_down v
  | EOut p x => outb p x v
  | EPipe on => set_pipe_active on (if on then set_pipe [] v else v)
  | EPutCur c col => let v := vat c col (vx v) (vy v) v in set_vx (vx v + 1) v
  | ECursorOn a b => vga_enable_cursor a b v
  | ECursorOff => vga_disable_cursor v
  | EInvert x y => invert_cell x y v
  end.
Definition run_evs (es : list cev) (v : vga) : vga := fold_left (fun v e => run_ev e v) es v.

End Vga.

(** The state at power on: static initializers; [mem] is whatever the firmware
    left in text memory. *)
Definition vga_boot (mem : list Z) : vga :=
  Vga 0 0 (COL C_WHITE C_BLACK) true mem (replicate 100 (replicate 80 0)) 0 0 [] false [].

(** ** Well-formedness *)

Record vga_ok (v : vga) : Prop := VgaOk {
  ok_vx : 0 <= vx v < VGA_W;
  ok_vy : 0 <= vy v < VGA_H;
  ok_vc : byte_ok (vc v);
  ok_len : zlen (VGA_MEM v) = VGA_CELLS;
  ok_cells : Forall (fun x => 0 <= x < 65536) (VGA_MEM v);
  ok_sb_len : zlen (scrollback v) = SCROLLBACK_LINES;
  ok_sb_rows : Forall (fun r => zlen r = VGA_W /\ Forall (fun x => 0 <= x < 65536) r) (scrollback v);
  ok_sb_pos : 0 <= scrollback_pos v < SCROLLBACK_LINES;
  ok_sb_count : 0 <= scrollback_count v <= SCROLLBACK_LINES;
  ok_pipe : zlen (pipe_buf v) <= PIPE_MAX;
}.

(** The part of the invariant that does not constrain the cursor: it holds in
    the middle of [vpc], where [vx] and [vy] step over the edge. *)
Definition vga_mem_ok (v : vga) : Prop :=
  vga_ok (set_vx 0 (set_vy 0 v)).

Lemma vga_ok_split v :
  vga_ok v <-> vga_mem_ok v /\ 0 <= vx v < VGA_W /\ 0 <= vy v < VGA_H.
Proof.
  split.
  - intros []. split; [|done]. constructor; simpl; try done; lia.
  - intros [[] [? ?]]. constructor; simpl in *; done.
Qed.

(** Same screen data: everything but cursor position, cursor switch and ports. *)
Lemma vga_mem_ok_cursor f v :
  (forall u, vc (f u) = vc u /\ VGA_MEM (f u) = VGA_MEM u /\ scrollback (f u) = scrollback u /\
     scrollback_pos (f u) = scrollback_pos u /\ scrollback_count (f u) = scrollback_count u /\
     pipe_buf (f u) = pipe_buf u) ->
  vga_mem_ok v -> vga_mem_ok (f v).
Proof.
  intros Hf []. destruct (Hf v) as (H1 & H2 & H3 & H4 & H5 & H6).
  constructor; simpl in *; rewrite ?H1, ?H2, ?H3, ?H4, ?H5, ?H6; assumption.
Qed.

Lemma set_vx_mem_ok x v : vga_mem_ok v -> vga_mem_ok (set_vx x v).
Proof. by apply (vga_mem_ok_cursor (set_vx x)). Qed.
Lemma set_vy_mem_ok y v : vga_mem_ok v -> vga_mem_ok (set_vy y v).
Proof. by apply (vga_mem_ok_cursor (set_vy y)). Qed.
Lemma outb_mem_ok p x v : vga_mem_ok v -> vga_mem_ok (outb p x v).
Proof. by apply (vga_mem_ok_cursor (outb p x)). Qed.
Lemma set_cursor_enabled_mem_ok b v : vga_mem_ok v -> vga_mem_ok (set_cursor_enabled b v).
Proof. by apply (vga_mem_ok_cursor (set_cursor_enabled b)). Qed.
Lemma COL_byte fg bg : byte_ok (COL fg bg).
Proof. apply u8_range. Qed.
Lemma set_vc_mem_ok c v : byte_ok c -> vga_mem_ok v -> vga_mem_ok (set_vc c v).
Proof. intros Hc []. by constructor. Qed.

Lemma ENT_range c col : 0 <= ENT c col < 65536.
Proof.
  unfold ENT. pose proof (u8_range c). pose proof (u8_range col).
  assert (Hd : Z.land (u8 c) (Z.shiftl (u8 col) 8) = 0).
  { apply Z.bits_inj'. intros n Hn. rewrite Z.land_spec, Z.bits_0, Z.shiftl_spec by lia.
    destruct (Z.lt_ge_cases n 8).
    - by rewrite (Z.testbit_neg_r (u8 col)), andb_false_r by lia.
    - unfold u8. rewrite Z.mod_pow2_bits_high by lia. done. }
  rewrite <- Z.lxor_lor, <- Z.add_nocarry_lxor by done.
  rewrite Z.shiftl_mul_pow2 by lia. lia.
Qed.

Lemma mem_set_mem_ok i x v : 0 <= x < 65536 -> vga_mem_ok v -> vga_mem_ok (mem_set i x v).
Proof.
  intros Hx []. constructor; simpl in *; try done.
  - by rewrite zlen_aset.
  - by apply Forall_aset.
Qed.

Lemma mem_get_range v i : vga_mem_ok v -> 0 <= mem_get v i < 65536.
Proof.
  intros []. unfold mem_get. by apply (Forall_aget_default 0 (fun x => 0 <= x < 65536)).
Qed.

Create HintDb vga.
#[export] Hint Resolve set_vx_mem_ok set_vy_mem_ok outb_mem_ok set_cursor_enabled_mem_ok
  set_vc_mem_ok mem_set_mem_ok mem_get_range COL_byte ENT_range : vga.

Lemma vat_mem_ok c col x y v : vga_mem_ok v -> vga_mem_ok (vat c col x y v).
Proof. unfold vat. case_test; auto with vga. Qed.
#[export] Hint Resolve vat_mem_ok : vga.

Lemma vfill_mem_ok x y w h ch col v : vga_mem_ok v -> vga_mem_ok (vfill x y w h ch col v).
Proof. intros. unfold vfill. apply for_inv; [done|]. intros. apply for_inv; auto with vga. Qed.

Lemma vstr_mem_ok x y col s v : vga_mem_ok v -> vga_mem_ok (vstr x y col s v).
Proof. revert x v; induction s; simpl; auto with vga. Qed.

Lemma copy_row_mem_ok d s v : vga_mem_ok v -> vga_mem_ok (copy_row d s v).
Proof. intros. unfold copy_row. apply for_inv; auto with vga. Qed.
Lemma clear_row_mem_ok r col v : vga_mem_ok v -> vga_mem_ok (clear_row r col v).
Proof. intros. unfold clear_row. apply for_inv; auto with vga. Qed.
Lemma hw_cursor_mem_ok v : vga_mem_ok v -> vga_mem_ok (vga_update_hw_cursor v).
Proof. unfold vga_update_hw_cursor. case_test; auto with vga. Qed.
#[export] Hint Resolve vfill_mem_ok vstr_mem_ok copy_row_mem_ok clear_row_mem_ok hw_cursor_mem_ok : vga.

Lemma row_ok v r : vga_mem_ok v -> zlen (row v r) = VGA_W /\ Forall (fun x => 0 <= x < 65536) (row v r).
Proof.
  intros Hv. unfold row. split.
  - unfold zlen. rewrite length_map, length_seqZ. done.
  - apply Forall_map, Forall_forall. intros. by apply mem_get_range.
Qed.

Lemma vscroll_mem_ok v : vga_mem_ok v -> vga_mem_ok (vscroll v).
Proof.
  intros Hv. unfold vscroll. apply set_vy_mem_ok, clear_row_mem_ok.
  apply for_inv; [|auto with vga].
  pose proof (row_ok v 0 Hv) as [Hr1 Hr2]. destruct Hv; simpl in *.
  pose proof (Z.mod_pos_bound (scrollback_pos v + 1) SCROLLBACK_LINES eq_refl).
    constructor; simpl in *; try done.
  - by rewrite zlen_aset.
  - by apply Forall_aset.
  - case_test; lia.
Qed.
#[export] Hint Resolve vscroll_mem_ok : vga.

Lemma vscroll_up_mem_ok v : vga_mem_ok v -> vga_mem_ok (vscroll_up v).
Proof.
  intros Hv. unfold vscroll_up. case_test; [done|].
  apply hw_cursor_mem_ok, set_vy_mem_ok. apply for_inv; [apply for_inv; auto with vga|].
  intros i u _ Hu. apply mem_set_mem_ok; [|done].
  match goal with |- context [aget [] _ ?k] => generalize k end. intros k.
  destruct Hu as [_ _ _ _ _ _ Hr _ _ _].
  apply (Forall_aget_default 0 (fun x => 0 <= x < 65536)); [|done].
  apply (Forall_aget_default [] (fun r => Forall (fun x => 0 <= x < 65536) r)); [|constructor].
  eapply Forall_impl; [exact Hr|]. by intros r [].
Qed.

Lemma vscroll_down_mem_ok v : vga_mem_ok v -> vga_mem_ok (vscroll_down v).
Proof.
  intros. unfold vscroll_down. case_test; [done|].
  apply hw_cursor_mem_ok, set_vy_mem_ok, clear_row_mem_ok, for_inv; auto with vga.
Qed.
#[export] Hint Resolve vscroll_up_mem_ok vscroll_down_mem_ok : vga.

(** ** Cursor positions *)

(** No store to text memory, colour or port moves the cursor. *)
Definition keeps_xy (f : vga -> vga) : Prop := forall v, vx (f v) = vx v /\ vy (f v) = vy v.

Lemma for_keeps_xy lo hi (f : Z -> vga -> vga) :
  (forall i, keeps_xy (f i)) -> keeps_xy (for_ lo hi f).
Proof.
  intros Hf v. apply (for_inv (fun u => vx u = vx v /\ vy u = vy v)); [done|].
  intros i u _ [H1 H2]. by destruct (Hf i u) as [-> ->].
Qed.
Lemma mem_set_keeps_xy i x : keeps_xy (mem_set i x).
Proof. done. Qed.
Lemma hw_cursor_keeps_xy : keeps_xy vga_update_hw_cursor.
Proof. intros v. unfold vga_update_hw_cursor. by case_test. Qed.
Lemma vat_keeps_xy c col x y : keeps_xy (vat c col x y).
Proof. intros v. unfold vat. by case_test. Qed.
Lemma vfill_keeps_xy x y w h ch col : keeps_xy (vfill x y w h ch col).
Proof. apply for_keeps_xy. intros. apply for_keeps_xy. intros. apply vat_keeps_xy. Qed.
Lemma copy_row_keeps_xy d s : keeps_xy (copy_row d s).
Proof. by apply for_keeps_xy. Qed.
Lemma clear_row_keeps_xy r c : keeps_xy (clear_row r c).
Proof. by apply for_keeps_xy. Qed.
Lemma vstr_keeps_xy x y col s : keeps_xy (vstr x y col s).
Proof.
  revert x; induction s as [|c s IH]; intros x v; simpl; [done|].
  destruct (IH (x + 1) (vat (u8 c) col x y v)) as [-> ->]. apply vat_keeps_xy.
Qed.

Lemma set_vy_vx y v : vx (set_vy y v) = vx v.
Proof. done. Qed.

Lemma set_vy_mem y v : VGA_MEM (set_vy y v) = VGA_MEM v.
Proof. done. Qed.

Lemma vscroll_xy v : vx (vscroll v) = vx v /\ vy (vscroll v) = VGA_H - 1.
Proof.
  unfold vscroll. cbv zeta. split; [|done]. rewrite set_vy_vx.
  match goal with |- vx (clear_row ?r ?c ?u) = _ => destruct (clear_row_keeps_xy r c u) as [-> _] end.
  match goal with |- vx (for_ ?a ?b ?f ?u) = _ =>
    destruct (for_keeps_xy a b f (fun i => copy_row_keeps_xy _ _) u) as [-> _] end. done.
Qed.

Lemma vscroll_up_xy v :
  0 <= vx v < VGA_W -> 0 <= vy v < VGA_H ->
  0 <= vx (vscroll_up v) < VGA_W /\ 0 <= vy (vscroll_up v) < VGA_H.
Proof.
  intros. unfold vscroll_up. case_test; [done|].
  match goal with |- context [vga_update_hw_cursor ?u] =>
    destruct (hw_cursor_keeps_xy u) as [-> ->] end.
  split; [|done]. rewrite set_vy_vx.
  match goal with |- context [vx (for_ 0 VGA_W ?f ?u)] =>
    destruct (for_keeps_xy 0 VGA_W f (fun i v => conj eq_refl eq_refl) u) as [-> _] end.
  match goal with |- context [vx (for_ ?a ?b ?f v)] =>
    destruct (for_keeps_xy a b f (fun i => copy_row_keeps_xy _ _) v) as [-> _] end. done.
Qed.

Lemma vscroll_down_xy v :
  0 <= vx v < VGA_W -> 0 <= vy v < VGA_H ->
  0 <= vx (vscroll_down v) < VGA_W /\ 0 <= vy (vscroll_down v) < VGA_H.
Proof.
  intros. unfold vscroll_down. case_test; [done|].
  match goal with |- context [vga_update_hw_cursor ?u] =>
    destruct (hw_cursor_keeps_xy u) as [-> ->] end.
  split; [|done]. rewrite set_vy_vx.
  match goal with |- context [vx (clear_row ?r ?c ?u)] =>
    destruct (clear_row_keeps_xy r c u) as [-> _] end.
  match goal with |- context [vx (for_ ?a ?b ?f v)] =>
    destruct (for_keeps_xy a b f (fun i => copy_row_keeps_xy _ _) v) as [-> _] end. done.
Qed.

(** The cursor after [newline] is at the start of a line of the screen. *)
Lemma newline_ok v : vga_mem_ok v -> 0 <= vy v < VGA_H -> vga_ok (newline v).
Proof.
  intros Hv Hy. unfold newline. apply vga_ok_split. simpl. destruct (25 <=? vy v + 1) eqn:E; bool_to_prop.
  - destruct (vscroll_xy (set_vy (vy v + 1) (set_vx 0 v))) as [-> ->].
    split; [auto with vga|].  simpl. lia.
  - split; [auto with vga|]. simpl. lia.
Qed.

Lemma hw_cursor_ok v : vga_ok v -> vga_ok (vga_update_hw_cursor v).
Proof.
  rewrite !vga_ok_split. intros [? ?]. destruct (hw_cursor_keeps_xy v) as [-> ->]. auto with vga.
Qed.

(** Where the tab stop lands: the next multiple of 8. *)
Lemma tab_stop x : Z.land (x + 8) (Z.lnot 7) = (x / 8 + 1) * 8.
Proof.
  change (Z.lnot 7) with (Z.lnot (Z.ones 3)). rewrite <- Z.ldiff_land, Z.ldiff_ones_r by lia.
  rewrite Z.shiftl_mul_pow2, Z.shiftr_div_pow2 by lia. change (2^3) with 8.
  replace (x + 8) with (x + 1 * 8) by lia. by rewrite Z.div_add by lia.
Qed.

Lemma vpc_ok c v : vga_ok v -> vga_ok (vpc c v).
Proof.
  intros Hv. pose proof Hv as (Hm & Hx & Hy)%vga_ok_split. unfold vpc. apply hw_cursor_ok.
  destruct (c =? c_nl); [by apply newline_ok|].
  destruct (c =? c_cr).
  { apply vga_ok_split. simpl.  split; [auto with vga|lia]. }
  destruct (c =? c_bs).
  { destruct (0 <? vx v) eqn:E; [|done]. bool_to_prop. apply vga_ok_split.
    destruct (vat_keeps_xy c_sp (vc (set_vx (vx v - 1) v)) (vx v - 1) (vy v) (set_vx (vx v - 1) v)) as [E1 E2].
    simpl in *. rewrite E1, E2. split; [auto with vga|lia]. }
  destruct (c =? c_tab).
  { cbv zeta. rewrite tab_stop.
    assert (0 <= (vx v / 8 + 1) * 8) by (pose proof (Z.div_pos (vx v) 8); lia).
    simpl. destruct (VGA_W <=? (vx v / 8 + 1) * 8) eqn:E; bool_to_prop.
    - apply newline_ok; simpl; auto with vga.
    - apply vga_ok_split; simpl. split; [auto with vga|lia]. }
  destruct (vat_keeps_xy c (vc v) (vx v) (vy v) v) as [E1 E2]. cbv zeta.
  set (u := vat c (vc v) (vx v) (vy v) v) in *.
  assert (vga_mem_ok u) by (unfold u; auto with vga).
  simpl. destruct (VGA_W <=? vx u + 1) eqn:E; bool_to_prop.
  - apply newline_ok; simpl; [auto with vga|lia].
  - apply vga_ok_split; simpl. split; [auto with vga|lia].
Qed.

Lemma pipe_put_ok c v : vga_ok v -> vga_ok (pipe_put c v).
Proof.
  intros []. unfold pipe_put. case_test; constructor; simpl; try done.
  autorewrite with pig. lia.
Qed.

Lemma vps_ok s v : vga_ok v -> vga_ok (vps s v).
Proof.
  unfold vps. destruct (pipe_active v); revert v;
    induction s as [|c s IH]; simpl; intros v Hv; auto using pipe_put_ok, vpc_ok.
Qed.

Lemma keeps_xy_ok f v : keeps_xy f -> (vga_mem_ok v -> vga_mem_ok (f v)) -> vga_ok v -> vga_ok (f v).
Proof. intros Hk Hf. rewrite !vga_ok_split. intros [Hm ?]. destruct (Hk v) as [-> ->]. auto. Qed.

Lemma vga_init_ok crtc v : vga_ok v -> vga_ok (vga_init crtc v).
Proof.
  intros (Hm & _)%vga_ok_split. unfold vga_init. apply hw_cursor_ok.
  apply (keeps_xy_ok (vga_enable_cursor crtc 13 15)); [done|unfold vga_enable_cursor; auto 10 with vga|].
  apply (keeps_xy_ok (for_ 0 VGA_H _)).
  - apply for_keeps_xy. intros r. apply for_keeps_xy. done.
  - intros. apply for_inv; [done|]. intros. apply for_inv; auto with vga.
  - apply vga_ok_split. simpl.  split; [auto with vga|lia].
Qed.

Lemma cursor_move_ok x y v : vga_ok v -> 0 <= x < VGA_W -> 0 <= y < VGA_H -> vga_ok (set_vy y (set_vx x v)).
Proof. intros (? & _)%vga_ok_split ? ?. apply vga_ok_split. simpl. auto with vga. Qed.

(** ** Exact effect of scrolling *)

(** [u] differs from [v] in text memory only, which still has 2000 cells. *)
Definition mem_only (v u : vga) : Prop :=
  u = set_mem (VGA_MEM u) v /\ zlen (VGA_MEM u) = VGA_CELLS.

Lemma mem_only_set i x v u : mem_only v u -> mem_only v (mem_set i x u).
Proof.
  intros [Hu Hl]. split; simpl; [|by rewrite zlen_aset].
  rewrite Hu. done.
Qed.

Lemma mem_only_trans v u w : mem_only v u -> mem_only u w -> mem_only v w.
Proof. intros [-> _] [-> ?]. done. Qed.

Lemma mem_get_set v u i j x :
  mem_only v u -> 0 <= i < VGA_CELLS -> 0 <= j ->
  mem_get (mem_set i x u) j = if j =? i then x else mem_get u j.
Proof.
  intros [_ Hl] Hi Hj. unfold mem_get, mem_set. simpl. case_test.
  - subst. apply aget_aset_eq. lia.
  - apply aget_aset_ne; lia.
Qed.

(** A row loop that stores [val c] in the cells of row [d] reads only cells
    outside that row. *)
Lemma row_loop_spec v d (val : Z -> vga -> Z) (ref : Z -> Z) :
  zlen (VGA_MEM v) = VGA_CELLS -> 0 <= d < VGA_H ->
  (forall c u, 0 <= c < VGA_W -> mem_only v u ->
     (forall j, 0 <= j -> ~ d * VGA_W <= j < d * VGA_W + VGA_W -> mem_get u j = mem_get v j) ->
     val c u = ref c) ->
  let w := for_ 0 VGA_W (fun c u => mem_set (d * VGA_W + c) (val c u) u) v in
  mem_only v w /\
  forall j, 0 <= j -> mem_get w j =
    if (d * VGA_W <=? j) && (j <? d * VGA_W + VGA_W) then ref (j - d * VGA_W) else mem_get v j.
Proof.
  intros Hl Hd Hval w.
  assert (HI : mem_only v w /\ forall j, 0 <= j -> mem_get w j =
     if (d * VGA_W <=? j) && (j <? d * VGA_W + VGA_W) then ref (j - d * VGA_W) else mem_get v j); [|done].
  apply (for_ind (fun c w => mem_only v w /\ forall j, 0 <= j -> mem_get w j =
     if (d * VGA_W <=? j) && (j <? d * VGA_W + c) then ref (j - d * VGA_W) else mem_get v j)); [lia| |].
  - split; [by destruct v|]. intros j Hj. by case_test; [lia|].
  - intros c u Hc [Hu Hg]. split; [by apply mem_only_set|]. intros j Hj.
    rewrite (mem_get_set v) by (done || lia). rewrite Hval; [|done|done|].
    2:{ intros k Hk Hn. rewrite Hg by done. case_test; [lia|done]. }
    destruct (Z.eqb_spec j (d * VGA_W + c)) as [->|Hne].
    + replace ((d * VGA_W <=? d * VGA_W + c) && (d * VGA_W + c <? d * VGA_W + (c + 1))) with true by lia.
      f_equal. lia.
    + rewrite Hg by done.
      replace (j <? d * VGA_W + (c + 1)) with (j <? d * VGA_W + c) by lia. done.
Qed.

Lemma copy_row_spec d s v :
  zlen (VGA_MEM v) = VGA_CELLS -> 0 <= d < VGA_H -> 0 <= s < VGA_H -> s <> d ->
  mem_only v (copy_row d s v) /\
  forall j, 0 <= j -> mem_get (copy_row d s v) j =
    if (d * VGA_W <=? j) && (j <? d * VGA_W + VGA_W)
    then mem_get v (s * VGA_W + (j - d * VGA_W)) else mem_get v j.
Proof.
  intros Hl Hd Hs Hne. unfold copy_row.
  apply (row_loop_spec v d (fun c u => mem_get u (s * VGA_W + c)) (fun c => mem_get v (s * VGA_W + c)));
    [done|done|].
  intros c u Hc _ Hout. apply Hout; lia.
Qed.

Lemma clear_row_spec r col v :
  zlen (VGA_MEM v) = VGA_CELLS -> 0 <= r < VGA_H ->
  mem_only v (clear_row r col v) /\
  forall j, 0 <= j -> mem_get (clear_row r col v) j =
    if (r * VGA_W <=? j) && (j <? r * VGA_W + VGA_W) then ENT c_sp col else mem_get v j.
Proof.
  intros Hl Hr. unfold clear_row.
  by apply (row_loop_spec v r (fun _ _ => ENT c_sp col) (fun _ => ENT c_sp col)).
Qed.

(** Moving every row up by one. *)
Lemma shift_up_spec v :
  zlen (VGA_MEM v) = VGA_CELLS ->
  let w := for_ 1 VGA_H (fun r v => copy_row (r - 1) r v) v in
  mem_only v w /\
  forall j, 0 <= j -> mem_get w j =
    if j <? (VGA_H - 1) * VGA_W then mem_get v (j + VGA_W) else mem_get v j.
Proof.
  intros Hl w.
  assert (HI : mem_only v w /\ forall j, 0 <= j -> mem_get w j =
     if j <? (VGA_H - 1) * VGA_W then mem_get v (j + VGA_W) else mem_get v j); [|done].
  apply (for_ind (fun r w => mem_only v w /\ forall j, 0 <= j -> mem_get w j =
     if j <? (r - 1) * VGA_W then mem_get v (j + VGA_W) else mem_get v j)); [lia| |].
  - split; [by destruct v|]. intros j Hj. by case_test; [lia|].
  - intros r u Hr [Hu Hg].
    destruct (copy_row_spec (r - 1) r u) as [Hc Hcg]; [by destruct Hu|lia|lia|lia|].
    split; [by apply (mem_only_trans v u)|]. intros j Hj. rewrite Hcg by done.
    destruct ((_ <=? _) && _) eqn:E; bool_to_prop.
    + rewrite Hg by lia. replace (_ <? _) with false by lia.
      replace (j <? (r + 1 - 1) * VGA_W) with true by lia. f_equal. lia.
    + rewrite Hg by lia.
      replace (j <? (r + 1 - 1) * VGA_W) with (j <? (r - 1) * VGA_W) by lia. done.
Qed.

Lemma row0_take v : zlen (VGA_MEM v) = VGA_CELLS -> row v 0 = take 80 (VGA_MEM v).
Proof.
  intros Hl. unfold zlen in Hl. apply (array_ext 0).
  - unfold zlen, row. rewrite length_map, length_seqZ, length_take. lia.
  - intros i Hi. unfold row, mem_get, aget, zlen in *. rewrite length_map, length_seqZ in Hi.
    rewrite !nth_lookup, lookup_take by lia. rewrite list_lookup_fmap.
    rewrite lookup_seqZ_lt by lia. simpl. rewrite nth_lookup. rewrite decide_True by lia. do 2 f_equal. lia.
Qed.

(** The scrollback ring read from the oldest to the newest line. *)
Definition history (v : vga) : list (list Z) :=
  ring_view [] (scrollback v) (scrollback_pos v) (scrollback_count v).

(** The two loops of [vscroll] together. *)
Lemma scroll_loops_spec v :
  zlen (VGA_MEM v) = VGA_CELLS ->
  exists w, clear_row (VGA_H - 1) (vc (for_ 1 VGA_H (fun r v => copy_row (r - 1) r v) v))
              (for_ 1 VGA_H (fun r v => copy_row (r - 1) r v) v) = w /\
    w = set_mem (drop 80 (VGA_MEM v) ++ replicate 80 (ENT c_sp (vc v))) v.
Proof.
  intros Hl. destruct (shift_up_spec v Hl) as [[Hw Hwl] Hg]. cbv zeta in Hg. revert Hw Hwl Hg.
  generalize (for_ 1 VGA_H (fun r v => copy_row (r - 1) r v) v). intros w Hw Hwl Hg.
  assert (Hvc : vc w = vc v) by (by rewrite Hw). rewrite Hvc.
  destruct (clear_row_spec (VGA_H - 1) (vc v) w Hwl ltac:(lia)) as [[Hu Hul] Hc].
  revert Hu Hul Hc. generalize (clear_row (VGA_H - 1) (vc v) w). intros u Hu Hul Hc.
  exists u. split; [done|]. rewrite Hu at 1. rewrite Hw at 1.
  change (set_mem (VGA_MEM u) (set_mem (VGA_MEM w) v)) with (set_mem (VGA_MEM u) v). f_equal.
  unfold zlen in *. apply (array_ext 0).
  - unfold zlen. rewrite length_app, length_drop, length_replicate. lia.
  - intros i Hi. unfold zlen in Hi. change (aget 0 (VGA_MEM u) i) with (mem_get u i).
    rewrite Hc by lia. unfold aget. rewrite nth_lookup.
    destruct ((_ <=? _) && _) eqn:E; bool_to_prop.
    + rewrite lookup_app_r by (rewrite length_drop; lia).
      rewrite lookup_replicate_2 by (rewrite length_drop; lia). done.
    + rewrite lookup_app_l by (rewrite length_drop; lia).
      rewrite lookup_drop, Hg by lia. replace (i <? (VGA_H - 1) * VGA_W) with true by lia.
      unfold mem_get, aget. rewrite nth_lookup. do 2 f_equal. lia.
Qed.

Lemma vscroll_eq v :
  zlen (VGA_MEM v) = VGA_CELLS ->
  vscroll v =
    set_vy (VGA_H - 1) (set_mem (drop 80 (VGA_MEM v) ++ replicate 80 (ENT c_sp (vc v)))
      (set_scrollback (aset (scrollback v) (scrollback_pos v) (take 80 (VGA_MEM v)))
         ((scrollback_pos v + 1) mod SCROLLBACK_LINES)
         (if scrollback_count v <? SCROLLBACK_LINES
          then scrollback_count v + 1 else scrollback_count v) v)).
Proof.
  intros Hl. unfold vscroll. cbv zeta. rewrite row0_take by done.
  match goal with |- context [set_scrollback ?a ?b ?c v] =>
    destruct (scroll_loops_spec (set_scrollback a b c v) Hl) as (w & -> & ->) end.
  done.
Qed.

Lemma vscroll_history v :
  zlen (VGA_MEM v) = VGA_CELLS -> zlen (scrollback v) = SCROLLBACK_LINES ->
  0 <= scrollback_pos v < SCROLLBACK_LINES -> 0 <= scrollback_count v <= SCROLLBACK_LINES ->
  history (vscroll v) =
  (if scrollback_count v <? SCROLLBACK_LINES then history v else tail (history v))
  ++ [take 80 (VGA_MEM v)].
Proof.
  intros Hl Hs Hp Hc. rewrite vscroll_eq by done. unfold history.
  pose proof (ring_view_push [] (scrollback v) (scrollback_pos v) (scrollback_count v)
                (take 80 (VGA_MEM v))) as Hr.
  rewrite Hs in Hr. rewrite <- Hr by done. done.
Qed.

Lemma vscroll_up_ok v : vga_ok v -> vga_ok (vscroll_up v).
Proof.
  intros (Hm & Hx & Hy)%vga_ok_split. refine (proj2 (vga_ok_split (vscroll_up v)) _).
  split; [by apply vscroll_up_mem_ok|by apply vscroll_up_xy].
Qed.
Lemma vscroll_down_ok v : vga_ok v -> vga_ok (vscroll_down v).
Proof.
  intros (Hm & Hx & Hy)%vga_ok_split. refine (proj2 (vga_ok_split (vscroll_down v)) _).
  split; [by apply vscroll_down_mem_ok|by apply vscroll_down_xy].
Qed.

#[export] Instance vga_sink crtc : Sink vga (run_ev crtc).
Proof.
  refine {| sink_ok := vga_ok |}. intros e v He Hv.
  pose proof Hv as (Hm & Hx & Hy)%vga_ok_split.
  destruct e; simpl in He |- *.
  - by apply vps_ok.
  - unfold vpln. destruct (negb _); auto using vpc_ok, vps_ok, pipe_put_ok.
  - by apply vpc_ok.
  - apply (keeps_xy_ok (vset fg bg)); [done| |done]. unfold vset. auto with vga.
  - apply (keeps_xy_ok vrst); [done| |done]. unfold vrst. auto with vga.
  - by apply vga_init_ok.
  - apply (keeps_xy_ok (vat c col x y)); auto using vat_keeps_xy with vga.
  - apply (keeps_xy_ok (vfill x y w h ch col)); auto using vfill_keeps_xy with vga.
  - apply (keeps_xy_ok (vstr x y col s)); auto using vstr_keeps_xy with vga.
  - by apply hw_cursor_ok.
  - destruct He. by apply cursor_move_ok.
  - unfold vcursor_left. apply hw_cursor_ok. repeat case_test; try done;
      apply vga_ok_split; simpl; (split; [auto with vga|lia]).
  - unfold vcursor_right. apply hw_cursor_ok. cbv zeta. repeat case_test;
      apply vga_ok_split; simpl in *; (split; [auto with vga|lia]).
  - unfold vscroll_pageup. apply for_inv; [done|]. intros _ u _ Hu. case_test; [|done].
    by apply vscroll_up_ok.
  - unfold vscroll_pagedown. apply for_inv; [done|]. intros _ u _ Hu. case_test; [|done].
    by apply vscroll_down_ok.
  - by apply vscroll_up_ok.
  - by apply vscroll_down_ok.
  - apply (keeps_xy_ok (outb port val)); auto using outb_mem_ok. done.
  - destruct Hv, on; constructor; simpl; try done.
  - done.
  - apply (keeps_xy_ok (vga_enable_cursor crtc start end_)); [done|unfold vga_enable_cursor; auto 10 with vga|done].
  - apply (keeps_xy_ok vga_disable_cursor); [done|unfold vga_disable_cursor; auto 10 with vga|done].
  - apply (keeps_xy_ok (invert_cell x y)); [done| |done]. intros _. apply mem_set_mem_ok; [apply u16_range|done].
Defined.

(** ** Printing inside a line *)

Definition printable (c : Z) : Prop := 32 <= c < 256.

Lemma hw_cursor_mem v : VGA_MEM (vga_update_hw_cursor v) = VGA_MEM v /\
  vc (vga_update_hw_cursor v) = vc v /\ pipe_active (vga_update_hw_cursor v) = pipe_active v.
Proof. unfold vga_update_hw_cursor. by case_test. Qed.

Lemma vpc_printable c v :
  printable c -> 0 <= vx v -> vx v + 1 < VGA_W -> 0 <= vy v < VGA_H ->
  vpc c v = vga_update_hw_cursor (set_vx (vx v + 1) (mem_set (vy v * VGA_W + vx v) (ENT c (vc v)) v)).
Proof.
  unfold printable. intros Hc Hx0 Hx Hy. unfold vpc, vat, off_screen.
  replace (c =? c_nl) with false by lia. replace (c =? c_cr) with false by lia.
  replace (c =? c_bs) with false by lia. replace (c =? c_tab) with false by lia.
  replace (_ || _ || _ || _) with false by lia. cbv zeta.
  change (vx (mem_set _ _ v)) with (vx v). simpl (vx (set_vx _ _)).
  by replace (VGA_W <=? vx v + 1) with false by lia.
Qed.

Lemma vpc_string_spec s v :
  Forall printable s -> zlen (VGA_MEM v) = VGA_CELLS ->
  0 <= vx v -> vx v + zlen s < VGA_W -> 0 <= vy v < VGA_H ->
  let w := fold_left (fun v c => vpc (u8 c) v) s v in
  vx w = vx v + zlen s /\ vy w = vy v /\ vc w = vc v /\
  forall j, 0 <= j -> mem_get w j =
    let p := vy v * VGA_W + vx v in
    if (p <=? j) && (j <? p + zlen s) then ENT (aget 0 s (j - p)) (vc v) else mem_get v j.
Proof.
  intros Hs. revert v. induction Hs as [|c s Hc Hs IH]; intros v Hl Hx0 Hx Hy; cbv zeta.
  { rewrite zlen_nil. split_and!; try done; simpl; [lia|]. intros j Hj.
    by replace (_ && _) with false by lia. }
  rewrite zlen_cons in Hx. pose proof (zlen_nonneg s).
  simpl fold_left. unfold printable in Hc. rewrite (u8_id c) by lia.
  rewrite vpc_printable by (done || lia).
  set (v1 := set_vx _ _).
  destruct (hw_cursor_mem v1) as (Hm1 & Hc1 & _). destruct (hw_cursor_keeps_xy v1) as [Hx1 Hy1].
  revert Hm1 Hc1 Hx1 Hy1. generalize (vga_update_hw_cursor v1). intros v2 Hm Hvc Hvx Hvy.
  simpl in Hm, Hvc, Hvx, Hvy.
  destruct (IH v2) as (E1 & E2 & E3 & E4); rewrite ?Hm, ?Hvx, ?Hvy; try lia.
  { by rewrite zlen_aset. }
  rewrite E1, E2, E3, Hvx, Hvy, Hvc, zlen_cons. split_and!; [lia|done|done|].
  intros j Hj. rewrite E4 by done. rewrite Hvx, Hvy, Hvc. cbv zeta.
  set (p := vy v * VGA_W + vx v). replace (vy v * VGA_W + (vx v + 1)) with (p + 1) by lia.
  unfold mem_get at 1. rewrite Hm. fold p.
  destruct (Z.eqb_spec j p) as [->|Hne].
  - replace (_ && _) with false by lia. replace (_ && _) with true by lia.
    rewrite Z.sub_diag. rewrite aget_aset_eq by lia. done.
  - rewrite aget_aset_ne by lia.
    destruct ((p + 1 <=? j) && (j <? p + 1 + zlen s)) eqn:E; bool_to_prop.
    + replace (_ && _) with true by lia. f_equal. unfold aget.
      replace (Z.to_nat (j - p)) with (S (Z.to_nat (j - (p + 1)))) by lia. done.
    + by replace (_ && _) with false by lia.
Qed.

(** ** Printing as writing on a roll of paper

    The specification of the console: one tape of cells, 80 to a line, that
    grows at its end, and a position on it. *)

Definition blank_line (col : Z) : list Z := replicate 80 (ENT c_sp col).
#[global] Arguments blank_line col : simpl never.

Lemma zlen_blank_line col : zlen (blank_line col) = 80.
Proof. done. Qed.

Definition tty_goto (col : Z) (t : list Z) (q : Z) : list Z * Z :=
  (if zlen t <=? q then t ++ blank_line col else t, q).

Definition tty_char (col c : Z) (tp : list Z * Z) : list Z * Z :=
  let '(t, p) := tp in
  if c =? c_nl then tty_goto col t ((p / 80 + 1) * 80)
  else if c =? c_cr then (t, p / 80 * 80)
  else if c =? c_bs then if p mod 80 =? 0 then (t, p) else (aset t (p - 1) (ENT c_sp col), p - 1)
  else if c =? c_tab then tty_goto col t ((p / 8 + 1) * 8)
  else tty_goto col (aset t p (ENT c col)) (p + 1).

Definition tty_text (col : Z) (s : cstr) (tp : list Z * Z) : list Z * Z :=
  fold_left (fun tp c => tty_char col (u8 c) tp) s tp.

(** The console shows the end of the tape: the screen is its last 2000 cells,
    the scrollback the lines before them, and only lines the ring of 100 could
    not hold are lost. *)
Definition rolled (v : vga) (t : list Z) : Prop :=
  exists lost, t = lost ++ concat (history v) ++ VGA_MEM v /\
    (scrollback_count v < 100 -> lost = []) /\ (zlen lost mod 80 = 0).

Definition tty_pos (v : vga) (t : list Z) : Z := zlen t - 2000 + vy v * 80 + vx v.

Lemma history_rows v : vga_mem_ok v -> Forall (fun r => zlen r = 80) (history v).
Proof.
  intros []. simpl in *. unfold history, ring_view. apply Forall_map, Forall_seqZ. intros i Hi. simpl.
  set (k := _ mod _). assert (Hk : 0 <= k < 100) by (unfold k; rewrite ok_sb_len0; apply Z.mod_pos_bound; lia).
  unfold aget. rewrite nth_lookup. unfold zlen in ok_sb_len0.
  destruct (lookup_lt_is_Some_2 (scrollback v) (Z.to_nat k)) as [r Hr]; [lia|].
  rewrite Hr. simpl. by eapply Forall_lookup_1 in ok_sb_rows0 as [? _]; [|exact Hr].
Qed.

Lemma zlen_concat_rows (l : list (list Z)) :
  Forall (fun r => zlen r = 80) l -> zlen (concat l) = 80 * zlen l.
Proof.
  induction 1 as [|r l Hr _ IH]; [done|]. simpl. rewrite zlen_app, zlen_cons, Hr, IH. lia.
Qed.

(** The first cell of the screen is at the start of a line of the tape. *)
Lemma rolled_base v t : vga_mem_ok v -> rolled v t -> 2000 <= zlen t /\ (zlen t - 2000) mod 80 = 0.
Proof.
  intros Hv (lost & -> & _ & Hl). pose proof (zlen_concat_rows _ (history_rows v Hv)) as Hc.
  destruct Hv. simpl in *. rewrite !zlen_app, Hc, ok_len0.
  pose proof (zlen_nonneg lost). pose proof (zlen_nonneg (history v)). split; [lia|].
  replace (zlen lost + (80 * zlen (history v) + 2000) - 2000) with (zlen lost + zlen (history v) * 80) by lia.
  by rewrite Z.mod_add by lia.
Qed.

(** Storing one cell of the screen. *)
Lemma rolled_set v t i x :
  vga_mem_ok v -> 0 <= i < 2000 -> rolled v t -> rolled (mem_set i x v) (aset t (zlen t - 2000 + i) x).
Proof.
  intros [] Hi (lost & -> & Hc & Hl). simpl in *. exists lost. split; [|done]. simpl.
  rewrite app_assoc, (app_assoc lost). unfold aset. rewrite insert_app_r_alt.
  - do 2 f_equal. rewrite zlen_app, ok_len0. unfold zlen. lia.
  - rewrite zlen_app, ok_len0. unfold zlen. lia.
Qed.

Lemma rolled_same v w t :
  VGA_MEM w = VGA_MEM v -> scrollback w = scrollback v -> scrollback_pos w = scrollback_pos v ->
  scrollback_count w = scrollback_count v -> rolled v t -> rolled w t.
Proof. unfold rolled, history. by intros -> -> -> ->. Qed.

(** Scrolling feeds one blank line. *)
Lemma rolled_scroll v t :
  vga_mem_ok v -> rolled v t -> rolled (vscroll v) (t ++ blank_line (vc v)).
Proof.
  intros Hv (lost & -> & Hc & Hl). pose proof (history_rows v Hv) as Hrows.
  pose proof (fun x => ring_view_len x (scrollback v) (scrollback_pos v) (scrollback_count v)) as Hlen.
  destruct Hv. simpl in *. specialize (Hlen [] (proj1 ok_sb_count0)). fold (history v) in Hlen.
  assert (Hcnt : scrollback_count (vscroll v) =
     if scrollback_count v <? 100 then scrollback_count v + 1 else scrollback_count v).
  { by rewrite vscroll_eq. }
  assert (Hmem : VGA_MEM (vscroll v) = drop 80 (VGA_MEM v) ++ blank_line (vc v)).
  { rewrite vscroll_eq by done. apply set_vy_mem. }
  unfold rolled. rewrite Hcnt, Hmem, vscroll_history by done.
  assert (Hjoin : forall h, concat (h ++ [take 80 (VGA_MEM v)]) ++ drop 80 (VGA_MEM v) ++ blank_line (vc v)
     = concat h ++ VGA_MEM v ++ blank_line (vc v)).
  { intros h. rewrite concat_app. simpl. rewrite app_nil_r, <- app_assoc. f_equal.
    by rewrite app_assoc, take_drop. }
  destruct (Z.ltb_spec (scrollback_count v) 100) as [Hlt|Hge].
  - exists lost. rewrite Hjoin, <- !app_assoc. split; [done|]. split; [intros _; auto|done].
  - destruct (history v) as [|r h] eqn:Eh; [rewrite zlen_nil in Hlen; lia|].
    apply Forall_cons_1 in Hrows as [Hr _].
    exists (lost ++ r). simpl. rewrite Hjoin, <- !app_assoc. split; [done|]. split; [lia|].
    rewrite zlen_app, Hr, <- Z.add_mod_idemp_l, Hl by lia. done.
Qed.

Lemma newline_roll v t :
  vga_mem_ok v -> 0 <= vy v < 25 -> rolled v t ->
  let q := zlen t - 2000 + (vy v + 1) * 80 in
  let t' := (tty_goto (vc v) t q).1 in
  rolled (newline v) t' /\ tty_pos (newline v) t' = q.
Proof.
  intros Hv Hy Ht q t'. pose proof (rolled_base v t Hv Ht) as [Hlen _]. unfold t', q, tty_goto, newline. simpl.
  destruct (Z.leb_spec 25 (vy v + 1)) as [E|E].
  - set (u := set_vy _ _). destruct (vscroll_xy u) as [Hx Hy'].
    rewrite (proj2 (Z.leb_le (zlen t) _)) by lia. split.
    + apply (rolled_scroll u); [unfold u; auto with vga|]. by eapply rolled_same; [..|exact Ht].
    + unfold tty_pos. rewrite Hx, Hy'. rewrite zlen_app. rewrite zlen_blank_line. unfold u. simpl. lia.
  - rewrite (proj2 (Z.leb_gt (zlen t) _)) by lia. split; [by eapply rolled_same; [..|exact Ht]|].
    unfold tty_pos. simpl. lia.
Qed.

(** One call of [vpc] is one character on the tape. *)
Lemma vpc_roll c v t :
  vga_ok v -> rolled v t ->
  let tp := tty_char (vc v) c (t, tty_pos v t) in
  rolled (vpc c v) tp.1 /\ tty_pos (vpc c v) tp.1 = tp.2 /\ vc (vpc c v) = vc v.
Proof.
  intros Hv Ht. pose proof Hv as (Hm & Hx & Hy)%vga_ok_split.
  pose proof (rolled_base v t Hm Ht) as [Hlen Hbase]. cbv zeta.
  set (b := (zlen t - 2000) / 80). assert (Hb : zlen t - 2000 = 80 * b).
  { pose proof (Z.div_mod (zlen t - 2000) 80). unfold b. lia. }
  assert (Hp : tty_pos v t = (b + vy v) * 80 + vx v) by (unfold tty_pos; lia).
  assert (Hp80 : tty_pos v t / 80 = b + vy v) by (rewrite Hp, Z.div_add_l, (Z.div_small (vx v) 80) by lia; lia).
  assert (Hpm : tty_pos v t mod 80 = vx v).
  { rewrite Hp, Z.add_comm, Z.mod_add by lia. by rewrite Z.mod_small by lia. }
  assert (Hp8 : (tty_pos v t / 8 + 1) * 8 = (b + vy v) * 80 + (vx v / 8 + 1) * 8).
  { rewrite Hp. replace ((b + vy v) * 80 + vx v) with ((b + vy v) * 10 * 8 + vx v) by lia.
    rewrite Z.div_add_l by lia. lia. }
  assert (Hhw : forall u tp col, rolled u (fst tp) /\ tty_pos u tp.1 = snd tp /\ vc u = col ->
     rolled (vga_update_hw_cursor u) tp.1 /\ tty_pos (vga_update_hw_cursor u) tp.1 = tp.2 /\
     vc (vga_update_hw_cursor u) = col).
  { intros u tp col Hu. unfold vga_update_hw_cursor. by case_test. }
  assert (Hnl : forall u t', vga_mem_ok u -> vy u = vy v -> vc u = vc v -> zlen t' = zlen t -> rolled u t' ->
     let tp := tty_goto (vc v) t' ((b + vy v + 1) * 80) in
     rolled (newline u) tp.1 /\ tty_pos (newline u) tp.1 = tp.2 /\ vc (newline u) = vc v).
  { intros u t' Hu Huy Huc Hl' Hr. destruct (newline_roll u t' Hu ltac:(lia) Hr) as [H1 H2].
    rewrite Huy, Huc, Hl' in H1, H2.
    replace ((b + vy v + 1) * 80) with (zlen t - 2000 + (vy v + 1) * 80) by lia.
    split; [exact H1|]. split; [exact H2|]. rewrite <- Huc. unfold newline. case_test; [|done].
    rewrite vscroll_eq by (by destruct Hu). done. }
  unfold vpc, tty_char. apply Hhw. rewrite Hp80, Hpm, Hp8.
  destruct (c =? c_nl); [by apply Hnl|].
  destruct (c =? c_cr).
  { split; [by eapply rolled_same; [..|exact Ht]|]. unfold tty_pos. simpl. split; [lia|done]. }
  destruct (c =? c_bs).
  { destruct (Z.ltb_spec 0 (vx v)) as [E|E]; [|by rewrite (proj2 (Z.eqb_eq (vx v) 0)) by lia].
    rewrite (proj2 (Z.eqb_neq (vx v) 0)) by lia. cbv zeta. simpl. unfold vat, off_screen. simpl.
    replace (_ || _ || _ || _) with false by lia. unfold tty_pos. rewrite zlen_aset. simpl.
    split; [|split; [lia|done]].
    replace (zlen t - 2000 + vy v * 80 + vx v - 1) with (zlen t - 2000 + (vy v * 80 + (vx v - 1))) by lia.
    apply rolled_set; [auto with vga|lia|]. by eapply rolled_same; [..|exact Ht]. }
  destruct (c =? c_tab).
  { cbv zeta. rewrite tab_stop. simpl. pose proof (Z.div_pos (vx v) 8).
    pose proof (Z.mul_div_le (vx v) 8). destruct (Z.leb_spec 80 ((vx v / 8 + 1) * 8)) as [E|E].
    - replace ((b + vy v) * 80 + (vx v / 8 + 1) * 8) with ((b + vy v + 1) * 80) by lia.
      apply Hnl; simpl; auto with vga.
    - unfold tty_goto. rewrite (proj2 (Z.leb_gt (zlen t) _)) by lia.
      split; [by eapply rolled_same; [..|exact Ht]|]. unfold tty_pos. simpl. split; [lia|done]. }
  cbv zeta. assert (Hu : rolled (vat c (vc v) (vx v) (vy v) v) (aset t (tty_pos v t) (ENT c (vc v)))).
  { unfold vat, off_screen. replace (_ || _ || _ || _) with false by lia. unfold tty_pos.
    rewrite <- Z.add_assoc. apply rolled_set; [done|lia|done]. }
  destruct (vat_keeps_xy c (vc v) (vx v) (vy v) v) as [Ex Ey].
  assert (Hcol : vc (vat c (vc v) (vx v) (vy v) v) = vc v) by (unfold vat; by case_test).
  assert (Hum : vga_mem_ok (vat c (vc v) (vx v) (vy v) v)) by auto with vga.
  revert Hu Ex Ey Hcol Hum. generalize (vat c (vc v) (vx v) (vy v) v). intros u Hu Ex Ey Hcol Hum.
  simpl. rewrite Ex. destruct (Z.leb_spec 80 (vx v + 1)) as [E|E].
  - replace (tty_pos v t + 1) with ((b + vy v + 1) * 80) by lia.
    apply Hnl; simpl; auto with vga. by rewrite zlen_aset.
  - unfold tty_goto. rewrite zlen_aset, (proj2 (Z.leb_gt (zlen t) _)) by lia.
    split; [by eapply rolled_same; [..|exact Hu]|]. unfold tty_pos. rewrite zlen_aset. simpl. split; [lia|done].
Qed.

Lemma vpc_keeps_pipe c v : vga_ok v -> pipe_active (vpc c v) = pipe_active v.
Proof.
  intros []. assert (Hhw : forall u, pipe_active (vga_update_hw_cursor u) = pipe_active u)
    by (intros u; apply hw_cursor_mem).
  assert (Hnl : forall u, zlen (VGA_MEM u) = VGA_CELLS -> pipe_active (newline u) = pipe_active u).
  { intros u Hu. unfold newline. case_test; [|done]. by rewrite vscroll_eq. }
  unfold vpc. rewrite Hhw. repeat (case_test; cbv zeta); rewrite ?Hnl; unfold vat; simpl; try case_test; try done.
  all: simpl; by rewrite ?zlen_aset.
Qed.

Lemma print_roll s v t :
  vga_ok v -> rolled v t ->
  let w := fold_left (fun v c => vpc (u8 c) v) s v in
  let tp := tty_text (vc v) s (t, tty_pos v t) in
  rolled w tp.1 /\ tty_pos w tp.1 = tp.2 /\ vc w = vc v /\ vga_ok w /\ pipe_active w = pipe_active v.
Proof.
  revert v t. induction s as [|c s IH]; intros v t Hv Ht; cbv zeta; [done|].
  destruct (vpc_roll (u8 c) v t Hv Ht) as (H1 & H2 & H3). pose proof (vpc_ok (u8 c) v Hv) as H4.
  destruct (IH (vpc (u8 c) v) _ H4 H1) as (E1 & E2 & E3 & E4 & E5). cbv zeta in *.
  unfold tty_text in *. simpl. rewrite H2, H3 in *. rewrite vpc_keeps_pipe in E5 by done.
  by rewrite <- surjective_pairing in E1, E2.
Qed.

(** ** Properties *)

(** C6: Printing is writing on a roll of paper of which the console shows the
    end.  For every well-formed console whose output does not go to a pipe and
    every string of bytes (printable or not, of any length), let the tape be the
    lines of the scrollback followed by the 2000 cells of the screen.  Then
    [vps] has the effect of writing the bytes one after the other on the tape
    from the cursor's cell, in the current attribute: a newline goes to the next
    line, a carriage return to the start of the line, a backspace blanks the cell
    before the cursor unless it is at the start of the line, a tab goes to the
    next multiple of eight, any other byte fills a cell, and a blank line is
    added whenever the position passes the end.  Afterwards the screen is exactly
    the last 2000 cells of the tape, the scrollback exactly the lines before
    them, lines are lost (the oldest ones) only once 100 of them are kept, and
    the cursor is at the position.  [vpln] is [vps] of the text and a newline. *)
Theorem printing_is_a_tape s v :
  vga_ok v -> pipe_active v = false ->
  let start := concat (history v) ++ VGA_MEM v in
  let '(t, p) := tty_text (vc v) s (start, zlen (concat (history v)) + vy v * 80 + vx v) in
  let w := vps s v in
  vga_ok w /\ vc w = vc v /\
  (exists lost, t = lost ++ concat (history w) ++ VGA_MEM w /\
     (scrollback_count w < 100 -> lost = []) /\ zlen lost mod 80 = 0) /\
  p = zlen t - 2000 + vy w * 80 + vx w /\
  vpln s v = vps (s ++ [c_nl]) v.
Proof.
  intros Hv Hpipe start. assert (Hr : rolled v start) by (by exists []).
  assert (Hpos : zlen (concat (history v)) + vy v * 80 + vx v = tty_pos v start).
  { unfold tty_pos, start. destruct Hv. rewrite zlen_app, ok_len0. lia. }
  rewrite Hpos. destruct (print_roll s v start Hv Hr) as (H1 & H2 & H3 & H4 & H5). cbv zeta in *.
  destruct (tty_text _ _ _) as [t p]. unfold vpln, vps. rewrite Hpipe in *. cbv zeta.
  split; [exact H4|]. split; [exact H3|]. split; [exact H1|]. split; [by symmetry|].
  rewrite H5, fold_left_app. done.
Qed.

Lemma vga_boot_ok : vga_ok (vga_boot (replicate 2000 0)).
Proof.
  constructor; try (vm_compute; split; discriminate || done); try done.
  - by apply Forall_replicate.
  - apply Forall_replicate. split; [done|]. by apply Forall_replicate.
Qed.

Lemma printing_is_a_tape_witness :
  let v := vga_boot (replicate 2000 0) in
  let w := vps (cs "oink" ++ [c_nl; 9; 65]) v in
  let '(t, p) := tty_text (vc v) (cs "oink" ++ [c_nl; 9; 65])
                   (concat (history v) ++ VGA_MEM v, zlen (concat (history v)) + vy v * 80 + vx v) in
  vga_ok w /\ exists lost, t = lost ++ concat (history w) ++ VGA_MEM w.
Proof.
  pose proof (printing_is_a_tape (cs "oink" ++ [c_nl; 9; 65]) (vga_boot (replicate 2000 0))
                vga_boot_ok eq_refl) as H. cbv zeta in *.
  destruct (tty_text _ _ _) as [t p]. destruct H as (Hw & _ & (lost & Ht & _) & _).
  split; [exact Hw|]. exists lost. exact Ht.
Defined.

(** Scrolling is exact: [vscroll] drops the top row of text memory, moves the
    other 24 rows up and blanks the bottom row with the current attribute; the
    dropped row is appended to the scrollback, which loses its oldest line once
    it holds 100. *)
Theorem vscroll_correct v :
  vga_ok v ->
  VGA_MEM (vscroll v) = drop 80 (VGA_MEM v) ++ replicate 80 (ENT c_sp (vc v)) /\
  vy (vscroll v) = 24 /\ vx (vscroll v) = vx v /\
  history (vscroll v) =
    (if scrollback_count v <? 100 then history v else tail (history v)) ++ [take 80 (VGA_MEM v)].
Proof.
  intros []. destruct (vscroll_xy v) as [Hx Hy].
  split; [rewrite vscroll_eq by done; apply set_vy_mem|].
  split; [exact Hy|]. split; [exact Hx|]. by apply vscroll_history.
Qed.

Lemma vscroll_correct_witness :
  let v := run_evs (fun _ => 0) [EPln (cs "first"); EPs (cs "second")] (vga_boot (replicate 2000 0)) in
  history (vscroll v) = [] ++ [take 80 (VGA_MEM v)].
Proof.
  intros v. destruct (vscroll_correct v) as (_ & _ & _ & H).
  - apply (@sink_run_ok vga (run_ev (fun _ => 0)) (vga_sink _)); [repeat constructor|apply vga_boot_ok].
  - exact H.
Defined.

(** Printing printable text that fits on the current line writes exactly the
    cells under it, with the current attribute, leaves every other cell alone
    and advances the cursor by the length. *)
Theorem vps_line_exact s v :
  vga_ok v -> pipe_active v = false -> Forall printable s -> vx v + zlen s < 80 ->
  let w := vps s v in
  vx w = vx v + zlen s /\ vy w = vy v /\
  forall j, 0 <= j -> mem_get w j =
    let p := vy v * 80 + vx v in
    if (p <=? j) && (j <? p + zlen s) then ENT (aget 0 s (j - p)) (vc v) else mem_get v j.
Proof.
  intros Hv Hp Hs Hx. unfold vps. rewrite Hp. destruct Hv.
  destruct (vpc_string_spec s v) as (H1 & H2 & _ & H3); try done; lia.
Qed.

Lemma vps_line_exact_witness :
  mem_get (vps (cs "oink") (vga_boot (replicate 2000 0))) 2 = ENT 110 (COL C_WHITE C_BLACK).
Proof.
  destruct (vps_line_exact (cs "oink") (vga_boot (replicate 2000 0))) as (_ & _ & H).
  - apply vga_boot_ok.
  - reflexivity.
  - repeat constructor; vm_compute; congruence.
  - reflexivity.
  - rewrite (H 2) by lia. reflexivity.
Defined.
