(* ===== verification/PigPath.v ===== *)
(** * Path resolution ([path_normalize] and [fs_resolve] of [kernel/pigfs.h])

    The operations edit a character buffer; here the buffer is the list of its
    bytes up to the write position.  The specification is the usual one: a path
    is a stack of components, [..] pops, [.] and empty components do nothing. *)

From Stdlib Require Import ZArith Lia.
From stdpp Require Import base numbers list strings.
From S2P Require Import Prelude CLib.

(** ** Operations *)

(** The bytes before the first NUL of a buffer. *)
Fixpoint cut_nul (b : list Z) : cstr :=
  match b with
  | c :: b' => if c =? 0 then [] else c :: cut_nul b'
  | [] => []
  end.

(** [if(l>1&&p[l-1]=='/') p[l-1]=0;] *)
Definition strip_slash (p : cstr) : cstr :=
  if (1 <? zlen p) && (cget p (zlen p - 1) =? c_slash) then take (length p - 1) p else p.

(** The second loop: at a double slash the left one is deleted and the index
    stays, so the loop continues on the string that starts at the right one. *)
Fixpoint collapse (p : cstr) : cstr :=
  match p with
  | a :: p' =>
      match p' with
      | b :: _ => if (a =? c_slash) && (b =? c_slash) then collapse p' else a :: collapse p'
      | [] => [a]
      end
  | [] => []
  end.

Definition path_normalize (p : cstr) : cstr := collapse (strip_slash p).

(** [while(l>1&&out[l-1]!='/') l--;] *)
Fixpoint back_to_slash (fuel : nat) (out : list Z) (l : Z) : Z :=
  match fuel with
  | O => l
  | S f => if (1 <? l) && negb (cget out (l - 1) =? c_slash) then back_to_slash f out (l - 1) else l
  end.

(** Going up: the new length [l], at least 1; the terminator is stored at
    [out[l]], and [ol] becomes [l] (which exceeds the text when it was empty). *)
Definition go_up (out : list Z) : list Z :=
  let l := back_to_slash (length out) out (zlen out) in
  let l := if 1 <? l then l - 1 else l in
  let l := if l <? 1 then 1 else l in
  if zlen out <? l then out ++ [0] else take (Z.to_nat l) out.

(** Copy the characters of the component while the buffer has room. *)
Fixpoint copy_component (outsz : Z) (p : cstr) (out : list Z) : list Z * cstr :=
  match p with
  | c :: p' => if negb (c =? c_slash) && (zlen out <? outsz - 1)
               then copy_component outsz p' (out ++ [c]) else (out, p)
  | [] => (out, p)
  end.

(** Step over one slash. *)
Definition skip_slash (p : cstr) : cstr :=
  match p with c :: p' => if c =? c_slash then p' else p | [] => [] end.

(** The component loop on a relative path. *)
Fixpoint resolve_loop (fuel : nat) (outsz : Z) (p : cstr) (out : list Z) : list Z :=
  match fuel with
  | O => out
  | S f =>
      let p := skip_char c_slash p in
      match p with
      | [] => out
      | _ =>
          if (cget p 0 =? c_dot) && (cget p 1 =? c_dot) && ((cget p 2 =? c_slash) || (cget p 2 =? 0))
          then resolve_loop f outsz (skip_slash (drop 2 p)) (go_up out)
          else if (cget p 0 =? c_dot) && ((cget p 1 =? c_slash) || (cget p 1 =? 0))
          then resolve_loop f outsz (skip_slash (drop 1 p)) out
          else if outsz - 2 <=? zlen out then out
          else
            let out := if (0 <? zlen out) && negb (cget out (zlen out - 1) =? c_slash)
                       then out ++ [c_slash] else out in
            let '(out, p) := copy_component outsz p out in
            resolve_loop f outsz (skip_slash p) out
      end
  end.

(** [fs_resolve(cwd,path,out,outsz)]: the string left in [out]; [None] when the
    unbounded copy of [cwd] does not fit.  Each round of the loop consumes at
    least one character, so [length path] rounds and a last one are enough. *)
Definition fs_resolve (cwd : cstr) (path : option cstr) (outsz : Z) : option cstr :=
  let copy_cwd := if zlen cwd <? outsz then Some (path_normalize cwd) else None in
  match path with
  | None => copy_cwd
  | Some path =>
      if (zlen path =? 0) || streq path [c_dot] then copy_cwd
      else if streq path (cs "~") then Some [c_slash]
      else
        let out :=
          if cget path 0 =? c_slash then take (Z.to_nat (outsz - 1)) path
          else resolve_loop (S (length path)) outsz path (take (Z.to_nat (outsz - 1)) cwd) in
        let out := cut_nul out in
        let out := if zlen out =? 0 then [c_slash] else out in
        Some (path_normalize out)
  end.

(** ** Specification *)

(** A component: not empty, without slash or NUL. *)
Definition comp_ok (c : cstr) : Prop := c <> [] /\ Forall (fun x => x <> c_slash /\ x <> 0) c.

(** The absolute path of a stack of components, root first. *)
Fixpoint render_tail (st : list cstr) : cstr :=
  match st with [] => [] | c :: st' => c_slash :: c ++ render_tail st' end.
Definition render (st : list cstr) : cstr :=
  match st with [] => [c_slash] | _ => render_tail st end.

Fixpoint split_slash (p : cstr) : list cstr :=
  match p with
  | [] => [[]]
  | c :: p' =>
      if c =? c_slash then [] :: split_slash p'
      else match split_slash p' with h :: t => (c :: h) :: t | [] => [[c]] end
  end.

Definition walk1 (st : list cstr) (c : cstr) : list cstr :=
  if bool_decide (c = []) then st
  else if bool_decide (c = [c_dot]) then st
  else if bool_decide (c = [c_dot; c_dot]) then take (length st - 1) st
  else st ++ [c].
Definition walk (st : list cstr) (cs : list cstr) : list cstr := fold_left walk1 cs st.

(** From a working directory that ends in a slash, a [..] that comes before any
    named component is spent on that slash. *)
Fixpoint eat_up (comps : list cstr) : list cstr :=
  match comps with
  | [] => []
  | c :: comps' =>
      if bool_decide (c = []) || bool_decide (c = [c_dot]) then eat_up comps'
      else if bool_decide (c = [c_dot; c_dot]) then comps' else comps
  end.

(** ** Lemmas: normal forms *)

Definition no_double_slash (p : cstr) : Prop :=
  forall i, p !! i = Some c_slash -> p !! S i = Some c_slash -> False.

Lemma collapse_head a p : hd 0 (collapse (a :: p)) = a.
Proof.
  revert a; induction p as [|b p IH]; intros a; simpl; [done|].
  destruct ((a =? c_slash) && (b =? c_slash)) eqn:E; [|done].
  bool_to_prop; subst. apply (IH c_slash).
Qed.

Lemma collapse_nonempty p : p <> [] -> collapse p <> [].
Proof.
  destruct p as [|a p]; [done|]. revert a; induction p as [|b p IH]; intros a _; simpl; [done|].
  destruct ((a =? c_slash) && (b =? c_slash)); [|done]. by apply (IH b).
Qed.

Lemma collapse_no_double p : no_double_slash (collapse p).
Proof.
  induction p as [|a p IH]; [by intros ??|]. destruct p as [|b p].
  { intros [|i]; simpl; [done|by destruct i]. }
  simpl in *. destruct ((a =? c_slash) && (b =? c_slash)) eqn:E; [done|].
  intros [|i] H1 H2; [|by apply (IH i)].
  simpl in H1, H2. injection H1 as ->. pose proof (collapse_head b p) as Hh. simpl in Hh.
  destruct (match p with [] => _ | _ => _ end) as [|x l]; [done|].
  simpl in H2, Hh. injection H2 as ->. subst b. done.
Qed.

Lemma collapse_id p : no_double_slash p -> collapse p = p.
Proof.
  induction p as [|a p IH]; intros Hp; [done|]. destruct p as [|b p]; [done|].
  assert (Hp' : no_double_slash (b :: p)) by (intros i; apply (Hp (S i))).
  simpl in *. destruct ((a =? c_slash) && (b =? c_slash)) eqn:E.
  - bool_to_prop; subst. exfalso. by apply (Hp 0%nat).
  - by rewrite IH.
Qed.

Lemma length_collapse p : (length (collapse p) <= length p)%nat.
Proof.
  induction p as [|a p IH]; [done|]. destruct p as [|b p]; [done|].
  simpl in *. destruct ((a =? c_slash) && (b =? c_slash)); simpl; lia.
Qed.

(** ** Lemmas: rendered stacks *)

Lemma render_tail_app s t : render_tail (s ++ t) = render_tail s ++ render_tail t.
Proof. induction s; simpl; [done|]. by rewrite IHs, <- app_assoc. Qed.

Lemma render_cons st : st <> [] -> render st = render_tail st.
Proof. by destruct st. Qed.

Lemma comp_last c : comp_ok c -> exists c' x, c = c' ++ [x] /\ x <> c_slash /\ x <> 0.
Proof.
  intros [Hne Hf]. destruct c as [|x c'] using rev_ind; [done|].
  exists c', x. apply Forall_app in Hf as [_ Hx%Forall_cons_iff]. tauto.
Qed.

(** A rendered stack other than the root does not end in a slash. *)
Lemma render_tail_last st c : comp_ok c -> exists r x, render_tail (st ++ [c]) = r ++ [x] /\ x <> c_slash /\ x <> 0.
Proof.
  intros (c' & x & -> & Hx)%comp_last. exists (render_tail st ++ c_slash :: c'), x.
  split; [|done]. rewrite render_tail_app. simpl. rewrite app_nil_r, <- app_assoc. done.
Qed.

Lemma cget_last (r : cstr) x : cget (r ++ [x]) (zlen (r ++ [x]) - 1) = x.
Proof.
  unfold cget. rewrite zlen_app, zlen_cons, zlen_nil. pose proof (zlen_nonneg r).
  replace (zlen r + (1 + 0) - 1) with (zlen r) by lia.
  replace (zlen r <? 0) with false by lia. unfold zlen. rewrite Nat2Z.id.
  by rewrite app_nth2, Nat.sub_diag by lia.
Qed.

Lemma strip_slash_render st : Forall comp_ok st -> strip_slash (render st) = render st.
Proof.
  intros Hst. destruct st as [|c st _] using rev_ind; [done|].
  apply Forall_app in Hst as [_ [Hc _]%Forall_cons_iff].
  rewrite render_cons by (by destruct st).
  destruct (render_tail_last st c Hc) as (r & x & Hr & Hx & _). unfold strip_slash.
  rewrite Hr, cget_last. replace (x =? c_slash) with false by lia. by rewrite andb_false_r.
Qed.

Lemma no_double_cons a p :
  no_double_slash p -> (a = c_slash -> hd_error p <> Some c_slash) -> no_double_slash (a :: p).
Proof.
  intros Hp Ha [|i] H1 H2; [|by apply (Hp i)]. simpl in *. injection H1 as ->.
  apply Ha; [done|]. by destruct p.
Qed.

Lemma no_double_comp c p :
  Forall (fun x => x <> c_slash /\ x <> 0) c -> no_double_slash p -> no_double_slash (c ++ p).
Proof.
  induction 1 as [|x c [Hx _] _ IH]; intros Hp; simpl; [done|].
  apply no_double_cons; [by apply IH|]. done.
Qed.

Lemma render_tail_no_double st : Forall comp_ok st -> no_double_slash (render_tail st).
Proof.
  induction 1 as [|c st [Hne Hc] _ IH]; simpl; [by intros ??|].
  apply no_double_cons; [by apply no_double_comp|].
  destruct c as [|x c]; [done|]. simpl. intros _ [= ->]. by apply Forall_cons_iff in Hc as [[Hx _] _].
Qed.

Lemma path_normalize_render st : Forall comp_ok st -> path_normalize (render st) = render st.
Proof.
  intros Hst. unfold path_normalize. rewrite strip_slash_render by done.
  apply collapse_id. destruct st; [|by apply render_tail_no_double].
  intros [|i]; simpl; [done|by destruct i].
Qed.

Lemma cut_nul_id p : no_nul p -> cut_nul p = p.
Proof.
  induction 1 as [|x p Hx Hp IH]; simpl; [done|]. by rewrite IH, (proj2 (Z.eqb_neq x 0)).
Qed.

Lemma render_no_nul st : Forall comp_ok st -> no_nul (render st).
Proof.
  intros Hst. assert (no_nul (render_tail st)).
  { induction Hst as [|c st [_ Hc] _ IH]; simpl; [constructor|].
    apply no_nul_cons; split; [done|]. apply no_nul_app; split; [|done].
    eapply Forall_impl; [exact Hc|]. by intros ? []. }
  destruct st; [by repeat constructor|done].
Qed.

(** ** Lemmas: the component loop *)

Lemma split_slash_comp c :
  Forall (fun x => x <> c_slash /\ x <> 0) c -> split_slash c = [c].
Proof.
  induction 1 as [|x c [Hx _] _ IH]; simpl; [done|].
  by rewrite IH, (proj2 (Z.eqb_neq x c_slash)).
Qed.

Lemma split_slash_app c r :
  Forall (fun x => x <> c_slash /\ x <> 0) c ->
  split_slash (c ++ c_slash :: r) = c :: split_slash r.
Proof.
  induction 1 as [|x c [Hx _] _ IH]; simpl; [done|].
  by rewrite IH, (proj2 (Z.eqb_neq x c_slash)).
Qed.

(** A path without leading slash starts with a component that a slash or the
    end follows. *)
Lemma first_component p :
  no_nul p -> p <> [] -> hd_error p <> Some c_slash ->
  exists c r, p = c ++ r /\ comp_ok c /\ (r = [] \/ exists r', r = c_slash :: r').
Proof.
  intros Hn Hne Hh. destruct p as [|x p]; [done|].
  assert (x <> c_slash) by (intros ->; done). clear Hh Hne.
  revert x H Hn; induction p as [|y p IH]; intros x Hx Hn; apply no_nul_cons in Hn as [Hx0 Hn].
  { exists [x], []. split_and!; [done|by repeat constructor|by left]. }
  destruct (decide (y = c_slash)) as [->|Hy].
  { exists [x], (c_slash :: p). split_and!; [done|by repeat constructor|by right; exists p]. }
  destruct (IH y Hy Hn) as (c & r & Heq & [Hc1 Hc2] & Hr). exists (x :: c), r.
  rewrite Heq. split_and!; [done| |done]. split; [done|]. by constructor.
Qed.

Lemma skip_char_split st p : walk st (split_slash (skip_char c_slash p)) = walk st (split_slash p).
Proof.
  induction p as [|x p IH]; [done|]. simpl.
  destruct (Z.eqb_spec x c_slash) as [->|Hx]; [|simpl; by rewrite (proj2 (Z.eqb_neq x _))].
  rewrite IH. done.
Qed.

Lemma skip_char_props p :
  no_nul p -> no_nul (skip_char c_slash p) /\ (length (skip_char c_slash p) <= length p)%nat /\
  hd_error (skip_char c_slash p) <> Some c_slash.
Proof.
  induction 1 as [|x p Hx Hp IH]; simpl; [by split_and!; [constructor|lia|]|].
  destruct (Z.eqb_spec x c_slash) as [->|Hne].
  - destruct IH as (H1 & H2 & H3). split_and!; [done|lia|done].
  - split_and!; [by constructor|simpl; lia|simpl; congruence].
Qed.

Lemma copy_component_spec outsz c r out :
  Forall (fun x => x <> c_slash /\ x <> 0) c -> zlen out + zlen c <= outsz - 1 ->
  r = [] \/ (exists r', r = c_slash :: r') ->
  copy_component outsz (c ++ r) out = (out ++ c, r).
Proof.
  intros Hc. revert out. induction Hc as [|x c [Hx _] _ IH]; intros out Hl Hr; simpl.
  - rewrite app_nil_r. destruct Hr as [->|[r' ->]]; done.
  - rewrite zlen_cons in Hl. pose proof (zlen_nonneg c).
    replace (negb (x =? c_slash)) with true by (symmetry; apply negb_true_iff; lia).
    replace (zlen out <? outsz - 1) with true by lia. simpl.
    rewrite IH; [by rewrite <- app_assoc|rewrite zlen_app, zlen_cons, zlen_nil; lia|done].
Qed.

(** [..] on a rendered stack removes its last component. *)
Lemma back_to_slash_comp fuel out c :
  Forall (fun x => x <> c_slash /\ x <> 0) c -> (length c <= fuel)%nat ->
  back_to_slash fuel (out ++ c_slash :: c) (zlen (out ++ c_slash :: c)) = zlen out + 1.
Proof.
  intros Hc Hf.
  assert (Hg : forall n, (n <= length c)%nat -> forall fuel, (n <= fuel)%nat ->
     back_to_slash fuel (out ++ c_slash :: c) (zlen out + 1 + Z.of_nat n) = zlen out + 1).
  2:{ replace (zlen (out ++ c_slash :: c)) with (zlen out + 1 + Z.of_nat (length c)).
      - by apply Hg.
      - rewrite zlen_app, zlen_cons. unfold zlen. lia. }
  pose proof (zlen_nonneg out).
  assert (Hget : forall k, 0 <= k -> cget (out ++ c_slash :: c) (zlen out + k) = nth (Z.to_nat k) (c_slash :: c) 0).
  { intros k Hk. unfold cget. replace (_ <? 0) with false by lia. unfold zlen.
    rewrite app_nth2 by lia. f_equal. lia. }
  induction n as [|n IH]; intros Hn [|f] Hfn; simpl back_to_slash; try lia.
  - replace (zlen out + 1 + Z.of_nat 0 - 1) with (zlen out + 0) by lia. rewrite Hget by lia.
    simpl. rewrite andb_false_r. lia.
  - replace (zlen out + 1 + Z.of_nat (S n) - 1) with (zlen out + Z.of_nat (S n)) by lia.
    rewrite Hget, Nat2Z.id by lia. simpl nth.
    rewrite (proj2 (Z.ltb_lt 1 (zlen out + 1 + Z.of_nat (S n)))) by lia.
    assert (nth n c 0 <> c_slash).
    { rewrite nth_lookup. destruct (lookup_lt_is_Some_2 c n) as [y Hy]; [lia|]. rewrite Hy.
      eapply Forall_lookup_1 in Hc; [|exact Hy]. by destruct Hc. }
    replace (negb _) with true by (symmetry; apply negb_true_iff; lia). simpl.
    replace (zlen out + Z.of_nat (S n)) with (zlen out + 1 + Z.of_nat n) by lia.
    apply IH; lia.
Qed.

Lemma go_up_render st : Forall comp_ok st -> go_up (render st) = render (take (length st - 1) st).
Proof.
  intros Hst. destruct st as [|c st _] using rev_ind; [done|].
  apply Forall_app in Hst as [Hst [Hc _]%Forall_cons_iff].
  rewrite length_app. simpl. replace (length st + 1 - 1)%nat with (length st) by lia.
  rewrite take_app_length, render_cons by (by destruct st).
  rewrite render_tail_app. simpl. rewrite app_nil_r. unfold go_up.
  rewrite back_to_slash_comp by (first [apply Hc | rewrite length_app; simpl; lia]).
  set (r := render_tail st). pose proof (zlen_nonneg r).
  rewrite zlen_app, zlen_cons. pose proof (zlen_nonneg c).
  destruct st as [|c0 st].
  - subst r. cbn [render_tail app]. rewrite zlen_nil. simpl.
    by replace (_ <? 1) with false by lia.
  - assert (1 <= zlen r) by (subst r; simpl; rewrite zlen_cons, zlen_app; pose proof (zlen_nonneg c0);
      pose proof (zlen_nonneg (render_tail st)); lia).
    replace (1 <? zlen r + 1) with true by lia.
    replace (zlen r + 1 - 1) with (zlen r) by lia.
    replace (zlen r <? 1) with false by lia. replace (_ <? zlen r) with false by lia.
    unfold zlen. rewrite Nat2Z.id, take_app_length. done.
Qed.

(** The buffer after one more component. *)
Lemma render_snoc st c :
  Forall comp_ok st -> comp_ok c ->
  (if (0 <? zlen (render st)) && negb (cget (render st) (zlen (render st) - 1) =? c_slash)
   then render st ++ [c_slash] else render st) ++ c = render (st ++ [c]).
Proof.
  intros Hst Hc. rewrite (render_cons (st ++ [c])) by (by destruct st).
  rewrite render_tail_app. simpl. rewrite app_nil_r.
  destruct st as [|d st _] using rev_ind; [done|].
  apply Forall_app in Hst as [_ [Hd _]%Forall_cons_iff].
  rewrite render_cons by (by destruct st).
  destruct (render_tail_last st d Hd) as (r & x & Hr & Hx & _). rewrite Hr, cget_last.
  replace (negb (x =? c_slash)) with true by (symmetry; apply negb_true_iff; lia).
  rewrite (proj2 (Z.ltb_lt 0 (zlen (r ++ [x]))))
    by (unfold zlen; rewrite length_app; simpl; lia).
  simpl. by rewrite <- !app_assoc.
Qed.

(** The tests on [p[0]], [p[1]], [p[2]] decide the first component. *)
Definition at_end (r : cstr) : Prop := r = [] \/ exists r', r = c_slash :: r'.

Lemma dotdot_test c r :
  comp_ok c -> at_end r ->
  (cget (c ++ r) 0 =? c_dot) && (cget (c ++ r) 1 =? c_dot) &&
    ((cget (c ++ r) 2 =? c_slash) || (cget (c ++ r) 2 =? 0)) = bool_decide (c = [c_dot; c_dot]).
Proof.
  intros [Hne Hc] Hr. unfold cget. simpl.
  destruct c as [|x [|y [|z c]]]; [done| | |]; simpl.
  - rewrite bool_decide_false by done. apply Forall_cons_iff in Hc as [? _].
    destruct Hr as [->|[r' ->]]; simpl; by rewrite andb_false_r.
  - destruct (Z.eqb_spec x c_dot) as [->|]; [|by rewrite bool_decide_false by congruence].
    destruct (Z.eqb_spec y c_dot) as [->|]; [|by rewrite bool_decide_false by congruence].
    rewrite bool_decide_true by done. by destruct Hr as [->|[r' ->]].
  - rewrite bool_decide_false by done. rewrite !Forall_cons_iff in Hc.
    replace (z =? c_slash) with false by lia. replace (z =? 0) with false by lia.
    by rewrite andb_false_r.
Qed.

Lemma dot_test c r :
  comp_ok c -> at_end r ->
  (cget (c ++ r) 0 =? c_dot) && ((cget (c ++ r) 1 =? c_slash) || (cget (c ++ r) 1 =? 0)) =
  bool_decide (c = [c_dot]).
Proof.
  intros [Hne Hc] Hr. unfold cget. simpl.
  destruct c as [|x [|y c]]; [done| |]; simpl.
  - destruct (Z.eqb_spec x c_dot) as [->|]; [|by rewrite bool_decide_false by congruence].
    rewrite bool_decide_true by done. by destruct Hr as [->|[r' ->]].
  - rewrite bool_decide_false by done. rewrite !Forall_cons_iff in Hc.
    replace (y =? c_slash) with false by lia. replace (y =? 0) with false by lia.
    by rewrite andb_false_r.
Qed.

(** What is left of the path after a component: its components are the tail. *)
Lemma walk_split st c r :
  comp_ok c -> at_end r ->
  walk st (split_slash (c ++ r)) = walk (walk1 st c) (split_slash (skip_slash r)).
Proof.
  intros [_ Hc] [->|[r' ->]].
  - rewrite app_nil_r, split_slash_comp by done. done.
  - by rewrite split_slash_app.
Qed.

Lemma skip_slash_props r : no_nul r -> no_nul (skip_slash r) /\ (length (skip_slash r) <= length r)%nat.
Proof.
  intros Hr. destruct r as [|x r]; simpl; [by split; [constructor|]|].
  destruct (x =? c_slash); [|done]. apply no_nul_cons in Hr as [_ Hr]. split; [done|lia].
Qed.

Lemma walk1_ok st c : Forall comp_ok st -> comp_ok c -> Forall comp_ok (walk1 st c).
Proof.
  intros Hst Hc. unfold walk1. repeat case_bool_decide; try done.
  - by apply Forall_take.
  - apply Forall_app; split; [done|]. by apply Forall_singleton.
Qed.

Lemma length_render_tail_take n st : zlen (render_tail (take n st)) <= zlen (render_tail st).
Proof.
  rewrite <- (take_drop n st) at 2. rewrite render_tail_app, zlen_app.
  pose proof (zlen_nonneg (render_tail (drop n st))). lia.
Qed.

Lemma length_render_take n st : zlen (render (take n st)) <= zlen (render st).
Proof.
  assert (Hpos : forall st, st <> [] -> 1 <= zlen (render_tail st)).
  { intros [|c s] ?; [done|]. simpl. rewrite zlen_cons, zlen_app.
    pose proof (zlen_nonneg c). pose proof (zlen_nonneg (render_tail s)). lia. }
  pose proof (length_render_tail_take n st).
  destruct st as [|c st]; [by rewrite take_nil|]. rewrite (render_cons (c :: st)) by done.
  destruct (take n (c :: st)) eqn:E; [|by rewrite <- E in *; rewrite render_cons by (by rewrite E)].
  apply (Hpos (c :: st)). done.
Qed.

Lemma length_walk1 st c :
  Forall comp_ok st -> comp_ok c -> zlen (render (walk1 st c)) <= zlen (render st) + zlen c + 1.
Proof.
  intros Hst Hc. pose proof (zlen_nonneg c). unfold walk1. repeat case_bool_decide; try lia.
  - pose proof (length_render_take (length st - 1) st). lia.
  - rewrite <- render_snoc by done. rewrite zlen_app. case_test; rewrite ?zlen_app, ?zlen_cons, ?zlen_nil; lia.
Qed.

(** One round on a path that starts with a component. *)
Definition resolve_step (f : nat) (outsz : Z) (p : cstr) (out : list Z) : list Z :=
  if (cget p 0 =? c_dot) && (cget p 1 =? c_dot) && ((cget p 2 =? c_slash) || (cget p 2 =? 0))
  then resolve_loop f outsz (skip_slash (drop 2 p)) (go_up out)
  else if (cget p 0 =? c_dot) && ((cget p 1 =? c_slash) || (cget p 1 =? 0))
  then resolve_loop f outsz (skip_slash (drop 1 p)) out
  else if outsz - 2 <=? zlen out then out
  else
    let out := if (0 <? zlen out) && negb (cget out (zlen out - 1) =? c_slash)
               then out ++ [c_slash] else out in
    let '(out, p) := copy_component outsz p out in
    resolve_loop f outsz (skip_slash p) out.

Lemma resolve_loop_nil f outsz out : resolve_loop f outsz [] out = out.
Proof. by destruct f. Qed.

Lemma resolve_step_walk1 f outsz c r st :
  comp_ok c -> at_end r -> Forall comp_ok st ->
  zlen (render st) + zlen c + 3 <= outsz ->
  resolve_step f outsz (c ++ r) (render st) = resolve_loop f outsz (skip_slash r) (render (walk1 st c)).
Proof.
  intros Hc Hr Hst Hl. unfold resolve_step, walk1.
  rewrite dotdot_test, dot_test by done. pose proof Hc as [Hne Hcc].
  rewrite (bool_decide_false (c = [])) by done.
  case_bool_decide as E1.
  { subst c. simpl. rewrite go_up_render by done. done. }
  case_bool_decide as E2; [by subst c|].
  pose proof (zlen_nonneg c). replace (outsz - 2 <=? zlen (render st)) with false by lia. cbv zeta.
  rewrite copy_component_spec; [|done| |done].
  - by rewrite render_snoc.
  - case_test; rewrite ?zlen_app, ?zlen_cons, ?zlen_nil; lia.
Qed.

(** The loop computes the walk over the components, for every path that fits. *)
Lemma resolve_loop_walk fuel outsz p st :
  (length p < fuel)%nat -> no_nul p -> Forall comp_ok st ->
  zlen (render st) + zlen p + 3 <= outsz ->
  resolve_loop fuel outsz p (render st) = render (walk st (split_slash p)) /\
  Forall comp_ok (walk st (split_slash p)).
Proof.
  revert p st. induction fuel as [|f IH]; intros p st Hf Hn Hst Hl; [lia|].
  destruct (skip_char_props p Hn) as (Hn' & Hlen & Hh).
  rewrite <- (skip_char_split st p). simpl. revert Hn' Hlen Hh.
  generalize (skip_char c_slash p). intros q Hn' Hlen Hh.
  destruct (decide (q = [])) as [->|Hne]; [done|].
  destruct (first_component q Hn' Hne Hh) as (c & r & Hq & Hc & Hr).
  replace (match q with [] => render st | _ :: _ => _ end) with
    (resolve_step f outsz q (render st)) by (by destruct q).
  assert (no_nul r) by (subst q; by apply no_nul_app in Hn' as [_ ?]).
  destruct (skip_slash_props r) as [Hrn Hrl]; [done|].
  assert (Hlq : zlen c + zlen r <= zlen p) by (rewrite <- zlen_app, <- Hq; unfold zlen; lia).
  assert (Hsk : zlen (skip_slash r) = 0 \/ zlen (skip_slash r) + 1 = zlen r).
  { destruct Hr as [->|[r' ->]]; [by left|right]. simpl. rewrite zlen_cons. lia. }
  assert (0 < length c)%nat by (destruct Hc; by destruct c; [|simpl; lia]).
  pose proof (zlen_nonneg r).
  rewrite Hq, walk_split by done. rewrite (resolve_step_walk1 f outsz c r st) by (done || lia).
  pose proof (length_walk1 st c Hst Hc).
  destruct (decide (skip_slash r = [])) as [->|].
  - rewrite resolve_loop_nil. change (walk (walk1 st c) (split_slash [])) with (walk1 st c).
    split; [done|]. by apply walk1_ok.
  - apply IH; [|done|by apply walk1_ok|].
    + subst q. rewrite length_app in Hlen. lia.
    + destruct Hsk as [Hz|Hz]; [|lia]. destruct (skip_slash r); [done|].
      rewrite zlen_cons in Hz. pose proof (zlen_nonneg l). lia.
Qed.

Lemma render_head st : Forall comp_ok st -> exists r, render st = c_slash :: r.
Proof. intros. destruct st; simpl; eauto. Qed.

(** The buffer's string is not empty and normal, so the last lines of
    [fs_resolve] keep it. *)
Lemma resolve_finish st :
  Forall comp_ok st ->
  path_normalize (if zlen (cut_nul (render st)) =? 0 then [c_slash] else cut_nul (render st)) = render st.
Proof.
  intros Hst. rewrite cut_nul_id by (by apply render_no_nul).
  destruct (render_head st Hst) as [r Hr]. rewrite Hr at 1. rewrite zlen_cons.
  pose proof (zlen_nonneg r). replace (1 + zlen r =? 0) with false by lia.
  by apply path_normalize_render.
Qed.

(** ** Lemmas: a working directory that ends in a slash *)

Lemma eat_up_skip p : eat_up (split_slash (skip_char c_slash p)) = eat_up (split_slash p).
Proof.
  induction p as [|x p IH]; [done|]. simpl.
  destruct (Z.eqb_spec x c_slash) as [->|Hx]; [|simpl; by rewrite (proj2 (Z.eqb_neq x _))].
  by rewrite IH.
Qed.

Lemma eat_up_split st c r :
  comp_ok c -> at_end r ->
  walk st (eat_up (split_slash (c ++ r))) =
    if bool_decide (c = [c_dot]) then walk st (eat_up (split_slash (skip_slash r)))
    else if bool_decide (c = [c_dot; c_dot]) then walk st (split_slash (skip_slash r))
    else walk (walk1 st c) (split_slash (skip_slash r)).
Proof.
  intros [Hne Hc] Hr. assert (Hs : exists t, split_slash (c ++ r) = c :: t /\
      walk st t = walk st (split_slash (skip_slash r)) /\
      walk st (eat_up t) = walk st (eat_up (split_slash (skip_slash r))) /\
      walk (walk1 st c) t = walk (walk1 st c) (split_slash (skip_slash r))).
  { destruct Hr as [->|[r' ->]].
    - exists []. by rewrite app_nil_r, split_slash_comp.
    - exists (split_slash r'). by rewrite split_slash_app. }
  destruct Hs as (t & -> & Hw & He & H1). simpl. rewrite (bool_decide_false (c = [])) by done. simpl.
  by repeat case_bool_decide.
Qed.

Lemma go_up_slash st : Forall comp_ok st -> st <> [] -> go_up (render st ++ [c_slash]) = render st.
Proof.
  intros Hst Hne. destruct (render_head st Hst) as [r Hr].
  assert (Hlen : 2 <= zlen (render st)).
  { destruct st as [|c st]; [done|]. apply Forall_cons_iff in Hst as [[Hc _] _]. simpl.
    rewrite zlen_cons, zlen_app. destruct c as [|x c]; [done|]. rewrite zlen_cons.
    pose proof (zlen_nonneg c). pose proof (zlen_nonneg (render_tail st)). lia. }
  unfold go_up. assert (Hb : forall fuel, back_to_slash fuel (render st ++ [c_slash])
      (zlen (render st ++ [c_slash])) = zlen (render st) + 1).
  { intros [|f]; simpl; rewrite ?cget_last, zlen_app, zlen_cons, zlen_nil; [lia|].
    simpl. rewrite andb_false_r. lia. }
  rewrite Hb. cbv zeta. rewrite zlen_app, zlen_cons, zlen_nil.
  rewrite (proj2 (Z.ltb_lt 1 (zlen (render st) + 1))) by lia.
  replace (zlen (render st) + 1 - 1) with (zlen (render st)) by lia.
  rewrite (proj2 (Z.ltb_ge (zlen (render st)) 1)), (proj2 (Z.ltb_ge _ (zlen (render st)))) by lia.
  unfold zlen. by rewrite Nat2Z.id, take_app_length.
Qed.

Lemma resolve_step_slash f outsz c r st :
  comp_ok c -> at_end r -> Forall comp_ok st -> st <> [] ->
  zlen (render st) + zlen c + 4 <= outsz ->
  resolve_step f outsz (c ++ r) (render st ++ [c_slash]) =
    if bool_decide (c = [c_dot]) then resolve_loop f outsz (skip_slash r) (render st ++ [c_slash])
    else if bool_decide (c = [c_dot; c_dot]) then resolve_loop f outsz (skip_slash r) (render st)
    else resolve_loop f outsz (skip_slash r) (render (walk1 st c)).
Proof.
  intros Hc Hr Hst Hne Hl. unfold resolve_step, walk1. rewrite dotdot_test, dot_test by done.
  pose proof Hc as [Hcne Hcc]. rewrite (bool_decide_false (c = [])) by done.
  case_bool_decide as E1.
  { subst c. rewrite bool_decide_false by done. simpl. by rewrite go_up_slash. }
  case_bool_decide as E2; [by subst c|].
  pose proof (zlen_nonneg c). rewrite cget_last, Z.eqb_refl, andb_false_r. cbv zeta.
  assert (Hz : zlen (render st ++ [c_slash]) = zlen (render st) + 1)
    by (rewrite zlen_app, zlen_cons, zlen_nil; lia).
  rewrite Hz, (proj2 (Z.leb_gt (outsz - 2) (zlen (render st) + 1))) by lia.
  rewrite copy_component_spec by (done || lia).
  by rewrite !render_cons, render_tail_app, <- app_assoc by (done || by destruct st); simpl; rewrite app_nil_r.
Qed.

(** The loop from a directory that ends in a slash: the slash stays only when
    nothing but empty and [.] components came, and then nothing has moved. *)
Lemma resolve_loop_slash fuel outsz p st :
  (length p < fuel)%nat -> no_nul p -> Forall comp_ok st -> st <> [] ->
  zlen (render st) + zlen p + 4 <= outsz ->
  let st' := walk st (eat_up (split_slash p)) in
  Forall comp_ok st' /\
  (resolve_loop fuel outsz p (render st ++ [c_slash]) = render st' \/
   resolve_loop fuel outsz p (render st ++ [c_slash]) = render st ++ [c_slash] /\ st' = st).
Proof.
  revert p. induction fuel as [|f IH]; intros p Hf Hn Hst Hne Hl; [lia|].
  destruct (skip_char_props p Hn) as (Hn' & Hlen & Hh). cbv zeta.
  rewrite <- (eat_up_skip p). simpl. revert Hn' Hlen Hh.
  generalize (skip_char c_slash p). intros q Hn' Hlen Hh.
  destruct (decide (q = [])) as [->|Hqne]; [split; [done|by right]|].
  destruct (first_component q Hn' Hqne Hh) as (c & r & Hq & Hc & Hr).
  replace (match q with [] => render st ++ [c_slash] | _ :: _ => _ end) with
    (resolve_step f outsz q (render st ++ [c_slash])) by (by destruct q).
  assert (no_nul r) by (subst q; by apply no_nul_app in Hn' as [_ ?]).
  destruct (skip_slash_props r) as [Hrn Hrl]; [done|].
  assert (Hlq : zlen c + zlen r <= zlen p) by (rewrite <- zlen_app, <- Hq; unfold zlen; lia).
  assert (Hsk : zlen (skip_slash r) + 1 = zlen r \/ skip_slash r = []).
  { destruct Hr as [->|[r' ->]]; [by right|left]. simpl. rewrite zlen_cons. lia. }
  assert (0 < length c)%nat by (destruct Hc; by destruct c; [|simpl; lia]).
  assert (Hfr : (length (skip_slash r) < f)%nat) by (subst q; rewrite length_app in Hlen; lia).
  assert (0 < zlen c) by (unfold zlen; lia). pose proof (zlen_nonneg r).
  rewrite Hq, eat_up_split, resolve_step_slash by (done || lia).
  pose proof (length_walk1 st c Hst Hc). pose proof (walk1_ok st c Hst Hc) as Hw.
  assert (zlen (skip_slash r) <= zlen r) by (unfold zlen; lia).
  case_bool_decide; [apply IH; (done || lia)|].
  case_bool_decide.
  - destruct (resolve_loop_walk f outsz (skip_slash r) st) as [-> ?]; try done; [lia|]. auto.
  - destruct Hsk as [Hsk|Hsk].
    + destruct (resolve_loop_walk f outsz (skip_slash r) (walk1 st c)) as [-> ?]; try done; [lia|]. auto.
    + rewrite Hsk, resolve_loop_nil. auto.
Qed.

Lemma path_normalize_slash st :
  Forall comp_ok st -> st <> [] -> path_normalize (render st ++ [c_slash]) = render st.
Proof.
  intros Hst Hne. unfold path_normalize, strip_slash. rewrite cget_last, Z.eqb_refl, andb_true_r.
  destruct (render_head st Hst) as [r Hr].
  rewrite (proj2 (Z.ltb_lt 1 _)), length_app, Nat.add_sub, take_app_length.
  - rewrite <- (path_normalize_render st Hst) at 2. unfold path_normalize. by rewrite strip_slash_render.
  - rewrite Hr, zlen_app, !zlen_cons, zlen_nil. pose proof (zlen_nonneg r). lia.
Qed.

(** The last lines of [fs_resolve] strip that slash. *)
Lemma resolve_finish_slash st :
  Forall comp_ok st -> st <> [] ->
  path_normalize (if zlen (cut_nul (render st ++ [c_slash])) =? 0 then [c_slash]
                  else cut_nul (render st ++ [c_slash])) = render st.
Proof.
  intros Hst Hne. rewrite cut_nul_id.
  2:{ apply no_nul_app; split; [by apply render_no_nul|by repeat constructor]. }
  rewrite zlen_app, zlen_cons, zlen_nil. pose proof (zlen_nonneg (render st)).
  replace (_ =? 0) with false by lia. by apply path_normalize_slash.
Qed.

(** ** Lemmas: bounds of the buffer *)

Lemma back_to_slash_le fuel out l : back_to_slash fuel out l <= l.
Proof. revert l; induction fuel as [|f IH]; intros l; simpl; [lia|]. case_test; [|lia]. pose proof (IH (l - 1)). lia. Qed.

Lemma length_go_up out : zlen (go_up out) <= Z.max 1 (zlen out).
Proof.
  unfold go_up. pose proof (back_to_slash_le (length out) out (zlen out)) as Hb.
  set (l := back_to_slash _ _ _) in *. cbv zeta. pose proof (zlen_nonneg out).
  destruct (zlen out <? _) eqn:E; bool_to_prop.
  - rewrite zlen_app, zlen_cons, zlen_nil. revert E. repeat case_test; lia.
  - unfold zlen in *. rewrite length_take. lia.
Qed.

Lemma length_copy_component outsz p out :
  zlen out <= outsz - 1 -> zlen (copy_component outsz p out).1 <= outsz - 1.
Proof.
  revert out; induction p as [|c p IH]; intros out Ho; simpl; [done|].
  case_test; [|done]. apply IH. rewrite zlen_app, zlen_cons, zlen_nil. lia.
Qed.

Lemma length_resolve_loop fuel outsz p out :
  2 <= outsz -> zlen out <= outsz - 1 -> zlen (resolve_loop fuel outsz p out) <= outsz - 1.
Proof.
  intros Hsz. revert p out; induction fuel as [|f IH]; intros p out Ho; simpl; [done|].
  destruct (skip_char c_slash p) as [|x q]; [done|]. case_test.
  { apply IH. pose proof (length_go_up out). lia. }
  case_test; [by apply IH|]. case_test; [done|].
  set (o2 := if (0 <? zlen out) && _ then _ else _).
  assert (Ho2 : zlen o2 <= outsz - 1).
  { unfold o2. case_test; [|lia]. rewrite zlen_app, zlen_cons, zlen_nil. lia. }
  pose proof (length_copy_component outsz (x :: q) o2 Ho2) as Hc.
  destruct (copy_component outsz (x :: q) o2) as [o3 q']. by apply IH.
Qed.

Lemma length_cut_nul b : (length (cut_nul b) <= length b)%nat.
Proof. induction b as [|x b IH]; simpl; [done|]. destruct (x =? 0); simpl; lia. Qed.

Lemma length_path_normalize p : zlen (path_normalize p) <= zlen p.
Proof.
  unfold path_normalize, strip_slash. pose proof (length_collapse (take (length p - 1) p)).
  pose proof (length_collapse p). rewrite length_take in *. unfold zlen. case_test; lia.
Qed.

Lemma fs_resolve_fits cwd path outsz r :
  2 <= outsz -> fs_resolve cwd path outsz = Some r -> zlen r < outsz.
Proof.
  intros Hsz. unfold fs_resolve. pose proof (length_path_normalize cwd).
  assert (Hcwd : (if zlen cwd <? outsz then Some (path_normalize cwd) else None) = Some r -> zlen r < outsz).
  { case_test; [|done]. intros Hr%(inj Some). subst r. lia. }
  destruct path as [path|]; [|done]. case_test; [done|].
  case_test; intros Hr%(inj Some); subst r; [unfold zlen; simpl; lia|].
  match goal with |- context [cut_nul ?o] => set (out := o) end.
  assert (Hout : zlen (cut_nul out) <= outsz - 1).
  { pose proof (length_cut_nul out). assert (zlen out <= outsz - 1); [|unfold zlen in *; lia].
    unfold out. case_test; [unfold zlen; rewrite length_take; lia|].
    apply length_resolve_loop; [done|]. unfold zlen. rewrite length_take. lia. }
  match goal with |- zlen (path_normalize ?o) < _ => pose proof (length_path_normalize o) as Hn end.
  eapply Z.le_lt_trans; [exact Hn|]. case_test; [unfold zlen; simpl; lia|lia].
Qed.

(** ** Properties *)

(** C1: Resolving a relative path.  The working directory is any absolute path
    without empty components, with or without a slash at its end ([fs_cd] into a
    directory of the table, such as a home, leaves one); the path does not start with a slash, is not
    the single character [~], and the lengths leave three bytes of the buffer
    free.  Then [fs_resolve] is the walk over the path's components from that
    directory: [..] removes the last component and stays at the root, [.] and
    repeated slashes change nothing, any other component is appended; the result
    is the canonical absolute path of the resulting stack.  When the directory
    ends in a slash the walk starts at the second [..] if the first named step
    is one: that [..] only removes the slash. *)
Theorem fs_resolve_relative st (slash : bool) path outsz :
  let cwd := render st ++ (if slash then [c_slash] else []) in
  Forall comp_ok st -> (slash = true -> st <> []) ->
  no_nul path -> path <> cs "~" -> hd_error path <> Some c_slash ->
  zlen cwd + zlen path + 3 <= outsz ->
  fs_resolve cwd (Some path) outsz =
    Some (render (walk st (let comps := split_slash path in if slash then eat_up comps else comps))).
Proof.
  intros cwd Hst Hsl Hn Htil Hh Hl. pose proof (zlen_nonneg path). pose proof (zlen_nonneg cwd).
  assert (Htake : take (Z.to_nat (outsz - 1)) cwd = cwd) by (apply take_ge; unfold zlen in *; lia).
  assert (Hnorm : path_normalize cwd = render st).
  { subst cwd. destruct slash; [by apply path_normalize_slash, Hsl|].
    by rewrite app_nil_r, path_normalize_render. }
  unfold fs_resolve. rewrite (proj2 (Z.ltb_lt (zlen cwd) outsz)), Hnorm by lia.
  destruct ((zlen path =? 0) || streq path [c_dot]) eqn:E.
  { apply orb_true_iff in E as [E%Z.eqb_eq|E%streq_true]; [|by subst path; destruct slash].
    destruct path; [by destruct slash|rewrite zlen_cons in E; pose proof (zlen_nonneg path); lia]. }
  rewrite (proj2 (streq_false path (cs "~"))) by done.
  replace (cget path 0 =? c_slash) with false.
  2:{ symmetry. apply Z.eqb_neq. destruct path as [|x p]; [done|]. unfold cget; simpl in *. congruence. }
  rewrite Htake. subst cwd. cbv zeta. destruct slash.
  - rewrite zlen_app, zlen_cons, zlen_nil in Hl.
    destruct (resolve_loop_slash (S (length path)) outsz path st) as [Hok [-> | [-> ->]]];
      try done; [lia|by apply Hsl|lia|by rewrite resolve_finish|by rewrite resolve_finish_slash by auto].
  - rewrite app_nil_r in *.
    destruct (resolve_loop_walk (S (length path)) outsz path st) as [-> Hok]; try done; [lia|].
    by rewrite resolve_finish.
Qed.

Lemma fs_resolve_relative_witness :
  fs_resolve (cs "/home/pig/") (Some (cs ".././/../root/x/..")) 256 = Some (cs "/home/root").
Proof.
  apply (fs_resolve_relative [cs "home"; cs "pig"] true (cs ".././/../root/x/..") 256).
  - repeat constructor; discriminate.
  - discriminate.
  - repeat constructor; discriminate.
  - discriminate.
  - discriminate.
  - vm_compute. discriminate.
Defined.

(** After [cd /home/pig], which leaves a slash at the end of the working
    directory, [..] does not reach the parent. *)
Lemma dotdot_from_home_stays :
  fs_resolve (cs "/home/pig/") (Some (cs "..")) 256 = Some (cs "/home/pig").
Proof. reflexivity. Qed.

(** Canonical absolute paths are fixed points of [fs_resolve], from every
    working directory. *)
Theorem fs_resolve_absolute cwd st outsz :
  Forall comp_ok st -> st <> [] -> zlen (render st) < outsz ->
  fs_resolve cwd (Some (render st)) outsz = Some (render st).
Proof.
  intros Hst Hne Hl. unfold fs_resolve.
  destruct (render_head st Hst) as [r Hr]. pose proof (zlen_nonneg r).
  assert (Hz : zlen (render st) = 1 + zlen r) by (rewrite Hr; apply zlen_cons).
  replace (zlen (render st) =? 0) with false by lia.
  rewrite (proj2 (streq_false (render st) [c_dot])) by (rewrite Hr; congruence).
  rewrite (proj2 (streq_false (render st) (cs "~"))) by (rewrite Hr; intros [=]).
  assert (cget (render st) 0 = c_slash) as -> by (by rewrite Hr).
  rewrite Z.eqb_refl, take_ge by (unfold zlen in *; lia). cbv zeta. simpl orb. cbv iota.
  by rewrite resolve_finish.
Qed.

Lemma fs_resolve_absolute_witness :
  fs_resolve (cs "/tmp") (Some (cs "/etc/passwd")) 256 = Some (cs "/etc/passwd").
Proof.
  apply (fs_resolve_absolute (cs "/tmp") [cs "etc"; cs "passwd"] 256).
  - repeat constructor; discriminate.
  - discriminate.
  - reflexivity.
Defined.

(** Whatever its input, [path_normalize] returns a path without two
    consecutive slashes that starts with the same character, never longer. *)
Theorem path_normalize_normal p :
  no_double_slash (path_normalize p) /\ (length (path_normalize p) <= length p)%nat /\
  hd_error (path_normalize p) = hd_error p.
Proof.
  unfold path_normalize. split_and!.
  - apply collapse_no_double.
  - etransitivity; [apply length_collapse|]. unfold strip_slash. case_test; [|done].
    rewrite length_take. lia.
  - assert (Hs : hd_error (strip_slash p) = hd_error p).
    { unfold strip_slash. case_test; [|done]. unfold zlen in *. destruct p as [|a [|b p]]; done. }
    rewrite <- Hs. destruct (strip_slash p) as [|a q]; [done|].
    pose proof (collapse_head a q). destruct (collapse (a :: q)) eqn:E; [by apply collapse_nonempty in E|].
    simpl in *. by subst.
Qed.

(** A trailing double slash is only half removed: the first pass cuts one slash,
    the second does not look at the end of the path again. *)
Lemma normalize_keeps_a_trailing_slash : path_normalize (cs "/a//") = cs "/a/".
Proof. reflexivity. Qed.

(** Absolute paths are not walked: [..] stays in the resolved name. *)
Lemma absolute_dotdot_is_kept :
  fs_resolve (cs "/") (Some (cs "/home/../etc")) 256 = Some (cs "/home/../etc").
Proof. reflexivity. Qed.

(** [fs_resolve] never writes past its buffer: whatever the working
    directory and the path, of any length, the result and its terminator fit in
    the [outsz] bytes; the only case that can overflow, the unbounded copy of
    the working directory for an empty path or [.], is reported. *)
Theorem fs_resolve_bounded cwd path outsz r :
  2 <= outsz -> fs_resolve cwd path outsz = Some r -> zlen r < outsz.
Proof.
  apply fs_resolve_fits.
Qed.

Lemma fs_resolve_bounded_witness : zlen (cs "/tmp/abcd") < 10.
Proof.
  apply (fs_resolve_bounded (cs "/tmp") (Some (cs "abcdef")) 10 (cs "/tmp/abcd") ltac:(lia)).
  reflexivity.
Defined.
