(* ===== verification/PigFs.v ===== *)
(** * pigfs: stores ([kernel/pigfs.h])

    The read-only table [VFS], the 64 in-memory files, the runtime logs and the
    deletion store that survives a soft reboot, with the operations on them.
    Commands over this state are in [PigFsCmd.v]. *)

From Stdlib Require Import ZArith Lia.
From stdpp Require Import base numbers list strings gmap.
From S2P Require Import Prelude CLib Console.

Record VNode := MkVNode { vn_path : cstr; vn_is_dir : bool; vn_content : option cstr }.

(** The table, in the order of the source, without its NULL terminator. *)
Definition VFS : list VNode := [
  MkVNode (cs "/") true None;
  MkVNode (cs "/boot") true None;
  MkVNode (cs "/kernel") true None;
  MkVNode (cs "/drivers") true None;
  MkVNode (cs "/drivers/vga") true None;
  MkVNode (cs "/drivers/kbd") true None;
  MkVNode (cs "/drivers/ps2") true None;
  MkVNode (cs "/drivers/net") true None;
  MkVNode (cs "/shell") true None;
  MkVNode (cs "/shell/games") true None;
  MkVNode (cs "/wm") true None;
  MkVNode (cs "/crypto") true None;
  MkVNode (cs "/dev") true None;
  MkVNode (cs "/proc") true None;
  MkVNode (cs "/etc") true None;
  MkVNode (cs "/etc/skel") true None;
  MkVNode (cs "/root") true None;
  MkVNode (cs "/home") true None;
  MkVNode (cs "/tmp") true None;
  MkVNode (cs "/usr") true None;
  MkVNode (cs "/usr/bin") true None;
  MkVNode (cs "/usr/lib") true None;
  MkVNode (cs "/var") true None;
  MkVNode (cs "/var/log") true None;
  MkVNode (cs "/bin") true None;
  MkVNode (cs "/sbin") true None;
  MkVNode (cs "/proc/net") true None;
  MkVNode (cs "/kernel/poing") true None;
  MkVNode (cs "/README.txt") false
    (Some (cs "pigOS v1.0 x86_64 - type 'help' for commands" ++ [10] ++ cs "type 'wm' for desktop" ++ [10]));
  MkVNode (cs "/Makefile") false
    (Some (cs "CC=gcc" ++ [10] ++ cs "NASM=nasm" ++ [10] ++ cs "CFLAGS=-m64 -ffreestanding" ++ [10] ++
      cs "all: dirs pigOS.iso" ++ [10]));
  MkVNode (cs "/linker.ld") false
    (Some (cs "ENTRY(_start)" ++ [10] ++ cs "SECTIONS { . = 1M; .text BLOCK(4K): ... }" ++ [10]));
  MkVNode (cs "/boot/README.txt") false
    (Some (cs "boot/ - FLARE Bootloader" ++ [10] ++ cs "boot.asm: x86_64 Long Mode bootstrap" ++ [10] ++
      cs "pig.bin: compiled pigKernel ELF" ++ [10] ++ cs "grub.cfg: hidden GRUB config" ++ [10]));
  MkVNode (cs "/boot/boot.asm") false
    (Some (cs "; FLARE x86_64 bootstrap" ++ [10] ++ cs "; PML4->PDPT->PD page tables (2MB pages)" ++
      [10] ++ cs "; Long Mode, calls kernel_main(magic, mb_info)" ++ [10]));
  MkVNode (cs "/boot/pig.bin") false (Some (cs "[pigKernel ELF binary - 151KB]"));
  MkVNode (cs "/boot/grub.cfg") false
    (Some (cs "# FLARE - 5s countdown" ++ [10] ++ cs "set timeout=5" ++ [10] ++
      cs "set timeout_style=countdown" ++ [10] ++ cs "menuentry " ++ [34] ++ cs "pigOS" ++ [34] ++
      cs " { multiboot /boot/pig.bin; boot }"));
  MkVNode (cs "/kernel/README.txt") false
    (Some (cs "kernel/ - pigKernel Core" ++ [10] ++
      cs "kernel.c:  main entry, FLARE splash, verbose poing boot" ++ [10] ++
      cs "mem.h:     4MB bump allocator @ 0x400000" ++ [10] ++ cs "users.h:   user/group system" ++
      [10] ++ cs "pigfs.h:   virtual filesystem" ++ [10] ++
      cs "poing/:    poing init system (13 units)" ++ [10]));
  MkVNode (cs "/kernel/kernel.c") false
    (Some (cs "// pigKernel - FLARE splash + verbose poing boot + shell_run()"));
  MkVNode (cs "/kernel/mem.h") false
    (Some (cs "// 4MB bump allocator @ 0x400000" ++ [10] ++ cs "// km() kf() kmc() kms() ksl() ksc()"));
  MkVNode (cs "/kernel/users.h") false (Some (cs "// User/group: adduser, usermod, groupadd, passwd, rok, su"));
  MkVNode (cs "/kernel/pigfs.h") false
    (Some (cs "// Virtual FS: path resolution, ls, cat, cd, grep, find, rm, touch"));
  MkVNode (cs "/kernel/poing/poing.h") false
    (Some (cs "// poing init system v1.0" ++ [10] ++
      cs "// poingctl status|start|stop|enable|disable|restart|reload|reboot|halt|shutdown|sleep"));
  MkVNode (cs "/drivers/README.txt") false
    (Some (cs "drivers/ - Hardware Drivers" ++ [10] ++
      cs "vga/vga.h:     VGA 80x25 CP437 + hardware cursor" ++ [10] ++
      cs "kbd/keyboard.h: PS/2 keyboard (arrows, F-keys, ctrl)" ++ [10] ++
      cs "ps2/ps2.h:     Combined PS/2 controller" ++ [10] ++
      cs "net/network.h: RTL8139 PCI detection" ++ [10]));
  MkVNode (cs "/drivers/vga/vga.h") false
    (Some (cs "// VGA 80x25 CP437 driver" ++ [10] ++ cs "// Hardware cursor, colors, box chars"));
  MkVNode (cs "/drivers/kbd/keyboard.h") false (Some (cs "// PS/2 keyboard driver"));
  MkVNode (cs "/drivers/ps2/ps2.h") false
    (Some (cs "// PS/2 combined controller" ++ [10] ++ cs "// Mouse disabled until IRQ support added"));
  MkVNode (cs "/drivers/net/network.h") false
    (Some (cs "// RTL8139 Ethernet driver" ++ [10] ++ cs "// PCI detection, TX/RX skeleton"));
  MkVNode (cs "/shell/README.txt") false
    (Some (cs "shell/ - larpshell v2.2" ++ [10] ++ cs "shell.h:    150+ commands" ++ [10] ++
      cs "fastfetch.h: fastfetch with pig art" ++ [10] ++
      cs "polctl.h:   log viewer (journalctl-style)" ++ [10] ++ cs "rpk.h:      package manager" ++
      [10] ++ cs "netpg.h:    network manager" ++ [10] ++ cs "vi.h:       pi/pivi modal editor" ++
      [10] ++ cs "games/:     snake tetris matrix" ++ [10]));
  MkVNode (cs "/shell/shell.h") false
    (Some (cs "// larpshell v2.2" ++ [10] ++ cs "// 150+ commands, tab complete, history, pi, pnano"));
  MkVNode (cs "/shell/vi.h") false
    (Some (cs "// pi/pivi modal editor" ++ [10] ++ cs "// i=insert ESC=normal :wq=save+quit dd=delete"));
  MkVNode (cs "/shell/fastfetch.h") false (Some (cs "// fastfetch - system info with pig ASCII art"));
  MkVNode (cs "/shell/polctl.h") false (Some (cs "// polctl - log viewer (-f -n N -p PRI -u UNIT)"));
  MkVNode (cs "/shell/rpk.h") false (Some (cs "// rpk - package manager (on/install/remove/list/roam)"));
  MkVNode (cs "/shell/netpg.h") false (Some (cs "// netpg - network manager (status/up/down/ip/dhcp)"));
  MkVNode (cs "/shell/games/tetris.h") false (Some (cs "// Tetris game with 7 tetrominoes"));
  MkVNode (cs "/wm/README.txt") false
    (Some (cs "wm/ - PigWM compositor" ++ [10] ++ cs "Win10-style desktop, taskbar, menubar" ++ [10] ++
      cs "F2=terminal window  F3=Robin  F5=power" ++ [10] ++ cs "TAB=cycle focus  ESC=shell" ++ [10]));
  MkVNode (cs "/wm/wm.h") false (Some (cs "// PigWM - Win10-style WM"));
  MkVNode (cs "/crypto/README.txt") false
    (Some (cs "crypto/ - pigssl" ++ [10] ++ cs "pigssl.h: pigcrypt pigdecrypt pighash pigkey pigcert" ++
      [10]));
  MkVNode (cs "/crypto/pigssl.h") false (Some (cs "// pigssl crypto subsystem"));
  MkVNode (cs "/dev/tty0") false (Some (cs "[VGA console - 80x25 text]"));
  MkVNode (cs "/dev/kbd") false (Some (cs "[PS/2 keyboard]"));
  MkVNode (cs "/dev/mouse") false (Some (cs "[PS/2 mouse - disabled until IRQ]"));
  MkVNode (cs "/dev/null") false (Some ([]));
  MkVNode (cs "/dev/zero") false (Some (cs "[zeros]"));
  MkVNode (cs "/dev/random") false (Some (cs "[entropy]"));
  MkVNode (cs "/dev/mem") false (Some (cs "[physical memory]"));
  MkVNode (cs "/dev/eth0") false (Some (cs "[RTL8139 - 10/100Mbps]"));
  MkVNode (cs "/proc/cpuinfo") false
    (Some (cs "processor" ++ [9] ++ cs ": 0" ++ [10] ++ cs "vendor_id" ++ [9] ++ cs ": pigOS" ++ [10] ++
      cs "model name" ++ [9] ++ cs ": x86_64 Virtual CPU" ++ [10] ++ cs "flags" ++ [9] ++ [9] ++
      cs ": fpu pae lm nx sse2" ++ [10] ++ cs "bogomips" ++ [9] ++ cs ": 9999.99" ++ [10]));
  MkVNode (cs "/proc/meminfo") false
    (Some (cs "MemTotal:" ++ [9] ++ cs "4096 kB" ++ [10] ++ cs "MemFree:" ++ [9] ++ cs "3072 kB" ++
      [10] ++ cs "MemAvailable:" ++ [9] ++ cs "3072 kB" ++ [10]));
  MkVNode (cs "/proc/version") false (Some (cs "pigOS 1.0.0 pigKernel #1 SMP x86_64"));
  MkVNode (cs "/proc/uptime") false (Some (cs "999.0 999.0"));
  MkVNode (cs "/proc/mounts") false
    (Some (cs "pigfs / pigfs rw 0 0" ++ [10] ++ cs "devfs /dev devfs rw 0 0" ++ [10] ++
      cs "proc /proc proc rw 0 0" ++ [10]));
  MkVNode (cs "/proc/net/dev") false
    (Some (cs "Inter-|Receive|Transmit" ++ [10] ++ cs "lo:0 0" ++ [10] ++ cs "eth0:0 0" ++ [10]));
  MkVNode (cs "/etc/passwd") false (Some (cs "root:x:0:0:root:/root:/bin/pig" ++ [10]));
  MkVNode (cs "/etc/shadow") false (Some (cs "root:$pig$hash:19000:0:99999:7:::" ++ [10]));
  MkVNode (cs "/etc/group") false
    (Some (cs "root:x:0:root" ++ [10] ++ cs "wheel:x:1:root" ++ [10] ++ cs "users:x:2:" ++ [10]));
  MkVNode (cs "/etc/hostname") false (Some (cs "pigOS" ++ [10]));
  MkVNode (cs "/etc/fstab") false (Some (cs "pigfs / pigfs defaults 0 0" ++ [10]));
  MkVNode (cs "/etc/pig.conf") false
    (Some (cs "INIT=poing" ++ [10] ++ cs "SHELL=/bin/pig" ++ [10] ++ cs "WM=PigWM" ++ [10] ++
      cs "NET=pig-net" ++ [10]));
  MkVNode (cs "/etc/hosts") false (Some (cs "127.0.0.1 localhost" ++ [10] ++ cs "127.0.0.1 pigOS" ++ [10]));
  MkVNode (cs "/etc/resolv.conf") false
    (Some (cs "nameserver 8.8.8.8" ++ [10] ++ cs "nameserver 8.8.4.4" ++ [10]));
  MkVNode (cs "/etc/skel/.lashrc") false
    (Some (cs "# .lashrc - larpshell config" ++ [10] ++ cs "alias ll='ls -la'" ++ [10] ++
      cs "alias la='ls -la'" ++ [10] ++ cs "alias cls='clear'" ++ [10] ++ cs "alias wd='fastfetch'" ++
      [10]));
  MkVNode (cs "/usr/bin/pig") false (Some (cs "[larpshell binary]"));
  MkVNode (cs "/usr/bin/rpk") false (Some (cs "[rpk binary]"));
  MkVNode (cs "/usr/bin/netpg") false (Some (cs "[netpg binary]"));
  MkVNode (cs "/usr/bin/pigssl") false (Some (cs "[pigssl binary]"));
  MkVNode (cs "/var/log/poing.log") false None;
  MkVNode (cs "/var/log/kernel.log") false None;
  MkVNode (cs "/var/log/net.log") false None;
  MkVNode (cs "/var/log/netdebug.log") false None
].

Notation MEMFS_MAX := 64 (only parsing).
Notation LOG_MAX := 128 (only parsing).
Notation LOG_LINE := 96 (only parsing).
Notation DEL_MAGIC := 0xDEAD1337 (only parsing).
Notation DELETED_MAX := 64 (only parsing).
Notation PATH_MAX := 128 (only parsing).
Notation CONTENT_MAX := 2048 (only parsing).

Record MemFile := MkMem { mf_path : cstr; mf_content : cstr; mf_used : bool; mf_is_dir : bool }.

(** The packed structure at physical address 0x600000. *)
Record DelStore := MkDel { magic : Z; count : Z; paths : list cstr }.

(** The file system's static variables.  [memfs] lists the slots below
    [memfs_n]; [deleted_paths] is the whole 64-entry mirror. *)
Record fs := MkFs {
  memfs : list MemFile;
  poing_log : list cstr;
  kern_log : list cstr;
  del_store : DelStore;
  deleted_n : Z;
  deleted_paths : list cstr;
  grep_pipe_input : option (cstr * Z);   (* the string at the pointer, and [grep_pipe_input_len] *)
}.

Definition set_memfs m s := MkFs m (poing_log s) (kern_log s) (del_store s) (deleted_n s)
  (deleted_paths s) (grep_pipe_input s).
Definition set_poing_log l s := MkFs (memfs s) l (kern_log s) (del_store s) (deleted_n s)
  (deleted_paths s) (grep_pipe_input s).
Definition set_kern_log l s := MkFs (memfs s) (poing_log s) l (del_store s) (deleted_n s)
  (deleted_paths s) (grep_pipe_input s).
Definition set_del_store d s := MkFs (memfs s) (poing_log s) (kern_log s) d (deleted_n s)
  (deleted_paths s) (grep_pipe_input s).
Definition set_deleted n l s := MkFs (memfs s) (poing_log s) (kern_log s) (del_store s) n l
  (grep_pipe_input s).
Definition set_grep_pipe g s := MkFs (memfs s) (poing_log s) (kern_log s) (del_store s)
  (deleted_n s) (deleted_paths s) g.

Definition memfs_n (s : fs) : Z := zlen (memfs s).

(** Static initial state over the physical memory [d] found at boot. *)
Definition fs_boot (d : DelStore) : fs := MkFs [] [] [] d 0 (replicate 64 []) None.

(** ** Logs *)

Definition log_poing (msg : cstr) : M fs unit :=
  s ← get;
  if zlen (poing_log s) <? LOG_MAX
  then fits LOG_LINE msg ;; modify (set_poing_log (poing_log s ++ [msg]))
  else mret tt.

Definition log_kern (msg : cstr) : M fs unit :=
  s ← get;
  if zlen (kern_log s) <? LOG_MAX
  then fits LOG_LINE msg ;; modify (set_kern_log (kern_log s ++ [msg]))
  else mret tt.

(** ** Deletion store *)

Definition del_init (d : DelStore) : DelStore :=
  if magic d =? DEL_MAGIC then d
  else MkDel DEL_MAGIC 0 (replicate 64 []).

Definition del_store_init : M fs unit := modify (fun s => set_del_store (del_init (del_store s)) s).

(** Copies between the store and its mirror, entry by entry. *)
Definition copy_paths (n : Z) (from to : list cstr) : list cstr :=
  for_ 0 n (fun i l => aset l i (aget [] from i)) to.

Definition del_sync_from_store : M fs unit :=
  del_store_init ;;
  s ← get;
  let n := i32 (count (del_store s)) in
  let n := if DELETED_MAX <? n then DELETED_MAX else n in
  modify (set_deleted n (copy_paths n (paths (del_store s)) (deleted_paths s))).

Definition del_sync_to_store : M fs unit :=
  del_store_init ;;
  s ← get;
  modify (set_del_store (MkDel DEL_MAGIC (u32 (deleted_n s))
            (copy_paths (deleted_n s) (deleted_paths s) (paths (del_store s))))).

Definition listed (n : Z) (l : list cstr) (p : cstr) : bool :=
  existsb (fun q => streq q p) (take (Z.to_nat n) l).

Definition fs_is_deleted (p : cstr) : M fs bool :=
  del_store_init ;;
  s ← get;
  let cnt := if DELETED_MAX <? count (del_store s) then DELETED_MAX else count (del_store s) in
  mret (listed cnt (paths (del_store s)) p || listed (deleted_n s) (deleted_paths s) p).

Definition fs_mark_deleted (p : cstr) : M fs unit :=
  s ← get;
  (if deleted_n s <? DELETED_MAX
   then in_array DELETED_MAX (deleted_n s) ;;
        fits PATH_MAX p ;;
        modify (fun s => set_deleted (deleted_n s + 1) (aset (deleted_paths s) (deleted_n s) p) s)
   else mret tt) ;;
  del_sync_to_store.

(** [fs_restore]: the first matching entry is removed by shifting the tail. *)
Fixpoint find_index {A} (f : A -> bool) (l : list A) : option nat :=
  match l with
  | [] => None
  | x :: l' => if f x then Some O else S <$> find_index f l'
  end.

Definition fs_restore (p : cstr) : M fs unit :=
  s ← get;
  (match find_index (fun q => streq q p) (take (Z.to_nat (deleted_n s)) (deleted_paths s)) with
   | Some i =>
       modify (set_deleted (deleted_n s - 1)
         (for_ (Z.of_nat i) (deleted_n s - 1) (fun j l => aset l j (aget [] l (j + 1))) (deleted_paths s)))
   | None => mret tt
   end) ;;
  del_sync_to_store.

(** ** In-memory files: pointers to [MemFile] are slot indices *)

Fixpoint memfs_scan (i : nat) (l : list MemFile) (p : cstr) : M fs (option nat) :=
  match l with
  | [] => mret None
  | m :: l' =>
      if mf_used m && streq (mf_path m) p
      then d ← fs_is_deleted (mf_path m);
           if (d : bool) then memfs_scan (S i) l' p else mret (Some i)
      else memfs_scan (S i) l' p
  end.

Definition memfs_find (p : cstr) : M fs (option nat) :=
  s ← get; memfs_scan 0 (memfs s) p.

Definition memfs_create (p : cstr) : M fs (option nat) :=
  s ← get;
  f ← memfs_scan 0 (memfs s) p;
  match f with
  | Some i => mret (Some i)
  | None =>
      if MEMFS_MAX <=? memfs_n s then mret None
      else
        fits PATH_MAX p ;;
        let l := ksl p in
        let is_dir := (1 <? l) && (cget p (l - 1) =? c_slash) in
        modify (fun s => set_memfs (memfs s ++ [MkMem p [] true is_dir]) s) ;;
        mret (Some (length (memfs s)))
  end.

(** A store through the pointer, and a read through it. *)
Definition memfs_update (i : nat) (f : MemFile -> MemFile) : M fs unit :=
  modify (fun s => set_memfs (alter f i (memfs s)) s).
Definition memfs_at (s : fs) (i : nat) : MemFile := nth i (memfs s) (MkMem [] [] false false).

Definition put_content (i : nat) (c : cstr) : M fs unit :=
  fits CONTENT_MAX c ;;
  memfs_update i (fun m => MkMem (mf_path m) c (mf_used m) (mf_is_dir m)).
Definition put_used (i : nat) (b : bool) : M fs unit :=
  memfs_update i (fun m => MkMem (mf_path m) (mf_content m) b (mf_is_dir m)).
Definition put_is_dir (i : nat) (b : bool) : M fs unit :=
  memfs_update i (fun m => MkMem (mf_path m) (mf_content m) (mf_used m) b).

Definition vfs_lookup (p : cstr) : option VNode :=
  List.find (fun n => streq (vn_path n) p) VFS.

Definition fs_find_vnode (p : cstr) : M fs (option VNode) :=
  d ← fs_is_deleted p;
  mret (if (d : bool) then None else vfs_lookup p).

Definition grep_set_pipe_input (data : option cstr) : M fs unit :=
  modify (set_grep_pipe ((fun d => (d, ksl d)) <$> data)).

(** ** Invariant *)

(** The deleted names, as both copies record them. *)
Definition deleted_list (s : fs) : list cstr := take (Z.to_nat (deleted_n s)) (deleted_paths s).
Definition is_deleted (s : fs) (p : cstr) : bool := listed (deleted_n s) (deleted_paths s) p.

Definition slot_ok (m : MemFile) : Prop := zlen (mf_path m) < PATH_MAX /\ zlen (mf_content m) < CONTENT_MAX.

(** A file is visible when its slot is in use and its name is not deleted. *)
Definition live (s : fs) (m : MemFile) : bool := mf_used m && negb (is_deleted s (mf_path m)).

Record fs_ok (s : fs) : Prop := FsOk {
  ok_magic : magic (del_store s) = DEL_MAGIC;
  ok_del_n : 0 <= deleted_n s <= DELETED_MAX;
  ok_count : count (del_store s) = deleted_n s;
  ok_paths_len : zlen (paths (del_store s)) = DELETED_MAX;
  ok_mirror_len : zlen (deleted_paths s) = DELETED_MAX;
  ok_mirror : take (Z.to_nat (deleted_n s)) (paths (del_store s)) = deleted_list s;
  ok_del_fit : Forall (fun p => zlen p < PATH_MAX) (deleted_list s);
  ok_memfs_n : memfs_n s <= MEMFS_MAX;
  ok_slots : Forall slot_ok (memfs s);
  ok_unique : forall i j m m', memfs s !! i = Some m -> memfs s !! j = Some m' ->
    live s m = true -> live s m' = true -> mf_path m = mf_path m' -> i = j;
}.

(** ** Lemmas *)

Section Copy.
Context {A : Type} (d : A).
Lemma aget_lookup (l : list A) i : 0 <= i -> aget d l i = default d (l !! Z.to_nat i).
Proof. intros. unfold aget. by rewrite nth_lookup. Qed.
End Copy.

Lemma copy_paths_spec n from to :
  0 <= n <= zlen from -> zlen from = zlen to ->
  zlen (copy_paths n from to) = zlen to /\
  forall j, 0 <= j < zlen to -> aget [] (copy_paths n from to) j = if j <? n then aget [] from j else aget [] to j.
Proof.
  intros Hn Hl. unfold copy_paths.
  apply (for_ind (fun c l => zlen l = zlen to /\
    forall j, 0 <= j < zlen to -> aget [] l j = if j <? c then aget [] from j else aget [] to j)); [lia| |].
  - split; [done|]. intros j Hj. by case_test; [lia|].
  - intros i l Hi [Hll Hg]. rewrite zlen_aset. split; [done|]. intros j Hj.
    destruct (decide (j = i)) as [->|Hne].
    + rewrite aget_aset_eq by lia. by replace (i <? i + 1) with true by lia.
    + rewrite aget_aset_ne, Hg by lia. by replace (j <? i + 1) with (j <? i) by lia.
Qed.

Lemma copy_paths_eq n from to :
  0 <= n <= zlen from -> zlen from = zlen to ->
  copy_paths n from to = take (Z.to_nat n) from ++ drop (Z.to_nat n) to.
Proof.
  intros Hn Hl. destruct (copy_paths_spec n from to Hn Hl) as [Hlen Hg].
  apply (array_ext []).
  - rewrite Hlen. unfold zlen in *. rewrite length_app, length_take, length_drop. lia.
  - intros j Hj. rewrite Hg by lia. rewrite !aget_lookup by lia. unfold zlen in *.
    case_test.
    + rewrite lookup_app_l by (rewrite length_take; lia). by rewrite lookup_take_lt by lia.
    + rewrite lookup_app_r, lookup_drop by (rewrite length_take; lia). rewrite length_take.
      do 2 f_equal. lia.
Qed.

Lemma listed_spec n l p : listed n l p = bool_decide (p ∈ take (Z.to_nat n) l).
Proof.
  unfold listed. apply Bool.eq_iff_eq_true.
  rewrite existsb_exists, bool_decide_eq_true, list_elem_of_In. split.
  - intros (q & Hq & ->%streq_true). done.
  - intros Hp. exists p. by rewrite streq_refl.
Qed.

Lemma is_deleted_spec s p : is_deleted s p = bool_decide (p ∈ deleted_list s).
Proof. apply listed_spec. Qed.

Lemma del_init_ok d : magic d = DEL_MAGIC -> del_init d = d.
Proof. unfold del_init. intros ->. by rewrite Z.eqb_refl. Qed.

Lemma set_del_store_id s : set_del_store (del_store s) s = s.
Proof. by destruct s. Qed.

(** With the magic word in place the initialization does nothing. *)
Lemma del_store_init_ok s : magic (del_store s) = DEL_MAGIC -> del_store_init s = Ok tt s [].
Proof.
  intros H. unfold del_store_init, modify. by rewrite del_init_ok, set_del_store_id.
Qed.

Lemma fs_is_deleted_eq s p : fs_ok s -> fs_is_deleted p s = Ok (is_deleted s p) s [].
Proof.
  intros []. unfold fs_is_deleted. rewrite (bind_ok _ _ s tt s []) by (by apply del_store_init_ok).
  unfold get, mbind, M_bind, mret, M_ret. simpl. rewrite ok_count0.
  rewrite (proj2 (Z.ltb_ge DELETED_MAX (deleted_n s))) by lia.
  rewrite (listed_spec _ (paths _)), ok_mirror0. unfold is_deleted. rewrite listed_spec.
  by rewrite orb_diag.
Qed.

Definition matches (s : fs) (p : cstr) (m : MemFile) : bool :=
  mf_used m && streq (mf_path m) p && negb (is_deleted s (mf_path m)).

Definition find_slot (s : fs) (p : cstr) : option nat := find_index (matches s p) (memfs s).

Lemma memfs_scan_eq s p l i :
  fs_ok s -> memfs_scan i l p s = Ok ((fun k => (i + k)%nat) <$> find_index (matches s p) l) s [].
Proof.
  intros Hs. revert i. induction l as [|m l IH]; intros i; [done|]. simpl. unfold matches at 1.
  assert (Hrec : memfs_scan (S i) l p s =
    Ok ((fun k => (i + k)%nat) <$> (S <$> find_index (matches s p) l)) s []).
  { rewrite IH. f_equal. destruct (find_index _ l); simpl; [f_equal; lia|done]. }
  destruct (mf_used m && streq (mf_path m) p); simpl; [|done].
  rewrite (bind_ok _ _ s (is_deleted s (mf_path m)) s []) by (by apply fs_is_deleted_eq).
  destruct (is_deleted s (mf_path m)); simpl.
  - by rewrite Hrec.
  - unfold mret, M_ret. do 2 f_equal. lia.
Qed.

Lemma memfs_find_eq s p : fs_ok s -> memfs_find p s = Ok (find_slot s p) s [].
Proof.
  intros Hs. unfold memfs_find, mbind, M_bind, get. rewrite memfs_scan_eq by done.
  unfold find_slot. by destruct (find_index _ _).
Qed.

Lemma fs_find_vnode_eq s p :
  fs_ok s -> fs_find_vnode p s = Ok (if is_deleted s p then None else vfs_lookup p) s [].
Proof.
  intros Hs. unfold fs_find_vnode.
  by rewrite (bind_ok _ _ s (is_deleted s p) s []) by (by apply fs_is_deleted_eq).
Qed.

Lemma find_index_Some {A} (f : A -> bool) l i :
  find_index f l = Some i -> exists x, l !! i = Some x /\ f x = true.
Proof.
  revert i. induction l as [|x l IH]; intros i; simpl; [done|].
  destruct (f x) eqn:E; [intros [= <-]; eauto|].
  destruct (find_index f l) eqn:F; [|done]. intros [= <-]. by apply IH.
Qed.

Lemma find_index_None {A} (f : A -> bool) l :
  find_index f l = None <-> Forall (fun x => f x = false) l.
Proof.
  induction l as [|x l IH]; simpl; [by split|]. rewrite Forall_cons_iff.
  destruct (f x); [by split; [|intros []]|].
  destruct (find_index f l); simpl; [|naive_solver]. split; [done|]. intros [_ H]. by apply IH in H.
Qed.

Lemma matches_live s p m : matches s p m = true <-> live s m = true /\ mf_path m = p.
Proof.
  unfold matches, live. rewrite !andb_true_iff, streq_true, negb_true_iff. naive_solver.
Qed.

Lemma find_slot_Some s p i :
  find_slot s p = Some i -> exists m, memfs s !! i = Some m /\ live s m = true /\ mf_path m = p.
Proof. intros (m & Hm & H%matches_live)%find_index_Some. naive_solver. Qed.

Lemma find_slot_None s p :
  find_slot s p = None <-> forall i m, memfs s !! i = Some m -> live s m = true -> mf_path m <> p.
Proof.
  unfold find_slot. rewrite find_index_None, Forall_lookup. split; intros H i m Hm.
  - intros Hl Hp. specialize (H i m Hm). assert (matches s p m = true) by (by apply matches_live). congruence.
  - destruct (matches s p m) eqn:E; [|done]. apply matches_live in E. naive_solver.
Qed.

(** ** Abstraction: the visible files as a finite map from names *)

Definition abs_list (s : fs) (l : list MemFile) : gmap (list Z) MemFile :=
  foldr (fun m acc => if live s m then <[mf_path m := m]> acc else acc) ∅ l.
Definition abs (s : fs) : gmap (list Z) MemFile := abs_list s (memfs s).

Lemma abs_list_lookup s l p : abs_list s l !! p = List.find (matches s p) l.
Proof.
  induction l as [|m l IH]; simpl; [done|].
  replace (matches s p m) with (live s m && streq (mf_path m) p)
    by (unfold matches, live; rewrite <- !andb_assoc; f_equal; apply andb_comm).
  destruct (live s m); simpl; [|done].
  destruct (streq (mf_path m) p) eqn:E.
  - apply streq_true in E as <-. by rewrite lookup_insert_eq.
  - apply streq_false in E. by rewrite lookup_insert_ne.
Qed.

Lemma abs_lookup s p : abs s !! p = List.find (matches s p) (memfs s).
Proof. apply abs_list_lookup. Qed.

Lemma find_find_index {A} (f : A -> bool) l : List.find f l = find_index f l ≫= (l !!.).
Proof.
  induction l as [|x l IH]; simpl; [done|]. destruct (f x); [done|].
  rewrite IH. by destruct (find_index f l).
Qed.

Lemma abs_find_slot s p :
  abs s !! p = match find_slot s p with Some i => memfs s !! i | None => None end.
Proof. rewrite abs_lookup, find_find_index. unfold find_slot. by destruct (find_index _ _). Qed.

Lemma abs_live s p m :
  fs_ok s -> abs s !! p = Some m <->
  exists i, memfs s !! i = Some m /\ live s m = true /\ mf_path m = p /\ find_slot s p = Some i.
Proof.
  intros Hs. rewrite abs_find_slot. split.
  - destruct (find_slot s p) as [i|] eqn:E; [|done]. intros Hi.
    destruct (find_slot_Some s p i E) as (m' & Hm & Hl & Hp). simplify_eq. eauto.
  - intros (i & Hi & _ & _ & ->). done.
Qed.

Lemma find_app_single {A} (f : A -> bool) l x :
  List.find f (l ++ [x]) = match List.find f l with Some y => Some y | None => if f x then Some x else None end.
Proof. induction l as [|y l IH]; simpl; [done|]. by destruct (f y). Qed.

Lemma find_alter_miss {A} (f : A -> bool) g l i x :
  l !! i = Some x -> f x = false -> f (g x) = false -> List.find f (alter g i l) = List.find f l.
Proof.
  revert i. induction l as [|y l IH]; intros [|i] Hi Hx Hg; simpl in *; try done.
  - injection Hi as ->. by rewrite Hx, Hg.
  - destruct (f y); [done|]. by apply IH.
Qed.

Lemma find_alter_hit {A} (f : A -> bool) g l i x :
  l !! i = Some x -> f x = true -> (forall j y, l !! j = Some y -> f y = true -> j = i) ->
  List.find f (alter g i l) = if f (g x) then Some (g x) else None.
Proof.
  revert i. induction l as [|y l IH]; intros [|i] Hi Hx Hu; simpl in *; try done.
  - injection Hi as ->. destruct (f (g x)); [done|].
    destruct (List.find f l) as [z|] eqn:E; [|done]. apply find_some in E as [Hin Hz].
    apply list_elem_of_In, list_elem_of_lookup_1 in Hin as [j Hj]. by specialize (Hu (S j) z Hj Hz).
  - destruct (f y) eqn:E; [by specialize (Hu 0%nat y eq_refl E)|].
    apply IH; [done|done|]. intros j z Hj Hz. specialize (Hu (S j) z Hj Hz). lia.
Qed.

(** Updating a visible file through its pointer. *)
Lemma abs_update s p i m g :
  fs_ok s -> find_slot s p = Some i -> memfs s !! i = Some m -> mf_path (g m) = mf_path m ->
  abs (set_memfs (alter g i (memfs s)) s) =
    if mf_used (g m) then <[p := g m]> (abs s) else delete p (abs s).
Proof.
  intros Hs Hf Hi Hg. destruct (find_slot_Some s p i Hf) as (m' & Hm & Hl & Hp). simplify_eq.
  assert (Hdel : is_deleted s (mf_path m) = false).
  { unfold live in Hl. by apply andb_true_iff in Hl as [_ ?%negb_true_iff]. }
  apply map_eq. intros q. rewrite abs_lookup. simpl.
  change (matches (set_memfs _ s) q) with (matches s q).
  destruct (decide (q = mf_path m)) as [->|Hq].
  - rewrite (find_alter_hit _ _ _ i m); [|done|by apply matches_live|].
    + replace (matches s (mf_path m) (g m)) with (mf_used (g m))
        by (unfold matches; by rewrite Hg, streq_refl, Hdel, !andb_true_r).
      destruct (mf_used (g m)); [by rewrite lookup_insert_eq|by rewrite lookup_delete_eq].
    + intros j y Hj Hy%matches_live. destruct Hy. by eapply (ok_unique s Hs); eauto.
  - assert (Hmiss : forall x, mf_path x = mf_path m -> matches s q x = false).
    { intros x Hx. unfold matches. rewrite Hx, (proj2 (streq_false _ _)) by done.
      by rewrite andb_false_r. }
    rewrite (find_alter_miss _ _ _ i m) by auto. rewrite <- abs_lookup.
    destruct (mf_used (g m)); [by rewrite lookup_insert_ne|by rewrite lookup_delete_ne].
Qed.

(** The invariant under updates that keep the name and never revive a slot. *)
Lemma update_ok s i m g :
  fs_ok s -> memfs s !! i = Some m -> mf_path (g m) = mf_path m ->
  (mf_used (g m) = true -> mf_used m = true) -> slot_ok (g m) ->
  fs_ok (set_memfs (alter g i (memfs s)) s).
Proof.
  intros Hs Hi Hg Hu Hok. destruct Hs. constructor; simpl; try done.
  - unfold memfs_n, zlen. simpl. by rewrite length_alter.
  - apply Forall_alter; [done|]. intros x Hx _. by simplify_eq.
  - intros j k x y Hj Hk Hx Hy Hp.
    assert (Hback : forall j x, alter g i (memfs s) !! j = Some x -> live s x = true ->
      exists x0, memfs s !! j = Some x0 /\ live s x0 = true /\ mf_path x0 = mf_path x).
    { intros j0 x0 Hj0 Hl0. destruct (decide (j0 = i)) as [->|Hne].
      - rewrite list_lookup_alter, Hi, decide_True in Hj0 by done. injection Hj0 as <-.
        exists m. split; [done|]. split; [|congruence]. unfold live in *. rewrite Hg in Hl0.
        apply andb_true_iff in Hl0 as [H1 H2]. by rewrite Hu, H2.
      - rewrite list_lookup_alter_ne in Hj0 by done. eauto. }
    destruct (Hback j x Hj Hx) as (x0 & ? & ? & ?). destruct (Hback k y Hk Hy) as (y0 & ? & ? & ?).
    eapply ok_unique0; eauto. congruence.
Qed.

(** Appending a fresh slot. *)
Lemma append_ok s p d :
  fs_ok s -> memfs_n s < MEMFS_MAX -> zlen p < PATH_MAX -> find_slot s p = None ->
  fs_ok (set_memfs (memfs s ++ [MkMem p [] true d]) s).
Proof.
  intros Hs Hn Hp Hf. rewrite find_slot_None in Hf. destruct Hs. constructor; simpl; try done.
  - unfold memfs_n in *. simpl. rewrite zlen_app, zlen_cons, zlen_nil. lia.
  - apply Forall_app; split; [done|]. apply Forall_singleton. split; [done|]. simpl. rewrite zlen_nil. lia.
  - intros i j m m' Hi Hj Hm Hm' Hpp.
    change (live (set_memfs _ s)) with (live s) in Hm, Hm'.
    rewrite lookup_app_Some in Hi, Hj.
    destruct Hi as [Hi|[Hi1 Hi2]], Hj as [Hj|[Hj1 Hj2]].
    + eauto.
    + apply list_lookup_singleton_Some in Hj2 as [? <-]. by destruct (Hf i m Hi Hm).
    + apply list_lookup_singleton_Some in Hi2 as [? <-]. by destruct (Hf j m' Hj Hm').
    + apply list_lookup_singleton_Some in Hi2 as [? _]. apply list_lookup_singleton_Some in Hj2 as [? _]. lia.
Qed.

Lemma abs_append s p d :
  find_slot s p = None -> is_deleted s p = false ->
  abs (set_memfs (memfs s ++ [MkMem p [] true d]) s) = <[p := MkMem p [] true d]> (abs s).
Proof.
  intros Hf Hd. apply map_eq. intros q. rewrite abs_lookup. simpl.
  change (matches (set_memfs _ s) q) with (matches s q).
  rewrite find_app_single, <- abs_lookup.
  assert (Hm : matches s q (MkMem p [] true d) = bool_decide (p = q)).
  { unfold matches. simpl. rewrite Hd, andb_true_r. done. }
  rewrite Hm. destruct (decide (p = q)) as [<-|Hne].
  - rewrite lookup_insert_eq, abs_find_slot, Hf. by rewrite bool_decide_true.
  - rewrite lookup_insert_ne by done. rewrite bool_decide_false by done. by destruct (abs s !! q).
Qed.

(** A slot for a name that is marked deleted is not visible. *)
Lemma abs_append_hidden s p d :
  is_deleted s p = true -> abs (set_memfs (memfs s ++ [MkMem p [] true d]) s) = abs s.
Proof.
  intros Hd. apply map_eq. intros q. rewrite abs_lookup. simpl.
  change (matches (set_memfs _ s) q) with (matches s q).
  rewrite find_app_single, <- abs_lookup.
  assert (Hm : matches s q (MkMem p [] true d) = false).
  { unfold matches. simpl. rewrite Hd. apply andb_false_r. }
  rewrite Hm. by destruct (abs s !! q).
Qed.

(** Nor is any change of a slot whose name is marked deleted. *)
Lemma abs_update_hidden s i m g :
  memfs s !! i = Some m -> mf_path (g m) = mf_path m -> is_deleted s (mf_path m) = true ->
  abs (set_memfs (alter g i (memfs s)) s) = abs s.
Proof.
  intros Hi Hg Hd. apply map_eq. intros q. rewrite abs_lookup. simpl.
  change (matches (set_memfs _ s) q) with (matches s q).
  assert (Hmiss : forall x, mf_path x = mf_path m -> matches s q x = false).
  { intros x Hx. unfold matches. rewrite Hx, Hd. apply andb_false_r. }
  by rewrite (find_alter_miss _ _ _ i m), <- abs_lookup by auto.
Qed.

Lemma abs_deleted s p : is_deleted s p = true -> abs s !! p = None.
Proof.
  intros Hd. rewrite abs_find_slot, (proj2 (find_slot_None s p)); [done|].
  intros i m _ [_ Hl%negb_true_iff]%andb_true_iff <-. congruence.
Qed.

(** ** Deletion store lemmas *)

Lemma del_sync_to_store_eq s :
  magic (del_store s) = DEL_MAGIC -> 0 <= deleted_n s <= DELETED_MAX ->
  zlen (paths (del_store s)) = DELETED_MAX -> zlen (deleted_paths s) = DELETED_MAX ->
  del_sync_to_store s =
    Ok tt (set_del_store (MkDel DEL_MAGIC (deleted_n s)
       (deleted_list s ++ drop (Z.to_nat (deleted_n s)) (paths (del_store s)))) s) [].
Proof.
  intros Hm Hn Hl1 Hl2. unfold del_sync_to_store.
  rewrite (bind_ok _ _ s tt s []) by (by apply del_store_init_ok).
  unfold get, modify, mbind, M_bind. simpl.
  rewrite u32_id by lia. by rewrite copy_paths_eq by lia.
Qed.

Lemma take_deleted s n :
  zlen (deleted_paths s) = DELETED_MAX -> 0 <= n <= DELETED_MAX -> deleted_n s = n ->
  length (deleted_list s) = Z.to_nat n.
Proof. intros Hl Hn <-. unfold deleted_list, zlen in *. rewrite length_take. lia. Qed.

(** The store after a sync mirrors the list, so the invariant only asks that no
    hidden file became visible twice. *)
Lemma sync_ok s :
  magic (del_store s) = DEL_MAGIC -> 0 <= deleted_n s <= DELETED_MAX ->
  zlen (paths (del_store s)) = DELETED_MAX -> zlen (deleted_paths s) = DELETED_MAX ->
  Forall (fun p => zlen p < PATH_MAX) (deleted_list s) ->
  memfs_n s <= MEMFS_MAX -> Forall slot_ok (memfs s) ->
  (forall i j m m', memfs s !! i = Some m -> memfs s !! j = Some m' ->
     live s m = true -> live s m' = true -> mf_path m = mf_path m' -> i = j) ->
  fs_ok (set_del_store (MkDel DEL_MAGIC (deleted_n s)
       (deleted_list s ++ drop (Z.to_nat (deleted_n s)) (paths (del_store s)))) s).
Proof.
  intros Hm Hn Hl1 Hl2 Hf Hmn Hsl Hu.
  pose proof (take_deleted s (deleted_n s) Hl2 Hn eq_refl) as Hlen.
  constructor; simpl; try done.
  - unfold zlen in *. rewrite length_app, length_drop, Hlen. lia.
  - rewrite take_app_le, take_ge by lia. done.
Qed.

(** One deletion recorded. *)
Lemma fs_mark_deleted_eq s p :
  fs_ok s -> zlen p < PATH_MAX -> deleted_n s < DELETED_MAX ->
  exists s', fs_mark_deleted p s = Ok tt s' [] /\ fs_ok s' /\
    deleted_list s' = deleted_list s ++ [p] /\ memfs s' = memfs s /\ deleted_n s' = deleted_n s + 1.
Proof.
  intros Hs Hp Hn. pose proof Hs as [].
  set (s1 := set_deleted (deleted_n s + 1) (aset (deleted_paths s) (deleted_n s) p) s).
  assert (Hlist : deleted_list s1 = deleted_list s ++ [p]).
  { unfold deleted_list, s1. simpl. unfold aset, zlen in *.
    replace (Z.to_nat (deleted_n s + 1)) with (S (Z.to_nat (deleted_n s))) by lia.
    rewrite (take_S_r _ _ p) by (rewrite list_lookup_insert_eq; [done|lia]).
    f_equal. rewrite take_insert_ge by lia. done. }
  assert (Hdel : forall q, is_deleted s1 q = false -> is_deleted s q = false).
  { intros q. rewrite !is_deleted_spec, Hlist, !bool_decide_eq_false, elem_of_app. tauto. }
  assert (Hlive : forall m, live s1 m = true -> live s m = true).
  { intros m. unfold live. rewrite !andb_true_iff, !negb_true_iff. intros [? ?]. auto. }
  assert (Hz : zlen (deleted_paths s1) = DELETED_MAX) by (unfold s1; simpl; by rewrite zlen_aset).
  exists (set_del_store (MkDel DEL_MAGIC (deleted_n s1)
       (deleted_list s1 ++ drop (Z.to_nat (deleted_n s1)) (paths (del_store s1)))) s1).
  split_and!; [| |done|done|done].
  - unfold fs_mark_deleted. rewrite (bind_ok get _ s s s []) by done.
    rewrite (bind_ok _ _ s tt s1 []).
    + rewrite del_sync_to_store_eq; try done. simpl. lia.
    + rewrite (proj2 (Z.ltb_lt _ _) Hn). unfold in_array, fits.
      replace ((0 <=? deleted_n s) && (deleted_n s <? DELETED_MAX)) with true by lia.
      by rewrite (proj2 (Z.ltb_lt (zlen p) PATH_MAX)) by lia.
  - apply sync_ok; try done; [simpl; lia| |].
    + rewrite Hlist. apply Forall_app; split; [done|]. by apply Forall_singleton.
    + intros i j m m' Hi Hj Hm Hm'. eapply ok_unique0; eauto.
Qed.

(** A full store: nothing is recorded. *)
Lemma fs_mark_deleted_full s p :
  fs_ok s -> deleted_n s = DELETED_MAX -> exists s', fs_mark_deleted p s = Ok tt s' [] /\ fs_ok s' /\
    deleted_list s' = deleted_list s /\ memfs s' = memfs s.
Proof.
  intros Hs Hn. pose proof Hs as [].
  exists (set_del_store (MkDel DEL_MAGIC (deleted_n s)
       (deleted_list s ++ drop (Z.to_nat (deleted_n s)) (paths (del_store s)))) s).
  split_and!; [|by apply sync_ok|done|done].
  unfold fs_mark_deleted. rewrite (bind_ok get _ s s s []) by done.
  rewrite (bind_ok _ _ s tt s []).
  - by rewrite del_sync_to_store_eq.
  - by rewrite (proj2 (Z.ltb_ge (deleted_n s) DELETED_MAX)) by lia.
Qed.

(** What physical memory may hold at boot: no magic word, or a store that a
    previous run left. *)
Definition store_ok (d : DelStore) : Prop :=
  magic d = DEL_MAGIC -> 0 <= count d <= DELETED_MAX /\ zlen (paths d) = DELETED_MAX /\
                         Forall (fun p => zlen p < PATH_MAX) (take (Z.to_nat (count d)) (paths d)).

Lemma take_replicate_nil (n : nat) (l : list cstr) : zlen l = DELETED_MAX -> (n <= 64)%nat ->
  take n (copy_paths (Z.of_nat n) l (replicate 64 [])) = take n l.
Proof.
  intros Hl Hn. assert (Hz : zlen (replicate 64 ([] : cstr)) = 64) by (unfold zlen; by rewrite length_replicate).
  rewrite copy_paths_eq by lia. rewrite Nat2Z.id.
  rewrite take_app_le by (unfold zlen in *; rewrite length_take; lia).
  apply take_ge. rewrite length_take. lia.
Qed.

Lemma boot_sync d :
  store_ok d -> exists s, del_sync_from_store (fs_boot d) = Ok tt s [] /\ fs_ok s /\
    deleted_list s = (if magic d =? DEL_MAGIC then take (Z.to_nat (count d)) (paths d) else []) /\
    memfs s = [].
Proof.
  intros Hd. set (d' := del_init d).
  assert (Hd' : magic d' = DEL_MAGIC /\ 0 <= count d' <= DELETED_MAX /\ zlen (paths d') = DELETED_MAX /\
    Forall (fun p => zlen p < PATH_MAX) (take (Z.to_nat (count d')) (paths d'))).
  { unfold d', del_init. case_test; [by split; [|apply Hd]|].
    split; [done|]. split; [simpl; lia|]. split; [done|]. constructor. }
  destruct Hd' as (Hm & Hc & Hl & Hf).
  set (s := set_deleted (count d') (copy_paths (count d') (paths d') (replicate 64 [])) (fs_boot d')).
  assert (Hlist : deleted_list s = take (Z.to_nat (count d')) (paths d')).
  { unfold deleted_list, s. simpl. replace (count d') with (Z.of_nat (Z.to_nat (count d'))) at 2 by lia.
    apply take_replicate_nil; [done|lia]. }
  exists s. split_and!; [| | |done].
  - unfold del_sync_from_store, del_store_init, modify, get, mbind, M_bind. simpl. fold d'.
    rewrite i32_id by lia. by rewrite (proj2 (Z.ltb_ge DELETED_MAX (count d'))) by lia.
  - constructor; try done.
    + change (zlen (copy_paths (count d') (paths d') (replicate 64 [])) = DELETED_MAX).
      by destruct (copy_paths_spec (count d') (paths d') (replicate 64 [])) as [-> _]; [lia|..].
    + by rewrite Hlist.
  - rewrite Hlist. unfold d', del_init. by case_test.
Qed.

Lemma memfs_create_eq s p :
  fs_ok s -> zlen p < PATH_MAX ->
  memfs_create p s =
    match find_slot s p with
    | Some i => Ok (Some i) s []
    | None =>
        if MEMFS_MAX <=? memfs_n s then Ok None s []
        else Ok (Some (length (memfs s)))
               (set_memfs (memfs s ++ [MkMem p [] true ((1 <? ksl p) && (cget p (ksl p - 1) =? c_slash))]) s) []
    end.
Proof.
  intros Hs Hp. unfold memfs_create. rewrite (bind_ok get _ s s s []) by done.
  rewrite (bind_ok _ _ s (find_slot s p) s []).
  2:{ rewrite memfs_scan_eq by done. unfold find_slot. by destruct (find_index _ _). }
  destruct (find_slot s p); [done|]. case_test; [done|].
  unfold fits. by rewrite (proj2 (Z.ltb_lt (zlen p) PATH_MAX)) by lia.
Qed.

(** A store of [c] through the pointer to the visible file [p]. *)
Lemma put_content_spec s p i m c :
  fs_ok s -> find_slot s p = Some i -> memfs s !! i = Some m -> zlen c < CONTENT_MAX ->
  exists s1, put_content i c s = Ok tt s1 [] /\ fs_ok s1 /\
    abs s1 = <[p := MkMem p c true (mf_is_dir m)]> (abs s) /\
    memfs_n s1 = memfs_n s /\ deleted_n s1 = deleted_n s /\ deleted_paths s1 = deleted_paths s.
Proof.
  intros Hs Hf Hi Hc. destruct (find_slot_Some s p i Hf) as (m' & Hm & Hl & Hp). simplify_eq.
  apply andb_true_iff in Hl as [Hu _].
  pose proof (ok_slots s Hs) as Hsl. eapply Forall_lookup_1 in Hsl as [? ?]; [|exact Hi].
  eexists. split; [unfold put_content, fits; by rewrite (proj2 (Z.ltb_lt (zlen c) CONTENT_MAX)) by lia|].
  split; [by eapply update_ok|]. split; [erewrite abs_update by done; simpl; by rewrite Hu|].
  split; [|done]. unfold memfs_n, zlen. simpl. by rewrite length_alter.
Qed.

(** ** A file system to compute with: three files, one of them removed *)

Definition fs_sample : fs :=
  MkFs [MkMem (cs "/tmp/a") (cs "alpha") true false; MkMem (cs "/tmp/b") [] false false;
        MkMem (cs "/home/pig/") (cs "[dir]") true true]
       [] [] (MkDel DEL_MAGIC 1 (cs "/README.txt" :: replicate 63 []))
       1 (cs "/README.txt" :: replicate 63 []) None.

Lemma fs_sample_ok : fs_ok fs_sample.
Proof.
  constructor; try done.
  - by apply Forall_singleton.
  - repeat constructor.
  - intros [|[|[|i]]] [|[|[|j]]] m m' Hi Hj; simpl in *; try done; simplify_eq; by vm_compute.
Qed.

(** ** Properties *)

(** C4: [memfs_create] refines insertion in a map from names to files, for every
    name of fewer than 128 characters (what its buffer holds): an existing
    visible file is returned unchanged; otherwise, when all 64 slots were used
    the call fails and changes nothing, and when one is free the new slot is
    returned.  The file in it is empty, a directory when the name ends in a
    slash, and the only change to the visible files; a name that is marked
    deleted stays hidden, and then the visible files do not change although the
    call succeeds and the slot is spent.  The invariant is kept in every case. *)
Theorem memfs_create_refines s p :
  fs_ok s -> zlen p < PATH_MAX ->
  let new := MkMem p [] true ((1 <? ksl p) && (cget p (ksl p - 1) =? c_slash)) in
  exists s', memfs_create p s = Ok (match abs s !! p with
                                    | Some _ => find_slot s p
                                    | None => if 64 <=? memfs_n s then None else Some (length (memfs s))
                                    end) s' [] /\
    fs_ok s' /\
    memfs s' = match abs s !! p with
               | Some _ => memfs s
               | None => if 64 <=? memfs_n s then memfs s else memfs s ++ [new]
               end /\
    abs s' = match abs s !! p with
             | Some _ => abs s
             | None => if (64 <=? memfs_n s) || is_deleted s p then abs s else <[p := new]> (abs s)
             end.
Proof.
  intros Hs Hp new. rewrite memfs_create_eq by done. rewrite abs_find_slot.
  destruct (find_slot s p) as [i|] eqn:E.
  - destruct (find_slot_Some s p i E) as (m & -> & _). eauto.
  - case_test; [eauto|]. eexists. split; [done|]. split; [by apply append_ok|]. split; [done|].
    destruct (is_deleted s p) eqn:Hd; [by apply abs_append_hidden|by apply abs_append].
Qed.

Lemma memfs_create_refines_witness :
  exists s', memfs_create (cs "/tmp/b") fs_sample = Ok (Some 3%nat) s' [] /\
    abs s' !! cs "/tmp/b" = Some (MkMem (cs "/tmp/b") [] true false).
Proof.
  destruct (memfs_create_refines fs_sample (cs "/tmp/b")) as (s' & Hc & _ & _ & Ha).
  - apply fs_sample_ok.
  - reflexivity.
  - exists s'. split; [exact Hc|]. rewrite Ha. reflexivity.
Defined.

(** A store through a [MemFile] pointer refines the map operation: writing
    the content of a visible file changes that file only, and clearing its
    [used] flag removes its name and nothing else. *)
Theorem memfs_write_refines s p i m c :
  fs_ok s -> find_slot s p = Some i -> memfs s !! i = Some m -> zlen c < CONTENT_MAX ->
  (exists s1, put_content i c s = Ok tt s1 [] /\ fs_ok s1 /\
     abs s1 = <[p := MkMem p c true (mf_is_dir m)]> (abs s)) /\
  (exists s2, put_used i false s = Ok tt s2 [] /\ fs_ok s2 /\ abs s2 = delete p (abs s)).
Proof.
  intros Hs Hf Hi Hc. destruct (find_slot_Some s p i Hf) as (m' & Hm & Hl & Hp). simplify_eq.
  apply andb_true_iff in Hl as [Hu _].
  pose proof (ok_slots s Hs) as Hsl. eapply Forall_lookup_1 in Hsl as [? ?]; [|exact Hi].
  split.
  - destruct (put_content_spec s (mf_path m) i m c) as (s1 & ? & ? & ? & _); eauto.
  - eexists. split; [done|]. split; [by eapply update_ok|].
    by erewrite abs_update by done.
Qed.

Lemma memfs_write_refines_witness :
  exists s2, put_used 0 false fs_sample = Ok tt s2 [] /\ fs_ok s2 /\
             abs s2 = delete (cs "/tmp/a") (abs fs_sample).
Proof.
  destruct (memfs_write_refines fs_sample (cs "/tmp/a") 0
              (MkMem (cs "/tmp/a") (cs "alpha") true false) (cs "beta")) as [_ H].
  - apply fs_sample_ok.
  - reflexivity.
  - reflexivity.
  - reflexivity.
  - exact H.
Defined.

(** C3: Deletions persist.  [fs_mark_deleted], for a name of fewer than 128
    characters (what an entry of the store holds), always returns; it records
    the name when fewer than 64 names are recorded and otherwise changes the
    status of no name.  After it exactly the names recorded before and that one
    are marked deleted, and a soft reboot that reloads the store from physical
    memory keeps the status of every name.  When there was room, the name is
    hidden at once among the in-memory files, and after the reboot also in the
    built-in table. *)
Theorem deletion_survives_reboot s p q :
  fs_ok s -> zlen p < PATH_MAX ->
  exists s' s'', fs_mark_deleted p s = Ok tt s' [] /\ fs_ok s' /\
    del_sync_from_store (fs_boot (del_store s')) = Ok tt s'' [] /\ fs_ok s'' /\
    is_deleted s' q = bool_decide (q = p) && (deleted_n s <? 64) || is_deleted s q /\
    is_deleted s'' q = is_deleted s' q /\
    (deleted_n s < 64 -> abs s' !! p = None /\ result (fs_find_vnode p s'') = inl None).
Proof.
  intros Hs Hp.
  assert (Hmark : exists s', fs_mark_deleted p s = Ok tt s' [] /\ fs_ok s' /\
      deleted_list s' = deleted_list s ++ if deleted_n s <? DELETED_MAX then [p] else []).
  { destruct (Z.ltb_spec (deleted_n s) DELETED_MAX) as [Hn|Hn].
    - destruct (fs_mark_deleted_eq s p Hs Hp Hn) as (s' & ? & ? & ? & _); eauto.
    - destruct (fs_mark_deleted_full s p Hs) as (s' & ? & ? & Hl & _).
      { pose proof (ok_del_n s Hs). lia. }
      exists s'. by rewrite app_nil_r. }
  destruct Hmark as (s' & E1 & Hs' & Hl). pose proof Hs' as [].
  destruct (boot_sync (del_store s')) as (s'' & E2 & Hs'' & Hl'' & _).
  { intros _. rewrite ok_count0, ok_mirror0. done. }
  rewrite ok_magic0, ok_count0, Z.eqb_refl, ok_mirror0 in Hl''.
  exists s', s''. split_and!; try done.
  - change 64 with DELETED_MAX. rewrite !is_deleted_spec, Hl.
    destruct (deleted_n s <? DELETED_MAX); [|by rewrite app_nil_r, andb_false_r].
    rewrite andb_true_r, <- bool_decide_or. apply bool_decide_ext.
    rewrite elem_of_app, list_elem_of_singleton. tauto.
  - by rewrite !is_deleted_spec, Hl''.
  - intros Hn. assert (Hp' : is_deleted s' p = true).
    { rewrite is_deleted_spec, Hl, (proj2 (Z.ltb_lt _ DELETED_MAX) Hn).
      apply bool_decide_eq_true, elem_of_app. right. by apply list_elem_of_singleton. }
    split.
    + rewrite abs_find_slot, (proj2 (find_slot_None s' p)); [done|].
      intros i m _ [_ Hd%negb_true_iff]%andb_true_iff <-. congruence.
    + rewrite fs_find_vnode_eq by done. rewrite is_deleted_spec, Hl'', <- is_deleted_spec, Hp'. done.
Qed.

Lemma deletion_survives_reboot_witness :
  exists s' s'', fs_mark_deleted (cs "/etc/hosts") fs_sample = Ok tt s' [] /\
    del_sync_from_store (fs_boot (del_store s')) = Ok tt s'' [] /\
    result (fs_find_vnode (cs "/etc/hosts") s'') = inl None.
Proof.
  destruct (deletion_survives_reboot fs_sample (cs "/etc/hosts") (cs "/etc/hosts"))
    as (s' & s'' & H1 & _ & H2 & _ & _ & _ & H3).
  - apply fs_sample_ok.
  - reflexivity.
  - exists s', s''. split; [exact H1|]. split; [exact H2|]. apply H3. reflexivity.
Defined.

(** Whatever physical memory holds at boot (no store yet, or one a previous
    run left), loading the deletion store succeeds and starts the file system
    in a well-formed state with exactly the recorded deletions. *)
Theorem boot_loads_deletions d :
  store_ok d ->
  exists s, del_sync_from_store (fs_boot d) = Ok tt s [] /\ fs_ok s /\
    forall p, is_deleted s p = (magic d =? 0xDEAD1337) && listed (count d) (paths d) p.
Proof.
  intros Hd. destruct (boot_sync d Hd) as (s & E & Hs & Hl & _). exists s. split_and!; [done|done|].
  intros p. rewrite is_deleted_spec, Hl, listed_spec.
  by case_test.
Qed.

Lemma boot_loads_deletions_witness :
  exists s, del_sync_from_store (fs_boot (MkDel 0x12345678 9999 [])) = Ok tt s [] /\ fs_ok s.
Proof.
  destruct (boot_loads_deletions (MkDel 0x12345678 9999 [])) as (s & H1 & H2 & _).
  - intros H. discriminate H.
  - exists s. split; [exact H1|exact H2].
Defined.

(** Slots are never reused: removing a file does not free its slot, so 64
    creations exhaust the table whatever was removed in between. *)
Definition full_but_empty : fs :=
  set_memfs (replicate 64 (MkMem (cs "/tmp/x") [] false false)) (fs_boot (MkDel DEL_MAGIC 0 (replicate 64 []))).

Lemma removed_slots_are_not_reused :
  abs full_but_empty = ∅ /\ result (memfs_create (cs "/tmp/new") full_but_empty) = inl None.
Proof. by vm_compute. Qed.

(** A name that was deleted from the table can be created again, and stays
    invisible. *)
Lemma created_after_deletion_is_hidden :
  let r := memfs_create (cs "/README.txt") fs_sample in
  result r = inl (Some 3%nat) /\ result (memfs_find (cs "/README.txt") (post r)) = inl None.
Proof. by vm_compute. Qed.
