(* ===== verification/PigFsCmd.v ===== *)
(** * pigfs: commands ([kernel/pigfs.h])

    [ls], [cat], [touch], [rm], [grep], [find], [cd] and [pwd] over the stores of
    [PigFs.v], with their console output.  A [const char*] argument that the
    code tests against [NULL] is an option. *)

From Stdlib Require Import ZArith Lia.
From stdpp Require Import base numbers list strings gmap.
From S2P Require Import Prelude CLib Console PigPath PigFs.

(** [char path[256]; fs_resolve(cwd,arg,path,256);] *)
Definition resolve (cwd : cstr) (arg : cstr) : M fs cstr :=
  match fs_resolve cwd (Some arg) 256 with Some p => mret p | None => fail BufferOverflow end.

Definition no_arg (arg : option cstr) : bool :=
  match arg with None => true | Some a => bool_decide (a = []) end.
Definition the_arg (arg : option cstr) : cstr := default [] arg.

(** The visible file behind a pointer, or nothing. *)
Definition lookup_mem (p : cstr) : M fs (option MemFile) :=
  i ← memfs_find p; s ← get; mret (memfs_at s <$> i).

(** ** ls *)

Record ls_opts := LsOpts { long_fmt : bool; show_hidden : bool }.

Fixpoint ls_letters (s : cstr) (o : ls_opts) : cstr * ls_opts :=
  match s with
  | c :: s' =>
      if (c =? c_sp) || (c =? c_dash) then (s, o)
      else
        let o := if c =? 108 then LsOpts true (show_hidden o) else o in
        let o := if (c =? 97) || (c =? 65) then LsOpts (long_fmt o) true else o in
        let o := if c =? 104 then LsOpts true (show_hidden o) else o in
        ls_letters s' o
  | [] => ([], o)
  end.

Fixpoint ls_flags (fuel : nat) (s : cstr) (o : ls_opts) : cstr * ls_opts :=
  match fuel, s with
  | S f, c :: s' =>
      if c =? c_dash
      then let '(r, o) := ls_letters s' o in ls_flags f (skip_char c_sp r) o
      else (s, o)
  | _, _ => (s, o)
  end.

(** The part after the last slash. *)
Fixpoint after_last_slash (acc s : cstr) : cstr :=
  match s with
  | c :: s' => if c =? c_slash then after_last_slash s' s' else after_last_slash acc s'
  | [] => acc
  end.
Definition base_name (p : cstr) : cstr := skip_slash (after_last_slash p p).

Definition has_slash (s : cstr) : bool := existsb (fun c => c =? c_slash) s.

(** Whether a table entry is listed for the directory [path]. *)
Definition ls_child (path vp : cstr) : bool :=
  let plen := ksl path in
  if ksl vp <=? plen then false
  else if (plen =? 1) && (cget path 0 =? c_slash)
  then (cget vp 0 =? c_slash) && negb (bool_decide (drop 1 vp = [])) && negb (has_slash (drop 1 vp))
  else strneq vp path (length path) && (cget vp plen =? c_slash) &&
       negb (bool_decide (drop (length path + 1) vp = [])) && negb (has_slash (drop (length path + 1) vp)).

Definition spaces (n : Z) : M fs unit := mapM_ (fun _ => vpc c_sp) (seqZ 0 n).

Definition ls_vnode (o : ls_opts) (path : cstr) (n : VNode) : M fs unit :=
  d ← fs_is_deleted (vn_path n);
  if (d : bool) then mret tt
  else if negb (ls_child path (vn_path n)) then mret tt
  else
    let sl := base_name (vn_path n) in
    if bool_decide (sl = []) then mret tt
    else if negb (show_hidden o) && (cget sl 0 =? c_dot) then mret tt
    else if long_fmt o then
      if vn_is_dir n
      then vset C_LBLUE C_BLACK ;; vps (cs "drwxr-xr-x  root root    - ") ;; vps sl ;; vpc c_slash ;; vpc c_nl
      else
        let sb := kia (match vn_content n with Some c => ksl c | None => 0 end) in
        fits 8 sb ;;
        vset C_WHITE C_BLACK ;; vps (cs "-rw-r--r--  root root ") ;; spaces (5 - ksl sb) ;;
        vps sb ;; vps (cs " ") ;; vps sl ;; vpc c_nl
    else
      if vn_is_dir n then vset C_LBLUE C_BLACK ;; vps sl ;; vps (cs "/  ")
      else vset C_WHITE C_BLACK ;; vps sl ;; vps (cs "  ").

(** The name an in-memory file contributes to the listing of [path]. *)
Definition ls_entry (path mp : cstr) : option cstr :=
  let plen := ksl path in
  if ksl mp <=? plen then None
  else if negb (strneq mp path (length path)) then None
  else
    let rel := drop (length path) mp in
    let rel := if negb (cget path (plen - 1) =? c_slash)
               then (if cget rel 0 =? c_slash then Some (drop 1 rel) else None) else Some rel in
    match rel with
    | None => None
    | Some rel =>
        if has_slash rel
        then let e := (span_until c_slash rel).1 in
             if (128 <=? zlen e) || (zlen e <=? 0) then None else Some e
        else Some rel
    end.

(** Record a name once; a directory among its files makes it a directory. *)
Fixpoint add_entry (e : cstr) (d : bool) (l : list (cstr * bool)) : option (list (cstr * bool)) :=
  match l with
  | [] => None
  | (n, b) :: l' =>
      if streq n e then Some ((n, if d then true else b) :: l')
      else cons (n, b) <$> add_entry e d l'
  end.

Fixpoint ls_collect (o : ls_opts) (path : cstr) (ms : list MemFile) (es : list (cstr * bool))
  : M fs (list (cstr * bool)) :=
  match ms with
  | [] => mret es
  | m :: ms' =>
      if negb (mf_used m) then ls_collect o path ms' es
      else
        d ← fs_is_deleted (mf_path m);
        if (d : bool) then ls_collect o path ms' es
        else
          match ls_entry path (mf_path m) with
          | None => ls_collect o path ms' es
          | Some e =>
              fits 128 e ;;
              if negb (show_hidden o) && (cget e 0 =? c_dot) then ls_collect o path ms' es
              else
                ls_collect o path ms'
                  (match add_entry e (mf_is_dir m) es with
                   | Some es' => es'
                   | None => if zlen es <? 64 then es ++ [(e, mf_is_dir m)] else es
                   end)
          end
  end.

Definition ls_print (o : ls_opts) (e : cstr * bool) : M fs unit :=
  if long_fmt o then
    if e.2 then vset C_LBLUE C_BLACK ;; vps (cs "drwxr-xr-x  root root    - ") ;; vps e.1 ;; vps (cs "/" ++ [c_nl])
    else vset C_LGREEN C_BLACK ;; vps (cs "-rw-r--r--  root root   -  ") ;; vps e.1 ;; vpc c_nl
  else
    if e.2 then vset C_LBLUE C_BLACK ;; vps e.1 ;; vps (cs "/  ")
    else vset C_LGREEN C_BLACK ;; vps e.1 ;; vps (cs "  ").

(** What the search for the argument finds. *)
Inductive ls_target :=
  | LsDir (path : cstr)        (* list this directory *)
  | LsFile (path : cstr)       (* a file: print its name *)
  | LsNone.                    (* nothing *)

(** The attempts on in-memory files, in order: the resolved name, with and
    without a trailing slash, then the argument taken as an absolute name. *)
Definition ls_search_mem (path path_arg : cstr) : M fs ls_target :=
  let pl := ksl path in
  let ends := cget path (pl - 1) =? c_slash in
  mf ← lookup_mem path;
  match mf with
  | Some m => mret (if mf_is_dir m then LsDir path else LsFile (mf_path m))
  | None =>
      fits 256 path ;;
      mf ← (if (1 <? pl) && negb ends
            then fits 256 (path ++ [c_slash]) ;; lookup_mem (path ++ [c_slash])
            else mret None);
      match mf with
      | Some m => mret (if mf_is_dir m then LsDir (mf_path m) else LsFile (mf_path m))
      | None =>
          mf ← (if (1 <? pl) && ends then lookup_mem (take (length path - 1) path) else mret None);
          match mf with
          | Some m => mret (if mf_is_dir m then LsDir (mf_path m) else LsFile (mf_path m))
          | None =>
              let abs := if cget path_arg 0 =? c_slash then path_arg else c_slash :: path_arg in
              fits 256 abs ;;
              let abs := strip_slash abs in
              mf ← lookup_mem abs;
              match mf with
              | Some m => mret (if mf_is_dir m then LsDir (mf_path m) else LsFile (mf_path m))
              | None =>
                  fits 256 (abs ++ [c_slash]) ;;
                  mf ← lookup_mem (abs ++ [c_slash]);
                  match mf with
                  | Some m => mret (if mf_is_dir m then LsDir (mf_path m) else LsFile (mf_path m))
                  | None => mret LsNone
                  end
              end
          end
      end
  end.

Definition fs_ls (cwd : cstr) (arg : option cstr) : M fs unit :=
  let p := skip_char c_sp (the_arg arg) in
  let '(p, o) := ls_flags (length p) p (LsOpts false false) in
  path_arg ← (match p with [] => mret [c_dot] | _ => fits 256 p ;; mret (strip_slash p) end);
  path ← resolve cwd path_arg;
  target ← fs_find_vnode path;
  found ← (match target with
           | Some _ => mret (LsDir path)
           | None => ls_search_mem path path_arg
           end);
  match found with
  | LsFile name => vpln name
  | LsNone =>
      vset C_LRED C_BLACK ;; vps (cs "ls: cannot access '") ;; vps path_arg ;;
      vpln (cs "': No such file or directory") ;; vrst
  | LsDir path =>
      (if show_hidden o && ((1 <? ksl path) || negb (cget path 0 =? c_slash))
       then vset C_LBLUE C_BLACK ;;
            (if long_fmt o
             then vpln (cs "drwxr-xr-x  root root    -  .") ;; vpln (cs "drwxr-xr-x  root root    -  ..")
             else vps (cs ".  ../  ")) ;;
            vrst
       else mret tt) ;;
      mapM_ (ls_vnode o path) VFS ;;
      s ← get;
      es ← ls_collect o path (memfs s) [];
      mapM_ (ls_print o) es ;;
      (if long_fmt o then mret tt else vpc c_nl) ;;
      vrst
  end.

(** ** cat, touch *)

(** [netdebug] is what the network driver's [rtl_net_log_get] returns. *)
Definition fs_cat (netdebug : cstr) (cwd : cstr) (arg : option cstr) : M fs unit :=
  if no_arg arg then vpln (cs "usage: cat <file>")
  else
    let a := the_arg arg in
    let a := if cget a 0 =? c_dash then skip_char c_sp (skip_until c_sp a) else a in
    if bool_decide (a = []) then vpln (cs "usage: cat <file>")
    else
      path ← resolve cwd a;
      mf ← lookup_mem path;
      match mf with
      | Some m => (if bool_decide (mf_content m = []) then mret tt else vps (mf_content m)) ;; vpc c_nl
      | None =>
          n ← fs_find_vnode path;
          match n with
          | None =>
              vset C_LRED C_BLACK ;; vps (cs "cat: ") ;; vps a ;; vpln (cs ": No such file or directory") ;; vrst
          | Some n =>
              s ← get;
              if vn_is_dir n
              then vset C_LRED C_BLACK ;; vps (cs "cat: ") ;; vps a ;; vpln (cs ": Is a directory") ;; vrst
              else if streq (vn_path n) (cs "/var/log/poing.log")
              then if bool_decide (poing_log s = [])
                   then vpln (cs "[poing.log empty - start services to generate logs]")
                   else mapM_ vpln (poing_log s)
              else if streq (vn_path n) (cs "/var/log/kernel.log")
              then if bool_decide (kern_log s = []) then vpln (cs "[kernel.log empty]")
                   else mapM_ vpln (kern_log s)
              else if streq (vn_path n) (cs "/var/log/netdebug.log")
              then if bool_decide (netdebug = [])
                   then vpln (cs "[netdebug.log empty - run rtldebug first]")
                   else vps netdebug ;; vpc c_nl
              else (match vn_content n with Some c => vps c | None => mret tt end) ;; vpc c_nl
          end
      end.

Definition fs_touch (cwd : cstr) (arg : option cstr) : M fs unit :=
  if no_arg arg then vpln (cs "usage: touch <file>")
  else
    path ← resolve cwd (the_arg arg);
    m ← memfs_find path;
    match m with
    | Some _ => vpln (cs "touch: file exists")
    | None =>
        n ← fs_find_vnode path;
        match n with
        | Some _ => vpln (cs "touch: file exists in pigfs")
        | None =>
            m ← memfs_create path;
            match m with
            | Some _ => vps (cs "touch: created '") ;; vps path ;; vpln (cs "'")
            | None => vpln (cs "touch: memory full")
            end
        end
    end.

(** ** rm *)

Definition CRITICAL_PATHS : list cstr :=
  [cs "/"; cs "/etc"; cs "/dev"; cs "/proc"; cs "/root"; cs "/boot"; cs "/kernel"; cs "/drivers";
   cs "/shell"; cs "/crypto"; cs "/boot/pig.bin"; cs "/boot/boot.asm"; cs "/boot/grub.cfg";
   cs "/kernel/kernel.c"; cs "/kernel/pigfs.h"; cs "/kernel/mem.h"].

Definition is_critical_path (path : cstr) : bool :=
  if (cget path 0 =? c_slash) && (cget path 1 =? 0) then true
  else if negb (cget path 0 =? c_slash) then false
  else existsb (fun c =>
         let cl := ksl c in
         if (cl =? 1) && (cget c 0 =? c_slash) then false
         else strneq path c (length c) && ((cget path cl =? 0) || (cget path cl =? c_slash)))
       CRITICAL_PATHS.

Definition NORETURN_KPANIC (reason path : cstr) : M fs unit :=
  let pc := COL C_WHITE C_BLUE in
  let yb := COL C_YELLOW C_BLUE in
  let rb := COL C_LRED C_BLUE in
  vclear ;;
  vfill 0 0 80 25 c_sp pc ;;
  vstr 0 0 pc (cs "[  0.000000] BUG: kernel NULL pointer dereference") ;;
  vstr 0 1 pc (cs "[  0.000001] #PF: supervisor read access in kernel mode") ;;
  vstr 0 3 pc (cs "[  0.000002] Oops: Critical filesystem corruption") ;;
  vstr 0 4 yb (cs "[  0.000003] REASON: pigfs: critical path removed from VFS") ;;
  vstr 0 5 rb (cs "[  0.000003] PATH:   ") ;;
  vstr 10 5 rb path ;;
  vstr 0 7 pc (cs "[  0.000004] RIP: fs_rm+0x4f/0xb2 [pigfs]") ;;
  vstr 0 8 pc (cs "[  0.000005] RAX: dead00000000dead RBX: ffffc9001c013e80") ;;
  vstr 0 9 pc (cs "[  0.000006] Call Trace:") ;;
  vstr 0 10 pc (cs "[  0.000006]   fs_rm+0x4f/0xb2") ;;
  vstr 0 11 pc (cs "[  0.000007]   sh_dispatch+0x183/0x5c2") ;;
  vstr 0 12 pc (cs "[  0.000007]   shell_run+0x42/0x137") ;;
  vstr 0 13 pc (cs "[  0.000008]   kernel_main+0x2e/0x42") ;;
  vstr 0 15 yb (cs "[  0.000009] Kernel panic - not syncing: VFS critical path deleted") ;;
  vstr 0 16 yb (cs "[  0.000009] pigOS cannot recover - system halted.") ;;
  vstr 0 18 rb (cs "[  0.000010] --- SYSTEM HALTED ---") ;;
  vstr 0 19 (COL C_LGREY C_BLUE) (cs "[  0.000010] Power off the machine or restart QEMU.") ;;
  vstr 0 20 pc reason ;;
  emit EHwCursor ;;
  fail Halted.

(** The words of the command: flags, and the last word that is not one. *)
Record rm_opts := RmOpts { recursive : bool; no_preserve_root : bool; file_arg : option cstr }.

Definition rm_token (o : rm_opts) (t : cstr) : rm_opts :=
  if cget t 0 =? c_dash then
    if cget t 1 =? c_dash
    then if strneq (drop 2 t) (cs "no-preserve-root") 16
         then RmOpts (recursive o) true (file_arg o) else o
    else RmOpts (recursive o || existsb (fun c => c =? 114) (drop 1 t)) (no_preserve_root o) (file_arg o)
  else RmOpts (recursive o) (no_preserve_root o) (Some t).

Definition rm_parse (arg : cstr) : list cstr * rm_opts :=
  let ts := words (S (length arg)) 32 arg in (ts, fold_left rm_token ts (RmOpts false false None)).

(** Removal proper, once the name is resolved; [a] is the first word, which the
    messages show. *)
Definition rm_resolved (a path : cstr) (o : rm_opts) : M fs unit :=
  let is_root := ((cget path 0 =? c_slash) && (cget path 1 =? 0)) || streq a [c_slash] in
  if is_root && negb (no_preserve_root o)
  then vset C_LRED C_BLACK ;;
       vpln (cs "rm: it is dangerous to operate recursively on '/'") ;;
       vpln (cs "use --no-preserve-root to override") ;;
       vrst
  else
    n ← fs_find_vnode path;
    mf ← memfs_find path;
    s ← get;
    match n, mf with
    | None, None =>
        vset C_LRED C_BLACK ;; vps (cs "rm: cannot remove '") ;; vps a ;;
        vpln (cs "': No such file or directory") ;; vrst
    | _, _ =>
        let is_dir := match n with Some n => vn_is_dir n | None => false end ||
                      match mf with Some i => mf_is_dir (memfs_at s i) | None => false end in
        if is_dir && negb (recursive o)
        then vset C_LRED C_BLACK ;; vps (cs "rm: cannot remove '") ;; vps a ;;
             vpln (cs "': Is a directory (use rm -r)") ;; vrst
        else
          (if is_critical_path path
           then NORETURN_KPANIC (cs "[PANIC] Critical system path deleted - VFS integrity lost") path
           else mret tt) ;;
          match mf with
          | Some i => put_used i false ;; vps (cs "rm: removed '") ;; vps path ;; vpln (cs "'")
          | None => fs_mark_deleted path ;; vps (cs "rm: removed '") ;; vps path ;; vpln (cs "'")
          end
    end.

Definition fs_rm (cwd : cstr) (arg : option cstr) : M fs unit :=
  if no_arg arg then vpln (cs "usage: rm [-rf] <file>")
  else
    fits 512 (the_arg arg) ;;
    let '(ts, o) := rm_parse (the_arg arg) in
    match file_arg o with
    | None => vpln (cs "usage: rm [-rf] <file>")
    | Some f =>
        path ← resolve cwd f;
        rm_resolved (nth 0 ts []) path o
    end.

(** ** grep *)

Record grep_opts := GrepOpts { icase : bool; linenum : bool; glist : bool; pat : cstr }.

Definition fold_case (o : grep_opts) (c : Z) : Z := if icase o then to_lower c else c.

(** The pattern at position [i] of the line. *)
Definition matches_at (o : grep_opts) (line : cstr) (i : Z) : bool :=
  forallb (fun j => fold_case o (cget line (i + j)) =? fold_case o (cget (pat o) j)) (seqZ 0 (zlen (pat o))).

Definition grep_matches (o : grep_opts) (line : cstr) : bool :=
  existsb (matches_at o line) (seqZ 0 (zlen line - zlen (pat o) + 1)).

Definition grep_line (o : grep_opts) (line : cstr) (lineno : Z) (fname : cstr) : M fs unit :=
  if negb (grep_matches o line) then mret tt
  else if glist o then vps fname ;; vpc c_nl
  else
    (if bool_decide (fname = []) then mret tt else vps fname ;; vps (cs ":")) ;;
    (if linenum o
     then fits 8 (kia lineno) ;; vset C_LCYAN C_BLACK ;; vps (kia lineno) ;; vps (cs ":") ;; vrst
     else mret tt) ;;
    vset C_LGREEN C_BLACK ;; mapM_ vpc line ;; vpc c_nl ;; vrst.

Fixpoint grep_content (fuel : nat) (o : grep_opts) (content : cstr) (lineno : Z) (fname : cstr) : M fs unit :=
  match fuel, content with
  | S f, _ :: _ =>
      let '(line, rest) := span_until c_nl content in
      grep_line o line (lineno + 1) fname ;;
      grep_content f o (tail rest) (lineno + 1) fname
  | _, _ => mret tt
  end.
Definition grep_text (o : grep_opts) (content fname : cstr) : M fs unit :=
  grep_content (length content) o content 0 fname.

Fixpoint grep_letters (s : cstr) (o : grep_opts) : cstr * grep_opts :=
  match s with
  | c :: s' =>
      if (c =? c_sp) || (c =? c_dash) then (s, o)
      else
        let o := if c =? 105 then GrepOpts true (linenum o) (glist o) (pat o) else o in
        let o := if c =? 108 then GrepOpts (icase o) (linenum o) true (pat o) else o in
        let o := if c =? 110 then GrepOpts (icase o) true (glist o) (pat o) else o in
        grep_letters s' o
  | [] => ([], o)
  end.

Fixpoint grep_flags (fuel : nat) (s : cstr) (o : grep_opts) : cstr * grep_opts :=
  match fuel, s with
  | S f, c :: s' =>
      if c =? c_dash
      then let '(r, o) := grep_letters s' o in grep_flags f (skip_char c_sp r) o
      else (s, o)
  | _, _ => (s, o)
  end.

(** The files of the table and of memory whose name passes [sel], which gives
    the name to print. *)
Definition grep_all (o : grep_opts) (sel : cstr -> option cstr) : M fs unit :=
  mapM_ (fun n =>
    if vn_is_dir n then mret tt
    else d ← fs_is_deleted (vn_path n);
         if (d : bool) then mret tt
         else match sel (vn_path n), vn_content n with
              | Some name, Some c => grep_text o c name
              | _, _ => mret tt
              end) VFS ;;
  s ← get;
  mapM_ (fun m =>
    if negb (mf_used m) || mf_is_dir m then mret tt
    else match sel (mf_path m) with
         | Some name => grep_text o (mf_content m) name
         | None => mret tt
         end) (memfs s).

(** Files below a directory: a slash at [path[dl]] and the same prefix. *)
Definition below (dir p : cstr) : option cstr :=
  let dl := ksl dir in
  if (dl <? ksl p) && (cget p dl =? c_slash) && strneq p dir (length dir)
  then Some (drop (length dir) p) else None.

Definition fs_grep (cwd : cstr) (args : option cstr) : M fs unit :=
  if no_arg args then vpln (cs "usage: grep [-r][-i][-l][-n] <pattern> [file]")
  else
    let p := skip_char c_sp (the_arg args) in
    let '(p, o) := grep_flags (length p) p (GrepOpts false false false []) in
    let '(pt, p) := span_max 255 c_sp p in
    let o := GrepOpts (icase o) (linenum o) (glist o) pt in
    let p := skip_char c_sp p in
    fits 256 p ;;
    if bool_decide (pt = []) then vpln (cs "grep: pattern required")
    else if bool_decide (p = []) then
      s ← get;
      match grep_pipe_input s with
      | Some (d, n) =>
          if 0 <? n then grep_text o d (cs "(pipe)") ;; grep_set_pipe_input None else grep_all o Some
      | None => grep_all o Some
      end
    else
      path ← resolve cwd p;
      vn ← fs_find_vnode path;
      if match vn with Some n => vn_is_dir n | None => false end
      then grep_all o (below path)
      else
        mf ← lookup_mem path;
        match (match mf with
               | Some m => Some (mf_content m)
               | None => match vn with Some n => vn_content n | None => None end
               end) with
        | None => vset C_LRED C_BLACK ;; vps (cs "grep: ") ;; vps p ;; vpln (cs ": No such file") ;; vrst
        | Some c => grep_text o c p
        end.

(** ** find *)

Record find_opts := FindOpts { namepattern : cstr; type_d : bool; type_f : bool }.

Fixpoint find_flags (fuel : nat) (p : cstr) (o : find_opts) : find_opts :=
  match fuel with
  | O => o
  | S f =>
      match skip_char c_sp p with
      | [] => o
      | c :: p' =>
          if c =? c_dash then
            if strneq p' (cs "name") 4
            then let '(n, r) := span_max 63 c_sp (skip_char c_sp (drop 4 p')) in
                 find_flags f r (FindOpts n (type_d o) (type_f o))
            else if strneq p' (cs "type") 4
            then let r := skip_char c_sp (drop 4 p') in
                 if cget r 0 =? 100 then find_flags f (tail r) (FindOpts (namepattern o) true (type_f o))
                 else if cget r 0 =? 102 then find_flags f (tail r) (FindOpts (namepattern o) (type_d o) true)
                 else find_flags f r o
            else find_flags f (skip_until c_sp p') o
          else find_flags f (skip_until c_sp (c :: p')) o
      end
  end.

Definition occurs_at (sl pt : cstr) (j : Z) : bool := strneq (drop (Z.to_nat j) sl) pt (length pt).

Definition name_match (pt sl : cstr) : bool :=
  if (cget pt 0 =? c_star) && (1 <? zlen pt) then
    let suf := drop 1 pt in
    ((zlen suf <=? zlen sl) && occurs_at sl suf (zlen sl - zlen suf)) ||
    existsb (occurs_at sl suf) (seqZ 0 (zlen sl))
  else streq sl pt || existsb (occurs_at sl pt) (seqZ 0 (zlen sl - zlen pt + 1)).

Definition find_vnode_hit (o : find_opts) (base : cstr) (n : VNode) : bool :=
  negb ((1 <? zlen base) && negb (strneq (vn_path n) base (length base))) &&
  negb (type_d o && negb (vn_is_dir n)) && negb (type_f o && vn_is_dir n) &&
  ((zlen (namepattern o) <=? 0) || name_match (namepattern o) (base_name (vn_path n))).

Definition find_mem_hit (o : find_opts) (base : cstr) (m : MemFile) : bool :=
  mf_used m && negb ((1 <? zlen base) && negb (strneq (mf_path m) base (length base))) &&
  negb (type_d o) &&
  ((zlen (namepattern o) <=? 0) || streq (base_name (mf_path m)) (namepattern o)).

(** The table entries that are found, in order. *)
Fixpoint find_vnodes (o : find_opts) (base : cstr) (ns : list VNode) : M fs (list cstr) :=
  match ns with
  | [] => mret []
  | n :: ns' =>
      d ← fs_is_deleted (vn_path n);
      if negb d && find_vnode_hit o base n
      then vpln (vn_path n) ;; r ← find_vnodes o base ns'; mret (vn_path n :: r)
      else find_vnodes o base ns'
  end.

Definition fs_find_cmd (cwd : cstr) (args : option cstr) : M fs unit :=
  let p := skip_char c_sp (the_arg args) in
  let '(start, p) := if negb (bool_decide (p = [])) && negb (cget p 0 =? c_dash)
                     then let '(t, r) := span_max 255 c_sp p in (t, skip_char c_sp r)
                     else ([c_dot], p) in
  let o := find_flags (S (length p)) p (FindOpts [] false false) in
  base ← resolve cwd start;
  hits ← find_vnodes o base VFS;
  s ← get;
  let mhits := filter (fun m => find_mem_hit o base m = true) (memfs s) in
  mapM_ (fun m => vpln (mf_path m)) mhits ;;
  if bool_decide (hits = []) && bool_decide (mhits = []) then vpln (cs "[find: no matches]") else mret tt.

(** ** cd, pwd: [fs_cd] returns the new contents of the caller's [cwd]. *)

Definition is_dir_node (n : option VNode) : bool :=
  match n with Some n => vn_is_dir n | None => false end.

Definition cd_error (cwd arg msg : cstr) : M fs cstr :=
  vset C_LRED C_BLACK ;; vps (cs "cd: ") ;; vps arg ;; vpln msg ;; vrst ;; mret cwd.

Definition fs_cd (cwd : cstr) (arg : option cstr) : M fs cstr :=
  if no_arg arg then mret [c_slash]
  else
    let arg := the_arg arg in
    if streq arg (cs "~") then mret [c_slash]
    else
      path ← resolve cwd arg;
      m ← lookup_mem path;
      if match m with Some m => mf_is_dir m | None => false end then mret path
      else
        let l := ksl path in
        let slashed := (1 <? l) && negb (cget path (l - 1) =? c_slash) in
        m ← (if slashed then fits 256 (path ++ [c_slash]) ;; lookup_mem (path ++ [c_slash]) else mret None);
        if match m with Some m => mf_is_dir m | None => false end then mret (path ++ [c_slash])
        else
          n ← fs_find_vnode path;
          match n with
          | Some n => if vn_is_dir n then mret path else cd_error cwd arg (cs ": Not a directory")
          | None =>
              fits 256 path ;;
              (if slashed then fits 256 (path ++ [c_slash]) else mret tt) ;;
              let try2 := if slashed then path ++ [c_slash] else path in
              n ← fs_find_vnode try2;
              if is_dir_node n then mret try2
              else match n with
              | Some _ => cd_error cwd arg (cs ": Not a directory")
              | None =>
                  if negb (cget arg 0 =? c_slash) then
                    fits 255 arg ;;
                    let ab := strip_slash (c_slash :: arg) in
                    n ← fs_find_vnode ab;
                    if is_dir_node n then mret ab else cd_error cwd arg (cs ": No such file or directory")
                  else cd_error cwd arg (cs ": No such file or directory")
              end
          end.

Definition fs_pwd (cwd : cstr) : M fs unit := vpln cwd.

(** ** Running the look-ups on a well-formed file system *)

Definition visible_vnode (s : fs) (p : cstr) : option VNode :=
  if is_deleted s p then None else vfs_lookup p.

Section Wp.
Context (s : fs) (Hs : fs_ok s).
Implicit Type E : fault -> fs -> Prop.

Lemma wp_eq {A} (m : M fs A) a s' o Q E : m s = Ok a s' o -> Q a s' -> wp m s Q E.
Proof. unfold wp. by intros ->. Qed.

Lemma wp_is_deleted p Q E : Q (is_deleted s p) s -> wp (fs_is_deleted p) s Q E.
Proof. eapply wp_eq. by apply fs_is_deleted_eq. Qed.
Lemma wp_memfs_find p Q E : Q (find_slot s p) s -> wp (memfs_find p) s Q E.
Proof. eapply wp_eq. by apply memfs_find_eq. Qed.
Lemma wp_find_vnode p Q E : Q (visible_vnode s p) s -> wp (fs_find_vnode p) s Q E.
Proof. eapply wp_eq. by apply fs_find_vnode_eq. Qed.

Lemma lookup_mem_eq p : lookup_mem p s = Ok (abs s !! p) s [].
Proof.
  unfold lookup_mem. rewrite (bind_ok _ _ s (find_slot s p) s []) by (by apply memfs_find_eq).
  unfold get, mbind, M_bind, mret, M_ret. simpl. f_equal. rewrite abs_find_slot.
  destruct (find_slot s p) as [i|] eqn:E; simpl; [|done].
  destruct (find_slot_Some s p i E) as (m & Hm & _). rewrite Hm. unfold memfs_at.
  by rewrite nth_lookup, Hm.
Qed.
Lemma wp_lookup_mem p Q E : Q (abs s !! p) s -> wp (lookup_mem p) s Q E.
Proof. eapply wp_eq. apply lookup_mem_eq. Qed.

Lemma wp_resolve cwd a Q E :
  (forall p, fs_resolve cwd (Some a) 256 = Some p -> Q p s) -> E BufferOverflow s -> wp (resolve cwd a) s Q E.
Proof. intros H1 H2. unfold resolve. destruct (fs_resolve _ _ _) eqn:F; wp_run; auto. Qed.

Lemma resolve_eq cwd a p : fs_resolve cwd (Some a) 256 = Some p -> resolve cwd a s = Ok p s [].
Proof. unfold resolve. by intros ->. Qed.

(** Every outcome of a creation keeps the invariant. *)
Lemma wp_create p Q E :
  (forall i s', fs_ok s' -> deleted_n s' = deleted_n s -> deleted_paths s' = deleted_paths s -> Q i s') ->
  E BufferOverflow s -> wp (memfs_create p) s Q E.
Proof.
  intros HQ HE. destruct (decide (zlen p < 128)) as [Hp|Hp].
  - unfold wp. rewrite memfs_create_eq by done.
    destruct (find_slot s p) eqn:F; [by apply HQ|]. case_test; [by apply HQ|].
    apply HQ; [by apply append_ok|done|done].
  - unfold memfs_create. wp_run. eapply wp_eq; [by apply memfs_scan_eq|]. simpl.
    destruct (find_index _ _); simpl; wp_run; try done; by apply HQ.
Qed.

Lemma wp_mark_deleted p Q E :
  (forall s', fs_ok s' -> memfs s' = memfs s -> (forall q, q <> p -> is_deleted s' q = is_deleted s q) -> Q tt s') ->
  (forall f, E f s) -> wp (fs_mark_deleted p) s Q E.
Proof.
  intros HQ HE. destruct (decide (deleted_n s < 64)) as [Hn|Hn].
  - destruct (decide (zlen p < 128)) as [Hp|Hp].
    + destruct (fs_mark_deleted_eq s p Hs Hp Hn) as (s' & Eq & Hs' & Hl & Hm & _).
      eapply wp_eq; [exact Eq|]. apply HQ; [done|done|]. intros q Hq.
      rewrite !is_deleted_spec, Hl. apply bool_decide_ext. rewrite elem_of_app, list_elem_of_singleton. tauto.
    + unfold fs_mark_deleted. do 3 wp_step. rewrite (proj2 (Z.ltb_lt _ _) Hn).
      wp_run; auto; lia.
  - pose proof (ok_del_n s Hs).
    destruct (fs_mark_deleted_full s p Hs ltac:(lia)) as (s' & Eq & Hs' & Hl & Hm).
    eapply wp_eq; [exact Eq|]. apply HQ; [done|done|]. intros q _. by rewrite !is_deleted_spec, Hl.
Qed.

End Wp.

(** ** rm: critical names are never removed *)

(** What [rm] may change: no critical name appears, disappears or changes. *)
Definition rm_safe (s s' : fs) : Prop :=
  fs_ok s' /\ forall p, is_critical_path p = true ->
    is_deleted s' p = is_deleted s p /\ abs s' !! p = abs s !! p.

Lemma rm_safe_refl s : fs_ok s -> rm_safe s s.
Proof. by split. Qed.

Lemma rm_safe_mark s s' p :
  fs_ok s' -> memfs s' = memfs s -> is_critical_path p = false ->
  (forall q, q <> p -> is_deleted s' q = is_deleted s q) -> rm_safe s s'.
Proof.
  intros Hs' Hm Hc Hd. split; [done|]. intros q Hq.
  assert (Hne : q <> p) by (intros ->; congruence). split; [by apply Hd|].
  assert (Hmm : forall m, matches s' q m = matches s q m).
  2:{ rewrite !abs_lookup, Hm. clear Hm. induction (memfs s) as [|m l IH]; simpl; [done|]. by rewrite Hmm, IH. }
  intros m. unfold matches. destruct (streq (mf_path m) q) eqn:E; [|by rewrite !andb_false_r].
  apply streq_true in E as ->. by rewrite Hd.
Qed.

Lemma rm_safe_unused s p i :
  fs_ok s -> find_slot s p = Some i -> is_critical_path p = false ->
  rm_safe s (set_memfs (alter (fun m => MkMem (mf_path m) (mf_content m) false (mf_is_dir m)) i (memfs s)) s).
Proof.
  intros Hs Hf Hc. destruct (find_slot_Some s p i Hf) as (m & Hm & _ & Hp).
  pose proof (ok_slots s Hs) as Hsl. eapply Forall_lookup_1 in Hsl; [|exact Hm].
  split; [by eapply update_ok|]. intros q Hq. split; [done|].
  erewrite (abs_update s p i m) by done. simpl. rewrite lookup_delete_ne; [done|]. intros ->. congruence.
Qed.

Lemma wp_panic r p s Q (E : fault -> fs -> Prop) : E Halted s -> wp (NORETURN_KPANIC r p) s Q E.
Proof. intros. unfold NORETURN_KPANIC. by wp_run. Qed.

Lemma rm_resolved_safe a path o s :
  fs_ok s -> wp (rm_resolved a path o) s (fun _ => rm_safe s) (fun _ => rm_safe s).
Proof.
  intros Hs. pose proof (rm_safe_refl s Hs) as Hr. unfold rm_resolved. wp_run; try done.
  apply wp_find_vnode; [done|]. wp_run. apply wp_memfs_find; [done|].
  wp_run; try done; try (by apply wp_panic).
  all: try (unfold put_used, memfs_update; wp_run; by eapply rm_safe_unused).
  all: apply wp_mark_deleted; [done| |done]; intros; wp_run; by eapply rm_safe_mark.
Qed.

(** C2: [rm] never removes or changes a critical system path: whatever the
    working directory and the argument, and however the command ends (message,
    removal, fault or kernel panic), every critical name has the same status
    in the table and in memory as before, and the file system is well formed. *)
Theorem fs_rm_keeps_critical cwd arg s p :
  fs_ok s -> is_critical_path p = true ->
  let s' := post (fs_rm cwd arg s) in
  fs_ok s' /\ is_deleted s' p = is_deleted s p /\ abs s' !! p = abs s !! p.
Proof.
  intros Hs Hp s'. assert (Hsafe : rm_safe s s').
  { apply (wp_post (fs_rm cwd arg) s (rm_safe s)). pose proof (rm_safe_refl s Hs).
    unfold fs_rm. wp_run; try done. destruct (rm_parse (the_arg arg)) as [ts o]. wp_run; try done.
    apply wp_resolve; [|done]. intros path _. by apply rm_resolved_safe. }
  destruct Hsafe as [? H]. by destruct (H p Hp).
Qed.

Lemma fs_rm_keeps_critical_witness :
  result (fs_rm (cs "/boot") (Some (cs "-rf pig.bin")) fs_sample) = inr Halted /\
  is_deleted (post (fs_rm (cs "/boot") (Some (cs "-rf pig.bin")) fs_sample)) (cs "/boot/pig.bin") = false.
Proof.
  split; [reflexivity|].
  destruct (fs_rm_keeps_critical (cs "/boot") (Some (cs "-rf pig.bin")) fs_sample (cs "/boot/pig.bin"))
    as (_ & -> & _).
  - apply fs_sample_ok.
  - reflexivity.
  - reflexivity.
Defined.

(** ** rm: what it does on every branch *)

Inductive rm_outcome :=
  | RmRefused      (* root without the override *)
  | RmMissing      (* nothing of that name *)
  | RmIsDir        (* a directory without -r *)
  | RmPanic        (* a critical path *)
  | RmMemory       (* an in-memory file is released *)
  | RmTable.       (* a table entry is marked deleted *)

Definition is_root_request (a path : cstr) : bool := streq path [c_slash] || streq a [c_slash].

Definition rm_decide (s : fs) (a path : cstr) (o : rm_opts) : rm_outcome :=
  let v := visible_vnode s path in let m := abs s !! path in
  if is_root_request a path && negb (no_preserve_root o) then RmRefused
  else if negb (bool_decide (is_Some v)) && negb (bool_decide (is_Some m)) then RmMissing
  else if (is_dir_node v || match m with Some m => mf_is_dir m | None => false end) && negb (recursive o)
  then RmIsDir
  else if is_critical_path path then RmPanic
  else if bool_decide (is_Some m) then RmMemory else RmTable.

Lemma root_test path : no_nul path -> (cget path 0 =? c_slash) && (cget path 1 =? 0) = streq path [c_slash].
Proof.
  intros Hn. destruct path as [|x [|y path]]; unfold cget; simpl.
  - done.
  - rewrite andb_true_r. destruct (Z.eqb_spec x c_slash) as [->|]; [done|].
    symmetry. apply streq_false. congruence.
  - apply no_nul_cons in Hn as [_ [Hy _]%no_nul_cons]. rewrite (proj2 (Z.eqb_neq y 0)) by done.
    rewrite andb_false_r. symmetry. by apply streq_false.
Qed.

Lemma panic_eq r p s : exists out, NORETURN_KPANIC r p s = Err Halted s out.
Proof. eexists. reflexivity. Qed.

(** [rm] on a resolved name does exactly what the file system's state calls
    for: it refuses the root without the override, reports a missing name and a
    directory without [-r], panics on a critical path (the machine halts, the
    state is untouched), releases an in-memory file, or hides a table entry. *)
Theorem rm_resolved_correct a path o s :
  fs_ok s -> no_nul path -> zlen path < 128 -> deleted_n s < 64 ->
  let r := rm_resolved a path o s in
  match rm_decide s a path o with
  | RmRefused | RmMissing | RmIsDir => result r = inl tt /\ post r = s
  | RmPanic => result r = inr Halted /\ post r = s
  | RmMemory => result r = inl tt /\ fs_ok (post r) /\ abs (post r) = delete path (abs s) /\
                deleted_list (post r) = deleted_list s
  | RmTable => result r = inl tt /\ fs_ok (post r) /\ abs (post r) !! path = None /\
               visible_vnode (post r) path = None /\ deleted_list (post r) = deleted_list s ++ [path]
  end.
Proof.
  intros Hs Hn Hp Hd r. subst r. unfold rm_decide, rm_resolved, is_root_request.
  rewrite root_test by done. destruct (_ && negb (no_preserve_root o)); [done|].
  rewrite (bind_ok _ _ s (visible_vnode s path) s []) by (by apply fs_find_vnode_eq).
  rewrite (bind_ok _ _ s (find_slot s path) s []) by (by apply memfs_find_eq).
  rewrite (bind_ok get _ s s s []) by done.
  rewrite abs_find_slot.
  assert (Hat : forall i, find_slot s path = Some i -> memfs s !! i = Some (memfs_at s i)).
  { intros i (m & Hm & _)%find_slot_Some. unfold memfs_at. by rewrite nth_lookup, Hm. }
  assert (Hmem : forall i, find_slot s path = Some i ->
    let u := set_memfs (alter (fun m => MkMem (mf_path m) (mf_content m) false (mf_is_dir m)) i (memfs s)) s in
    fs_ok u /\ abs u = delete path (abs s)).
  { intros i Hi u. pose proof (ok_slots s Hs) as Hsl.
    eapply Forall_lookup_1 in Hsl; [|exact (Hat i Hi)]. split.
    - eapply update_ok; [done|exact (Hat i Hi)|done|done|done].
    - unfold u. by erewrite (abs_update s path i (memfs_at s i)) by eauto. }
  destruct (fs_mark_deleted_eq s path Hs Hp Hd) as (s' & Em & Hs' & Hl & _).
  assert (Hdel : is_deleted s' path = true).
  { rewrite is_deleted_spec, Hl. apply bool_decide_eq_true, elem_of_app. right. by apply list_elem_of_singleton. }
  assert (Hgone : abs s' !! path = None /\ visible_vnode s' path = None).
  { unfold visible_vnode. rewrite Hdel. split; [|done].
    rewrite abs_find_slot, (proj2 (find_slot_None s' path)); [done|].
    intros i m _ [_ Hx%negb_true_iff]%andb_true_iff <-. congruence. }
  destruct (find_slot s path) as [i|] eqn:Ei.
  - rewrite (Hat i) by done. destruct (Hmem i eq_refl) as [Hok Ha]. rewrite andb_false_r.
    destruct (visible_vnode s path) as [n|]; simpl is_dir_node;
      (destruct (_ && negb (recursive o)); [done|]);
      (destruct (is_critical_path path);
        [by destruct (panic_eq (cs "[PANIC] Critical system path deleted - VFS integrity lost") path s)|done]).
  - destruct (visible_vnode s path) as [n|]; [|done]. simpl.
    destruct (_ && negb (recursive o)); [done|]. destruct (is_critical_path path); [done|].
    unfold mbind, M_bind, mret, M_ret. rewrite Em. simpl. tauto.
Qed.

Lemma rm_resolved_correct_witness :
  post (rm_resolved (cs "b") (cs "/tmp/b") (RmOpts false false None) fs_sample) = fs_sample /\
  abs (post (rm_resolved (cs "a") (cs "/tmp/a") (RmOpts false false None) fs_sample)) =
    delete (cs "/tmp/a") (abs fs_sample).
Proof.
  split.
  - refine (proj2 (rm_resolved_correct (cs "b") (cs "/tmp/b") (RmOpts false false None) fs_sample _ _ _ _)).
    + apply fs_sample_ok.
    + repeat constructor; discriminate.
    + reflexivity.
    + reflexivity.
  - refine (proj1 (proj2 (proj2
      (rm_resolved_correct (cs "a") (cs "/tmp/a") (RmOpts false false None) fs_sample _ _ _ _)))).
    + apply fs_sample_ok.
    + repeat constructor; discriminate.
    + reflexivity.
    + reflexivity.
Defined.

(** ** cd *)

(** A directory one can see: in memory or in the table. *)
Definition visible_dir (s : fs) (p : cstr) : Prop :=
  (exists m, abs s !! p = Some m /\ mf_is_dir m = true) \/
  (exists n, visible_vnode s p = Some n /\ vn_is_dir n = true).

Lemma visible_dir_mem s p :
  match abs s !! p with Some m => mf_is_dir m | None => false end = true -> visible_dir s p.
Proof. destruct (abs s !! p) eqn:E; [|done]. left. eauto. Qed.
Lemma visible_dir_node s p : is_dir_node (visible_vnode s p) = true -> visible_dir s p.
Proof. destruct (visible_vnode s p) eqn:E; [|done]. right. eauto. Qed.

Definition cd_post (s : fs) (cwd c : cstr) (s' : fs) : Prop :=
  s' = s /\ (c = cwd \/ c = [c_slash] \/ visible_dir s c) /\ zlen c < 256.

Lemma cd_error_wp cwd arg msg s :
  zlen cwd < 256 -> wp (cd_error cwd arg msg) s (cd_post s cwd) (fun _ s' => s' = s).
Proof. intros. unfold cd_error. wp_run. split_and!; [done|by left|done]. Qed.

Lemma strip_slash_len p : zlen (strip_slash p) <= zlen p.
Proof. unfold strip_slash, zlen. case_test; [rewrite length_take; lia|lia]. Qed.

Lemma fs_cd_wp cwd arg s :
  fs_ok s -> zlen cwd < 256 -> wp (fs_cd cwd arg) s (cd_post s cwd) (fun _ s' => s' = s).
Proof.
  intros Hs Hc. unfold fs_cd.
  assert (Hroot : cd_post s cwd [c_slash] s) by (split_and!; [done|by right; left|done]).
  destruct (no_arg arg); [by wp_run|]. cbv zeta. generalize (the_arg arg). clear arg. intros arg.
  destruct (streq arg (cs "~")); [by wp_run|].
  wp_step. apply wp_resolve; [|done]. intros path Hp.
  assert (Hlen : zlen path < 256) by (by apply (fs_resolve_fits cwd (Some arg))).
  wp_step. apply wp_lookup_mem; [done|].
  destruct (match abs s !! path with Some m => mf_is_dir m | None => false end) eqn:E1.
  { wp_run. split_and!; [done| |done]. right; right. by apply visible_dir_mem. }
  clear E1. set (slashed := (1 <? ksl path) && negb (cget path (ksl path - 1) =? c_slash)).
  wp_step.
  assert (Hm : wp (if slashed then fits 256 (path ++ [c_slash]) ;; lookup_mem (path ++ [c_slash]) else mret None) s
    (fun m s' => s' = s /\ (forall x, m = Some x -> abs s !! (path ++ [c_slash]) = Some x /\ zlen (path ++ [c_slash]) < 256))
    (fun _ s' => s' = s)).
  { destruct slashed; wp_run; try done. apply wp_lookup_mem; [done|]. by split. }
  eapply wp_mono; [exact Hm| |done]. intros m ? [-> Hx]. clear Hm.
  destruct (match m with Some m => mf_is_dir m | None => false end) eqn:E1.
  { destruct m as [m|]; [|done]. destruct (Hx m eq_refl) as [? ?].
    wp_run. split_and!; [done| |done]. right; right. left. eauto. }
  clear E1 Hx. wp_step. apply wp_find_vnode; [done|].
  destruct (visible_vnode s path) as [n|] eqn:En.
  { wp_step; [|by apply cd_error_wp]. wp_run. split_and!; [done| |done]. right; right. right. eauto. }
  wp_step. wp_step; [|done]. wp_step.
  assert (Hm : wp (if slashed then fits 256 (path ++ [c_slash]) else mret tt) s
    (fun _ s' => s' = s /\ zlen (if slashed then path ++ [c_slash] else path) < 256) (fun _ s' => s' = s)).
  { destruct slashed; wp_run; done. }
  eapply wp_mono; [exact Hm| |done]. intros _ ? [-> Hz]. clear Hm. revert Hz.
  generalize (if slashed then path ++ [c_slash] else path). intros try2 Hz.
  wp_step. apply wp_find_vnode; [done|]. wp_step.
  { wp_run. split_and!; [done| |done]. right; right. by apply visible_dir_node. }
  destruct (visible_vnode s try2); [by apply cd_error_wp|].
  wp_step; [|by apply cd_error_wp]. wp_step. wp_step; [|done]. wp_step. apply wp_find_vnode; [done|].
  wp_step; [|by apply cd_error_wp]. wp_run. split_and!; [done| |].
  - right; right. by apply visible_dir_node.
  - pose proof (strip_slash_len (c_slash :: arg)). rewrite zlen_cons in *. lia.
Qed.

(** [cd] only ever moves to a directory that exists: it never changes the
    file system, the new working directory is the old one, the root, or the name
    of a directory visible in memory or in the table, and it fits the shell's
    256-byte buffer. *)
Theorem fs_cd_correct cwd arg s :
  fs_ok s -> zlen cwd < 256 ->
  match fs_cd cwd arg s with
  | Ok c s' _ => s' = s /\ (c = cwd \/ c = [c_slash] \/ visible_dir s c) /\ zlen c < 256
  | Err _ s' _ => s' = s
  end.
Proof. apply fs_cd_wp. Qed.

Lemma fs_cd_correct_witness :
  result (fs_cd (cs "/") (Some (cs "home/pig")) fs_sample) = inl (cs "/home/pig/") /\
  match fs_cd (cs "/") (Some (cs "home/pig")) fs_sample with
  | Ok c s' _ => s' = fs_sample /\ (c = cs "/" \/ c = [c_slash] \/ visible_dir fs_sample c) /\ zlen c < 256
  | Err _ s' _ => s' = fs_sample
  end.
Proof.
  split; [reflexivity|]. apply fs_cd_correct; [apply fs_sample_ok|reflexivity].
Defined.

(** ** touch and cat *)

Lemma is_deleted_of_vnode s p : is_deleted s p = false -> visible_vnode s p = vfs_lookup p.
Proof. unfold visible_vnode. by intros ->. Qed.

(** C5: [touch], then writing, then [cat].  For an argument that is not empty and
    does not start with a dash (an option to [cat]) and resolves to a name of
    fewer than 128 characters that is neither a visible file nor in the built-in
    table nor marked deleted, while a slot of the table is free: [touch] reports
    the resolved name and adds to the visible files exactly one file under it,
    empty, a directory when the name ends in a slash; afterwards, storing any
    nonempty content of fewer than 2048 bytes in that file and running [cat] on
    the same argument prints exactly that content and a newline. *)
Theorem touch_write_cat nd cwd arg path s c :
  fs_ok s -> arg <> [] -> cget arg 0 <> c_dash -> fs_resolve cwd (Some arg) 256 = Some path ->
  zlen path < 128 -> abs s !! path = None -> vfs_lookup path = None -> is_deleted s path = false ->
  memfs_n s < 64 -> c <> [] -> zlen c < 2048 ->
  exists s1 i s2,
    fs_touch cwd (Some arg) s = Ok tt s1 [EPs (cs "touch: created '"); EPs path; EPln (cs "'")] /\
    fs_ok s1 /\ find_slot s1 path = Some i /\
    abs s1 = <[path := MkMem path [] true ((1 <? ksl path) && (cget path (ksl path - 1) =? c_slash))]> (abs s) /\
    put_content i c s1 = Ok tt s2 [] /\ fs_ok s2 /\
    fs_cat nd cwd (Some arg) s2 = Ok tt s2 [EPs c; EPc c_nl].
Proof.
  intros Hs Hne Hdash Hr Hp Habs Hv Hd Hn Hc Hcl.
  assert (Hf : find_slot s path = None).
  { rewrite abs_find_slot in Habs. destruct (find_slot s path) as [i|] eqn:E; [|done].
    destruct (find_slot_Some s path i E) as (m & Hm & _). congruence. }
  set (new := MkMem path [] true ((1 <? ksl path) && (cget path (ksl path - 1) =? c_slash))).
  set (s1 := set_memfs (memfs s ++ [new]) s).
  assert (Hs1 : fs_ok s1) by (by apply append_ok).
  assert (Ha1 : abs s1 = <[path := new]> (abs s)) by (by apply abs_append).
  assert (Hf1 : exists i, find_slot s1 path = Some i /\ memfs s1 !! i = Some new).
  { assert (Hx : abs s1 !! path = Some new) by (by rewrite Ha1, lookup_insert_eq).
    rewrite abs_find_slot in Hx. destruct (find_slot s1 path) as [i|]; eauto. done. }
  destruct Hf1 as (i & Hf1 & Hi).
  set (g := fun m => MkMem (mf_path m) c (mf_used m) (mf_is_dir m)).
  exists s1, i, (set_memfs (alter g i (memfs s1)) s1).
  assert (Hs2 : fs_ok (set_memfs (alter g i (memfs s1)) s1)) by (eapply update_ok; [done|exact Hi|done|done|done]).
  assert (Ha2 : abs (set_memfs (alter g i (memfs s1)) s1) !! path = Some (g new)).
  { rewrite (abs_update s1 path i new) by done. simpl. by rewrite lookup_insert_eq. }
  split_and!; try done.
  - unfold fs_touch. change (the_arg (Some arg)) with arg. replace (no_arg (Some arg)) with false by (by destruct arg).
    rewrite (bind_ok _ _ s path s []) by (by apply resolve_eq).
    rewrite (bind_ok _ _ s None s []) by (rewrite memfs_find_eq by done; by rewrite Hf).
    rewrite (bind_ok _ _ s None s []) by (rewrite fs_find_vnode_eq by done; by rewrite Hd, Hv).
    rewrite (bind_ok _ _ s (Some (length (memfs s))) s1 []); [done|].
    rewrite memfs_create_eq by done. rewrite Hf.
    by rewrite (proj2 (Z.leb_gt 64 (memfs_n s))) by lia.
  - unfold put_content, fits. by rewrite (proj2 (Z.ltb_lt (zlen c) 2048)) by lia.
  - unfold fs_cat. change (the_arg (Some arg)) with arg. replace (no_arg (Some arg)) with false by (by destruct arg).
    rewrite (proj2 (Z.eqb_neq _ _) Hdash), bool_decide_false by done.
    set (s2 := set_memfs (alter g i (memfs s1)) s1) in *.
    rewrite (bind_ok _ _ s2 path s2 []) by (by apply resolve_eq).
    rewrite (bind_ok _ _ s2 (Some (g new)) s2 []) by (rewrite lookup_mem_eq by done; by rewrite Ha2).
    simpl. by rewrite bool_decide_false.
Qed.

Lemma touch_write_cat_witness :
  exists s1 i s2,
    fs_touch (cs "/tmp") (Some (cs "oink")) fs_sample =
      Ok tt s1 [EPs (cs "touch: created '"); EPs (cs "/tmp/oink"); EPln (cs "'")] /\
    put_content i (cs "pig") s1 = Ok tt s2 [] /\
    fs_cat [] (cs "/tmp") (Some (cs "oink")) s2 = Ok tt s2 [EPs (cs "pig"); EPc c_nl].
Proof.
  destruct (touch_write_cat [] (cs "/tmp") (cs "oink") (cs "/tmp/oink") fs_sample (cs "pig"))
    as (s1 & i & s2 & H1 & _ & _ & _ & H2 & _ & H3); try (vm_compute; (reflexivity || discriminate)).
  - apply fs_sample_ok.
  - exists s1, i, s2. split; [exact H1|]. split; [exact H2|exact H3].
Defined.
