(* ===== verification/PigFsSpec.v ===== *)
(** * pigfs: what the commands select

    [rm]'s critical paths, [ls]'s children and [grep]'s matches are computed on
    characters; here they are characterized on path components and substrings. *)

From Stdlib Require Import ZArith Lia.
From stdpp Require Import base numbers list strings.
From S2P Require Import Prelude CLib Console PigPath PigFs PigFsCmd.

(** ** Components of a rendered path *)

Lemma comp_unique c d r r' :
  Forall (fun x => x <> c_slash /\ x <> 0) c -> Forall (fun x => x <> c_slash /\ x <> 0) d ->
  at_end r -> at_end r' -> c ++ r = d ++ r' -> c = d /\ r = r'.
Proof.
  intros Hc. revert d. induction Hc as [|x c [Hx _] _ IH]; intros d Hd Hr Hr' He.
  - destruct d as [|y d]; [done|]. apply Forall_cons_iff in Hd as [[Hy _] _]. simpl in He.
    destruct Hr as [->|[? ->]]; [done|]. simplify_eq.
  - destruct d as [|y d].
    + simpl in He. destruct Hr' as [->|[? ->]]; [done|]. simplify_eq.
    + apply Forall_cons_iff in Hd as [_ Hd]. simpl in He. injection He as -> He.
      destruct (IH d Hd Hr Hr' He) as [-> ->]. done.
Qed.

Lemma at_end_tail st : at_end (render_tail st).
Proof. destruct st; simpl; [by left|right; eauto]. Qed.

(** A rendered stack that starts with another one, at a component boundary,
    extends it. *)
Lemma render_tail_prefix c st r :
  Forall comp_ok c -> Forall comp_ok st -> at_end r ->
  render_tail st = render_tail c ++ r -> exists t, st = c ++ t /\ r = render_tail t.
Proof.
  intros Hc. revert st. induction Hc as [|c1 c [Hn1 Hc1] Hc IH]; intros st Hst Hr He; simpl in *.
  { exists st. by subst. }
  destruct st as [|d st]; [done|]. apply Forall_cons_iff in Hst as [[Hnd Hd] Hst]. simpl in He.
  injection He as He. rewrite <- app_assoc in He.
  assert (Hend : at_end (render_tail c ++ r)).
  { destruct c as [|c2 c]; [done|]. right. simpl. eauto. }
  destruct (comp_unique d c1 _ _ Hd Hc1 (at_end_tail st) Hend He) as [-> He'].
  destruct (IH st Hst Hr He') as (t & -> & ->). by exists t.
Qed.

Lemma cget_app_at c r : cget (c ++ r) (zlen c) = nth 0 r 0.
Proof.
  unfold cget. rewrite (proj2 (Z.ltb_ge _ _) (zlen_nonneg c)). unfold zlen.
  by rewrite Nat2Z.id, app_nth2, Nat.sub_diag by lia.
Qed.

(** The character test used by [is_critical_path] and [ls]: the prefix, then a
    slash or the end. *)
Lemma boundary_test p c :
  no_nul p ->
  strneq p c (length c) && ((cget p (zlen c) =? 0) || (cget p (zlen c) =? c_slash)) = true <->
  exists r, p = c ++ r /\ at_end r.
Proof.
  intros Hn. rewrite andb_true_iff, strneq_prefix, orb_true_iff, !Z.eqb_eq. split.
  - intros [[r ->] H]. exists r. split; [done|].
    apply no_nul_app in Hn as [_ Hn]. rewrite cget_app_at in H.
    destruct r as [|x r]; [by left|]. apply no_nul_cons in Hn as [Hx _]. simpl in H.
    destruct H as [->| ->]; [done|right; eauto].
  - intros (r & -> & Hr). split; [by exists r|]. rewrite cget_app_at.
    destruct Hr as [->|[r' ->]]; simpl; tauto.
Qed.

(** ** Critical paths *)

(** The components of the entries of [CRITICAL_PATHS] other than the root. *)
Definition critical_stacks : list (list cstr) :=
  [[cs "etc"]; [cs "dev"]; [cs "proc"]; [cs "root"]; [cs "boot"]; [cs "kernel"]; [cs "drivers"];
   [cs "shell"]; [cs "crypto"]; [cs "boot"; cs "pig.bin"]; [cs "boot"; cs "boot.asm"];
   [cs "boot"; cs "grub.cfg"]; [cs "kernel"; cs "kernel.c"]; [cs "kernel"; cs "pigfs.h"];
   [cs "kernel"; cs "mem.h"]].

Lemma critical_table : CRITICAL_PATHS = cs "/" :: map render critical_stacks.
Proof. reflexivity. Qed.

Lemma critical_stacks_ok : Forall (fun c => c <> [] /\ Forall comp_ok c) critical_stacks.
Proof. repeat constructor; discriminate. Qed.

Definition critical_entry (path c : cstr) : bool :=
  if (ksl c =? 1) && (cget c 0 =? c_slash) then false
  else strneq path c (length c) && ((cget path (ksl c) =? 0) || (cget path (ksl c) =? c_slash)).

Lemma critical_entry_render st c :
  Forall comp_ok st -> Forall comp_ok c -> c <> [] -> st <> [] ->
  critical_entry (render st) (render c) = true <-> c `prefix_of` st.
Proof.
  intros Hst Hc Hne Hne'. unfold critical_entry, ksl.
  assert (Hlen : 1 < zlen (render c)).
  { destruct c as [|c1 c]; [done|]. apply Forall_cons_iff in Hc as [[Hn1 _] _].
    destruct c1 as [|x c1]; [done|]. unfold zlen. simpl. lia. }
  replace (zlen (render c) =? 1) with false by lia. simpl.
  rewrite boundary_test by (by apply render_no_nul). rewrite !render_cons by done. split.
  - intros (r & He & Hr). destruct (render_tail_prefix c st r Hc Hst Hr He) as (t & -> & _). by exists t.
  - intros [t ->]. exists (render_tail t). rewrite render_tail_app. split; [done|apply at_end_tail].
Qed.

(** On canonical paths, [is_critical_path] is true exactly for the root and
    for everything at or below one of the protected directories and files; a
    path that merely shares leading characters with one is not critical. *)
Theorem is_critical_path_correct st :
  Forall comp_ok st ->
  is_critical_path (render st) = true <-> st = [] \/ Exists (fun c => c `prefix_of` st) critical_stacks.
Proof.
  intros Hst. destruct (decide (st = [])) as [->|Hne]; [by split; [left|]|].
  destruct (render_head st Hst) as [r Hr].
  assert (Hroot : streq (render st) [c_slash] = false).
  { apply streq_false. destruct st as [|[|x c] st]; [done| |].
    - apply Forall_cons_iff in Hst as [[? _] _]. done.
    - simpl. congruence. }
  unfold is_critical_path. rewrite root_test, Hroot by (by apply render_no_nul).
  replace (cget (render st) 0) with c_slash by (by rewrite Hr). simpl negb. cbv iota.
  rewrite critical_table. change (existsb _ (cs "/" :: ?l)) with (existsb (critical_entry (render st)) l).
  transitivity (Exists (fun c => c `prefix_of` st) critical_stacks); [|naive_solver].
  pose proof critical_stacks_ok as Hok. induction Hok as [|c l [Hc Hcc] _ IH]; simpl.
  - by rewrite Exists_nil.
  - rewrite orb_true_iff, Exists_cons. change (existsb _ (map render l)) with (existsb (critical_entry (render st)) (map render l)) in *.
    rewrite IH. by rewrite critical_entry_render.
Qed.

Lemma is_critical_path_correct_witness :
  is_critical_path (cs "/etc/passwd") = true /\ is_critical_path (cs "/etcetera") = false.
Proof.
  split.
  - apply (proj2 (is_critical_path_correct [cs "etc"; cs "passwd"] ltac:(repeat constructor; discriminate))).
    right. apply Exists_cons_hd. by exists [cs "passwd"].
  - reflexivity.
Defined.

(** ** ls: direct children *)

Lemma has_slash_tail c t :
  comp_ok c -> has_slash (c ++ render_tail t) = negb (bool_decide (t = [])).
Proof.
  intros [_ Hc]. unfold has_slash. rewrite existsb_app.
  replace (existsb (fun c0 => c0 =? c_slash) c) with false.
  2:{ symmetry. induction Hc as [|x c [Hx _] _ IH]; simpl; [done|]. by rewrite IH, (proj2 (Z.eqb_neq _ _) Hx). }
  by destruct t.
Qed.

(** The part of a rendered path after its first slash. *)
Lemma child_rest t :
  Forall comp_ok t -> t <> [] ->
  negb (bool_decide (drop 1 (render_tail t) = [])) && negb (has_slash (drop 1 (render_tail t))) = true <->
  exists c, t = [c].
Proof.
  intros Ht Hne. destruct t as [|c t]; [done|]. apply Forall_cons_iff in Ht as [Hc Ht]. simpl.
  rewrite drop_0, has_slash_tail by done. pose proof Hc as [Hn _].
  rewrite bool_decide_false by (by destruct c). simpl. rewrite negb_true_iff, negb_false_iff, bool_decide_eq_true.
  split; [intros ->; eauto|]. intros [c' [= _ ->]]. done.
Qed.

Lemma render_tail_length st : Forall comp_ok st -> (2 * length st <= length (render_tail st))%nat.
Proof.
  induction 1 as [|c st [Hn _] _ IH]; simpl; [lia|]. rewrite length_app.
  destruct c; [done|]. simpl. lia.
Qed.

(** [ls] lists from the table exactly the direct children of the directory:
    an entry is shown for a directory if and only if it is the directory's path
    with one more component. *)
Theorem ls_child_correct st st' :
  Forall comp_ok st -> Forall comp_ok st' -> st' <> [] ->
  ls_child (render st) (render st') = true <-> exists c, st' = st ++ [c].
Proof.
  intros Hst Hst' Hne. rewrite (render_cons st') by done. unfold ls_child, ksl.
  pose proof (render_tail_length st' Hst') as Hl'. assert (1 <= length st')%nat by (destruct st'; [done|simpl; lia]).
  destruct (decide (st = [])) as [->|Hne0].
  { change (render []) with [c_slash].
    rewrite (proj2 (Z.leb_gt (zlen (render_tail st')) (zlen [c_slash]))) by (unfold zlen; simpl; lia).
    destruct st' as [|c st']; [done|].
    transitivity (exists c0, c :: st' = [c0]); [|done].
    rewrite <- (child_rest (c :: st')) by done. done. }
  rewrite (render_cons st) by done.
  assert (Hone : zlen (render_tail st) <> 1).
  { pose proof (render_tail_length st Hst). destruct st; [done|]. unfold zlen. simpl length in *. lia. }
  rewrite (proj2 (Z.eqb_neq _ _) Hone), andb_false_l.
  split.
  - case_test; [done|]. rewrite <- andb_assoc, <- andb_assoc.
    intros [Hpre [Hsl Hrest]%andb_true_iff]%andb_true_iff.
    apply strneq_prefix in Hpre as [r Hr]. apply Z.eqb_eq in Hsl. rewrite Hr, cget_app_at in Hsl.
    destruct r as [|x r]; [done|]. simpl in Hsl. subst x.
    destruct (render_tail_prefix st st' (c_slash :: r)) as (t & -> & Ht); [done|done|right; eauto|done|].
    apply Forall_app in Hst' as [_ Htk]. rewrite Ht in Hr.
    rewrite Hr, <- drop_drop, drop_app_length in Hrest.
    destruct (decide (t = [])) as [->|Htn]; [done|].
    apply child_rest in Hrest as [c ->]; [|done|done]. eauto.
  - intros [c ->]. apply Forall_app in Hst' as [_ Hc]. rewrite render_tail_app.
    assert (1 <= length (render_tail [c]))%nat by (simpl; lia).
    rewrite (proj2 (Z.leb_gt _ _)) by (unfold zlen; rewrite length_app; lia).
    rewrite <- drop_drop, drop_app_length, cget_app_at, <- !andb_assoc.
    rewrite (proj2 (strneq_prefix _ _)) by (by exists (render_tail [c])).
    rewrite (proj2 (child_rest [c] Hc ltac:(done))) by eauto. done.
Qed.

Lemma ls_child_correct_witness :
  ls_child (cs "/drivers") (cs "/drivers/net") = true /\ ls_child (cs "/") (cs "/drivers/net") = false.
Proof.
  split.
  - apply (proj2 (ls_child_correct [cs "drivers"] [cs "drivers"; cs "net"]
      ltac:(repeat constructor; discriminate) ltac:(repeat constructor; discriminate) ltac:(discriminate))).
    by exists (cs "net").
  - reflexivity.
Defined.

(** ** grep: substrings *)

Lemma forallb_seqZ (f : Z -> bool) n :
  forallb f (seqZ 0 n) = true <-> forall j, 0 <= j < n -> f j = true.
Proof.
  rewrite forallb_forall. split.
  - intros H j Hj. apply H, list_elem_of_In, elem_of_seqZ. lia.
  - intros H j Hj%list_elem_of_In%elem_of_seqZ. apply H. lia.
Qed.

Lemma cget_lookup s i : 0 <= i -> cget s i = default 0 (s !! Z.to_nat i).
Proof. intros. unfold cget. rewrite (proj2 (Z.ltb_ge i 0)) by lia. by rewrite nth_lookup. Qed.

Lemma matches_at_spec o line i :
  0 <= i -> i + zlen (pat o) <= zlen line ->
  matches_at o line i = true <->
  map (fold_case o) (take (length (pat o)) (drop (Z.to_nat i) line)) = map (fold_case o) (pat o).
Proof.
  intros Hi Hl. unfold matches_at. rewrite forallb_seqZ. unfold zlen in *.
  set (sub := take (length (pat o)) (drop (Z.to_nat i) line)).
  assert (Hsub : length sub = length (pat o)) by (unfold sub; rewrite length_take, length_drop; lia).
  assert (Hg : forall j, 0 <= j < Z.of_nat (length (pat o)) -> cget line (i + j) = default 0 (sub !! Z.to_nat j)).
  { intros j Hj. rewrite cget_lookup by lia. unfold sub. rewrite lookup_take_lt, lookup_drop by lia.
    do 2 f_equal. lia. }
  split.
  - intros H. apply list_eq. intros k. rewrite !list_lookup_fmap.
    destruct (decide (k < length (pat o))%nat) as [Hk|Hk].
    2:{ rewrite !lookup_ge_None_2 by lia. done. }
    destruct (lookup_lt_is_Some_2 sub k) as [x Hx]; [lia|].
    destruct (lookup_lt_is_Some_2 (pat o) k) as [y Hy]; [lia|].
    specialize (H (Z.of_nat k) ltac:(lia)). rewrite Hg, cget_lookup, !Nat2Z.id, Hx, Hy in H by lia.
    rewrite Hx, Hy. simpl in *. f_equal. lia.
  - intros H j Hj. rewrite Hg, cget_lookup by lia. apply Z.eqb_eq.
    apply (f_equal (.!! Z.to_nat j)) in H. rewrite !list_lookup_fmap in H.
    destruct (lookup_lt_is_Some_2 sub (Z.to_nat j)) as [x Hx]; [lia|].
    destruct (lookup_lt_is_Some_2 (pat o) (Z.to_nat j)) as [y Hy]; [lia|].
    rewrite Hx, Hy in *. simpl in *. congruence.
Qed.

(** [grep] reports a line exactly when the pattern occurs in it as a
    contiguous substring, up to ASCII letter case when [-i] was given. *)
Theorem grep_matches_correct o line :
  grep_matches o line = true <->
  exists a b c, line = a ++ b ++ c /\ map (fold_case o) b = map (fold_case o) (pat o).
Proof.
  unfold grep_matches. rewrite existsb_exists. split.
  - intros (i & Hi%list_elem_of_In%elem_of_seqZ & Hm). apply matches_at_spec in Hm; [|lia|lia].
    exists (take (Z.to_nat i) line), (take (length (pat o)) (drop (Z.to_nat i) line)),
      (drop (length (pat o)) (drop (Z.to_nat i) line)).
    by rewrite !take_drop.
  - intros (a & b & c & -> & Hb). exists (zlen a).
    assert (Hlen : length b = length (pat o)) by (rewrite <- (length_map (fold_case o) b), Hb; apply length_map).
    assert (Hz : zlen b = zlen (pat o)) by (unfold zlen; lia).
    pose proof (zlen_nonneg a). pose proof (zlen_nonneg c).
    rewrite <- list_elem_of_In, elem_of_seqZ, !zlen_app. split; [lia|].
    apply matches_at_spec; [lia|rewrite !zlen_app; lia|].
    unfold zlen. by rewrite Nat2Z.id, drop_app_length, <- Hlen, take_app_length.
Qed.

(** Listing the root with a directory argument finds nothing: the test looks
    for a slash after the directory's name, and the root's name is that slash. *)
Lemma grep_below_root_is_empty : forallb (fun n => bool_decide (below (cs "/") (vn_path n) = None)) VFS = true.
Proof. vm_compute. reflexivity. Qed.
