(* ===== verification/Ps2.v ===== *)
(** * PS/2 keyboard and mouse ([drivers/ps2/ps2.h])

    Scan codes are translated to key codes and queued in a 256-entry ring;
    mouse packets move a clamped position.  The bytes the controller delivers
    are the input of the polling functions, as (status, data) pairs. *)

From Stdlib Require Import ZArith Lia.
From stdpp Require Import base numbers list list_numbers.
From S2P Require Import Prelude CLib Console Vga.

Notation KEY_UP := (-1) (only parsing).
Notation KEY_DOWN := (-2) (only parsing).
Notation KEY_LEFT := (-3) (only parsing).
Notation KEY_RIGHT := (-4) (only parsing).
Notation KEY_F1 := (-5) (only parsing).
Notation KEY_F2 := (-6) (only parsing).
Notation KEY_F3 := (-7) (only parsing).
Notation KEY_F4 := (-8) (only parsing).
Notation KEY_F5 := (-9) (only parsing).
Notation KEY_F6 := (-10) (only parsing).
Notation KEY_F7 := (-11) (only parsing).
Notation KEY_F8 := (-12) (only parsing).
Notation KEY_F10 := (-13) (only parsing).
Notation KEY_DEL := (-14) (only parsing).
Notation KEY_HOME := (-15) (only parsing).
Notation KEY_END := (-16) (only parsing).
Notation KEY_PGUP := (-17) (only parsing).
Notation KEY_PGDN := (-18) (only parsing).
Notation KB_BUF := 256 (only parsing).

(** The two scan code tables, with the terminator [sizeof] counts. *)
Definition sc_lo : list Z :=
  [0; 27; 49; 50; 51; 52; 53; 54; 55; 56; 57; 48; 45; 61; 8; 9; 113; 119; 101; 114; 116; 121; 117;
   105; 111; 112; 91; 93; 10; 0; 97; 115; 100; 102; 103; 104; 106; 107; 108; 59; 39; 96; 0; 92; 122;
   120; 99; 118; 98; 110; 109; 44; 46; 47; 0; 42; 0; 32; 0].
Definition sc_hi : list Z :=
  [0; 27; 33; 64; 35; 36; 37; 94; 38; 42; 40; 41; 95; 43; 8; 9; 81; 87; 69; 82; 84; 89; 85; 73; 79;
   80; 123; 125; 10; 0; 65; 83; 68; 70; 71; 72; 74; 75; 76; 58; 34; 126; 0; 124; 90; 88; 67; 86; 66;
   78; 77; 60; 62; 63; 0; 42; 0; 32; 0].

Record kbd := Kbd {
  kb_shift : bool; kb_ctrl : bool; kb_alt : bool; kb_caps : bool; kb_ext : bool;
  kb_buf : list Z; kb_h : Z; kb_t : Z;
}.

Definition kbd_boot : kbd := Kbd false false false false false (replicate 256 0) 0 0.

Definition kb_push (c : Z) (k : kbd) : kbd :=
  let n := (kb_h k + 1) mod KB_BUF in
  if n =? kb_t k then k
  else Kbd (kb_shift k) (kb_ctrl k) (kb_alt k) (kb_caps k) (kb_ext k) (aset (kb_buf k) (kb_h k) c) n (kb_t k).

Definition set_mods sh ct al ca ex (k : kbd) : kbd := Kbd sh ct al ca ex (kb_buf k) (kb_h k) (kb_t k).

(** The key of an extended (0xE0-prefixed) make code. *)
Definition ext_key (sc : Z) : option Z :=
  if sc =? 0x48 then Some KEY_UP
  else if sc =? 0x50 then Some KEY_DOWN
  else if sc =? 0x4B then Some KEY_LEFT
  else if sc =? 0x4D then Some KEY_RIGHT
  else if sc =? 0x53 then Some KEY_DEL
  else if sc =? 0x47 then Some KEY_HOME
  else if sc =? 0x4F then Some KEY_END
  else if sc =? 0x49 then Some KEY_PGUP
  else if sc =? 0x51 then Some KEY_PGDN
  else None.

Definition fn_key (sc : Z) : option Z :=
  if sc =? 0x3B then Some KEY_F1
  else if sc =? 0x3C then Some KEY_F2
  else if sc =? 0x3D then Some KEY_F3
  else if sc =? 0x3E then Some KEY_F4
  else if sc =? 0x3F then Some KEY_F5
  else if sc =? 0x40 then Some KEY_F6
  else if sc =? 0x41 then Some KEY_F7
  else if sc =? 0x44 then Some KEY_F10
  else None.

(** The character of a plain make code under the modifiers; 0 for none. *)
Definition sc_char (k : kbd) (sc : Z) : Z :=
  let sh := xorb (kb_shift k) (kb_caps k && is_lower (aget 0 sc_lo sc)) in
  let c := if sh then aget 0 sc_hi sc else aget 0 sc_lo sc in
  if kb_ctrl k && is_lower c then c - c_a + 1 else c.

(** One keyboard byte: the body of the loop of [ps2_poll]. *)
Definition kb_byte (sc : Z) (k : kbd) : kbd :=
  let mods sh ct al ca := set_mods sh ct al ca false k in
  if sc =? 0xE0 then set_mods (kb_shift k) (kb_ctrl k) (kb_alt k) (kb_caps k) true k
  else if kb_ext k then
    let k := mods (kb_shift k) (kb_ctrl k) (kb_alt k) (kb_caps k) in
    if Z.land sc 0x80 =? 0
    then match ext_key sc with Some c => kb_push c k | None => k end
    else k
  else if (sc =? 0x2A) || (sc =? 0x36) then mods true (kb_ctrl k) (kb_alt k) (kb_caps k)
  else if (sc =? 0xAA) || (sc =? 0xB6) then mods false (kb_ctrl k) (kb_alt k) (kb_caps k)
  else if sc =? 0x1D then mods (kb_shift k) true (kb_alt k) (kb_caps k)
  else if sc =? 0x9D then mods (kb_shift k) false (kb_alt k) (kb_caps k)
  else if sc =? 0x38 then mods (kb_shift k) (kb_ctrl k) true (kb_caps k)
  else if sc =? 0xB8 then mods (kb_shift k) (kb_ctrl k) false (kb_caps k)
  else if sc =? 0x3A then mods (kb_shift k) (kb_ctrl k) (kb_alt k) (negb (kb_caps k))
  else match fn_key sc with
  | Some c => kb_push c k
  | None =>
      if negb (Z.land sc 0x80 =? 0) then k
      else if sc <? zlen sc_lo then
        let c := sc_char k sc in if c =? 0 then k else kb_push (u8 c) k
      else k
  end.

(** [ps2_poll]: every pending byte; a byte of the auxiliary device is dropped. *)
Definition ps2_poll (pending : list (Z * Z)) (k : kbd) : kbd :=
  fold_left (fun k b => if Z.land b.1 0x20 =? 0 then kb_byte b.2 k else k) pending k.

Definition kb_avail (pending : list (Z * Z)) (k : kbd) : bool * kbd :=
  let k := ps2_poll pending k in (negb (kb_h k =? kb_t k), k).

(** [kb_get] with the bytes that arrive before it returns; [None] while it waits. *)
Definition kb_get (pending : list (Z * Z)) (k : kbd) : option (Z * kbd) :=
  let '(avail, k) := kb_avail pending k in
  if avail
  then Some (aget 0 (kb_buf k) (kb_t k),
             Kbd (kb_shift k) (kb_ctrl k) (kb_alt k) (kb_caps k) (kb_ext k) (kb_buf k) (kb_h k) ((kb_t k + 1) mod KB_BUF))
  else None.

(** ** Mouse *)

Record mouse := Mouse {
  mouse_x : Z; mouse_y : Z; mouse_btn_l : bool; mouse_btn_r : bool; mouse_btn_l_prev : bool;
  mouse_enabled : bool; mouse_cycle : Z; mouse_packet : list Z; mouse_bg : Z; mouse_drawn : bool;
}.

(** [mouse_init]: [ctrl] is the controller's configuration byte as read; the
    events are the port writes, the reads of acknowledgements are discarded. *)
Definition mouse_init (ctrl : Z) : M mouse unit :=
  m ← get;
  emit (EOut 0x64 0xA8) ;;
  emit (EOut 0x64 0x20) ;;
  emit (EOut 0x64 0x60) ;;
  emit (EOut 0x60 (Z.land (Z.lor ctrl 0x02) 0xF7)) ;;
  emit (EOut 0x64 0xD4) ;;
  emit (EOut 0x60 0xF4) ;;
  modify (fun m => Mouse 40 12 false false false true (mouse_cycle m) (mouse_packet m) (mouse_bg m) false).

Definition clamp_mouse (x y : Z) : Z * Z :=
  let x := if x <? 1 then 1 else x in
  let y := if y <? 1 then 1 else y in
  let x := if VGA_W - 1 <=? x then VGA_W - 2 else x in
  let y := if VGA_H - 1 <=? y then VGA_H - 2 else y in
  (x, y).

(** One byte of the stream. *)
Definition mouse_byte (b : Z) : M mouse unit :=
  m ← get;
  if Z.land b 0x08 =? 0
  then modify (fun m => Mouse (mouse_x m) (mouse_y m) (mouse_btn_l m) (mouse_btn_r m) (mouse_btn_l_prev m)
                 (mouse_enabled m) 0 (mouse_packet m) (mouse_bg m) (mouse_drawn m))
  else
    in_array 3 (mouse_cycle m) ;;
    let pk := aset (mouse_packet m) (mouse_cycle m) b in
    let cyc := mouse_cycle m + 1 in
    if cyc <? 3
    then modify (fun m => Mouse (mouse_x m) (mouse_y m) (mouse_btn_l m) (mouse_btn_r m) (mouse_btn_l_prev m)
                   (mouse_enabled m) cyc pk (mouse_bg m) (mouse_drawn m))
    else
      let p0 := aget 0 pk 0 in
      let wheel := if negb (Z.land p0 0x20 =? 0) then -1 else if negb (Z.land p0 0x10 =? 0) then 1 else 0 in
      (if wheel =? 0 then mret tt else if 0 <? wheel then emit EScrollUp else emit EScrollDown) ;;
      let '(x, y) := clamp_mouse (mouse_x m + i8 (aget 0 pk 1)) (mouse_y m - i8 (aget 0 pk 2)) in
      modify (fun m => Mouse x y (negb (Z.land p0 0x01 =? 0)) (negb (Z.land p0 0x02 =? 0)) (mouse_btn_l m)
                (mouse_enabled m) 0 pk (mouse_bg m) (mouse_drawn m)).

Definition mouse_poll (pending : list Z) : M mouse unit :=
  m ← get; if negb (mouse_enabled m) then mret tt else mapM_ mouse_byte pending.

(** The block cursor is drawn straight into text memory. *)
Definition mouse_draw (mv : mouse * vga) : mouse * vga :=
  let '(m, v) := mv in
  if negb (mouse_enabled m) then mv
  else if (mouse_x m <? 1) || (mouse_y m <? 1) || (VGA_W - 1 <=? mouse_x m) || (VGA_H - 1 <=? mouse_y m) then mv
  else
    let i := mouse_y m * VGA_W + mouse_x m in
    (Mouse (mouse_x m) (mouse_y m) (mouse_btn_l m) (mouse_btn_r m) (mouse_btn_l_prev m) (mouse_enabled m)
       (mouse_cycle m) (mouse_packet m) (mem_get v i) true, mem_set i 0x0F20 v).

Definition mouse_erase (mv : mouse * vga) : mouse * vga :=
  let '(m, v) := mv in
  if negb (mouse_enabled m) || negb (mouse_drawn m) then mv
  else
    (Mouse (mouse_x m) (mouse_y m) (mouse_btn_l m) (mouse_btn_r m) (mouse_btn_l_prev m) (mouse_enabled m)
       (mouse_cycle m) (mouse_packet m) (mouse_bg m) false,
     mem_set (mouse_y m * VGA_W + mouse_x m) (mouse_bg m) v).

Definition mouse_draw_cursor (mv : mouse * vga) : mouse * vga := mouse_draw (mouse_erase mv).

(** ** The key queue as a list *)

Record kbd_ok (k : kbd) : Prop := KbdOk {
  ok_kb_len : zlen (kb_buf k) = KB_BUF;
  ok_kb_h : 0 <= kb_h k < KB_BUF;
  ok_kb_t : 0 <= kb_t k < KB_BUF;
}.

Definition queued (k : kbd) : Z := (kb_h k - kb_t k) mod KB_BUF.

(** The keys waiting, oldest first. *)
Definition queue (k : kbd) : list Z :=
  map (fun i => aget 0 (kb_buf k) ((kb_t k + i) mod KB_BUF)) (seqZ 0 (queued k)).

Lemma queued_range k : 0 <= queued k < KB_BUF.
Proof. apply Z.mod_pos_bound. lia. Qed.

Lemma length_queue k : zlen (queue k) = queued k.
Proof. pose proof (queued_range k). unfold zlen, queue. rewrite length_map, length_seqZ. lia. Qed.

Lemma mod_step h t : 0 <= h < KB_BUF -> 0 <= t < KB_BUF ->
  ((h + 1) mod KB_BUF =? t) = ((h - t) mod KB_BUF =? 255).
Proof.
  intros Hh Ht. destruct (Z.le_gt_cases t h).
  - rewrite (Z.mod_small (h - t)) by lia. destruct (decide (h = 255)) as [->|].
    + change ((255 + 1) mod KB_BUF) with 0. destruct (Z.eqb_spec 0 t), (Z.eqb_spec (255 - t) 255); lia.
    + rewrite Z.mod_small by lia. destruct (Z.eqb_spec (h + 1) t), (Z.eqb_spec (h - t) 255); lia.
  - replace ((h - t) mod KB_BUF) with (h - t + KB_BUF)
      by (symmetry; rewrite <- (Z.mod_add _ 1) by lia; rewrite Z.mod_small by lia; lia).
    rewrite Z.mod_small by lia. destruct (Z.eqb_spec (h + 1) t), (Z.eqb_spec (h - t + KB_BUF) 255); lia.
Qed.

Lemma kb_push_ok c k : kbd_ok k -> kbd_ok (kb_push c k).
Proof.
  intros []. unfold kb_push. case_test; [done|]. constructor; simpl; [by rewrite zlen_aset| |done].
  apply Z.mod_pos_bound. lia.
Qed.

(** Pushing appends, unless 255 keys are waiting: then the key is dropped. *)
Lemma kb_push_queue c k :
  kbd_ok k -> queue (kb_push c k) = if queued k =? 255 then queue k else queue k ++ [c].
Proof.
  intros []. unfold kb_push. rewrite mod_step by done. fold (queued k). case_test; [done|].
  pose proof (queued_range k) as Hq. unfold queue. simpl.
  assert (Hn : queued (Kbd (kb_shift k) (kb_ctrl k) (kb_alt k) (kb_caps k) (kb_ext k)
     (aset (kb_buf k) (kb_h k) c) ((kb_h k + 1) mod KB_BUF) (kb_t k)) = queued k + 1).
  { unfold queued in *. simpl. rewrite Zminus_mod_idemp_l.
    replace (kb_h k + 1 - kb_t k) with ((kb_h k - kb_t k) + 1) by lia.
    rewrite <- Zplus_mod_idemp_l, Z.mod_small by lia. done. }
  rewrite Hn, seqZ_app, map_app by lia. f_equal.
  - apply map_ext_in. intros i Hi%list_elem_of_In%elem_of_seqZ.
    pose proof (Z.mod_pos_bound (kb_t k + i) KB_BUF eq_refl). apply aget_aset_ne; [lia|lia|].
    intros He. assert (Hc : (kb_h k - kb_t k) mod KB_BUF = i); [|unfold queued in *; lia].
    rewrite He, Zminus_mod_idemp_l. replace (kb_t k + i - kb_t k) with i by lia.
    apply Z.mod_small. lia.
  - rewrite seqZ_cons by lia. simpl. rewrite Z.add_0_l. f_equal.
    assert (Hc : (kb_t k + queued k) mod KB_BUF = kb_h k).
    { unfold queued. rewrite Zplus_mod_idemp_r. replace (kb_t k + (kb_h k - kb_t k)) with (kb_h k) by lia.
      by apply Z.mod_small. }
    rewrite Hc. apply aget_aset_eq. lia.
Qed.

Lemma set_mods_ok sh ct al ca ex k : kbd_ok k -> kbd_ok (set_mods sh ct al ca ex k).
Proof. by intros []. Qed.
Lemma set_mods_queue sh ct al ca ex k : queue (set_mods sh ct al ca ex k) = queue k.
Proof. done. Qed.

Lemma kb_byte_ok sc k : kbd_ok k -> kbd_ok (kb_byte sc k).
Proof.
  intros Hk. unfold kb_byte. cbv zeta.
  repeat case_match; auto using set_mods_ok, kb_push_ok.
Qed.

Lemma ps2_poll_ok pending k : kbd_ok k -> kbd_ok (ps2_poll pending k).
Proof.
  unfold ps2_poll. revert k. induction pending as [|b l IH]; intros k Hk; simpl; [done|].
  apply IH. case_match; auto using kb_byte_ok.
Qed.

Lemma kb_pop_queue k :
  kbd_ok k -> kb_h k <> kb_t k ->
  queue k = aget 0 (kb_buf k) (kb_t k) ::
            queue (Kbd (kb_shift k) (kb_ctrl k) (kb_alt k) (kb_caps k) (kb_ext k) (kb_buf k) (kb_h k)
                     ((kb_t k + 1) mod KB_BUF)).
Proof.
  intros [] Hne. pose proof (queued_range k) as Hq.
  assert (Hq0 : queued k <> 0).
  { unfold queued. intros He. apply Z.mod_divide in He as [z Hz]; lia. }
  assert (Hn : queued (Kbd (kb_shift k) (kb_ctrl k) (kb_alt k) (kb_caps k) (kb_ext k) (kb_buf k) (kb_h k)
                     ((kb_t k + 1) mod KB_BUF)) = queued k - 1).
  { unfold queued in *. simpl. rewrite Zminus_mod_idemp_r.
    replace (kb_h k - (kb_t k + 1)) with ((kb_h k - kb_t k) - 1) by lia.
    rewrite <- Zminus_mod_idemp_l, Z.mod_small by lia. done. }
  unfold queue. rewrite Hn. simpl. rewrite (seqZ_cons 0 (queued k)) by lia. simpl. f_equal.
  - rewrite Z.add_0_r, Z.mod_small by done. done.
  - replace (seqZ (Z.succ 0) (Z.pred (queued k))) with (map (Z.add 1) (seqZ 0 (queued k - 1))).
    2:{ transitivity (seqZ (1 + 0) (queued k - 1)); [apply fmap_add_seqZ|]. f_equal; lia. }
    rewrite map_map. apply map_ext_in. intros i _. f_equal.
    rewrite Zplus_mod_idemp_l. f_equal. lia.
Qed.

(** The letter keys and what they type. *)
Definition letter_of (k : kbd) (l : Z) : Z :=
  if xorb (kb_shift k) (kb_caps k) then l - 32 else if kb_ctrl k then l - 96 else l.

Lemma letter_rows :
  forallb (fun sc => implb (is_lower (aget 0 sc_lo sc))
    ((aget 0 sc_hi sc =? aget 0 sc_lo sc - 32) && (Z.land sc 0x80 =? 0) &&
     negb (existsb (Z.eqb sc) [0xE0; 0x2A; 0x36; 0xAA; 0xB6; 0x1D; 0x9D; 0x38; 0xB8; 0x3A]) &&
     match fn_key sc with None => true | Some _ => false end)) (seqZ 0 59) = true.
Proof. vm_compute. reflexivity. Qed.

(** ** Properties *)

(** C7: The keyboard buffer is a queue of at most 255 keys: [kb_get] returns the
    oldest waiting key and keeps the others in order, it waits exactly when
    none is there after polling, and a key that arrives appends to the queue
    unless 255 are waiting, in which case it is dropped. *)
Theorem kb_queue_fifo pending k c :
  kbd_ok k ->
  (match kb_get pending k with
   | Some (x, k') => queue (ps2_poll pending k) = x :: queue k' /\ kbd_ok k'
   | None => queue (ps2_poll pending k) = []
   end) /\
  queue (kb_push c k) = (if zlen (queue k) =? 255 then queue k else queue k ++ [c]) /\
  kbd_ok (kb_push c k).
Proof.
  intros Hk. split_and!.
  - unfold kb_get, kb_avail. pose proof (ps2_poll_ok pending k Hk) as Hp. cbv zeta.
    revert Hp. generalize (ps2_poll pending k). clear k Hk. intros k Hk.
    destruct (Z.eqb_spec (kb_h k) (kb_t k)) as [He|Hne]; simpl.
    + unfold queue, queued. by rewrite He, Z.sub_diag.
    + split; [by apply kb_pop_queue|]. destruct Hk. constructor; simpl; try done. apply Z.mod_pos_bound. lia.
  - rewrite length_queue. by apply kb_push_queue.
  - by apply kb_push_ok.
Qed.

Lemma kbd_boot_ok : kbd_ok kbd_boot.
Proof. by constructor. Qed.

Lemma kb_queue_fifo_witness :
  exists k', kb_get [(1, 0x23); (1, 0x17)] kbd_boot = Some (104, k') /\
             queue (ps2_poll [(1, 0x23); (1, 0x17)] kbd_boot) = 104 :: queue k'.
Proof.
  destruct (kb_queue_fifo [(1, 0x23); (1, 0x17)] kbd_boot 0 kbd_boot_ok) as [H _].
  eexists. split; [vm_compute; reflexivity|]. exact (proj1 H).
Defined.

(** Letter keys: with no pending prefix byte, pressing a letter key queues
    the lower-case letter, its capital when exactly one of Shift and Caps Lock
    is on, and otherwise its control code when Ctrl is held. *)
Theorem letter_key_typed k sc :
  kbd_ok k -> kb_ext k = false -> zlen (queue k) < 255 ->
  0 <= sc < zlen sc_lo -> is_lower (aget 0 sc_lo sc) = true ->
  queue (kb_byte sc k) = queue k ++ [letter_of k (aget 0 sc_lo sc)].
Proof.
  intros Hk He Hq Hsc Hl. change (zlen sc_lo) with 59 in Hsc.
  pose proof letter_rows as Hrows. rewrite forallb_forall in Hrows.
  specialize (Hrows sc). rewrite <- list_elem_of_In, elem_of_seqZ, Hl in Hrows.
  specialize (Hrows ltac:(lia)). simpl implb in Hrows.
  apply andb_true_iff in Hrows as [Hrows Hfn]. apply andb_true_iff in Hrows as [Hrows Hs].
  apply andb_true_iff in Hrows as [Hhi H80]. apply Z.eqb_eq in Hhi. apply negb_true_iff in Hs.
  simpl in Hs. repeat (apply orb_false_iff in Hs as [? Hs]).
  unfold kb_byte. cbv zeta. rewrite He.
  repeat match goal with H : (sc =? _) = false |- _ => rewrite H; clear H end. simpl orb. cbv iota.
  destruct (fn_key sc); [done|]. rewrite H80. simpl negb. cbv iota.
  change (zlen sc_lo) with 59. rewrite (proj2 (Z.ltb_lt sc 59)) by lia.
  assert (Hc : sc_char k sc = letter_of k (aget 0 sc_lo sc)).
  { unfold sc_char, letter_of. rewrite Hl, andb_true_r, Hhi.
    destruct (xorb (kb_shift k) (kb_caps k)); [|rewrite Hl, andb_true_r; destruct (kb_ctrl k); [lia|done]].
    unfold is_lower in *. replace ((c_a <=? _) && _) with false by lia. by rewrite andb_false_r. }
  rewrite Hc. unfold is_lower in Hl. bool_to_prop.
  assert (Hr : 1 <= letter_of k (aget 0 sc_lo sc) < 256) by (unfold letter_of; repeat case_match; lia).
  rewrite (proj2 (Z.eqb_neq _ 0)), u8_id, kb_push_queue by (done || lia).
  rewrite length_queue in Hq. by rewrite (proj2 (Z.eqb_neq (queued k) 255)) by lia.
Qed.

Lemma letter_key_typed_witness :
  queue (kb_byte 0x19 (set_mods true false false false false kbd_boot)) = [80].
Proof.
  apply (letter_key_typed (set_mods true false false false false kbd_boot) 0x19);
    try reflexivity; [apply set_mods_ok, kbd_boot_ok|vm_compute; split; congruence].
Defined.

(** The mouse stays on the screen's inner area and its packet index in range. *)
Record mouse_ok (m : mouse) : Prop := MouseOk {
  ok_mx : 1 <= mouse_x m <= VGA_W - 2;
  ok_my : 1 <= mouse_y m <= VGA_H - 2;
  ok_cycle : 0 <= mouse_cycle m < 3;
  ok_packet : zlen (mouse_packet m) = 3;
}.

Lemma mouse_byte_wp b m :
  mouse_ok m -> wp (mouse_byte b) m (fun _ m' => mouse_ok m' /\ mouse_enabled m' = mouse_enabled m) (fun _ _ => False).
Proof.
  intros Hm. unfold mouse_byte. pose proof Hm as [].
  do 3 wp_step; [wp_run; by split; [constructor|]|].
  wp_step. wp_step; [|done]. wp_step; bool_to_prop; [wp_run; split; [constructor; simpl; by rewrite ?zlen_aset; try lia|done]|].
  wp_step. set (pk := aset _ _ b).
  assert (Hpk : zlen pk = 3) by (unfold pk; by rewrite zlen_aset).
  assert (Hfin : forall x y, wp (let '(x, y) := clamp_mouse x y in
     modify (fun m0 => Mouse x y (negb (Z.land (aget 0 pk 0) 0x01 =? 0)) (negb (Z.land (aget 0 pk 0) 0x02 =? 0))
       (mouse_btn_l m0) (mouse_enabled m0) 0 pk (mouse_bg m0) (mouse_drawn m0))) m
     (fun _ m' => mouse_ok m' /\ mouse_enabled m' = mouse_enabled m) (fun _ _ => False)).
  { intros x y. unfold clamp_mouse. cbv zeta. wp_run. split; [|done].
    constructor; simpl; [repeat case_test; lia|repeat case_test; lia|lia|done]. }
  wp_run; apply Hfin.
Qed.

(** The mouse never leaves the screen: whatever bytes the device sends, the
    poll consumes them without a fault (the packet index stays below 3) and the
    position stays in columns 1..78 and rows 1..23. *)
Theorem mouse_stays_on_screen pending m :
  mouse_ok m -> exists m' out, mouse_poll pending m = Ok tt m' out /\ mouse_ok m'.
Proof.
  intros Hm.
  assert (Hw : wp (mouse_poll pending) m (fun _ => mouse_ok) (fun _ _ => False)).
  { unfold mouse_poll. wp_run; [done|]. apply wp_mapM; [done|]. intros b s _ Hs.
    eapply wp_mono; [by apply mouse_byte_wp| |done]. by intros ? ? []. }
  unfold wp in Hw. destruct (mouse_poll pending m) as [[] m' o|]; [|done]. eauto.
Qed.

Definition mouse_boot : mouse := Mouse 40 12 false false false true 0 [0; 0; 0] 0 false.

Lemma mouse_stays_on_screen_witness :
  exists m' out, mouse_poll [0x08; 0x7F; 0x88; 0x08] mouse_boot = Ok tt m' out /\ mouse_ok m'.
Proof. apply mouse_stays_on_screen. constructor; simpl; (reflexivity || lia). Defined.

(** Erasing restores the cell under the cursor when the mouse did not move in
    between, and only then: the erase goes to the current position. *)
Lemma draw_then_erase m v :
  mouse_ok m -> mouse_enabled m = true -> zlen (VGA_MEM v) = VGA_CELLS ->
  VGA_MEM (mouse_erase (mouse_draw (m, v))).2 = VGA_MEM v.
Proof.
  intros [] He Hl. unfold mouse_draw. rewrite He. simpl negb. cbv iota.
  replace (_ || _ || _ || _) with false by lia. unfold mouse_erase. simpl.
  apply (array_ext 0); [by rewrite !zlen_aset|]. intros i Hi.
  rewrite !zlen_aset in Hi. destruct (decide (i = mouse_y m * VGA_W + mouse_x m)) as [->|Hne].
  - rewrite aget_aset_eq by (rewrite zlen_aset; lia). done.
  - by rewrite !aget_aset_ne by lia.
Qed.

(** A packet with the X sign bit scrolls the console, because bits 4 and 5 of
    the first byte are taken for wheel buttons. *)
Lemma negative_motion_scrolls :
  output (mouse_poll [0x18; 0xF8; 0x08] mouse_boot) = [EScrollUp].
Proof. reflexivity. Qed.

(** A movement byte without bit 3 restarts the packet: the motion is lost. *)
Lemma movement_bytes_are_dropped :
  mouse_x (post (mouse_poll [0x08; 0x05; 0x00] mouse_boot)) = mouse_x mouse_boot.
Proof. reflexivity. Qed.
