(* ===== verification/Logger.v ===== *)
(** * Runtime logs ([kernel/logger.h], [kernel/netlog.h])

    Two ring buffers of truncated entries: the kernel log keeps the last 64, the
    network log the last 256.  Both use the index arithmetic of [ring_view]. *)

From Stdlib Require Import ZArith Lia.
From stdpp Require Import base numbers list list_numbers strings.
From S2P Require Import Prelude CLib Console.

Notation LOG_ENTRIES := 64 (only parsing).
Notation NET_LOG_MAX := 256 (only parsing).

(** ** Kernel log *)

Record LogEntry := MkEntry { seq : Z; level : cstr; msg : cstr }.
Definition no_entry : LogEntry := MkEntry 0 [] [].

Record klog := KLog { log_buffer : list LogEntry; log_count : Z; log_index : Z; log_initialized : bool }.

Definition klog_boot : klog := KLog (replicate 64 no_entry) 0 0 false.

Definition log_init (l : klog) : klog :=
  KLog (map (fun e => MkEntry (seq e) (level e) []) (log_buffer l)) 0 0 true.

Definition log_add (lv m : cstr) (l : klog) : klog :=
  let l := if log_initialized l then l else log_init l in
  let idx := log_index l mod LOG_ENTRIES in
  let ix := log_index l + 1 in
  KLog (aset (log_buffer l) idx (MkEntry ix (take 7 lv) (take 127 m)))
       (if log_count l <? LOG_ENTRIES then log_count l + 1 else log_count l) ix (log_initialized l).

Definition log_get_count (l : klog) : Z := log_count l.

(** The text stored in [out], a buffer of [max] bytes. *)
Definition log_get_entry (n max : Z) (l : klog) : cstr :=
  if (n <? 0) || (log_count l <=? n) then []
  else
    let e := aget no_entry (log_buffer l) ((log_index l - log_count l + n) mod LOG_ENTRIES) in
    take (Z.to_nat (max - 1)) (level e ++ [c_sp] ++ msg e).

Definition log_clear (l : klog) : klog := KLog (log_buffer l) 0 0 (log_initialized l).

(** ** Network log *)

Record NetLogEntry := MkNet { tick : Z; event : cstr; detail : cstr }.
Definition no_net : NetLogEntry := MkNet 0 [] [].

Record nlog := NLog { net_log : list NetLogEntry; net_log_idx : Z; net_log_count : Z }.

Definition nlog_boot : nlog := NLog (replicate 256 no_net) 0 0.

Definition net_log_init (l : nlog) : nlog :=
  NLog (map (fun e => MkNet (tick e) [] (detail e)) (net_log l)) 0 0.

Definition net_log_event (ev d : cstr) (l : nlog) : nlog :=
  let idx := net_log_idx l mod NET_LOG_MAX in
  let ix := net_log_idx l + 1 in
  NLog (aset (net_log l) idx (MkNet ix (take 63 ev) (take 95 d))) ix
       (if net_log_count l <? NET_LOG_MAX then net_log_count l + 1 else net_log_count l).

(** The entries, from the oldest. *)
Definition net_entries (l : nlog) : list NetLogEntry :=
  map (fun i => aget no_net (net_log l) ((net_log_idx l - net_log_count l + i) mod NET_LOG_MAX))
      (seqZ 0 (net_log_count l)).

Definition net_log_dump : M nlog unit :=
  vpln (cs "=== Network Debug Log ===") ;;
  l ← get;
  mapM_ (fun e => if bool_decide (event e = []) then mret tt
                  else vps (cs "[") ;; vps (event e) ;; vps (cs "] ") ;; vpln (detail e)) (net_entries l).

(** [net_log_save]: the text handed to the file system.  The second [kcp] of an
    empty string resets both the buffer and [pos], which stays 0, so neither the
    header nor the 4000-byte guard is left. *)
Definition net_log_line (e : NetLogEntry) : cstr :=
  if bool_decide (event e = []) then [] else cs "[" ++ event e ++ cs "] " ++ detail e ++ [c_nl].

Fixpoint net_log_text (es : list NetLogEntry) (buffer : cstr) : M nlog cstr :=
  match es with
  | [] => mret buffer
  | e :: es' =>
      let buffer := buffer ++ net_log_line e in
      fits 4096 buffer ;; net_log_text es' buffer
  end.

Definition net_log_save : M nlog cstr := l ← get; net_log_text (net_entries l) [].

(** ** Both logs are the last entries of their history *)

(** The last [n] elements. *)
Definition last_n {A} (n : nat) (l : list A) : list A := drop (length l - n) l.

Lemma last_n_snoc {A} n (l : list A) x :
  (0 < n)%nat ->
  last_n n (l ++ [x]) = (if (length l <? n)%nat then last_n n l else tail (last_n n l)) ++ [x].
Proof.
  intros Hn. unfold last_n. rewrite length_app. simpl. destruct (Nat.ltb_spec (length l) n).
  - replace (length l + 1 - n)%nat with 0%nat by lia. by replace (length l - n)%nat with 0%nat by lia.
  - rewrite drop_app_le by lia. f_equal.
    replace (length l + 1 - n)%nat with (length l - n + 1)%nat by lia.
    rewrite <- drop_drop. by destruct (drop (length l - n) l).
Qed.

Section Ring.
Context {A : Type} (d : A) (n : nat) (Hn : (0 < n)%nat).

(** Ring state [(buf, index, count)] represents the history [h]. *)
Record ring_rep (buf : list A) (index count : Z) (h : list A) : Prop := RingRep {
  rr_len : length buf = n;
  rr_index : index = zlen h;
  rr_count : count = Z.of_nat (Nat.min n (length h));
  rr_view : ring_view d buf (index mod Z.of_nat n) count = last_n n h;
}.

Lemma ring_rep_nil buf : length buf = n -> ring_rep buf 0 0 [].
Proof. intros. constructor; [done|done|by rewrite Nat.min_0_r|]. done. Qed.

Lemma ring_rep_push buf index count h x :
  ring_rep buf index count h ->
  ring_rep (aset buf (index mod Z.of_nat n) x) (index + 1)
    (if count <? Z.of_nat n then count + 1 else count) (h ++ [x]).
Proof.
  intros [Hl Hi Hc Hv].
  pose proof (Z.mod_pos_bound index (Z.of_nat n) ltac:(lia)) as Hm.
  assert (Hz : zlen buf = Z.of_nat n) by (unfold zlen; lia).
  constructor.
  - unfold aset. by rewrite length_insert.
  - rewrite zlen_app, zlen_cons, zlen_nil. lia.
  - rewrite length_app. simpl. case_test; lia.
  - pose proof (ring_view_push d buf (index mod Z.of_nat n) count x) as Hp. rewrite Hz in Hp.
    rewrite Zplus_mod_idemp_l in Hp. rewrite Hp by lia. rewrite Hv, last_n_snoc by done. f_equal.
    replace (length h <? n)%nat with (count <? Z.of_nat n)
      by (destruct (Nat.ltb_spec (length h) n); lia). done.
Qed.

Lemma ring_index index count i :
  (index mod Z.of_nat n - count + i) mod Z.of_nat n = (index - count + i) mod Z.of_nat n.
Proof.
  replace (index mod Z.of_nat n - count + i) with (index mod Z.of_nat n - (count - i)) by lia.
  rewrite Zminus_mod_idemp_l. f_equal. lia.
Qed.

(** The entry at position [i] of the log. *)
Lemma ring_rep_get buf index count h i :
  ring_rep buf index count h -> 0 <= i < count ->
  aget d buf ((index - count + i) mod Z.of_nat n) = aget d (last_n n h) i.
Proof.
  intros [Hl Hi Hc Hv] Hr. rewrite <- Hv. unfold ring_view, aget at 2.
  rewrite nth_lookup, list_lookup_fmap, lookup_seqZ_lt by lia. simpl.
  rewrite Z.add_0_l, Z2Nat.id by lia. unfold zlen. rewrite Hl. by rewrite ring_index.
Qed.
End Ring.

(** What is stored for the [k]-th message of a history. *)
Definition stored (k : Z) (m : cstr * cstr) : LogEntry := MkEntry (k + 1) (take 7 m.1) (take 127 m.2).
Definition history (ms : list (cstr * cstr)) : list LogEntry :=
  zip_with stored (seqZ 0 (zlen ms)) ms.

Definition log_run (ms : list (cstr * cstr)) (l : klog) : klog :=
  fold_left (fun l m => log_add m.1 m.2 l) ms l.

Lemma history_snoc ms m : history (ms ++ [m]) = history ms ++ [stored (zlen ms) m].
Proof.
  unfold history. pose proof (zlen_nonneg ms).
  replace (zlen (ms ++ [m])) with (zlen ms + 1) by (unfold zlen; rewrite length_app; simpl; lia).
  rewrite seqZ_app by lia. rewrite zip_with_app by (rewrite length_seqZ; unfold zlen; lia).
  f_equal.
Qed.

Lemma length_history ms : length (history ms) = length ms.
Proof. unfold history. rewrite length_zip_with, length_seqZ. unfold zlen. lia. Qed.

Lemma log_run_rep ms l :
  log_initialized l = true -> length (log_buffer l) = 64%nat -> log_index l = 0 -> log_count l = 0 ->
  let l' := log_run ms l in
  ring_rep no_entry 64 (log_buffer l') (log_index l') (log_count l') (history ms) /\ log_initialized l' = true.
Proof.
  intros Hi Hl H0 Hc. cbv zeta. induction ms as [|m ms IH] using rev_ind.
  { simpl. split; [|done]. rewrite H0, Hc. by apply ring_rep_nil. }
  unfold log_run. rewrite fold_left_app. fold (log_run ms l). simpl. revert IH.
  generalize (log_run ms l). intros l1 [Hr Hi1]. unfold log_add. rewrite Hi1. simpl. split; [|done].
  rewrite history_snoc. unfold stored.
  replace (zlen ms) with (log_index l1).
  2:{ rewrite (rr_index _ _ _ _ _ _ Hr). unfold zlen. by rewrite length_history. }
  apply (ring_rep_push no_entry 64 ltac:(lia)). done.
Qed.

(** After any sequence of messages the kernel log holds exactly the last 64,
    in order, each with its sequence number and with level and text cut to 7 and
    127 bytes; [log_get_entry] returns the [n]-th of them as "level text", and
    the empty string for an index outside the log. *)
Theorem log_keeps_last_64 ms n max :
  0 < max ->
  let l := log_run ms (log_init klog_boot) in
  let kept := last_n 64 (history ms) in
  log_get_count l = zlen kept /\
  log_get_entry n max l =
    (if (n <? 0) || (zlen kept <=? n) then []
     else let e := aget no_entry kept n in take (Z.to_nat (max - 1)) (level e ++ [c_sp] ++ msg e)).
Proof.
  intros Hmax. cbv zeta.
  destruct (log_run_rep ms (log_init klog_boot)) as [Hr _]; try done.
  set (l := log_run ms (log_init klog_boot)) in *.
  assert (Hc : log_count l = zlen (last_n 64 (history ms))).
  { rewrite (rr_count _ _ _ _ _ _ Hr). unfold last_n, zlen. rewrite length_drop. lia. }
  split; [done|]. unfold log_get_entry. rewrite <- Hc. case_test; [done|].
  by rewrite (ring_rep_get no_entry 64 ltac:(lia) _ _ _ _ _ Hr) by lia.
Qed.

Lemma log_keeps_last_64_witness :
  log_get_entry 0 32 (log_run [(cs "INFO", cs "boot"); (cs "NET", cs "up")] (log_init klog_boot)) = cs "INFO boot".
Proof.
  destruct (log_keeps_last_64 [(cs "INFO", cs "boot"); (cs "NET", cs "up")] 0 32) as [_ H]; [lia|].
  rewrite H. reflexivity.
Defined.

(** Saving the network log loses its header line, and a full log does not fit
    the 4096-byte buffer it is built in. *)
Lemma net_log_save_has_no_header :
  result (net_log_save (net_log_event (cs "ARP") (cs "sent") nlog_boot)) = inl (cs "[ARP] sent" ++ [c_nl]).
Proof. reflexivity. Qed.

Lemma net_log_save_overflows :
  result (net_log_save (Nat.iter 64 (net_log_event (cs "EVENT") (replicate 95 120)) nlog_boot)) = inr BufferOverflow.
Proof. vm_compute. reflexivity. Qed.
