(* ===== verification/Poing.v ===== *)
(** * POING, the init system ([kernel/poing/poing.h])

    A table of at most 32 units with their state, and [poingctl].  [keys] is the
    sequence of key codes the keyboard will deliver. *)

From Stdlib Require Import ZArith Lia.
From stdpp Require Import base numbers list strings.
From S2P Require Import Prelude CLib Console.

Notation POING_MAX := 32 (only parsing).

Inductive UState := US_STOPPED | US_STARTING | US_RUNNING | US_FAILED.
#[export] Instance UState_eq_dec : EqDecision UState.
Proof. solve_decision. Defined.

Record PoingUnit := Unit { u_name : cstr; u_desc : cstr; u_state : UState; u_enabled : bool; u_pid : Z }.
#[export] Instance PoingUnit_eq_dec : EqDecision PoingUnit.
Proof. solve_decision. Defined.

(** [pu] lists the units below [pnu]. *)
Record poing := Poing { pu : list PoingUnit; prl : Z; keys : list Z }.
Definition set_pu l p := Poing l (prl p) (keys p).

Definition poing_boot (ks : list Z) : poing := Poing [] 5 ks.

Definition poing_add (n d : cstr) (en : bool) (st : UState) : M poing unit :=
  p ← get;
  if POING_MAX <=? zlen (pu p) then mret tt
  else fits 48 n ;; fits 64 d ;; modify (set_pu (pu p ++ [Unit n d st en (100 + zlen (pu p))])).

Definition poing_init : M poing unit :=
  poing_add (cs "poing-early.unit") (cs "Early kernel setup") true US_RUNNING ;;
  poing_add (cs "poing-udev.unit") (cs "Device manager (udev-pig)") true US_RUNNING ;;
  poing_add (cs "poing-vga.unit") (cs "VGA console driver") true US_RUNNING ;;
  poing_add (cs "poing-kbd.unit") (cs "PS/2 keyboard") true US_RUNNING ;;
  poing_add (cs "poing-mouse.unit") (cs "PS/2 mouse") true US_RUNNING ;;
  poing_add (cs "poing-mem.unit") (cs "Memory allocator") true US_RUNNING ;;
  poing_add (cs "poing-net.unit") (cs "pig-net network manager") true US_RUNNING ;;
  poing_add (cs "poing-fs.unit") (cs "pigfs virtual filesystem") true US_RUNNING ;;
  poing_add (cs "poing-crypto.unit") (cs "pigssl crypto subsystem") true US_RUNNING ;;
  poing_add (cs "poing-wm.unit") (cs "PigWM window manager") true US_RUNNING ;;
  poing_add (cs "poing-shell.unit") (cs "larpshell on tty0") true US_RUNNING ;;
  poing_add (cs "poing-log.unit") (cs "piglog system logger") true US_RUNNING ;;
  poing_add (cs "poing-cron.unit") (cs "pig-cron task scheduler") true US_RUNNING ;;
  poing_add (cs "sshd.unit") (cs "SSH daemon") false US_STOPPED ;;
  poing_add (cs "httpd.unit") (cs "pig-httpd web server") false US_STOPPED ;;
  poing_add (cs "bluetooth.unit") (cs "Bluetooth manager") false US_STOPPED.

Definition poingctl_status : M poing unit :=
  vset C_LCYAN C_BLACK ;;
  vpln (cs "  " ++ [1] ++ cs " POING - pigOS Init System v1.0") ;;
  vrst ;;
  p ← get;
  fits 4 (kia (prl p)) ;;
  vps (cs "  Runlevel: ") ;; vpln (kia (prl p)) ;;
  vpln [] ;;
  mapM_ (fun u =>
    fits 8 (kia (u_pid u)) ;;
    (match u_state u with
     | US_RUNNING => vset C_LGREEN C_BLACK ;; vps (cs "  " ++ [0x10] ++ cs " ")
     | US_FAILED => vset C_LRED C_BLACK ;; vps (cs "  " ++ [0xFB] ++ cs " ")
     | _ => vset C_DGREY C_BLACK ;; vps (cs "  o  ")
     end) ;;
    vset C_WHITE C_BLACK ;;
    vps (u_name u) ;; vps (cs " (pid=") ;; vps (kia (u_pid u)) ;; vps (cs ") - ") ;; vpln (u_desc u)) (pu p).

(** The unit commands: the new unit and the message, or nothing for an unknown
    one. *)
Definition unit_cmd (sub : cstr) (u : PoingUnit) : option (PoingUnit * cstr) :=
  let set st en := Unit (u_name u) (u_desc u) st en (u_pid u) in
  if streq sub (cs "start") then Some (set US_RUNNING true, cs "poing: started ")
  else if streq sub (cs "stop") then Some (set US_STOPPED false, cs "poing: stopped ")
  else if streq sub (cs "enable") then Some (set (u_state u) true, cs "poing: enabled ")
  else if streq sub (cs "disable") then Some (set (u_state u) false, cs "poing: disabled ")
  else if streq sub (cs "restart") then Some (set US_RUNNING (u_enabled u), cs "poing: restarted ")
  else if streq sub (cs "reload") then Some (u, cs "poing: reloaded ")
  else None.

Fixpoint unit_loop (sub n : cstr) (done todo : list PoingUnit) : M poing unit :=
  match todo with
  | [] => vps (cs "poingctl: unit not found: ") ;; vpln n
  | u :: todo' =>
      if streq (u_name u) n then
        match unit_cmd sub u with
        | Some (u', m) => modify (set_pu (done ++ u' :: todo')) ;; vps m ;; vpln n
        | None => vps (cs "poingctl: unknown: ") ;; vpln sub
        end
      else unit_loop sub n (done ++ [u]) todo'
  end.

Definition kb_get : M poing Z :=
  p ← get;
  match keys p with
  | [] => fail Blocked
  | k :: ks => modify (fun p => Poing (pu p) (prl p) ks) ;; mret k
  end.

Definition poingctl_do (sub n : cstr) : M poing unit :=
  if streq sub (cs "status") || streq sub (cs "list") then poingctl_status
  else if streq sub (cs "reboot") then vpln (cs "poing: rebooting...") ;; emit (EOut 0x64 0xFE)
  else if streq sub (cs "halt") || streq sub (cs "shutdown") || streq sub (cs "poweroff") then
    vclear ;; vset C_LRED C_BLACK ;;
    vpln ([c_nl] ++ cs "  poing: system shutdown") ;;
    vpln (cs "  stopping all units...") ;;
    vpln (cs "  it is now safe to power off.") ;;
    vset C_WHITE C_BLACK ;;
    emit (EOut 0xF4 0x00) ;; fail Halted
  else if streq sub (cs "sleep") then
    vset C_LCYAN C_BLACK ;; vpln (cs "poing: going to sleep (press any key)") ;; vrst ;;
    kb_get ;; mret tt
  else if bool_decide (n = []) then vpln (cs "poingctl: unit name required")
  else p ← get; unit_loop sub n [] (pu p).

Definition cmd_poingctl (args : option cstr) : M poing unit :=
  match args with
  | None | Some [] =>
      vpln (cs "usage: poingctl <status|start|stop|enable|disable|restart|reload|reboot|halt|sleep> [unit]")
  | Some a => let '(sub, p) := span_max 31 c_sp a in poingctl_do sub (skip_char c_sp p)
  end.

(** ** Lemmas *)

Definition unit_ok (u : PoingUnit) : Prop := zlen (u_name u) < 48 /\ zlen (u_desc u) < 64.

Record poing_ok (p : poing) : Prop := PoingOk {
  ok_pnu : zlen (pu p) <= POING_MAX;
  ok_units : Forall unit_ok (pu p);
  ok_pids : forall i u, pu p !! i = Some u -> u_pid u = 100 + Z.of_nat i;
  ok_names : NoDup (map u_name (pu p));
}.

(** What a command does to the table: the first unit of that name changes. *)
Fixpoint update_unit (sub n : cstr) (l : list PoingUnit) : list PoingUnit :=
  match l with
  | [] => []
  | u :: l' =>
      if streq (u_name u) n then (match unit_cmd sub u with Some (u', _) => u' | None => u end) :: l'
      else u :: update_unit sub n l'
  end.

Lemma set_pu_id p : set_pu (pu p) p = p.
Proof. by destruct p. Qed.

Lemma unit_loop_eq sub n dn td p :
  pu p = dn ++ td ->
  exists out, unit_loop sub n dn td p = Ok tt (set_pu (dn ++ update_unit sub n td) p) out.
Proof.
  revert dn. induction td as [|u td IH]; intros dn Hp; simpl.
  { rewrite <- Hp, set_pu_id. eexists. reflexivity. }
  destruct (streq (u_name u) n) eqn:E; simpl.
  - destruct (unit_cmd sub u) as [[u' m]|]; [|rewrite <- Hp, set_pu_id]; eexists; reflexivity.
  - destruct (IH (dn ++ [u])) as [out H]; [by rewrite <- app_assoc|].
    exists out. rewrite H. by rewrite <- app_assoc.
Qed.

(** The unit after the command, and the table when names are unique. *)
Definition apply_cmd (sub n : cstr) (u : PoingUnit) : PoingUnit :=
  if streq (u_name u) n then match unit_cmd sub u with Some (u', _) => u' | None => u end else u.

Lemma unit_cmd_keeps sub u u' m :
  unit_cmd sub u = Some (u', m) -> u_name u' = u_name u /\ u_desc u' = u_desc u /\ u_pid u' = u_pid u.
Proof. unfold unit_cmd. cbv zeta. repeat (case_test; [by intros [= <- _]|]). done. Qed.

Lemma apply_cmd_keeps sub n u :
  u_name (apply_cmd sub n u) = u_name u /\ u_desc (apply_cmd sub n u) = u_desc u /\
  u_pid (apply_cmd sub n u) = u_pid u.
Proof.
  unfold apply_cmd. case_test; [|done]. destruct (unit_cmd sub u) as [[u' m]|] eqn:E; [|done].
  by apply unit_cmd_keeps in E.
Qed.

Lemma update_unit_map sub n l :
  NoDup (map u_name l) -> update_unit sub n l = map (apply_cmd sub n) l.
Proof.
  induction l as [|u l IH]; simpl; [done|]. intros [Hu Hl]%NoDup_cons.
  unfold apply_cmd at 1. destruct (streq (u_name u) n) eqn:E; [|by rewrite IH].
  f_equal. apply streq_true in E as <-. symmetry. rewrite <- (map_id l) at 2. apply map_ext_in.
  intros v Hv. unfold apply_cmd. rewrite (proj2 (streq_false _ _)); [done|].
  intros He. apply Hu. rewrite <- He. apply list_elem_of_In, in_map. done.
Qed.

Lemma apply_cmd_ok sub n p : poing_ok p -> poing_ok (set_pu (map (apply_cmd sub n) (pu p)) p).
Proof.
  intros []. constructor; simpl.
  - unfold zlen in *. by rewrite length_map.
  - apply Forall_map. eapply Forall_impl; [exact ok_units0|]. intros u [? ?].
    unfold unit_ok. by destruct (apply_cmd_keeps sub n u) as (-> & -> & _).
  - intros i u. rewrite list_lookup_fmap. destruct (pu p !! i) as [v|] eqn:E; [|done]. intros [= <-].
    destruct (apply_cmd_keeps sub n v) as (_ & _ & ->). by apply ok_pids0.
  - rewrite map_map. replace (map (fun x => u_name (apply_cmd sub n x)) (pu p)) with (map u_name (pu p)); [done|].
    apply map_ext. intros u. by destruct (apply_cmd_keeps sub n u) as (-> & _).
Qed.

(** The subcommands that do not take a unit. *)
Definition global_cmd (sub : cstr) : bool :=
  existsb (streq sub) [cs "status"; cs "list"; cs "reboot"; cs "halt"; cs "shutdown"; cs "poweroff"; cs "sleep"].

Lemma poingctl_unit_eq sub n p :
  poing_ok p -> global_cmd sub = false -> n <> [] ->
  exists out, poingctl_do sub n p = Ok tt (set_pu (map (apply_cmd sub n) (pu p)) p) out.
Proof.
  intros Hp Hg Hn. unfold global_cmd in Hg. cbn [existsb] in Hg.
  repeat (apply orb_false_iff in Hg as [? Hg]).
  unfold poingctl_do.
  repeat match goal with H : streq sub _ = false |- _ => rewrite H; clear H end. rewrite bool_decide_false by done. cbn [orb]. rewrite (bind_ok get _ p p p []) by done.
  destruct (unit_loop_eq sub n [] (pu p) p eq_refl) as [out H]. rewrite H.
  eexists. simpl. by rewrite update_unit_map by apply Hp.
Qed.

(** A global command keeps the units. *)
Lemma poingctl_global_units sub n p : global_cmd sub = true -> pu (post (poingctl_do sub n p)) = pu p.
Proof.
  intros Hg. apply (wp_post (poingctl_do sub n) p (fun p' => pu p' = pu p)).
  assert (Hst : wp poingctl_status p (fun _ p' => pu p' = pu p) (fun _ p' => pu p' = pu p)).
  { unfold poingctl_status. wp_run; try done.
    apply wp_mapM; [done|]. intros u s _ Hs. wp_run; try done. destruct (u_state u); by wp_run. }
  apply existsb_exists in Hg as (x & Hx & ->%streq_true).
  repeat (destruct Hx as [<-|Hx]; [unfold poingctl_do; eval_streq; try exact Hst; by wp_run|]).
  destruct Hx as [<-|[]]. unfold poingctl_do. eval_streq. unfold kb_get. wp_run. destruct (keys p); by wp_run.
Qed.

(** ** The init system as a transition system *)

Inductive poing_reach : poing -> Prop :=
  | reach_boot ks p out : poing_init (poing_boot ks) = Ok tt p out -> poing_reach p
  | reach_cmd p sub n : poing_reach p -> poing_reach (post (poingctl_do sub n p)).

Definition initial_units : list PoingUnit :=
  Eval vm_compute in pu (post (poing_init (poing_boot []))).

Lemma poing_init_eq ks : poing_init (poing_boot ks) = Ok tt (Poing initial_units 5 ks) [].
Proof. vm_compute. reflexivity. Qed.

(** The 16 units, checked by evaluation. *)
Definition unit_row_ok (iu : nat * PoingUnit) : bool :=
  (zlen (u_name iu.2) <? 48) && (zlen (u_desc iu.2) <? 64) && (u_pid iu.2 =? 100 + Z.of_nat iu.1) &&
  (bool_decide (u_state iu.2 = US_RUNNING) || bool_decide (u_state iu.2 = US_STOPPED)).

Lemma initial_rows : forallb unit_row_ok (zip (List.seq 0 16) initial_units) = true.
Proof. vm_compute. reflexivity. Qed.

Lemma initial_row i u :
  initial_units !! i = Some u -> unit_row_ok (i, u) = true.
Proof.
  intros Hi. pose proof initial_rows as H. rewrite forallb_forall in H. apply H.
  apply list_elem_of_In, list_elem_of_lookup. exists i. apply lookup_zip_with_Some.
  exists i, u. split_and!; [done| |done]. assert (length initial_units = 16%nat) by (vm_compute; done).
  apply lookup_lt_Some in Hi. rewrite lookup_seq_lt by lia. done.
Qed.

Lemma init_units ks : exists p out, poing_init (poing_boot ks) = Ok tt p out /\ length (pu p) = 16%nat /\
  poing_ok p /\ Forall (fun u => u_state u = US_RUNNING \/ u_state u = US_STOPPED) (pu p).
Proof.
  rewrite poing_init_eq. eexists _, _. split; [reflexivity|]. split; [vm_compute; reflexivity|].
  assert (Hrow : forall i u, initial_units !! i = Some u ->
    unit_ok u /\ u_pid u = 100 + Z.of_nat i /\ (u_state u = US_RUNNING \/ u_state u = US_STOPPED)).
  { intros i u Hi. apply initial_row in Hi. unfold unit_row_ok in Hi. simpl in Hi.
    rewrite !andb_true_iff, orb_true_iff, !bool_decide_eq_true in Hi. unfold unit_ok. lia || (destruct Hi as [[[? ?] ?] ?]; split_and!; [lia|lia|lia|done]). }
  split; [|apply Forall_lookup; intros i u Hi; by apply (Hrow i u)].
  constructor; cbn [pu].
  - vm_compute. congruence.
  - apply Forall_lookup. intros i u Hi. by apply (Hrow i u).
  - intros i u Hi. by apply (Hrow i u).
  - apply (bool_decide_unpack _). vm_compute. done.
Qed.

Lemma poing_do_ok sub n p :
  poing_ok p -> poing_ok (post (poingctl_do sub n p)) /\
  (Forall (fun u => u_state u = US_RUNNING \/ u_state u = US_STOPPED) (pu p) ->
   Forall (fun u => u_state u = US_RUNNING \/ u_state u = US_STOPPED) (pu (post (poingctl_do sub n p)))) /\
  map u_name (pu (post (poingctl_do sub n p))) = map u_name (pu p).
Proof.
  intros Hp. destruct (global_cmd sub) eqn:Hg.
  { pose proof (poingctl_global_units sub n p Hg) as Hu. rewrite Hu. split; [|done].
    destruct Hp. constructor; rewrite Hu; done. }
  destruct (decide (n = [])) as [->|Hn].
  { assert (Hpost : post (poingctl_do sub [] p) = p); [|by rewrite Hpost].
    unfold global_cmd in Hg. cbn [existsb] in Hg. repeat (apply orb_false_iff in Hg as [? Hg]).
    unfold poingctl_do.
    repeat match goal with H : streq sub _ = false |- _ => rewrite H; clear H end. done. }
  destruct (poingctl_unit_eq sub n p Hp Hg Hn) as [out ->]. simpl. split; [by apply apply_cmd_ok|]. split.
  - intros Hf. apply Forall_map. eapply Forall_impl; [exact Hf|]. intros u Hu. unfold apply_cmd.
    case_test; [|done]. unfold unit_cmd. repeat case_test; simpl; auto.
  - rewrite map_map. apply map_ext. intros u. by destruct (apply_cmd_keeps sub n u) as (-> & _).
Qed.

(** ** Properties *)

(** A unit command acts on the named unit only and as its name says: [start]
    makes it running and enabled, [stop] stopped and disabled, [enable] and
    [disable] change only the flag, [restart] leaves it running, and every other
    subcommand or unknown name changes no unit; the table stays well formed. *)
Theorem poingctl_unit_effect sub n p u :
  poing_ok p -> global_cmd sub = false -> n <> [] -> u ∈ pu p ->
  exists p' out u', poingctl_do sub n p = Ok tt p' out /\ poing_ok p' /\ u' ∈ pu p' /\
    map u_name (pu p') = map u_name (pu p) /\ u_name u' = u_name u /\
    (u_state u', u_enabled u') =
      (if bool_decide (u_name u <> n) then (u_state u, u_enabled u)
       else if bool_decide (sub = cs "start") then (US_RUNNING, true)
       else if bool_decide (sub = cs "stop") then (US_STOPPED, false)
       else if bool_decide (sub = cs "enable") then (u_state u, true)
       else if bool_decide (sub = cs "disable") then (u_state u, false)
       else if bool_decide (sub = cs "restart") then (US_RUNNING, u_enabled u)
       else (u_state u, u_enabled u)).
Proof.
  intros Hp Hg Hn Hu. destruct (poingctl_unit_eq sub n p Hp Hg Hn) as [out He].
  eexists _, out, (apply_cmd sub n u). split; [exact He|]. split; [by apply apply_cmd_ok|].
  split; [by apply list_elem_of_fmap_2|]. destruct (apply_cmd_keeps sub n u) as (Hnm & _). split_and!; [|done|].
  - simpl. rewrite map_map. apply map_ext. intros v. by destruct (apply_cmd_keeps sub n v) as (-> & _).
  - unfold apply_cmd, unit_cmd, streq.
    destruct (decide (u_name u = n)) as [E|E].
    + rewrite (bool_decide_true (u_name u = n)), (bool_decide_false (u_name u <> n)) by tauto.
      repeat case_bool_decide; done.
    + rewrite (bool_decide_false (u_name u = n)), (bool_decide_true (u_name u <> n)) by done. done.
Qed.

Lemma poingctl_unit_effect_witness :
  let p := Poing initial_units 5 [] in
  exists p' out u', poingctl_do (cs "start") (cs "sshd.unit") p = Ok tt p' out /\ u' ∈ pu p' /\
    (u_state u', u_enabled u') = (US_RUNNING, true).
Proof.
  intros p.
  destruct (poingctl_unit_effect (cs "start") (cs "sshd.unit") p
     (Unit (cs "sshd.unit") (cs "SSH daemon") US_STOPPED false 113)) as (p' & out & u' & H1 & _ & H2 & _ & _ & H3).
  - destruct (init_units []) as (q & o & Hq & _ & Hok & _). rewrite poing_init_eq in Hq.
    injection Hq as <- _. exact Hok.
  - reflexivity.
  - discriminate.
  - apply (bool_decide_unpack _). vm_compute. done.
  - exists p', out, u'. split; [exact H1|]. split; [exact H2|exact H3].
Defined.

(** In every state the init system can reach from boot by any sequence of
    [poingctl] commands, the table holds the same 16 units with their names and
    process ids, unique and within their buffers, and no unit is ever left
    starting or failed. *)
Theorem poing_reachable_ok p :
  poing_reach p ->
  poing_ok p /\ length (pu p) = 16%nat /\
  Forall (fun u => u_state u = US_RUNNING \/ u_state u = US_STOPPED) (pu p).
Proof.
  induction 1 as [ks p out H|p sub n _ (IH1 & IH2 & IH3)].
  - destruct (init_units ks) as (q & o & Hq & Hl & Hok & Hs). rewrite Hq in H. injection H as <- _.
    split; [exact Hok|]. split; [exact Hl|exact Hs].
  - destruct (poing_do_ok sub n p IH1) as (H1 & H2 & H3). split_and!; [done| |by apply H2].
    rewrite <- (length_map u_name), H3, length_map. done.
Qed.

Lemma poing_reachable_ok_witness :
  let p := post (poingctl_do (cs "stop") (cs "poing-net.unit") (Poing initial_units 5 [])) in
  length (pu p) = 16%nat.
Proof.
  intros p. refine (proj1 (proj2 (poing_reachable_ok p _))). apply reach_cmd.
  exact (reach_boot [] _ [] (poing_init_eq [])).
Defined.
