(* ===== verification/Users.v ===== *)
(** * Users and groups ([kernel/users.h])

    At most 16 users and 16 groups; creating a user also creates its home
    directory in [pigfs].  [ukeys] is the sequence of key codes the keyboard
    will deliver to the password prompt. *)

From Stdlib Require Import ZArith Lia.
From stdpp Require Import base numbers list strings gmap.
From S2P Require Import Prelude CLib Console PigFs PigFsCmd.

Notation MAX_U := 16 (only parsing).
Notation MAX_G := 16 (only parsing).

Record User := MkUser { name : cstr; pass : cstr; uid : Z; gid : Z; home : cstr; active : bool }.

(** [mem] lists the members below [nm], as user indices. *)
Record Group := MkGroup { g_name : cstr; g_gid : Z; mem : list Z }.

Record ust := Ust {
  users : list User; groups : list Group; cur_uid : Z; cur_user : cstr; ufs : fs; ukeys : list Z;
}.
Definition set_users l s := Ust l (groups s) (cur_uid s) (cur_user s) (ufs s) (ukeys s).
Definition set_groups l s := Ust (users s) l (cur_uid s) (cur_user s) (ufs s) (ukeys s).
Definition set_ufs f s := Ust (users s) (groups s) (cur_uid s) (cur_user s) f (ukeys s).
Definition set_ukeys k s := Ust (users s) (groups s) (cur_uid s) (cur_user s) (ufs s) k.

Definition in_fs {A} (m : M fs A) : M ust A := zoom ufs set_ufs m.

(** [m=memfs_create(p); if(m){kcp(m->content,c);}], with the directory flag when
    asked for. *)
Definition create_with (p c : cstr) (dir : bool) : M fs unit :=
  i ← memfs_create p;
  match i with
  | None => mret tt
  | Some i => (if dir then put_is_dir i true else mret tt) ;; put_content i c
  end.

Definition skel_lashrc : cstr :=
  cs "# .lashrc - larpshell config" ++ [c_nl] ++ cs "alias ll='ls -la'" ++ [c_nl] ++
  cs "alias cls='clear'" ++ [c_nl].
Definition skel_profile : cstr :=
  cs "# .lashrc-profile" ++ [c_nl] ++ cs "[ -f ~/.lashrc ] && . ~/.lashrc" ++ [c_nl].

Definition users_init : M ust unit :=
  modify (set_users [MkUser (cs "root") (cs "toor") 0 0 (cs "/") true]) ;;
  modify (set_groups [MkGroup (cs "root") 0 [0]; MkGroup (cs "wheel") 1 [0]; MkGroup (cs "users") 2 []]) ;;
  in_fs (create_with (cs "/etc/skel/") (cs "[dir]") true ;;
         create_with (cs "/etc/skel/.lashrc") skel_lashrc false ;;
         create_with (cs "/etc/skel/.lashrc-profile") skel_profile false).

Definition ufind (s : ust) (n : cstr) : option nat := find_index (fun u => active u && streq (name u) n) (users s).
Definition gfind (s : ust) (n : cstr) : option nat := find_index (fun g => streq (g_name g) n) (groups s).

(** Copy a skeleton file to the new home. *)
Definition copy_skel (src dst : cstr) : M fs unit :=
  i ← memfs_find src;
  match i with
  | None => mret tt
  | Some i =>
      fits 128 dst ;;
      j ← memfs_create dst;
      match j with
      | None => mret tt
      | Some j => s ← get; put_content j (mf_content (memfs_at s i))
      end
  end.

Definition add_member (gi : nat) (u : Z) : M ust unit :=
  modify (fun s => set_groups (alter (fun g => MkGroup (g_name g) (g_gid g) (mem g ++ [u])) gi (groups s)) s).

Definition cmd_adduser (arg : option cstr) : M ust unit :=
  if no_arg arg then vpln (cs "usage: adduser <name>")
  else
    let n := the_arg arg in
    s ← get;
    match ufind s n with
    | Some _ => vpln (cs "adduser: user exists")
    | None =>
        if MAX_U <=? zlen (users s) then vpln (cs "adduser: too many users")
        else
          fits 32 n ;;
          let home := cs "/home/" ++ n ++ cs "/" in
          fits 64 home ;;
          let nu := zlen (users s) in
          modify (set_users (users s ++ [MkUser n (cs "changeme") (1000 + nu) 2 home true])) ;;
          (match gfind s (cs "users") with
           | Some gi =>
               match groups s !! gi with
               | Some g => if zlen (mem g) <? MAX_U then add_member gi nu else mret tt
               | None => mret tt
               end
           | None => mret tt
           end) ;;
          fits 96 home ;;
          in_fs (create_with home (cs "[dir]") true) ;;
          in_fs (copy_skel (cs "/etc/skel/.lashrc") (home ++ cs ".lashrc")) ;;
          in_fs (copy_skel (cs "/etc/skel/.lashrc-profile") (home ++ cs ".lashrc-profile")) ;;
          vps (cs "adduser: created '") ;; vps n ;; vpln (cs "'") ;;
          vps (cs "home: ") ;; vpln home ;;
          s ← get;
          let mn := kia (memfs_n (ufs s)) in
          vps (cs "total memfs entries: ") ;; fits 8 mn ;; vpln mn ;;
          fits 128 (home ++ cs ".lashrc") ;;
          tf ← in_fs (memfs_find (home ++ cs ".lashrc"));
          (match tf with
           | Some _ => vpln (cs ".lashrc: OK (copied from /etc/skel/)")
           | None => vpln (cs ".lashrc: FAILED")
           end) ;;
          vps (cs "files: .lashrc .lashrc-profile copied from /etc/skel/" ++ [c_nl])
    end.

(** The password prompt: the text and the keys left, [None] while waiting. *)
Fixpoint read_password (ks : list Z) (np : cstr) : option (cstr * list Z) :=
  match ks with
  | [] => None
  | c :: ks' =>
      if c =? c_nl then Some (np, ks')
      else if (c =? c_bs) && (0 <? zlen np) then read_password ks' (take (length np - 1) np)
      else if (32 <=? c) && (c <? 127) && (zlen np <? 63) then read_password ks' (np ++ [c])
      else read_password ks' np
  end.

Definition user_or_current (s : ust) (n : option cstr) : cstr :=
  if no_arg n then cur_user s else the_arg n.

Definition cmd_passwd (n : option cstr) : M ust unit :=
  s ← get;
  let u := user_or_current s n in
  match ufind s u with
  | None => vpln (cs "passwd: user not found")
  | Some i =>
      vps (cs "Changing password for ") ;; vpln u ;;
      vps (cs "New password: ") ;; vrst ;;
      match read_password (ukeys s) [] with
      | None => fail Blocked
      | Some (np, ks) =>
          modify (set_ukeys ks) ;;
          vpc c_nl ;;
          if zlen np <? 1 then vpln (cs "passwd: password unchanged")
          else
            modify (fun s => set_users (alter (fun u => MkUser (name u) np (uid u) (gid u) (home u) (active u)) i (users s)) s) ;;
            vpln (cs "passwd: password updated successfully")
      end
  end.

Definition cmd_usermod (a : option cstr) : M ust unit :=
  if no_arg a then vpln (cs "usage: usermod -G <group> <user>")
  else
    let p := the_arg a in
    if (cget p 0 =? c_dash) && (cget p 1 =? 71) then
      let '(g, p) := span_max 31 c_sp (skip_char c_sp (drop 2 p)) in
      let p := skip_char c_sp p in
      s ← get;
      match ufind s p with
      | None => vpln (cs "usermod: user not found")
      | Some ui =>
          match gfind s g with
          | None => vpln (cs "usermod: group not found")
          | Some gi =>
              in_array MAX_U (match groups s !! gi with Some gr => zlen (mem gr) | None => 0 end) ;;
              add_member gi (Z.of_nat ui) ;;
              vps (cs "usermod: added '") ;; vps p ;; vps (cs "' to '") ;; vps g ;; vpln (cs "'")
          end
      end
    else vpln (cs "usermod: use -G flag").

Definition cmd_groupadd (arg : option cstr) : M ust unit :=
  if no_arg arg then vpln (cs "usage: groupadd <name>")
  else
    let n := the_arg arg in
    s ← get;
    if MAX_G <=? zlen (groups s) then vpln (cs "groupadd: too many groups")
    else
      fits 32 n ;;
      modify (set_groups (groups s ++ [MkGroup n (200 + zlen (groups s)) []])) ;;
      vps (cs "groupadd: created '") ;; vps n ;; vpln (cs "'").

Definition cmd_groups (n : option cstr) : M ust unit :=
  s ← get;
  let u := user_or_current s n in
  match ufind s u with
  | None => vpln (cs "groups: not found")
  | Some ui =>
      vps u ;; vps (cs " : ") ;;
      mapM_ (fun g => if existsb (fun j => j =? Z.of_nat ui) (mem g) then vps (g_name g) ;; vpc c_sp else mret tt)
            (groups s) ;;
      vpc c_nl
  end.

Definition cmd_id : M ust unit :=
  s ← get;
  vset C_LCYAN C_BLACK ;; fits 8 (kia (cur_uid s)) ;;
  vps (cs "uid=") ;; vps (kia (cur_uid s)) ;; vps (cs "(") ;; vps (cur_user s) ;;
  vps (cs ") gid=0(root) groups=0(root),1(wheel)" ++ [c_nl]) ;; vrst.

(** ** Invariant *)

Definition user_ok (u : User) : Prop := zlen (name u) < 32 /\ zlen (pass u) < 64 /\ zlen (home u) < 64.
Definition group_ok (nu : Z) (g : Group) : Prop :=
  zlen (g_name g) < 32 /\ zlen (mem g) <= MAX_U /\ Forall (fun i => 0 <= i < nu) (mem g).

Record users_ok (s : ust) : Prop := UsersOk {
  ok_nu : zlen (users s) <= MAX_U;
  ok_ng : zlen (groups s) <= MAX_G;
  ok_root : exists r, users s !! 0%nat = Some r /\ active r = true /\ name r = cs "root";
  ok_users : Forall user_ok (users s);
  ok_groups : Forall (group_ok (zlen (users s))) (groups s);
  ok_uids : forall i u, users s !! i = Some u -> uid u = if decide (i = 0%nat) then 0 else 1000 + Z.of_nat i;
  ok_names : forall i j u v, users s !! i = Some u -> users s !! j = Some v ->
    active u = true -> active v = true -> name u = name v -> i = j;
  ok_fs : fs_ok (ufs s);
}.

(** ** Lemmas *)

Lemma find_index_snoc {A} (f : A -> bool) l x :
  find_index f l = None -> f x = true -> find_index f (l ++ [x]) = Some (length l).
Proof.
  intros Hl Hx. induction l as [|y l IH]; simpl in *; [by rewrite Hx|].
  destruct (f y); [done|]. destruct (find_index f l); [done|]. by rewrite IH.
Qed.

Lemma update_any_ok f i g :
  fs_ok f -> (forall m, mf_path (g m) = mf_path m /\ (mf_used (g m) = true -> mf_used m = true) /\ (slot_ok m -> slot_ok (g m))) ->
  fs_ok (set_memfs (alter g i (memfs f)) f).
Proof.
  intros Hf Hg. destruct (memfs f !! i) as [m|] eqn:E.
  - pose proof (ok_slots f Hf) as Hsl. eapply Forall_lookup_1 in Hsl; [|exact E].
    destruct (Hg m) as (H1 & H2 & H3). eapply update_ok; eauto.
  - replace (alter g i (memfs f)) with (memfs f); [by destruct f|].
    apply list_eq. intros j. destruct (decide (i = j)) as [<-|Hne].
    + rewrite list_lookup_alter, decide_True by done. by rewrite E.
    + by rewrite list_lookup_alter_ne.
Qed.

Definition keeps_fs {A} (m : M fs A) : Prop :=
  forall f, fs_ok f -> wp m f (fun _ => fs_ok) (fun _ => fs_ok).

Lemma put_content_keeps i c : keeps_fs (put_content i c).
Proof.
  intros f Hf. unfold put_content, memfs_update. wp_run; [|done]. apply update_any_ok; [done|].
  intros m. split_and!; [done|done|]. by intros [? ?].
Qed.
Lemma put_is_dir_keeps i b : keeps_fs (put_is_dir i b).
Proof.
  intros f Hf. unfold put_is_dir, memfs_update. wp_run. by apply update_any_ok.
Qed.
Lemma create_keeps p : keeps_fs (memfs_create p).
Proof. intros f Hf. by apply wp_create. Qed.

Lemma keeps_bind {A B} (m : M fs A) (k : A -> M fs B) :
  keeps_fs m -> (forall a, keeps_fs (k a)) -> keeps_fs (m ≫= k).
Proof.
  intros Hm Hk f Hf. apply wp_bind. eapply wp_mono; [by apply Hm| |done]. intros a f' Hf'. by apply Hk.
Qed.

Lemma create_with_keeps p c d : keeps_fs (create_with p c d).
Proof.
  apply keeps_bind; [apply create_keeps|]. intros [i|]; [|by intros f Hf; wp_run].
  apply keeps_bind; [destruct d; [apply put_is_dir_keeps|by intros f Hf; wp_run]|].
  intros _. apply put_content_keeps.
Qed.

Lemma copy_skel_keeps a b : keeps_fs (copy_skel a b).
Proof.
  apply keeps_bind; [intros f Hf; by apply wp_memfs_find|]. intros [i|]; [|by intros f Hf; wp_run].
  apply keeps_bind; [intros f Hf; by wp_run|]. intros _.
  apply keeps_bind; [apply create_keeps|]. intros [j|]; [|by intros f Hf; wp_run].
  apply keeps_bind; [intros f Hf; by wp_run|]. intros s. apply put_content_keeps.
Qed.

(** A file system step inside a user command. *)
Lemma wp_in_fs {A} (m : M fs A) s (Q : A -> ust -> Prop) E :
  keeps_fs m -> fs_ok (ufs s) ->
  (forall a f, fs_ok f -> Q a (set_ufs f s)) -> (forall e f, fs_ok f -> E e (set_ufs f s)) ->
  wp (in_fs m) s Q E.
Proof.
  intros Hm Hs HQ HE. unfold in_fs. apply wp_zoom. eapply wp_mono; [by apply Hm| |]; auto.
Qed.

Lemma set_ufs_ok f s : users_ok s -> fs_ok f -> users_ok (set_ufs f s).
Proof. by intros [] ?. Qed.

Lemma ufind_None s n i u : ufind s n = None -> users s !! i = Some u -> active u = true -> name u <> n.
Proof.
  intros Hf Hi Ha He. apply find_index_None in Hf. eapply Forall_lookup_1 in Hf; [|exact Hi].
  simpl in Hf. by rewrite Ha, He, streq_refl in Hf.
Qed.

Lemma group_ok_mono nu nu' g : nu <= nu' -> group_ok nu g -> group_ok nu' g.
Proof. intros Hle (? & ? & H). split_and!; [done|done|]. eapply Forall_impl; [exact H|]. simpl. lia. Qed.

Lemma add_user_ok s u :
  users_ok s -> zlen (users s) < MAX_U -> ufind s (name u) = None -> user_ok u ->
  uid u = 1000 + zlen (users s) -> users_ok (set_users (users s ++ [u]) s).
Proof.
  intros Hs Hn Hf Hu Huid. pose proof Hs as []. destruct ok_root0 as (r & Hr & Hr2). constructor; cbn [users groups set_users ufs]; try done.
  - rewrite zlen_app, zlen_cons. change (zlen (@nil User)) with 0. lia.
  - exists r. split; [by apply lookup_app_l_Some|done].
  - apply Forall_app; split; [done|]. by apply Forall_singleton.
  - eapply Forall_impl; [exact ok_groups0|]. intros g. apply group_ok_mono. rewrite zlen_app.
    pose proof (zlen_nonneg [u]). lia.
  - intros i v [Hi|[Hi Hv]]%lookup_app_Some; [by apply ok_uids0|].
    apply list_lookup_singleton_Some in Hv as [Hi0 <-]. unfold zlen in *.
    destruct (users s); [done|]. rewrite decide_False by (simpl in *; lia). rewrite Huid. simpl in *. lia.
  - intros i j v w Hi Hj Hv Hw He. apply lookup_app_Some in Hi, Hj.
    destruct Hi as [Hi|[Hi1 Hi2]], Hj as [Hj|[Hj1 Hj2]].
    + eauto.
    + apply list_lookup_singleton_Some in Hj2 as [_ <-]. by destruct (ufind_None s (name u) i v Hf Hi Hv).
    + apply list_lookup_singleton_Some in Hi2 as [_ <-]. by destruct (ufind_None s (name u) j w Hf Hj Hw).
    + apply list_lookup_singleton_Some in Hi2 as [? _]. apply list_lookup_singleton_Some in Hj2 as [? _]. lia.
Qed.

Lemma add_member_ok s gi u g :
  users_ok s -> groups s !! gi = Some g -> zlen (mem g) < MAX_U -> 0 <= u < zlen (users s) ->
  users_ok (set_groups (alter (fun g => MkGroup (g_name g) (g_gid g) (mem g ++ [u])) gi (groups s)) s).
Proof.
  intros [] Hg Hm Hu. constructor; cbn [users groups set_groups ufs]; try done.
  - unfold zlen. by rewrite length_alter.
  - apply Forall_alter; [done|]. intros x Hx (? & ? & ?). simplify_eq. split_and!; cbn [mem g_name]; [done| |].
    + rewrite zlen_app, zlen_cons. change (zlen (@nil Z)) with 0. lia.
    + apply Forall_app; split; [done|]. by apply Forall_singleton.
Qed.

Lemma read_password_len ks np r : zlen np <= 63 -> read_password ks np = Some r -> zlen r.1 <= 63.
Proof.
  revert np. induction ks as [|c ks IH]; intros np Hn; simpl; [done|].
  repeat case_test; eauto.
  - by intros [= <-].
  - apply IH. unfold zlen in *. rewrite length_take. lia.
  - apply IH. rewrite zlen_app, zlen_cons. change (zlen (@nil Z)) with 0. lia.
Qed.

Definition keeps_users (m : M ust unit) : Prop :=
  forall s, users_ok s -> wp m s (fun _ => users_ok) (fun _ => users_ok).

Lemma gfind_lookup s n gi : gfind s n = Some gi -> exists g, groups s !! gi = Some g.
Proof. intros (g & Hg & _)%find_index_Some. eauto. Qed.

(** The file system part of [adduser], after the tables are updated. *)
Definition adduser_files (home n : cstr) : M ust unit :=
  fits 96 home ;;
  in_fs (create_with home (cs "[dir]") true) ;;
  in_fs (copy_skel (cs "/etc/skel/.lashrc") (home ++ cs ".lashrc")) ;;
  in_fs (copy_skel (cs "/etc/skel/.lashrc-profile") (home ++ cs ".lashrc-profile")) ;;
  vps (cs "adduser: created '") ;; vps n ;; vpln (cs "'") ;;
  vps (cs "home: ") ;; vpln home ;;
  s ← get;
  let mn := kia (memfs_n (ufs s)) in
  vps (cs "total memfs entries: ") ;; fits 8 mn ;; vpln mn ;;
  fits 128 (home ++ cs ".lashrc") ;;
  tf ← in_fs (memfs_find (home ++ cs ".lashrc"));
  (match tf with
   | Some _ => vpln (cs ".lashrc: OK (copied from /etc/skel/)")
   | None => vpln (cs ".lashrc: FAILED")
   end) ;;
  vps (cs "files: .lashrc .lashrc-profile copied from /etc/skel/" ++ [c_nl]).

(** Everything but the file system is unchanged. *)
Definition same_tables (s s' : ust) : Prop := exists f, fs_ok f /\ s' = set_ufs f s.

Lemma adduser_files_wp home n s :
  fs_ok (ufs s) -> wp (adduser_files home n) s (fun _ => same_tables s) (fun _ => same_tables s).
Proof.
  intros Hs. assert (H0 : same_tables s s) by (exists (ufs s); by destruct s).
  unfold adduser_files. wp_step. wp_step; [|done]. wp_step.
  apply wp_in_fs; [apply create_with_keeps|done| |by intros e f Hf; exists f]. intros _ f1 Hf1. wp_step.
  apply wp_in_fs; [apply copy_skel_keeps|done| |by intros e f Hf; exists f]. intros _ f2 Hf2. wp_step.
  apply wp_in_fs; [apply copy_skel_keeps|done| |by intros e f Hf; exists f]. intros _ f3 Hf3.
  assert (H3 : same_tables s (set_ufs f3 (set_ufs f2 (set_ufs f1 s)))) by (by exists f3).
  wp_run; try done. unfold in_fs. apply wp_zoom. apply wp_memfs_find; [done|].
  assert (H4 : same_tables s (set_ufs (ufs (set_ufs f3 (set_ufs f2 (set_ufs f1 s)))) (set_ufs f3 (set_ufs f2 (set_ufs f1 s)))))
    by (by exists f3).
  wp_run; done.
Qed.

Lemma same_tables_ok s s' : users_ok s -> same_tables s s' -> users_ok s'.
Proof. intros Hs (f & Hf & ->). by apply set_ufs_ok. Qed.

(** [adduser] in its successful case, up to the file system. *)
Lemma adduser_new s n :
  users_ok s -> n <> [] -> ufind s n = None -> zlen (users s) < MAX_U -> zlen n < 32 ->
  let home := cs "/home/" ++ n ++ cs "/" in
  let u := MkUser n (cs "changeme") (1000 + zlen (users s)) 2 home true in
  exists s1, users s1 = users s ++ [u] /\ users_ok s1 /\
    (forall gi g, gfind s (cs "users") = Some gi -> groups s !! gi = Some g -> zlen (mem g) < MAX_U ->
       groups s1 !! gi = Some (MkGroup (g_name g) (g_gid g) (mem g ++ [zlen (users s)]))) /\
    wp (cmd_adduser (Some n)) s (fun _ => same_tables s1) (fun _ => same_tables s1).
Proof.
  intros Hs Hn Hf Hlt Hl home u. pose proof (zlen_nonneg (users s)).
  assert (Hhome : zlen home < 64) by (unfold home; rewrite !zlen_app; change (zlen (cs "/home/")) with 6;
    change (zlen (cs "/")) with 1; lia).
  set (sa := set_users (users s ++ [u]) s).
  assert (Hsa : users_ok sa) by (by apply add_user_ok).
  set (grow := match gfind s (cs "users") with
           | Some gi => match groups s !! gi with
               | Some g => if zlen (mem g) <? MAX_U then Some gi else None | None => None end
           | None => None end).
  set (s1 := match grow with
             | Some gi => set_groups (alter (fun g => MkGroup (g_name g) (g_gid g) (mem g ++ [zlen (users s)])) gi (groups sa)) sa
             | None => sa end).
  assert (Hs1 : users_ok s1).
  { unfold s1. destruct grow as [gi|] eqn:E; [|done]. unfold grow in E.
    destruct (gfind s (cs "users")) as [gi'|]; [|done]. destruct (groups s !! gi') as [g|] eqn:Eg; [|done].
    destruct (Z.ltb_spec (zlen (mem g)) MAX_U); [|done]. simplify_eq.
    eapply add_member_ok; [done|exact Eg|done|]. unfold sa. cbn [users set_users].
    rewrite zlen_app, zlen_cons. change (zlen (@nil User)) with 0. lia. }
  exists s1. split_and!; [|done| |].
  - unfold s1. by destruct grow.
  - intros gi g Hg Hgi Hm. unfold s1, grow. rewrite Hg, Hgi, (proj2 (Z.ltb_lt _ _) Hm).
    cbn [groups set_groups]. rewrite list_lookup_alter, decide_True by done.
    cbn [sa set_users groups]. by rewrite Hgi.
  - unfold cmd_adduser. replace (no_arg (Some n)) with false by (by destruct n).
    change (the_arg (Some n)) with n. cbv zeta. wp_step. wp_step. rewrite Hf.
    rewrite (proj2 (Z.leb_gt _ _) Hlt). wp_step. wp_step; [|lia]. wp_step. wp_step; [|unfold home in Hhome; lia].
    wp_step. wp_step. fold home. fold u. fold sa. wp_step.
    assert (Hg : wp (match gfind s (cs "users") with
           | Some gi => match groups s !! gi with
               | Some g => if zlen (mem g) <? MAX_U then add_member gi (zlen (users s)) else mret tt
               | None => mret tt end
           | None => mret tt end) sa (fun _ s' => s' = s1) (fun _ _ => False)).
    { unfold s1, grow, add_member. repeat case_match; by wp_run. }
    eapply wp_mono; [exact Hg| |done]. intros _ s' ->.
    apply (adduser_files_wp home n s1). apply Hs1.
Qed.

Lemma adduser_keeps arg : keeps_users (cmd_adduser arg).
Proof.
  intros s Hs. destruct (no_arg arg) eqn:Ea; [unfold cmd_adduser; rewrite Ea; by wp_run|].
  destruct arg as [n|]; [|done]. simpl in Ea. apply bool_decide_eq_false in Ea.
  destruct (ufind s n) as [i|] eqn:Ef.
  { unfold cmd_adduser. replace (no_arg (Some n)) with false by (by destruct n).
    change (the_arg (Some n)) with n. cbv zeta. wp_step. wp_step. rewrite Ef. by wp_run. }
  destruct (Z.lt_ge_cases (zlen (users s)) MAX_U).
  2:{ unfold cmd_adduser. replace (no_arg (Some n)) with false by (by destruct n).
      change (the_arg (Some n)) with n. cbv zeta. wp_step. wp_step. rewrite Ef.
      rewrite (proj2 (Z.leb_le _ _)) by done. by wp_run. }
  destruct (Z.lt_ge_cases (zlen n) 32).
  - destruct (adduser_new s n) as (s1 & _ & Hs1 & _ & Hw); try done.
    eapply wp_mono; [exact Hw| |]; simpl; intros; by eapply same_tables_ok.
  - unfold cmd_adduser. replace (no_arg (Some n)) with false by (by destruct n).
    change (the_arg (Some n)) with n. cbv zeta. wp_step. wp_step. rewrite Ef.
    rewrite (proj2 (Z.leb_gt _ _)) by done. wp_step. wp_step; [lia|done].
Qed.

Lemma passwd_keeps n : keeps_users (cmd_passwd n).
Proof.
  intros s Hs. unfold cmd_passwd. cbv zeta. wp_run; try done.
  match goal with H : read_password _ _ = Some ?r |- _ => destruct r as [np ks]; rename H into E end.
  apply read_password_len in E; [|rewrite zlen_nil; lia]. simpl in E.
  assert (Hk : users_ok (set_ukeys ks s)) by (by destruct Hs).
  wp_run; try done. destruct Hk. cbn [users groups ufs set_ukeys] in *.
  assert (Hal : forall j v,
    alter (fun u => MkUser (Users.name u) np (uid u) (gid u) (home u) (active u)) n0 (users s) !! j = Some v ->
    exists w, users s !! j = Some w /\ uid v = uid w /\ Users.name v = Users.name w /\ active v = active w).
  { intros j v. destruct (decide (n0 = j)) as [<-|Hne].
    - rewrite list_lookup_alter, decide_True by done. destruct (users s !! n0) as [w|]; [|done].
      intros [= <-]. exists w. done.
    - rewrite list_lookup_alter_ne by done. eauto. }
  constructor; cbn [users groups ufs set_users set_ukeys]; try done.
  - unfold zlen. by rewrite length_alter.
  - destruct ok_root0 as (r & Hr & Ha & Hn).
    destruct (alter (fun u => MkUser (Users.name u) np (uid u) (gid u) (home u) (active u)) n0 (users s) !! 0%nat)
      as [v|] eqn:Ev.
    + destruct (Hal 0%nat v Ev) as (w & Hw & _ & H1 & H2). simplify_eq. exists v. rewrite H1, H2. done.
    + apply lookup_ge_None in Ev. rewrite length_alter in Ev. apply lookup_lt_Some in Hr. lia.
  - apply Forall_alter; [done|]. intros u _ (? & ? & ?). split_and!; cbn [Users.name pass home]; [done|lia|done].
  - unfold zlen. by rewrite length_alter.
  - intros i u Hi. destruct (Hal i u Hi) as (w & Hw & -> & _). by apply ok_uids0.
  - intros i j u v Hi Hj Hu Hv He. destruct (Hal i u Hi) as (u' & Hu' & _ & H1 & H2).
    destruct (Hal j v Hj) as (v' & Hv' & _ & H3 & H4). eapply ok_names0; eauto; congruence.
Qed.

Lemma usermod_keeps a : keeps_users (cmd_usermod a).
Proof.
  intros s Hs. unfold cmd_usermod. cbv zeta. wp_run; try done.
  destruct (span_max 31 c_sp _) as [g p]. wp_run; try done.
  destruct (gfind_lookup s g n0) as [gr Hg]; [done|]. rewrite Hg in *.
  unfold add_member. wp_run. eapply add_member_ok; eauto; [lia|].
  apply find_index_Some in Heqo as (u & Hu & _). apply lookup_lt_Some in Hu. unfold zlen. lia.
Qed.

Lemma groupadd_keeps a : keeps_users (cmd_groupadd a).
Proof.
  intros s Hs. unfold cmd_groupadd. cbv zeta. wp_run; try done. bool_to_prop. destruct Hs.
  constructor; cbn [users groups ufs set_groups]; try done.
  - rewrite zlen_app, zlen_cons. change (zlen (@nil Group)) with 0. lia.
  - apply Forall_app; split; [done|]. apply Forall_singleton. split_and!; cbn [g_name mem]; [done| |constructor].
    rewrite zlen_nil. lia.
Qed.

(** The account commands of the shell. *)
Inductive account_cmd := Adduser (n : option cstr) | Passwd (n : option cstr)
  | Usermod (a : option cstr) | Groupadd (n : option cstr).
Definition run_account (c : account_cmd) : M ust unit :=
  match c with
  | Adduser n => cmd_adduser n | Passwd n => cmd_passwd n
  | Usermod a => cmd_usermod a | Groupadd n => cmd_groupadd n
  end.

Definition ust_boot (f : fs) (ks : list Z) : ust := Ust [] [] 0 (cs "root") f ks.

Lemma users_init_ok f ks : fs_ok f -> users_ok (post (users_init (ust_boot f ks))).
Proof.
  intros Hf. apply (wp_post users_init). unfold users_init. wp_run.
  set (s := set_groups _ _).
  assert (Hs : users_ok s).
  { constructor; unfold s; cbn [users groups set_groups set_users ust_boot ufs];
      try done; try (unfold zlen; simpl; lia).
    - eexists. split; [reflexivity|done].
    - by apply Forall_singleton.
    - repeat constructor; unfold zlen; simpl; lia.
    - intros i u [-> <-]%list_lookup_singleton_Some. done.
    - intros i j u v [-> _]%list_lookup_singleton_Some [-> _]%list_lookup_singleton_Some. done. }
  apply wp_in_fs; [|done| |]; try (intros; by apply set_ufs_ok).
  apply keeps_bind; [apply create_with_keeps|]. intros _.
  apply keeps_bind; [apply create_with_keeps|]. intros _. apply create_with_keeps.
Qed.

(** ** Properties *)

(** The account tables stay sound: after start-up and any sequence of account
    commands, successful or not, there are at most 16 users and 16 groups, active
    user names are unique, user ids are distinct and determined by the slot, the
    root account is still there, every group member is an existing user, every
    string fits its field and the file system is well formed. *)
Theorem account_commands_ok f ks cmds :
  fs_ok f ->
  users_ok (fold_left (fun s c => post (run_account c s)) cmds (post (users_init (ust_boot f ks)))).
Proof.
  intros Hf. pose proof (users_init_ok f ks Hf) as Hs. revert Hs.
  generalize (post (users_init (ust_boot f ks))). induction cmds as [|c cmds IH]; intros s Hs; simpl; [done|].
  apply IH. apply (wp_post (run_account c)).
  destruct c; simpl; [by apply adduser_keeps|by apply passwd_keeps|by apply usermod_keeps|by apply groupadd_keeps].
Qed.

Lemma account_commands_ok_witness :
  users_ok (fold_left (fun s c => post (run_account c s))
    [Adduser (Some (cs "pig")); Usermod (Some (cs "-G wheel pig")); Passwd (Some (cs "pig"))]
    (post (users_init (ust_boot fs_sample [112; 119; 10])))).
Proof. apply account_commands_ok. apply fs_sample_ok. Defined.

(** [adduser] of a new name with room in the table registers exactly that
    user: the other accounts are unchanged, the new one is found under its name,
    with a user id nobody else has, a home below /home and membership of the
    group "users" while that group has room. *)
Theorem adduser_correct s n :
  users_ok s -> n <> [] -> ufind s n = None -> zlen (users s) < 16 -> zlen n < 32 ->
  let s' := post (cmd_adduser (Some n) s) in
  let u := MkUser n (cs "changeme") (1000 + zlen (users s)) 2 (cs "/home/" ++ n ++ cs "/") true in
  users s' = users s ++ [u] /\ ufind s' n = Some (length (users s)) /\ users_ok s' /\
  (forall v, v ∈ users s -> uid v <> uid u) /\
  (forall gi g, gfind s (cs "users") = Some gi -> groups s !! gi = Some g -> zlen (mem g) < 16 ->
     exists g', groups s' !! gi = Some g' /\ mem g' = mem g ++ [zlen (users s)]).
Proof.
  intros Hs Hn Hf Hlt Hl s' u.
  destruct (adduser_new s n Hs Hn Hf Hlt Hl) as (s1 & Hu1 & Hs1 & Hg1 & Hw).
  apply (wp_post (cmd_adduser (Some n))) in Hw. fold s' in Hw. destruct Hw as (f & Hf' & Hs').
  assert (Hus : users s' = users s ++ [u]) by (rewrite Hs'; exact Hu1).
  split_and!; [done| |rewrite Hs'; by apply set_ufs_ok| |].
  - unfold ufind in *. rewrite Hus. apply find_index_snoc; [done|]. simpl. by rewrite streq_refl.
  - intros v [i Hi]%list_elem_of_lookup. rewrite (ok_uids s Hs i v Hi). simpl. apply lookup_lt_Some in Hi.
    unfold zlen. destruct (decide (i = 0%nat)); lia.
  - intros gi g Hg Hgi Hm. eexists. rewrite Hs'. cbn [groups set_ufs]. split; [by apply Hg1|done].
Qed.

Lemma adduser_correct_witness :
  let s := post (users_init (ust_boot fs_sample [])) in
  ufind (post (cmd_adduser (Some (cs "pig")) s)) (cs "pig") = Some 1%nat.
Proof.
  intros s.
  refine (proj1 (proj2 (adduser_correct s (cs "pig") _ _ _ _ _))).
  - apply users_init_ok, fs_sample_ok.
  - discriminate.
  - vm_compute. reflexivity.
  - vm_compute. reflexivity.
  - vm_compute. reflexivity.
Defined.

(** [usermod] has no bound on the number of members of a group: with 16 members
    the next one is written past the array. *)
Definition full_group : ust :=
  Ust [MkUser (cs "root") (cs "toor") 0 0 (cs "/") true] [MkGroup (cs "wheel") 1 (replicate 16 0)] 0 (cs "root") fs_sample [].
Lemma usermod_overflows_group :
  result (cmd_usermod (Some (cs "-G wheel root")) full_group) = inr OutOfBounds.
Proof. reflexivity. Qed.

(** [groupadd] does not look for an existing group of the same name. *)
Lemma groupadd_accepts_duplicates :
  map g_name (groups (post (cmd_groupadd (Some (cs "wheel")) full_group))) = [cs "wheel"; cs "wheel"].
Proof. reflexivity. Qed.
