(* ===== verification/Sha256.v ===== *)
(** * SHA-256 and HMAC ([crypto/sha256.h])

    The streaming implementation: a 64-byte chunk buffer, a compression function
    that keeps the message schedule in 16 words, and HMAC on top.  The reference
    is the standard's: pad, cut into blocks, compress with a 64-word schedule. *)

From Stdlib Require Import ZArith Lia.
From stdpp Require Import base numbers list list_numbers strings.
From S2P Require Import Prelude CLib.

(** ** Implementation *)

Definition sha256_rr (v c : Z) : Z := Z.lor (Z.shiftr v c) (u32 (Z.shiftl v (32 - c))).

(** The round constants, in decimal. *)
Definition K : list Z :=
  [1116352408;1899447441;3049323471;3921009573;961987163;1508970993;2453635748;2870763221;
   3624381080;310598401;607225278;1426881987;1925078388;2162078206;2614888103;3248222580;
   3835390401;4022224774;264347078;604807628;770255983;1249150122;1555081692;1996064986;
   2554220882;2821834349;2952996808;3210313671;3336571891;3584528711;113926993;338241895;
   666307205;773529912;1294757372;1396182291;1695183700;1986661051;2177026350;2456956037;
   2730485921;2820302411;3259730800;3345764771;3516065817;3600352804;4094571909;275423344;
   430227734;506948616;659060556;883997877;958139571;1322822218;1537002063;1747873779;
   1955562222;2024104815;2227730452;2361852424;2428436474;2756734187;3204031479;3329325298].

(** The big-endian word at byte [4*j] of the block. *)
Definition be32 (p : list Z) (j : Z) : Z :=
  Z.lor (Z.lor (Z.lor (Z.shiftl (aget 0 p (4 * j)) 24) (Z.shiftl (aget 0 p (4 * j + 1)) 16))
    (Z.shiftl (aget 0 p (4 * j + 2)) 8)) (aget 0 p (4 * j + 3)).

Definition sig0 (x : Z) : Z := Z.lxor (Z.lxor (sha256_rr x 7) (sha256_rr x 18)) (Z.shiftr x 3).
Definition sig1 (x : Z) : Z := Z.lxor (Z.lxor (sha256_rr x 17) (sha256_rr x 19)) (Z.shiftr x 10).
Definition Sig0 (x : Z) : Z := Z.lxor (Z.lxor (sha256_rr x 2) (sha256_rr x 13)) (sha256_rr x 22).
Definition Sig1 (x : Z) : Z := Z.lxor (Z.lxor (sha256_rr x 6) (sha256_rr x 11)) (sha256_rr x 25).
Definition Ch (e f g : Z) : Z := Z.lxor (Z.land e f) (Z.land (Z.lxor e 0xFFFFFFFF) g).
Definition Maj (a b c : Z) : Z := Z.lxor (Z.lxor (Z.land a b) (Z.land a c)) (Z.land b c).

(** One pass of the inner loop on the schedule [w] and the registers [ah]. *)
Definition next_w (p : list Z) (i j : Z) (w : list Z) : list Z :=
  if i =? 0 then aset w j (be32 p j)
  else
    let s0 := sig0 (aget 0 w (Z.land (j + 1) 0xf)) in
    let s1 := sig1 (aget 0 w (Z.land (j + 14) 0xf)) in
    aset w j (u32 (aget 0 w j + s0 + aget 0 w (Z.land (j + 9) 0xf) + s1)).

Definition next_ah (k wj : Z) (ah : list Z) : list Z :=
  let a i := aget 0 ah i in
  let t1 := u32 (a 7 + Sig1 (a 4) + Ch (a 4) (a 5) (a 6) + k + wj) in
  let t2 := u32 (Sig0 (a 0) + Maj (a 0) (a 1) (a 2)) in
  [u32 (t1 + t2); a 0; a 1; a 2; u32 (a 3 + t1); a 4; a 5; a 6].

Definition sha_round (p : list Z) (i j : Z) (st : list Z * list Z) : list Z * list Z :=
  let w := next_w p i j st.1 in
  (w, next_ah (aget 0 K (Z.lor (Z.shiftl i 4) j)) (aget 0 w j) st.2).

(** [w] starts uninitialized; [w0] stands for its contents. *)
Definition sha256_consume (w0 h p : list Z) : list Z :=
  let '(_, ah) := for_ 0 4 (fun i st => for_ 0 16 (fun j st => sha_round p i j st) st) (w0, h) in
  map (fun i => u32 (aget 0 h i + aget 0 ah i)) (seqZ 0 8).

Notation SHA256_CHUNK := 64 (only parsing).

Record Sha256 := MkSha { chunk : list Z; chunk_pos : Z; space_left : Z; total_len : Z; hs : list Z }.

Definition H0 : list Z :=
  [0x6a09e667; 0xbb67ae85; 0x3c6ef372; 0xa54ff53a; 0x510e527f; 0x9b05688c; 0x1f83d9ab; 0x5be0cd19].

Section Stream.
Context (w0 : list Z).

Definition consume (h p : list Z) : list Z := sha256_consume w0 h p.

(** [c0]: the chunk buffer's previous contents. *)
Definition sha256_init (c0 : list Z) : Sha256 := MkSha c0 0 SHA256_CHUNK 0 H0.

(** A block of bytes stored in the buffer at [pos]. *)
Definition put (l : list Z) (pos : Z) (d : list Z) : list Z :=
  take (Z.to_nat pos) l ++ d ++ drop (Z.to_nat pos + length d) l.

Fixpoint write_loop (fuel : nat) (p : list Z) (s : Sha256) : Sha256 :=
  match fuel with
  | O => s
  | S f =>
      if zlen p =? 0 then s
      else if (space_left s =? SHA256_CHUNK) && (SHA256_CHUNK <=? zlen p)
      then write_loop f (drop 64 p)
             (MkSha (chunk s) (chunk_pos s) (space_left s) (total_len s) (consume (hs s) (take 64 p)))
      else
        let c := if zlen p <? space_left s then zlen p else space_left s in
        let ch := put (chunk s) (chunk_pos s) (take (Z.to_nat c) p) in
        let sl := space_left s - c in
        write_loop f (drop (Z.to_nat c) p)
          (if sl =? 0
           then MkSha ch 0 SHA256_CHUNK (total_len s) (consume (hs s) ch)
           else MkSha ch (chunk_pos s + c) sl (total_len s) (hs s))
  end.

(** Each round consumes at least one byte: [length data] rounds are enough. *)
Definition sha256_write (data : list Z) (s : Sha256) : Sha256 :=
  write_loop (length data) data
    (MkSha (chunk s) (chunk_pos s) (space_left s) (u64 (total_len s + zlen data)) (hs s)).

(** The length field: [pos[7]=(uint8_t)(len<<3); len>>=5;] then bytes 6 to 0. *)
Definition len_bytes (len : Z) : list Z :=
  map (fun i => u8 (Z.shiftr (Z.shiftr len 5) (8 * (6 - i)))) (seqZ 0 7) ++ [u8 (Z.shiftl len 3)].

Definition hash_bytes (h : list Z) : list Z :=
  concat (map (fun x => [u8 (Z.shiftr x 24); u8 (Z.shiftr x 16); u8 (Z.shiftr x 8); u8 x]) h).

Definition sha256_close (s : Sha256) : list Z :=
  let ch := put (chunk s) (chunk_pos s) [0x80] in
  let pos := chunk_pos s + 1 in
  let sl := space_left s - 1 in
  let '(ch, pos, sl, h) :=
    if sl <? 8
    then let ch := put ch pos (replicate (Z.to_nat sl) 0) in (ch, 0, SHA256_CHUNK, consume (hs s) ch)
    else (ch, pos, sl, hs s) in
  let left := sl - 8 in
  let ch := put ch pos (replicate (Z.to_nat left) 0) in
  let ch := put ch (pos + left) (len_bytes (total_len s)) in
  hash_bytes (consume h ch).

Definition calc_sha256 (c0 input : list Z) : list Z := sha256_close (sha256_write input (sha256_init c0)).

(** HMAC: [c0] is the stack contents under the chunk buffers. *)
Definition hmac_sha256 (c0 key msg : list Z) : list Z :=
  let k_pad := if 64 <? zlen key then put (replicate 64 0) 0 (calc_sha256 c0 key)
               else put (replicate 64 0) 0 key in
  let i_pad := map (fun x => Z.lxor x 0x36) k_pad in
  let o_pad := map (fun x => Z.lxor x 0x5c) k_pad in
  let ih := calc_sha256 c0 (i_pad ++ msg) in
  calc_sha256 c0 (o_pad ++ ih).

End Stream.

(** ** Reference: the standard's definition *)

Definition be64 (n : Z) : list Z := map (fun i => (n / 2 ^ (8 * (7 - i))) mod 256) (seqZ 0 8).

Definition pad (m : list Z) : list Z :=
  m ++ [0x80] ++ replicate (Z.to_nat ((55 - zlen m) mod 64)) 0 ++ be64 (8 * zlen m).

(** The schedule, word after word. *)
Definition next_word (l : list Z) : Z :=
  let n := zlen l in
  u32 (sig1 (aget 0 l (n - 2)) + aget 0 l (n - 7) + sig0 (aget 0 l (n - 15)) + aget 0 l (n - 16)).
Fixpoint schedule (n : nat) (ws : list Z) : list Z :=
  match n with O => ws | S n' => let l := schedule n' ws in l ++ [next_word l] end.
Definition block_words (p : list Z) : list Z := map (be32 p) (seqZ 0 16).

Definition ref_compress (h p : list Z) : list Z :=
  let W := schedule 48 (block_words p) in
  let ah := for_ 0 64 (fun t ah => next_ah (aget 0 K t) (aget 0 W t) ah) h in
  map (fun i => u32 (aget 0 h i + aget 0 ah i)) (seqZ 0 8).

(** Whole blocks, in order. *)
Fixpoint ref_blocks (fuel : nat) (h m : list Z) : list Z :=
  match fuel with
  | O => h
  | S f => if (length m <? 64)%nat then h else ref_blocks f (ref_compress h (take 64 m)) (drop 64 m)
  end.
Definition ref_absorb (h m : list Z) : list Z := ref_blocks (length m) h m.
Definition ref_sha256 (m : list Z) : list Z := hash_bytes (ref_absorb H0 (pad m)).

(** ** The 16-word schedule computes the 64-word one *)

Lemma for_nested {T} (f : Z -> T -> T) (n m : Z) (s : T) :
  0 <= n -> 0 < m ->
  for_ 0 n (fun i s => for_ 0 m (fun j s => f (i * m + j) s) s) s = for_ 0 (n * m) f s.
Proof.
  intros Hn Hm. apply (for_ind (fun i r => r = for_ 0 (i * m) f s)); [lia|by rewrite for_done by lia|].
  intros i r Hi ->. replace ((i + 1) * m) with (i * m + m) by lia.
  apply (for_ind (fun j r => r = for_ 0 (i * m + j) f s)); [lia|f_equal; lia|].
  intros j r Hj ->. rewrite Z.add_assoc, for_last by nia. done.
Qed.

Lemma length_schedule n ws : length (schedule n ws) = (n + length ws)%nat.
Proof. induction n; simpl; [done|]. rewrite length_app. simpl. lia. Qed.

Lemma schedule_prefix n k ws i :
  (n <= k)%nat -> 0 <= i < zlen (schedule n ws) -> aget 0 (schedule k ws) i = aget 0 (schedule n ws) i.
Proof.
  intros Hle Hi. induction Hle as [|k Hle IH]; [done|]. rewrite <- IH. simpl. unfold aget, zlen in *.
  rewrite !length_schedule in *. rewrite app_nth1; [done|]. rewrite length_schedule. lia.
Qed.

(** The words after the first 16 satisfy the standard's recurrence. *)
Lemma schedule_rec n ws t :
  length ws = 16%nat -> 16 <= t < 16 + Z.of_nat n ->
  let W i := aget 0 (schedule n ws) i in
  W t = u32 (sig1 (W (t - 2)) + W (t - 7) + sig0 (W (t - 15)) + W (t - 16)).
Proof.
  intros Hl Ht W. set (k := Z.to_nat (t - 16)).
  assert (Hz : zlen (schedule k ws) = t) by (unfold zlen; rewrite length_schedule; lia).
  assert (Hp : forall i, 0 <= i < t -> W i = aget 0 (schedule k ws) i).
  { intros i Hi. unfold W. apply schedule_prefix; lia. }
  assert (HW : W t = next_word (schedule k ws)).
  { unfold W. rewrite (schedule_prefix (S k)) by (unfold zlen; rewrite ?length_schedule; lia).
    simpl. unfold aget. unfold zlen in Hz. rewrite app_nth2 by lia.
    replace (Z.to_nat t - length (schedule k ws))%nat with 0%nat by lia. done. }
  rewrite HW. unfold next_word. rewrite Hz. by rewrite !Hp by lia.
Qed.

Lemma schedule_first n p t : 0 <= t < 16 -> aget 0 (schedule n (block_words p)) t = be32 p t.
Proof.
  intros Ht. rewrite (schedule_prefix 0) by (unfold block_words, zlen; simpl; lia). simpl.
  unfold block_words, aget. rewrite nth_lookup, list_lookup_fmap, lookup_seqZ_lt by lia. simpl.
  f_equal. lia.
Qed.

Lemma low_nibble j k : 0 <= j -> 0 <= k -> Z.land (j + k) 0xf = (j + k) mod 16.
Proof. intros. change 0xf with (Z.ones 4). by rewrite Z.land_ones by lia. Qed.

Lemma k_index i j : 0 <= i -> 0 <= j < 16 -> Z.lor (Z.shiftl i 4) j = i * 16 + j.
Proof.
  intros Hi Hj. rewrite <- Z.lxor_lor, <- Z.add_nocarry_lxor.
  - rewrite Z.shiftl_mul_pow2 by lia. done.
  - apply Z.bits_inj'. intros n Hn. rewrite Z.land_spec, Z.bits_0, Z.shiftl_spec by lia.
    destruct (Z.lt_ge_cases n 4); [by rewrite (Z.testbit_neg_r i) by lia|].
    rewrite <- (Z.mod_small j (2^4)), Z.mod_pow2_bits_high by lia. by rewrite andb_false_r.
  - apply Z.bits_inj'. intros n Hn. rewrite Z.land_spec, Z.bits_0, Z.shiftl_spec by lia.
    destruct (Z.lt_ge_cases n 4); [by rewrite (Z.testbit_neg_r i) by lia|].
    rewrite <- (Z.mod_small j (2^4)), Z.mod_pow2_bits_high by lia. by rewrite andb_false_r.
Qed.

Section Compress.
Context (p : list Z).
Let W (t : Z) : Z := aget 0 (schedule 48 (block_words p)) t.

(** The 16 words hold the last 16 words of the schedule. *)
Definition window (t : Z) (w : list Z) : Prop :=
  zlen w = 16 /\ forall s, 0 <= s -> t - 16 <= s < t -> aget 0 w (s mod 16) = W s.

Lemma mod16_ne s t : t - 16 < s < t -> s mod 16 <> t mod 16.
Proof.
  intros Hs He. pose proof (Z.div_mod s 16 ltac:(lia)). pose proof (Z.div_mod t 16 ltac:(lia)). lia.
Qed.

Lemma window_step t w :
  0 <= t < 64 -> window t w ->
  next_w p (t / 16) (t mod 16) w = aset w (t mod 16) (W t) /\ window (t + 1) (aset w (t mod 16) (W t)).
Proof.
  intros Ht [Hl Hw]. pose proof (Z.mod_pos_bound t 16 ltac:(lia)) as Hm. split.
  - unfold next_w. destruct (Z.eqb_spec (t / 16) 0) as [H0|H0].
    + assert (Hlt : t < 16) by (pose proof (Z.div_mod t 16); lia).
      rewrite Z.mod_small by lia. unfold W. by rewrite schedule_first by lia.
    + assert (Hge : 16 <= t) by (pose proof (Z.div_small t 16); lia).
      rewrite !low_nibble by lia. rewrite !Zplus_mod_idemp_l. f_equal.
      replace ((t + 1) mod 16) with ((t - 15) mod 16)
        by (rewrite <- (Z.mod_add (t - 15) 1) by lia; f_equal; lia).
      replace ((t + 14) mod 16) with ((t - 2) mod 16)
        by (rewrite <- (Z.mod_add (t - 2) 1) by lia; f_equal; lia).
      replace ((t + 9) mod 16) with ((t - 7) mod 16)
        by (rewrite <- (Z.mod_add (t - 7) 1) by lia; f_equal; lia).
      replace (t mod 16) with ((t - 16) mod 16)
        by (rewrite <- (Z.mod_add (t - 16) 1) by lia; f_equal; lia).
      rewrite !Hw by lia. unfold W. rewrite (schedule_rec 48 (block_words p) t) by (done || lia).
      unfold u32. f_equal. lia.
  - split; [by rewrite zlen_aset|]. intros s Hs Hr. destruct (decide (s = t)) as [->|Hne].
    + apply aget_aset_eq. lia.
    + pose proof (Z.mod_pos_bound s 16 ltac:(lia)). rewrite aget_aset_ne; [apply Hw; lia|lia|lia|].
      apply not_eq_sym, mod16_ne. lia.
Qed.

(** The compression function of the code is the standard's, whatever the
    uninitialized schedule held. *)
Lemma consume_ref w0 h : zlen w0 = 16 -> sha256_consume w0 h p = ref_compress h p.
Proof.
  intros Hl. unfold sha256_consume, ref_compress.
  set (R := fun t ah => next_ah (aget 0 K t) (W t) ah).
  assert (Hloop : exists w, for_ 0 4 (fun i st => for_ 0 16 (fun j st => sha_round p i j st) st) (w0, h)
                            = (w, for_ 0 64 R h)).
  { set (g := fun t st => sha_round p (t / 16) (t mod 16) st).
    assert (Hg : for_ 0 4 (fun i st => for_ 0 16 (fun j st => sha_round p i j st) st) (w0, h) = for_ 0 64 g (w0, h)).
    { rewrite <- (for_nested g 4 16) by lia. apply for_ext. intros i st Hi. apply for_ext. intros j st' Hj.
      unfold g. rewrite Z.div_add_l, Z.div_small, Z.add_0_r by lia.
      by rewrite Z.add_comm, Z.mod_add, Z.mod_small by lia. }
    rewrite Hg.
    assert (HI : window 64 (for_ 0 64 g (w0, h)).1 /\ (for_ 0 64 g (w0, h)).2 = for_ 0 64 R h).
    { apply (for_ind (fun t st => window t st.1 /\ st.2 = for_ 0 t R h)); [lia| |].
      - rewrite for_done by lia. split; [|done]. split; [done|]. intros s ? ?. lia.
      - intros t [w ah] Ht [Hw Hah]. simpl in Hw, Hah. subst ah. simpl. destruct (window_step t w Ht Hw) as [He Hw'].
        unfold sha_round. simpl. rewrite He. split; [done|]. rewrite for_last by lia. unfold R at 2.
        pose proof (Z.mod_pos_bound t 16 ltac:(lia)). pose proof (Z.div_pos t 16 ltac:(lia) ltac:(lia)).
        rewrite k_index by lia. rewrite aget_aset_eq by (destruct Hw; lia).
        replace (t / 16 * 16 + t mod 16) with t by (pose proof (Z.div_mod t 16); lia). done. }
    destruct (for_ 0 64 g (w0, h)) as [w ah]. exists w. destruct HI as [_ HI]. simpl in HI. by rewrite HI. }
  destruct Hloop as [w ->]. done.
Qed.
End Compress.

(** ** Streaming *)

Section Blocks.

Lemma ref_blocks_fuel f1 f2 h m :
  (length m <= f1)%nat -> (length m <= f2)%nat -> ref_blocks f1 h m = ref_blocks f2 h m.
Proof.
  revert f2 h m. induction f1 as [|f1 IH]; intros [|f2] h m H1 H2; simpl; try done.
  - by replace (length m <? 64)%nat with true by (symmetry; apply Nat.ltb_lt; lia).
  - by replace (length m <? 64)%nat with true by (symmetry; apply Nat.ltb_lt; lia).
  - destruct (Nat.ltb_spec (length m) 64); [done|]. apply IH; rewrite length_drop; lia.
Qed.

Lemma ref_blocks_S f h m :
  ref_blocks (S f) h m = if (length m <? 64)%nat then h else ref_blocks f (ref_compress h (take 64 m)) (drop 64 m).
Proof. done. Qed.

Lemma absorb_short h m : (length m < 64)%nat -> ref_absorb h m = h.
Proof.
  intros. unfold ref_absorb. destruct m as [|x m]; [done|]. simpl.
  by replace (S (length m) <? 64)%nat with true by (symmetry; apply Nat.ltb_lt; simpl in *; lia).
Qed.

Lemma absorb_block h b m : length b = 64%nat -> ref_absorb h (b ++ m) = ref_absorb (ref_compress h b) m.
Proof.
  intros Hb. unfold ref_absorb. rewrite length_app, Hb.
  rewrite (ref_blocks_fuel (64 + length m) (S (64 + length m))) by (rewrite length_app; lia).
  rewrite ref_blocks_S, length_app, Hb. rewrite (proj2 (Nat.ltb_ge _ _)) by lia.
  rewrite take_app_le, take_ge, drop_app_ge, Hb, drop_0 by lia.
  apply ref_blocks_fuel; lia.
Qed.

Lemma absorb_one h b : length b = 64%nat -> ref_absorb h b = ref_compress h b.
Proof.
  intros Hb. rewrite <- (app_nil_r b) at 1. rewrite absorb_block by done. apply absorb_short. simpl. lia.
Qed.

Lemma absorb_app n h a m : length a = (64 * n)%nat -> ref_absorb h (a ++ m) = ref_absorb (ref_absorb h a) m.
Proof.
  revert h a. induction n as [|n IH]; intros h a Ha.
  { destruct a; [done|simpl in Ha; lia]. }
  assert (Hb : exists b c, a = b ++ c /\ length b = 64%nat).
  { exists (take 64 a), (drop 64 a). rewrite take_drop, length_take. split; [done|lia]. }
  destruct Hb as (b & c & -> & Hb). rewrite length_app in Ha.
  rewrite <- app_assoc, (absorb_block h b (c ++ m)), (absorb_block h b c) by done. apply IH. lia.
Qed.
End Blocks.

(** A message as whole blocks and a tail. *)
Definition tail_of (m : list Z) : list Z := drop (64 * (length m / 64)) m.
Definition body_of (m : list Z) : list Z := take (64 * (length m / 64)) m.

Lemma body_tail m : body_of m ++ tail_of m = m.
Proof. apply take_drop. Qed.
Lemma length_body m : length (body_of m) = (64 * (length m / 64))%nat.
Proof. unfold body_of. rewrite length_take. pose proof (Nat.mul_div_le (length m) 64). lia. Qed.
Lemma length_tail m : length (tail_of m) = (length m mod 64)%nat.
Proof. unfold tail_of. rewrite length_drop. pose proof (Nat.div_mod (length m) 64). lia. Qed.

Lemma absorb_body h m r : ref_absorb h (body_of m ++ r) = ref_absorb (ref_absorb h m) r.
Proof.
  rewrite (absorb_app (length m / 64)) by apply length_body. f_equal.
  rewrite <- (body_tail m) at 2. rewrite (absorb_app (length m / 64)) by apply length_body.
  symmetry. apply absorb_short. rewrite length_tail. apply Nat.mod_upper_bound. lia.
Qed.

Lemma absorb_more h m d : ref_absorb h (m ++ d) = ref_absorb (ref_absorb h m) (tail_of m ++ d).
Proof. rewrite <- (body_tail m) at 1. by rewrite <- app_assoc, absorb_body. Qed.

Lemma tail_more m d : (length m mod 64 + length d < 64)%nat -> tail_of (m ++ d) = tail_of m ++ d.
Proof.
  intros Hd. unfold tail_of. rewrite length_app.
  assert (Hq : ((length m + length d) / 64 = length m / 64)%nat).
  { rewrite (Nat.div_mod (length m) 64) at 1 by lia. rewrite Nat.mul_comm, <- Nat.add_assoc.
    rewrite Nat.div_add_l, (Nat.div_small (_ + _)) by lia. lia. }
  rewrite Hq, drop_app_le; [done|]. pose proof (Nat.mul_div_le (length m) 64). lia.
Qed.

Lemma tail_full m d : (length m mod 64 + length d = 64)%nat -> tail_of (m ++ d) = [].
Proof.
  intros Hd. unfold tail_of. apply drop_ge. rewrite length_app.
  rewrite (Nat.div_mod (length m) 64) at 1 by lia.
  replace (64 * (length m / 64) + length m mod 64 + length d)%nat with ((length m / 64 + 1) * 64)%nat by lia.
  assert (Hs : (length m + length d)%nat = ((length m / 64 + 1) * 64)%nat)
    by (pose proof (Nat.div_mod (length m) 64); lia).
  rewrite Hs, Nat.div_mul by lia. lia.
Qed.

Lemma tail_of_mod0 m : (length m mod 64 = 0)%nat -> tail_of m = [].
Proof. intros H. apply length_zero_iff_nil. by rewrite length_tail. Qed.

(** ** The stream state represents the message written so far *)

Section Rep.
Context (w0 : list Z) (Hw0 : zlen w0 = 16).

Record rep (s : Sha256) (m : list Z) : Prop := Rep {
  rep_h : hs s = ref_absorb H0 m;
  rep_pos : chunk_pos s = Z.of_nat (length m mod 64);
  rep_left : space_left s = 64 - Z.of_nat (length m mod 64);
  rep_len : length (chunk s) = 64%nat;
  rep_tail : take (length m mod 64) (chunk s) = tail_of m;
}.

Lemma put_prefix l k d :
  (k + length d <= length l)%nat ->
  length (put l (Z.of_nat k) d) = length l /\ take (k + length d) (put l (Z.of_nat k) d) = take k l ++ d /\
  drop (k + length d) (put l (Z.of_nat k) d) = drop (k + length d) l.
Proof.
  intros Hl. unfold put. rewrite Nat2Z.id.
  assert (Hk : length (take k l) = k) by (rewrite length_take; lia). split_and!.
  - rewrite !length_app, length_drop, Hk. lia.
  - rewrite app_assoc, take_app_le by (rewrite length_app; lia).
    apply take_ge. rewrite length_app. lia.
  - rewrite app_assoc, drop_app_ge by (rewrite length_app; lia).
    rewrite length_app, Hk. by replace (_ - _)%nat with 0%nat by lia.
Qed.

Lemma put_full l k d :
  (k + length d = length l)%nat -> put l (Z.of_nat k) d = take k l ++ d.
Proof. intros Hl. unfold put. rewrite Nat2Z.id, (drop_ge l) by lia. by rewrite app_nil_r. Qed.

Lemma write_loop_rep fuel p s m :
  (length p <= fuel)%nat -> rep s m ->
  rep (write_loop w0 fuel p s) (m ++ p) /\ total_len (write_loop w0 fuel p s) = total_len s.
Proof.
  revert p s m. induction fuel as [|f IH]; intros p s m Hf Hr.
  { destruct p; [|simpl in Hf; lia]. by rewrite app_nil_r. }
  pose proof Hr as [Hh Hp Hsl Hl Ht]. simpl. destruct (Z.eqb_spec (zlen p) 0) as [Hz|Hz].
  { destruct p; [by rewrite app_nil_r|unfold zlen in Hz; simpl in Hz; lia]. }
  assert (Hmod : (length m mod 64 < 64)%nat) by (apply Nat.mod_upper_bound; lia).
  assert (Hgoal : forall k s1, (0 < k)%nat -> total_len s1 = total_len s -> rep s1 (m ++ take k p) ->
    rep (write_loop w0 f (drop k p) s1) (m ++ p) /\ total_len (write_loop w0 f (drop k p) s1) = total_len s).
  { intros k s1 Hk <- Hs1. destruct (IH (drop k p) s1 (m ++ take k p)) as [H1 H2];
      [rewrite length_drop; unfold zlen in Hz; lia|done|].
    by rewrite <- app_assoc, take_drop in H1. }
  destruct ((space_left s =? 64) && (64 <=? zlen p)) eqn:E; bool_to_prop; unfold zlen in *.
  - assert (H0m : (length m mod 64 = 0)%nat) by lia.
    assert (Hblk : length (take 64 p) = 64%nat) by (rewrite length_take; lia).
    apply Hgoal; [lia|done|].
    assert (Htl : tail_of m = []) by (apply length_zero_iff_nil; rewrite length_tail; lia).
    assert (Hm2 : (length (m ++ take 64 p) mod 64 = 0)%nat).
    { rewrite length_app, Hblk. replace (length m + 64)%nat with (length m + 1 * 64)%nat by lia.
      by rewrite Nat.Div0.mod_add. }
    constructor; cbn [hs chunk_pos space_left chunk]; rewrite ?Hm2.
    + unfold consume. rewrite consume_ref by done. rewrite absorb_more, Htl, Hh. simpl app. symmetry. by apply absorb_one.
    + lia.
    + lia.
    + done.
    + rewrite tail_of_mod0 by done. done.
  - set (c := if _ <? space_left s then _ else space_left s).
    assert (Hc : 0 < c <= space_left s /\ c <= Z.of_nat (length p) /\ (c < space_left s -> c = Z.of_nat (length p)))
      by (unfold c; case_test; lia).
    set (d := take (Z.to_nat c) p). assert (Hd : length d = Z.to_nat c) by (unfold d; rewrite length_take; lia).
    apply Hgoal; [lia|by case_test|]. fold d.
    destruct (put_prefix (chunk s) (length m mod 64) d ltac:(lia)) as (Hpl & Hpt & _). rewrite <- Hp in Hpl, Hpt.
    destruct (Z.eqb_spec (space_left s - c) 0) as [Hfull|Hpart].
    + assert (Hm2 : (length (m ++ d) mod 64 = 0)%nat).
      { rewrite length_app. rewrite (Nat.div_mod (length m) 64) by lia.
        replace (64 * (length m / 64) + length m mod 64 + length d)%nat with ((length m / 64 + 1) * 64)%nat by lia.
        apply Nat.Div0.mod_mul. }
      constructor; cbn [hs chunk_pos space_left chunk]; rewrite ?Hm2; try lia.
      * unfold consume. rewrite consume_ref by done. rewrite absorb_more, Hh, <- Ht, <- Hpt.
        rewrite take_ge by lia. symmetry. apply absorb_one. lia.
      * rewrite tail_of_mod0 by done. done.
    + assert (Hlt : (length m mod 64 + length d < 64)%nat) by lia.
      assert (Hm2 : (length (m ++ d) mod 64 = length m mod 64 + length d)%nat).
      { rewrite <- length_tail, tail_more, length_app, length_tail by done. done. }
      constructor; cbn [hs chunk_pos space_left chunk]; rewrite ?Hm2; try lia.
      * rewrite Hh, absorb_more. symmetry. apply absorb_short. rewrite length_app, length_tail. done.
      * rewrite Hpt, Ht, tail_more by done. done.
Qed.
End Rep.

Lemma len_bytes_be64 len : 0 <= len -> len_bytes len = be64 (8 * len).
Proof.
  intros Hl. unfold len_bytes, be64. change (seqZ 0 8) with (seqZ 0 7 ++ [7]). rewrite map_app. f_equal.
  - apply map_ext_in. intros i Hi%list_elem_of_In%elem_of_seqZ. unfold u8. f_equal.
    rewrite Z.shiftr_shiftr, Z.shiftr_div_pow2 by lia.
    replace (8 * (7 - i)) with (3 + (5 + 8 * (6 - i))) by lia. rewrite (Z.pow_add_r 2 3) by lia.
    change (2 ^ 3) with 8. rewrite Z.div_mul_cancel_l; [done| |lia]. apply Z.pow_nonzero; lia.
  - simpl. unfold u8. do 2 f_equal. rewrite Z.shiftl_mul_pow2 by lia. change (2 ^ (8 * (7 - 7))) with 1.
    rewrite Z.div_1_r. lia.
Qed.

Lemma length_len_bytes len : length (len_bytes len) = 8%nat.
Proof. done. Qed.

Section Close.
Context (w0 : list Z) (Hw0 : zlen w0 = 16).

(** The last block: what the buffer holds after zeros and the length field. *)
Lemma final_block ch k z len :
  length ch = 64%nat -> (k + z + 8 = 64)%nat ->
  put (put ch (Z.of_nat k) (replicate z 0)) (Z.of_nat k + Z.of_nat z) (len_bytes len) =
  take k ch ++ replicate z 0 ++ len_bytes len.
Proof.
  intros Hl Hk. destruct (put_prefix ch k (replicate z 0)) as (H1 & H2 & _); [rewrite length_replicate; lia|].
  rewrite length_replicate in H2. rewrite <- Nat2Z.inj_add, put_full by (rewrite length_len_bytes; lia).
  by rewrite H2, app_assoc.
Qed.

Lemma sha256_close_rep s m :
  rep s m -> total_len s = zlen m -> sha256_close w0 s = ref_sha256 m.
Proof.
  intros [Hh Hp Hsl Hl Ht] Htot. unfold sha256_close, ref_sha256.
  set (r := (length m mod 64)%nat) in *. assert (Hr : (r < 64)%nat) by (apply Nat.mod_upper_bound; lia).
  destruct (put_prefix (chunk s) r [0x80] ltac:(simpl; lia)) as (H1 & H2 & _).
  rewrite Hp, Hsl, Htot. rewrite Ht in H2. simpl length in H2.
  set (ch := put (chunk s) (Z.of_nat r) [0x80]) in *.
  assert (Hpad : pad m = m ++ ([0x80] ++ replicate (if decide (r <= 55)%nat then 55 - r else 119 - r) 0 ++ len_bytes (zlen m))).
  { unfold pad. rewrite <- len_bytes_be64 by apply zlen_nonneg. do 4 f_equal.
    assert (Hmod : zlen m mod 64 = Z.of_nat r) by (unfold zlen, r; by rewrite Nat2Z.inj_mod).
    rewrite <- Zminus_mod_idemp_r, Hmod. destruct (decide (r <= 55)%nat).
    - rewrite Z.mod_small by lia. lia.
    - rewrite <- (Z.mod_add _ 1) by lia. rewrite Z.mod_small by lia. lia. }
  rewrite Hpad, absorb_more, <- Hh. clear Hpad Hh.
  destruct (Z.ltb_spec (64 - Z.of_nat r - 1) 8) as [Hlt|Hge].
  - rewrite decide_False by lia.
    replace (Z.of_nat r + 1) with (Z.of_nat (r + 1)) by lia.
    rewrite (put_full ch) by (rewrite length_replicate; lia). rewrite H2.
    set (b1 := (tail_of m ++ [0x80]) ++ replicate (Z.to_nat (64 - Z.of_nat r - 1)) 0).
    assert (Hb1 : length b1 = 64%nat).
    { unfold b1. rewrite !length_app, length_tail, length_replicate. fold r. simpl. lia. }
    assert (Hfb : put (put b1 0 (replicate (Z.to_nat (64 - 8)) 0)) (0 + (64 - 8)) (len_bytes (zlen m)) =
                  [] ++ replicate 56 0 ++ len_bytes (zlen m)) by (apply (final_block b1 0 56); [done|lia]).
    rewrite Hfb. f_equal. unfold consume. rewrite !consume_ref by done.
    replace (119 - r)%nat with (Z.to_nat (64 - Z.of_nat r - 1) + 56)%nat by lia.
    rewrite replicate_add, <- !app_assoc.
    replace (tail_of m ++ [0x80] ++ replicate (Z.to_nat (64 - Z.of_nat r - 1)) 0 ++ replicate 56 0 ++ len_bytes (zlen m))
      with (b1 ++ ([] ++ replicate 56 0 ++ len_bytes (zlen m))) by (unfold b1; by rewrite <- !app_assoc).
    rewrite absorb_block by done. symmetry. apply absorb_one. done.
  - rewrite decide_True by lia.
    set (z := (55 - r)%nat). replace (Z.to_nat (64 - Z.of_nat r - 1 - 8)) with z by lia.
    replace (64 - Z.of_nat r - 1 - 8) with (Z.of_nat z) by lia.
    replace (Z.of_nat r + 1) with (Z.of_nat (r + 1)) by lia.
    rewrite final_block by (unfold z; lia). rewrite H2. f_equal. unfold consume. rewrite consume_ref by done.
    rewrite <- app_assoc. symmetry. apply absorb_one.
    rewrite !length_app, length_tail, length_replicate, length_len_bytes. fold r. unfold z. simpl. lia.
Qed.

(** Any number of writes. *)
Lemma writes_rep ws s m :
  rep s m -> total_len s = zlen m -> zlen m + zlen (concat ws) < 2 ^ 61 ->
  let s' := fold_left (fun s d => sha256_write w0 d s) ws s in
  rep s' (m ++ concat ws) /\ total_len s' = zlen (m ++ concat ws).
Proof.
  revert s m. induction ws as [|d ws IH]; intros s m Hr Ht Hlt; simpl.
  { by rewrite app_nil_r. }
  simpl in Hlt. rewrite zlen_app in Hlt. pose proof (zlen_nonneg (concat ws)). pose proof (zlen_nonneg m).
  pose proof (zlen_nonneg d). rewrite app_assoc.
  destruct (write_loop_rep w0 Hw0 (length d) d
    (MkSha (chunk s) (chunk_pos s) (space_left s) (u64 (total_len s + zlen d)) (hs s)) m) as [Ha Hb]; [done|by destruct Hr|].
  apply IH; [exact Ha| |rewrite zlen_app; lia].
  unfold sha256_write. rewrite Hb. simpl. rewrite u64_id, Ht, zlen_app by lia. done.
Qed.

Lemma init_rep c0 : length c0 = 64%nat -> rep (sha256_init c0) [].
Proof. intros. constructor; try done. Qed.

End Close.

(** ** HMAC, as its standard defines it *)

Definition hmac_key (key : list Z) : list Z :=
  let k := if 64 <? zlen key then ref_sha256 key else key in k ++ replicate (64 - length k) 0.
Definition ref_hmac (key msg : list Z) : list Z :=
  ref_sha256 (map (fun x => Z.lxor x 0x5c) (hmac_key key) ++ ref_sha256 (map (fun x => Z.lxor x 0x36) (hmac_key key) ++ msg)).

Section Hmac.
Context (w0 c0 : list Z) (Hw0 : zlen w0 = 16) (Hc0 : zlen c0 = 64).

Lemma calc_sha256_ref m : zlen m < 2 ^ 61 -> calc_sha256 w0 c0 m = ref_sha256 m.
Proof.
  intros Hl. unfold calc_sha256.
  destruct (writes_rep w0 Hw0 [m] (sha256_init c0) []) as [H1 H2].
  - apply init_rep. unfold zlen in Hc0. lia.
  - done.
  - simpl. rewrite app_nil_r, zlen_nil. lia.
  - simpl in H1, H2. rewrite app_nil_r in H1, H2. by apply (sha256_close_rep w0 Hw0 _ m).
Qed.

Lemma length_ref_sha256 m : zlen m < 2 ^ 61 -> length (ref_sha256 m) = 32%nat.
Proof.
  intros Hl. rewrite <- (calc_sha256_ref m Hl). unfold calc_sha256, sha256_close.
  destruct (if _ <? 8 then _ else _) as [[[? ?] ?] ?]. unfold hash_bytes, consume, sha256_consume.
  by destruct (for_ 0 4 _ _) as [? ah].
Qed.

Lemma put_zeros k : (length k <= 64)%nat -> put (replicate 64 0) 0 k = k ++ replicate (64 - length k) 0.
Proof.
  intros Hk. unfold put. change (Z.to_nat 0) with 0%nat. by rewrite take_0, drop_replicate.
Qed.

(** The code computes it, whatever the uninitialised arrays hold. *)
Lemma hmac_sha256_ref key msg : zlen key < 2 ^ 61 -> zlen msg + 64 < 2 ^ 61 -> hmac_sha256 w0 c0 key msg = ref_hmac key msg.
Proof.
  intros Hk Hm. assert (Hpad : (if 64 <? zlen key then put (replicate 64 0) 0 (calc_sha256 w0 c0 key) else put (replicate 64 0) 0 key) = hmac_key key).
  { unfold hmac_key. destruct (Z.ltb_spec 64 (zlen key)).
    - rewrite calc_sha256_ref by done. rewrite put_zeros; [done|]. rewrite length_ref_sha256 by done. lia.
    - rewrite put_zeros; [done|]. unfold zlen in *. lia. }
  assert (Hlen : length (hmac_key key) = 64%nat).
  { unfold hmac_key. rewrite length_app, length_replicate. destruct (Z.ltb_spec 64 (zlen key)).
    - rewrite length_ref_sha256 by done. lia.
    - unfold zlen in *. lia. }
  unfold hmac_sha256, ref_hmac. rewrite Hpad. cbv zeta.
  assert (Hi : zlen (map (fun x => Z.lxor x 0x36) (hmac_key key) ++ msg) < 2 ^ 61).
  { rewrite zlen_app. unfold zlen in *. rewrite length_map, Hlen. lia. }
  rewrite (calc_sha256_ref _ Hi). apply calc_sha256_ref.
  rewrite zlen_app. unfold zlen. rewrite length_map, Hlen, length_ref_sha256 by done. lia.
Qed.

End Hmac.

(** ** Properties *)

(** C8: The streaming SHA-256 is the standard's function of the concatenated
    input: however the data is cut into writes, and whatever the uninitialized
    schedule and chunk buffers held, closing the stream gives the hash of the
    padded message (messages below 2^61 bytes, the standard's bound). *)
Theorem sha256_streaming_correct w0 c0 ws :
  zlen w0 = 16 -> zlen c0 = 64 -> zlen (concat ws) < 2 ^ 61 ->
  sha256_close w0 (fold_left (fun s d => sha256_write w0 d s) ws (sha256_init c0)) = ref_sha256 (concat ws).
Proof.
  intros Hw Hc Hl. destruct (writes_rep w0 Hw ws (sha256_init c0) []) as [H1 H2]; try done.
  - apply init_rep. unfold zlen in Hc. lia.
  - by apply (sha256_close_rep w0 Hw _ (concat ws)).
Qed.

Lemma sha256_streaming_correct_witness :
  sha256_close (replicate 16 1) (fold_left (fun s d => sha256_write (replicate 16 1) d s) [cs "ab"; cs "c"]
    (sha256_init (replicate 64 7))) =
  [186; 120; 22; 191; 143; 1; 207; 234; 65; 65; 64; 222; 93; 174; 34; 35; 176; 3; 97; 163; 150; 23; 122; 156;
   180; 16; 255; 97; 242; 0; 21; 173].
Proof.
  rewrite (sha256_streaming_correct (replicate 16 1) (replicate 64 7) [cs "ab"; cs "c"]);
    [vm_compute; reflexivity|reflexivity|reflexivity|reflexivity].
Defined.

(** The compression function, which keeps only 16 words of the message
    schedule and overwrites them in place, computes the standard's compression
    with the full 64-word schedule. *)
Theorem sha256_consume_correct w0 h p : zlen w0 = 16 -> sha256_consume w0 h p = ref_compress h p.
Proof. apply consume_ref. Qed.

Lemma sha256_consume_correct_witness :
  sha256_consume (replicate 16 0) H0 (replicate 64 0) = ref_compress H0 (replicate 64 0).
Proof. apply sha256_consume_correct. reflexivity. Defined.
