(* ===== verification/Bignum.v ===== *)
(** * Multi-word integers ([crypto/bignum.h])

    A [BN] is an array of 64-bit words and the number [n] of words in use.  The
    words at and above [n] are never read, so a [BN] is the list of its used
    words, least significant first.  An operation whose result needs more than
    [BN_MAX_WORDS] words writes past the array: it answers [None].

    The word loops read index [i] of their operands before they write index [i]
    of the result, so a call with the result aliased to an operand, as in
    [bn_sub(&q,&q,m)], computes the same words as one without aliasing. *)

From Stdlib Require Import ZArith Lia.
From stdpp Require Import base numbers list list_numbers option.
From S2P Require Import Prelude.

Notation BN_MAX_WORDS := 64 (only parsing).
Notation BN := (list Z) (only parsing).
Notation base := (2^64) (only parsing).

(** ** Operations *)

Definition bn_zero : BN := [0].
Definition bn_one : BN := [1].
Definition bn_set_u64 (v : Z) : BN := [v].
Definition bn_is_zero (a : BN) : bool := (zlen a =? 1) && (aget 0 a 0 =? 0).
Definition bn_is_one (a : BN) : bool := (zlen a =? 1) && (aget 0 a 0 =? 1).

(** [i<a->n?a->w[i]:0] *)
Definition word (a : BN) (i : Z) : Z := if i <? zlen a then aget 0 a i else 0.

(** The loop from [i=n-1] down to [0]. *)
Fixpoint cmp_loop (n : nat) (a b : BN) : Z :=
  match n with
  | O => 0
  | S i =>
      let av := word a (Z.of_nat i) in
      let bv := word b (Z.of_nat i) in
      if negb (av =? bv) then (if bv <? av then 1 else -1) else cmp_loop i a b
  end.
Definition bn_cmp (a b : BN) : Z := cmp_loop (Z.to_nat (Z.max (zlen a) (zlen b))) a b.

Definition add_step (a b : BN) (i : Z) (st : BN * Z) : BN * Z :=
  let s := word a i + word b i + st.2 in
  (st.1 ++ [u64 s], u64 (Z.shiftr s 64)).
Definition bn_add (a b : BN) : option BN :=
  let n := Z.max (zlen a) (zlen b) in
  let '(r, c) := for_ 0 n (add_step a b) ([], 0) in
  if negb (c =? 0)
  then (if n <? BN_MAX_WORDS then Some (r ++ [c]) else None)
  else Some r.

(** [while(n>1&&w[n-1]==0)n--;] *)
Fixpoint trim (n : nat) (w : BN) : BN :=
  match n with
  | S (S i as m) => if nth m w 0 =? 0 then trim m w else take n w
  | _ => take n w
  end.

Definition sub_step (a b : BN) (i : Z) (st : BN * Z) : BN * Z :=
  let s := aget 0 a i - word b i - st.2 in
  (st.1 ++ [u64 s], if s <? 0 then 1 else 0).
Definition bn_sub (a b : BN) : BN :=
  let '(r, _) := for_ 0 (zlen a) (sub_step a b) ([], 0) in trim (length a) r.

Definition mul_step (a b : BN) (i j : Z) (st : BN * Z) : BN * Z :=
  let p := aget 0 a i * aget 0 b j + aget 0 st.1 (i + j) + st.2 in
  (aset st.1 (i + j) (u64 p), u64 (Z.shiftr p 64)).
Definition mul_row (a b : BN) (i : Z) (r : BN) : BN :=
  let '(r, c) := for_ 0 (zlen b) (mul_step a b i) (r, 0) in
  if negb (c =? 0) then aset r (i + zlen b) (u64 (aget 0 r (i + zlen b) + c)) else r.
Definition bn_mul (a b : BN) : option BN :=
  let rn := zlen a + zlen b in
  if BN_MAX_WORDS <? rn then None
  else Some (trim (Z.to_nat rn) (for_ 0 (zlen a) (mul_row a b) (replicate (Z.to_nat rn) 0))).

(** The body of [bn_mod]'s inner loop assigns [q] from [r], which it leaves alone. *)
Definition mod_step (r m : BN) (q : option BN) : option BN :=
  _ ← q;
  q ← bn_add r r;
  Some (if 0 <=? bn_cmp q m then bn_sub q m else q).
Definition bn_mod (a m : BN) : option BN :=
  if bn_cmp a m <? 0 then Some a
  else
    let r := a in
    for_ 0 (zlen a) (fun _ q => for_ 0 64 (fun _ q => mod_step r m q) q) (Some bn_zero).

Definition bn_mulmod (a b m : BN) : option BN := t ← bn_mul a b; bn_mod t m.

(** One bit to the right, then the leading zero words dropped. *)
Definition shr_word (e : BN) (i : Z) : Z :=
  if i <? zlen e - 1
  then Z.lor (Z.shiftr (aget 0 e i) 1) (u64 (Z.shiftl (aget 0 e (i + 1)) 63))
  else Z.shiftr (aget 0 e i) 1.
Definition bn_shr1 (e : BN) : BN := trim (length e) (map (shr_word e) (seqZ 0 (zlen e))).

(** [while(!bn_is_zero(&e))]: each pass shifts [e] by one bit, so [64*e.n]
    passes are enough ([pow_loop_fuel] below). *)
Fixpoint pow_loop (fuel : nat) (res b e m : BN) : option BN :=
  if bn_is_zero e then Some res
  else
    match fuel with
    | O => None
    | S f =>
        res ← (if Z.land (aget 0 e 0) 1 =? 1 then bn_mulmod res b m else Some res);
        b ← bn_mulmod b b m;
        pow_loop f res b (bn_shr1 e) m
    end.
Definition bn_powmod (b e m : BN) : option BN :=
  pow_loop (64 * length e) bn_one b e m.

(** *** Primality *)

(** [while((s_d.w[0]&1)==0)]: strip the factors of two and count them. *)
Fixpoint strip_twos (fuel : nat) (d : BN) (s : Z) : option (BN * Z) :=
  if Z.land (aget 0 d 0) 1 =? 0
  then match fuel with O => None | S f => strip_twos f (bn_shr1 d) (s + 1) end
  else Some (d, s).

(** The squaring loop of one round, from [j=1]: [Some true] when the round finds
    nothing against [n] (the [break] and the [goto next_round]), [Some false]
    when the number is composite. *)
Fixpoint square_loop (k : nat) (x nm1 n : BN) : option bool :=
  match k with
  | O => Some false
  | S k' =>
      x ← bn_powmod x (bn_set_u64 2) n;
      if bn_cmp x nm1 =? 0 then Some true
      else if bn_is_one x then Some true
      else square_loop k' x nm1 n
  end.

(** The rounds from [r] on; [false] is the [return 0]. *)
Fixpoint prime_rounds (k : nat) (r : Z) (n s_d : BN) (s : Z) : option bool :=
  match k with
  | O => Some true
  | S k' =>
      let a := bn_set_u64 (2 + r) in
      if 0 <=? bn_cmp a n then Some true
      else
        x ← bn_powmod a s_d n;
        let nm1 := bn_sub n (bn_set_u64 2) in
        if bn_is_one x || (bn_cmp x nm1 =? 0) then prime_rounds k' (r + 1) n s_d s
        else
          fine ← square_loop (Z.to_nat (s - 1)) x nm1 n;
          if (fine : bool) then prime_rounds k' (r + 1) n s_d s else Some false
  end.

Definition bn_is_prime (n : BN) (rounds : Z) : option bool :=
  let two := bn_set_u64 2 in
  if bn_cmp n two <? 0 then Some false
  else if bn_cmp n two =? 0 then Some true
  else if aget 0 n 0 mod 2 =? 0 then Some false
  else
    let d := bn_sub n two in
    '(s_d, s) ← strip_twos (64 * length d) d 0;
    prime_rounds (Z.to_nat rounds) 0 n s_d s.

(** The candidate [bn_gen_prime] builds on each pass of its [for(;;)]. *)
Definition gen_word (i : Z) : Z :=
  let s := u32 (0xdeadbeef + i * 0x12345678) in
  let s := Z.lxor s (u64 (Z.shiftl s 13)) in
  let s := Z.lxor s (Z.shiftr s 17) in
  Z.lxor s (u64 (Z.shiftl s 5)).
Definition gen_candidate (bits : Z) : BN :=
  let words := (bits + 63) / 64 in
  let p := replicate (Z.to_nat words) 0 in
  let p := aset p (words - 1) (Z.lor (aget 0 p (words - 1)) (u64 (Z.shiftl 1 (bits - 1 - (words - 1) * 64)))) in
  let p := aset p 0 (Z.lor (aget 0 p 0) 1) in
  for_ 1 (words - 1) (fun i p => aset p i (gen_word i)) p.
Fixpoint bn_gen_prime (fuel : nat) (bits : Z) : option BN :=
  match fuel with
  | O => None
  | S f =>
      let p := gen_candidate bits in
      prime ← bn_is_prime p 8;
      if (prime : bool) then Some p else bn_gen_prime f bits
  end.

(** *** Modular inverse *)

(** The quotient words: each is the 128-bit value of two neighbouring words of
    [r0] over the one word of [r1], cut to 64 bits. *)
Definition div_word (r0 : BN) (d i : Z) : Z :=
  let hi := if i =? zlen r0 - 1 then 0 else aget 0 r0 (i + 1) in
  u64 (Z.lor (Z.shiftl hi 64) (aget 0 r0 i) / d).

Fixpoint inv_loop (fuel : nat) (r0 r1 t0 t1 : BN) : option (BN * BN) :=
  if bn_is_zero r1 then Some (r0, t0)
  else
    match fuel with
    | O => None
    | S f =>
        if (zlen r1 =? 1) && (0 <? aget 0 r1 0)
        then
          let q := map (div_word r0 (aget 0 r1 0)) (seqZ 0 (zlen r0)) in
          qt ← bn_mul q r1;
          let tmp := bn_sub r0 qt in
          qt2 ← bn_mul q t1;
          inv_loop f r1 tmp t1 (bn_sub t0 qt2)
        else
          tmp ← bn_mod r0 r1;
          inv_loop f r1 tmp t1 bn_zero
    end.
Definition bn_modinv (fuel : nat) (a m : BN) : option (option BN) :=
  '(r0, t0) ← inv_loop fuel m a bn_zero bn_one;
  if negb (bn_cmp r0 bn_one =? 0) then Some None
  else
    t0 ← (if bn_cmp t0 (bn_set_u64 0) <? 0 then bn_add t0 m else Some t0);
    Some (Some t0).
Definition bn_modinv_fermat (a m : BN) : option BN :=
  bn_powmod a (bn_sub m (bn_set_u64 2)) m.

(** ** Values *)

Fixpoint val (w : BN) : Z :=
  match w with [] => 0 | x :: w' => x + base * val w' end.

Definition wf_word (x : Z) : Prop := 0 <= x < base.
Definition bn_ok (a : BN) : Prop := Forall wf_word a /\ 1 <= zlen a <= BN_MAX_WORDS.

Lemma val_app a b : val (a ++ b) = val a + base ^ zlen a * val b.
Proof.
  induction a as [|x a IH]; cbn [val app].
  - change (zlen (@nil Z)) with 0. lia.
  - rewrite IH, zlen_cons, Z.pow_add_r by (pose proof (zlen_nonneg a); lia). lia.
Qed.

Lemma val_snoc a x : val (a ++ [x]) = val a + base ^ zlen a * x.
Proof. rewrite val_app. cbn [val]. f_equal. f_equal. lia. Qed.

Lemma val_bounds a : Forall wf_word a -> 0 <= val a < base ^ zlen a.
Proof.
  induction 1 as [|x a Hx _ IH]; cbn [val].
  - change (zlen (@nil Z)) with 0. lia.
  - rewrite zlen_cons, Z.pow_add_r by (pose proof (zlen_nonneg a); lia).
    unfold wf_word in Hx. nia.
Qed.

Lemma val_zeros n : val (replicate n 0) = 0.
Proof. induction n; cbn [val replicate]; lia. Qed.

Lemma word_in a i : 0 <= i < zlen a -> word a i = aget 0 a i.
Proof. intros. unfold word. case_test; [done|lia]. Qed.

Lemma word_out a i : zlen a <= i -> word a i = 0.
Proof. intros. unfold word. case_test; [lia|done]. Qed.

Lemma wf_word_at a i : Forall wf_word a -> 0 <= i -> wf_word (word a i).
Proof.
  intros Ha Hi. unfold word. case_test; [|split; lia].
  apply Forall_aget; [done|lia].
Qed.

(** The value of the low [i] words, one word at a time. *)
Definition low (a : BN) (i : Z) : Z := val (take (Z.to_nat i) a).

Lemma low_0 a : low a 0 = 0.
Proof. reflexivity. Qed.

Lemma low_all a i : zlen a <= i -> low a i = val a.
Proof. intros. unfold low. unfold zlen in *. rewrite take_ge by lia. done. Qed.

Lemma low_step a i : 0 <= i -> low a (i + 1) = low a i + base ^ i * word a i.
Proof.
  intros Hi. destruct (Z.lt_ge_cases i (zlen a)) as [Hlt|Hge].
  - unfold low. replace (Z.to_nat (i + 1)) with (S (Z.to_nat i)) by lia.
    unfold zlen in Hlt. destruct (lookup_lt_is_Some_2 a (Z.to_nat i)) as [x Hx]; [lia|].
    rewrite (take_S_r _ _ x) by done. rewrite val_snoc.
    rewrite word_in by (unfold zlen; lia). unfold aget. rewrite nth_lookup, Hx. simpl.
    do 2 f_equal. unfold zlen. rewrite length_take. f_equal. lia.
  - rewrite !low_all, word_out by lia. lia.
Qed.

Lemma low_bounds a i : Forall wf_word a -> 0 <= i -> 0 <= low a i < base ^ i.
Proof.
  intros Ha Hi. unfold low.
  pose proof (val_bounds (take (Z.to_nat i) a) (Forall_take _ _ _ Ha)) as Hb.
  assert (zlen (take (Z.to_nat i) a) <= i) by (unfold zlen; rewrite length_take; lia).
  pose proof (Z.pow_le_mono_r base (zlen (take (Z.to_nat i) a)) i). lia.
Qed.

Lemma wf_u64 x : wf_word (u64 x).
Proof. apply u64_range. Qed.

Lemma wf_snoc a x : Forall wf_word a -> wf_word x -> Forall wf_word (a ++ [x]).
Proof. intros. apply Forall_app; split; [done|]. by constructor. Qed.

(** ** Comparison *)

Lemma cmp_loop_correct n a b :
  Forall wf_word a -> Forall wf_word b ->
  cmp_loop n a b = match low a (Z.of_nat n) ?= low b (Z.of_nat n) with Lt => -1 | Eq => 0 | Gt => 1 end.
Proof.
  intros Ha Hb. induction n as [|i IH]; [done|]. cbn [cmp_loop].
  replace (Z.of_nat (S i)) with (Z.of_nat i + 1) by lia.
  rewrite !low_step by lia.
  pose proof (low_bounds a (Z.of_nat i) Ha ltac:(lia)).
  pose proof (low_bounds b (Z.of_nat i) Hb ltac:(lia)).
  rewrite IH. clear IH.
  generalize dependent (low a (Z.of_nat i)). generalize dependent (low b (Z.of_nat i)).
  generalize (word a (Z.of_nat i)) (word b (Z.of_nat i)) (base ^ Z.of_nat i).
  intros x y B lb Hlb la Hla.
  destruct (Z.eqb_spec x y) as [->|Hne]; cbn [negb].
  - destruct (Z.compare_spec la lb), (Z.compare_spec (la + B * y) (lb + B * y)); lia.
  - case_test; destruct (Z.compare_spec (la + B * x) (lb + B * y)); nia.
Qed.

Lemma bn_cmp_correct a b :
  Forall wf_word a -> Forall wf_word b ->
  bn_cmp a b = match val a ?= val b with Lt => -1 | Eq => 0 | Gt => 1 end.
Proof.
  intros Ha Hb. unfold bn_cmp. rewrite cmp_loop_correct by done.
  pose proof (zlen_nonneg a). rewrite Z2Nat.id by lia. by rewrite !low_all by lia.
Qed.

(** ** Leading zero words *)

Lemma take_trim n w : (n <= length w)%nat -> val (trim n w) = val (take n w).
Proof.
  induction n as [|[|i] IH]; intros Hn; [done|done|].
  change (trim (S (S i)) w) with (if nth (S i) w 0 =? 0 then trim (S i) w else take (S (S i)) w).
  case_test; [|done]. rewrite IH by lia.
  destruct (lookup_lt_is_Some_2 w (S i)) as [x Hx]; [lia|].
  rewrite (take_S_r _ (S i) x) by done. rewrite val_snoc.
  rewrite nth_lookup, Hx in *. simpl in *. lia.
Qed.

(** Normal form: no leading zero word but in the number zero itself. *)
Definition bn_normal (a : BN) : Prop := zlen a = 1 \/ aget 0 a (zlen a - 1) <> 0.

Lemma trim_normal n w : (1 <= n <= length w)%nat -> bn_normal (trim n w) /\ 1 <= zlen (trim n w) <= Z.of_nat n.
Proof.
  induction n as [|[|i] IH]; intros Hn; [lia| |].
  - assert (E : zlen (trim 1 w) = 1) by (unfold zlen; simpl; rewrite length_take; lia).
    split; [by left|lia].
  - change (trim (S (S i)) w) with (if nth (S i) w 0 =? 0 then trim (S i) w else take (S (S i)) w).
    case_test; [destruct IH; [lia|split; [done|lia]]|].
    assert (E : zlen (take (S (S i)) w) = Z.of_nat (S (S i))) by (unfold zlen; rewrite length_take; lia).
    split; [right|lia]. rewrite E. unfold aget.
    replace (Z.to_nat _) with (S i) by lia. rewrite nth_lookup, lookup_take_lt by lia.
    by rewrite nth_lookup in *.
Qed.

Lemma Forall_trim (P : Z -> Prop) n w : Forall P w -> Forall P (trim n w).
Proof.
  intros Hw. induction n as [|[|i] IH]; [by apply Forall_take|by apply Forall_take|].
  change (trim (S (S i)) w) with (if nth (S i) w 0 =? 0 then trim (S i) w else take (S (S i)) w).
  case_test; [done|by apply Forall_take].
Qed.

(** ** Addition and subtraction *)

Definition add_inv (a b : BN) (i : Z) (st : BN * Z) : Prop :=
  zlen st.1 = i /\ Forall wf_word st.1 /\ 0 <= st.2 <= 1 /\
  val st.1 + base ^ i * st.2 = low a i + low b i.

Lemma add_step_inv a b i st :
  Forall wf_word a -> Forall wf_word b -> 0 <= i ->
  add_inv a b i st -> add_inv a b (i + 1) (add_step a b i st).
Proof.
  intros Ha Hb Hi (Hl & Hw & Hc & Hv). unfold add_inv, add_step. cbn [fst snd].
  pose proof (wf_word_at a i Ha Hi) as Wa. pose proof (wf_word_at b i Hb Hi) as Wb.
  unfold wf_word in Wa, Wb. rewrite val_snoc, !low_step by done.
  set (s := word a i + word b i + st.2).
  assert (Hs : u64 s + base * (s / base) = s)
    by (unfold u64; pose proof (Z.div_mod s base); lia).
  assert (Hq : 0 <= s / base <= 1).
  { split; [apply Z.div_pos; lia|].
    apply Z.lt_succ_r. apply Z.div_lt_upper_bound; lia. }
  rewrite Z.shiftr_div_pow2 by lia. rewrite (u64_id (s / base)) by lia.
  repeat split; [|by apply wf_snoc, wf_u64|lia|lia|].
  - rewrite zlen_app, Hl. change (zlen [u64 s]) with 1. lia.
  - rewrite Z.pow_add_r, Hl by lia. change (base ^ 1) with base. nia.
Qed.

Lemma bn_add_correct a b r :
  bn_ok a -> bn_ok b -> bn_add a b = Some r -> bn_ok r /\ val r = val a + val b.
Proof.
  intros [Ha La] [Hb Lb]. unfold bn_add. set (n := Z.max (zlen a) (zlen b)).
  assert (Hinv : add_inv a b n (for_ 0 n (add_step a b) ([], 0))).
  { apply for_ind; [lia| |intros; apply add_step_inv; auto; lia].
    split_and!; cbn [fst snd val]; rewrite ?low_0; try lia; constructor. }
  destruct (for_ 0 n (add_step a b) ([], 0)) as [w c]. destruct Hinv as (Hl & Hw & Hc & Hv).
  cbn [fst snd] in *. rewrite !low_all in Hv by lia.
  destruct (Z.eqb_spec c 0) as [->|Hne]; cbn [negb].
  - intros [= <-]. repeat split; [done|lia|lia|lia].
  - case_test; [|done]. intros [= <-]. unfold bn_ok. rewrite zlen_app, val_snoc, Hl.
    change (zlen [c]) with 1. assert (wf_word c) by (split; lia).
    repeat split; [by apply wf_snoc|lia|lia|lia].
Qed.

(** The sum is lost only when it really needs a 65th word. *)
Lemma bn_add_total a b :
  bn_ok a -> bn_ok b -> val a + val b < base ^ BN_MAX_WORDS -> is_Some (bn_add a b).
Proof.
  intros [Ha La] [Hb Lb] Hlt. unfold bn_add. set (n := Z.max (zlen a) (zlen b)).
  assert (Hinv : add_inv a b n (for_ 0 n (add_step a b) ([], 0))).
  { apply for_ind; [lia| |intros; apply add_step_inv; auto; lia].
    split_and!; cbn [fst snd val]; rewrite ?low_0; try lia; constructor. }
  destruct (for_ 0 n (add_step a b) ([], 0)) as [w c]. destruct Hinv as (Hl & Hw & Hc & Hv).
  cbn [fst snd] in *. rewrite !low_all in Hv by lia.
  destruct (Z.eqb_spec c 0) as [->|Hne]; cbn [negb]; [by eexists|].
  case_test; [by eexists|]. exfalso. assert (n = 64) as Hn by lia. rewrite Hn in Hv.
  pose proof (val_bounds w Hw). nia.
Qed.

Definition sub_inv (a b : BN) (i : Z) (st : BN * Z) : Prop :=
  zlen st.1 = i /\ Forall wf_word st.1 /\ 0 <= st.2 <= 1 /\
  val st.1 - base ^ i * st.2 = low a i - low b i.

Lemma sub_step_inv a b i st :
  Forall wf_word a -> Forall wf_word b -> 0 <= i < zlen a ->
  sub_inv a b i st -> sub_inv a b (i + 1) (sub_step a b i st).
Proof.
  intros Ha Hb Hi (Hl & Hw & Hc & Hv). unfold sub_inv, sub_step. cbn [fst snd].
  pose proof (wf_word_at a i Ha ltac:(lia)) as Wa. pose proof (wf_word_at b i Hb ltac:(lia)) as Wb.
  unfold wf_word in Wa, Wb. rewrite val_snoc, !low_step by lia. rewrite <- word_in by lia.
  set (s := word a i - word b i - st.2).
  assert (Hs : u64 s - base * (if s <? 0 then 1 else 0) = s).
  { unfold u64. case_test.
    - rewrite <- (Z.mod_add s 1) by lia. rewrite Z.mod_small; lia.
    - rewrite Z.mod_small; lia. }
  repeat split; [|by apply wf_snoc, wf_u64|case_test; lia|case_test; lia|].
  - rewrite zlen_app, Hl. change (zlen [u64 s]) with 1. lia.
  - rewrite Z.pow_add_r, Hl by lia. change (base ^ 1) with base.
    revert Hs. generalize (if s <? 0 then 1 else 0) (u64 s). intros. nia.
Qed.

Lemma bn_sub_correct a b :
  bn_ok a -> bn_ok b -> val b <= val a ->
  bn_ok (bn_sub a b) /\ bn_normal (bn_sub a b) /\ val (bn_sub a b) = val a - val b.
Proof.
  intros [Ha La] [Hb Lb] Hle. unfold bn_sub.
  assert (Hinv : sub_inv a b (zlen a) (for_ 0 (zlen a) (sub_step a b) ([], 0))).
  { apply for_ind; [lia| |intros; apply sub_step_inv; auto; lia].
    split_and!; cbn [fst snd val]; rewrite ?low_0; try lia; constructor. }
  destruct (for_ 0 (zlen a) (sub_step a b) ([], 0)) as [w c]. destruct Hinv as (Hl & Hw & Hc & Hv).
  cbn [fst snd] in *. rewrite (low_all a) in Hv by lia.
  assert (Hlen : length w = length a) by (unfold zlen in Hl; lia).
  destruct (trim_normal (length a) w) as [Hn Hz]; [unfold zlen in La; lia|].
  assert (low b (zlen a) = val b /\ c = 0) as [Hlow ->].
  { pose proof (low_bounds b (zlen a) Hb ltac:(lia)). pose proof (val_bounds w Hw) as Bw.
    pose proof (val_bounds a Ha). rewrite Hl in Bw.
    assert (Hlb : low b (zlen a) = val b).
    { unfold low. rewrite <- (take_drop (Z.to_nat (zlen a)) b) at 2. rewrite val_app.
      pose proof (val_bounds (drop (Z.to_nat (zlen a)) b) (Forall_drop _ _ _ Hb)).
      rewrite <- (take_drop (Z.to_nat (zlen a)) b) in Hle. rewrite val_app in Hle.
      destruct (Z.le_gt_cases (zlen b) (zlen a)) as [Hba|Hba].
      - rewrite drop_ge by (unfold zlen in *; lia). cbn [val]. lia.
      - assert (E : zlen (take (Z.to_nat (zlen a)) b) = zlen a)
          by (unfold zlen in *; rewrite length_take; lia).
        rewrite E in *.
        pose proof (val_bounds (take (Z.to_nat (zlen a)) b) (Forall_take _ _ _ Hb)).
        assert (val (drop (Z.to_nat (zlen a)) b) = 0) as -> by nia. lia. }
    split; [done|]. nia. }
  split; [split; [by apply Forall_trim|unfold zlen in *; lia]|]. split; [done|].
  rewrite take_trim by lia. rewrite take_ge by lia. lia.
Qed.

(** ** Multiplication *)

Lemma val_aset w i v :
  0 <= i < zlen w -> val (aset w i v) = val w + base ^ i * (v - aget 0 w i).
Proof.
  revert i. induction w as [|x w IH]; intros i Hi; [change (zlen (@nil Z)) with 0 in Hi; lia|].
  rewrite zlen_cons in Hi. unfold aset, aget in *.
  destruct (Z.eq_dec i 0) as [->|Hne]; [simpl; lia|].
  replace (Z.to_nat i) with (S (Z.to_nat (i - 1))) by lia. cbn [val nth].
  change (<[S (Z.to_nat (i - 1)):=v]> (x :: w)) with (x :: <[Z.to_nat (i - 1):=v]> w).
  cbn [val]. rewrite IH by lia. replace i with (1 + (i - 1)) at 3 by lia.
  rewrite Z.pow_add_r by lia. lia.
Qed.

(** The words above the row's reach are still zero. *)
Definition zero_from (r : BN) (k : Z) : Prop := forall j, k <= j < zlen r -> aget 0 r j = 0.

Definition row_inv (a b r0 : BN) (i : Z) (j : Z) (st : BN * Z) : Prop :=
  zlen st.1 = zlen r0 /\ Forall wf_word st.1 /\ 0 <= st.2 < base /\
  zero_from st.1 (i + zlen b) /\
  val st.1 + base ^ (i + j) * st.2 = val r0 + base ^ i * aget 0 a i * low b j.

Lemma mul_step_inv a b r0 i j st :
  Forall wf_word a -> Forall wf_word b -> 0 <= i < zlen a -> 0 <= j < zlen b ->
  zlen r0 = zlen a + zlen b ->
  row_inv a b r0 i j st -> row_inv a b r0 i (j + 1) (mul_step a b i j st).
Proof.
  intros Ha Hb Hi Hj Hr (Hl & Hw & Hc & Hz & Hv). unfold row_inv, mul_step. cbn [fst snd].
  pose proof (Forall_aget 0 wf_word a i Ha Hi) as Wa. pose proof (Forall_aget 0 wf_word b j Hb Hj) as Wb.
  pose proof (Forall_aget 0 wf_word st.1 (i + j) Hw ltac:(lia)) as Wr. unfold wf_word in Wa, Wb, Wr.
  set (p := aget 0 a i * aget 0 b j + aget 0 st.1 (i + j) + st.2).
  assert (Hp : 0 <= p < base * base) by (unfold p; nia).
  assert (Hs : u64 p + base * (p / base) = p) by (unfold u64; pose proof (Z.div_mod p base); lia).
  assert (Hq : 0 <= p / base < base).
  { split; [apply Z.div_pos; lia|]. apply Z.div_lt_upper_bound; lia. }
  rewrite Z.shiftr_div_pow2 by lia. rewrite (u64_id (p / base)) by lia.
  repeat split.
  - by rewrite zlen_aset.
  - apply Forall_aset; [done|apply wf_u64].
  - lia.
  - lia.
  - intros k Hk. rewrite zlen_aset in Hk. rewrite aget_aset_ne by lia. by apply Hz.
  - rewrite val_aset by lia. rewrite low_step, word_in by lia.
    replace (i + (j + 1)) with (i + j + 1) by lia.
    rewrite !(Z.pow_add_r base (i + j)) by lia. change (base ^ 1) with base.
    rewrite (Z.pow_add_r base i j) in * by lia.
    unfold p in *. nia.
Qed.

Definition mul_inv (a b : BN) (i : Z) (r : BN) : Prop :=
  zlen r = zlen a + zlen b /\ Forall wf_word r /\ zero_from r (i + zlen b) /\
  val r = low a i * val b.

Lemma mul_row_inv a b i r :
  Forall wf_word a -> Forall wf_word b -> 0 <= i < zlen a ->
  mul_inv a b i r -> mul_inv a b (i + 1) (mul_row a b i r).
Proof.
  intros Ha Hb Hi (Hl & Hw & Hz & Hv). unfold mul_row. pose proof (zlen_nonneg b).
  assert (Hrow : row_inv a b r i (zlen b) (for_ 0 (zlen b) (mul_step a b i) (r, 0))).
  { apply for_ind; [lia| |intros; apply mul_step_inv; auto; lia].
    split_and!; cbn [fst snd]; rewrite ?low_0; auto; lia. }
  destruct (for_ 0 (zlen b) (mul_step a b i) (r, 0)) as [w c].
  destruct Hrow as (Hl' & Hw' & Hc & Hz' & Hv'). cbn [fst snd] in *.
  rewrite (low_all b), Hv in Hv' by lia.
  assert (Htop : aget 0 w (i + zlen b) = 0) by (apply Hz'; lia).
  assert (Hsum : val w + base ^ (i + zlen b) * c = low a (i + 1) * val b).
  { rewrite Hv', low_step, word_in by lia. nia. }
  assert (Hz1 : forall v, zero_from (aset w (i + zlen b) v) (i + 1 + zlen b)).
  { intros v k Hk. rewrite zlen_aset in Hk. rewrite aget_aset_ne by lia. apply Hz'. lia. }
  destruct (Z.eqb_spec c 0) as [->|Hne]; cbn [negb].
  - split_and!; [lia|done| |lia]. intros k Hk. apply Hz'. lia.
  - rewrite Htop, Z.add_0_l, u64_id by lia. split_and!.
    + rewrite zlen_aset. lia.
    + apply Forall_aset; [done|split; lia].
    + apply Hz1.
    + rewrite val_aset, Htop by lia. rewrite Z.sub_0_r. lia.
Qed.

Lemma bn_mul_correct a b r :
  bn_ok a -> bn_ok b -> bn_mul a b = Some r -> bn_ok r /\ bn_normal r /\ val r = val a * val b.
Proof.
  intros [Ha La] [Hb Lb]. unfold bn_mul. case_test; [done|]. intros [= <-].
  set (r0 := replicate (Z.to_nat (zlen a + zlen b)) 0).
  assert (Hl0 : zlen r0 = zlen a + zlen b) by (unfold r0, zlen; rewrite length_replicate; lia).
  assert (Hinv : mul_inv a b (zlen a) (for_ 0 (zlen a) (mul_row a b) r0)).
  { apply for_ind; [lia| |intros; apply mul_row_inv; auto; lia]. split_and!.
    - done.
    - apply Forall_replicate. split; lia.
    - intros k Hk. unfold aget, r0. rewrite nth_lookup, lookup_replicate_2; [done|]. lia.
    - unfold r0. rewrite val_zeros, low_0. lia. }
  destruct Hinv as (Hl & Hw & _ & Hv). rewrite low_all in Hv by lia.
  destruct (trim_normal (Z.to_nat (zlen a + zlen b)) (for_ 0 (zlen a) (mul_row a b) r0)) as [Hn Hz].
  { unfold zlen in *. lia. }
  split_and!; [split; [by apply Forall_trim|lia]|done|].
  rewrite take_trim by (unfold zlen in *; lia). rewrite take_ge by (unfold zlen in *; lia). done.
Qed.

(** ** Shifting by one bit *)

Lemma shr_word_value e i :
  Forall wf_word e -> 0 <= i < zlen e ->
  shr_word e i = word e i / 2 + 2 ^ 63 * (word e (i + 1) mod 2).
Proof.
  intros He Hi. pose proof (wf_word_at e i He ltac:(lia)) as W. unfold wf_word in W.
  unfold shr_word. rewrite <- (word_in e i) by lia. rewrite Z.shiftr_div_pow2 by lia.
  change (2 ^ 1) with 2. case_test.
  - rewrite <- (word_in e (i + 1)) by lia.
    assert (E : u64 (Z.shiftl (word e (i + 1)) 63) = 2 ^ 63 * (word e (i + 1) mod 2)).
    { unfold u64. rewrite Z.shiftl_mul_pow2 by lia. rewrite (Z.mul_comm (word e (i + 1))).
      change (2 ^ 64) with (2 ^ 63 * 2). by rewrite Z.mul_mod_distr_l by lia. }
    rewrite E. assert (0 <= word e i / 2 < 2 ^ 63)
      by (split; [apply Z.div_pos; lia|apply Z.div_lt_upper_bound; lia]).
    by rewrite lor_high by lia.
  - rewrite (word_out e (i + 1)) by lia. change (0 mod 2) with 0. lia.
Qed.

Lemma shr_words_value e i :
  Forall wf_word e -> 0 <= i <= zlen e ->
  2 * val (map (shr_word e) (seqZ 0 i)) + word e 0 mod 2 = low e i + base ^ i * (word e i mod 2).
Proof.
  intros He. assert (Hn : forall n, Z.of_nat n <= zlen e ->
    2 * val (map (shr_word e) (seqZ 0 (Z.of_nat n))) + word e 0 mod 2 =
    low e (Z.of_nat n) + base ^ Z.of_nat n * (word e (Z.of_nat n) mod 2)).
  { induction n as [|n IH]; intros Hn.
    - change (Z.of_nat 0) with 0. rewrite low_0, seqZ_nil by lia. cbn [map val]. rewrite Z.pow_0_r. lia.
    - replace (Z.of_nat (S n)) with (Z.of_nat n + 1) by lia. set (k := Z.of_nat n) in *.
      rewrite seqZ_app, map_app by lia. rewrite (seqZ_cons (0 + k)), (seqZ_nil _ (Z.pred 1)) by lia.
      cbn [map]. rewrite val_snoc, low_step, (shr_word_value e (0 + k)) by (auto; lia).
      assert (zlen (map (shr_word e) (seqZ 0 k)) = k) as ->
        by (unfold zlen; rewrite length_map, length_seqZ; lia).
      specialize (IH ltac:(lia)). rewrite Z.add_0_l, Z.pow_add_r by lia.
      pose proof (Z.div_mod (word e k) 2). change (base ^ 1) with (2 * 2 ^ 63). nia. }
  intros Hi. specialize (Hn (Z.to_nat i)). rewrite Z2Nat.id in Hn by lia. apply Hn. lia.
Qed.

Lemma bn_shr1_correct e :
  bn_ok e -> bn_ok (bn_shr1 e) /\ bn_normal (bn_shr1 e) /\ val (bn_shr1 e) = val e / 2.
Proof.
  intros [He Le]. unfold bn_shr1. set (w := map (shr_word e) (seqZ 0 (zlen e))).
  assert (Hl : length w = length e) by (unfold w; rewrite length_map, length_seqZ; unfold zlen; lia).
  destruct (trim_normal (length e) w) as [Hn Hz]; [unfold zlen in Le; lia|].
  assert (Hw : Forall wf_word w).
  { apply Forall_forall. intros x Hx. apply in_map_iff in Hx as (i & <- & Hi%list_elem_of_In%elem_of_seqZ).
    rewrite shr_word_value by (auto; lia).
    pose proof (wf_word_at e i He ltac:(lia)) as W. unfold wf_word in *.
    pose proof (Z.mod_pos_bound (word e (i + 1)) 2).
    assert (0 <= word e i / 2 < 2 ^ 63)
      by (split; [apply Z.div_pos; lia|apply Z.div_lt_upper_bound; lia]). lia. }
  split_and!; [split; [by apply Forall_trim|unfold zlen in *; lia]|done|].
  rewrite take_trim, take_ge by lia.
  pose proof (shr_words_value e (zlen e) He ltac:(lia)) as Hv. fold w in Hv.
  rewrite low_all, (word_out e (zlen e)) in Hv by lia. change (0 mod 2) with 0 in Hv. rewrite Z.mul_0_r in Hv.
  pose proof (Z.mod_pos_bound (word e 0) 2). apply (Z.div_unique _ _ _ (word e 0 mod 2)); lia.
Qed.

Lemma bn_is_zero_normal e : Forall wf_word e -> bn_normal e -> bn_is_zero e = (val e =? 0).
Proof.
  intros He Hn. unfold bn_is_zero. destruct e as [|x [|y e]].
  - destruct Hn as [Hn|Hn]; done.
  - change (zlen [x]) with 1. cbn [val]. unfold aget. simpl. f_equal. lia.
  - rewrite !zlen_cons. pose proof (zlen_nonneg e). destruct (Z.eqb_spec (1 + (1 + zlen e)) 1); [lia|].
    simpl andb. symmetry. apply Z.eqb_neq. intros Hv.
    destruct Hn as [Hn|Hn]; [rewrite !zlen_cons in Hn; lia|]. apply Hn.
    assert (Hz : Forall (fun x => x = 0) (x :: y :: e)).
    { clear Hn n. revert He Hv. generalize (x :: y :: e). induction 1 as [|z l Hz Hl IH]; [done|].
      cbn [val]. intros Hv. pose proof (val_bounds l Hl). unfold wf_word in Hz.
      assert (z = 0) as -> by lia. constructor; [done|]. apply IH. lia. }
    apply (Forall_aget 0 (fun x => x = 0)); [done|]. rewrite !zlen_cons. lia.
Qed.

(** Fuel for the exponentiation: the bits of the exponent. *)
Lemma pow_loop_fuel f k res b e m :
  bn_ok e -> bn_normal e -> val e < 2 ^ Z.of_nat f ->
  pow_loop (f + k) res b e m = pow_loop f res b e m.
Proof.
  revert res b e. induction f as [|f IH]; intros res b e Hok Hn Hlt.
  - destruct Hok as [He _]. pose proof (val_bounds e He).
    assert (E : bn_is_zero e = true).
    { rewrite bn_is_zero_normal by done. apply Z.eqb_eq. change (2 ^ Z.of_nat 0) with 1 in Hlt. lia. }
    destruct k; cbn [pow_loop Nat.add]; by rewrite E.
  - cbn [pow_loop Nat.add]. destruct (bn_is_zero e); [done|].
    destruct (if _ =? 1 then _ else _) as [res'|]; [|done]. cbn [mbind option_bind].
    destruct (bn_mulmod b b m) as [b'|]; [|done].
    destruct (bn_shr1_correct e Hok) as (Hok' & Hn' & Hv).
    apply IH; [done|done|]. rewrite Hv. apply Z.div_lt_upper_bound; [lia|].
    rewrite Nat2Z.inj_succ, Z.pow_succ_r in Hlt by lia. lia.
Qed.

Lemma bn_powmod_fuel k b e m :
  bn_ok e -> pow_loop (64 * length e + k) bn_one b e m = bn_powmod b e m.
Proof.
  intros Hok. unfold bn_powmod. assert (exists f, (64 * length e = S f)%nat) as [f Hf].
  { destruct Hok as [_ Hl]. unfold zlen in Hl. exists (64 * length e - 1)%nat. lia. }
  rewrite Hf. cbn [pow_loop Nat.add]. destruct (bn_is_zero e); [done|].
  destruct (if _ =? 1 then _ else _) as [res'|]; [|done]. cbn [mbind option_bind].
  destruct (bn_mulmod b b m) as [b'|]; [|done].
  destruct (bn_shr1_correct e Hok) as (Hok' & Hn' & Hv).
  apply pow_loop_fuel; [done|done|]. rewrite Hv. apply Z.div_lt_upper_bound; [lia|].
  destruct Hok as [He _]. pose proof (val_bounds e He) as Hb. unfold zlen in Hb.
  rewrite <- Z.pow_mul_r in Hb by lia. rewrite <- Z.pow_succ_r, <- Nat2Z.inj_succ, <- Hf by lia.
  rewrite Nat2Z.inj_mul. change (Z.of_nat 64) with 64. lia.
Qed.

(** ** The reduction *)

Lemma mod_step_some r m q q' : mod_step r m (Some q) = mod_step r m (Some q').
Proof. done. Qed.

Lemma mod_step_idem r m q : mod_step r m (mod_step r m (Some q)) = mod_step r m (Some q).
Proof. unfold mod_step. cbn [mbind option_bind]. by destruct (bn_add r r). Qed.

Lemma mod_passes r m n q :
  0 < n -> for_ 0 n (fun _ q => mod_step r m q) (Some q) = mod_step r m (Some bn_zero).
Proof.
  intros Hn. rewrite for_step by lia.
  apply (for_inv (fun s => s = mod_step r m (Some bn_zero))); [done|].
  intros i s _ ->. apply mod_step_idem.
Qed.

(** [bn_mod] answers [2a-m] for every [a] that is not below the modulus: the
    inner loop doubles [r], which it never updates, instead of the remainder. *)
Lemma bn_mod_result a m r :
  bn_ok a -> bn_ok m -> val m <= val a ->
  bn_mod a m = Some r -> val r = 2 * val a - val m.
Proof.
  intros Ha Hm Hle. unfold bn_mod. destruct (Ha) as [Wa La], (Hm) as [Wm Lm].
  rewrite bn_cmp_correct by done.
  replace (match val a ?= val m with Lt => -1 | Eq => 0 | Gt => 1 end <? 0) with false
    by (destruct (Z.compare_spec (val a) (val m)); [done|lia|done]).
  assert (E : for_ 0 (zlen a) (fun _ q => for_ 0 64 (fun _ q => mod_step a m q) q) (Some bn_zero) =
              mod_step a m (Some bn_zero)).
  { rewrite for_step, mod_passes by lia.
    apply (for_inv (fun s => s = mod_step a m (Some bn_zero))); [done|].
    intros i s _ ->. destruct (mod_step a m (Some bn_zero)) as [q|] eqn:Es.
    - by rewrite mod_passes, Es by lia.
    - by apply (for_inv (fun s => s = None)); [|intros j s _ ->]. }
  rewrite E. unfold mod_step. cbn [mbind option_bind].
  destruct (bn_add a a) as [q|] eqn:Eq; [|done]. cbn [mbind option_bind].
  destruct (bn_add_correct a a q Ha Ha Eq) as [Hq Hv]. intros [= <-].
  pose proof (val_bounds m Wm). rewrite bn_cmp_correct by (apply Hq || done).
  destruct (bn_sub_correct q m Hq Hm ltac:(lia)) as (_ & _ & Hs).
  destruct (Z.compare_spec (val q) (val m)); simpl; lia.
Qed.

Lemma bn_mod_does_not_reduce a m r :
  bn_ok a -> bn_ok m -> 0 < val m <= val a -> bn_mod a m = Some r -> val r <> val a mod val m.
Proof.
  intros Ha Hm Hle Hr. rewrite (bn_mod_result a m r) by (auto; lia).
  pose proof (Z.mod_pos_bound (val a) (val m)). lia.
Qed.

(** ** Primes *)

(** Each pass of the search builds the same candidate: a composite candidate is
    tried forever. *)
Lemma bn_gen_prime_first_or_never bits fuel p :
  bn_gen_prime fuel bits = Some p -> bn_gen_prime 1 bits = Some p.
Proof.
  induction fuel as [|f IH]; [done|]. cbn [bn_gen_prime].
  destruct (bn_is_prime (gen_candidate bits) 8) as [[]|] eqn:E; cbn [mbind option_bind]; [done| |done].
  intros H. specialize (IH H). cbn [bn_gen_prime] in IH. by rewrite E in IH.
Qed.

(** The test strips factors of two from [n-2], which is odd: it never squares. *)
Lemma is_prime_rejects_seven : bn_is_prime [7] 8 = Some false.
Proof. vm_compute. reflexivity. Qed.

Ltac bn_literal :=
  split; [repeat first [apply Forall_nil_2 | apply Forall_cons_2; [unfold wf_word; lia|]]
         |unfold zlen; cbn [length]; lia].

(** C9: On well-formed operands the multi-word routines compute integer
    arithmetic: [bn_cmp] is the sign of the difference, [bn_add] the sum (lost
    only when it does not fit 64 words), [bn_sub] the difference of a larger and
    a smaller number, [bn_mul] the product (refused only above 64 words), each
    result again well-formed and the last two without leading zero words, and
    the shift of the exponentiation loop halves its exponent. *)
Theorem bn_arith_correct a b :
  bn_ok a -> bn_ok b ->
  bn_cmp a b = match val a ?= val b with Lt => -1 | Eq => 0 | Gt => 1 end /\
  (forall r, bn_add a b = Some r -> bn_ok r /\ val r = val a + val b) /\
  (val a + val b < base ^ BN_MAX_WORDS -> is_Some (bn_add a b)) /\
  (val b <= val a -> bn_ok (bn_sub a b) /\ bn_normal (bn_sub a b) /\ val (bn_sub a b) = val a - val b) /\
  (forall r, bn_mul a b = Some r -> bn_ok r /\ bn_normal r /\ val r = val a * val b) /\
  (zlen a + zlen b <= BN_MAX_WORDS -> is_Some (bn_mul a b)) /\
  (bn_ok (bn_shr1 a) /\ val (bn_shr1 a) = val a / 2).
Proof.
  intros Ha Hb. split_and!.
  - apply bn_cmp_correct; [apply Ha|apply Hb].
  - intros r. by apply bn_add_correct.
  - by apply bn_add_total.
  - by apply bn_sub_correct.
  - intros r. by apply bn_mul_correct.
  - intros Hl. unfold bn_mul. case_test; [lia|by eexists].
  - apply bn_shr1_correct, Ha.
  - by apply bn_shr1_correct.
Qed.

Lemma bn_arith_correct_witness :
  bn_mul [2^64 - 1; 2^64 - 1] [2^64 - 1] = Some [1; 2^64 - 1; 2^64 - 2] /\
  val [1; 2^64 - 1; 2^64 - 2] = val [2^64 - 1; 2^64 - 1] * val [2^64 - 1].
Proof.
  split; [vm_compute; reflexivity|].
  apply (bn_arith_correct [2^64 - 1; 2^64 - 1] [2^64 - 1]); [bn_literal|bn_literal|].
  vm_compute. reflexivity.
Defined.
