(* ===== verification/Rsa.v ===== *)
(** * RSA with PKCS#1 v1.5 padding ([crypto/rsa.h])

    The numbers are those of [Bignum.v]; [None] is a word array written past its
    end or a loop that does not end. *)

From Stdlib Require Import ZArith Lia.
From stdpp Require Import base numbers list list_numbers option.
From S2P Require Import Prelude Bignum.

Notation RSA_KEY_BITS := 2048 (only parsing).
Notation RSA_KEY_BYTES := 256 (only parsing).

Record RSA_KEY := RsaKey { k_n : BN; k_e : BN; k_d : BN; k_p : BN; k_q : BN; k_dp : BN; k_dq : BN; k_qinv : BN }.

(** ** Bytes and words *)

(** [w|=(uint64_t)em[i*8+j]<<(56-j*8)] for [j<8] while there are bytes. *)
Definition word_of (bs : list Z) : Z := foldr Z.lor 0 (imap (fun j b => Z.shiftl b (56 - 8 * Z.of_nat j)) bs).
Fixpoint bytes_bn (fuel : nat) (bs : list Z) : BN :=
  match fuel with
  | O => []
  | S f => match bs with [] => [] | _ => word_of (take 8 bs) :: bytes_bn f (drop 8 bs) end
  end.
Definition to_bn (bs : list Z) : BN := bytes_bn (length bs) bs.

(** Byte [i] of the words [w]: [w[i/8]>>(56-(i%8)*8)]. *)
Definition byte_of (w : list Z) (i : Z) : Z := u8 (Z.shiftr (aget 0 w (i / 8)) (56 - (i mod 8) * 8)).

(** [wn<s.n?...:0] for each of [n] bytes. *)
Definition bn_bytes (n : Z) (w : BN) : list Z := map (fun i => if i / 8 <? zlen w then byte_of w i else 0) (seqZ 0 n).

(** ** The operations *)

Definition rsa_public (m e n : BN) : option BN := bn_powmod m e n.

(** [bn_cmp(&h,0)<0] is never true: the numbers have no sign. *)
Definition rsa_private_crt (c : BN) (key : RSA_KEY) : option BN :=
  m1 ← bn_powmod c (k_dp key) (k_p key);
  m2 ← bn_powmod c (k_dq key) (k_q key);
  let h := bn_sub m1 m2 in
  h ← (if bn_cmp h (bn_set_u64 0) <? 0 then bn_add h (k_p key) else Some h);
  h ← bn_mulmod h (k_qinv key) (k_p key);
  h ← bn_mul h (k_q key);
  bn_add h m2.

(** *** Encryption *)

Definition pad_byte (i : Z) : Z :=
  let s := u64 (0xdeadbeef + i * 0x12345678) in
  let s := Z.lxor s (u64 (Z.shiftl s 13)) in
  let s := Z.lxor s (Z.shiftr s 17) in
  let s := Z.lxor s (u64 (Z.shiftl s 5)) in
  let b := Z.land (Z.shiftr s ((i mod 8) * 8)) 0xff in
  if b =? 0 then 1 else b.

(** The padded message, 256 bytes. *)
Definition encrypt_em (msg : list Z) : list Z := [0; 2] ++ map pad_byte (seqZ 2 (RSA_KEY_BYTES - zlen msg - 3)) ++ [0] ++ msg.

(** Bytes written to [out], whose size is [out_len]: only the first [(c.n+7)/8]
    words are converted. *)
Definition write_words (c : BN) (out : list Z) : list Z :=
  let n := Z.min (8 * ((zlen c + 7) / 8)) (zlen out) in
  for_ 0 n (fun i o => aset o i (byte_of c i)) out.

(** [None] inside: the message is too long. *)
Definition rsa_pkcs1_encrypt_pad (out msg : list Z) (e n : BN) : option (option (list Z)) :=
  if RSA_KEY_BYTES - 11 <? zlen msg then Some None
  else c ← rsa_public (to_bn (encrypt_em msg)) e n; Some (Some (write_words c out)).

(** [ps] of the loop over the padding. *)
Fixpoint find_sep (fuel : nat) (ps : Z) (em : list Z) : Z :=
  match fuel with
  | O => ps
  | S f => if (ps <? RSA_KEY_BYTES - 1) && negb (aget 0 em ps =? 0) then find_sep f (ps + 1) em else ps
  end.

(** The copy starts at the separator. *)
Definition unpad (em : list Z) : option (list Z) :=
  if negb (aget 0 em 0 =? 0) || negb (aget 0 em 1 =? 2) then None
  else
    let ps := find_sep 256 2 em in
    if RSA_KEY_BYTES - 1 <=? ps then None
    else Some (take (Z.to_nat (RSA_KEY_BYTES - 1 - ps)) (drop (Z.to_nat ps) em)).

(** [stack]: the words of the local [m] that the result does not set. *)
Definition rsa_pkcs1_decrypt (stack ct : list Z) (key : RSA_KEY) : option (option (list Z)) :=
  if negb (zlen ct =? RSA_KEY_BYTES) then Some None
  else
    let c := to_bn ct in
    m ← rsa_private_crt c key;
    Some (unpad (bn_bytes RSA_KEY_BYTES (take (length c) (m ++ drop (length m) stack)))).

(** *** Keys *)

(** Calls and passes of the [for(;;)] count against [fuel]. *)
Fixpoint other_prime (bits : Z) (fuel : nat) (p : BN) : option BN :=
  match fuel with
  | O => None
  | S f => q ← bn_gen_prime fuel bits; if negb (bn_cmp p q =? 0) then Some q else other_prime bits f p
  end.

Fixpoint rsa_gen_key (fuel : nat) : option RSA_KEY :=
  match fuel with
  | O => None
  | S f =>
      p ← bn_gen_prime f (RSA_KEY_BITS / 2);
      q ← other_prime (RSA_KEY_BITS / 2) f p;
      n ← bn_mul p q;
      let e := bn_set_u64 65537 in
      let pm1 := bn_sub p (bn_set_u64 1) in
      let qm1 := bn_sub q (bn_set_u64 1) in
      phi ← bn_mul pm1 qm1;
      inv ← bn_modinv f e phi;
      match inv with
      | None => rsa_gen_key f
      | Some d =>
          dp ← bn_mod (bn_sub d pm1) pm1;
          dq ← bn_mod (bn_sub d qm1) qm1;
          qinv ← bn_modinv f q p;
          Some (RsaKey n e d p q dp dq (default [] qinv))
      end
  end.

(** *** Signatures *)

Definition DIGEST_INFO : list Z := [0x30;0x31;0x30;0x0d;0x06;0x09;0x60;0x86;0x48;0x01;0x65;0x03;0x04;0x02;0x01;0x05;0x00;0x04;0x20].

(** [hole]: the 18 bytes of [em] that are never set. *)
Definition sign_em (hole hash : list Z) : list Z :=
  [0; 1] ++ replicate 197 0xff ++ [0] ++ take 18 hole ++ take 38 (DIGEST_INFO ++ take 32 hash).

Definition rsa_sign (hole hash : list Z) (key : RSA_KEY) : option (list Z) :=
  s ← rsa_private_crt (to_bn (sign_em hole hash)) key; Some (bn_bytes RSA_KEY_BYTES s).

Fixpoint skip_ff (fuel : nat) (i : Z) (em : list Z) : Z :=
  match fuel with
  | O => i
  | S f => if (i <? RSA_KEY_BYTES) && (aget 0 em i =? 0xff) then skip_ff f (i + 1) em else i
  end.

Definition check_em (em hash : list Z) : bool :=
  let i := skip_ff 256 2 em in
  let di_start := RSA_KEY_BYTES - 38 - 19 in
  (aget 0 em 0 =? 0) && (aget 0 em 1 =? 1) && (11 <=? i) && (aget 0 em i =? 0) && (i =? di_start) &&
  forallb (fun j => aget 0 em (di_start + j) =? aget 0 DIGEST_INFO j) (seqZ 0 19) &&
  forallb (fun j => aget 0 em (di_start + 19 + j) =? aget 0 hash j) (seqZ 0 32).

Definition rsa_verify (sig hash : list Z) (e n : BN) : option bool :=
  m ← rsa_public (to_bn sig) e n; Some (check_em (bn_bytes RSA_KEY_BYTES m) hash).

(** ** Bytes to words and back *)

Fixpoint horner (l : list Z) (acc : Z) : Z := match l with [] => acc | b :: l' => horner l' (acc * 256 + b) end.

Lemma horner_snoc l : forall b acc, horner (l ++ [b]) acc = horner l acc * 256 + b.
Proof. induction l as [|x l IH]; intros b acc; cbn [app horner]; [done|apply IH]. Qed.

Lemma horner_digit l : forall k, bytes_ok l -> (k < length l)%nat -> (horner l 0 / 256 ^ Z.of_nat (length l - 1 - k)) mod 256 = nth k l 0.
Proof.
  induction l as [|b l IH] using rev_ind; intros k Hl Hk; [cbn in Hk; lia|].
  apply Forall_app in Hl as [Hl Hb]. apply Forall_inv in Hb. unfold byte_ok in Hb. rewrite length_app in *. cbn [length] in *. rewrite horner_snoc.
  destruct (decide (k = length l)) as [->|Hne].
  - replace (length l + 1 - 1 - length l)%nat with 0%nat by lia. rewrite Z.div_1_r, app_nth2, Nat.sub_diag by lia. cbn [nth].
    rewrite Z.add_comm, Z.mod_add by lia. apply Z.mod_small. lia.
  - rewrite app_nth1 by lia. rewrite <- (IH k) by (done || lia). replace (length l + 1 - 1 - k)%nat with (S (length l - 1 - k)) by lia.
    rewrite Nat2Z.inj_succ, Z.pow_succ_r, <- Z.div_div by lia. do 2 f_equal. rewrite Z.div_add_l by lia. rewrite (Z.div_small b 256) by lia. lia.
Qed.

Lemma word_of_horner l : length l = 8%nat -> bytes_ok l -> word_of l = horner l 0.
Proof.
  intros Hl Hb. destruct l as [|b0 [|b1 [|b2 [|b3 [|b4 [|b5 [|b6 [|b7 [|]]]]]]]]]; try discriminate Hl.
  unfold bytes_ok in Hb. repeat (apply Forall_cons_1 in Hb as [? Hb]). unfold byte_ok in *.
  unfold word_of. cbn [imap foldr compose Z.of_nat Pos.of_succ_nat Pos.succ]. rewrite Z.lor_0_r. rewrite !Z.shiftl_mul_pow2 by lia.
  cbn [Z.sub Z.mul Pos.mul Z.add Z.opp Z.pos_sub Pos.pred_double Z.pred_double Pos.add Z.succ_double Z.double].
  rewrite (Z.lor_comm (b6 * _)), (Z.mul_comm b6), (lor_high _ b6 8) by lia. rewrite (Z.lor_comm (b5 * _)), (Z.mul_comm b5), (lor_high _ b5 16) by lia.
  rewrite (Z.lor_comm (b4 * _)), (Z.mul_comm b4), (lor_high _ b4 24) by lia. rewrite (Z.lor_comm (b3 * _)), (Z.mul_comm b3), (lor_high _ b3 32) by lia.
  rewrite (Z.lor_comm (b2 * _)), (Z.mul_comm b2), (lor_high _ b2 40) by lia. rewrite (Z.lor_comm (b1 * _)), (Z.mul_comm b1), (lor_high _ b1 48) by lia.
  rewrite (Z.lor_comm (b0 * _)), (Z.mul_comm b0), (lor_high _ b0 56) by lia. cbn [horner]. lia.
Qed.

Lemma bytes_bn_word f : forall bs k, (length bs <= f)%nat -> (8 * k < length bs)%nat -> nth k (bytes_bn f bs) 0 = word_of (take 8 (drop (8 * k) bs)).
Proof.
  induction f as [|f IH]; intros bs k Hf Hk; [lia|]. destruct bs as [|b bs]; [cbn in Hk; lia|]. set (l := b :: bs) in *.
  change (bytes_bn (S f) l) with (word_of (take 8 l) :: bytes_bn f (drop 8 l)). destruct k as [|k]; [done|]. cbn [nth].
  rewrite IH by (rewrite length_drop; lia). rewrite drop_drop. do 3 f_equal. lia.
Qed.

Lemma length_bytes_bn n : forall f bs, (length bs <= f)%nat -> length bs = (8 * n)%nat -> length (bytes_bn f bs) = n.
Proof.
  induction n as [|n IH]; intros f bs Hf Hn; [destruct bs; [by destruct f|cbn in Hn; lia]|].
  destruct bs as [|b bs]; [cbn in Hn; lia|]. destruct f as [|f]; [cbn in Hf; lia|]. set (l := b :: bs) in *.
  change (bytes_bn (S f) l) with (word_of (take 8 l) :: bytes_bn f (drop 8 l)). cbn [length]. f_equal. apply IH; rewrite length_drop; lia.
Qed.

Lemma bn_bytes_roundtrip bs n : bytes_ok bs -> length bs = (8 * n)%nat -> bn_bytes (zlen bs) (to_bn bs) = bs.
Proof.
  intros Hb Hn. unfold bn_bytes, to_bn. apply list_eq. intros i. change (map ?f ?l) with (f <$> l). rewrite list_lookup_fmap.
  destruct (bs !! i) as [x|] eqn:E.
  2:{ apply lookup_ge_None in E. rewrite lookup_seqZ_ge by (unfold zlen; lia). done. }
  apply lookup_lt_Some in E as Hi. rewrite lookup_seqZ_lt by (unfold zlen; lia). cbn [fmap option_fmap option_map]. f_equal. rewrite Z.add_0_l.
  assert (Hk : Z.of_nat i / 8 = Z.of_nat (i / 8) /\ Z.of_nat i mod 8 = Z.of_nat (i mod 8)) by (by rewrite Nat2Z.inj_div, Nat2Z.inj_mod).
  destruct Hk as [Hd Hm]. pose proof (Nat.div_mod_eq i 8) as Hdm. pose proof (Nat.mod_upper_bound i 8 ltac:(lia)) as Hub. rewrite Hd.
  unfold zlen. rewrite (length_bytes_bn n) by done. rewrite (proj2 (Z.ltb_lt _ _)) by lia.
  unfold byte_of, aget. rewrite Hd, Hm, Nat2Z.id, bytes_bn_word by lia.
  set (l := take 8 (drop (8 * (i / 8)) bs)). assert (Hl8 : length l = 8%nat) by (unfold l; rewrite length_take, length_drop; lia).
  rewrite word_of_horner by (try done; apply Forall_take, Forall_drop, Hb).
  rewrite Z.shiftr_div_pow2 by lia. replace (2 ^ (56 - Z.of_nat (i mod 8) * 8)) with (256 ^ Z.of_nat (length l - 1 - i mod 8)).
  - unfold u8. change (2^8) with 256. rewrite horner_digit by (try apply Forall_take, Forall_drop, Hb; lia).
    unfold l. apply nth_lookup_Some. rewrite lookup_take_lt, lookup_drop by lia. rewrite <- E. f_equal. lia.
  - change 256 with (2^8). rewrite <- Z.pow_mul_r by lia. f_equal. lia.
Qed.

(** ** The padded block *)

Lemma pad_byte_ok i : 1 <= pad_byte i < 256.
Proof.
  unfold pad_byte. cbv zeta. set (b := Z.land _ 255). assert (0 <= b < 256); [|case_test; lia].
  unfold b. change 255 with (Z.ones 8). rewrite Z.land_ones by lia. apply Z.mod_pos_bound. lia.
Qed.

Lemma Forall_map_all {A B} (P : B -> Prop) (f : A -> B) l : (forall x, P (f x)) -> Forall P (map f l).
Proof. intros Hf. induction l as [|x l IH]; by constructor. Qed.

Lemma zlen_map_seqZ {A} (f : Z -> A) lo n : zlen (map f (seqZ lo n)) = Z.max 0 n.
Proof. unfold zlen. rewrite length_map, length_seqZ. lia. Qed.

Lemma zlen_encrypt_em msg : zlen msg <= 245 -> zlen (encrypt_em msg) = 256.
Proof.
  intros Hm. unfold encrypt_em. rewrite !zlen_app, zlen_map_seqZ. change (zlen [0; 2]) with 2. change (zlen [0]) with 1. pose proof (zlen_nonneg msg). lia.
Qed.

(** What the standard asks of a block: 00 02, at least eight non-zero bytes, 00,
    the message. *)
Definition pkcs1_block (em msg : list Z) : Prop :=
  exists ps, em = 0 :: 2 :: ps ++ 0 :: msg /\ 8 <= zlen ps /\ Forall (fun b => 1 <= b < 256) ps /\ zlen em = 256.

(** Encryption starts from a valid block: for every message of at most 245
    bytes, the padded message is a PKCS#1 type 2 block of 256 bytes (non-zero
    padding of at least eight bytes, a separator, the message), and the 32 words
    built from it hold exactly its bytes. *)
Theorem encrypt_block_correct msg : bytes_ok msg -> zlen msg <= 245 ->
  pkcs1_block (encrypt_em msg) msg /\ zlen (to_bn (encrypt_em msg)) = 32 /\ bn_bytes 256 (to_bn (encrypt_em msg)) = encrypt_em msg.
Proof.
  intros Hb Hm. pose proof (zlen_encrypt_em msg Hm) as Hz. pose proof (zlen_nonneg msg) as Hm0.
  assert (Hn : length (encrypt_em msg) = (8 * 32)%nat) by (unfold zlen in Hz; lia).
  assert (Hps : Forall (fun b => 1 <= b < 256) (map pad_byte (seqZ 2 (RSA_KEY_BYTES - zlen msg - 3)))).
  { apply Forall_map_all, pad_byte_ok. }
  split; [|split].
  - eexists. split; [reflexivity|]. rewrite zlen_map_seqZ. split; [lia|]. by split.
  - unfold to_bn, zlen. by rewrite (length_bytes_bn 32).
  - rewrite <- Hz at 1. apply (bn_bytes_roundtrip _ 32); [|done]. unfold encrypt_em. apply Forall_app. split; [repeat constructor; lia|].
    apply Forall_app. split; [eapply Forall_impl; [|exact Hps]; unfold byte_ok; cbn; lia|]. constructor; [unfold byte_ok; lia|done].
Qed.

Lemma encrypt_block_correct_witness : pkcs1_block (encrypt_em [1; 2; 3]) [1; 2; 3] /\ zlen (to_bn (encrypt_em [1; 2; 3])) = 32.
Proof.
  destruct (encrypt_block_correct [1; 2; 3]) as (H1 & H2 & _).
  - repeat constructor; unfold byte_ok; lia.
  - vm_compute. discriminate.
  - split; [exact H1|exact H2].
Defined.

(** ** What the code gets wrong *)

(** The separator is taken for the message: decryption returns a zero byte and
    loses the last byte. *)
Lemma find_sep_block f ps : forall k em, Forall (fun b => 1 <= b < 256) ps -> (length ps < f)%nat -> k + zlen ps < 255 ->
  (forall j, (j < length ps)%nat -> aget 0 em (k + Z.of_nat j) = nth j ps 0) -> aget 0 em (k + zlen ps) = 0 -> find_sep f k em = k + zlen ps.
Proof.
  revert ps. induction f as [|f IH]; intros ps k em Hps Hf Hk Hat H0; [lia|]. cbn [find_sep]. destruct ps as [|b ps].
  - change (zlen (@nil Z)) with 0 in *. rewrite Z.add_0_r in *. rewrite H0. change (0 =? 0) with true. cbn [negb]. by rewrite andb_false_r.
  - apply Forall_cons_1 in Hps as [Hb Hps]. rewrite zlen_cons in *. pose proof (zlen_nonneg ps).
    assert (Hb0 := Hat 0%nat ltac:(cbn; lia)). rewrite Z.add_0_r in Hb0. cbn [nth] in Hb0. rewrite Hb0.
    rewrite (proj2 (Z.ltb_lt k (256 - 1))), (proj2 (Z.eqb_neq b 0)) by lia. cbn [negb andb]. cbn [length] in Hf.
    replace (k + (1 + zlen ps)) with (k + 1 + zlen ps) by lia. apply IH; [done|lia|lia| |].
    + intros j Hj. specialize (Hat (S j) ltac:(cbn; lia)). cbn [nth] in Hat. rewrite <- Hat. f_equal. lia.
    + by replace (k + 1 + zlen ps) with (k + (1 + zlen ps)) by lia.
Qed.

Lemma unpad_keeps_the_separator msg : bytes_ok msg -> 1 <= zlen msg <= 245 -> unpad (encrypt_em msg) = Some (0 :: removelast msg).
Proof.
  intros Hb Hm. set (ps := map pad_byte (seqZ 2 (RSA_KEY_BYTES - zlen msg - 3))).
  assert (Hps : Forall (fun b => 1 <= b < 256) ps).
  { apply Forall_map_all, pad_byte_ok. }
  assert (Hl : zlen ps = 253 - zlen msg) by (unfold ps; rewrite zlen_map_seqZ; lia).
  unfold unpad. change (encrypt_em msg) with ([0; 2] ++ ps ++ [0] ++ msg). change (aget 0 ([0; 2] ++ ps ++ [0] ++ msg) 0) with 0.
  change (aget 0 ([0; 2] ++ ps ++ [0] ++ msg) 1) with 2. cbn [negb orb Z.eqb]. change (0 =? 0) with true. change (2 =? 2) with true. cbn [negb orb].
  assert (E : find_sep 256 2 ([0; 2] ++ ps ++ [0] ++ msg) = 2 + zlen ps).
  { apply find_sep_block; [done|unfold zlen in *; lia|lia| |].
    - intros j Hj. unfold aget. replace (Z.to_nat (2 + Z.of_nat j)) with (S (S j)) by lia. cbn [app nth]. by rewrite app_nth1.
    - unfold aget. replace (Z.to_nat (2 + zlen ps)) with (S (S (length ps))) by (unfold zlen; lia). cbn [app nth]. rewrite app_nth2 by lia. by rewrite Nat.sub_diag. }
  rewrite E.
  rewrite (proj2 (Z.leb_gt _ _)) by lia. f_equal.
  replace (Z.to_nat (2 + zlen ps)) with (length ([0; 2] ++ ps)) by (rewrite length_app; unfold zlen; cbn [length]; lia).
  rewrite app_assoc, drop_app_length. replace (Z.to_nat (RSA_KEY_BYTES - 1 - (2 + zlen ps))) with (S (length msg - 1)) by (unfold zlen in *; lia).
  cbn [app take]. f_equal. destruct msg as [|x msg _] using rev_ind; [done|]. rewrite removelast_last, length_app. cbn [length].
  replace (length msg + 1 - 1)%nat with (length msg) by lia. by rewrite take_app_length.
Qed.

(** Verification asks the byte behind the padding to be 0 and to be the first
    byte, 0x30, of the digest information: no signature is ever accepted. *)
Lemma verify_rejects_everything sig hash e n r : rsa_verify sig hash e n = Some r -> r = false.
Proof.
  unfold rsa_verify. destruct (rsa_public _ _ _) as [m|]; [|done]. cbn [mbind option_bind]. intros [= <-].
  unfold check_em. set (em := bn_bytes _ _). set (i := skip_ff _ _ _). destruct (_ && forallb _ (seqZ 0 32)) eqn:E; [|done]. exfalso.
  apply andb_prop in E as [E _]. apply andb_prop in E as [E Hdi]. apply andb_prop in E as [E Hi]. apply andb_prop in E as [_ H0].
  apply Z.eqb_eq in Hi, H0. rewrite forallb_forall in Hdi. specialize (Hdi 0 ltac:(apply list_elem_of_In, elem_of_seqZ; lia)).
  apply Z.eqb_eq in Hdi. rewrite Z.add_0_r in Hdi. rewrite Hi in H0. rewrite H0 in Hdi. discriminate.
Qed.

(** The two primes come from the same deterministic search: the loop that wants
    them different never ends. *)
Lemma other_prime_never bits f p k : bn_gen_prime k bits = Some p -> other_prime bits f p = None.
Proof.
  intros Hp. apply bn_gen_prime_first_or_never in Hp. induction f as [|f IH]; [done|]. cbn [other_prime].
  destruct (bn_gen_prime (S f) _) as [q|] eqn:Eq; [|done]. apply bn_gen_prime_first_or_never in Eq. rewrite Hp in Eq. injection Eq as <-.
  cbn [mbind option_bind]. assert (E : bn_cmp p p = 0).
  { unfold bn_cmp. induction (Z.to_nat _) as [|n IHn]; [done|]. cbn [cmp_loop]. by rewrite Z.eqb_refl. }
  by rewrite E.
Qed.

Lemma gen_key_never_ends f : rsa_gen_key f = None.
Proof.
  induction f as [|f IH]; [done|]. cbn [rsa_gen_key]. generalize (RSA_KEY_BITS / 2). intros bits.
  destruct (bn_gen_prime f bits) as [p|] eqn:Ep; [|done]. cbn [mbind option_bind].
  by rewrite (other_prime_never _ f p f Ep).
Qed.

(** Of a result of 32 words only the first four are written out. *)
Lemma encrypt_writes_32_bytes c out i : zlen c = 32 -> zlen out = 256 -> 32 <= i < 256 -> aget 0 (write_words c out) i = aget 0 out i.
Proof.
  intros Hc Ho Hi. unfold write_words. rewrite Hc, Ho. change (Z.min (8 * ((32 + 7) / 8)) 256) with 32.
  apply (for_inv (fun o => aget 0 o i = aget 0 out i)); [done|]. intros k o Hk Heq. by rewrite aget_aset_ne by lia.
Qed.

(** A signature covers 19 of the 32 bytes of the hash. *)
Lemma signature_covers_19_bytes hole h h' : take 19 h = take 19 h' -> (19 <= length h)%nat -> (19 <= length h')%nat -> sign_em hole h = sign_em hole h'.
Proof.
  intros Hh Hl Hl'. unfold sign_em. do 4 f_equal. change 38%nat with (length DIGEST_INFO + 19)%nat. rewrite !take_app_add. f_equal.
  by rewrite !take_take.
Qed.
