(* ===== verification/Aes.v ===== *)
(** * AES-256 ([crypto/aes256.h])

    The cipher on a 16-byte state, its key schedule, ECB and CBC, and PKCS#7
    padding.  The layers are modelled as the code has them: [aes_mix_columns]
    and [aes_inv_mix_columns] index the state with [i*0], so they only ever
    touch the first column. *)

From Stdlib Require Import ZArith Lia Btauto.
From stdpp Require Import base numbers list list_numbers option.
From S2P Require Import Prelude.

Notation AES_BLOCKLEN := 16 (only parsing).
Notation Nb := 4 (only parsing).
Notation Nk := 8 (only parsing).
Notation Nr := 14 (only parsing).

Definition sbox : list Z :=
  [0x63;0x7c;0x77;0x7b;0xf2;0x6b;0x6f;0xc5;0x30;0x01;0x67;0x2b;0xfe;0xd7;0xab;0x76;
   0xca;0x82;0xc9;0x7d;0xfa;0x59;0x47;0xf0;0xad;0xd4;0xa2;0xaf;0x9c;0xa4;0x72;0xc0;
   0xb7;0xfd;0x93;0x26;0x36;0x3f;0xf7;0xcc;0x34;0xa5;0xe5;0xf1;0x71;0xd8;0x31;0x15;
   0x04;0xc7;0x23;0xc3;0x18;0x96;0x05;0x9a;0x07;0x12;0x80;0xe2;0xeb;0x27;0xb2;0x75;
   0x09;0x83;0x2c;0x1a;0x1b;0x6e;0x5a;0xa0;0x52;0x3b;0xd6;0xb3;0x29;0xe3;0x2f;0x84;
   0x53;0xd1;0x00;0xed;0x20;0xfc;0xb1;0x5b;0x6a;0xcb;0xbe;0x39;0x4a;0x4c;0x58;0xcf;
   0xd0;0xef;0xaa;0xfb;0x43;0x4d;0x33;0x85;0x45;0xf9;0x02;0x7f;0x50;0x3c;0x9f;0xa8;
   0x51;0xa3;0x40;0x8f;0x92;0x9d;0x38;0xf5;0xbc;0xb6;0xda;0x21;0x10;0xff;0xf3;0xd2;
   0xcd;0x0c;0x13;0xec;0x5f;0x97;0x44;0x17;0xc4;0xa7;0x7e;0x3d;0x64;0x5d;0x19;0x73;
   0x60;0x81;0x4f;0xdc;0x22;0x2a;0x90;0x88;0x46;0xee;0xb8;0x14;0xde;0x5e;0x0b;0xdb;
   0xe0;0x32;0x3a;0x0a;0x49;0x06;0x24;0x5c;0xc2;0xd3;0xac;0x62;0x91;0x95;0xe4;0x79;
   0xe7;0xc8;0x37;0x6d;0x8d;0xd5;0x4e;0xa9;0x6c;0x56;0xf4;0xea;0x65;0x7a;0xae;0x08;
   0xba;0x78;0x25;0x2e;0x1c;0xa6;0xb4;0xc6;0xe8;0xdd;0x74;0x1f;0x4b;0xbd;0x8b;0x8a;
   0x70;0x3e;0xb5;0x66;0x48;0x03;0xf6;0x0e;0x61;0x35;0x57;0xb9;0x86;0xc1;0x1d;0x9e;
   0xe1;0xf8;0x98;0x11;0x69;0xd9;0x8e;0x94;0x9b;0x1e;0x87;0xe9;0xce;0x55;0x28;0xdf;
   0x8c;0xa1;0x89;0x0d;0xbf;0xe6;0x42;0x68;0x41;0x99;0x2d;0x0f;0xb0;0x54;0xbb;0x16].

Definition rsbox : list Z :=
  [0x52;0x09;0x6a;0xd5;0x30;0x36;0xa5;0x38;0xbf;0x40;0xa3;0x9e;0x81;0xf3;0xd7;0xfb;
   0x7c;0xe3;0x39;0x82;0x9b;0x2f;0xff;0x87;0x34;0x8e;0x43;0x44;0xc4;0xde;0xe9;0xcb;
   0x54;0x7b;0x94;0x32;0xa6;0xc2;0x23;0x3d;0xee;0x4c;0x95;0x0b;0x42;0xfa;0xc3;0x4e;
   0x08;0x2e;0xa1;0x66;0x28;0xd9;0x24;0xb2;0x76;0x5b;0xa2;0x49;0x6d;0x8b;0xd1;0x25;
   0x72;0xf8;0xf6;0x64;0x86;0x68;0x98;0x16;0xd4;0xa4;0x5c;0xcc;0x5d;0x65;0xb6;0x92;
   0x6c;0x70;0x48;0x50;0xfd;0xed;0xb9;0xda;0x5e;0x15;0x46;0x57;0xa7;0x8d;0x9d;0x84;
   0x90;0xd8;0xab;0x00;0x8c;0xbc;0xd3;0x0a;0xf7;0xe4;0x58;0x05;0xb8;0xb3;0x45;0x06;
   0xd0;0x2c;0x1e;0x8f;0xca;0x3f;0x0f;0x02;0xc1;0xaf;0xbd;0x03;0x01;0x13;0x8a;0x6b;
   0x3a;0x91;0x11;0x41;0x4f;0x67;0xdc;0xea;0x97;0xf2;0xcf;0xce;0xf0;0xb4;0xe6;0x73;
   0x96;0xac;0x74;0x22;0xe7;0xad;0x35;0x85;0xe2;0xf9;0x37;0xe8;0x1c;0x75;0xdf;0x6e;
   0x47;0xf1;0x1a;0x71;0x1d;0x29;0xc5;0x89;0x6f;0xb7;0x62;0x0e;0xaa;0x18;0xbe;0x1b;
   0xfc;0x56;0x3e;0x4b;0xc6;0xd2;0x79;0x20;0x9a;0xdb;0xc0;0xfe;0x78;0xcd;0x5a;0xf4;
   0x1f;0xdd;0xa8;0x33;0x88;0x07;0xc7;0x31;0xb1;0x12;0x10;0x59;0x27;0x80;0xec;0x5f;
   0x60;0x51;0x7f;0xa9;0x19;0xb5;0x4a;0x0d;0x2d;0xe5;0x7a;0x9f;0x93;0xc9;0x9c;0xef;
   0xa0;0xe0;0x3b;0x4d;0xae;0x2a;0xf5;0xb0;0xc8;0xeb;0xbb;0x3c;0x83;0x53;0x99;0x61;
   0x17;0x2b;0x04;0x7e;0xba;0x77;0xd6;0x26;0xe1;0x69;0x14;0x63;0x55;0x21;0x0c;0x7d].

Definition Rcon : list Z := [0x8d;0x01;0x02;0x04;0x08;0x10;0x20;0x40;0x80;0x1b;0x36].

(** ** Key schedule *)

Notation g st i := (aget 0 st i) (only parsing).
Notation "x ^^ y" := (Z.lxor x y) (at level 50, left associativity) : Z_scope.

Definition sub_word (t : list Z) : list Z := map (fun b => g sbox b) t.

(** The four bytes [ta] that word [i] adds to word [i-Nk]. *)
Definition key_word (i : Z) (rk : list Z) : list Z :=
  let k := (i - 1) * 4 in
  let ta := [g rk k; g rk (k + 1); g rk (k + 2); g rk (k + 3)] in
  let ta :=
    if i mod Nk =? 0
    then
      let ta := sub_word [g ta 1; g ta 2; g ta 3; g ta 0] in
      aset ta 0 (g ta 0 ^^ g Rcon (i / Nk))
    else ta in
  if i mod Nk =? 4 then sub_word ta else ta.

Definition key_step (i : Z) (rk : list Z) : list Z :=
  let ta := key_word i rk in
  let k := (i - Nk) * 4 in
  rk ++ [g rk k ^^ g ta 0; g rk (k + 1) ^^ g ta 1; g rk (k + 2) ^^ g ta 2; g rk (k + 3) ^^ g ta 3].

(** The words are produced in order: writing word [i] appends it. *)
Definition aes_key_expansion (key : list Z) : list Z :=
  for_ Nk (Nb * (Nr + 1)) key_step (take 32 key).

(** ** Layers *)

Definition aes_add_round_key (round : Z) (rk st : list Z) : list Z :=
  for_ 0 4 (fun i st => for_ 0 4 (fun j st =>
    aset st (i * 4 + j) (g st (i * 4 + j) ^^ g rk (round * Nb * 4 + i * Nb + j))) st) st.

Definition aes_sub_bytes (st : list Z) : list Z :=
  for_ 0 16 (fun i st => aset st i (g sbox (g st i))) st.
Definition aes_inv_sub_bytes (st : list Z) : list Z :=
  for_ 0 16 (fun i st => aset st i (g rsbox (g st i))) st.

Definition aes_shift_rows (st : list Z) : list Z :=
  let t := g st 1 in
  let st := aset st 1 (g st 5) in let st := aset st 5 (g st 9) in
  let st := aset st 9 (g st 13) in let st := aset st 13 t in
  let t := g st 2 in let st := aset st 2 (g st 10) in let st := aset st 10 t in
  let t := g st 6 in let st := aset st 6 (g st 14) in let st := aset st 14 t in
  let t := g st 3 in
  let st := aset st 3 (g st 15) in let st := aset st 15 (g st 11) in
  let st := aset st 11 (g st 7) in aset st 7 t.

Definition aes_inv_shift_rows (st : list Z) : list Z :=
  let t := g st 13 in
  let st := aset st 13 (g st 9) in let st := aset st 9 (g st 5) in
  let st := aset st 5 (g st 1) in let st := aset st 1 t in
  let t := g st 2 in let st := aset st 2 (g st 10) in let st := aset st 10 t in
  let t := g st 6 in let st := aset st 6 (g st 14) in let st := aset st 14 t in
  let t := g st 3 in
  let st := aset st 3 (g st 7) in let st := aset st 7 (g st 11) in
  let st := aset st 11 (g st 15) in aset st 15 t.

Definition aes_xt (x : Z) : Z := u8 (Z.shiftl x 1 ^^ (Z.land (Z.shiftr x 7) 1 * 0x1b)).

(** Every index is [i*0+k]. *)
Definition mix_pass (i : Z) (st : list Z) : list Z :=
  let c k := i * 0 + k in
  let t := g st (c 0) in
  let Tmp := g st (c 0) ^^ g st (c 1) ^^ g st (c 2) ^^ g st (c 3) in
  let Tm := aes_xt (g st (c 0) ^^ g st (c 1)) in
  let st := aset st (c 0) (g st (c 0) ^^ (Tm ^^ Tmp)) in
  let Tm := aes_xt (g st (c 1) ^^ g st (c 2)) in
  let st := aset st (c 1) (g st (c 1) ^^ (Tm ^^ Tmp)) in
  let Tm := aes_xt (g st (c 2) ^^ g st (c 3)) in
  let st := aset st (c 2) (g st (c 2) ^^ (Tm ^^ Tmp)) in
  let Tm := aes_xt (g st (c 3) ^^ t) in
  aset st (c 3) (g st (c 3) ^^ (Tm ^^ Tmp)).
Definition aes_mix_columns (st : list Z) : list Z := for_ 0 4 mix_pass st.

Definition x2 (a : Z) : Z := Z.shiftl a 1 ^^ Z.shiftr a 7.
Definition x3 (a : Z) : Z := Z.shiftl a 1 ^^ Z.shiftr a 7 ^^ Z.shiftl a 2 ^^ Z.shiftr a 6.
Definition inv_mix_pass (i : Z) (st : list Z) : list Z :=
  let k j := i * 0 + j in
  let a := g st (k 0) in let b := g st (k 1) in let c := g st (k 2) in let d := g st (k 3) in
  let st := aset st (k 0) (u8 (x2 a ^^ x3 b ^^ x2 c ^^ d)) in
  let st := aset st (k 1) (u8 (a ^^ x2 b ^^ x3 c ^^ x2 d)) in
  let st := aset st (k 2) (u8 (x2 a ^^ b ^^ x2 c ^^ x3 d)) in
  aset st (k 3) (u8 (x3 a ^^ x2 b ^^ c ^^ x2 d)).
Definition aes_inv_mix_columns (st : list Z) : list Z := for_ 0 4 inv_mix_pass st.

(** ** The cipher *)

Section Cipher.
Context (rk : list Z).

Definition cipher_round (r : Z) (st : list Z) : list Z :=
  aes_add_round_key r rk (aes_mix_columns (aes_shift_rows (aes_sub_bytes st))).
(** Rounds 1 to [Nr-1], then the last one without the column mixing. *)
Definition aes_cipher (st : list Z) : list Z :=
  let st := aes_add_round_key 0 rk st in
  let st := for_ 1 Nr cipher_round st in
  aes_add_round_key Nr rk (aes_shift_rows (aes_sub_bytes st)).

Definition inv_round (r : Z) (st : list Z) : list Z :=
  aes_add_round_key r rk (aes_inv_sub_bytes (aes_inv_shift_rows st)).
(** [r] runs from [Nr-1] down to 0; the columns are mixed between rounds. *)
Definition aes_inv_cipher (st : list Z) : list Z :=
  let st := aes_add_round_key Nr rk st in
  let st := for_ 0 (Nr - 1) (fun i st => aes_inv_mix_columns (inv_round (Nr - 1 - i) st)) st in
  inv_round 0 st.
End Cipher.

Record AES_CTX := MkCtx { RoundKey : list Z; Iv : list Z }.

Definition aes_init_ctx (key : list Z) (ctx : AES_CTX) : AES_CTX := MkCtx (aes_key_expansion key) (Iv ctx).
Definition aes_init_ctx_iv (key iv : list Z) : AES_CTX := MkCtx (aes_key_expansion key) (take 16 iv).
Definition aes_ctx_set_iv (iv : list Z) (ctx : AES_CTX) : AES_CTX := MkCtx (RoundKey ctx) (take 16 iv).

Definition aes_ecb_encrypt (ctx : AES_CTX) (buf : list Z) : list Z :=
  aes_cipher (RoundKey ctx) (take 16 buf) ++ drop 16 buf.
Definition aes_ecb_decrypt (ctx : AES_CTX) (buf : list Z) : list Z :=
  aes_inv_cipher (RoundKey ctx) (take 16 buf) ++ drop 16 buf.

Definition aes_xor_iv (buf iv : list Z) : list Z :=
  for_ 0 AES_BLOCKLEN (fun i b => aset b i (g b i ^^ g iv i)) buf.

(** [for(i=0;i<len;i+=16)]: a length that is no multiple of 16 still takes a
    whole last block, so the buffer must hold it ([None] otherwise). *)
Fixpoint cbc_encrypt_loop (n : nat) (rk iv buf : list Z) : option (list Z * list Z) :=
  match n with
  | O => Some (iv, buf)
  | S n' =>
      if zlen buf <? 16 then None
      else
        let blk := aes_cipher rk (aes_xor_iv (take 16 buf) iv) in
        '(iv', rest) ← cbc_encrypt_loop n' rk blk (drop 16 buf);
        Some (iv', blk ++ rest)
  end.
Definition aes_cbc_encrypt (ctx : AES_CTX) (buf : list Z) (len : Z) : option (AES_CTX * list Z) :=
  '(iv, out) ← cbc_encrypt_loop (Z.to_nat ((len + 15) / 16)) (RoundKey ctx) (Iv ctx) buf;
  Some (MkCtx (RoundKey ctx) iv, out).

Fixpoint cbc_decrypt_loop (n : nat) (rk iv buf : list Z) : option (list Z * list Z) :=
  match n with
  | O => Some (iv, buf)
  | S n' =>
      if zlen buf <? 16 then None
      else
        let siv := take 16 buf in
        let blk := aes_xor_iv (aes_inv_cipher rk siv) iv in
        '(iv', rest) ← cbc_decrypt_loop n' rk siv (drop 16 buf);
        Some (iv', blk ++ rest)
  end.
Definition aes_cbc_decrypt (ctx : AES_CTX) (buf : list Z) (len : Z) : option (AES_CTX * list Z) :=
  '(iv, out) ← cbc_decrypt_loop (Z.to_nat ((len + 15) / 16)) (RoundKey ctx) (Iv ctx) buf;
  Some (MkCtx (RoundKey ctx) iv, out).

(** ** PKCS#7 *)

(** [data] is the whole buffer; [None] when the padding does not fit it. *)
Definition pkcs7_pad (data : list Z) (len block : Z) : option (list Z * Z) :=
  let pad := block - len mod block in
  if zlen data <? len + pad then None
  else Some (for_ len (len + pad) (fun i d => aset d i (u8 pad)) data, len + pad).

Definition pkcs7_unpad (data : list Z) (len : Z) : Z :=
  if len =? 0 then 0
  else
    let pad := g data (len - 1) in
    if (pad <? 1) || (16 <? pad) then len
    else
      let from := u64 (len - pad) in
      if forallb (fun i => g data i =? pad) (seqZ from (len - from)) then from else len.

(** ** Elementwise loops *)

Lemma for_elementwise (f : Z -> Z -> Z) m n :
  0 <= n <= zlen m -> forall i, 0 <= i ->
  g (for_ 0 n (fun i m => aset m i (f i (g m i))) m) i = (if i <? n then f i (g m i) else g m i) /\
  zlen (for_ 0 n (fun i m => aset m i (f i (g m i))) m) = zlen m.
Proof.
  intros Hn.
  apply (for_ind (fun k r => forall i, 0 <= i ->
    g r i = (if i <? k then f i (g m i) else g m i) /\ zlen r = zlen m)); [lia| |].
  - intros i Hi. case_test; [lia|done].
  - intros k r Hk IH i Hi. destruct (IH i Hi) as [Hg Hl]. rewrite zlen_aset. split; [|done].
    destruct (Z.eq_dec i k) as [->|Hne].
    + rewrite aget_aset_eq by lia. case_test; [|lia].
      destruct (IH k ltac:(lia)) as [-> _]. case_test; [lia|done].
    + rewrite aget_aset_ne by lia. rewrite Hg. repeat case_test; lia || done.
Qed.

Lemma for_pass_twice (f h : Z -> Z -> Z) m n :
  0 <= n -> n = zlen m -> (forall i, 0 <= i < n -> h i (f i (g m i)) = g m i) ->
  for_ 0 n (fun i m => aset m i (h i (g m i))) (for_ 0 n (fun i m => aset m i (f i (g m i))) m) = m.
Proof.
  intros H0 Hn Hinv. pose proof (for_elementwise f m n ltac:(lia)) as Hf.
  set (r := for_ 0 n _ m) in *.
  assert (Hr : zlen r = zlen m) by (destruct (Hf 0); [lia|done]).
  pose proof (for_elementwise h r n ltac:(lia)) as Hh.
  apply (array_ext 0).
  - destruct (Hh 0); [lia|]. congruence.
  - intros i Hi. destruct (Hh 0 ltac:(lia)) as [_ Hl]. rewrite Hl in Hi.
    destruct (Hh i ltac:(lia)) as [-> _]. destruct (Hf i ltac:(lia)) as [-> _].
    case_test; [|lia]. apply Hinv. lia.
Qed.

(** ** The layers and their inverses *)

Definition st_ok (st : list Z) : Prop := zlen st = 16 /\ bytes_ok st.

Lemma sbox_inverse b : byte_ok b -> g rsbox (g sbox b) = b.
Proof.
  intros Hb. assert (H : forallb (fun b => g rsbox (g sbox b) =? b) (seqZ 0 256) = true)
    by (vm_compute; reflexivity).
  rewrite forallb_forall in H. apply Z.eqb_eq, H, list_elem_of_In, elem_of_seqZ. done.
Qed.

Lemma rsbox_inverse b : byte_ok b -> g sbox (g rsbox b) = b.
Proof.
  intros Hb. assert (H : forallb (fun b => g sbox (g rsbox b) =? b) (seqZ 0 256) = true)
    by (vm_compute; reflexivity).
  rewrite forallb_forall in H. apply Z.eqb_eq, H, list_elem_of_In, elem_of_seqZ. done.
Qed.

Lemma sub_bytes_inverse st : st_ok st -> aes_inv_sub_bytes (aes_sub_bytes st) = st.
Proof.
  intros [Hl Hb]. apply (for_pass_twice (fun _ b => g sbox b) (fun _ b => g rsbox b)); [lia|done|].
  intros i Hi. apply sbox_inverse. apply Forall_aget; [done|lia].
Qed.

Lemma inv_sub_bytes_inverse st : st_ok st -> aes_sub_bytes (aes_inv_sub_bytes st) = st.
Proof.
  intros [Hl Hb]. apply (for_pass_twice (fun _ b => g rsbox b) (fun _ b => g sbox b)); [lia|done|].
  intros i Hi. apply rsbox_inverse. apply Forall_aget; [done|lia].
Qed.

(** A state written out as its sixteen bytes. *)
Ltac sixteen st H :=
  unfold zlen in H; do 16 (destruct st as [|? st]; [exfalso; cbn [length] in H; lia|]);
  destruct st; [|exfalso; cbn [length] in H; lia]; clear H.

Lemma shift_rows_inverse st :
  zlen st = 16 -> aes_inv_shift_rows (aes_shift_rows st) = st /\ aes_shift_rows (aes_inv_shift_rows st) = st.
Proof. intros H. sixteen st H. split; reflexivity. Qed.

Lemma lxor_twice a k : a ^^ k ^^ k = a.
Proof. by rewrite Z.lxor_assoc, Z.lxor_nilpotent, Z.lxor_0_r. Qed.

Lemma add_round_key_flat round rk st :
  zlen st = 16 ->
  aes_add_round_key round rk st =
  for_ 0 16 (fun i st => aset st i (g st i ^^ g rk (round * Nb * 4 + i / 4 * Nb + i mod 4))) st.
Proof.
  intros H. unfold aes_add_round_key. generalize (round * Nb * 4). intros k.
  sixteen st H. unfold for_. cbn -[Z.lxor Z.add aget]. reflexivity.
Qed.

Lemma zlen_add_round_key round rk st : zlen st = 16 -> zlen (aes_add_round_key round rk st) = 16.
Proof.
  intros H. rewrite add_round_key_flat by done.
  edestruct (for_elementwise (fun i b => b ^^ g rk (round * Nb * 4 + i / 4 * Nb + i mod 4)) st 16 ltac:(lia) 0)
    as [_ E]; [lia|]. by rewrite E.
Qed.

Lemma add_round_key_involutive round rk st :
  zlen st = 16 -> aes_add_round_key round rk (aes_add_round_key round rk st) = st.
Proof.
  intros H. rewrite (add_round_key_flat _ _ (aes_add_round_key _ _ _)) by by apply zlen_add_round_key.
  rewrite add_round_key_flat by done.
  set (f := fun i b => b ^^ g rk (round * Nb * 4 + i / 4 * Nb + i mod 4)).
  apply (for_pass_twice f f); [lia|done|]. intros i _. apply lxor_twice.
Qed.

(** ** Column mixing *)

(** A property of two bytes, checked on all of them. *)
Definition all_bytes2 (P : Z -> Z -> bool) : bool :=
  forallb (fun a => forallb (fun b => P a b) (seqZ 0 256)) (seqZ 0 256).

Lemma all_bytes2_spec P a b : all_bytes2 P = true -> byte_ok a -> byte_ok b -> P a b = true.
Proof.
  unfold all_bytes2. rewrite forallb_forall. intros H Ha Hb.
  specialize (H a ltac:(apply list_elem_of_In, elem_of_seqZ; done)).
  rewrite forallb_forall in H. apply H, list_elem_of_In, elem_of_seqZ. done.
Qed.

Lemma byte_lxor a b : byte_ok a -> byte_ok b -> byte_ok (a ^^ b).
Proof.
  intros Ha Hb.
  assert (H : (0 <=? a ^^ b) && (a ^^ b <? 256) = true).
  { revert a b Ha Hb. intros a b. apply (all_bytes2_spec (fun a b => (0 <=? a ^^ b) && (a ^^ b <? 256))).
    vm_compute. reflexivity. }
  unfold byte_ok. bool_to_prop. lia.
Qed.

Lemma byte_xt a : byte_ok (aes_xt a).
Proof. apply u8_range. Qed.

Lemma xt_lxor a b : byte_ok a -> byte_ok b -> aes_xt (a ^^ b) = aes_xt a ^^ aes_xt b.
Proof.
  intros Ha Hb. apply Z.eqb_eq. revert a b Ha Hb. intros a b.
  apply (all_bytes2_spec (fun a b => aes_xt (a ^^ b) =? aes_xt a ^^ aes_xt b)).
  vm_compute. reflexivity.
Qed.

#[local] Hint Resolve byte_lxor byte_xt : pig.

(** Equality of exclusive-or sums, bit by bit. *)
Ltac xor_eq :=
  apply Z.bits_inj; intros ?; rewrite ?Z.lxor_spec, ?Z.bits_0;
  repeat match goal with |- context [Z.testbit ?a ?n] => generalize (Z.testbit a n); intros ? end;
  btauto.

(** One pass on the first column, as a matrix over the bytes. *)
Lemma mix_pass_column i a b c d r :
  byte_ok a -> byte_ok b -> byte_ok c -> byte_ok d ->
  mix_pass i (a :: b :: c :: d :: r) =
  (aes_xt a ^^ aes_xt b ^^ b ^^ c ^^ d) :: (a ^^ aes_xt b ^^ aes_xt c ^^ c ^^ d) ::
  (a ^^ b ^^ aes_xt c ^^ aes_xt d ^^ d) :: (aes_xt a ^^ a ^^ b ^^ c ^^ aes_xt d) :: r.
Proof.
  intros Ha Hb Hc Hd. unfold mix_pass. rewrite Z.mul_0_r, !Z.add_0_l.
  unfold aset, aget. change (Z.to_nat 0) with 0%nat. change (Z.to_nat 1) with 1%nat.
  change (Z.to_nat 2) with 2%nat. change (Z.to_nat 3) with 3%nat. cbn [nth list_insert insert].
  rewrite !xt_lxor by auto with pig. do 4 (apply (f_equal2 cons); [xor_eq|]); done.
Qed.

Lemma mix_two_passes i j a b c d r :
  byte_ok a -> byte_ok b -> byte_ok c -> byte_ok d ->
  let q x := aes_xt (aes_xt x) in
  mix_pass j (mix_pass i (a :: b :: c :: d :: r)) =
  (q a ^^ a ^^ q c) :: (q b ^^ b ^^ q d) :: (q a ^^ q c ^^ c) :: (q b ^^ q d ^^ d) :: r.
Proof.
  intros Ha Hb Hc Hd q. rewrite mix_pass_column by done.
  rewrite mix_pass_column by auto 8 with pig. unfold q. rewrite !xt_lxor by auto 8 with pig.
  do 4 (apply (f_equal2 cons); [xor_eq|]); done.
Qed.

(** Four passes over the same column undo each other: the step is the identity. *)
Lemma mix_columns_is_identity st : st_ok st -> aes_mix_columns st = st.
Proof.
  intros [Hl Hb]. sixteen st Hl. unfold bytes_ok in Hb. rewrite !Forall_cons_iff in Hb.
  destruct Hb as (H0 & H1 & H2 & H3 & _). unfold aes_mix_columns.
  rewrite !for_step, for_done by lia. rewrite mix_two_passes by done.
  rewrite mix_two_passes by auto 8 with pig. rewrite !xt_lxor by auto 8 with pig.
  do 4 (apply (f_equal2 cons); [xor_eq|]); done.
Qed.

(** The decryption is not the inverse of the encryption. *)
Lemma aes_decrypt_is_not_inverse :
  let rk := aes_key_expansion (replicate 32 0) in
  aes_inv_cipher rk (aes_cipher rk (replicate 16 0)) <> replicate 16 0.
Proof. vm_compute. discriminate. Qed.

(** ** Padding *)

Lemma for_fill v lo hi m :
  0 <= lo <= hi -> hi <= zlen m -> forall i, 0 <= i ->
  g (for_ lo hi (fun i d => aset d i v) m) i = (if (lo <=? i) && (i <? hi) then v else g m i) /\
  zlen (for_ lo hi (fun i d => aset d i v) m) = zlen m.
Proof.
  intros Hlo Hhi.
  apply (for_ind (fun k r => forall i, 0 <= i ->
    g r i = (if (lo <=? i) && (i <? k) then v else g m i) /\ zlen r = zlen m)); [lia| |].
  - intros i Hi. case_test; [lia|done].
  - intros k r Hk IH i Hi. destruct (IH i Hi) as [Hg Hl]. rewrite zlen_aset. split; [|done].
    destruct (Z.eq_dec i k) as [->|Hne].
    + rewrite aget_aset_eq by lia. case_test; [done|lia].
    + rewrite aget_aset_ne by lia. rewrite Hg.
      replace (i <? k + 1) with (i <? k); [done|]. lia.
Qed.

(** [data] of the padded message: the message, then [pad] bytes [pad]. *)
Lemma pad_bytes data len pad :
  0 <= len -> 1 <= pad <= 16 -> len + pad <= zlen data -> len + pad < 2^64 ->
  let d := for_ len (len + pad) (fun i d => aset d i (u8 pad)) data in
  pkcs7_unpad d (len + pad) = len.
Proof.
  intros H0 Hp Hl Hw. rewrite (u8_id pad) by lia. intros d. unfold pkcs7_unpad.
  assert (Hd : forall i, len <= i < len + pad -> g d i = pad).
  { intros i Hi. unfold d. destruct (for_fill pad len (len + pad) data ltac:(lia) Hl i) as [-> _]; [lia|].
    case_test; [done|lia]. }
  case_test; [lia|]. rewrite Hd by lia. case_test; [lia|].
  replace (len + pad - pad) with len by lia. rewrite u64_id by lia.
  replace (forallb _ _) with true; [done|]. symmetry. apply forallb_forall.
  intros i Hi%list_elem_of_In%elem_of_seqZ. apply Z.eqb_eq, Hd. lia.
Qed.

(** Padding round-trips: for a block size of 1 to 16 bytes, padding a message
    that has room for it grows it to a multiple of the block size, leaves the
    message bytes alone, and unpadding the result returns the original length. *)
Theorem pkcs7_roundtrip data len block d' len' :
  0 <= len -> 1 <= block <= 16 -> len + block < 2^64 ->
  pkcs7_pad data len block = Some (d', len') ->
  len' mod block = 0 /\ len < len' <= len + block /\
  (forall i, 0 <= i < len -> g d' i = g data i) /\
  pkcs7_unpad d' len' = len.
Proof.
  intros H0 Hb Hw. unfold pkcs7_pad. case_test; [done|]. intros [= <- <-].
  pose proof (Z.mod_pos_bound len block ltac:(lia)) as Hm. split_and!.
  - replace (len + (block - len mod block)) with ((len / block + 1) * block)
      by (pose proof (Z.div_mod len block); lia).
    apply Z.mod_mul. lia.
  - lia.
  - lia.
  - intros i Hi.
    destruct (for_fill (u8 (block - len mod block)) len (len + (block - len mod block)) data
                ltac:(lia) ltac:(lia) i) as [-> _]; [lia|].
    case_test; [lia|done].
  - apply pad_bytes; lia.
Qed.

Lemma pkcs7_roundtrip_witness :
  pkcs7_pad [1;2;3;0;0] 3 4 = Some ([1;2;3;1;0], 4) /\ pkcs7_unpad [1;2;3;1;0] 4 = 3.
Proof.
  assert (E : pkcs7_pad [1;2;3;0;0] 3 4 = Some ([1;2;3;1;0], 4)) by (vm_compute; reflexivity).
  split; [exact E|]. by apply (pkcs7_roundtrip [1;2;3;0;0] 3 4 [1;2;3;1;0] 4); [lia|lia|lia|].
Defined.

(** A pad byte larger than the message wraps the length below zero. *)
Lemma pkcs7_unpad_wraps : pkcs7_unpad [5] 1 = 2^64 - 4.
Proof. vm_compute. reflexivity. Qed.

(** Every layer the decryption runs is the inverse of the encryption's layer
    except the column mixing: the inverse S-box undoes the S-box on every byte and
    the other way round, the row shifts undo each other and adding a round key is
    its own inverse; the encryption's column mixing does nothing at all. *)
Theorem aes_layers_inverse round rk st :
  st_ok st ->
  aes_inv_sub_bytes (aes_sub_bytes st) = st /\ aes_sub_bytes (aes_inv_sub_bytes st) = st /\
  aes_inv_shift_rows (aes_shift_rows st) = st /\ aes_shift_rows (aes_inv_shift_rows st) = st /\
  aes_add_round_key round rk (aes_add_round_key round rk st) = st /\
  aes_mix_columns st = st.
Proof.
  intros H. destruct (shift_rows_inverse st (proj1 H)) as [E1 E2].
  split_and!; auto using sub_bytes_inverse, inv_sub_bytes_inverse, mix_columns_is_identity.
  by apply add_round_key_involutive, H.
Qed.

Lemma aes_layers_inverse_witness :
  aes_inv_sub_bytes (aes_sub_bytes (seqZ 0 16)) = seqZ 0 16 /\ aes_mix_columns (seqZ 0 16) = seqZ 0 16.
Proof.
  split; apply (aes_layers_inverse 0 [] (seqZ 0 16));
    (split; [done|]; apply Forall_forall; intros i Hi%list_elem_of_In%elem_of_seqZ; unfold byte_ok; lia).
Defined.

(** ** Lengths *)

Lemma zlen_for (f : Z -> list Z -> list Z) lo hi st : (forall i x, zlen (f i x) = zlen x) -> zlen (for_ lo hi f st) = zlen st.
Proof. intros Hf. apply (for_inv (fun x => zlen x = zlen st)); [done|]. intros i x _ Hx. by rewrite Hf. Qed.

Lemma zlen_round_key round rk st : zlen (aes_add_round_key round rk st) = zlen st.
Proof. unfold aes_add_round_key. apply zlen_for. intros i x. apply zlen_for. intros j y. by rewrite zlen_aset. Qed.
Lemma zlen_sub_bytes st : zlen (aes_sub_bytes st) = zlen st.
Proof. unfold aes_sub_bytes. apply zlen_for. intros i x. by rewrite zlen_aset. Qed.
Lemma zlen_shift_rows st : zlen (aes_shift_rows st) = zlen st.
Proof. unfold aes_shift_rows. cbv zeta. by rewrite !zlen_aset. Qed.
Lemma zlen_mix_columns st : zlen (aes_mix_columns st) = zlen st.
Proof. unfold aes_mix_columns. apply zlen_for. intros i x. unfold mix_pass. cbv zeta. by rewrite !zlen_aset. Qed.

Lemma zlen_aes_cipher rk st : zlen (aes_cipher rk st) = zlen st.
Proof.
  unfold aes_cipher. cbv zeta. rewrite zlen_round_key, zlen_shift_rows, zlen_sub_bytes, zlen_for; [apply zlen_round_key|].
  intros i x. unfold cipher_round. by rewrite zlen_round_key, zlen_mix_columns, zlen_shift_rows, zlen_sub_bytes.
Qed.

(** ** Cipher block chaining: each block is combined with the encrypted block before *)

Fixpoint cbc_chain (E : list Z -> list Z) (prev : list Z) (bs : list (list Z)) : list (list Z) :=
  match bs with
  | [] => []
  | b :: bs' => let c := E (zip_with Z.lxor b prev) in c :: cbc_chain E c bs'
  end.
Fixpoint blocks16 (n : nat) (buf : list Z) : list (list Z) :=
  match n with O => [] | S n' => take 16 buf :: blocks16 n' (drop 16 buf) end.

Lemma aes_xor_iv_zip b iv : length b = 16%nat -> length iv = 16%nat -> aes_xor_iv b iv = zip_with Z.lxor b iv.
Proof.
  intros Hb Hi. do 16 (destruct b as [|? b]; [done|]). destruct b; [|done].
  do 16 (destruct iv as [|? iv]; [done|]). destruct iv; [|done]. reflexivity.
Qed.

Lemma cbc_encrypt_chain n : forall rk iv buf, zlen buf = 16 * Z.of_nat n -> zlen iv = 16 ->
  exists iv', cbc_encrypt_loop n rk iv buf = Some (iv', concat (cbc_chain (aes_cipher rk) iv (blocks16 n buf))).
Proof.
  induction n as [|n IH]; intros rk iv buf Hl Hiv.
  { exists iv. destruct buf; [done|rewrite zlen_cons in Hl; pose proof (zlen_nonneg buf); lia]. }
  cbn [cbc_encrypt_loop blocks16 cbc_chain]. case_test; [lia|].
  assert (Ht : length (take 16 buf) = 16%nat) by (unfold zlen in *; rewrite length_take; lia).
  rewrite aes_xor_iv_zip by (unfold zlen in *; lia).
  destruct (IH rk (aes_cipher rk (zip_with Z.lxor (take 16 buf) iv)) (drop 16 buf)) as (iv' & E).
  - unfold zlen in *. rewrite length_drop. lia.
  - rewrite zlen_aes_cipher. unfold zlen in *. rewrite length_zip_with. lia.
  - exists iv'. rewrite E. cbn [mbind option_bind concat]. reflexivity.
Qed.

(** On whole blocks the chaining never reads beyond the buffer and keeps its
    length. *)
Lemma cbc_encrypt_total n : forall rk iv buf, zlen buf = 16 * Z.of_nat n ->
  exists iv' out, cbc_encrypt_loop n rk iv buf = Some (iv', out) /\ zlen out = zlen buf.
Proof.
  induction n as [|n IH]; intros rk iv buf Hl; [by exists iv, buf|]. cbn [cbc_encrypt_loop]. case_test; [lia|].
  destruct (IH rk (aes_cipher rk (aes_xor_iv (take 16 buf) iv)) (drop 16 buf)) as (iv' & out & E & Ho).
  { unfold zlen in *. rewrite length_drop. lia. }
  rewrite E. cbn [mbind option_bind]. eexists _, _. split; [reflexivity|]. rewrite zlen_app, Ho, zlen_aes_cipher. unfold aes_xor_iv.
  rewrite zlen_for by (intros i x; by rewrite zlen_aset). unfold zlen. rewrite length_take, length_drop. unfold zlen in *. lia.
Qed.
