(* ===== verification/Tetris.v ===== *)
(** * Tetris ([shell/games/tetris.h])

    The board, the falling piece and the game loop.  One pass of the loop takes
    the key the keyboard queue holds, if any; a game is a list of such passes.
    The colour tables are indexed with a guard, so a run that would read past
    them faults. *)

From Stdlib Require Import ZArith Lia.
From stdpp Require Import base numbers list list_numbers strings.
From S2P Require Import Prelude CLib Console Ps2.

Notation TET_W := 10 (only parsing).
Notation TET_H := 20 (only parsing).
Notation TET_OX := 2 (only parsing).
Notation TET_OY := 2 (only parsing).
Notation CH_TL := 0xC9 (only parsing).
Notation CH_TR := 0xBB (only parsing).
Notation CH_BL := 0xC8 (only parsing).
Notation CH_BR := 0xBC (only parsing).
Notation CH_H := 0xCD (only parsing).
Notation CH_V := 0xBA (only parsing).
Notation CH_BLOCK := 0xDB (only parsing).

(** ** Data *)

(** [PIECES[piece][rot]]: the four blocks as (x, y). *)
Definition PIECES : list (list (list (Z * Z))) :=
  [ (* I *)
    [[(0,1);(1,1);(2,1);(3,1)]; [(2,0);(2,1);(2,2);(2,3)]; [(0,2);(1,2);(2,2);(3,2)]; [(1,0);(1,1);(1,2);(1,3)]];
    (* O *)
    [[(1,0);(2,0);(1,1);(2,1)]; [(1,0);(2,0);(1,1);(2,1)]; [(1,0);(2,0);(1,1);(2,1)]; [(1,0);(2,0);(1,1);(2,1)]];
    (* T *)
    [[(1,0);(0,1);(1,1);(2,1)]; [(1,0);(1,1);(2,1);(1,2)]; [(0,1);(1,1);(2,1);(1,2)]; [(1,0);(0,1);(1,1);(1,2)]];
    (* S *)
    [[(1,0);(2,0);(0,1);(1,1)]; [(1,0);(1,1);(2,1);(2,2)]; [(1,1);(2,1);(0,2);(1,2)]; [(0,0);(0,1);(1,1);(1,2)]];
    (* Z *)
    [[(0,0);(1,0);(1,1);(2,1)]; [(2,0);(1,1);(2,1);(1,2)]; [(0,1);(1,1);(1,2);(2,2)]; [(1,0);(0,1);(1,1);(0,2)]];
    (* J *)
    [[(0,0);(0,1);(1,1);(2,1)]; [(1,0);(2,0);(1,1);(1,2)]; [(0,1);(1,1);(2,1);(2,2)]; [(1,0);(1,1);(0,2);(1,2)]];
    (* L *)
    [[(2,0);(0,1);(1,1);(2,1)]; [(1,0);(1,1);(1,2);(2,2)]; [(0,1);(1,1);(2,1);(0,2)]; [(0,0);(1,0);(1,1);(1,2)]] ].

Definition blocks (piece rot : Z) : list (Z * Z) := aget [] (aget [] PIECES piece) rot.

Definition PIECE_COLORS : list Z :=
  [COL C_LCYAN C_BLACK; COL C_YELLOW C_BLACK; COL C_LMAG C_BLACK;
   COL C_LGREEN C_BLACK; COL C_LRED C_BLACK; COL C_LBLUE C_BLACK; COL C_BROWN C_BLACK].

Notation board := (list (list Z)) (only parsing).

(** The file's globals, with the two locals of [cmd_tetris] that live across
    passes of its loop. *)
Record tet := MkTet {
  tet_board : board;
  tet_score : Z; tet_lines : Z; tet_level : Z;
  tet_px : Z; tet_py : Z; tet_rot : Z; tet_piece : Z; tet_next : Z;
  tet_rng_seed : Z;
  drop_timer : Z; drop_speed : Z;
}.

Definition cell (b : board) (y x : Z) : Z := aget 0 (aget [] b y) x.
Definition set_cell (b : board) (y x v : Z) : board := aset b y (aset (aget [] b y) x v).

(** ** Operations *)

Definition rand_seed (seed : Z) : Z := i32 (seed * 1103515245 + 12345).
Definition tet_rand (seed : Z) : Z * Z :=
  let s := rand_seed seed in (Z.land (Z.shiftr s 16) 7, s).

Definition block_free (b : board) (px py : Z) (o : Z * Z) : bool :=
  let x := px + o.1 in
  let y := py + o.2 in
  if (x <? 0) || (TET_W <=? x) || (TET_H <=? y) then false
  else if (0 <=? y) && negb (cell b y x =? 0) then false
  else true.
Definition tet_valid (b : board) (px py rot piece : Z) : bool :=
  forallb (block_free b px py) (blocks piece rot).

Definition place_block (px py piece : Z) (b : board) (o : Z * Z) : board :=
  let x := px + o.1 in
  let y := py + o.2 in
  if (0 <=? y) && (y <? TET_H) && (0 <=? x) && (x <? TET_W)
  then set_cell b y x (u8 (piece + 1)) else b.
Definition tet_place (px py rot piece : Z) (b : board) : board :=
  fold_left (place_block px py piece) (blocks piece rot) b.

(** The inner loop leaves at the first empty cell. *)
Definition row_full (row : list Z) : bool := forallb (fun c => negb (cell [row] 0 c =? 0)) (seqZ 0 TET_W).

Definition copy_row (b : board) (rr : Z) : board :=
  for_ 0 TET_W (fun c b => set_cell b rr c (cell b (rr - 1) c)) b.
(** [for(rr=r;rr>0;rr--)]: the [i]-th pass has [rr=r-i]. *)
Definition remove_row (r : Z) (b : board) : board :=
  let b := for_ 0 r (fun i b => copy_row b (r - i)) b in
  for_ 0 TET_W (fun c b => set_cell b 0 c 0) b.

(** A cleared row is checked again ([r++] against the loop's [r--]).  Each pass
    moves up or uses up a full row: 40 passes are enough ([clear_loop_correct]). *)
Fixpoint clear_loop (fuel : nat) (r cleared : Z) (b : board) : option (Z * board) :=
  if r <? 0 then Some (cleared, b)
  else match fuel with
       | O => None
       | S f =>
           if row_full (aget [] b r) then clear_loop f r (cleared + 1) (remove_row r b)
           else clear_loop f (r - 1) cleared b
       end.
Definition tet_clear_lines (b : board) : option (Z * board) := clear_loop 40 (TET_H - 1) 0 b.

Definition draw_cell (b : board) (r c : Z) : M tet unit :=
  let v := cell b r c in
  if negb (v =? 0)
  then in_array 7 (v - 1) ;; vat CH_BLOCK (aget 0 PIECE_COLORS (v - 1)) (TET_OX + c) (TET_OY + r)
  else vat c_dot (COL C_DGREY C_BLACK) (TET_OX + c) (TET_OY + r).

Definition draw_border : M tet unit :=
  let bc := COL C_WHITE C_BLACK in
  vat CH_TL bc (TET_OX - 1) (TET_OY - 1) ;;
  mapM_ (fun c => vat CH_H bc (TET_OX + c) (TET_OY - 1)) (seqZ 0 TET_W) ;;
  vat CH_TR bc (TET_OX + TET_W) (TET_OY - 1) ;;
  mapM_ (fun r => vat CH_V bc (TET_OX - 1) (TET_OY + r) ;;
                  vat CH_V bc (TET_OX + TET_W) (TET_OY + r)) (seqZ 0 TET_H) ;;
  vat CH_BL bc (TET_OX - 1) (TET_OY + TET_H) ;;
  mapM_ (fun c => vat CH_H bc (TET_OX + c) (TET_OY + TET_H)) (seqZ 0 TET_W) ;;
  vat CH_BR bc (TET_OX + TET_W) (TET_OY + TET_H).

Definition draw_sidebar : M tet unit :=
  s ← get;
  let sx := TET_OX + TET_W + 3 in
  let label dy fg str := vstr sx (TET_OY + dy) (COL fg C_BLACK) str in
  vset C_YELLOW C_BLACK ;;
  label 0 C_YELLOW (cs "TETRIS") ;;
  label 1 C_DGREY (cs "------") ;;
  label 3 C_WHITE (cs "Score:") ;;
  fits 16 (kia (tet_score s)) ;; label 4 C_LGREEN (kia (tet_score s)) ;;
  label 6 C_WHITE (cs "Lines:") ;;
  fits 16 (kia (tet_lines s)) ;; label 7 C_LGREEN (kia (tet_lines s)) ;;
  label 9 C_WHITE (cs "Level:") ;;
  fits 16 (kia (tet_level s)) ;; label 10 C_LGREEN (kia (tet_level s)) ;;
  label 12 C_LCYAN (cs "Next:") ;;
  mapM_ (fun r => mapM_ (fun c => vat c_sp (COL C_BLACK C_BLACK) (sx + c) (TET_OY + 13 + r)) (seqZ 0 6))
    (seqZ 0 4) ;;
  in_array 7 (tet_next s) ;;
  mapM_ (fun o : Z * Z =>
    if (0 <=? o.1) && (o.1 <? 6) && (0 <=? o.2) && (o.2 <? 4)
    then vat CH_BLOCK (aget 0 PIECE_COLORS (tet_next s)) (sx + o.1) (TET_OY + 13 + o.2)
    else mret tt) (blocks (tet_next s) 0) ;;
  label 17 C_LGREY (cs "Controls:") ;;
  label 18 C_LGREY (cs "WASD/Arrow") ;;
  label 19 C_LGREY (cs "Q=quit") ;;
  vrst.

Definition tet_draw_board : M tet unit :=
  draw_border ;;
  s ← get;
  mapM_ (fun r => mapM_ (draw_cell (tet_board s) r) (seqZ 0 TET_W)) (seqZ 0 TET_H) ;;
  in_array 7 (tet_piece s) ;;
  in_array 4 (tet_rot s) ;;
  mapM_ (fun o : Z * Z =>
    if 0 <=? tet_py s + o.2
    then vat CH_BLOCK (aget 0 PIECE_COLORS (tet_piece s)) (TET_OX + (tet_px s + o.1)) (TET_OY + (tet_py s + o.2))
    else mret tt) (blocks (tet_piece s) (tet_rot s)) ;;
  draw_sidebar.

(** ** The game *)

Definition tet_init (seed : Z) : tet :=
  let '(p, seed) := tet_rand seed in
  let '(n, _) := tet_rand seed in
  MkTet (replicate 20 (replicate 10 0)) 0 0 1 4 0 0 (Z.rem p 7) (Z.rem n 7) 12345 0 40.

(** The falling piece at another place. *)
Definition with_pos (s : tet) (px py rot : Z) : tet :=
  MkTet (tet_board s) (tet_score s) (tet_lines s) (tet_level s) px py rot
    (tet_piece s) (tet_next s) (tet_rng_seed s) (drop_timer s) (drop_speed s).
Definition with_timer (s : tet) (t : Z) : tet :=
  MkTet (tet_board s) (tet_score s) (tet_lines s) (tet_level s) (tet_px s) (tet_py s) (tet_rot s)
    (tet_piece s) (tet_next s) (tet_rng_seed s) t (drop_speed s).
Definition valid_at (s : tet) (px py rot : Z) : bool :=
  tet_valid (tet_board s) px py rot (tet_piece s).

(** The three moves a key may ask for, each taken only where the piece fits. *)
Definition tet_moves (c : Z) (s : tet) : tet :=
  let nx := tet_px s + (if (c =? 100) || (c =? KEY_RIGHT) then 1 else 0)
                     - (if (c =? c_a) || (c =? KEY_LEFT) then 1 else 0) in
  let nr := if (c =? 119) || (c =? KEY_UP) then Z.rem (tet_rot s + 1) 4 else tet_rot s in
  let ny := if (c =? 115) || (c =? KEY_DOWN) then tet_py s + 1 else tet_py s in
  let s := if negb (nx =? tet_px s) && valid_at s nx (tet_py s) (tet_rot s)
           then with_pos s nx (tet_py s) (tet_rot s) else s in
  let s := if negb (nr =? tet_rot s) && valid_at s (tet_px s) (tet_py s) nr
           then with_pos s (tet_px s) (tet_py s) nr else s in
  if negb (ny =? tet_py s) && valid_at s (tet_px s) ny (tet_rot s)
  then with_pos s (tet_px s) ny (tet_rot s) else s.

(** [while(tet_valid(tet_px,ny+1,...))ny++]: at most the height of the board. *)
Fixpoint hard_drop (fuel : nat) (s : tet) (ny : Z) : Z :=
  match fuel with
  | O => ny
  | S f => if valid_at s (tet_px s) (ny + 1) (tet_rot s) then hard_drop f s (ny + 1) else ny
  end.

Inductive status := Running | GameOver | Quit.

(** The code at [tet_lock]: place the piece, clear lines, score, take the next
    piece; whether the new piece fits is the second component. *)
Definition lock_piece (s : tet) : option (tet * bool) :=
  '(cl, b) ← tet_clear_lines (tet_place (tet_px s) (tet_py s) (tet_rot s) (tet_piece s) (tet_board s));
  let lines := i32 (tet_lines s + cl) in
  let score := i32 (tet_score s + i32 (cl * cl * 100 * tet_level s)) in
  let level := i32 (1 + Z.quot lines 10) in
  let speed := 40 - i32 (level * 3) in
  let speed := if speed <? 4 then 4 else speed in
  let '(r, seed) := tet_rand (tet_rng_seed s) in
  let s' := MkTet b score lines level 4 0 0 (tet_next s) (Z.rem r 7) seed (drop_timer s) speed in
  Some (s', valid_at s' 4 0 0).

Definition tet_lock : M tet status :=
  s ← get;
  match lock_piece s with
  | None => fail Blocked
  | Some (s', fits_new) =>
      modify (fun _ => s') ;;
      if negb fits_new
      then
        tet_draw_board ;;
        vset C_LRED C_BLACK ;;
        vstr TET_OX (TET_OY + TET_H / 2) (COL C_WHITE C_LRED) (cs " GAME OVER ") ;;
        vrst ;; mret GameOver
      else tet_draw_board ;; mret Running
  end.

(** The automatic drop at the end of a pass. *)
Definition tet_tick : M tet status :=
  s ← get;
  let t := drop_timer s + 1 in
  if drop_speed s <=? t
  then
    modify (fun s => with_timer s 0) ;;
    if valid_at s (tet_px s) (tet_py s + 1) (tet_rot s)
    then modify (fun s => with_pos s (tet_px s) (tet_py s + 1) (tet_rot s)) ;; tet_draw_board ;; mret Running
    else tet_lock
  else modify (fun s => with_timer s t) ;; tet_draw_board ;; mret Running.

(** One pass of [while(1)] with the key [kb_get] delivers, if one is waiting. *)
Definition tet_pass (key : option Z) : M tet status :=
  match key with
  | None => tet_tick
  | Some c =>
      if (c =? 113) || (c =? c_esc) then mret Quit
      else if c =? c_sp
      then modify (fun s => with_pos s (tet_px s) (hard_drop 20 s (tet_py s)) (tet_rot s)) ;; tet_lock
      else modify (tet_moves c) ;; tet_tick
  end.

Fixpoint tet_loop (keys : list (option Z)) : M tet status :=
  match keys with
  | [] => mret Running
  | k :: ks =>
      st ← tet_pass k;
      match st with Running => tet_loop ks | _ => mret st end
  end.

(** A whole session; a game over waits for one more key, which it drops. *)
Definition cmd_tetris (keys : list (option Z)) : M tet status :=
  vclear ;;
  modify (fun s => tet_init (tet_rng_seed s)) ;;
  st ← tet_loop keys;
  match st with
  | Running => mret st
  | _ =>
      s ← get;
      vclear ;; vset C_YELLOW C_BLACK ;; vps (cs "Tetris done! Score: ") ;;
      fits 16 (kia (tet_score s)) ;; vps (kia (tet_score s)) ;;
      vps (cs "  Lines: ") ;; fits 16 (kia (tet_lines s)) ;; vps (kia (tet_lines s)) ;;
      vps (cs "  Level: ") ;; fits 16 (kia (tet_level s)) ;; vpln (kia (tet_level s)) ;;
      vrst ;; mret st
  end.

(** ** Invariant *)

Definition cell_ok (c : Z) : Prop := 0 <= c <= 7.
Definition row_ok (r : list Z) : Prop := zlen r = TET_W /\ Forall cell_ok r.
Definition rows_ok (b : board) : Prop := Forall row_ok b.
Definition board_ok (b : board) : Prop := zlen b = TET_H /\ rows_ok b.
Definition int_ok (z : Z) : Prop := -2^31 <= z < 2^31.

Record tet_ok (s : tet) : Prop := {
  ok_board : board_ok (tet_board s);
  ok_piece : 0 <= tet_piece s < 7;
  ok_next : 0 <= tet_next s < 7;
  ok_rot : 0 <= tet_rot s < 4;
  ok_py : 0 <= tet_py s;
  ok_speed : 4 <= drop_speed s;
  ok_score : int_ok (tet_score s) /\ int_ok (tet_lines s) /\ int_ok (tet_level s);
}.

(** The falling piece does not overlap the board or leave it. *)
Definition tet_fits (s : tet) : Prop := valid_at s (tet_px s) (tet_py s) (tet_rot s) = true.

Lemma row_ok_get b y : rows_ok b -> 0 <= y < zlen b -> row_ok (aget [] b y).
Proof. intros. by apply Forall_aget. Qed.

Lemma cell_ok_get b y x : rows_ok b -> cell_ok (cell b y x).
Proof.
  intros Hb. unfold cell. apply Forall_aget_default; [|split; lia].
  apply (Forall_aget_default [] (fun r => Forall cell_ok r)); [|constructor].
  eapply Forall_impl; [exact Hb|]. by intros ? [].
Qed.

Lemma set_cell_ok b y x v :
  rows_ok b -> 0 <= y < zlen b -> cell_ok v -> rows_ok (set_cell b y x v).
Proof.
  intros Hb Hy Hv. apply Forall_aset; [done|]. destruct (row_ok_get b y Hb Hy) as [Hl Hr].
  split; [by rewrite zlen_aset|]. by apply Forall_aset.
Qed.

Lemma zlen_set_cell b y x v : zlen (set_cell b y x v) = zlen b.
Proof. apply zlen_aset. Qed.

Lemma tet_place_ok px py rot piece b :
  board_ok b -> 0 <= piece < 7 -> board_ok (tet_place px py rot piece b).
Proof.
  intros Hb Hp. unfold tet_place. revert b Hb. induction (blocks piece rot) as [|o os IH]; [done|].
  intros b [Hl Hr]. simpl. apply IH. unfold place_block. case_test; [|done].
  split; [by rewrite zlen_set_cell|]. apply set_cell_ok; [done|lia|].
  rewrite u8_id by lia. split; lia.
Qed.

(** ** Clearing lines *)

Definition empty_row : list Z := replicate 10 0.

(** Overwriting a whole row cell by cell. *)
Lemma write_row b y f :
  rows_ok b -> 0 <= y < zlen b ->
  for_ 0 TET_W (fun c b => set_cell b y c (f c)) b = aset b y (map f (seqZ 0 TET_W)).
Proof.
  intros Hb Hy.
  assert (H : zlen (for_ 0 TET_W (fun c b => set_cell b y c (f c)) b) = zlen b /\
     (forall j, 0 <= j -> j <> y -> aget [] (for_ 0 TET_W (fun c b => set_cell b y c (f c)) b) j = aget [] b j) /\
     zlen (aget [] (for_ 0 TET_W (fun c b => set_cell b y c (f c)) b) y) = TET_W /\
     (forall c, 0 <= c < TET_W -> cell (for_ 0 TET_W (fun c b => set_cell b y c (f c)) b) y c = f c)).
  { apply (for_ind (fun k b' => zlen b' = zlen b /\ (forall j, 0 <= j -> j <> y -> aget [] b' j = aget [] b j) /\
      zlen (aget [] b' y) = TET_W /\ (forall c, 0 <= c < k -> cell b' y c = f c))); [lia| |].
    - split_and!; [done|done|by apply row_ok_get|lia].
    - intros k b' Hk (H1 & H2 & H3 & H4). unfold set_cell, cell in *.
      rewrite !aget_aset_eq, !zlen_aset by lia. split_and!; [lia| |done|].
      + intros j Hj Hne. rewrite aget_aset_ne by lia. auto.
      + intros c Hc. destruct (Z.eq_dec c k) as [->|]; [by rewrite aget_aset_eq by lia|].
        rewrite aget_aset_ne by lia. apply H4. lia. }
  destruct H as (H1 & H2 & H3 & H4). apply (array_ext []); [by rewrite zlen_aset|].
  intros j Hj. destruct (Z.eq_dec j y) as [->|].
  - rewrite aget_aset_eq by lia. apply (array_ext 0); [by rewrite H3|].
    intros c Hc. rewrite H3 in Hc. specialize (H4 c Hc). unfold cell in H4. rewrite H4.
    unfold aget. rewrite nth_lookup, list_lookup_fmap, lookup_seqZ_lt by lia.
    simpl. f_equal. lia.
  - rewrite aget_aset_ne by lia. apply H2; lia.
Qed.

Lemma row_as_map r : zlen r = TET_W -> map (fun c => aget 0 r c) (seqZ 0 TET_W) = r.
Proof.
  intros H. apply (array_ext 0); [by rewrite H|]. intros c Hc.
  change (zlen (map (fun c => aget 0 r c) (seqZ 0 TET_W))) with TET_W in Hc.
  unfold aget. rewrite nth_lookup, list_lookup_fmap, lookup_seqZ_lt by lia. simpl.
  f_equal. lia.
Qed.

Lemma copy_row_eq b rr :
  rows_ok b -> 0 < rr < zlen b -> copy_row b rr = aset b rr (aget [] b (rr - 1)).
Proof.
  intros Hb Hr. unfold copy_row.
  set (r := aget [] b (rr - 1)).
  assert (E : for_ 0 TET_W (fun c b => set_cell b rr c (cell b (rr - 1) c)) b =
              for_ 0 TET_W (fun c b => set_cell b rr c (aget 0 r c)) b).
  { assert (Hn : forall n, (n <= 10)%nat ->
       for_ 0 (Z.of_nat n) (fun c b => set_cell b rr c (cell b (rr - 1) c)) b =
       for_ 0 (Z.of_nat n) (fun c b => set_cell b rr c (aget 0 r c)) b /\
       aget [] (for_ 0 (Z.of_nat n) (fun c b => set_cell b rr c (aget 0 r c)) b) (rr - 1) = r).
    { induction n as [|n IH]; intros Hn; [split; reflexivity|]. destruct IH as [I1 I2]; [lia|].
      replace (Z.of_nat (S n)) with (Z.of_nat n + 1) by lia. rewrite !for_last by lia.
      rewrite I1. unfold cell. rewrite I2. split; [done|]. unfold set_cell.
      rewrite aget_aset_ne by lia. done. }
    apply (Hn 10%nat). lia. }
  rewrite E, write_row by (auto; lia). f_equal. apply row_as_map.
  apply row_ok_get; [done|lia].
Qed.

(** Rows 1 to [r] hold what rows 0 to [r-1] held. *)
Lemma shift_rows_down b r :
  rows_ok b -> 0 <= r < zlen b ->
  let b' := for_ 0 r (fun i b => copy_row b (r - i)) b in
  zlen b' = zlen b /\ rows_ok b' /\
  (forall j, 0 <= j -> aget [] b' j = if (1 <=? j) && (j <=? r) then aget [] b (j - 1) else aget [] b j).
Proof.
  intros Hb Hr b'.
  assert (H : zlen b' = zlen b /\ rows_ok b' /\
    forall j, 0 <= j -> aget [] b' j = if (r - r <? j) && (j <=? r) then aget [] b (j - 1) else aget [] b j).
  { unfold b'. apply (for_ind (fun k b' => zlen b' = zlen b /\ rows_ok b' /\
      forall j, 0 <= j -> aget [] b' j = if (r - k <? j) && (j <=? r) then aget [] b (j - 1) else aget [] b j)); [lia| |].
    - split_and!; [done|done|]. intros j Hj. case_test; [lia|done].
    - intros i c Hi (H1 & H2 & H3). rewrite copy_row_eq by (auto; lia). rewrite zlen_aset. split_and!; [done| |].
      + apply Forall_aset; [done|]. apply row_ok_get; [done|lia].
      + intros j Hj. destruct (Z.eq_dec j (r - i)) as [->|Hne].
        * rewrite aget_aset_eq by lia. rewrite H3 by lia. repeat case_test; lia || done.
        * rewrite aget_aset_ne by lia. rewrite H3 by lia. repeat case_test; lia || done. }
  destruct H as (H1 & H2 & H3). split_and!; [done|done|]. intros j Hj. rewrite H3 by done.
  repeat case_test; lia || done.
Qed.

Lemma remove_row_eq top row bot :
  rows_ok (top ++ row :: bot) ->
  remove_row (zlen top) (top ++ row :: bot) = empty_row :: top ++ bot.
Proof.
  intros Hb. unfold remove_row. pose proof (zlen_nonneg top). pose proof (zlen_nonneg bot).
  assert (Hl : zlen (top ++ row :: bot) = zlen top + 1 + zlen bot) by (rewrite zlen_app, zlen_cons; lia).
  destruct (shift_rows_down (top ++ row :: bot) (zlen top) Hb ltac:(lia)) as (H1 & H2 & H3).
  set (b' := for_ 0 (zlen top) _ _) in *. cbv zeta.
  change (for_ 0 TET_W (fun c b => set_cell b 0 c 0) b') with
         (for_ 0 TET_W (fun c b => set_cell b 0 c ((fun _ => 0) c)) b').
  rewrite write_row by (auto; lia).
  change (map (fun _ => 0) (seqZ 0 TET_W)) with empty_row.
  apply (array_ext []); [rewrite zlen_aset, H1, Hl, zlen_cons, zlen_app; lia|].
  intros j Hj. rewrite zlen_aset in Hj. destruct (Z.eq_dec j 0) as [->|].
  - rewrite aget_aset_eq by lia. done.
  - rewrite aget_aset_ne, H3 by lia.
    change (empty_row :: top ++ bot) with ([empty_row] ++ top ++ bot).
    rewrite (aget_app_r [] [empty_row]) by (change (zlen [empty_row]) with 1; lia).
    change (zlen [empty_row]) with 1. case_test.
    + rewrite !aget_app_l by lia. done.
    + assert (zlen top < j) by (destruct (Z.le_gt_cases j (zlen top)); lia).
      rewrite !aget_app_r by lia.
      change (row :: bot) with ([row] ++ bot).
      rewrite (aget_app_r [] [row]) by (change (zlen [row]) with 1; lia).
      change (zlen [row]) with 1. f_equal. lia.
Qed.

(** Whether a row is full, cell by cell. *)
Lemma row_full_spec row : zlen row = TET_W -> row_full row = forallb (fun v => negb (v =? 0)) row.
Proof.
  intros H. transitivity (forallb (fun v => negb (v =? 0)) (map (fun c => aget 0 row c) (seqZ 0 TET_W))).
  - reflexivity.
  - by rewrite row_as_map.
Qed.

Definition not_full (row : list Z) : bool := negb (row_full row).

(** Reference: drop the full rows, refill with empty ones from the top. *)
Definition cleared_board (b : board) : board :=
  replicate (length (filter (fun r => not_full r = false) b)) empty_row ++ filter (fun r => not_full r = true) b.

Definition full_rows (b : board) : Z := zlen (filter (fun r => not_full r = false) b).

(** A full last row may be moved to the top and emptied. *)
Lemma cleared_snoc_full top row :
  row_full row = true ->
  full_rows (top ++ [row]) = full_rows (empty_row :: top) + 1 /\
  cleared_board (top ++ [row]) = cleared_board (empty_row :: top).
Proof.
  intros Hrow. assert (E : not_full row = false) by (unfold not_full; by rewrite Hrow).
  assert (E0 : not_full empty_row = true) by (vm_compute; reflexivity).
  unfold cleared_board, full_rows. rewrite !filter_app.
  rewrite (filter_cons_False (fun r => not_full r = false) empty_row) by (rewrite E0; done).
  rewrite (filter_cons_True (fun r => not_full r = true) empty_row) by done.
  rewrite (filter_cons_True (fun r => not_full r = false) row) by done.
  rewrite (filter_cons_False (fun r => not_full r = true) row) by (rewrite E; done).
  rewrite !filter_nil, app_nil_r, zlen_app, length_app. split; [done|].
  change (length [row]) with 1%nat. rewrite Nat.add_1_r, replicate_S_end, <- app_assoc. done.
Qed.

Lemma cleared_snoc_keep top row :
  row_full row = false ->
  full_rows (top ++ [row]) = full_rows top /\ cleared_board (top ++ [row]) = cleared_board top ++ [row].
Proof.
  intros Hrow. assert (E : not_full row = true) by (unfold not_full; by rewrite Hrow).
  unfold cleared_board, full_rows. rewrite !filter_app.
  rewrite (filter_cons_False (fun r => not_full r = false) row) by (rewrite E; done).
  rewrite (filter_cons_True (fun r => not_full r = true) row) by done.
  rewrite !filter_nil, !app_nil_r. by rewrite <- app_assoc.
Qed.

Lemma clear_loop_correct fuel top bot cl :
  rows_ok (top ++ bot) -> zlen top + full_rows top <= Z.of_nat fuel ->
  clear_loop fuel (zlen top - 1) cl (top ++ bot) = Some (cl + full_rows top, cleared_board top ++ bot).
Proof.
  assert (Hnil : forall f bot, clear_loop f (zlen (@nil (list Z)) - 1) cl bot = Some (cl + 0, bot)).
  { intros f b. rewrite Z.add_0_r. by destruct f. }
  revert top bot cl Hnil. induction fuel as [|f IH]; intros top bot cl Hnil Hb Hf;
    assert (Hfr : 0 <= full_rows top) by apply zlen_nonneg.
  - destruct top; [apply (Hnil 0%nat)|]. rewrite zlen_cons in Hf. pose proof (zlen_nonneg top). lia.
  - destruct top as [|row top _] using rev_ind; [apply (Hnil (S f))|]. clear Hnil.
    rewrite zlen_app in *. change (zlen [row]) with 1 in *. rewrite <- app_assoc in *. cbn [app] in *.
    cbn [clear_loop]. pose proof (zlen_nonneg top). case_test; [lia|].
    replace (zlen top + 1 - 1) with (zlen top) by lia.
    rewrite aget_app_r by lia. rewrite Z.sub_diag. change (aget [] (row :: bot) 0) with row.
    destruct (row_full row) eqn:Hrow.
    + destruct (cleared_snoc_full top row Hrow) as [E1 E2]. rewrite remove_row_eq by done.
      assert (Hok : rows_ok ((empty_row :: top) ++ bot)).
      { apply Forall_app in Hb as [Ht Hr%Forall_cons_iff]. apply Forall_app. split; [|apply Hr].
        constructor; [|done]. split; [done|]. apply Forall_replicate. split; lia. }
      pose proof (IH (empty_row :: top) bot (cl + 1)) as IH'. rewrite zlen_cons in IH'.
      replace (1 + zlen top - 1) with (zlen top) in IH' by lia. cbn [app] in IH'.
      rewrite IH', E1, E2; [|intros [|?] ?; rewrite Z.add_0_r; done|done|lia].
      f_equal. f_equal. lia.
    + destruct (cleared_snoc_keep top row Hrow) as [E1 E2].
      rewrite IH, E1, E2, <- app_assoc; [done|intros [|?] ?; rewrite Z.add_0_r; done|done|lia].
Qed.

Lemma full_rows_bound b : 0 <= full_rows b <= zlen b.
Proof.
  split; [apply zlen_nonneg|]. unfold full_rows, zlen.
  pose proof (length_filter (fun r => not_full r = false) b). lia.
Qed.

Lemma tet_clear_lines_eq b :
  board_ok b -> tet_clear_lines b = Some (full_rows b, cleared_board b).
Proof.
  intros [Hl Hb]. unfold tet_clear_lines. pose proof (full_rows_bound b).
  rewrite <- (app_nil_r b) at 1. replace (TET_H - 1) with (zlen b - 1) by lia.
  rewrite clear_loop_correct; [by rewrite app_nil_r|by rewrite app_nil_r|lia].
Qed.

Lemma cleared_board_ok b : board_ok b -> board_ok (cleared_board b).
Proof.
  intros [Hl Hb]. unfold cleared_board. split.
  - rewrite <- Hl. unfold zlen. rewrite length_app, length_replicate.
    clear. induction b as [|r b IH]; [done|].
    destruct (not_full r) eqn:E.
    + rewrite (filter_cons_False (fun r => not_full r = false)) by (rewrite E; done).
      rewrite (filter_cons_True (fun r => not_full r = true)) by done. cbn [length]. lia.
    + rewrite (filter_cons_True (fun r => not_full r = false)) by done.
      rewrite (filter_cons_False (fun r => not_full r = true)) by (rewrite E; done). cbn [length]. lia.
  - apply Forall_app. split.
    + apply Forall_replicate. split; [done|]. apply Forall_replicate. split; lia.
    + apply Forall_forall. intros r Hr.
      apply (list_elem_of_filter (fun r => not_full r = true)) in Hr as [_ Hr].
      by eapply Forall_forall.
Qed.

(** ** Drawing reads the tables in range *)

Definition no_fault : fault -> tet -> Prop := fun _ _ => False.

Lemma wp_mapM_same {A} (f : A -> M tet unit) l s (Q : unit -> tet -> Prop) :
  (forall x, wp (f x) s (fun _ s' => s' = s) no_fault) -> Q tt s ->
  wp (mapM_ f l) s Q no_fault.
Proof.
  intros Hf HQ. eapply wp_mono; [apply (wp_mapM f l s (fun s' => s' = s))| |done]; [done| |].
  - intros x s' _ ->. apply Hf.
  - intros [] s' ->. done.
Qed.

Lemma wp_vat_same c col x y s : wp (vat c col x y) s (fun _ s' => s' = s) no_fault.
Proof. by apply wp_emit. Qed.

(** One step of a drawing routine: loops keep the state. *)
Ltac draw_step :=
  first
    [ apply wp_mapM_same; [intros ?|]
    | wp_step ]; cbv beta zeta.

Lemma draw_border_ok s Q : Q tt s -> wp draw_border s Q no_fault.
Proof. intros HQ. unfold draw_border. repeat draw_step; done. Qed.

Lemma fits_int s n : int_ok n -> 16 <= zlen (kia n) -> no_fault BufferOverflow s.
Proof. intros Hn H. pose proof (kia_int_length n Hn). lia. Qed.

Lemma draw_sidebar_ok s Q :
  tet_ok s -> Q tt s -> wp draw_sidebar s Q no_fault.
Proof.
  intros Hs HQ. destruct (ok_score s Hs) as (H1 & H2 & H3). pose proof (ok_next s Hs).
  unfold draw_sidebar. repeat draw_step.
  all: match goal with
       | H : 16 <= zlen (kia ?n) |- _ => exact (fits_int s n ltac:(assumption) H)
       | |- no_fault _ _ => unfold no_fault; lia
       | _ => assumption || reflexivity
       end.
Qed.

Lemma draw_board_ok s Q : tet_ok s -> Q tt s -> wp tet_draw_board s Q no_fault.
Proof.
  intros Hs HQ. pose proof (ok_piece s Hs). pose proof (ok_rot s Hs).
  destruct (ok_board s Hs) as [_ Hb].
  unfold tet_draw_board. apply wp_bind, draw_border_ok.
  repeat draw_step; try done; try (unfold no_fault; lia).
  - unfold draw_cell. pose proof (cell_ok_get (tet_board s) x x0 Hb) as Hc. unfold cell_ok in Hc.
    repeat draw_step; bool_to_prop; try done. unfold no_fault. lia.
  - by apply draw_sidebar_ok.
Qed.

(** ** The game *)

Lemma rand_piece_range seed : 0 <= Z.rem (tet_rand seed).1 7 < 7.
Proof.
  unfold tet_rand. cbn [fst].
  assert (H : 0 <= Z.land (Z.shiftr (rand_seed seed) 16) 7)
    by (apply Z.land_nonneg; right; lia).
  apply Z.rem_bound_pos; lia.
Qed.

Lemma piece_cases p : 0 <= p < 7 -> p = 0 \/ p = 1 \/ p = 2 \/ p = 3 \/ p = 4 \/ p = 5 \/ p = 6.
Proof. lia. Qed.

(** Every piece starts with a block at or below its origin. *)
Lemma blocks_first piece rot :
  0 <= piece < 7 -> 0 <= rot < 4 -> exists o os, blocks piece rot = o :: os /\ 0 <= o.2.
Proof.
  intros Hp Hr. assert (rot = 0 \/ rot = 1 \/ rot = 2 \/ rot = 3) as Hr' by lia.
  destruct (piece_cases piece Hp) as [->|[->|[->|[->|[->|[->| ->]]]]]];
    destruct Hr' as [->|[->|[->| ->]]]; eexists _, _; (split; [reflexivity|simpl; lia]).
Qed.

Lemma valid_above_floor s px py rot :
  tet_ok s -> 0 <= rot < 4 -> valid_at s px py rot = true -> py < TET_H.
Proof.
  intros Hs Hr. destruct (blocks_first (tet_piece s) rot (ok_piece s Hs) Hr) as (o & os & E & Ho).
  unfold valid_at, tet_valid. rewrite E. cbn [forallb]. intros [H _]%andb_prop.
  unfold block_free in H. destruct ((px + o.1 <? 0) || (TET_W <=? px + o.1) || (TET_H <=? py + o.2)) eqn:Et; [done|].
  lia.
Qed.

Lemma with_pos_ok s px py rot :
  tet_ok s -> 0 <= py -> 0 <= rot < 4 -> tet_ok (with_pos s px py rot).
Proof. intros [] ? ?. by constructor. Qed.

Lemma tet_moves_ok c s : tet_ok s -> tet_fits s -> tet_ok (tet_moves c s) /\ tet_fits (tet_moves c s).
Proof.
  intros Hs Hf. unfold tet_moves.
  set (nx := tet_px s + _ - _).
  set (nr := if (c =? 119) || (c =? KEY_UP) then _ else tet_rot s).
  set (ny := if (c =? 115) || (c =? KEY_DOWN) then _ else tet_py s).
  assert (Hnr : 0 <= nr < 4).
  { unfold nr. pose proof (ok_rot s Hs). case_test; [|done].
    pose proof (Z.rem_bound_pos (tet_rot s + 1) 4). lia. }
  assert (Hny : 0 <= ny) by (unfold ny; pose proof (ok_py s Hs); case_test; lia).
  clearbody nx nr ny.
  assert (Hstep : forall (s : tet) (b : bool) px py rot,
    tet_ok s -> tet_fits s -> 0 <= py -> 0 <= rot < 4 ->
    tet_ok (if b && valid_at s px py rot then with_pos s px py rot else s) /\
    tet_fits (if b && valid_at s px py rot then with_pos s px py rot else s)).
  { intros s0 b px py rot H1 H2 H3 H4. destruct b; [|done]. cbn [andb].
    destruct (valid_at s0 px py rot) eqn:E; [|done]. split; [by apply with_pos_ok|done]. }
  destruct (Hstep s (negb (nx =? tet_px s)) nx (tet_py s) (tet_rot s) Hs Hf
    (ok_py s Hs) (ok_rot s Hs)) as [H1 F1].
  set (s1 := if _ && _ then with_pos s nx (tet_py s) (tet_rot s) else s) in *. clearbody s1.
  destruct (Hstep s1 (negb (nr =? tet_rot s1)) (tet_px s1) (tet_py s1) nr H1 F1
    (ok_py s1 H1) Hnr) as [H2 F2].
  set (s2 := if _ && _ then with_pos s1 (tet_px s1) (tet_py s1) nr else s1) in *. clearbody s2.
  apply Hstep; [done|done|done|apply (ok_rot s2 H2)].
Qed.

(** The hard drop ends where the piece still fits and one row lower does not. *)
Lemma hard_drop_correct fuel s ny :
  tet_ok s -> 0 <= ny -> valid_at s (tet_px s) ny (tet_rot s) = true -> TET_H <= ny + Z.of_nat fuel ->
  let y := hard_drop fuel s ny in
  ny <= y /\ valid_at s (tet_px s) y (tet_rot s) = true /\ valid_at s (tet_px s) (y + 1) (tet_rot s) = false.
Proof.
  intros Hs. revert ny. induction fuel as [|f IH]; intros ny H0 Hv Hf.
  - pose proof (valid_above_floor s (tet_px s) ny (tet_rot s) Hs (ok_rot s Hs) Hv). lia.
  - cbn [hard_drop]. destruct (valid_at s (tet_px s) (ny + 1) (tet_rot s)) eqn:E; [|by split_and!; [lia| |]].
    destruct (IH (ny + 1) ltac:(lia) E ltac:(lia)) as (H1 & H2 & H3). by split_and!; [lia| |].
Qed.

(** What one pass promises: the game state stays well-formed, and the piece fits
    as long as the game goes on. *)
Definition pass_post (st : status) (s : tet) : Prop := tet_ok s /\ (st = Running -> tet_fits s).

Lemma lock_piece_ok s :
  tet_ok s -> exists s' b, lock_piece s = Some (s', b) /\ tet_ok s' /\ (b = true -> tet_fits s').
Proof.
  intros Hs. unfold lock_piece.
  pose proof (tet_place_ok (tet_px s) (tet_py s) (tet_rot s) (tet_piece s) _ (ok_board s Hs) (ok_piece s Hs)) as Hb.
  rewrite tet_clear_lines_eq by done. cbn [mbind option_bind].
  pose proof (rand_piece_range (tet_rng_seed s)) as Hr.
  destruct (tet_rand (tet_rng_seed s)) as [r seed]. cbn [fst] in Hr.
  eexists _, _. split; [reflexivity|]. split; [|done].
  constructor; cbn [tet_board tet_piece tet_next tet_rot tet_py drop_speed tet_score tet_lines tet_level].
  - by apply cleared_board_ok.
  - apply (ok_next s Hs).
  - done.
  - lia.
  - lia.
  - case_test; lia.
  - split_and!; apply i32_range.
Qed.

Lemma tet_lock_ok s : tet_ok s -> wp tet_lock s pass_post no_fault.
Proof.
  intros Hs. unfold tet_lock. destruct (lock_piece_ok s Hs) as (s' & b & E & Hs' & Hb).
  apply wp_bind, wp_get. rewrite E. apply wp_bind, wp_modify.
  destruct b; cbn [negb]; apply wp_bind, draw_board_ok; auto.
  - apply wp_ret. by split; [|intros _; apply Hb].
  - repeat draw_step. by split.
Qed.

Lemma tet_tick_ok s : tet_ok s -> tet_fits s -> wp tet_tick s pass_post no_fault.
Proof.
  intros Hs Hf. unfold tet_tick. apply wp_bind, wp_get. cbv zeta.
  assert (Ht : forall t, tet_ok (with_timer s t)) by (intros t; destruct Hs; by constructor).
  case_test.
  - apply wp_bind, wp_modify. destruct (valid_at s (tet_px s) (tet_py s + 1) (tet_rot s)) eqn:E.
    + apply wp_bind, wp_modify, wp_bind.
      assert (Hm : tet_ok (with_pos (with_timer s 0) (tet_px s) (tet_py s + 1) (tet_rot s))).
      { apply with_pos_ok; [apply Ht| |apply (ok_rot s Hs)]. pose proof (ok_py s Hs). lia. }
      apply draw_board_ok; [exact Hm|]. apply wp_ret. by split.
    + by apply tet_lock_ok.
  - apply wp_bind, wp_modify, wp_bind, draw_board_ok; [done|]. apply wp_ret. by split.
Qed.

Lemma tet_pass_ok key s : tet_ok s -> tet_fits s -> wp (tet_pass key) s pass_post no_fault.
Proof.
  intros Hs Hf. destruct key as [c|]; [|by apply tet_tick_ok]. unfold tet_pass. repeat case_test.
  - apply wp_ret. by split.
  - apply wp_bind, wp_modify, tet_lock_ok, with_pos_ok; [done| |apply (ok_rot s Hs)].
    pose proof (ok_py s Hs).
    destruct (hard_drop_correct 20 s (tet_py s) Hs ltac:(lia) Hf ltac:(lia)). lia.
  - destruct (tet_moves_ok c s Hs Hf). by apply wp_bind, wp_modify, tet_tick_ok.
Qed.

Lemma tet_loop_ok keys s : tet_ok s -> tet_fits s -> wp (tet_loop keys) s pass_post no_fault.
Proof.
  revert s. induction keys as [|k ks IH]; intros s Hs Hf; cbn [tet_loop].
  - apply wp_ret. by split.
  - apply wp_bind. eapply wp_mono; [by apply tet_pass_ok| |done].
    intros st s' [H1 H2]. destruct st; [by apply IH; auto| |]; apply wp_ret; by split.
Qed.

Lemma tet_init_ok seed : tet_ok (tet_init seed) /\ tet_fits (tet_init seed).
Proof.
  unfold tet_init. pose proof (rand_piece_range seed) as Hp.
  destruct (tet_rand seed) as [p seed']. pose proof (rand_piece_range seed') as Hn.
  destruct (tet_rand seed') as [n seed'']. cbn [fst] in *.
  generalize dependent (Z.rem p 7). generalize dependent (Z.rem n 7). intros n' Hn p' Hp. split.
  - constructor; cbn [tet_board tet_piece tet_next tet_rot tet_py drop_speed tet_score tet_lines tet_level];
      try lia; [|unfold int_ok; lia].
    split; [done|]. apply Forall_replicate. split; [done|]. apply Forall_replicate. split; lia.
  - destruct (piece_cases p' Hp) as [->|[->|[->|[->|[->|[->| ->]]]]]]; reflexivity.
Qed.

(** ** Claims *)

(** Tetris is safe for every sequence of keys: from any previous state the
    session never reads a colour table or the board out of range and never
    overruns its number buffers; the board keeps its 20 rows of 10 cells with
    colours 0 to 7, and while the game runs the falling piece lies on free cells. *)
Theorem tetris_safe keys s0 :
  wp (cmd_tetris keys) s0 (fun st s => tet_ok s /\ (st = Running -> tet_fits s)) (fun _ _ => False).
Proof.
  unfold cmd_tetris. apply wp_bind, wp_emit, wp_bind, wp_modify.
  destruct (tet_init_ok (tet_rng_seed s0)) as [H1 H2].
  apply wp_bind. eapply wp_mono; [by apply tet_loop_ok| |done].
  intros st s [Hs Hf]. destruct (ok_score s Hs) as (G1 & G2 & G3).
  destruct st; [by apply wp_ret| |]; repeat draw_step.
  all: match goal with
       | H : 16 <= zlen (kia ?n) |- _ => exact (fits_int s n ltac:(assumption) H)
       | _ => by split
       end.
Qed.

(** C35: Clearing lines ends and is exact: on every board of 20 rows of ten cells
    with colours 0 to 7 it counts the full rows, removes them, keeps the other rows
    in their order and refills the board from the top with empty rows, so that the
    board keeps its size. *)
Theorem tet_clear_lines_correct b :
  board_ok b ->
  tet_clear_lines b =
    Some (zlen (filter (fun r => row_full r = true) b),
          replicate (length (filter (fun r => row_full r = true) b)) empty_row ++
          filter (fun r => row_full r = false) b) /\
  board_ok (cleared_board b).
Proof.
  intros Hb. split; [|by apply cleared_board_ok]. rewrite tet_clear_lines_eq by done.
  assert (E1 : filter (fun r => not_full r = false) b = filter (fun r => row_full r = true) b).
  { apply list_filter_iff. intros r. unfold not_full. by rewrite negb_false_iff. }
  assert (E2 : filter (fun r => not_full r = true) b = filter (fun r => row_full r = false) b).
  { apply list_filter_iff. intros r. unfold not_full. by rewrite negb_true_iff. }
  unfold full_rows, cleared_board. by rewrite E1, E2.
Qed.

Definition sample_board : board :=
  replicate 17 empty_row ++ [[0;1;0;0;0;0;0;0;0;0]; replicate 10 3; [2;2;2;2;2;2;2;2;2;0]].

Lemma tet_clear_lines_correct_witness :
  tet_clear_lines sample_board =
  Some (1, replicate 18 empty_row ++ [[0;1;0;0;0;0;0;0;0;0]; [2;2;2;2;2;2;2;2;2;0]]).
Proof.
  destruct (tet_clear_lines_correct sample_board) as [E _].
  - split; [done|]. repeat (constructor; [split; [done|]; repeat (constructor; [split; lia|]); constructor|]).
    constructor.
  - rewrite E. vm_compute. reflexivity.
Defined.
