(* ===== verification/Snake.v ===== *)
(** * Snake ([cmd_snake] of [shell/shell.h])

    The snake is the list of its segments from the head; a pass of the game draws
    a frame, waits for at most one key and moves.  A game is the list of the keys
    its passes find.  The theorem relates what is on the screen to the game. *)

From Stdlib Require Import ZArith Lia.
From stdpp Require Import base numbers list list_numbers strings.
From S2P Require Import Prelude CLib Vga Console Ps2.

Notation SN_W := 42 (only parsing).
Notation SN_H := 19 (only parsing).
Notation SN_MAX := 200 (only parsing).
Notation CH_TL := 0xC9 (only parsing).
Notation CH_TR := 0xBB (only parsing).
Notation CH_BL := 0xC8 (only parsing).
Notation CH_BR := 0xBC (only parsing).
Notation CH_H := 0xCD (only parsing).
Notation CH_V := 0xBA (only parsing).
Notation CH_BLOCK := 0xDB (only parsing).
Notation CH_MED := 0xB1 (only parsing).
Notation CH_DIAM := 0x04 (only parsing).

Record snake := Snake { segs : list (Z * Z); dir : Z * Z; food : Z * Z; score : Z; rng : Z; paused : bool }.
Definition snake0 : snake := Snake [(10, 5); (9, 5); (8, 5)] (1, 0) (21, 10) 0 12345 false.
Definition seg (g : snake) (i : Z) : Z * Z := aget (0, 0) (segs g) i.
Definition set_dir d p g := Snake (segs g) d (food g) (score g) (rng g) p.

Inductive outcome := Playing | Over.

Definition draw_walls : M snake unit :=
  let bc := COL C_LCYAN C_BLACK in
  mapM_ (fun i => vat CH_H bc i 0 ;; vat CH_H bc i (SN_H + 1)) (seqZ 0 (SN_W + 2)) ;;
  mapM_ (fun i => vat CH_V bc 0 i ;; vat CH_V bc (SN_W + 1) i) (seqZ 0 (SN_H + 2)) ;;
  vat CH_TL bc 0 0 ;; vat CH_TR bc (SN_W + 1) 0 ;; vat CH_BL bc 0 (SN_H + 1) ;; vat CH_BR bc (SN_W + 1) (SN_H + 1) ;;
  vstr (SN_W + 3) 1 (COL C_YELLOW C_BLACK) (cs "SNAKE!") ;;
  vstr (SN_W + 3) 3 (COL C_WHITE C_BLACK) (cs "WASD/arrows") ;;
  vstr (SN_W + 3) 4 (COL C_WHITE C_BLACK) (cs "SPACE=pause  Q=quit").

(** The stores of one frame, in order. *)
Definition draw_snake : M snake unit :=
  g ← get;
  vat CH_DIAM (COL C_BLACK C_YELLOW) ((food g).1 + 1) ((food g).2 + 1) ;;
  vat CH_BLOCK (COL C_BLACK C_LGREEN) ((seg g 0).1 + 1) ((seg g 0).2 + 1) ;;
  mapM_ (fun p : Z * Z => vat CH_MED (COL C_LGREEN C_BLACK) (p.1 + 1) (p.2 + 1)) (drop 1 (segs g)) ;;
  fits 8 (kia (score g)) ;;
  vstr (SN_W + 3) 7 (COL C_YELLOW C_BLACK) (cs "Score:") ;;
  vstr (SN_W + 10) 7 (COL C_WHITE C_BLACK) (kia (score g)).

Definition turn (c : Z) (d : Z * Z) : Z * Z :=
  if ((c =? 119) || (c =? KEY_UP)) && negb (d.2 =? 1) then (0, -1)
  else if ((c =? 115) || (c =? KEY_DOWN)) && negb (d.2 =? -1) then (0, 1)
  else if ((c =? 97) || (c =? KEY_LEFT)) && negb (d.1 =? 1) then (-1, 0)
  else if ((c =? 100) || (c =? KEY_RIGHT)) && negb (d.1 =? -1) then (1, 0)
  else d.

Definition press (c : Z) (g : snake) : snake :=
  let p := if c =? c_sp then negb (paused g) else paused g in
  set_dir (if p then dir g else turn c (dir g)) p g.

Definition new_food (r : Z) : Z * Z := (Z.rem (Z.land (Z.shiftr r 8) 0xFF) SN_W, Z.rem (Z.land (Z.shiftr r 16) 0xFF) SN_H).

(** The state after the head has moved to [n]; the tail's cell is given up
    unless the snake grows. *)
Definition advance (n : Z * Z) (g : snake) : snake :=
  let hit := (n.1 =? (food g).1) && (n.2 =? (food g).2) in
  let slen := zlen (segs g) in
  let slen' := if hit && (slen <? SN_MAX) then slen + 1 else slen in
  let r := if hit then i32 (rng g * 1103515245 + 12345) else rng g in
  Snake (n :: take (Z.to_nat (slen' - 1)) (segs g)) (dir g) (if hit then new_food r else food g)
        (if hit then i32 (score g + 10) else score g) r (paused g).

Definition move : M snake outcome :=
  g ← get;
  let n := ((seg g 0).1 + (dir g).1, (seg g 0).2 + (dir g).2) in
  if (n.1 <? 0) || (SN_W <=? n.1) || (n.2 <? 0) || (SN_H <=? n.2) then mret Over
  else if existsb (fun p : Z * Z => (p.1 =? n.1) && (p.2 =? n.2)) (drop 1 (segs g)) then mret Over
  else
    let t := seg g (zlen (segs g) - 1) in
    vat c_sp (COL C_BLACK C_BLACK) (t.1 + 1) (t.2 + 1) ;;
    modify (advance n) ;; mret Playing.

(** One pass: a frame, the key the delay loop finds, if any, and a move. *)
Definition pass (key : option Z) : M snake outcome :=
  draw_snake ;;
  match key with
  | Some c =>
      if (c =? 113) || (c =? c_esc) then mret Over
      else modify (press c) ;; g ← get; if paused g then mret Playing else move
  | None => g ← get; if paused g then mret Playing else move
  end.

Fixpoint play (keys : list (option Z)) : M snake outcome :=
  match keys with
  | [] => mret Playing
  | k :: ks => st ← pass k; match st with Playing => play ks | Over => mret Over end
  end.

Definition game_over : M snake unit :=
  g ← get;
  vclear ;; vset C_LRED C_BLACK ;; vps (cs "Game over! Score: ") ;; fits 8 (kia (score g)) ;; vpln (kia (score g)) ;; vrst.
Definition cmd_snake (keys : list (option Z)) : M snake outcome :=
  modify (fun _ => snake0) ;; vclear ;; draw_walls ;;
  st ← play keys;
  match st with Playing => mret Playing | Over => game_over ;; mret Over end.

(** ** The invariant of the game *)

Definition on_board (p : Z * Z) : Prop := 0 <= p.1 < SN_W /\ 0 <= p.2 < SN_H.
Definition next_to (p q : Z * Z) : Prop := Z.abs (p.1 - q.1) + Z.abs (p.2 - q.2) = 1.
Fixpoint chain (l : list (Z * Z)) : Prop :=
  match l with p :: ((q :: _) as l') => next_to p q /\ chain l' | _ => True end.
Definition unit_dir (d : Z * Z) : Prop := Z.abs d.1 + Z.abs d.2 = 1.

(** The snake is a connected line of 3 to 200 cells of the board that does not
    cross itself; the food is on the board. *)
Record snake_ok (g : snake) : Prop := SnakeOk {
  so_len : 3 <= zlen (segs g) <= SN_MAX;
  so_board : Forall on_board (segs g);
  so_nodup : NoDup (segs g);
  so_chain : chain (segs g);
  so_dir : unit_dir (dir g);
  so_food : on_board (food g);
  so_score : 0 <= score g }.

Lemma turn_unit c d : unit_dir d -> unit_dir (turn c d).
Proof. intros H. unfold turn. repeat case_test; done. Qed.

(** A key never reverses the snake. *)
Lemma turn_not_back c d : unit_dir d -> turn c d <> (- d.1, - d.2).
Proof.
  unfold unit_dir, turn. destruct d as [dx dy]. cbn [fst snd]. intros H. repeat case_test; intros [= E1 E2]; bool_to_prop; lia.
Qed.

Lemma press_ok c g : snake_ok g -> snake_ok (press c g).
Proof.
  intros []. unfold press. constructor; cbn; try done. destruct (if c =? c_sp then _ else _); [done|by apply turn_unit].
Qed.

Lemma new_food_on_board r : on_board (new_food r).
Proof.
  unfold on_board, new_food. cbn [fst snd].
  assert (H8 : 0 <= Z.land (Z.shiftr r 8) 0xFF) by (apply Z.land_nonneg; lia). assert (H16 : 0 <= Z.land (Z.shiftr r 16) 0xFF) by (apply Z.land_nonneg; lia).
  split; (split; [apply Z.rem_nonneg|apply Z.rem_bound_pos]; lia).
Qed.

Lemma chain_take k : forall l, chain l -> chain (take k l).
Proof.
  induction k as [|k IH]; intros l Hl; [done|]. destruct l as [|p [|q l]]; [done|by destruct k|]. cbn [take]. destruct Hl as [Hpq Hl]. specialize (IH (q :: l) Hl).
  destruct k; [done|]. cbn [take] in *. by split.
Qed.

Lemma advance_ok n g h l : snake_ok g -> segs g = h :: l -> n = (h.1 + (dir g).1, h.2 + (dir g).2) -> on_board n -> n ∉ l -> score g < 2^31 - 20 -> snake_ok (advance n g).
Proof.
  intros [Hlen Hb Hnd Hch Hd Hf Hsc] Es En Hn Hnl Hmax. unfold advance. cbv zeta. set (hit := (n.1 =? _) && (n.2 =? _)). set (k := if hit && (zlen (segs g) <? _) then _ else _).
  assert (Hk : zlen (segs g) <= k <= SN_MAX /\ k <= zlen (segs g) + 1) by (unfold k; repeat case_test; lia).
  assert (Hne : n <> h) by (intros ->; destruct h, (dir g) eqn:Ed; unfold unit_dir in Hd; cbn in *; injection En as E1 E2; lia).
  assert (Hadj : next_to n h) by (subst n; unfold next_to, unit_dir in *; cbn [fst snd]; rewrite <- Hd; f_equal; f_equal; lia).
  assert (Hnin : n ∉ segs g) by (rewrite Es; intros Hin; apply elem_of_cons in Hin as [?|?]; done).
  constructor; cbn [segs dir food score].
  - rewrite zlen_cons. unfold zlen in *. rewrite length_take. lia.
  - constructor; [done|]. by apply Forall_take.
  - constructor; [|eapply sublist_NoDup; [exact Hnd|apply sublist_take]]. intros Hin. apply Hnin. apply elem_of_take in Hin as (i & Hi & _). by eapply list_elem_of_lookup_2.
  - rewrite Es in *. destruct (Z.to_nat (k - 1)) as [|k'] eqn:Ek; [rewrite zlen_cons in *; lia|]. cbn [take chain]. split; [done|]. by apply (chain_take (S k') (h :: l)).
  - done.
  - destruct hit; [apply new_food_on_board|done].
  - destruct hit; [|done]. rewrite i32_id; lia.
Qed.

(** ** The picture *)

Definition char_at (v : vga) (p : Z * Z) : Z := Z.land (mem_get v ((p.2 + 1) * 80 + (p.1 + 1))) 255.
(** What a cell of the board shows of a game. *)
Definition picture (g : snake) (p : Z * Z) : Z :=
  if decide (p ∈ drop 1 (segs g)) then CH_MED
  else if decide (p = seg g 0) then CH_BLOCK
  else if decide (p = food g) then CH_DIAM else c_sp.

Lemma ENT_char c col : Z.land (ENT c col) 255 = u8 c.
Proof.
  unfold ENT. change 255 with (Z.ones 8). rewrite Z.land_lor_distr_l, !Z.land_ones by lia. rewrite Z.shiftl_mul_pow2, Z.mod_mul, Z.lor_0_r by lia.
  unfold u8. by rewrite Z.mod_mod by lia.
Qed.

Section Screen.
Context (crtc : Z -> Z).
Implicit Type v : vga.

Definition full v : Prop := zlen (VGA_MEM v) = 2000.
Lemma vat_full c col x y v : full v -> full (Vga.vat c col x y v).
Proof. unfold full, Vga.vat. case_test; [done|]. cbn. by rewrite zlen_aset. Qed.

Lemma vat_char c col x y v p : full v -> on_board p ->
  char_at (Vga.vat c col x y v) p = if decide (x = p.1 + 1 /\ y = p.2 + 1) then u8 c else char_at v p.
Proof.
  intros Hv [H1 H2]. unfold Vga.vat, off_screen, char_at, mem_get, mem_set, full in *. destruct (_ || _) eqn:E.
  { rewrite decide_False; [done|]. intros [-> ->]. lia. }
  cbn [VGA_MEM set_mem]. case_decide as D.
  - destruct D as [-> ->]. rewrite aget_aset_eq by lia. apply ENT_char.
  - rewrite aget_aset_ne by nia. done.
Qed.

(** Events that leave the board alone. *)
Definition beside (e : cev) : bool :=
  match e with
  | EAt _ _ x y => negb ((1 <=? x) && (x <=? SN_W) && (1 <=? y) && (y <=? SN_H))
  | EStr x _ _ _ => SN_W <? x
  | _ => false
  end.
Lemma vstr_beside s : forall x y col v, full v -> SN_W < x -> full (Vga.vstr x y col s v) /\ forall p, on_board p -> char_at (Vga.vstr x y col s v) p = char_at v p.
Proof.
  induction s as [|c s IH]; intros x y col v Hv Hx; [done|]. cbn [Vga.vstr]. destruct (IH (x + 1) y col (Vga.vat (u8 c) col x y v)) as [Hf Hc]; [by apply vat_full|lia|].
  split; [done|]. intros p Hp. rewrite Hc, vat_char by done. apply decide_False. destruct Hp. lia.
Qed.
Lemma run_beside es : forall v, full v -> forallb beside es = true -> full (run_evs crtc es v) /\ forall p, on_board p -> char_at (run_evs crtc es v) p = char_at v p.
Proof.
  induction es as [|e es IH]; intros v Hv Hes; [done|]. cbn [forallb] in Hes. apply andb_prop in Hes as [He Hes]. change (run_evs crtc (e :: es) v) with (run_evs crtc es (run_ev crtc e v)).
  assert (H1 : full (run_ev crtc e v) /\ forall p, on_board p -> char_at (run_ev crtc e v) p = char_at v p).
  { destruct e; try done; cbn [run_ev beside] in *.
    - split; [by apply vat_full|]. intros p Hp. rewrite vat_char by done. apply decide_False. destruct Hp. lia.
    - apply vstr_beside; [done|lia]. }
  destruct H1 as [Hf Hc]. destruct (IH _ Hf Hes) as [Hf' Hc']. split; [done|]. intros p Hp. by rewrite Hc', Hc.
Qed.

Lemma run_evs_cat a b v : run_evs crtc (a ++ b) v = run_evs crtc b (run_evs crtc a v).
Proof. apply fold_left_app. Qed.

(** A list of stores on board cells: the last store to a cell wins. *)
Lemma run_body l : forall v, full v -> Forall on_board l ->
  let w := run_evs crtc (map (fun p : Z * Z => EAt CH_MED (COL C_LGREEN C_BLACK) (p.1 + 1) (p.2 + 1)) l) v in
  full w /\ forall p, on_board p -> char_at w p = if decide (p ∈ l) then CH_MED else char_at v p.
Proof.
  induction l as [|q l IH]; intros v Hv Hl; cbv zeta. { split; [done|]. intros p Hp. rewrite decide_False; [done|apply not_elem_of_nil]. }
  apply Forall_cons_1 in Hl as [Hq Hl]. cbn [map]. set (w := Vga.vat CH_MED (COL C_LGREEN C_BLACK) (q.1 + 1) (q.2 + 1) v).
  destruct (IH w (vat_full _ _ _ _ _ Hv) Hl) as [Hf Hc]. split; [exact Hf|]. intros p Hp. etransitivity; [exact (Hc p Hp)|]. unfold w. rewrite vat_char by done.
  destruct (decide (p ∈ l)) as [Hin|Hin]; [by rewrite decide_True by (by right)|]. destruct (decide (q.1 + 1 = p.1 + 1 /\ q.2 + 1 = p.2 + 1)) as [E|E].
  - rewrite decide_True; [done|]. destruct p, q; cbn in E. assert (z = z1 /\ z0 = z2) as [-> ->] by lia. left.
  - rewrite decide_False; [done|]. intros Hin'. apply elem_of_cons in Hin' as [-> | ?]; [apply E; done|done].
Qed.

Lemma clear_all v : full v -> full (vga_init crtc v) /\ forall p, on_board p -> char_at (vga_init crtc v) p = c_sp.
Proof.
  intros Hv. unfold vga_init. cbv zeta. set (v0 := set_vc _ _).
  set (w := Prelude.for_ 0 VGA_H _ v0).
  assert (Hw : full w /\ forall j, 0 <= j < 25 * 80 -> mem_get w j = ENT c_sp (COL C_WHITE C_BLACK)).
  { apply (for_ind (fun r u => full u /\ forall j, 0 <= j < r * 80 -> mem_get u j = ENT c_sp (COL C_WHITE C_BLACK))); [lia|split; [done|intros; lia]|].
    intros r u Hr [Hu Hg]. destruct (clear_row_spec r (COL C_WHITE C_BLACK) u Hu Hr) as [[_ Hl] Hc]. split; [exact Hl|]. intros j Hj.
    specialize (Hc j ltac:(lia)). etransitivity; [exact Hc|]. destruct (_ && _) eqn:E; [done|]. apply Hg. lia. }
  destruct Hw as [Hf Hg]. assert (Hm : forall u, full u -> VGA_MEM (vga_update_hw_cursor (vga_enable_cursor crtc 13 15 u)) = VGA_MEM u) by (intros u _; unfold vga_update_hw_cursor, vga_enable_cursor; repeat case_test; reflexivity).
  split; [unfold full; by rewrite Hm|]. intros p [H1 H2]. unfold char_at, mem_get. rewrite Hm by done. unfold mem_get in Hg. rewrite Hg by lia. rewrite ENT_char. reflexivity.
Qed.
End Screen.

(** ** The game on the screen *)

(** Before a frame is drawn: cells without snake and food are blank. *)
Definition clean (g : snake) (v : vga) : Prop :=
  full v /\ forall p, on_board p -> p ∉ segs g -> p <> food g -> char_at v p = c_sp.
Definition shows (g : snake) (v : vga) : Prop := full v /\ forall p, on_board p -> char_at v p = picture g p.

Lemma mapM_emit {T A} (f : A -> cev) l (s : T) : mapM_ (fun x => emit (f x)) l s = Ok tt s (map f l).
Proof. induction l as [|x l IH]; [done|]. cbn [mapM_]. unfold mbind, M_bind, emit at 1. by rewrite IH. Qed.

Definition frame_events (g : snake) : list cev :=
  [EAt CH_DIAM (COL C_BLACK C_YELLOW) ((food g).1 + 1) ((food g).2 + 1); EAt CH_BLOCK (COL C_BLACK C_LGREEN) ((seg g 0).1 + 1) ((seg g 0).2 + 1)] ++
  map (fun p : Z * Z => EAt CH_MED (COL C_LGREEN C_BLACK) (p.1 + 1) (p.2 + 1)) (drop 1 (segs g)) ++
  [EStr (SN_W + 3) 7 (COL C_YELLOW C_BLACK) (cs "Score:"); EStr (SN_W + 10) 7 (COL C_WHITE C_BLACK) (kia (score g))].

Lemma kia_score n : 0 <= n < 10000000 -> zlen (kia n) < 8.
Proof.
  intros Hn. unfold kia, zlen. destruct (Z.eqb_spec n 0); [cbn; lia|]. destruct (Z.ltb_spec n 0); [lia|].
  pose proof (digits_loop_length dec_digit 20 7 n [] ltac:(change (10 ^ Z.of_nat 7) with 10000000; lia)) as Hk. change (length (@nil Z)) with 0%nat in Hk. lia.
Qed.

Lemma draw_snake_run g : 0 <= score g < 10000000 -> draw_snake g = Ok tt g (frame_events g).
Proof.
  intros Hs. unfold draw_snake. rewrite (bind_silent get _ g g g) by done. do 2 erewrite (bind_ok (vat _ _ _ _)) by reflexivity.
  assert (Hm : mapM_ (fun p : Z * Z => vat CH_MED (COL C_LGREEN C_BLACK) (p.1 + 1) (p.2 + 1)) (drop 1 (segs g)) g =
    Ok tt g (map (fun p : Z * Z => EAt CH_MED (COL C_LGREEN C_BLACK) (p.1 + 1) (p.2 + 1)) (drop 1 (segs g)))) by exact (mapM_emit _ _ g).
  rewrite (bind_ok _ _ g tt g _ Hm). rewrite (bind_silent (fits 8 _) _ g tt g).
  2:{ unfold fits. by rewrite (proj2 (Z.ltb_lt _ 8)) by (by apply kia_score). }
  reflexivity.
Qed.

Lemma head_not_tail g : snake_ok g -> seg g 0 ∉ drop 1 (segs g) /\ seg g 0 ∈ segs g /\ on_board (seg g 0).
Proof.
  intros [Hl Hb Hnd _ _ _ _]. unfold seg, aget. destruct (segs g) as [|h l]; [rewrite zlen_nil in Hl; lia|]. cbn.
  apply NoDup_cons in Hnd as [? ?]. apply Forall_cons_1 in Hb as [? ?]. split; [done|]. split; [left|done].
Qed.

(** Drawing a frame makes the screen the picture of the game. *)
Lemma frame_shows crtc g v : snake_ok g -> clean g v -> shows g (run_evs crtc (frame_events g) v).
Proof.
  intros Hg [Hv Hc]. destruct (head_not_tail g Hg) as (Hht & Hhs & Hhb). pose proof Hg as [Hl Hb Hnd _ _ Hf _].
  unfold frame_events. rewrite !run_evs_cat. set (v1 := run_evs crtc [_; _] v). assert (Hv1 : full v1) by (by apply vat_full, vat_full).
  assert (Hc1 : forall p, on_board p -> char_at v1 p = if decide (p = seg g 0) then CH_BLOCK else if decide (p = food g) then CH_DIAM else char_at v p).
  { intros p Hp. unfold v1. cbn [run_evs fold_left run_ev]. rewrite !vat_char by (done || by apply vat_full).
    assert (Hd : forall q : Z * Z, (q.1 + 1 = p.1 + 1 /\ q.2 + 1 = p.2 + 1) <-> p = q) by (intros [a b]; destruct p as [c d]; cbn; split; [intros []; f_equal; lia|intros [= -> ->]; done]).
    rewrite (decide_ext _ _ _ _ (Hd (seg g 0))), (decide_ext _ _ _ _ (Hd (food g))). done. }
  destruct (run_body crtc (drop 1 (segs g)) v1 Hv1 ltac:(by apply Forall_drop)) as [Hv2 Hc2]. cbv zeta in Hv2, Hc2. set (v2 := run_evs crtc (map _ _) v1) in *.
  destruct (run_beside crtc [EStr (SN_W + 3) 7 (COL C_YELLOW C_BLACK) (cs "Score:"); EStr (SN_W + 10) 7 (COL C_WHITE C_BLACK) (kia (score g))] v2 Hv2 eq_refl) as [Hv3 Hc3].
  split; [done|]. intros p Hp. rewrite Hc3, Hc2, Hc1 by done. unfold picture. case_decide as D1; [done|]. case_decide as D2; [done|]. case_decide as D3; [done|].
  apply Hc; [done| |done]. intros Hin. destruct (segs g) as [|h l] eqn:E; [by apply elem_of_nil in Hin|]. apply elem_of_cons in Hin as [-> | Hin]; [apply D2; unfold seg; by rewrite E|done].
Qed.

(** A move: the tail's cell is blanked; then cells without snake and food are
    blank for the new game. *)
Lemma move_clean crtc g v n : snake_ok g -> shows g v ->
  clean (advance n g) (run_evs crtc [EAt c_sp (COL C_BLACK C_BLACK) ((seg g (zlen (segs g) - 1)).1 + 1) ((seg g (zlen (segs g) - 1)).2 + 1)] v).
Proof.
  intros Hg [Hv Hs]. pose proof Hg as [Hl Hb Hnd _ _ _ _]. set (t := seg g (zlen (segs g) - 1)). split; [by apply vat_full|]. intros p Hp Hin Hfd.
  cbn [run_evs fold_left run_ev]. rewrite vat_char by done. case_decide as D; [reflexivity|]. rewrite Hs by done.
  unfold advance in Hin, Hfd. cbv zeta in Hin, Hfd. set (hit := (n.1 =? _) && (n.2 =? _)) in *. set (k := if hit && (zlen (segs g) <? _) then _ else _) in *. cbn [segs food] in Hin, Hfd.
  assert (Hk : zlen (segs g) <= k) by (unfold k; repeat case_test; lia).
  apply not_elem_of_cons in Hin as [Hpn Hin].
  assert (Hps : p ∉ segs g).
  { intros Hps. apply list_elem_of_lookup in Hps as [i Hi]. pose proof (lookup_lt_Some _ _ _ Hi) as Hlt. unfold zlen in *.
    destruct (decide (Z.of_nat i = Z.of_nat (length (segs g)) - 1)) as [E|E].
    - apply D. assert (t = p) as <-; [|done]. unfold t, seg, aget, zlen. replace (Z.to_nat (Z.of_nat (length (segs g)) - 1)) with i by lia. by apply nth_lookup_Some.
    - apply Hin. apply elem_of_take. exists i. split; [done|]. lia. }
  unfold picture. rewrite decide_False by (intros H; apply Hps; apply list_elem_of_lookup in H as [i Hi]; rewrite lookup_drop in Hi; by eapply list_elem_of_lookup_2).
  rewrite decide_False by (intros ->; apply Hps; by apply head_not_tail). apply decide_False. intros ->. destruct hit eqn:Eh; [|done].
  apply Hpn. unfold hit in Eh. apply andb_prop in Eh as [E1 E2]. apply Z.eqb_eq in E1, E2. destruct n, (food g). cbn in *. congruence.
Qed.

(** What a pass leaves behind: a game and a screen ready for the next frame. *)
Definition ready (n : Z) (g : snake) (v : vga) : Prop := snake_ok g /\ clean g v /\ score g <= 10 * n.

Lemma shows_clean g v : snake_ok g -> shows g v -> clean g v.
Proof.
  intros Hg [Hv Hs]. split; [done|]. intros p Hp Hin Hf. rewrite Hs by done. unfold picture.
  rewrite decide_False by (intros H; apply Hin; apply list_elem_of_lookup in H as [i Hi]; rewrite lookup_drop in Hi; by eapply list_elem_of_lookup_2).
  rewrite decide_False by (intros ->; apply Hin; by apply head_not_tail). by apply decide_False.
Qed.

Lemma move_run crtc n g v : snake_ok g -> shows g v -> score g <= 10 * n -> 0 <= n < 1000000 ->
  exists st g' o, move g = Ok st g' o /\ snake_ok g' /\ score g' <= 10 * (n + 1) /\ (st = Playing -> clean g' (run_evs crtc o v)).
Proof.
  intros Hg Hs Hsc Hn. unfold move. rewrite (bind_silent get _ g g g) by done. cbv zeta. set (nn := (_, _)). destruct (_ || _ || _ || _) eqn:Eo; [exists Over, g, []; split_and!; [done|done|lia|done]|].
  destruct (existsb _ _) eqn:Ee; [exists Over, g, []; split_and!; [done|done|lia|done]|].
  erewrite (bind_ok (vat _ _ _ _)) by reflexivity. erewrite (bind_silent (modify _)) by reflexivity. unfold mret, M_ret. cbn [app].
  eexists Playing, (advance nn g), _. split; [reflexivity|]. split; [|split; [|intros _; by apply move_clean]].
  - pose proof Hg as [Hl _ _ _ _ _ _]. destruct (segs g) as [|h l] eqn:Es; [rewrite zlen_nil in Hl; lia|]. apply (advance_ok nn g h l); try done; [unfold nn, seg; by rewrite Es|split; lia| |lia].
    intros Hin. apply not_true_iff_false in Ee. apply Ee, existsb_exists. exists nn. split; [by apply list_elem_of_In|]. by rewrite !Z.eqb_refl.
  - unfold advance. cbn [score]. destruct (_ && _); [|lia]. rewrite i32_id; [lia|]. pose proof (so_score g Hg). lia.
Qed.

Lemma pass_run crtc n key g v : ready n g v -> 0 <= n < 1000000 - 1 ->
  exists st g' o, pass key g = Ok st g' o /\ snake_ok g' /\ score g' <= 10 * (n + 1) /\ (st = Playing -> clean g' (run_evs crtc o v)).
Proof.
  intros (Hg & Hc & Hsc) Hn. unfold pass. rewrite (bind_ok _ _ g tt g _ (draw_snake_run g ltac:(pose proof (so_score g Hg); lia))).
  pose proof (frame_shows crtc g v Hg Hc) as Hs. set (v1 := run_evs crtc (frame_events g) v) in *.
  assert (Hrest : forall g1, snake_ok g1 -> shows g1 v1 -> score g1 = score g -> exists st g' o,
    (g0 ← get; if paused g0 then mret Playing else move) g1 = Ok st g' o /\ snake_ok g' /\ score g' <= 10 * (n + 1) /\ (st = Playing -> clean g' (run_evs crtc o v1))).
  { intros g1 Hg1 Hs1 E1. rewrite (bind_silent get _ g1 g1 g1) by done. destruct (paused g1); [|apply move_run; try done; lia].
    exists Playing, g1, []. split_and!; [done|done|lia|intros _; by apply shows_clean]. }
  assert (Hcat : forall st g' o, (st = Playing -> clean g' (run_evs crtc o v1)) -> st = Playing -> clean g' (run_evs crtc (frame_events g ++ o) v)) by (intros st g' o H E; rewrite run_evs_cat; by apply H).
  destruct key as [c|].
  - case_test; [exists Over, g, (frame_events g ++ []); split_and!; [done|done|lia|done]|]. erewrite (bind_silent (modify _)) by reflexivity.
    destruct (Hrest (press c g)) as (st & g' & o & -> & Hg' & Hsc' & Hcl); [by apply press_ok|exact Hs|done|]. exists st, g', (frame_events g ++ o). split_and!; try done. by apply Hcat.
  - destruct (Hrest g Hg Hs eq_refl) as (st & g' & o & -> & Hg' & Hsc' & Hcl). exists st, g', (frame_events g ++ o). split_and!; try done. by apply Hcat.
Qed.

Lemma play_run crtc keys : forall n g v, ready n g v -> 0 <= n -> n + zlen keys < 1000000 ->
  exists st g' o, play keys g = Ok st g' o /\ snake_ok g' /\ score g' <= 10 * (n + zlen keys) /\ (st = Playing -> clean g' (run_evs crtc o v)).
Proof.
  induction keys as [|k keys IH]; intros n g v Hr Hn Hb; cbn [play].
  - exists Playing, g, []. destruct Hr as (? & ? & ?). split_and!; [done|done|rewrite zlen_nil; lia|done].
  - rewrite zlen_cons in *. pose proof (zlen_nonneg keys). destruct (pass_run crtc n k g v Hr ltac:(lia)) as (st & g1 & o1 & Hp & Hg1 & Hs1 & Hc1).
    rewrite (bind_ok _ _ g st g1 o1 Hp). destruct st; [|exists Over, g1, (o1 ++ []); split_and!; [done|done|lia|done]].
    destruct (IH (n + 1) g1 (run_evs crtc o1 v)) as (st & g2 & o2 & -> & Hg2 & Hs2 & Hc2); [split_and!; [done|by apply Hc1|done]|lia|lia|].
    exists st, g2, (o1 ++ o2). split_and!; [done|done|lia|]. intros E. rewrite run_evs_cat. by apply Hc2.
Qed.

Definition frame_out : list cev := Eval vm_compute in output (draw_walls snake0).
Lemma frame_run g : draw_walls g = Ok tt g frame_out.
Proof. reflexivity. Qed.

Lemma start_ready crtc v : full v -> ready 0 snake0 (run_evs crtc (EClear :: frame_out) v).
Proof.
  intros Hv. split_and!; [|split|cbn; lia].
  - constructor; cbn [segs dir food score snake0].
    + unfold zlen. cbn. lia.
    + repeat (apply Forall_cons_2; [split; cbn; lia|]). apply Forall_nil_2.
    + apply (bool_decide_unpack _). reflexivity.
    + cbn. done.
    + done.
    + split; cbn; lia.
    + lia.
  - change (EClear :: frame_out) with ([EClear] ++ frame_out). rewrite run_evs_cat. destruct (clear_all crtc v Hv) as [Hf _]. by apply (run_beside crtc frame_out (vga_init crtc v) Hf).
  - intros p Hp _ _. change (EClear :: frame_out) with ([EClear] ++ frame_out). rewrite run_evs_cat. destruct (clear_all crtc v Hv) as [Hf Hc]. destruct (run_beside crtc frame_out (vga_init crtc v) Hf ltac:(reflexivity)) as [_ Hb].
    etransitivity; [exact (Hb p Hp)|by apply Hc].
Qed.

(** C33: What snake shows is the game.  For every game of fewer than a million
    passes, whatever keys they find, the program runs without a fault; the snake
    stays a connected line of 3 to 200 cells of the board that does not cross
    itself, with the food on the board; and while the game goes on the next frame
    shows, cell by cell, exactly the body, the head, the food and nothing else. *)
Theorem snake_shows_game crtc keys g0 v : full v -> zlen keys < 1000000 - 1 ->
  exists st g o, cmd_snake keys g0 = Ok st g o /\ snake_ok g /\
    (st = Playing -> exists o', draw_snake g = Ok tt g o' /\ forall p, on_board p -> char_at (run_evs crtc (o ++ o') v) p = picture g p).
Proof.
  intros Hv Hk. unfold cmd_snake. erewrite (bind_silent (modify _)) by reflexivity. erewrite (bind_ok vclear) by reflexivity. rewrite (bind_ok _ _ snake0 tt snake0 _ (frame_run snake0)).
  destruct (play_run crtc keys 0 snake0 _ (start_ready crtc v Hv) ltac:(lia) ltac:(lia)) as (st & g & o & Hp & Hg & Hs & Hc). pose proof (so_score g Hg). pose proof (zlen_nonneg keys).
  rewrite (bind_ok _ _ snake0 st g o Hp). destruct st.
  - eexists Playing, g, _. split; [reflexivity|]. split; [done|]. intros _. exists (frame_events g). split; [apply draw_snake_run; lia|].
    intros p Hp'. rewrite app_nil_r. change ([EClear] ++ frame_out ++ o) with ((EClear :: frame_out) ++ o). rewrite (run_evs_cat crtc ((EClear :: frame_out) ++ o)), (run_evs_cat crtc (EClear :: frame_out)).
    apply (frame_shows crtc g (run_evs crtc o (run_evs crtc (EClear :: frame_out) v)) Hg); [by apply Hc|done].
  - assert (Ho : exists o2, game_over g = Ok tt g o2).
    { unfold game_over. rewrite (bind_silent get _ g g g) by done. erewrite (bind_ok vclear) by reflexivity. erewrite (bind_ok (vset _ _)) by reflexivity. erewrite (bind_ok (vps _)) by reflexivity.
      rewrite (bind_silent (fits 8 _) _ g tt g); [eexists; reflexivity|].
      unfold fits. by rewrite (proj2 (Z.ltb_lt _ 8)) by (apply kia_score; lia). }
    destruct Ho as [o2 Ho]. rewrite (bind_ok _ _ g tt g o2 Ho). eexists Over, g, _. split; [reflexivity|]. done.
Qed.

Lemma snake_shows_game_witness : exists st g o, cmd_snake [None; Some 115; None] snake0 = Ok st g o /\ snake_ok g /\
  (st = Playing -> exists o', draw_snake g = Ok tt g o' /\ forall p, on_board p -> char_at (run_evs (fun _ => 0) (o ++ o') (vga_boot (replicate 2000 0))) p = picture g p).
Proof. apply (snake_shows_game (fun _ => 0)); [reflexivity|reflexivity]. Defined.

(** A turn and a meal: three steps right of the start the snake turns down. *)
Example snake_turns : segs (post (cmd_snake [None; Some 115; None] snake0)) = [(11, 7); (11, 6); (11, 5)].
Proof. reflexivity. Qed.
Example snake_eats : let g := Snake [(20, 10); (19, 10); (18, 10)] (1, 0) (21, 10) 0 12345 false in
  let r := post (pass None g) in (segs r, score r) = ([(21, 10); (20, 10); (19, 10); (18, 10)], 10).
Proof. reflexivity. Qed.

(** ** What the game gets wrong *)

(** The food may be put on the snake. *)
Lemma food_on_snake : exists g, snake_ok g /\ food (post (pass None g)) ∈ segs (post (pass None g)).
Proof.
  exists (Snake [(22, 10); (22, 11); (22, 12)] (1, 0) (23, 10) 0 12345 false). split.
  - constructor; cbn [segs dir food score]; [unfold zlen; cbn; lia| | |cbn; done|done|split; cbn; lia|lia].
    + repeat (apply Forall_cons_2; [split; cbn; lia|]). apply Forall_nil_2.
    + apply (bool_decide_unpack _). reflexivity.
  - apply (bool_decide_unpack _). vm_compute. reflexivity.
Qed.

(** The score of a million meals does not fit its buffer. *)
Lemma score_overflows : result (pass None (Snake [(10, 5); (9, 5); (8, 5)] (1, 0) (21, 10) 10000000 12345 false)) = inr BufferOverflow.
Proof. reflexivity. Qed.
