(* ===== verification/Json.v ===== *)
(** * JSON ([crypto/json.h])

    The recursive-descent parser fills an array of nodes; a container's children
    are addressed as [child_start], [child_start+1], ...  The parser's [src] and
    [pos] are the bytes that remain; the nodes in use are a list, the others of
    the 1024 stay zero.  The tree and the buffers of the string reader come from
    the heap of [kernel/mem.h], which is never given back; no request is checked,
    so that a failing one is written through. *)

From Stdlib Require Import ZArith Lia.
From stdpp Require Import base numbers list list_numbers option strings.
From S2P Require Import Prelude CLib.

Notation JSON_MAX_NODES := 1024 (only parsing).

(** ** Data *)

Inductive JsonType := JSON_NULL | JSON_BOOL | JSON_NUMBER | JSON_STRING | JSON_ARRAY | JSON_OBJECT.

#[export] Instance JsonType_eq_dec : EqDecision JsonType.
Proof. solve_decision. Defined.

Record JsonNode := MkNode {
  type : JsonType;
  key : option cstr;
  str_val : option cstr;
  num_val : Z;
  bool_val : Z;
  children : Z;
  child_start : Z;
}.

Definition zero_node : JsonNode := MkNode JSON_NULL None None 0 0 0 0.

Notation tree := (list JsonNode) (only parsing).

Definition set_type (ty : JsonType) (n : JsonNode) : JsonNode :=
  MkNode ty (key n) (str_val n) (num_val n) (bool_val n) (children n) (child_start n).
Definition set_key (k : option cstr) (n : JsonNode) : JsonNode :=
  MkNode (type n) k (str_val n) (num_val n) (bool_val n) (children n) (child_start n).
Definition set_str (s : option cstr) (n : JsonNode) : JsonNode :=
  MkNode (type n) (key n) s (num_val n) (bool_val n) (children n) (child_start n).
Definition set_num (z : Z) (n : JsonNode) : JsonNode :=
  MkNode (type n) (key n) (str_val n) z (bool_val n) (children n) (child_start n).
Definition set_bool (z : Z) (n : JsonNode) : JsonNode :=
  MkNode (type n) (key n) (str_val n) (num_val n) z (children n) (child_start n).
Definition set_start (z : Z) (n : JsonNode) : JsonNode :=
  MkNode (type n) (key n) (str_val n) (num_val n) (bool_val n) (children n) z.
Definition add_child (n : JsonNode) : JsonNode :=
  MkNode (type n) (key n) (str_val n) (num_val n) (bool_val n) (children n + 1) (child_start n).

(** [t->nodes[i]] changed in place. *)
Definition upd (t : tree) (i : Z) (f : JsonNode -> JsonNode) : tree := aset t i (f (aget zero_node t i)).

(** ** The heap *)

(** Where the free part of the heap starts; [None] once a request has failed and
    the block was written through a null pointer: nothing is said of the tree
    from then on. *)
Notation heap := (option Z) (only parsing).
Definition alloc (n : Z) (h : heap) : heap :=
  hp ← h;
  match Heap.km hp n with
  | (Some _, hp') => Some hp'
  | (None, _) => None
  end.

(** ** Tokens *)

Definition is_ws (c : Z) : bool := (c =? c_sp) || (c =? c_tab) || (c =? c_nl) || (c =? c_cr).
Fixpoint json_skip_ws (p : cstr) : cstr :=
  match p with
  | c :: p' => if is_ws c then json_skip_ws p' else p
  | [] => []
  end.

(** [p->pos<p->len&&p->src[p->pos]==c] *)
Definition at_char (c : Z) (p : cstr) : bool :=
  match p with x :: _ => x =? c | [] => false end.

Definition unescape (ec : Z) : Z :=
  if ec =? c_dquote then c_dquote
  else if ec =? c_bslash then c_bslash
  else if ec =? c_slash then c_slash
  else if ec =? 110 then c_nl
  else if ec =? 116 then c_tab
  else if ec =? 114 then c_cr
  else if ec =? 98 then c_bs
  else if ec =? 102 then 12
  else ec.

(** [if(i>=cap-2){cap*=2; nb=km(cap); ...}] *)
Definition grow (i cap : Z) (h : heap) : Z * heap :=
  if cap - 2 <=? i then (cap * 2, alloc (cap * 2) h) else (cap, h).

(** The characters up to the closing quote and what follows it, from position
    [i] of a buffer of [cap] bytes. *)
Fixpoint string_chars (p : cstr) (i cap : Z) (h : heap) : cstr * cstr * heap :=
  match p with
  | [] => ([], [], h)
  | c :: p' =>
      if c =? c_dquote then ([], p', h)
      else if c =? c_bslash
      then match p' with
           | [] => ([], [], h)
           | ec :: p'' =>
               let '(cap, h) := grow i cap h in
               let '(s, r, h) := string_chars p'' (i + 1) cap h in (unescape ec :: s, r, h)
           end
      else
        let '(cap, h) := grow i cap h in
        let '(s, r, h) := string_chars p' (i + 1) cap h in (c :: s, r, h)
  end.
(** The C string stops at a NUL byte that was read into the buffer. *)
Definition cut_nul (s : cstr) : cstr := (span_until 0 s).1.
Definition json_parse_string_raw (p : cstr) (h : heap) : option cstr * cstr * heap :=
  if negb (at_char c_dquote p) then (None, p, h)
  else let '(s, r, h) := string_chars (tail p) 0 64 (alloc 64 h) in (Some (cut_nul s), r, h).

Definition is_num_char (c : Z) : bool := is_digit c || (c =? c_dash) || (c =? c_plus).
Fixpoint num_chars (p : cstr) : cstr * cstr :=
  match p with
  | c :: p' => if is_num_char c then let '(s, r) := num_chars p' in (c :: s, r) else ([], p)
  | [] => ([], [])
  end.
Definition i64 (z : Z) : Z := (z + 2^63) mod 2^64 - 2^63.
Fixpoint digits_value (acc : Z) (s : cstr) : Z :=
  match s with
  | c :: s' => if is_digit c then digits_value (i64 (acc * 10 + (c - c_0))) s' else acc
  | [] => acc
  end.
Definition num_value (s : cstr) : Z :=
  let '(neg, s) := if at_char c_dash s then (true, tail s) else (false, s) in
  let s := if at_char c_plus s then tail s else s in
  let v := digits_value 0 s in
  if neg : bool then i64 (- v) else v.

(** [word] at the position: consumed when complete, otherwise left alone. *)
Definition take_word (w : cstr) (p : cstr) : cstr :=
  if bool_decide (take (length w) p = w) then drop (length w) p else p.

(** ** The parser

    A result is the index returned ([-1] for failure), the remaining bytes, the
    nodes and the heap.  [2*len+1] steps of fuel are enough ([parse_value_total]). *)

Fixpoint parse_value (fuel : nat) (p : cstr) (t : tree) (h : heap) : option (Z * cstr * tree * heap) :=
  match fuel with
  | O => None
  | S f =>
      if JSON_MAX_NODES <=? zlen t then Some (-1, p, t, h)
      else
        let idx := zlen t in
        let t := t ++ [zero_node] in
        let p := json_skip_ws p in
        match p with
        | [] => Some (-1, p, t, h)
        | c :: p' =>
            if c =? c_dquote
            then let '(s, r, h) := json_parse_string_raw p h in
                 Some (idx, r, upd (upd t idx (set_type JSON_STRING)) idx (set_str s), h)
            else if c =? 123
            then
              let t := upd (upd t idx (set_type JSON_OBJECT)) idx (set_start (zlen t)) in
              let p := json_skip_ws p' in
              '(p, t, h) ← (if negb (bool_decide (p = [])) && negb (at_char 125 p)
                         then obj_loop f idx p t h else Some (p, t, h));
              Some (idx, if at_char 125 p then tail p else p, t, h)
            else if c =? 91
            then
              let t := upd (upd t idx (set_type JSON_ARRAY)) idx (set_start (zlen t)) in
              let p := json_skip_ws p' in
              '(p, t, h) ← (if negb (bool_decide (p = [])) && negb (at_char 93 p)
                         then arr_loop f idx p t h else Some (p, t, h));
              Some (idx, if at_char 93 p then tail p else p, t, h)
            else if c =? 116
            then Some (idx, take_word (cs "true") p, upd (upd t idx (set_type JSON_BOOL)) idx (set_bool 1), h)
            else if c =? 102
            then Some (idx, take_word (cs "false") p, upd (upd t idx (set_type JSON_BOOL)) idx (set_bool 0), h)
            else if c =? 110
            then Some (idx, take_word (cs "null") p, upd t idx (set_type JSON_NULL), h)
            else if (c =? c_dash) || is_digit c
            then
              let '(s, r) := num_chars p in
              let t := upd t idx (set_type JSON_NUMBER) in
              Some (idx, r, if (0 <? zlen s) && (zlen s <? 24) then upd t idx (set_num (num_value s)) else t, h)
            else Some (idx, p, t, h)
        end
  end
with obj_loop (fuel : nat) (idx : Z) (p : cstr) (t : tree) (h : heap) : option (cstr * tree * heap) :=
  match fuel with
  | O => None
  | S f =>
      let p := json_skip_ws p in
      if bool_decide (p = []) then Some (p, t, h)
      else if at_char 125 p then Some (p, t, h)
      else
        let '(k, p, h) := json_parse_string_raw p h in
        let p := json_skip_ws p in
        let p := if at_char c_colon p then tail p else p in
        '(ci, p, t, h) ← parse_value f p t h;
        let t := if 0 <=? ci then upd (upd t ci (set_key k)) idx add_child else t in
        let p := json_skip_ws p in
        if at_char 44 p then obj_loop f idx (tail p) t h else Some (p, t, h)
  end
with arr_loop (fuel : nat) (idx : Z) (p : cstr) (t : tree) (h : heap) : option (cstr * tree * heap) :=
  match fuel with
  | O => None
  | S f =>
      '(ci, p, t, h) ← parse_value f p t h;
      let t := if 0 <=? ci then upd t idx add_child else t in
      let p := json_skip_ws p in
      if at_char 44 p then arr_loop f idx (tail p) t h else Some (p, t, h)
  end.

(** [sizeof(JsonTree)]: 1024 nodes of 48 bytes and [nnodes]. *)
Definition JSON_TREE_SIZE : Z := 49160.

Definition json_parse (src : cstr) (hp : Z) : option (tree * heap) :=
  '(_, _, t, h) ← parse_value (2 * length src + 1) src [] (alloc JSON_TREE_SIZE (Some hp));
  Some (t, h).

(** ** Lookup; a node pointer is its index, [NULL] is [None] *)

Definition node (t : tree) (i : Z) : JsonNode := aget zero_node t i.

Fixpoint find_loop (n : nat) (t : tree) (i : Z) (k : cstr) : option Z :=
  match n with
  | O => None
  | S n' =>
      match key (node t i) with
      | Some ck => if streq ck k then Some i else find_loop n' t (i + 1) k
      | None => find_loop n' t (i + 1) k
      end
  end.
Definition json_find_key (t : tree) (obj : option Z) (k : cstr) : option Z :=
  o ← obj;
  if bool_decide (type (node t o) = JSON_OBJECT)
  then find_loop (Z.to_nat (children (node t o))) t (child_start (node t o)) k else None.
Definition json_get_string (t : tree) (obj : option Z) (k : cstr) : option cstr :=
  n ← json_find_key t obj k;
  if bool_decide (type (node t n) = JSON_STRING) then str_val (node t n) else None.
Definition json_get_number (t : tree) (obj : option Z) (k : cstr) : Z :=
  match json_find_key t obj k with
  | Some n => if bool_decide (type (node t n) = JSON_NUMBER) then num_val (node t n) else 0
  | None => 0
  end.
Definition json_get_int (t : tree) (obj : option Z) (k : cstr) : Z := i32 (json_get_number t obj k).
Definition json_get_array (t : tree) (obj : option Z) (k : cstr) : option Z := json_find_key t obj k.
Definition json_get_object (t : tree) (obj : option Z) (k : cstr) : option Z :=
  n ← json_find_key t obj k;
  if bool_decide (type (node t n) = JSON_OBJECT) then Some n else None.
Definition json_array_get (t : tree) (arr : option Z) (idx : Z) : option Z :=
  a ← arr;
  if negb (bool_decide (type (node t a) = JSON_ARRAY)) || (idx <? 0) || (children (node t a) <=? idx)
  then None else Some (child_start (node t a) + idx).
Definition json_array_len (t : tree) (arr : option Z) : Z :=
  match arr with
  | None => 0
  | Some a => if bool_decide (type (node t a) = JSON_ARRAY) then children (node t a) else 0
  end.

(** ** Tokens consume the input *)

Lemma skip_ws_length p : (length (json_skip_ws p) <= length p)%nat.
Proof. induction p as [|c p IH]; simpl; [done|]. case_test; simpl; lia. Qed.

Lemma string_chars_length p i cap h : (length (string_chars p i cap h).1.2 <= length p)%nat.
Proof.
  remember (length p) as n eqn:En. assert (H : (length p <= n)%nat) by lia. clear En.
  revert p i cap h H. induction n as [|n IH]; intros p i cap h Hp; destruct p as [|c p]; cbn [string_chars length] in *; try (simpl; lia).
  case_test; simpl; [lia|]. case_test.
  - destruct p as [|ec p]; simpl in *; [lia|]. destruct (grow i cap h) as [cap' h'].
    pose proof (IH p (i + 1) cap' h' ltac:(lia)). destruct (string_chars p _ _ _) as [[? ?] ?]. simpl in *. lia.
  - destruct (grow i cap h) as [cap' h'].
    pose proof (IH p (i + 1) cap' h' ltac:(lia)). destruct (string_chars p _ _ _) as [[? ?] ?]. simpl in *. lia.
Qed.

Lemma string_raw_length p h : (length (json_parse_string_raw p h).1.2 <= length p)%nat.
Proof.
  unfold json_parse_string_raw. case_test; [done|].
  pose proof (string_chars_length (tail p) 0 64 (alloc 64 h)). destruct (string_chars _ _ _ _) as [[? ?] ?]. simpl in *.
  destruct p; simpl in *; lia.
Qed.

Lemma num_chars_length p : (length (num_chars p).2 <= length p)%nat.
Proof.
  induction p as [|c p IH]; simpl; [done|]. case_test; [|done].
  destruct (num_chars p). simpl in *. lia.
Qed.

Lemma take_word_length w p : (length (take_word w p) <= length p)%nat.
Proof. unfold take_word. case_match; [rewrite length_drop|]; lia. Qed.

Lemma tail_length (p : cstr) : (length (tail p) <= length p)%nat.
Proof. destruct p; simpl; lia. Qed.

Lemma at_char_tail c p : at_char c p = true -> length p = S (length (tail p)).
Proof. by destruct p. Qed.

(** ** Well-formed trees *)

(** A container's children lie within the first [L] nodes. *)
Definition node_wf (L : Z) (n : JsonNode) : Prop :=
  0 <= child_start n /\ 0 <= children n /\ child_start n + children n <= L.
Definition tree_wf (t : tree) : Prop := zlen t <= JSON_MAX_NODES /\ Forall (node_wf (zlen t)) t.

(** The first nodes of [t], but for node [i], are those of [t']. *)
Definition extends (i : Z) (t t' : tree) : Prop :=
  zlen t <= zlen t' /\ (forall j, 0 <= j < zlen t -> j <> i -> node t' j = node t j).

Lemma extends_refl i t : extends i t t.
Proof. by split. Qed.
Lemma extends_trans i t1 t2 t3 : extends i t1 t2 -> extends i t2 t3 -> extends i t1 t3.
Proof.
  intros [H1 H2] [H3 H4]. split; [lia|]. intros j Hj Hne. rewrite H4 by lia. by apply H2.
Qed.
Lemma extends_weaken i t t' : extends (zlen t) t t' -> extends i t t'.
Proof. intros [H1 H2]. split; [done|]. intros j Hj _. apply H2; lia. Qed.

Lemma zlen_upd t i f : zlen (upd t i f) = zlen t.
Proof. apply zlen_aset. Qed.
Lemma node_upd t i f : 0 <= i < zlen t -> node (upd t i f) i = f (node t i).
Proof. intros. by apply aget_aset_eq. Qed.
Lemma node_upd_ne t i j f : 0 <= i -> 0 <= j -> i <> j -> node (upd t i f) j = node t j.
Proof. intros. by apply aget_aset_ne. Qed.

Lemma extends_upd i t f : 0 <= i -> extends i t (upd t i f).
Proof. intros Hi. split; [by rewrite zlen_upd|]. intros j Hj Hne. apply node_upd_ne; lia. Qed.

Lemma node_wf_mono L L' n : L <= L' -> node_wf L n -> node_wf L' n.
Proof. unfold node_wf. lia. Qed.

Lemma node_wf_at t i : tree_wf t -> 0 <= i < zlen t -> node_wf (zlen t) (node t i).
Proof. intros [_ H] Hi. by apply (Forall_aget zero_node (node_wf (zlen t)) t i). Qed.

(** The setters that leave the child range alone. *)
Definition keeps_range (f : JsonNode -> JsonNode) : Prop :=
  forall n, children (f n) = children n /\ child_start (f n) = child_start n.

Lemma tree_wf_upd t i f :
  tree_wf t -> 0 <= i < zlen t -> node_wf (zlen t) (f (node t i)) -> tree_wf (upd t i f).
Proof.
  intros [Hl Hw] Hi Hf. split; rewrite zlen_upd; [done|]. by apply Forall_aset.
Qed.

Lemma tree_wf_set t i f : keeps_range f -> tree_wf t -> 0 <= i < zlen t -> tree_wf (upd t i f).
Proof.
  intros Hf Ht Hi. apply tree_wf_upd; [done|done|].
  destruct (Hf (node t i)) as [E1 E2]. unfold node_wf. rewrite E1, E2. by apply node_wf_at.
Qed.

Lemma tree_wf_snoc t : tree_wf t -> zlen t < JSON_MAX_NODES -> tree_wf (t ++ [zero_node]).
Proof.
  intros [Hl Hw] Hlt. split; rewrite zlen_app; change (zlen [zero_node]) with 1; [lia|].
  apply Forall_app. split.
  - eapply Forall_impl; [exact Hw|]. intros n. apply node_wf_mono. lia.
  - constructor; [|done]. pose proof (zlen_nonneg t). split_and!; simpl; lia.
Qed.

Lemma extends_snoc t : extends (zlen t) t (t ++ [zero_node]).
Proof.
  split; [rewrite zlen_app; change (zlen [zero_node]) with 1; lia|].
  intros j Hj _. unfold node, aget. rewrite app_nth1; [done|]. unfold zlen in Hj. lia.
Qed.

(** ** The parser ends and keeps the tree well-formed *)

Definition value_post (p : cstr) (t : tree) (r : Z * cstr * tree * heap) : Prop :=
  let '(ci, p', t', _) := r in
  (length p' <= length p)%nat /\ tree_wf t' /\ extends (zlen t) t t' /\
  (ci = -1 \/ ci = zlen t /\ zlen t < zlen t').

Definition loop_post (idx : Z) (p : cstr) (t : tree) (r : cstr * tree * heap) : Prop :=
  let '(p', t', _) := r in (length p' <= length p)%nat /\ tree_wf t' /\ extends idx t t'.

Definition value_ok (f : nat) : Prop := forall p t h,
  (2 * length p + 1 <= f)%nat -> tree_wf t ->
  exists r, parse_value f p t h = Some r /\ value_post p t r.

Definition loop_ok (loop : nat -> Z -> cstr -> tree -> heap -> option (cstr * tree * heap)) (f : nat) : Prop :=
  forall idx p t h, (2 * length p + 2 <= f)%nat -> tree_wf t -> 0 <= idx < zlen t ->
  exists r, loop f idx p t h = Some r /\ loop_post idx p t r.

(** The container [idx] counts one more child after a child was added. *)
Lemma count_child idx p t ci p' t' h f :
  keeps_range f ->
  tree_wf t -> 0 <= idx < zlen t -> value_post p t (ci, p', t', h) ->
  tree_wf (if 0 <=? ci then upd (upd t' ci f) idx add_child else t') /\
  extends idx t (if 0 <=? ci then upd (upd t' ci f) idx add_child else t') /\
  zlen (if 0 <=? ci then upd (upd t' ci f) idx add_child else t') = zlen t'.
Proof.
  intros Hf Ht Hi (Hp & Ht' & [He1 He2] & Hci). pose proof (zlen_nonneg t).
  destruct Hci as [->|[-> Hlt]].
  - replace (0 <=? -1) with false by done. split_and!; [done| |done].
    split; [done|]. intros; apply He2; lia.
  - replace (0 <=? zlen t) with true by lia. rewrite !zlen_upd. split_and!; [| |done].
    + apply tree_wf_upd; [apply tree_wf_set; [done|done|lia]|rewrite zlen_upd; lia|].
      rewrite node_upd_ne, zlen_upd, He2 by lia.
      pose proof (node_wf_at t idx Ht Hi) as Hn. unfold node_wf in *. simpl. lia.
    + split; [by rewrite !zlen_upd|]. intros j Hj Hne. rewrite !node_upd_ne by lia. apply He2; lia.
Qed.

Lemma arr_loop_step f : value_ok f -> loop_ok arr_loop f -> loop_ok arr_loop (S f).
Proof.
  intros Hv Hl idx p t h Hf Ht Hi. cbn [arr_loop].
  destruct (Hv p t h ltac:(lia) Ht) as ([[[ci p'] t'] h'] & -> & Hpost). cbn [mbind option_bind].
  assert (E : upd t' idx add_child = upd (upd t' ci id) idx add_child).
  { unfold upd at 3. unfold id, aset, aget. rewrite list_insert_id'; [done|].
    intros Hlt. rewrite nth_lookup. by destruct (lookup_lt_is_Some_2 _ _ Hlt) as [x ->]. }
  rewrite E. destruct (count_child idx p t ci p' t' h' id (fun n => conj eq_refl eq_refl) Ht Hi Hpost) as (H1 & H2 & H3).
  set (t'' := if 0 <=? ci then _ else t') in *. clearbody t''.
  destruct Hpost as (Hp & _). pose proof (skip_ws_length p').
  case_test; [|exists (json_skip_ws p', t'', h'); split; [done|]; by split; [lia|]].
  pose proof (at_char_tail _ _ Heqb). destruct H2 as [H2 H2'].
  destruct (Hl idx (tail (json_skip_ws p')) t'' h' ltac:(lia) H1 ltac:(lia)) as ([[p2 t2] h2] & -> & Hp2 & Hw2 & He2).
  exists (p2, t2, h2). split; [done|]. split; [lia|]. split; [done|]. by eapply extends_trans.
Qed.

Lemma obj_loop_step f : value_ok f -> loop_ok obj_loop f -> loop_ok obj_loop (S f).
Proof.
  intros Hv Hl idx p t h Hf Ht Hi. cbn [obj_loop]. pose proof (skip_ws_length p).
  case_match; [exists (json_skip_ws p, t, h); split; [done|]; split; [lia|]; by split; [|apply extends_refl]|].
  case_test; [exists (json_skip_ws p, t, h); split; [done|]; split; [lia|]; by split; [|apply extends_refl]|].
  pose proof (string_raw_length (json_skip_ws p) h) as Hs.
  destruct (json_parse_string_raw (json_skip_ws p) h) as [[k q] h1]. cbn [fst snd] in Hs.
  set (q' := if at_char c_colon (json_skip_ws q) then _ else _).
  assert (Hq : (length q' <= length p)%nat).
  { unfold q'. pose proof (skip_ws_length q). pose proof (tail_length (json_skip_ws q)). case_test; lia. }
  clearbody q'. destruct (Hv q' t h1 ltac:(lia) Ht) as ([[[ci p'] t'] h'] & -> & Hpost). cbn [mbind option_bind].
  destruct (count_child idx q' t ci p' t' h' (set_key k) (fun n => conj eq_refl eq_refl) Ht Hi Hpost) as (H1 & H2 & H3).
  set (t'' := if 0 <=? ci then _ else t') in *. clearbody t''.
  destruct Hpost as (Hp & _). pose proof (skip_ws_length p').
  case_test; [|exists (json_skip_ws p', t'', h'); split; [done|]; by split; [lia|]].
  match goal with H : at_char 44 _ = true |- _ => pose proof (at_char_tail _ _ H) end. destruct H2 as [H2 H2'].
  destruct (Hl idx (tail (json_skip_ws p')) t'' h' ltac:(lia) H1 ltac:(lia)) as ([[p2 t2] h2] & -> & Hp2 & Hw2 & He2).
  exists (p2, t2, h2). split; [done|]. split; [lia|]. split; [done|]. by eapply extends_trans.
Qed.

(** A container: its node is set up, then the loop runs unless it is empty. *)
Lemma container_ok loop f ty close p p' t h :
  loop_ok loop f -> (2 * length p + 1 <= S f)%nat -> (length p' < length p)%nat ->
  tree_wf t -> zlen t < JSON_MAX_NODES ->
  let idx := zlen t in
  let t1 := upd (upd (t ++ [zero_node]) idx (set_type ty)) idx (set_start (zlen (t ++ [zero_node]))) in
  let q := json_skip_ws p' in
  exists r, ('(p, t, h) ← (if negb (bool_decide (q = [])) && negb (at_char close q)
                        then loop f idx q t1 h else Some (q, t1, h));
             Some (idx, if at_char close p then tail p else p, t, h)) = Some r /\ value_post p t r.
Proof.
  intros Hl Hf Hp Ht Hlt idx t1 q. pose proof (zlen_nonneg t).
  pose proof (skip_ws_length p') as Hq. fold q in Hq.
  assert (Hz : zlen (t ++ [zero_node]) = zlen t + 1) by (by rewrite zlen_app).
  assert (Hz1 : zlen t1 = zlen t + 1) by (unfold t1; by rewrite !zlen_upd).
  assert (Hidx : 0 <= idx < zlen (t ++ [zero_node])) by (unfold idx; lia).
  assert (Hw1 : tree_wf t1).
  { unfold t1. apply tree_wf_upd; rewrite ?zlen_upd; [|done|].
    - apply tree_wf_set; [by split|by apply tree_wf_snoc|done].
    - rewrite node_upd by done.
      assert (E : node (t ++ [zero_node]) idx = zero_node).
      { unfold node, aget, idx, zlen. rewrite Nat2Z.id, app_nth2, Nat.sub_diag by lia. done. }
      rewrite E. unfold node_wf. simpl. lia. }
  assert (He1 : extends idx t t1).
  { eapply extends_trans; [apply extends_snoc|]. unfold t1.
    eapply extends_trans; apply extends_upd; lia. }
  assert (Hend : forall p2 t2 h2, (length p2 <= length q)%nat -> tree_wf t2 -> extends idx t1 t2 ->
    value_post p t (idx, if at_char close p2 then tail p2 else p2, t2, h2)).
  { intros p2 t2 h2 Hp2 Hw2 [He2 He2']. split_and!; [|done| |right].
    - pose proof (tail_length p2). case_test; lia.
    - eapply extends_trans; [exact He1|by split].
    - split; [done|]. lia. }
  destruct (negb (bool_decide (q = [])) && negb (at_char close q)).
  - destruct (Hl idx q t1 h ltac:(lia) Hw1 ltac:(lia)) as ([[p2 t2] h2] & -> & Hp2 & Hw2 & He2).
    cbn [mbind option_bind]. eexists. split; [done|]. by apply Hend.
  - cbn [mbind option_bind]. eexists. split; [done|]. apply Hend; [done|done|apply extends_refl].
Qed.

(** A scalar: only its own node is written, by setters that keep the range. *)
Lemma scalar_ok p r t h fs :
  (length r <= length p)%nat -> tree_wf t -> zlen t < JSON_MAX_NODES -> Forall keeps_range fs ->
  value_post p t (zlen t, r, fold_left (fun t' f => upd t' (zlen t) f) fs (t ++ [zero_node]), h).
Proof.
  intros Hr Ht Hlt Hfs. pose proof (zlen_nonneg t).
  assert (Hgen : forall t', tree_wf t' -> zlen t' = zlen t + 1 -> extends (zlen t) t t' ->
    let t'' := fold_left (fun t' f => upd t' (zlen t) f) fs t' in
    tree_wf t'' /\ zlen t'' = zlen t + 1 /\ extends (zlen t) t t'').
  { induction Hfs as [|f fs Hf _ IH]; intros t' H1 H2 H3; [done|]. cbn [fold_left]. apply IH.
    - apply tree_wf_set; [done|done|lia].
    - by rewrite zlen_upd.
    - eapply extends_trans; [exact H3|]. apply extends_upd. lia. }
  destruct (Hgen (t ++ [zero_node])) as (H1 & H2 & H3);
    [by apply tree_wf_snoc|by rewrite zlen_app|apply extends_snoc|].
  split_and!; [done|done|done|]. right. split; [done|]. lia.
Qed.

Lemma keeps_setters :
  (forall ty, keeps_range (set_type ty)) /\ (forall s, keeps_range (set_str s)) /\
  (forall z, keeps_range (set_num z)) /\ (forall z, keeps_range (set_bool z)).
Proof. by repeat split. Qed.

Lemma value_step f : loop_ok obj_loop f -> loop_ok arr_loop f -> value_ok (S f).
Proof.
  intros Ho Ha p t h Hf Ht. destruct keeps_setters as (K1 & K2 & K3 & K4).
  cbn [parse_value]. pose proof (skip_ws_length p) as Hs.
  destruct (Z.leb_spec JSON_MAX_NODES (zlen t)) as [Hge|Hlt].
  { eexists; split; [done|]. split_and!; [done|done|apply extends_refl|by left]. }
  assert (Hsnoc : value_post p t (-1, [], t ++ [zero_node], h)).
  { split_and!; [simpl; lia|by apply tree_wf_snoc|apply extends_snoc|by left]. }
  assert (Hone : forall r h' fs, (length r <= length (json_skip_ws p))%nat -> Forall keeps_range fs ->
    exists r', Some (zlen t, r, fold_left (fun t' f => upd t' (zlen t) f) fs (t ++ [zero_node]), h') = Some r' /\
               value_post p t r').
  { intros r h' fs Hr Hfs. eexists; split; [done|]. apply scalar_ok; [lia|done|done|done]. }
  destruct (json_skip_ws p) as [|c p'] eqn:Ep; [eexists; by split|]. simpl length in Hs.
  destruct (c =? c_dquote).
  { pose proof (string_raw_length (c :: p') h) as Hl.
    destruct (json_parse_string_raw (c :: p') h) as [[s r] h']. apply (Hone r h' [set_type JSON_STRING; set_str s]); auto. }
  destruct (c =? 123); [apply container_ok; auto; simpl; lia|].
  destruct (c =? 91); [apply container_ok; auto; simpl; lia|].
  destruct (c =? 116); [apply (Hone _ h [set_type JSON_BOOL; set_bool 1]); [apply take_word_length|auto]|].
  destruct (c =? 102); [apply (Hone _ h [set_type JSON_BOOL; set_bool 0]); [apply take_word_length|auto]|].
  destruct (c =? 110); [apply (Hone _ h [set_type JSON_NULL]); [apply take_word_length|auto]|].
  destruct ((c =? c_dash) || is_digit c); [|apply (Hone _ h []); auto].
  pose proof (num_chars_length (c :: p')) as Hl. destruct (num_chars (c :: p')) as [s r].
  case_match; [apply (Hone r h [set_type JSON_NUMBER; set_num (num_value s)])|apply (Hone r h [set_type JSON_NUMBER])]; auto.
Qed.

Lemma parse_value_total f : value_ok f /\ loop_ok obj_loop f /\ loop_ok arr_loop f.
Proof.
  induction f as [|f (Hv & Ho & Ha)].
  - split_and!; intros ? *; lia.
  - split_and!; [by apply value_step|by apply obj_loop_step|by apply arr_loop_step].
Qed.

(** The parser ends on every input, whatever its bytes, with at most 1024
    nodes, and every node's child range lies inside the nodes it filled: the
    lookups [json_find_key] and [json_array_get] never address a node outside. *)
Theorem json_parse_wf src hp :
  exists t h, json_parse src hp = Some (t, h) /\ tree_wf t /\
    (forall o k i, json_find_key t (Some o) k = Some i -> 0 <= o < zlen t -> 0 <= i < zlen t) /\
    (forall a j i, json_array_get t (Some a) j = Some i -> 0 <= a < zlen t -> 0 <= i < zlen t).
Proof.
  destruct (parse_value_total (2 * length src + 1)) as (Hv & _).
  destruct (Hv src [] (alloc JSON_TREE_SIZE (Some hp))) as ([[[ci p'] t] h] & E & _ & Hw & _); [lia|split; [by compute|constructor]|].
  exists t, h. unfold json_parse. rewrite E. split_and!; [done|done| |].
  - intros o k i. unfold json_find_key. cbn [mbind option_bind]. case_match; [|done].
    intros Hfind Ho. pose proof (node_wf_at t o Hw Ho) as (H1 & H2 & H3).
    assert (Hloop : forall n s, find_loop n t s k = Some i -> s <= i < s + Z.of_nat n).
    { clear. induction n as [|n IH]; intros s; cbn [find_loop]; [done|].
      case_match; [case_test|]; [intros [= <-]; lia|intros Hr%IH; lia|intros Hr%IH; lia]. }
    apply Hloop in Hfind. lia.
  - intros a j i. unfold json_array_get. cbn [mbind option_bind]. case_test; [done|].
    intros [= <-] Ha. pose proof (node_wf_at t a Hw Ha) as (C1 & C2 & C3). lia.
Qed.

(** Children are addressed as consecutive nodes, but a nested child takes nodes
    of its own: the second element of an array after a nested one is not found. *)
Lemma nested_children_misaddressed :
  exists t h, json_parse (cs "[[7],8]") Heap.HEAP_BASE = Some (t, Some h) /\ json_array_len t (Some 0) = 2 /\
    json_array_get t (Some 0) 1 = Some 2 /\ num_val (node t 2) = 7.
Proof. eexists _, _. split; [vm_compute; reflexivity|]. by vm_compute. Qed.

(** ** Flat objects of strings: print, parse, look up *)

(** Quotes and backslashes are written with a backslash in front. *)
Definition plain (s : cstr) : Prop := Forall (fun c => c <> 0) s.
Definition json_escape (s : cstr) : cstr :=
  concat (map (fun c => if (c =? c_dquote) || (c =? c_bslash) then [c_bslash; c] else [c]) s).
Definition quoted (s : cstr) : cstr := c_dquote :: json_escape s ++ [c_dquote].
Definition member (kv : cstr * cstr) : cstr := quoted kv.1 ++ c_colon :: quoted kv.2.
Fixpoint members (kvs : list (cstr * cstr)) : cstr :=
  match kvs with
  | [] => []
  | [kv] => member kv
  | kv :: kvs' => member kv ++ 44 :: members kvs'
  end.
Definition print_object (kvs : list (cstr * cstr)) : cstr := 123 :: members kvs ++ [125].

Definition string_node (kv : cstr * cstr) : JsonNode := MkNode JSON_STRING (Some kv.1) (Some kv.2) 0 0 0 0.
Definition object_node (n : Z) : JsonNode := MkNode JSON_OBJECT None None 0 0 n 1.

(** The first value bound to a key. *)
Fixpoint assoc (k : cstr) (kvs : list (cstr * cstr)) : option cstr :=
  match kvs with
  | [] => None
  | kv :: kvs' => if bool_decide (kv.1 = k) then Some kv.2 else assoc k kvs'
  end.

Lemma json_escape_cons c s :
  json_escape (c :: s) = (if (c =? c_dquote) || (c =? c_bslash) then [c_bslash; c] else [c]) ++ json_escape s.
Proof. done. Qed.

(** *** What the strings take of the heap *)

(** A block of [n] bytes, or none. *)
Definition spend (n : Z) (h : heap) : heap := hp ← h; if hp + n <=? Heap.HEAP_LIMIT then Some (hp + n) else None.
Definition heap_ok (h : heap) : Prop := forall hp, h = Some hp -> Heap.HEAP_BASE <= hp.

Lemma spend_ok n h : 0 <= n -> heap_ok h -> heap_ok (spend n h).
Proof.
  intros Hn Hh hp. destruct h as [hp0|]; [|done]. cbn [spend mbind option_bind]. specialize (Hh hp0 eq_refl).
  unfold spend. cbn [mbind option_bind]. case_test; [|done]. intros [= <-]. lia.
Qed.
Lemma spend_spend m n h : 0 <= n -> 0 <= m -> spend m (spend n h) = spend (n + m) h.
Proof.
  intros Hn Hm. destruct h as [hp|]; [|done]. unfold spend. cbn [mbind option_bind].
  destruct (Z.leb_spec (hp + n) Heap.HEAP_LIMIT) as [H1|H1]; cbn [mbind option_bind].
  - by rewrite Z.add_assoc.
  - rewrite (proj2 (Z.leb_gt _ _)) by lia. done.
Qed.
Lemma spend_0 h : (forall hp, h = Some hp -> hp <= Heap.HEAP_LIMIT) -> spend 0 h = h.
Proof. destruct h as [hp|]; [|done]. intros Hh. unfold spend. cbn [mbind option_bind]. rewrite Z.add_0_r, (proj2 (Z.leb_le _ _)); [done|]. by apply Hh. Qed.
Lemma alloc_spend n h : 0 <= n < 2^32 - 31 -> alloc n h = spend (Heap.round16 n) h.
Proof.
  intros Hn. destruct h as [hp|]; [|done]. unfold alloc, spend, Heap.km. cbn [mbind option_bind].
  destruct (Z.ltb_spec Heap.HEAP_LIMIT (hp + Heap.round16 n)); [rewrite (proj2 (Z.leb_gt _ _)) by lia|rewrite (proj2 (Z.leb_le _ _)) by lia]; done.
Qed.
Lemma round16_id n : 0 <= n < 2^32 - 31 -> n mod 16 = 0 -> Heap.round16 n = n.
Proof. intros Hn Hm. destruct (round16_spec n ltac:(lia)) as [H1 H2]. Z.to_euclidean_division_equations. lia. Qed.

(** The blocks taken while [n] characters are stored from position [i] on. *)
Fixpoint grown (n : nat) (i cap : Z) : Z :=
  match n with
  | O => 0
  | S n' => if cap - 2 <=? i then cap * 2 + grown n' (i + 1) (cap * 2) else grown n' (i + 1) cap
  end.
Definition string_need (s : cstr) : Z := 64 + grown (length s) 0 64.

Lemma grown_nonneg n : forall i cap, 0 <= cap -> 0 <= grown n i cap.
Proof. induction n as [|n IH]; intros i cap Hc; cbn [grown]; [done|]. case_test; [specialize (IH (i + 1) (cap * 2))|specialize (IH (i + 1) cap)]; lia. Qed.
Lemma string_need_nonneg s : 64 <= string_need s.
Proof. unfold string_need. pose proof (grown_nonneg (length s) 0 64). lia. Qed.

(** A string takes at most 64 bytes and four for each of its characters. *)
Lemma grown_bound n : forall i cap, 0 <= i -> 64 <= cap -> cap <= 2 * i + 64 -> grown n i cap + 2 * cap <= 4 * (i + Z.of_nat n) + 128.
Proof.
  induction n as [|n IH]; intros i cap Hi Hc Hb; cbn [grown]; [lia|]. case_test.
  - specialize (IH (i + 1) (cap * 2)). lia.
  - specialize (IH (i + 1) cap). lia.
Qed.
Lemma string_need_bound s : string_need s <= 64 + 4 * zlen s.
Proof. unfold string_need, zlen. pose proof (grown_bound (length s) 0 64). lia. Qed.

(** The buffer in use was taken from the heap, unless a request failed. *)
Definition buffer_ok (cap : Z) (h : heap) : Prop := 64 <= cap /\ cap mod 16 = 0 /\ (forall hp, h = Some hp -> cap <= Heap.HEAP_SIZE /\ Heap.HEAP_BASE <= hp <= Heap.HEAP_LIMIT).

Lemma grow_ok i cap h : buffer_ok cap h ->
  exists cap' h', grow i cap h = (cap', h') /\ buffer_ok cap' h' /\
    forall n, spend (grown n (i + 1) cap') h' = spend (grown (S n) i cap) h.
Proof.
  intros (Hc & Hm & Hh). unfold grow. cbn [grown]. case_test; [|by exists cap, h].
  exists (cap * 2), (alloc (cap * 2) h). split; [done|].
  assert (Ha : alloc (cap * 2) h = spend (cap * 2) h).
  { destruct h as [hp|]; [|done]. destruct (Hh hp eq_refl) as [Hs _]. unfold Heap.HEAP_SIZE in Hs.
    rewrite alloc_spend by lia. rewrite round16_id; [done|lia|]. Z.to_euclidean_division_equations. lia. }
  rewrite Ha. split.
  - split; [lia|]. split; [Z.to_euclidean_division_equations; lia|]. intros hp. destruct h as [hp0|]; [|done]. destruct (Hh hp0 eq_refl) as (Hs & Hb).
    unfold spend. cbn [mbind option_bind]. case_test; [|done]. intros [= <-]. unfold Heap.HEAP_LIMIT, Heap.HEAP_SIZE in *. lia.
  - intros n. rewrite spend_spend; [done|lia|]. apply grown_nonneg. lia.
Qed.

Lemma string_chars_escaped s r : forall i cap h, buffer_ok cap h ->
  string_chars (json_escape s ++ c_dquote :: r) i cap h = (s, r, spend (grown (length s) i cap) h).
Proof.
  induction s as [|c s IH]; intros i cap h Hb.
  { cbn [json_escape map concat app length grown string_chars]. rewrite Z.eqb_refl, spend_0; [done|]. intros hp ->. destruct Hb as (_ & _ & Hb). by apply Hb. }
  rewrite json_escape_cons. cbn [length]. destruct (grow_ok i cap h Hb) as (cap' & h' & Eg & Hb' & Es). specialize (IH (i + 1) cap' h' Hb'). rewrite Es in IH.
  destruct (Z.eqb_spec c c_dquote) as [->|H1]; [cbn [orb app]|destruct (Z.eqb_spec c c_bslash) as [->|H2]; cbn [orb app]].
  - change (string_chars (c_bslash :: c_dquote :: json_escape s ++ c_dquote :: r) i cap h) with
      (let '(cap, h) := grow i cap h in let '(s, r, h) := string_chars (json_escape s ++ c_dquote :: r) (i + 1) cap h in (c_dquote :: s, r, h)). by rewrite Eg, IH.
  - change (string_chars (c_bslash :: c_bslash :: json_escape s ++ c_dquote :: r) i cap h) with
      (let '(cap, h) := grow i cap h in let '(s, r, h) := string_chars (json_escape s ++ c_dquote :: r) (i + 1) cap h in (c_bslash :: s, r, h)). by rewrite Eg, IH.
  - cbn [string_chars]. rewrite (proj2 (Z.eqb_neq c _)), (proj2 (Z.eqb_neq c _)) by done. by rewrite Eg, IH.
Qed.

Lemma cut_nul_plain s : plain s -> cut_nul s = s.
Proof.
  unfold cut_nul. induction 1 as [|c s H _ IH]; [done|]. cbn [span_until].
  case_test; [done|]. destruct (span_until 0 s). simpl in *. by rewrite IH.
Qed.

Lemma string_raw_quoted s r h : plain s -> heap_ok h -> json_parse_string_raw (quoted s ++ r) h = (Some s, r, spend (string_need s) h).
Proof.
  intros Hs Hh. unfold json_parse_string_raw, quoted. cbn [app at_char tail]. rewrite Z.eqb_refl. cbn [negb].
  rewrite <- app_assoc. cbn [app]. rewrite alloc_spend, (round16_id 64) by done. rewrite string_chars_escaped.
  - rewrite cut_nul_plain, spend_spend by (done || lia || apply grown_nonneg; lia). done.
  - split; [done|]. split; [done|]. intros hp. destruct h as [hp0|]; [|done]. specialize (Hh hp0 eq_refl).
    unfold spend. cbn [mbind option_bind]. case_test; [|done]. intros [= <-]. unfold Heap.HEAP_SIZE. lia.
Qed.

Lemma skip_ws_quoted s r : json_skip_ws (quoted s ++ r) = quoted s ++ r.
Proof. done. Qed.

Lemma upd_snoc t x f : upd (t ++ [x]) (zlen t) f = t ++ [f x].
Proof.
  unfold upd, aset, aget, zlen. rewrite Nat2Z.id, app_nth2, Nat.sub_diag by lia.
  by rewrite insert_app_r_alt, Nat.sub_diag by lia.
Qed.

Lemma upd_head n t f : upd (n :: t) 0 f = f n :: t.
Proof. done. Qed.

(** A quoted string as a value. *)
Lemma parse_value_quoted f s r t h :
  plain s -> zlen t < JSON_MAX_NODES -> heap_ok h ->
  parse_value (S f) (quoted s ++ r) t h = Some (zlen t, r, t ++ [MkNode JSON_STRING None (Some s) 0 0 0 0], spend (string_need s) h).
Proof.
  intros Hs Hl Hh. cbn [parse_value]. destruct (Z.leb_spec JSON_MAX_NODES (zlen t)); [lia|].
  rewrite skip_ws_quoted. unfold quoted at 1. cbn [app]. rewrite Z.eqb_refl.
  change (c_dquote :: (json_escape s ++ [c_dquote]) ++ r) with (quoted s ++ r).
  rewrite string_raw_quoted by done. by rewrite !upd_snoc.
Qed.

Definition plain_member (kv : cstr * cstr) : Prop := plain kv.1 /\ plain kv.2.
Definition member_need (kv : cstr * cstr) : Z := string_need kv.1 + string_need kv.2.
Fixpoint members_need (kvs : list (cstr * cstr)) : Z :=
  match kvs with [] => 0 | kv :: kvs' => member_need kv + members_need kvs' end.
Lemma members_need_nonneg kvs : 0 <= members_need kvs.
Proof. induction kvs as [|kv kvs IH]; cbn [members_need]; [done|]. unfold member_need. pose proof (string_need_nonneg kv.1). pose proof (string_need_nonneg kv.2). lia. Qed.

(** One member: up to the separator after it. *)
Lemma obj_loop_member f kv c r n acc h :
  plain_member kv -> is_ws c = false -> zlen (object_node n :: acc) < JSON_MAX_NODES -> heap_ok h ->
  obj_loop (S (S f)) 0 (member kv ++ c :: r) (object_node n :: acc) h =
  (let t := object_node (n + 1) :: acc ++ [string_node kv] in
   let h := spend (member_need kv) h in
   if c =? 44 then obj_loop (S f) 0 r t h else Some (c :: r, t, h)).
Proof.
  intros [Hk Hv] Hc Hl Hh. pose proof (string_need_nonneg kv.1). pose proof (string_need_nonneg kv.2). remember (S f) as f' eqn:Ef. cbn [obj_loop].
  unfold member. rewrite <- app_assoc, skip_ws_quoted. case_match; [discriminate|].
  change (at_char 125 (quoted kv.1 ++ (c_colon :: quoted kv.2) ++ c :: r)) with false. cbv iota.
  rewrite string_raw_quoted by done. cbn [app]. cbv beta iota zeta.
  change (json_skip_ws (c_colon :: quoted kv.2 ++ c :: r)) with (c_colon :: quoted kv.2 ++ c :: r).
  cbn [at_char tail]. rewrite Z.eqb_refl. subst f'. rewrite parse_value_quoted by first [done|apply spend_ok; [lia|done]].
  rewrite spend_spend by lia. fold (member_need kv).
  cbn [mbind option_bind]. pose proof (zlen_nonneg (object_node n :: acc)).
  replace (0 <=? zlen (object_node n :: acc)) with true by lia.
  rewrite upd_snoc. cbn [app]. rewrite upd_head.
  assert (E : json_skip_ws (c :: r) = c :: r) by (cbn [json_skip_ws]; by rewrite Hc).
  rewrite E. cbn [at_char tail]. done.
Qed.

Lemma obj_loop_members kvs : forall f n acc h,
  kvs <> [] -> heap_ok h -> Forall plain_member kvs -> (length kvs + 1 <= f)%nat ->
  1 + zlen acc + zlen kvs <= JSON_MAX_NODES ->
  obj_loop f 0 (members kvs ++ [125]) (object_node n :: acc) h =
  Some ([125], object_node (n + zlen kvs) :: acc ++ map string_node kvs, spend (members_need kvs) h).
Proof.
  induction kvs as [|kv kvs IH]; intros f n acc h Hne Hh Hp Hf Hl; [done|]. clear Hne.
  apply Forall_cons_iff in Hp as [Hkv Hp]. rewrite zlen_cons in *. pose proof (zlen_nonneg kvs).
  simpl length in Hf. destruct f as [|[|f]]; [lia|lia|].
  destruct kvs as [|kv' kvs].
  - cbn [members map members_need]. rewrite obj_loop_member; [|done|done|rewrite zlen_cons; lia|done].
    change (zlen (@nil (cstr * cstr))) with 0. rewrite !Z.add_0_r. cbv zeta. done.
  - change (members (kv :: kv' :: kvs)) with (member kv ++ 44 :: members (kv' :: kvs)).
    rewrite <- app_assoc. cbn [app]. rewrite obj_loop_member; [|done|done|rewrite zlen_cons; lia|done].
    assert (Hm : 0 <= member_need kv) by (unfold member_need; pose proof (string_need_nonneg kv.1); pose proof (string_need_nonneg kv.2); lia).
    cbv zeta. rewrite Z.eqb_refl, IH; [|done|by apply spend_ok|done|simpl in *; lia|rewrite zlen_app; change (zlen [string_node kv]) with 1; lia].
    rewrite <- app_assoc, spend_spend by (done || apply members_need_nonneg). cbn [map app].
    change (members_need (kv :: kv' :: kvs)) with (member_need kv + members_need (kv' :: kvs)).
    by replace (n + 1 + zlen (kv' :: kvs)) with (n + (1 + zlen (kv' :: kvs))) by lia.
Qed.

(** The tree, rounded up, and the strings. *)
Definition object_need (kvs : list (cstr * cstr)) : Z := 49168 + members_need kvs.

Lemma parse_print_object kvs hp :
  Forall plain_member kvs -> zlen kvs < JSON_MAX_NODES -> Heap.HEAP_BASE <= hp ->
  json_parse (print_object kvs) hp = Some (object_node (zlen kvs) :: map string_node kvs, spend (object_need kvs) (Some hp)).
Proof.
  intros Hp Hl Hhp. unfold json_parse. rewrite alloc_spend by done. change (Heap.round16 JSON_TREE_SIZE) with 49168.
  unfold object_need. rewrite <- spend_spend by (done || apply members_need_nonneg).
  assert (Hh : heap_ok (spend 49168 (Some hp))) by (apply spend_ok; [done|]; by intros ? [= <-]).
  assert (Hlim : forall hp', spend 49168 (Some hp) = Some hp' -> hp' <= Heap.HEAP_LIMIT).
  { intros hp'. unfold spend. cbn [mbind option_bind]. case_test; [|done]. intros [= <-]. lia. }
  generalize dependent (spend 49168 (Some hp)). intros h Hh Hlim.
  destruct kvs as [|kv kvs]; [cbn [members_need]; by rewrite spend_0|].
  assert (Hlen : (length (kv :: kvs) <= length (print_object (kv :: kvs)))%nat).
  { unfold print_object. cbn [length]. rewrite length_app. clear. revert kv.
    induction kvs as [|kv' kvs IH]; intros kv; [simpl; lia|].
    change (members (kv :: kv' :: kvs)) with (member kv ++ 44 :: members (kv' :: kvs)).
    specialize (IH kv'). rewrite length_app. cbn [length] in *. lia. }
  assert (Hpos : (0 < length (kv :: kvs))%nat) by (cbn [length]; lia).
  assert (exists f, (2 * length (print_object (kv :: kvs)) + 1 = S f)%nat) as [f Ef]
    by (exists (2 * length (print_object (kv :: kvs)))%nat; lia).
  rewrite Ef. cbn [parse_value].
  change (JSON_MAX_NODES <=? zlen (@nil JsonNode)) with false. cbv iota.
  change (json_skip_ws (print_object (kv :: kvs))) with (123 :: members (kv :: kvs) ++ [125]).
  cbv beta iota zeta. change (123 =? c_dquote) with false. change (123 =? 123) with true. cbv iota.
  assert (Em : exists m, members (kv :: kvs) ++ [125] = c_dquote :: m).
  { destruct kvs; eexists; reflexivity. }
  assert (Es : json_skip_ws (members (kv :: kvs) ++ [125]) = members (kv :: kvs) ++ [125])
    by (destruct Em as [m ->]; done).
  rewrite Es. destruct Em as [m Em].
  rewrite bool_decide_eq_false_2 by (rewrite Em; discriminate).
  assert (Ec : at_char 125 (members (kv :: kvs) ++ [125]) = false) by (rewrite Em; done).
  rewrite Ec. cbn [negb andb].
  change (upd _ _ _) with (object_node 0 :: []).
  rewrite obj_loop_members; [|done|done|done|lia|change (zlen (@nil JsonNode)) with 0; lia].
  reflexivity.
Qed.

Lemma find_loop_strings kvs k pre :
  find_loop (length kvs) (pre ++ map string_node kvs) (zlen pre) k = None /\ assoc k kvs = None \/
  exists i v, find_loop (length kvs) (pre ++ map string_node kvs) (zlen pre) k = Some i /\
    assoc k kvs = Some v /\ node (pre ++ map string_node kvs) i = string_node (k, v).
Proof.
  revert pre. induction kvs as [|kv kvs IH]; intros pre; [by left|]. cbn [map length find_loop assoc].
  assert (En : node (pre ++ string_node kv :: map string_node kvs) (zlen pre) = string_node kv).
  { unfold node, aget, zlen. rewrite Nat2Z.id, app_nth2, Nat.sub_diag by lia. done. }
  rewrite En. cbn [key string_node]. unfold streq. case_bool_decide as Hk.
  - right. subst k. eexists _, _. split_and!; [done|done|]. rewrite En. by destruct kv.
  - specialize (IH (pre ++ [string_node kv])). rewrite <- app_assoc in IH. cbn [app] in IH.
    rewrite zlen_app in IH. exact IH.
Qed.

(** C36: A flat object of strings survives printing and parsing as long as the
    heap lasts.  For every list of fewer than 1024 members whose keys and values
    have no NUL (quotes and backslashes are escaped), the parser returns on the
    printed text.  It takes exactly [object_need] bytes of the heap, that is the
    tree and the buffers of the strings; when that much is left, the lookup of any
    key in the tree gives the first value bound to it, and nothing for a key that
    is absent.  When less is left the parser has written through a null pointer. *)
Theorem json_object_roundtrip kvs k hp :
  Forall plain_member kvs -> zlen kvs < JSON_MAX_NODES -> Heap.HEAP_BASE <= hp ->
  exists t h, json_parse (print_object kvs) hp = Some (t, h) /\
    (if hp + object_need kvs <=? Heap.HEAP_LIMIT
     then h = Some (hp + object_need kvs) /\ json_get_string t (Some 0) k = assoc k kvs
     else h = None).
Proof.
  intros Hp Hl Hhp. eexists _, _. split; [by apply parse_print_object|]. unfold spend. cbn [mbind option_bind].
  case_test; [|done]. split; [done|].
  unfold json_get_string, json_find_key. cbn [mbind option_bind].
  change (node (object_node (zlen kvs) :: map string_node kvs) 0) with (object_node (zlen kvs)).
  cbn [type children child_start object_node]. rewrite bool_decide_eq_true_2 by done.
  assert (En : Z.to_nat (zlen kvs) = length kvs) by (unfold zlen; lia). rewrite En.
  destruct (find_loop_strings kvs k [object_node (zlen kvs)]) as [[E1 E2]|(i & v & E1 & E2 & E3)].
  - cbn [app] in E1. change (zlen [object_node (zlen kvs)]) with 1 in E1. by rewrite E1, E2.
  - cbn [app] in *. change (zlen [object_node (zlen kvs)]) with 1 in E1. rewrite E1, E2.
    cbn [mbind option_bind]. rewrite E3. by rewrite bool_decide_eq_true_2.
Qed.

Lemma json_object_roundtrip_witness :
  exists t h, json_parse (print_object [(cs "a", cs "x"); (cs "b", [c_dquote; c_bslash])]) Heap.HEAP_BASE = Some (t, h) /\
    h = Some (Heap.HEAP_BASE + 49424) /\ json_get_string t (Some 0) (cs "b") = Some [c_dquote; c_bslash].
Proof.
  destruct (json_object_roundtrip [(cs "a", cs "x"); (cs "b", [c_dquote; c_bslash])] (cs "b") Heap.HEAP_BASE) as (t & h & E1 & E2).
  - repeat constructor; discriminate.
  - by compute.
  - done.
  - exists t, h. split; [exact E1|exact E2].
Defined.

(** ** What the parser gets wrong *)

Lemma string_chars_none p : forall i cap, (string_chars p i cap None).2 = None.
Proof.
  remember (length p) as n eqn:En. assert (H : (length p <= n)%nat) by lia. clear En.
  revert p H. induction n as [|n IH]; intros p Hp i cap; destruct p as [|c p]; cbn [string_chars length] in *; try (simpl; lia); [done|done|].
  assert (Eg : exists cap', grow i cap None = (cap', None)) by (unfold grow; case_test; eauto). destruct Eg as [cap' Eg].
  case_test; [done|]. case_test.
  - destruct p as [|ec p]; [done|]. cbn [length] in Hp. rewrite Eg. specialize (IH p ltac:(lia) (i + 1) cap'). by destruct (string_chars p _ _ _) as [[? ?] ?].
  - rewrite Eg. specialize (IH p ltac:(lia) (i + 1) cap'). by destruct (string_chars p _ _ _) as [[? ?] ?].
Qed.
Lemma string_raw_none p : (json_parse_string_raw p None).2 = None.
Proof.
  unfold json_parse_string_raw. case_test; [done|]. change (alloc 64 None) with (@None Z).
  pose proof (string_chars_none (tail p) 0 64). by destruct (string_chars _ _ _ _) as [[? ?] ?].
Qed.

(** After a failed request the heap is not looked at again. *)
Lemma loops_none f : (forall p t ci p' t' h, parse_value f p t None = Some (ci, p', t', h) -> h = None) /\
  (forall idx p t p' t' h, obj_loop f idx p t None = Some (p', t', h) -> h = None) /\
  (forall idx p t p' t' h, arr_loop f idx p t None = Some (p', t', h) -> h = None).
Proof.
  induction f as [|f (IHv & IHo & IHa)]; [done|]. split_and!.
  - intros p t ci p' t' h. cbn [parse_value]. case_test; [congruence|]. destruct (json_skip_ws p) as [|c q]; [congruence|].
    destruct (c =? c_dquote).
    { pose proof (string_raw_none (c :: q)) as Hn. destruct (json_parse_string_raw _ _) as [[s r] h']. simpl in Hn. congruence. }
    destruct (c =? 123).
    { destruct (negb _ && negb _); [destruct (obj_loop _ _ _ _ _) as [[[p2 t2] h2]|] eqn:E; [|done]; apply IHo in E|]; cbn [mbind option_bind]; congruence. }
    destruct (c =? 91).
    { destruct (negb _ && negb _); [destruct (arr_loop _ _ _ _ _) as [[[p2 t2] h2]|] eqn:E; [|done]; apply IHa in E|]; cbn [mbind option_bind]; congruence. }
    repeat (case_match; try congruence).
  - intros idx p t p' t' h. cbn [obj_loop]. case_match; [congruence|]. case_test; [congruence|].
    pose proof (string_raw_none (json_skip_ws p)) as Hn. destruct (json_parse_string_raw _ _) as [[k q] h1]. simpl in Hn. subst h1.
    destruct (parse_value _ _ _ _) as [[[[ci p2] t2] h2]|] eqn:E; [|done]. apply IHv in E as ->. cbn [mbind option_bind].
    case_test; [apply IHo|congruence].
  - intros idx p t p' t' h. cbn [arr_loop]. destruct (parse_value _ _ _ _) as [[[[ci p2] t2] h2]|] eqn:E; [|done]. apply IHv in E as ->. cbn [mbind option_bind].
    case_test; [apply IHa|congruence].
Qed.

(** No tree is given back and no request is checked: in a heap with less room
    than a tree takes, whatever the text, the parser writes through a null
    pointer. *)
Lemma heap_runs_out src hp : Heap.HEAP_LIMIT < hp + 49168 -> exists t, json_parse src hp = Some (t, None).
Proof.
  intros Hhp. destruct (json_parse_wf src hp) as (t & h & E & _). exists t. rewrite E. do 2 f_equal. revert E. unfold json_parse.
  assert (Ha : alloc JSON_TREE_SIZE (Some hp) = None).
  { rewrite alloc_spend by done. change (Heap.round16 JSON_TREE_SIZE) with 49168. unfold spend. cbn [mbind option_bind]. by rewrite (proj2 (Z.leb_gt _ _)). }
  rewrite Ha. destruct (parse_value _ src [] None) as [[[[ci p] t'] h']|] eqn:Ep; [|done]. cbn [mbind option_bind]. intros [= <- <-].
  by eapply (proj1 (loops_none _)).
Qed.

(** 85 trees fit the heap, a later one does not. *)
Example trees_in_the_heap : Heap.HEAP_BASE + 85 * 49168 <= Heap.HEAP_LIMIT < Heap.HEAP_BASE + 86 * 49168.
Proof. unfold Heap.HEAP_LIMIT, Heap.HEAP_BASE, Heap.HEAP_SIZE. lia. Qed.
