(* ===== verification/Windows.v ===== *)
(** * Windows of the display server ([vdm/project/display-server/window.c], [shm.c])

    The table of 128 window slots with the shared-memory buffer of each window.
    The kernel calls behind [shm_create] ([memfd_create], [ftruncate], [mmap])
    are not part of the sources: each creation is given the file descriptor they
    end with, or their failure.  The table refines a finite map from window ids
    to windows. *)

From Stdlib Require Import ZArith Lia.
From stdpp Require Import base numbers list list_numbers option gmap fin_maps.
From S2P Require Import Prelude CLib.

Notation WINDOW_TITLE_MAX := 64 (only parsing).
Notation MAX_WINDOWS := 128 (only parsing).

(** ** Shared-memory buffers *)

(** [ptr] is the mapped memory as 32-bit pixels, [None] for [NULL]. *)
Record shm_buf_t := MkShm {
  shm_fd : Z; ptr : option (list Z); shm_size : Z; shm_width : Z; shm_height : Z; stride : Z;
}.

Definition shm_zero : shm_buf_t := MkShm 0 None 0 0 0 0.

(** [(size_t)width*height*4]: the [int]s are sign-extended to 64 bits. *)
Definition buf_size (w h : Z) : Z := u64 (u64 (u64 w * u64 h) * 4).

(** [os]: the descriptor of a mapped memory file, or [None] when a call failed. *)
Definition shm_create (os : option Z) (w h : Z) : option shm_buf_t :=
  fd ← os;
  let size := buf_size w h in
  Some (MkShm fd (Some (replicate (Z.to_nat (size / 4)) 0)) size w h (i32 (w * 4))).

(** A buffer that another process created: its contents are what [fd] holds. *)
Definition shm_attach (os : option (list Z)) (fd w h : Z) : option shm_buf_t :=
  mem ← os;
  Some (MkShm fd (Some mem) (buf_size w h) w h (i32 (w * 4))).

(** The calls made (unmap, close) and the buffer left behind. *)
Definition shm_destroy (b : shm_buf_t) : shm_buf_t * (bool * option Z) :=
  (MkShm (-1) None 0 0 0 0,
   (bool_decide (is_Some (ptr b)), if 0 <=? shm_fd b then Some (shm_fd b) else None)).

(** ** Windows *)

Record window_t := MkWin {
  id : Z; pid : Z; client_idx : Z; x : Z; y : Z; width : Z; height : Z;
  title : cstr; buffer : shm_buf_t; visible : bool; has_pending_commit : bool;
}.

Definition win_zero : window_t := MkWin 0 0 0 0 0 0 0 [] shm_zero false false.

Record window_manager_t := MkWm { windows : list window_t; window_count : Z; next_id : Z }.

Definition window_manager_init : window_manager_t := MkWm (replicate 128 win_zero) 0 1.

Definition win_at (wm : window_manager_t) (i : Z) : window_t := aget win_zero (windows wm) i.

Definition with_visible (v : bool) (w : window_t) : window_t :=
  MkWin (id w) (pid w) (client_idx w) (x w) (y w) (width w) (height w) (title w) (buffer w) v (has_pending_commit w).
Definition with_buffer (b : shm_buf_t) (w : window_t) : window_t :=
  MkWin (id w) (pid w) (client_idx w) (x w) (y w) (width w) (height w) (title w) b (visible w) (has_pending_commit w).
Definition with_xy (nx ny : Z) (w : window_t) : window_t :=
  MkWin (id w) (pid w) (client_idx w) nx ny (width w) (height w) (title w) (buffer w) (visible w) (has_pending_commit w).
Definition with_commit (c : bool) (w : window_t) : window_t :=
  MkWin (id w) (pid w) (client_idx w) (x w) (y w) (width w) (height w) (title w) (buffer w) (visible w) c.

(** A loop over the slots that stops at the first one satisfying [p]. *)
Fixpoint first_slot (p : window_t -> bool) (ws : list window_t) (i : Z) : option Z :=
  match ws with
  | [] => None
  | w :: ws' => if p w then Some i else first_slot p ws' (i + 1)
  end.

(** [(int)win->id], or [-1]. *)
Definition window_create (os : option Z) (ci p w h : Z) (ttl : cstr) (wm : window_manager_t) : Z * window_manager_t :=
  match first_slot (fun w => negb (visible w)) (windows wm) 0 with
  | None => (-1, wm)
  | Some i =>
      let wid := next_id wm in
      let win := MkWin wid p ci 0 0 w h (take 63 ttl) shm_zero true false in
      match shm_create os w h with
      | None =>
          (-1, MkWm (aset (windows wm) i (with_visible false win)) (window_count wm) (u32 (wid + 1)))
      | Some b =>
          (i32 wid, MkWm (aset (windows wm) i (with_buffer b win)) (window_count wm + 1) (u32 (wid + 1)))
      end
  end.

Definition window_find (wm : window_manager_t) (wid : Z) : option Z :=
  first_slot (fun w => visible w && (id w =? wid)) (windows wm) 0.

Definition window_destroy (wid : Z) (wm : window_manager_t) : window_manager_t :=
  match window_find wm wid with
  | None => wm
  | Some i =>
      let w := win_at wm i in
      MkWm (aset (windows wm) i (with_visible false (with_buffer (shm_destroy (buffer w)).1 w)))
        (window_count wm - 1) (next_id wm)
  end.

Definition contains (px py : Z) (w : window_t) : bool :=
  (x w <=? px) && (px <? i32 (x w + width w)) && (y w <=? py) && (py <? i32 (y w + height w)).
(** The last slot that covers the point: later slots lie on top. *)
Definition window_find_at (wm : window_manager_t) (px py : Z) : option Z :=
  for_ 0 MAX_WINDOWS (fun i top =>
    let w := win_at wm i in
    if negb (visible w) then top else if contains px py w then Some i else top) None.

Definition window_move (wid nx ny : Z) (wm : window_manager_t) : window_manager_t :=
  match window_find wm wid with
  | None => wm
  | Some i => MkWm (aset (windows wm) i (with_xy nx ny (win_at wm i))) (window_count wm) (next_id wm)
  end.

Definition window_mark_committed (wid : Z) (wm : window_manager_t) : window_manager_t :=
  match window_find wm wid with
  | None => wm
  | Some i => MkWm (aset (windows wm) i (with_commit true (win_at wm i))) (window_count wm) (next_id wm)
  end.

(** ** Specification: a map from ids to windows *)

(** The visible windows of a table. *)
Fixpoint shown (ws : list window_t) : gmap Z window_t :=
  match ws with
  | [] => ∅
  | w :: ws' => if visible w then <[id w := w]> (shown ws') else shown ws'
  end.
Definition wm_map (wm : window_manager_t) : gmap Z window_t := shown (windows wm).

(** Invariant: 128 slots, distinct ids below the next one, an exact count. *)
Definition unique_ids (ws : list window_t) : Prop :=
  forall i j v w, ws !! i = Some v -> ws !! j = Some w -> visible v = true -> visible w = true -> id v = id w -> i = j.

Record wm_ok (wm : window_manager_t) : Prop := {
  wm_slots : length (windows wm) = 128%nat;
  wm_unique : unique_ids (windows wm);
  wm_fresh : Forall (fun w => visible w = true -> 1 <= id w < next_id wm) (windows wm);
  wm_next : 1 <= next_id wm < 2^32;
  wm_count : window_count wm = zlen (filter (fun w => visible w = true) (windows wm));
}.

(** ** Slots *)

Lemma first_slot_Some p ws i0 i :
  first_slot p ws i0 = Some i ->
  exists n w, i = i0 + Z.of_nat n /\ ws !! n = Some w /\ p w = true.
Proof.
  revert i0. induction ws as [|w ws IH]; intros i0; cbn [first_slot]; [done|]. case_test.
  - intros [= <-]. exists 0%nat, w. by split_and!; [lia| |].
  - intros (n & v & -> & Hv & Hp)%IH. exists (S n), v. by split_and!; [lia| |].
Qed.

Lemma first_slot_None p ws i0 : first_slot p ws i0 = None -> Forall (fun w => p w = false) ws.
Proof.
  revert i0. induction ws as [|w ws IH]; intros i0; cbn [first_slot]; [by constructor|].
  destruct (p w) eqn:E; [done|]. intros H%IH. by constructor.
Qed.

Lemma win_at_nat wm n w : windows wm !! n = Some w -> win_at wm (Z.of_nat n) = w.
Proof. intros H. unfold win_at, aget. by rewrite Nat2Z.id, nth_lookup, H. Qed.

Lemma aset_nat (ws : list window_t) n w : aset ws (Z.of_nat n) w = <[n := w]> ws.
Proof. unfold aset. by rewrite Nat2Z.id. Qed.

(** ** The map of a table *)

Lemma shown_sound ws k w :
  shown ws !! k = Some w -> exists i, ws !! i = Some w /\ visible w = true /\ id w = k.
Proof.
  induction ws as [|v ws IH]; cbn [shown]; [by rewrite lookup_empty|].
  assert (Hrec : shown ws !! k = Some w -> exists i, (v :: ws) !! i = Some w /\ visible w = true /\ id w = k).
  { intros (i & H)%IH. by exists (S i). }
  destruct (visible v) eqn:Ev; [|done].
  rewrite lookup_insert_Some. intros [[<- <-]|[_ H]]; [|by apply Hrec]. by exists 0%nat.
Qed.

Lemma unique_tail v ws : unique_ids (v :: ws) -> unique_ids ws.
Proof.
  intros H i j a b Ha Hb Va Vb E. assert (S i = S j); [|lia].
  by apply (H (S i) (S j) a b).
Qed.

Lemma shown_complete ws i w :
  unique_ids ws -> ws !! i = Some w -> visible w = true -> shown ws !! id w = Some w.
Proof.
  revert i. induction ws as [|v ws IH]; intros i Hu Hi Hv; [done|]. cbn [shown].
  destruct i as [|i].
  - injection Hi as ->. rewrite Hv. by rewrite lookup_insert_eq.
  - simpl in Hi. assert (Hrec : shown ws !! id w = Some w) by (eapply IH; eauto using unique_tail).
    destruct (visible v) eqn:Ev; [|done]. rewrite lookup_insert_ne; [done|].
    intros E. by pose proof (Hu 0%nat (S i) v w eq_refl Hi Ev Hv E).
Qed.

Lemma shown_lookup ws k w :
  unique_ids ws ->
  shown ws !! k = Some w <-> exists i, ws !! i = Some w /\ visible w = true /\ id w = k.
Proof.
  intros Hu. split; [apply shown_sound|]. intros (i & Hi & Hv & <-). by eapply shown_complete.
Qed.

(** Writing a slot: the windows of the new table are the new one and the others. *)
Lemma shown_insert ws n w0 w k v :
  ws !! n = Some w0 -> unique_ids (<[n := w]> ws) ->
  shown (<[n := w]> ws) !! k = Some v <->
  (v = w /\ visible w = true /\ id w = k) \/
  (exists i, i <> n /\ ws !! i = Some v /\ visible v = true /\ id v = k).
Proof.
  intros Hn Hu. rewrite shown_lookup by done.
  assert (Hlt : (n < length ws)%nat) by (by eapply lookup_lt_Some). split.
  - intros (i & Hi & Hv & Hk). destruct (decide (i = n)) as [->|Hne].
    + rewrite list_lookup_insert_eq in Hi by done. injection Hi as <-. by left.
    + rewrite list_lookup_insert_ne in Hi by done. right. by exists i.
  - intros [(-> & Hv & Hk)|(i & Hne & Hi & Hv & Hk)].
    + exists n. by rewrite list_lookup_insert_eq.
    + exists i. by rewrite list_lookup_insert_ne.
Qed.

(** A table stays free of duplicates when the written window is hidden, keeps the
    id of the slot, or brings an id no other visible window has. *)
Lemma unique_insert ws n w :
  unique_ids ws ->
  (visible w = true -> forall i v, i <> n -> ws !! i = Some v -> visible v = true -> id v <> id w) ->
  unique_ids (<[n := w]> ws).
Proof.
  intros Hu Hw i j a b Ha Hb Va Vb E.
  apply list_lookup_insert_Some in Ha as [(-> & <- & _)|[Hi Ha]];
    apply list_lookup_insert_Some in Hb as [(-> & <- & _)|[Hj Hb]]; [done| | |].
  - exfalso. eapply (Hw Va j b); eauto.
  - exfalso. eapply (Hw Vb i a); eauto.
  - by eapply Hu.
Qed.

(** ** Operations on the map *)

Lemma window_find_spec wm wid :
  wm_ok wm ->
  (window_find wm wid = None /\ wm_map wm !! wid = None) \/
  (exists n w, window_find wm wid = Some (Z.of_nat n) /\ windows wm !! n = Some w /\
     visible w = true /\ id w = wid /\ wm_map wm !! wid = Some w).
Proof.
  intros Hok. unfold window_find. destruct (first_slot _ (windows wm) 0) as [i|] eqn:E.
  - right. apply first_slot_Some in E as (n & w & -> & Hn & [Hv Hid%Z.eqb_eq]%andb_prop).
    exists n, w. split_and!; [done|done|done|done|]. subst wid.
    by eapply shown_complete; [apply wm_unique| |].
  - left. split; [done|]. apply eq_None_not_Some. intros [w Hw]. apply shown_sound in Hw as (i & Hi & Hv & Hk).
    apply first_slot_None in E. eapply Forall_lookup_1 in E; [|exact Hi].
    rewrite Hv, Hk, Z.eqb_refl in E. done.
Qed.

(** A visible slot is rewritten by [f], which keeps its id. *)
Lemma update_slot wm n w f :
  wm_ok wm -> windows wm !! n = Some w -> visible w = true ->
  id (f w) = id w -> visible (f w) = true ->
  let wm' := MkWm (<[n := f w]> (windows wm)) (window_count wm) (next_id wm) in
  wm_ok wm' /\ wm_map wm' = <[id w := f w]> (wm_map wm).
Proof.
  intros [H1 H2 H3 H4 H5] Hn Hv Hid Hvf wm'.
  assert (Hu : unique_ids (<[n := f w]> (windows wm))).
  { apply unique_insert; [done|]. intros _ i v Hi Hv' Hvis E. apply Hi.
    eapply H2; eauto. congruence. }
  split.
  - constructor; cbn [windows window_count next_id wm'].
    + by rewrite length_insert.
    + done.
    + apply Forall_insert; [done|]. intros _. rewrite Hid.
      by apply (Forall_lookup_1 _ _ _ _ H3 Hn).
    + done.
    + rewrite (zlen_filter_insert visible _ _ w) by done. rewrite Hv, Hvf. lia.
  - apply map_eq. intros k. apply option_eq. intros v. unfold wm_map. cbn [windows wm'].
    rewrite (shown_insert _ _ w) by done. rewrite lookup_insert_Some, shown_lookup by done. split.
    + intros [(-> & _ & <-)|(i & Hi & Hv' & Hvis & <-)]; [by left|]. right. split; [|by exists i].
      intros E. apply Hi. by eapply H2; [exact Hv'|exact Hn| | |].
    + intros [[<- <-]|(Hne & i & Hi & Hvis & <-)]; [by left|]. right. exists i. split_and!; try done.
      intros ->. congruence.
Qed.

Lemma window_destroy_spec wm wid :
  wm_ok wm -> wm_ok (window_destroy wid wm) /\ wm_map (window_destroy wid wm) = delete wid (wm_map wm).
Proof.
  intros Hok. unfold window_destroy.
  destruct (window_find_spec wm wid Hok) as [[-> Hl]|(n & w & -> & Hn & Hv & Hid & Hl)].
  { split; [done|]. by rewrite delete_id. }
  rewrite (win_at_nat wm n w), aset_nat by done. destruct Hok as [H1 H2 H3 H4 H5].
  set (w' := with_visible false _).
  assert (Hu : unique_ids (<[n := w']> (windows wm))) by (apply unique_insert; [done|intros [=]]).
  split.
  - constructor; cbn [windows window_count next_id].
    + by rewrite length_insert.
    + done.
    + apply Forall_insert; [done|]. intros [=].
    + done.
    + rewrite (zlen_filter_insert visible _ _ w) by done. rewrite Hv. cbn [visible w' with_visible]. lia.
  - apply map_eq. intros k. apply option_eq. intros v. unfold wm_map. cbn [windows].
    rewrite (shown_insert _ _ w) by done. rewrite lookup_delete_Some, shown_lookup by done. split.
    + intros [(-> & [=] & _)|(i & Hi & Hv' & Hvis & <-)]. split; [|by exists i].
      intros E. apply Hi. eapply H2; [exact Hv'|exact Hn|done|done|congruence].
    + intros (Hne & i & Hi & Hvis & <-). right. exists i. split_and!; try done. intros ->. congruence.
Qed.

(** A new table entry in a hidden slot. *)
Lemma fill_slot wm n w0 w :
  wm_ok wm -> windows wm !! n = Some w0 -> visible w0 = false -> next_id wm + 1 < 2^32 -> id w = next_id wm ->
  let wm' := MkWm (<[n := w]> (windows wm)) (window_count wm + (if visible w then 1 else 0)) (u32 (next_id wm + 1)) in
  wm_ok wm' /\ wm_map wm' = (if visible w then <[next_id wm := w]> (wm_map wm) else wm_map wm).
Proof.
  intros [H1 H2 H3 H4 H5] Hn Hv Hnext Hid wm'.
  assert (Hfresh : forall i v, windows wm !! i = Some v -> visible v = true -> id v <> id w).
  { intros i v Hi Hvis E. pose proof (Forall_lookup_1 _ _ _ _ H3 Hi Hvis). lia. }
  assert (Hu : unique_ids (<[n := w]> (windows wm))).
  { apply unique_insert; [done|]. intros _ i v _ Hi Hvis. by eapply Hfresh. }
  split.
  - constructor; cbn [windows window_count next_id wm'].
    + by rewrite length_insert.
    + done.
    + rewrite u32_id by lia. apply Forall_insert; [|intros _; lia].
      eapply Forall_impl; [exact H3|]. intros v Hv' Hvis. specialize (Hv' Hvis). lia.
    + rewrite u32_id; lia.
    + rewrite (zlen_filter_insert visible _ _ w0) by done. rewrite Hv. lia.
  - apply map_eq. intros k. apply option_eq. intros v. unfold wm_map. cbn [windows wm'].
    rewrite (shown_insert _ _ w0) by done.
    assert (Hothers : (exists i, i <> n /\ windows wm !! i = Some v /\ visible v = true /\ id v = k) <->
                      shown (windows wm) !! k = Some v).
    { rewrite shown_lookup by done. split; [intros (i & _ & H); by exists i|].
      intros (i & Hi & Hvis & Hk). exists i. split_and!; try done. intros ->. congruence. }
    rewrite Hothers. destruct (visible w) eqn:Ew; [|naive_solver].
    rewrite lookup_insert_Some. rewrite <- Hid. split; [|naive_solver].
    intros [(-> & _ & <-)|H]; [by left|]. right. split; [|done]. intros <-.
    apply shown_sound in H as (i & Hi & Hvis & E). by eapply Hfresh.
Qed.

Lemma window_create_spec os ci p w h ttl wm :
  wm_ok wm -> next_id wm + 1 < 2^32 ->
  let '(r, wm') := window_create os ci p w h ttl wm in
  wm_ok wm' /\ (next_id wm <= next_id wm' <= next_id wm + 1) /\
  ((r = -1 /\ wm_map wm' = wm_map wm) \/
   (exists b, shm_create os w h = Some b /\ r = i32 (next_id wm) /\ wm_map wm !! next_id wm = None /\
      wm_map wm' = <[next_id wm := MkWin (next_id wm) p ci 0 0 w h (take 63 ttl) b true false]> (wm_map wm))).
Proof.
  intros Hok Hn. unfold window_create.
  destruct (first_slot _ (windows wm) 0) as [i|] eqn:E; [|split_and!; [done|lia|lia|by left]].
  apply first_slot_Some in E as (n & w0 & -> & Hw0 & Hv0). apply negb_true_iff in Hv0.
  rewrite Z.add_0_l, !aset_nat. pose proof (wm_next wm Hok).
  assert (Hfresh : wm_map wm !! next_id wm = None).
  { apply eq_None_not_Some. intros [v Hv]. apply shown_sound in Hv as (j & Hj & Hvis & Hid).
    pose proof (Forall_lookup_1 _ _ _ _ (wm_fresh wm Hok) Hj Hvis). lia. }
  set (win := MkWin (next_id wm) p ci 0 0 w h (take 63 ttl) shm_zero true false).
  assert (Hrange : next_id wm <= u32 (next_id wm + 1) <= next_id wm + 1) by (rewrite u32_id; lia).
  destruct (shm_create os w h) as [b|] eqn:Es; rewrite ?aset_nat.
  - pose proof (fill_slot wm n w0 (with_buffer b win) Hok Hw0 Hv0 Hn eq_refl) as [H1 H2].
    split_and!; [exact H1|cbn [next_id]; lia|cbn [next_id]; lia|]. right.
    exists b. split_and!; [done|done|done|exact H2].
  - pose proof (fill_slot wm n w0 (with_visible false win) Hok Hw0 Hv0 Hn eq_refl) as [H1 H2].
    cbn [visible with_visible] in H1, H2. rewrite Z.add_0_r in H1, H2.
    split_and!; [exact H1|cbn [next_id]; lia|cbn [next_id]; lia|]. left. split; [done|exact H2].
Qed.

Lemma window_update_spec wm wid f :
  wm_ok wm -> (forall w, id (f w) = id w /\ visible (f w) = visible w) ->
  let wm' := match window_find wm wid with
             | None => wm
             | Some i => MkWm (aset (windows wm) i (f (win_at wm i))) (window_count wm) (next_id wm)
             end in
  wm_ok wm' /\ wm_map wm' = alter f wid (wm_map wm).
Proof.
  intros Hok Hf. destruct (window_find_spec wm wid Hok) as [[-> Hl]|(n & w & -> & Hn & Hv & Hid & Hl)].
  { split; [done|]. symmetry. apply map_eq. intros k. destruct (decide (k = wid)) as [->|Hne].
    - by rewrite lookup_alter_eq, Hl.
    - by rewrite lookup_alter_ne. }
  rewrite (win_at_nat wm n w), aset_nat by done. destruct (Hf w) as [F1 F2].
  destruct (update_slot wm n w f Hok Hn Hv F1 ltac:(congruence)) as [H1 H2]. split; [done|].
  rewrite H2. subst wid. apply map_eq. intros k. destruct (decide (k = id w)) as [->|Hne].
  - by rewrite lookup_insert_eq, lookup_alter_eq, Hl.
  - by rewrite lookup_insert_ne, lookup_alter_ne.
Qed.

Lemma wm_init_ok : wm_ok window_manager_init /\ wm_map window_manager_init = ∅.
Proof.
  split; [|reflexivity]. constructor; cbn [windows window_count next_id window_manager_init].
  - done.
  - intros i j v w Hi. apply lookup_replicate_1 in Hi as [-> _]. intros _ [=].
  - apply Forall_replicate. intros [=].
  - lia.
  - reflexivity.
Qed.

(** C37: The window table refines a finite map from ids to windows: finding an id
    is the map's lookup; creating a window either fails and leaves the map, or
    binds a fresh id to the new window; destroying deletes the id; moving and
    committing change only that window; every operation keeps the table's
    invariant (128 slots, distinct ids, exact count). *)
Theorem windows_refine_map wm :
  wm_ok wm -> next_id wm + 1 < 2^32 ->
  (forall wid, match window_find wm wid with
               | Some i => wm_map wm !! wid = Some (win_at wm i)
               | None => wm_map wm !! wid = None
               end) /\
  (forall os ci p w h ttl,
     let '(r, wm') := window_create os ci p w h ttl wm in
     wm_ok wm' /\
     ((r = -1 /\ wm_map wm' = wm_map wm) \/
      (exists b, shm_create os w h = Some b /\ r = i32 (next_id wm) /\ wm_map wm !! next_id wm = None /\
         wm_map wm' = <[next_id wm := MkWin (next_id wm) p ci 0 0 w h (take 63 ttl) b true false]> (wm_map wm)))) /\
  (forall wid, wm_ok (window_destroy wid wm) /\ wm_map (window_destroy wid wm) = delete wid (wm_map wm)) /\
  (forall wid nx ny, wm_ok (window_move wid nx ny wm) /\
     wm_map (window_move wid nx ny wm) = alter (with_xy nx ny) wid (wm_map wm)) /\
  (forall wid, wm_ok (window_mark_committed wid wm) /\
     wm_map (window_mark_committed wid wm) = alter (with_commit true) wid (wm_map wm)).
Proof.
  intros Hok Hn. split_and!.
  - intros wid. destruct (window_find_spec wm wid Hok) as [[-> Hl]|(n & w & -> & Hw & _ & _ & Hl)]; [done|].
    by rewrite (win_at_nat wm n w).
  - intros os ci p w h ttl. pose proof (window_create_spec os ci p w h ttl wm Hok Hn) as H.
    destruct (window_create os ci p w h ttl wm). by destruct H as (H1 & _ & H2).
  - intros wid. by apply window_destroy_spec.
  - intros wid nx ny. by apply window_update_spec.
  - intros wid. by apply window_update_spec.
Qed.

Lemma windows_refine_map_witness :
  wm_map (window_create (Some 7) 0 42 2 1 [97] window_manager_init).2 =
  {[ 1 := MkWin 1 42 0 0 0 2 1 [97] (MkShm 7 (Some [0; 0]) 8 2 1 8) true false ]}.
Proof.
  destruct wm_init_ok as [Hok Hmap].
  destruct (windows_refine_map window_manager_init Hok) as (_ & Hc & _); [done|].
  specialize (Hc (Some 7) 0 42 2 1 [97]).
  destruct (window_create (Some 7) 0 42 2 1 [97] window_manager_init) as [r wm'] eqn:E.
  assert (Hr : r = 1) by (vm_compute in E; congruence).
  cbn [snd]. destruct Hc as [_ [[Hr' _]|(b & Hb & _ & _ & Em)]]; [congruence|].
  rewrite Em, Hmap. vm_compute in Hb. injection Hb as <-. reflexivity.
Defined.

(** The topmost window at a point is the last covering slot. *)
Lemma window_find_at_spec wm px py :
  match window_find_at wm px py with
  | Some i => 0 <= i < MAX_WINDOWS /\ visible (win_at wm i) = true /\ contains px py (win_at wm i) = true /\
              forall j, i < j < MAX_WINDOWS -> visible (win_at wm j) && contains px py (win_at wm j) = false
  | None => forall j, 0 <= j < MAX_WINDOWS -> visible (win_at wm j) && contains px py (win_at wm j) = false
  end.
Proof.
  unfold window_find_at.
  apply (for_ind (fun k top => match top with
    | Some i => 0 <= i < k /\ visible (win_at wm i) = true /\ contains px py (win_at wm i) = true /\
        forall j, i < j < k -> visible (win_at wm j) && contains px py (win_at wm j) = false
    | None => forall j, 0 <= j < k -> visible (win_at wm j) && contains px py (win_at wm j) = false end));
    [lia|intros j Hj; lia|].
  intros k top Hk IH.
  assert (Hskip : visible (win_at wm k) && contains px py (win_at wm k) = false ->
    match top with
    | Some i => 0 <= i < k + 1 /\ visible (win_at wm i) = true /\ contains px py (win_at wm i) = true /\
        forall j, i < j < k + 1 -> visible (win_at wm j) && contains px py (win_at wm j) = false
    | None => forall j, 0 <= j < k + 1 -> visible (win_at wm j) && contains px py (win_at wm j) = false end).
  { intros Hno. destruct top as [i|].
    - destruct IH as (I1 & I2 & I3 & I4). split_and!; [lia|lia|done|done|]. intros j Hj.
      destruct (Z.eq_dec j k) as [->|]; [done|]. apply I4. lia.
    - intros j Hj. destruct (Z.eq_dec j k) as [->|]; [done|]. apply IH. lia. }
  destruct (visible (win_at wm k)) eqn:Ev; cbn [negb]; [|by apply Hskip].
  destruct (contains px py (win_at wm k)) eqn:Ec; [|by apply Hskip].
  split_and!; [lia|lia|done|done|]. intros j Hj. lia.
Qed.
