(* ===== verification/Compositor.v ===== *)
(** * Compositor ([vdm/project/display-server/compositor.c])

    Windows are blended into a screen-sized pixel buffer, slot by slot, and the
    cursor on top.  Pixels are 32-bit words.  The blending of partly transparent
    pixels is the C [float] arithmetic of the source: single precision, rounded
    to nearest even after each operation.  Accesses to the two buffers are
    guarded: [None] is an access out of range. *)

From Stdlib Require Import ZArith Lia.
From stdpp Require Import base numbers list list_numbers option gmap.
From S2P Require Import Prelude CLib Windows.

(** ** Single-precision arithmetic on non-negative numbers

    A value is [m*2^e] with at most 24 bits in [m]; the numbers here lie in
    [0, 256), far from overflow and from the subnormal range. *)

Module F32.

Definition t : Type := (Z * Z)%type.

(** [n/d] rounded to an integer, ties to even. *)
Definition rne (n d : Z) : Z :=
  let q := n / d in
  let r := n mod d in
  if 2 * r <? d then q
  else if d <? 2 * r then q + 1
  else if Z.even q then q else q + 1.

(** [n/d] as a fraction over [2^e]. *)
Definition scaled (n d e : Z) : Z * Z := if e <? 0 then (n * 2 ^ (- e), d) else (n, d * 2 ^ e).

Definition of_rat (n d : Z) : t :=
  if n =? 0 then (0, 0)
  else
    let e0 := Z.log2 n - Z.log2 d - 24 in
    let '(a, b) := scaled n d e0 in
    let e := if 2 ^ 24 <=? a / b then e0 + 1 else e0 in
    let '(a, b) := scaled n d e in
    (rne a b, e).

Definition to_rat (f : t) : Z * Z := if f.2 <? 0 then (f.1, 2 ^ (- f.2)) else (f.1 * 2 ^ f.2, 1).

Definition div (a b : t) : t :=
  let '(n1, d1) := to_rat a in let '(n2, d2) := to_rat b in of_rat (n1 * d2) (d1 * n2).
Definition mul (a b : t) : t :=
  let '(n1, d1) := to_rat a in let '(n2, d2) := to_rat b in of_rat (n1 * n2) (d1 * d2).
Definition add (a b : t) : t :=
  let '(n1, d1) := to_rat a in let '(n2, d2) := to_rat b in of_rat (n1 * d2 + n2 * d1) (d1 * d2).
Definition sub (a b : t) : t :=
  let '(n1, d1) := to_rat a in let '(n2, d2) := to_rat b in of_rat (n1 * d2 - n2 * d1) (d1 * d2).
Definition of_int (n : Z) : t := of_rat n 1.
Definition trunc (f : t) : Z := let '(n, d) := to_rat f in n / d.

End F32.

(** ** Blending *)

Definition byte_at (p k : Z) : Z := Z.land (Z.shiftr p k) 0xFF.
Definition opaque_rgb (r g b : Z) : Z :=
  Z.lor (Z.lor (Z.lor (Z.shiftl 0xFF 24) (Z.shiftl r 16)) (Z.shiftl g 8)) b.

(** [(uint8_t)(s*a + d*(1.0f-a))] *)
Definition mix (a : F32.t) (s d : Z) : Z :=
  u8 (F32.trunc (F32.add (F32.mul (F32.of_int s) a)
                         (F32.mul (F32.of_int d) (F32.sub (F32.of_int 1) a)))).

Definition blend_pixel (src dst : Z) : Z :=
  let sa := byte_at src 24 in
  if sa =? 255 then src
  else
    let sr := byte_at src 16 in
    let sg := byte_at src 8 in
    let sb := byte_at src 0 in
    if sa =? 0 then opaque_rgb sr sg sb
    else
      let a := F32.div (F32.of_int sa) (F32.of_int 255) in
      opaque_rgb (mix a sr (byte_at dst 16)) (mix a sg (byte_at dst 8)) (mix a sb (byte_at dst 0)).

(** ** State *)

Notation CURSOR_WIDTH := 16 (only parsing).
Notation CURSOR_HEIGHT := 16 (only parsing).

(** [drm_w] and [drm_h] are the fields [width] and [height] of [comp->drm]. *)
Record compositor_t := MkComp {
  drm_w : Z; drm_h : Z;
  focused_window_id : Z;
  cursor_x : Z; cursor_y : Z;
  cursor_data : list Z;
  cursor_visible : bool;
  composite_buf : list Z;
  frame_count : Z;
}.

Definition cursor_pixel (x y : Z) : Z :=
  if (x =? 0) || ((y =? 0) && (x <? 10)) || ((x =? 1) && (y <? 11)) ||
     ((y =? x) && (x <? 13)) || ((x =? 3) && (4 <=? y) && (y <? 10)) ||
     ((y =? 4) && (4 <=? x) && (x <? 8)) || ((x =? 7) && (5 <=? y) && (y <? 8)) ||
     ((y =? 7) && (4 <=? x) && (x <? 7))
  then 0xFF000000
  else if ((x =? 1) && (y <? 10)) || ((y =? 1) && (x <? 9)) ||
          ((y =? x) && (x <? 12)) || ((x =? 2) && (3 <=? y) && (y <? 10)) ||
          ((y =? 3) && (3 <=? x) && (x <? 8)) || ((x =? 6) && (4 <=? y) && (y <? 8)) ||
          ((y =? 6) && (3 <=? x) && (x <? 7))
  then 0xFFFFFFFF
  else 0.
Definition generate_cursor : list Z :=
  map (fun i => cursor_pixel (i mod CURSOR_WIDTH) (i / CURSOR_WIDTH)) (seqZ 0 (CURSOR_WIDTH * CURSOR_HEIGHT)).

(** [buf]: the memory [malloc] returned, [None] when it fails. *)
Definition compositor_init (w h : Z) (buf : option (list Z)) : option compositor_t :=
  b ← buf;
  Some (MkComp w h (-1) (Z.quot w 2) (Z.quot h 2) generate_cursor true b 0).

(** ** Drawing *)

(** [dst[di]=blend_pixel(p,dst[di])] with the index in range. *)
Definition blend_at (dst : list Z) (di p : Z) : option (list Z) :=
  if (0 <=? di) && (di <? zlen dst) then Some (aset dst di (blend_pixel p (aget 0 dst di))) else None.

(** The body of the two loops of [composite_window]. *)
Definition put_pixel (src : list Z) (sw dw dh ox oy y x : Z) (dst : option (list Z)) : option (list Z) :=
  dst ← dst;
  let dx := i32 (ox + x) in
  let dy := i32 (oy + y) in
  if (dx <? 0) || (dw <=? dx) || (dy <? 0) || (dh <=? dy) then Some dst
  else
    let si := i32 (y * sw + x) in
    if (0 <=? si) && (si <? zlen src)
    then blend_at dst (i32 (dy * dw + dx)) (aget 0 src si) else None.

Definition composite_window (dw dh : Z) (win : window_t) (dst : list Z) : option (list Z) :=
  match ptr (buffer win) with
  | None => Some dst
  | Some src =>
      let sw := width win in
      let sh := height win in
      let ox := x win in
      let oy := y win in
      let start_x := if ox <? 0 then i32 (- ox) else 0 in
      let start_y := if oy <? 0 then i32 (- oy) else 0 in
      let end_x := if dw <? i32 (ox + sw) then i32 (dw - ox) else sw in
      let end_y := if dh <? i32 (oy + sh) then i32 (dh - oy) else sh in
      if (end_x <=? start_x) || (end_y <=? start_y) then Some dst
      else for_ start_y end_y (fun y d =>
             for_ start_x end_x (fun x d => put_pixel src sw dw dh ox oy y x d) d) (Some dst)
  end.

Definition cursor_dot (c : compositor_t) (y x : Z) (dst : option (list Z)) : option (list Z) :=
  dst ← dst;
  let dx := i32 (cursor_x c + x) in
  let dy := i32 (cursor_y c + y) in
  if (dx <? 0) || (drm_w c <=? dx) || (dy <? 0) || (drm_h c <=? dy) then Some dst
  else
    let cp := aget 0 (cursor_data c) (y * CURSOR_WIDTH + x) in
    if byte_at cp 24 =? 0 then Some dst
    else blend_at dst (i32 (dy * drm_w c + dx)) cp.

Definition compositor_draw_cursor (c : compositor_t) (dst : list Z) : option (list Z) :=
  if negb (cursor_visible c) then Some dst
  else for_ 0 CURSOR_HEIGHT (fun y d => for_ 0 CURSOR_WIDTH (fun x d => cursor_dot c y x d) d) (Some dst).

Definition with_buf (c : compositor_t) (b : list Z) (n : Z) : compositor_t :=
  MkComp (drm_w c) (drm_h c) (focused_window_id c) (cursor_x c) (cursor_y c) (cursor_data c)
    (cursor_visible c) b n.
Definition with_cursor (c : compositor_t) (cx cy focus : Z) : compositor_t :=
  MkComp (drm_w c) (drm_h c) focus cx cy (cursor_data c) (cursor_visible c) (composite_buf c) (frame_count c).

(** One slot of the compositing loop: a visible window is drawn and its commit
    is taken. *)
Definition render_slot (dw dh i : Z) (st : option (list window_t * list Z)) : option (list window_t * list Z) :=
  '(ws, dst) ← st;
  let w := aget win_zero ws i in
  if negb (visible w) then Some (ws, dst)
  else
    dst ← composite_window dw dh w dst;
    Some (aset ws i (with_commit false w), dst).

(** The frame as it is copied to the back buffer, with the windows left behind.
    The page flip and the timing are the display driver's and the clock's. *)
Definition compositor_render (c : compositor_t) (wm : window_manager_t) : option (compositor_t * window_manager_t) :=
  let total := drm_w c * drm_h c in
  let dirty := existsb (fun w => visible w && has_pending_commit w) (windows wm) in
  '(ws, dst) ←
    (if dirty
     then for_ 0 MAX_WINDOWS (render_slot (drm_w c) (drm_h c))
            (Some (windows wm, replicate (Z.to_nat total) 0x1a1a1a1a))
     else Some (windows wm, composite_buf c));
  dst ← compositor_draw_cursor c dst;
  Some (with_buf c dst (i32 (frame_count c + 1)), MkWm ws (window_count wm) (next_id wm)).

Definition compositor_set_cursor (cx cy : Z) (c : compositor_t) : compositor_t :=
  with_cursor c cx cy (focused_window_id c).

(** ** Exactness of the compositing loops *)

(** Sizes at which no [int] of the loops overflows. *)
Definition dims_ok (w h : Z) : Prop := 0 <= w < 2^30 /\ 0 <= h < 2^30 /\ w * h < 2^31.

Lemma pixel_index dw dh dx dy :
  0 <= dx < dw -> 0 <= dy < dh -> 0 <= dy * dw + dx < dw * dh.
Proof. intros. nia. Qed.

Lemma pixel_index_inj dw dx dy dx' dy' :
  0 <= dx < dw -> 0 <= dx' < dw -> dy * dw + dx = dy' * dw + dx' -> dx = dx' /\ dy = dy'.
Proof.
  intros H1 H2 E. assert (dy = dy') as -> by nia. split; [lia|done].
Qed.

(** The pixels of [dst'] are those of [dst], blended where [cov] says so. *)
Definition painted (dw dh : Z) (cov : Z -> Z -> bool) (pix : Z -> Z -> Z) (dst dst' : list Z) : Prop :=
  zlen dst' = zlen dst /\
  forall dx dy, 0 <= dx < dw -> 0 <= dy < dh ->
    aget 0 dst' (dy * dw + dx) =
    if cov dx dy then blend_pixel (pix dx dy) (aget 0 dst (dy * dw + dx)) else aget 0 dst (dy * dw + dx).

Lemma painted_nothing dw dh pix dst : painted dw dh (fun _ _ => false) pix dst dst.
Proof. by split. Qed.

Lemma painted_ext dw dh cov cov' pix dst dst' :
  (forall dx dy, 0 <= dx < dw -> 0 <= dy < dh -> cov dx dy = cov' dx dy) ->
  painted dw dh cov pix dst dst' -> painted dw dh cov' pix dst dst'.
Proof. intros He [Hl Hp]. split; [done|]. intros dx dy Hx Hy. rewrite <- He by done. by apply Hp. Qed.

(** Blending one more pixel. *)
Lemma painted_add dw dh cov pix dst dst' px py :
  zlen dst = dw * dh -> 0 <= px < dw -> 0 <= py < dh -> cov px py = false ->
  painted dw dh cov pix dst dst' ->
  painted dw dh (fun dx dy => cov dx dy || ((dx =? px) && (dy =? py))) pix dst
    (aset dst' (py * dw + px) (blend_pixel (pix px py) (aget 0 dst' (py * dw + px)))).
Proof.
  intros Hz Hx Hy Hc [Hl Hp]. pose proof (pixel_index dw dh px py Hx Hy).
  split; [by rewrite zlen_aset|]. intros dx dy Hdx Hdy.
  pose proof (pixel_index dw dh dx dy Hdx Hdy).
  destruct (decide (dx = px /\ dy = py)) as [[-> ->]|Hne].
  - rewrite aget_aset_eq by lia. rewrite Hp by done. rewrite Hc, !Z.eqb_refl. done.
  - assert (Hi : py * dw + px <> dy * dw + dx).
    { intros E. destruct (pixel_index_inj dw px py dx dy Hx Hdx E). apply Hne. lia. }
    rewrite aget_aset_ne by lia.
    rewrite Hp by done. replace ((dx =? px) && (dy =? py)) with false by lia. by rewrite orb_false_r.
Qed.

Section Window.
Context (dw dh sw sh ox oy : Z) (src dst : list Z).
Hypothesis (Hscreen : dims_ok dw dh) (Hwin : dims_ok sw sh).
Hypothesis (Hox : -2^30 <= ox < 2^30) (Hoy : -2^30 <= oy < 2^30).
Hypothesis (Hsrc : zlen src = sw * sh) (Hdst : zlen dst = dw * dh).

(** The source pixel that lands on (dx, dy). *)
Let pix (dx dy : Z) : Z := aget 0 src ((dy - oy) * sw + (dx - ox)).
Let start_x : Z := if ox <? 0 then i32 (- ox) else 0.
Let start_y : Z := if oy <? 0 then i32 (- oy) else 0.
Let end_x : Z := if dw <? i32 (ox + sw) then i32 (dw - ox) else sw.
Let end_y : Z := if dh <? i32 (oy + sh) then i32 (dh - oy) else sh.

(** Covered so far: rows below [y], and row [y] up to column [x]. *)
Let inside (dx dy : Z) : bool := (ox <=? dx) && (dx <? ox + sw) && (oy <=? dy) && (dy <? oy + sh).
Let cov (y x dx dy : Z) : bool := inside dx dy && ((dy - oy <? y) || ((dy - oy =? y) && (dx - ox <? x))).

Lemma clip :
  start_x = Z.max 0 (- ox) /\ start_y = Z.max 0 (- oy) /\
  end_x = Z.min sw (dw - ox) /\ end_y = Z.min sh (dh - oy).
Proof.
  unfold dims_ok in *. unfold start_x, start_y, end_x, end_y.
  rewrite !(i32_id (ox + sw)), !(i32_id (oy + sh)) by lia.
  split_and!; repeat case_test; rewrite ?i32_id by lia; lia.
Qed.

Lemma put_pixel_step y x d :
  start_y <= y < end_y -> start_x <= x < end_x ->
  painted dw dh (cov y x) pix dst d ->
  exists d', put_pixel src sw dw dh ox oy y x (Some d) = Some d' /\ painted dw dh (cov y (x + 1)) pix dst d'.
Proof.
  intros Hy Hx Hp. destruct clip as (E1 & E2 & E3 & E4). unfold dims_ok in *.
  unfold put_pixel. cbn [mbind option_bind].
  rewrite (i32_id (ox + x)), (i32_id (oy + y)) by lia.
  replace ((ox + x <? 0) || (dw <=? ox + x) || (oy + y <? 0) || (dh <=? oy + y)) with false by lia.
  pose proof (pixel_index sw sh x y ltac:(lia) ltac:(lia)).
  pose proof (pixel_index dw dh (ox + x) (oy + y) ltac:(lia) ltac:(lia)).
  rewrite (i32_id (y * sw + x)), (i32_id ((oy + y) * dw + (ox + x))) by lia.
  destruct (Hp) as [Hl _].
  replace ((0 <=? y * sw + x) && (y * sw + x <? zlen src)) with true by lia.
  unfold blend_at. replace ((0 <=? (oy + y) * dw + (ox + x)) && ((oy + y) * dw + (ox + x) <? zlen d)) with true by lia.
  eexists. split; [done|].
  assert (Epix : aget 0 src (y * sw + x) = pix (ox + x) (oy + y)).
  { unfold pix. f_equal. f_equal; [f_equal; lia|lia]. }
  rewrite Epix.
  eapply painted_ext; [|apply painted_add; [done|lia|lia| |exact Hp]].
  - intros dx dy Hdx Hdy. unfold cov, inside. lia.
  - unfold cov, inside. lia.
Qed.

Lemma put_row y d :
  start_y <= y < end_y -> start_x < end_x -> painted dw dh (cov y start_x) pix dst d ->
  exists d', for_ start_x end_x (fun x d => put_pixel src sw dw dh ox oy y x d) (Some d) = Some d' /\
             painted dw dh (cov (y + 1) start_x) pix dst d'.
Proof.
  intros Hy Hx Hp.
  assert (H : exists d', for_ start_x end_x (fun x d => put_pixel src sw dw dh ox oy y x d) (Some d) = Some d' /\
     painted dw dh (cov y end_x) pix dst d').
  { apply (for_ind (fun x s => exists d', s = Some d' /\ painted dw dh (cov y x) pix dst d')); [lia|by exists d|].
    intros x s Hxr (d' & -> & Hd'). by apply put_pixel_step. }
  destruct H as (d' & E & Hd'). exists d'. split; [done|].
  destruct clip as (E1 & E2 & E3 & E4). unfold dims_ok in *.
  eapply painted_ext; [|exact Hd']. intros dx dy Hdx Hdy. unfold cov, inside. lia.
Qed.

Lemma put_rows :
  start_x < end_x -> start_y < end_y ->
  exists d', for_ start_y end_y (fun y d =>
      for_ start_x end_x (fun x d => put_pixel src sw dw dh ox oy y x d) d) (Some dst) = Some d' /\
    painted dw dh inside pix dst d'.
Proof.
  intros Hx Hy. destruct clip as (E1 & E2 & E3 & E4). unfold dims_ok in *.
  assert (H : exists d', for_ start_y end_y (fun y d =>
      for_ start_x end_x (fun x d => put_pixel src sw dw dh ox oy y x d) d) (Some dst) = Some d' /\
    painted dw dh (cov end_y start_x) pix dst d').
  { apply (for_ind (fun y s => exists d', s = Some d' /\ painted dw dh (cov y start_x) pix dst d')); [lia| |].
    - exists dst. split; [done|]. eapply painted_ext; [|apply painted_nothing].
      intros dx dy Hdx Hdy. cbv beta. unfold cov, inside. lia.
    - intros y s Hyr (d' & -> & Hd'). by apply put_row. }
  destruct H as (d' & E & Hd'). exists d'. split; [done|].
  eapply painted_ext; [|exact Hd']. intros dx dy Hdx Hdy. unfold cov, inside. lia.
Qed.

Lemma composite_rect win :
  x win = ox -> y win = oy -> width win = sw -> height win = sh -> ptr (buffer win) = Some src ->
  exists d', composite_window dw dh win dst = Some d' /\ painted dw dh inside pix dst d'.
Proof.
  intros Ex Ey Ew Eh Ep. unfold composite_window. rewrite Ep, Ex, Ey, Ew, Eh.
  fold start_x start_y end_x end_y.
  destruct ((end_x <=? start_x) || (end_y <=? start_y)) eqn:Eb; [|apply put_rows; lia].
  exists dst. split; [done|]. eapply painted_ext; [|apply painted_nothing].
  intros dx dy Hdx Hdy. cbv beta. destruct clip as (E1 & E2 & E3 & E4). unfold dims_ok in *.
  unfold inside. lia.
Qed.

End Window.

(** A window the compositor can draw: sane sizes and a buffer of its size. *)
Definition win_drawable (w : window_t) : Prop :=
  dims_ok (width w) (height w) /\ -2^30 <= x w < 2^30 /\ -2^30 <= y w < 2^30 /\
  exists src, ptr (buffer w) = Some src /\ zlen src = width w * height w.

Definition win_pixel (w : window_t) (dx dy : Z) : Z :=
  match ptr (buffer w) with
  | Some src => aget 0 src ((dy - y w) * width w + (dx - x w))
  | None => 0
  end.
Definition win_covers (w : window_t) (dx dy : Z) : bool :=
  (x w <=? dx) && (dx <? x w + width w) && (y w <=? dy) && (dy <? y w + height w).

Lemma composite_window_painted dw dh w dst :
  dims_ok dw dh -> zlen dst = dw * dh -> win_drawable w ->
  exists dst', composite_window dw dh w dst = Some dst' /\
    painted dw dh (win_covers w) (win_pixel w) dst dst'.
Proof.
  intros Hs Hd (Hw & Hx & Hy & src & Hp & Hl).
  destruct (composite_rect dw dh (width w) (height w) (x w) (y w) src dst Hs Hw Hx Hy Hl Hd w) as (d & E & P); auto.
  exists d. split; [done|]. unfold win_pixel. by rewrite Hp.
Qed.

(** ** The cursor *)

Lemma cursor_dot_ok c yy xx dst :
  dims_ok (drm_w c) (drm_h c) -> -2^30 <= cursor_x c < 2^30 -> -2^30 <= cursor_y c < 2^30 ->
  0 <= xx < CURSOR_WIDTH -> 0 <= yy < CURSOR_HEIGHT -> zlen dst = drm_w c * drm_h c ->
  exists dst', cursor_dot c yy xx (Some dst) = Some dst' /\ zlen dst' = drm_w c * drm_h c.
Proof.
  intros (Hw & Hh & Hwh) Hcx Hcy Hx Hy Hl. unfold cursor_dot. cbn [mbind option_bind].
  rewrite (i32_id (cursor_x c + xx)), (i32_id (cursor_y c + yy)) by lia.
  case_test; [by exists dst|]. case_test; [by exists dst|].
  pose proof (pixel_index (drm_w c) (drm_h c) (cursor_x c + xx) (cursor_y c + yy) ltac:(lia) ltac:(lia)).
  rewrite i32_id by lia. unfold blend_at. case_test; [|lia].
  eexists. split; [done|]. by rewrite zlen_aset.
Qed.

Lemma draw_cursor_ok c dst :
  dims_ok (drm_w c) (drm_h c) -> -2^30 <= cursor_x c < 2^30 -> -2^30 <= cursor_y c < 2^30 ->
  zlen dst = drm_w c * drm_h c ->
  exists dst', compositor_draw_cursor c dst = Some dst' /\ zlen dst' = drm_w c * drm_h c.
Proof.
  intros Hd Hcx Hcy Hl. unfold compositor_draw_cursor. case_test; [by exists dst|].
  apply (for_inv (fun s => exists d, s = Some d /\ zlen d = drm_w c * drm_h c)); [by exists dst|].
  intros yy s Hy (d & -> & Hz).
  apply (for_inv (fun s => exists d, s = Some d /\ zlen d = drm_w c * drm_h c)); [by exists d|].
  intros xx s' Hx (d' & -> & Hz'). by apply cursor_dot_ok.
Qed.

(** ** A frame *)

Lemma render_slots_ok dw dh ws dst :
  dims_ok dw dh -> length ws = 128%nat -> zlen dst = dw * dh ->
  Forall (fun w => visible w = true -> win_drawable w) ws ->
  exists ws' dst', for_ 0 MAX_WINDOWS (render_slot dw dh) (Some (ws, dst)) = Some (ws', dst') /\
    zlen dst' = dw * dh /\
    ws' = map (fun w => if visible w then with_commit false w else w) ws.
Proof.
  intros Hd Hl Hz Hw. set (f := fun w => if visible w then with_commit false w else w).
  assert (H : exists ws' dst', for_ 0 MAX_WINDOWS (render_slot dw dh) (Some (ws, dst)) = Some (ws', dst') /\
    zlen dst' = dw * dh /\ ws' = map f (take (Z.to_nat MAX_WINDOWS) ws) ++ drop (Z.to_nat MAX_WINDOWS) ws).
  { apply (for_ind (fun i s => exists ws' dst', s = Some (ws', dst') /\ zlen dst' = dw * dh /\
      ws' = map f (take (Z.to_nat i) ws) ++ drop (Z.to_nat i) ws)); [lia|by exists ws, dst|].
    intros i s Hi (ws' & d & -> & Hzd & ->).
    destruct (lookup_lt_is_Some_2 ws (Z.to_nat i)) as [w Hwi]; [lia|].
    assert (Hlen : length (map f (take (Z.to_nat i) ws)) = Z.to_nat i) by (rewrite length_map, length_take; lia).
    assert (Edrop : drop (Z.to_nat i) ws = w :: drop (S (Z.to_nat i)) ws) by (by apply drop_S).
    replace (Z.to_nat (i + 1)) with (S (Z.to_nat i)) by lia.
    rewrite (take_S_r _ _ w) by done. rewrite map_app, <- app_assoc. cbn [map app].
    unfold render_slot. cbn [mbind option_bind].
    assert (Eget : aget win_zero (map f (take (Z.to_nat i) ws) ++ drop (Z.to_nat i) ws) i = w).
    { unfold aget. rewrite app_nth2 by lia. rewrite Hlen, Nat.sub_diag, Edrop. done. }
    assert (Ef : f w = if visible w then with_commit false w else w) by done.
    rewrite Eget, Ef. clear Ef. destruct (visible w) eqn:Ev; cbn [negb].
    - destruct (composite_window_painted dw dh w d Hd Hzd) as (d' & -> & Hp & _).
      { by apply (Forall_lookup_1 _ _ _ _ Hw Hwi). }
      cbn [mbind option_bind]. eexists _, _. split_and!; [done|lia|].
      unfold aset. rewrite insert_app_r_alt by (rewrite Hlen; lia). rewrite Hlen, Nat.sub_diag, Edrop. done.
    - eexists _, _. split_and!; [done|done|]. by rewrite Edrop. }
  destruct H as (ws' & d & E & Hzd & ->). exists (map f ws), d. split_and!; [|done|done].
  rewrite E. rewrite take_ge, drop_ge, app_nil_r by (change (Z.to_nat MAX_WINDOWS) with 128%nat; lia). done.
Qed.

(** C38: Drawing a window is exact and stays in range: wherever the window is
    placed, every screen pixel it covers becomes the blend of the window's own
    pixel with the old one, every other pixel is unchanged, and no index of
    either buffer leaves its range, also for windows that hang over an edge. *)
Theorem composite_window_exact dw dh w dst :
  dims_ok dw dh -> zlen dst = dw * dh -> win_drawable w ->
  exists dst', composite_window dw dh w dst = Some dst' /\ zlen dst' = zlen dst /\
    forall dx dy, 0 <= dx < dw -> 0 <= dy < dh ->
      aget 0 dst' (dy * dw + dx) =
      if win_covers w dx dy
      then blend_pixel (win_pixel w dx dy) (aget 0 dst (dy * dw + dx))
      else aget 0 dst (dy * dw + dx).
Proof. intros H1 H2 H3. destruct (composite_window_painted dw dh w dst H1 H2 H3) as (d & E & P1 & P2). by exists d. Qed.

Definition sample_window (wx wy : Z) : window_t :=
  MkWin 1 0 0 wx wy 2 1 [] (MkShm 3 (Some [0xFF0000AA; 0xFF0000BB]) 8 2 1 8) true true.

Lemma composite_window_exact_witness :
  exists dst', composite_window 2 2 (sample_window 1 1) [1; 2; 3; 4] = Some dst' /\
    aget 0 dst' (1 * 2 + 1) = 0xFF0000AA.
Proof.
  destruct (composite_window_exact 2 2 (sample_window 1 1) [1; 2; 3; 4]) as (d & E & _ & P).
  - unfold dims_ok. lia.
  - done.
  - unfold win_drawable, dims_ok. cbn [x y width height sample_window buffer].
    split_and!; try lia. by eexists.
  - exists d. split; [exact E|]. rewrite (P 1 1) by lia. vm_compute. reflexivity.
Defined.

(** Rendering a frame never leaves its buffers: with drawable windows and the
    cursor near the screen it produces a frame of the screen's size, and when any
    window had committed a buffer every visible window is drawn and its commit
    taken, while all other fields of the windows are kept. *)
Theorem compositor_render_ok c wm :
  dims_ok (drm_w c) (drm_h c) -> -2^30 <= cursor_x c < 2^30 -> -2^30 <= cursor_y c < 2^30 ->
  zlen (composite_buf c) = drm_w c * drm_h c -> length (windows wm) = 128%nat ->
  Forall (fun w => visible w = true -> win_drawable w) (windows wm) ->
  exists c' wm', compositor_render c wm = Some (c', wm') /\
    zlen (composite_buf c') = drm_w c * drm_h c /\
    windows wm' = (if existsb (fun w => visible w && has_pending_commit w) (windows wm)
                   then map (fun w => if visible w then with_commit false w else w) (windows wm)
                   else windows wm).
Proof.
  intros Hd Hcx Hcy Hz Hl Hw. unfold compositor_render.
  destruct (existsb _ (windows wm)).
  - pose proof Hd as (D1 & D2 & D3).
    destruct (render_slots_ok (drm_w c) (drm_h c) (windows wm)
       (replicate (Z.to_nat (drm_w c * drm_h c)) 0x1a1a1a1a) Hd Hl) as (ws & d & -> & Hzd & ->); [|done|].
    { unfold zlen. rewrite length_replicate. nia. }
    cbn [mbind option_bind].
    destruct (draw_cursor_ok c d Hd Hcx Hcy Hzd) as (d' & -> & Hzd'). cbn [mbind option_bind].
    eexists _, _. by split_and!.
  - cbn [mbind option_bind].
    destruct (draw_cursor_ok c (composite_buf c) Hd Hcx Hcy Hz) as (d' & -> & Hzd'). cbn [mbind option_bind].
    eexists _, _. by split_and!.
Qed.

Definition sample_comp (cx : Z) : compositor_t :=
  MkComp 2 1 (-1) cx 0 generate_cursor true [5; 6] 0.

Lemma compositor_render_ok_witness :
  exists c' wm', compositor_render (sample_comp 0) window_manager_init = Some (c', wm') /\
    zlen (composite_buf c') = 2.
Proof.
  destruct (compositor_render_ok (sample_comp 0) window_manager_init) as (c' & wm' & E & Hz & _).
  - unfold dims_ok. simpl. lia.
  - simpl. lia.
  - simpl. lia.
  - done.
  - done.
  - apply Forall_replicate. intros [=].
  - exists c', wm'. split; [exact E|exact Hz].
Defined.

(** Without a commit the old frame is kept with the old cursor in it: a cursor
    that moved one pixel to the right leaves its left column behind. *)
Lemma cursor_leaves_a_trail :
  forall b c1 w1 c2 w2,
  b = composite_buf c1 -> compositor_render (sample_comp 0) window_manager_init = Some (c1, w1) ->
  compositor_render (compositor_set_cursor 1 0 c1) w1 = Some (c2, w2) ->
  aget 0 (composite_buf (sample_comp 0)) 0 = 5 /\ aget 0 b 0 = 0xFF000000 /\
  aget 0 (composite_buf c2) 0 = 0xFF000000.
Proof.
  intros b c1 w1 c2 w2 -> E1 E2. vm_compute in E1. injection E1 as <- <-.
  vm_compute in E2. injection E2 as <- <-. by vm_compute.
Qed.

(** A fully transparent pixel is painted opaque in its own colour. *)
Lemma transparent_pixel_is_painted : blend_pixel 0x00112233 0xFFABCDEF = 0xFF112233.
Proof. vm_compute. reflexivity. Qed.
