(* ===== verification/Drm.v ===== *)
(** * The display device ([vdm/project/display-server/drm.c], [tty.c])

    The graphics card is the interface [DrmDev]: buffers and frame buffers are
    created and released, a mapping is written, flips are queued and completed.
    What the kernel documents of it is [DrmRes] (who owns what) and [DrmFlip]
    (what is on the screen).  A context is [vdm_drm_t]; [present] is the end of
    [compositor_render], which copies a frame and flips. *)

From Stdlib Require Import ZArith Lia.
From stdpp Require Import base numbers list list_numbers option gmap.
From S2P Require Import Prelude CLib Windows Compositor.

Class DrmDev (W : Type) := {
  create_dumb : Z -> Z -> W -> option (Z * Z * Z) * W;   (* width, height: handle, pitch, size *)
  destroy_dumb : Z -> W -> W;
  add_fb : Z -> Z -> W -> option Z * W;                  (* handle, pitch: frame buffer *)
  rm_fb : Z -> W -> W;
  map_dumb : Z -> W -> option Z * W;                     (* handle: offset *)
  mmap : Z -> Z -> W -> option Z * W;                    (* size, offset: address *)
  munmap : Z -> Z -> W -> W;                             (* address, size *)
  store : Z -> list Z -> W -> W;                         (* pixels to an address *)
  set_crtc : Z -> Z -> Z -> W -> bool * W;               (* crtc, frame buffer, connector *)
  queue_flip : Z -> Z -> W -> bool * W;                  (* crtc, frame buffer *)
  flip_event : W -> bool * W;                            (* whether page_flip_handler was called *)
  release : W -> W }.                                    (* drmDropMaster, close *)

Record vdm_drm_t := Drm {
  fd : Z; crtc_id : Z; connector_id : Z; plane_id : Z; crtc_index : Z; d_width : Z; d_height : Z; d_stride : Z;
  front_buf : nat; back_buf : nat; buffers : list Z; fb_ids : list Z; gem_handles : list Z; flipping : bool }.
Definition set_flip f b fl c := Drm (fd c) (crtc_id c) (connector_id c) (plane_id c) (crtc_index c) (d_width c) (d_height c) (d_stride c) f b (buffers c) (fb_ids c) (gem_handles c) fl.
Definition set_bufs bs fs hs c := Drm (fd c) (crtc_id c) (connector_id c) (plane_id c) (crtc_index c) (d_width c) (d_height c) (d_stride c) (front_buf c) (back_buf c) bs fs hs (flipping c).
Definition set_geometry cr co pl ci w h c := Drm (fd c) cr co pl ci w h (d_stride c) (front_buf c) (back_buf c) (buffers c) (fb_ids c) (gem_handles c) (flipping c).
Definition set_stride s c := Drm (fd c) (crtc_id c) (connector_id c) (plane_id c) (crtc_index c) (d_width c) (d_height c) s (front_buf c) (back_buf c) (buffers c) (fb_ids c) (gem_handles c) (flipping c).

(** [memset(ctx,0,sizeof)], with the descriptor *)
Definition drm0 (f : Z) : vdm_drm_t := Drm f 0 0 0 0 0 0 0 0 0 [0; 0] [0; 0] [0; 0] false.

(** ** Finding the device and the mode *)

Fixpoint find_drm_device (names : list (list Z)) : option (list Z) :=
  match names with [] => None | n :: ns => if strneq n [99; 97; 114; 100] 4 then Some n else find_drm_device ns end.

(** [open_] and [master]: what [open] and [drmSetMaster] answer. *)
Definition drm_init (names : list (list Z)) (open_ : list Z -> Z) (master : bool) : option vdm_drm_t :=
  match find_drm_device names with
  | None => None
  | Some n => let f := open_ n in if f <? 0 then None else if master then Some (drm0 f) else None
  end.

Record connector := Connector { c_id : Z; connected : bool; modes : list (Z * Z); c_encoder : Z }.
Record encoder := Encoder { e_id : Z; e_crtcs : Z }.
Record plane := Plane { p_id : Z; p_crtcs : Z; p_formats : list Z }.
(** What the card answers; [None] where a query fails. *)
Record resources := Resources {
  connectors : list (option connector); encoders : list (option encoder); crtcs : list (Z * bool); planes : option (list (option plane)) }.

Definition FORMAT_XRGB8888 : Z := 0x34325258.
Definition usable (o : option connector) : bool := match o with Some c => connected c && negb (bool_decide (modes c = [])) | None => false end.
Fixpoint pick_crtc (possible i : Z) (l : list (Z * bool)) : option (Z * Z) :=
  match l with
  | [] => None
  | (id, ok) :: l' => if Z.testbit possible i && ok then Some (id, i) else pick_crtc possible (i + 1) l'
  end.
Fixpoint pick_plane (index : Z) (l : list (option plane)) : Z :=
  match l with
  | [] => 0
  | Some p :: l' => if Z.testbit (p_crtcs p) index && existsb (Z.eqb FORMAT_XRGB8888) (p_formats p) then p_id p else pick_plane index l'
  | None :: l' => pick_plane index l'
  end.

Definition drm_set_mode (res : option resources) (c : vdm_drm_t) : option vdm_drm_t :=
  r ← res;
  conn ← mjoin (List.find usable (connectors r));
  mode ← head (modes conn);
  enc ← mjoin (List.find (fun o => match o with Some e => e_id e =? c_encoder conn | None => false end) (encoders r));
  let '(cr, ci) := default (crtc_id c, crtc_index c) (pick_crtc (e_crtcs enc) 0 (crtcs r)) in
  let pl := match planes r with Some l => pick_plane ci l | None => 0 end in
  Some (set_geometry cr (c_id conn) pl ci mode.1 mode.2 c).

Section Device.
Context {W : Type} `{DrmDev W}.
Implicit Type w : W.

(** ** Buffers *)

Definition drm_create_gem_buffer (c : vdm_drm_t) (w : W) : option (Z * Z * Z) * W :=
  match create_dumb (d_width c) (d_height c) w with
  | (None, w) => (None, w)
  | (Some (handle, pitch, size), w) =>
      match add_fb handle pitch w with
      | (None, w) => (None, destroy_dumb handle w)
      | (Some fb, w) =>
          match map_dumb handle w with
          | (None, w) => (None, destroy_dumb handle (rm_fb fb w))
          | (Some off, w) =>
              match mmap size off w with
              | (None, w) => (None, destroy_dumb handle (rm_fb fb w))
              | (Some map, w) => (Some (map, handle, fb), store map (replicate (Z.to_nat (size / 4)) 0) w)
              end
          end
      end
  end.

(** The context may hold the first buffer when the result is failure. *)
Definition drm_create_framebuffers (c : vdm_drm_t) (w : W) : bool * vdm_drm_t * W :=
  match drm_create_gem_buffer c w with
  | (None, w) => (false, c, w)
  | (Some (m0, h0, f0), w) =>
      let c := set_bufs [m0; 0] [f0; 0] [h0; 0] c in
      match drm_create_gem_buffer c w with
      | (None, w) => (false, c, w)
      | (Some (m1, h1, f1), w) =>
          let c := set_flip 0 1 (flipping c) (set_stride (d_width c * 4) (set_bufs [m0; m1] [f0; f1] [h0; h1] c)) in
          let '(ok, w) := set_crtc (crtc_id c) f0 (connector_id c) w in
          (ok, c, w)
      end
  end.

(** ** Flipping *)

Definition drm_page_flip (c : vdm_drm_t) (w : W) : bool * vdm_drm_t * W :=
  if flipping c then (false, c, w)
  else
    let c' := set_flip (back_buf c) (front_buf c) (flipping c) c in
    let '(ok, w) := queue_flip (crtc_id c') (nth (front_buf c') (fb_ids c') 0) w in
    if ok then (true, set_flip (front_buf c') (back_buf c') true c', w) else (false, set_flip (back_buf c') (front_buf c') (flipping c') c', w).

(** One call of [drmHandleEvent]. *)
Definition drm_handle_event (c : vdm_drm_t) (w : W) : vdm_drm_t * W :=
  let '(done_, w) := flip_event w in (if done_ then set_flip (front_buf c) (back_buf c) false c else c, w).

(** [fuel]: the polls after which the wait is given up here; the code does not. *)
Fixpoint drm_wait_flip (fuel : nat) (c : vdm_drm_t) (w : W) : option (vdm_drm_t * W) :=
  if flipping c then
    match fuel with O => None | S f => let '(c, w) := drm_handle_event c w in drm_wait_flip f c w end
  else Some (c, w).

Definition drm_fill_screen (color : Z) (c : vdm_drm_t) (w : W) : W :=
  store (nth (back_buf c) (buffers c) 0) (replicate (Z.to_nat (d_width c * d_height c)) color) w.

(** The end of [compositor_render]. *)
Definition present (fuel : nat) (frame : list Z) (c : vdm_drm_t) (w : W) : option (vdm_drm_t * W) :=
  let w := store (nth (back_buf c) (buffers c) 0) frame w in
  match drm_page_flip c w with
  | (true, c, w) => Some (c, w)
  | (false, c, w) =>
      '(c, w) ← drm_wait_flip fuel c w;
      let '(_, c, w) := drm_page_flip c w in Some (c, w)
  end.

Definition unmap_buf (i : nat) (c : vdm_drm_t) (w : W) : W :=
  let m := nth i (buffers c) 0 in if m =? 0 then w else munmap m (d_stride c * d_height c) w.
Definition free_buf (i : nat) (c : vdm_drm_t) (w : W) : W :=
  let w := if nth i (fb_ids c) 0 =? 0 then w else rm_fb (nth i (fb_ids c) 0) w in
  if nth i (gem_handles c) 0 =? 0 then w else destroy_dumb (nth i (gem_handles c) 0) w.
Definition drm_shutdown (c : vdm_drm_t) (w : W) : vdm_drm_t * W :=
  let w := unmap_buf 1 c (unmap_buf 0 c w) in
  let w := free_buf 1 c (free_buf 0 c w) in
  let w := if 0 <=? fd c then release w else w in
  (drm0 (-1), w).
End Device.

(** ** Who owns what *)

(** Buffers (0), frame buffers (1) and mappings (2) the process holds. *)
Class DrmRes (W : Type) `{DrmDev W} := {
  owns : W -> gset (Z * Z);
  create_owns a b w : match create_dumb a b w with
                      | (Some (h, _, _), w') => h <> 0 /\ (0, h) ∉ owns w /\ owns w' = {[(0, h)]} ∪ owns w
                      | (None, w') => owns w' = owns w end;
  destroy_owns h w : owns (destroy_dumb h w) = owns w ∖ {[(0, h)]};
  add_owns h p w : match add_fb h p w with
                   | (Some f, w') => f <> 0 /\ (1, f) ∉ owns w /\ owns w' = {[(1, f)]} ∪ owns w
                   | (None, w') => owns w' = owns w end;
  rm_owns f w : owns (rm_fb f w) = owns w ∖ {[(1, f)]};
  map_owns h w : owns (map_dumb h w).2 = owns w;
  mmap_owns s o w : match mmap s o w with
                    | (Some m, w') => m <> 0 /\ (2, m) ∉ owns w /\ owns w' = {[(2, m)]} ∪ owns w
                    | (None, w') => owns w' = owns w end;
  munmap_owns m s w : 0 < s -> owns (munmap m s w) = owns w ∖ {[(2, m)]};
  store_owns a px w : owns (store a px w) = owns w;
  crtc_owns c f k w : owns (set_crtc c f k w).2 = owns w;
  release_owns w : owns (release w) = owns w }.

Section Resources.
Context {W : Type} `{DrmRes W}.
Implicit Type w : W.

(** A buffer is created whole or not at all. *)
Lemma gem_buffer_whole c w :
  match drm_create_gem_buffer c w with
  | (Some (m, h, f), w') => m <> 0 /\ h <> 0 /\ f <> 0 /\ (2, m) ∉ owns w /\ (0, h) ∉ owns w /\ (1, f) ∉ owns w /\
                            owns w' = {[(2, m)]} ∪ ({[(1, f)]} ∪ ({[(0, h)]} ∪ owns w))
  | (None, w') => owns w' = owns w
  end.
Proof.
  unfold drm_create_gem_buffer. pose proof (create_owns (d_width c) (d_height c) w) as H1. destruct (create_dumb _ _ w) as [[[[h p] sz]|] w1]; [|done].
  destruct H1 as (Hh & Hh' & E1). pose proof (add_owns h p w1) as H2. destruct (add_fb h p w1) as [[f|] w2].
  2:{ rewrite destroy_owns, H2, E1. set_solver. }
  destruct H2 as (Hf & Hf' & E2). pose proof (map_owns h w2) as H3. destruct (map_dumb h w2) as [[off|] w3]; cbn [snd] in H3.
  2:{ rewrite destroy_owns, rm_owns, H3, E2, E1. set_solver. }
  pose proof (mmap_owns sz off w3) as H4. destruct (mmap sz off w3) as [[m|] w4].
  2:{ rewrite destroy_owns, rm_owns, H4, H3, E2, E1. set_solver. }
  destruct H4 as (Hm & Hm' & E4). rewrite store_owns, E4, H3, E2, E1. rewrite H3, E2, E1 in Hm'. rewrite E1 in Hf'. split_and!; try done; set_solver.
Qed.

(** Shutting down gives back exactly what was taken. *)
Lemma shutdown_returns_all c w c1 w1 : 0 < d_width c -> 0 < d_height c ->
  drm_create_framebuffers c w = (true, c1, w1) -> owns (drm_shutdown c1 w1).2 = owns w.
Proof.
  intros Hw Hh. unfold drm_create_framebuffers. pose proof (gem_buffer_whole c w) as H1. destruct (drm_create_gem_buffer c w) as [[[[m0 h0] f0]|] w2]; [|done].
  destruct H1 as (Hm0 & Hh0 & Hf0 & Nm0 & Nh0 & Nf0 & E0). cbv zeta. pose proof (gem_buffer_whole (set_bufs [m0; 0] [f0; 0] [h0; 0] c) w2) as H2.
  destruct (drm_create_gem_buffer (set_bufs [m0; 0] [f0; 0] [h0; 0] c) w2) as [[[[m1 h1] f1]|] w3]; [|done].
  destruct H2 as (Hm1 & Hh1 & Hf1 & Nm1 & Nh1 & Nf1 & E1). cbn [crtc_id connector_id set_flip set_stride set_bufs].
  pose proof (crtc_owns (crtc_id c) f0 (connector_id c) w3) as H3. destruct (set_crtc _ f0 _ w3) as [ok w4]. cbn [snd] in H3. intros [= -> <- <-].
  unfold drm_shutdown, unmap_buf, free_buf. cbn [buffers fb_ids gem_handles d_stride d_height d_width set_flip set_stride set_bufs nth].
  rewrite (proj2 (Z.eqb_neq m0 0)), (proj2 (Z.eqb_neq m1 0)), (proj2 (Z.eqb_neq h0 0)), (proj2 (Z.eqb_neq h1 0)), (proj2 (Z.eqb_neq f0 0)), (proj2 (Z.eqb_neq f1 0)) by done.
  assert (Hrel : forall x : W, owns (if 0 <=? fd (set_flip 0 1 (flipping (set_bufs [m0; 0] [f0; 0] [h0; 0] c)) (set_stride (d_width c * 4) (set_bufs [m0; m1] [f0; f1] [h0; h1] (set_bufs [m0; 0] [f0; 0] [h0; 0] c)))) then release x else x) = owns x).
  { intros x. case_test; [apply release_owns|done]. }
  cbn [snd]. rewrite Hrel, destroy_owns, rm_owns, destroy_owns, rm_owns, !munmap_owns by nia. rewrite H3, E1, E0. rewrite E0 in Nm1, Nh1, Nf1. set_solver.
Qed.
End Resources.

(** ** What is on the screen *)

(** [linked w a f]: the memory mapped at [a] is that of frame buffer [f]. *)
Class DrmFlip (W : Type) `{DrmDev W} := {
  linked : W -> Z -> Z -> Prop;
  pixels : W -> Z -> list Z;
  on_screen : W -> Z;
  queued : W -> option Z;
  store_flip a f px w : linked w a f -> zlen px <= zlen (pixels w f) ->
    pixels (store a px w) f = px ++ drop (length px) (pixels w f) /\ (forall g, g <> f -> pixels (store a px w) g = pixels w g) /\
    on_screen (store a px w) = on_screen w /\ queued (store a px w) = queued w /\ (forall b g, linked w b g -> linked (store a px w) b g);
  queue_flip_law c f w : let '(ok, w') := queue_flip c f w in
    queued w' = (if ok : bool then Some f else queued w) /\ on_screen w' = on_screen w /\ pixels w' = pixels w /\ linked w' = linked w;
  event_flip w : let '(done_, w') := flip_event w in
    (if done_ : bool then queued w = Some (on_screen w') /\ queued w' = None else queued w' = queued w /\ on_screen w' = on_screen w) /\
    pixels w' = pixels w /\ linked w' = linked w }.

Section Flip.
Context {W : Type} `{DrmFlip W}.
Implicit Type w : W.

Definition addr_of (c : vdm_drm_t) (i : nat) : Z := nth i (buffers c) 0.
Definition fb_of (c : vdm_drm_t) (i : nat) : Z := nth i (fb_ids c) 0.
Definition picture w : list Z := pixels w (on_screen w).

(** The invariant of double buffering, for frames of [n] pixels: one buffer is in
    front, the other behind; unless a flip is pending the front is visible. *)
Record flip_ok (n : Z) (c : vdm_drm_t) w : Prop := FlipOk {
  fo_two : (front_buf c = 0%nat /\ back_buf c = 1%nat) \/ (front_buf c = 1%nat /\ back_buf c = 0%nat);
  fo_linked : linked w (addr_of c 0) (fb_of c 0) /\ linked w (addr_of c 1) (fb_of c 1);
  fo_ne : fb_of c 0 <> fb_of c 1;
  fo_size : zlen (pixels w (fb_of c 0)) = n /\ zlen (pixels w (fb_of c 1)) = n;
  fo_screen : if flipping c then queued w = Some (fb_of c (front_buf c)) /\ on_screen w = fb_of c (back_buf c)
              else queued w = None /\ on_screen w = fb_of c (front_buf c) }.

Lemma flip_sides n c w : flip_ok n c w -> linked w (addr_of c (back_buf c)) (fb_of c (back_buf c)) /\ zlen (pixels w (fb_of c (back_buf c))) = n /\
  fb_of c (front_buf c) <> fb_of c (back_buf c).
Proof. intros [[[-> ->]|[-> ->]] [L0 L1] Hne [S0 S1] _]; auto. Qed.

(** Copying a frame behind. *)
Lemma store_back n frame c w : flip_ok n c w -> zlen frame = n ->
  let w' := store (addr_of c (back_buf c)) frame w in
  flip_ok n c w' /\ pixels w' (fb_of c (back_buf c)) = frame /\ (flipping c = false -> picture w' = picture w) /\
  pixels w' (fb_of c (front_buf c)) = pixels w (fb_of c (front_buf c)).
Proof.
  intros Hok Hn. destruct (flip_sides n c w Hok) as (HL & HS & Hne). destruct (store_flip _ _ frame w HL ltac:(lia)) as (Hp & Ho & Hs & Hq & Hl). cbv zeta.
  assert (E : pixels (store (addr_of c (back_buf c)) frame w) (fb_of c (back_buf c)) = frame).
  { rewrite Hp, drop_ge, app_nil_r; [done|]. unfold zlen in *. lia. }
  split; [|split; [done|split; [|by apply Ho]]].
  - destruct Hok as [H2 [L0 L1] Hd [S0 S1] Hsc]. constructor; [done|auto|done| |rewrite Hq, Hs; done].
    destruct H2 as [[E1 E2]|[E1 E2]]; rewrite E1, E2 in *; (split; first [by rewrite E|by rewrite Ho by congruence]).
  - intros Hf. unfold picture. rewrite Hs. destruct Hok as [_ _ _ _ Hsc]. rewrite Hf in Hsc. destruct Hsc as [_ ->]. by apply Ho.
Qed.

Lemma event_ok n c w : flip_ok n c w -> let '(c', w') := drm_handle_event c w in
  flip_ok n c' w' /\ buffers c' = buffers c /\ fb_ids c' = fb_ids c /\ front_buf c' = front_buf c /\ pixels w' = pixels w /\
  (flipping c' = flipping c /\ queued w' = queued w \/ flipping c = true /\ flipping c' = false).
Proof.
  intros Hok. unfold drm_handle_event. pose proof (event_flip w) as He. destruct (flip_event w) as [[] w'].
  - destruct He as ([Hq Hn] & Hp & Hl). destruct Hok as [H2 HL Hne HS Hsc]. destruct (flipping c) eqn:Ef; [|destruct Hsc as [Hsc _]; congruence].
    destruct Hsc as [Hq' Hs]. split; [|by eauto 10]. constructor; cbn; try done; [by rewrite Hl|by rewrite Hp|]. split; [done|].
    rewrite Hq in Hq'. by injection Hq'.
  - destruct He as ([Hq Hs] & Hp & Hl). split; [|by eauto 10]. destruct Hok as [H2 HL Hne HS Hsc]. constructor; try done; [by rewrite Hl|by rewrite Hp|].
    by rewrite Hq, Hs.
Qed.

Lemma page_flip_ok n c w : flip_ok n c w -> flipping c = false -> let '(ok, c', w') := drm_page_flip c w in
  flip_ok n c' w' /\ flipping c' = ok /\ pixels w' = pixels w /\ on_screen w' = on_screen w /\
  fb_of c' (front_buf c') = (if ok then fb_of c (back_buf c) else fb_of c (front_buf c)) /\ buffers c' = buffers c /\ fb_ids c' = fb_ids c.
Proof.
  intros [H2 HL Hne HS Hsc] Ef. unfold drm_page_flip. rewrite Ef in *. cbv zeta. cbn [crtc_id front_buf back_buf fb_ids set_flip flipping].
  pose proof (queue_flip_law (crtc_id c) (nth (back_buf c) (fb_ids c) 0) w) as Hq. destruct (queue_flip _ _ w) as [ok w']. destruct Hq as (Hq & Hs & Hp & Hl).
  destruct Hsc as [Hn Hon]. destruct ok.
  - split; [|by rewrite Hp, Hs]. constructor; cbn; try done; [destruct H2 as [[-> ->]|[-> ->]]; auto|by rewrite Hl|by rewrite Hp|].
    split; [by rewrite Hq|by rewrite Hs, Hon].
  - split; [|by rewrite Hp, Hs]. constructor; cbn; try done; [by rewrite Hl|by rewrite Hp|]. rewrite Hq, Hs. done.
Qed.

(** The card completes a queued flip within [fuel] polls. *)
Fixpoint completes (fuel : nat) w : Prop :=
  match fuel with O => False | S f => let '(done_, w') := flip_event w in if done_ : bool then True else completes f w' end.
Context (fuel : nat).
Hypothesis completes_ok : forall w f, queued w = Some f -> completes fuel w.

Lemma wait_flip_ok n c w : flip_ok n c w -> exists c' w', drm_wait_flip fuel c w = Some (c', w') /\ flip_ok n c' w' /\ flipping c' = false /\
  buffers c' = buffers c /\ fb_ids c' = fb_ids c /\ front_buf c' = front_buf c /\ pixels w' = pixels w.
Proof.
  intros Hok. assert (Hc : flipping c = true -> completes fuel w) by (intros Ef; destruct Hok as [_ _ _ _ Hsc]; rewrite Ef in Hsc; destruct Hsc; by eapply completes_ok).
  clear completes_ok. revert c w Hok Hc. induction fuel as [|f IH]; intros c w Hok Hc.
  { exists c, w. cbn. destruct (flipping c) eqn:Ef; [by destruct (Hc eq_refl)|done]. }
  cbn [drm_wait_flip]. destruct (flipping c) eqn:Ef; [|exists c, w; done]. specialize (Hc eq_refl). cbn [completes] in Hc.
  pose proof (event_ok n c w Hok) as He. unfold drm_handle_event in *. destruct (flip_event w) as [[] w1].
  - destruct He as (Hok1 & E1 & E2 & E3 & E4 & _). exists (set_flip (front_buf c) (back_buf c) false c), w1. destruct f; cbn [drm_wait_flip set_flip flipping]; done.
  - destruct He as (Hok1 & E1 & E2 & E3 & E4 & _). destruct (IH c w1 Hok1 (fun _ => Hc)) as (c' & w' & Hw & Hok' & Hf & F1 & F2 & F3 & F4).
    exists c', w'. split_and!; try done; congruence.
Qed.

(** A flip when none is pending, with the frame in the buffer behind. *)
Lemma flip_behind n frame c w : flip_ok n c w -> flipping c = false -> pixels w (fb_of c (back_buf c)) = frame ->
  let '(ok, c', w') := drm_page_flip c w in
  flip_ok n c' w' /\ flipping c' = ok /\ pixels w' (fb_of c' (front_buf c')) = (if ok then frame else pixels w (fb_of c (front_buf c))) /\ picture w' = picture w /\
  (ok = false -> pixels w' (fb_of c' (back_buf c')) = frame).
Proof.
  intros Hok Ef Hp. pose proof (page_flip_ok n c w Hok Ef) as Hf.
  assert (Hb : (drm_page_flip c w).1.1 = false -> fb_of (drm_page_flip c w).1.2 (back_buf (drm_page_flip c w).1.2) = fb_of c (back_buf c)).
  { unfold drm_page_flip. rewrite Ef. cbv zeta. by destruct (queue_flip _ _ w) as [[] w']. }
  destruct (drm_page_flip c w) as [[ok c'] w']. destruct Hf as (Hok' & Hf' & P1 & P2 & P3 & _). unfold picture. rewrite P1, P2, P3.
  split_and!; try done; [by destruct ok|]. intros E. cbn [fst snd] in Hb. by rewrite (Hb E).
Qed.

(** A frame is copied behind and a flip is asked for, twice if the first is not
    taken; a pending flip is waited for.  When the card takes the flip the frame
    is the next picture, else the picture that was in front stays; unless a flip
    was pending the picture on the screen is not touched. *)
Lemma present_ok n frame c w : flip_ok n c w -> zlen frame = n -> exists c' w', present fuel frame c w = Some (c', w') /\
  flip_ok n c' w' /\ pixels w' (fb_of c' (front_buf c')) = (if flipping c' then frame else pixels w (fb_of c (front_buf c))) /\
  (flipping c = false -> picture w' = picture w).
Proof.
  intros Hok Hn. destruct (store_back n frame c w Hok Hn) as (Hok1 & Hpx & Hpic & Hfr). unfold present. fold (addr_of c (back_buf c)).
  set (w1 := store _ frame w) in *. cbv zeta. destruct (flipping c) eqn:Ef.
  - assert (E0 : drm_page_flip c w1 = (false, c, w1)) by (unfold drm_page_flip; by rewrite Ef). rewrite E0.
    destruct (wait_flip_ok n c w1 Hok1) as (c2 & w2 & -> & Hok2 & Hf2 & E1 & E2 & E3 & E4). cbn [mbind option_bind].
    assert (Eb : back_buf c2 = back_buf c) by (destruct Hok as [H2 _ _ _ _], Hok2 as [H2' _ _ _ _]; destruct H2 as [[? ?]|[? ?]], H2' as [[? ?]|[? ?]]; congruence).
    pose proof (flip_behind n frame c2 w2 Hok2 Hf2) as Hp. unfold fb_of in Hp. rewrite E4, E2, Eb, E3 in Hp. specialize (Hp Hpx).
    destruct (drm_page_flip c2 w2) as [[ok c3] w3]. destruct Hp as (Hok3 & <- & P & _). exists c3, w3. split; [done|]. split; [done|]. split; [|done].
    unfold fb_of in *. by rewrite P, Hfr.
  - pose proof (flip_behind n frame c w1 Hok1 Ef Hpx) as Hp. destruct (drm_page_flip c w1) as [[ok c2] w2]. destruct Hp as (Hok2 & Hf2 & P & Q & Hr).
    destruct ok; [exists c2, w2; rewrite Hf2; split_and!; try done; intros _; by rewrite Q, Hpic|].
    assert (Ew : drm_wait_flip fuel c2 w2 = Some (c2, w2)) by (destruct fuel; cbn [drm_wait_flip]; by rewrite Hf2). rewrite Ew. cbn [mbind option_bind].
    pose proof (flip_behind n frame c2 w2 Hok2 Hf2 (Hr eq_refl)) as Hp. destruct (drm_page_flip c2 w2) as [[ok c3] w3].
    destruct Hp as (Hok3 & <- & P' & Q' & _). exists c3, w3. split; [done|]. split; [done|]. split; [by rewrite P', P, Hfr|]. intros _. by rewrite Q', Q, Hpic.
Qed.

(** One pass of the server as the card sees it: an event is read when the poll
    says so, then the frame is presented. *)
Definition show_pass (pass : bool * list Z) (cw : vdm_drm_t * W) : option (vdm_drm_t * W) :=
  let '(c, w) := if pass.1 then drm_handle_event cw.1 cw.2 else cw in present fuel pass.2 c w.
Fixpoint show_passes (l : list (bool * list Z)) (cw : vdm_drm_t * W) : option (vdm_drm_t * W) :=
  match l with [] => Some cw | p :: l' => cw ← show_pass p cw; show_passes l' cw end.

(** The frame whose flip the card took last; [front] when it took none. *)
Fixpoint last_taken (l : list (bool * list Z)) (cw : vdm_drm_t * W) (front : list Z) : list Z :=
  match l with
  | [] => front
  | p :: l' => match show_pass p cw with Some (c, w) => last_taken l' (c, w) (if flipping c then p.2 else front) | None => front end
  end.

Lemma show_pass_ok n polled frame c w : flip_ok n c w -> zlen frame = n -> exists c' w', show_pass (polled, frame) (c, w) = Some (c', w') /\
  flip_ok n c' w' /\ pixels w' (fb_of c' (front_buf c')) = (if flipping c' then frame else pixels w (fb_of c (front_buf c))).
Proof.
  intros Hok Hn. unfold show_pass. cbn [fst snd].
  assert (H1 : exists c1 w1, (if polled then drm_handle_event c w else (c, w)) = (c1, w1) /\ flip_ok n c1 w1 /\
    pixels w1 (fb_of c1 (front_buf c1)) = pixels w (fb_of c (front_buf c))).
  { destruct polled; [|eauto]. pose proof (event_ok n c w Hok) as He. destruct (drm_handle_event c w) as [c1 w1].
    destruct He as (He & _ & E2 & E3 & E4 & _). exists c1, w1. unfold fb_of. by rewrite E2, E3, E4. }
  destruct H1 as (c1 & w1 & -> & Hok1 & <-). destruct (present_ok n frame c1 w1 Hok1 Hn) as (c2 & w2 & -> & Hok2 & Hp & _). eauto.
Qed.

Lemma show_passes_ok n l : forall c w, flip_ok n c w -> Forall (fun p => zlen p.2 = n) l -> exists c' w', show_passes l (c, w) = Some (c', w') /\
  flip_ok n c' w' /\ pixels w' (fb_of c' (front_buf c')) = last_taken l (c, w) (pixels w (fb_of c (front_buf c))).
Proof.
  induction l as [|[polled frame] l IH]; intros c w Hok Hl; [by exists c, w|]. apply Forall_cons in Hl as [Hf Hl]. cbn [show_passes last_taken].
  destruct (show_pass_ok n polled frame c w Hok Hf) as (c1 & w1 & -> & Hok1 & Hp1). cbn [mbind option_bind snd]. rewrite <- Hp1. by apply IH.
Qed.

Lemma show_passes_app l l' cw : show_passes (l ++ l') cw = show_passes l cw ≫= show_passes l'.
Proof. revert cw. induction l as [|p l IH]; intros cw; cbn [app show_passes]; [done|]. destruct (show_pass p cw); [apply IH|done]. Qed.

Lemma last_taken_snoc l p cw cw1 c2 w2 front : show_passes l cw = Some cw1 -> show_pass p cw1 = Some (c2, w2) ->
  last_taken (l ++ [p]) cw front = (if flipping c2 then p.2 else last_taken l cw front).
Proof.
  revert cw front. induction l as [|q l IH]; intros cw front; cbn [app show_passes last_taken].
  - intros [= ->] ->. done.
  - destruct (show_pass q cw) as [[c w]|]; [|done]. cbn [mbind option_bind]. apply IH.
Qed.

(** C30: Double buffering, on a card that may refuse a flip but completes one it
    has taken within the polls of a wait.  Whatever passes the server makes from a
    state where the two buffers have their roles, with events read or not and
    flips taken or refused, every call returns and the buffers keep their roles:
    one is in front or queued, the other is behind.  Once the pending flip has
    completed the screen shows exactly the frame whose flip was taken last: the
    frame of the last pass when its flip was taken (the flag [flipping] is set
    then), and otherwise what the passes before it leave.  (A frame may be
    overwritten before that flip completes: [pending_frame_is_overwritten].) *)
Theorem frames_are_shown n c w l polled frame :
  flip_ok n c w -> Forall (fun p => zlen p.2 = n) (l ++ [(polled, frame)]) ->
  exists c1 w1 c2 w2, show_passes (l ++ [(polled, frame)]) (c, w) = Some (c1, w1) /\ flip_ok n c1 w1 /\
    drm_wait_flip fuel c1 w1 = Some (c2, w2) /\ flip_ok n c2 w2 /\
    picture w2 = if flipping c1 then frame else last_taken l (c, w) (pixels w (fb_of c (front_buf c))).
Proof.
  intros Hok Hl. destruct (show_passes_ok n _ c w Hok Hl) as (c1 & w1 & E1 & Hok1 & Hp1).
  destruct (wait_flip_ok n c1 w1 Hok1) as (c2 & w2 & E2 & Hok2 & Hf2 & F1 & F2 & F3 & F4). exists c1, w1, c2, w2. split_and!; try done.
  assert (Hpic : picture w2 = pixels w1 (fb_of c1 (front_buf c1))).
  { unfold picture. destruct Hok2 as [_ _ _ _ Hsc]. rewrite Hf2 in Hsc. destruct Hsc as [_ ->]. rewrite F4, F3. unfold fb_of. by rewrite F2. }
  rewrite Hpic, Hp1. apply Forall_app in Hl as [Hl Hf]. destruct (show_passes_ok n l c w Hok Hl) as (c0 & w0 & E0 & Hok0 & _).
  eapply last_taken_snoc; [exact E0|]. revert E1. rewrite show_passes_app, E0. cbn [mbind option_bind show_passes]. by destruct (show_pass _ _).
Qed.
End Flip.

(** ** A card *)

(** Memory by address, which is also the number of its frame buffer; a flip
    completes at the next poll. *)
Record card := Card { vram : gmap Z (list Z); scanout : Z; flip_to : option Z }.
Definition vram_at (w : card) (f : Z) : list Z := default [] (vram w !! f).
#[export] Instance card_dev : DrmDev card := {|
  create_dumb _ _ w := (None, w); destroy_dumb _ w := w; add_fb _ _ w := (None, w); rm_fb _ w := w; map_dumb _ w := (None, w);
  mmap _ _ w := (None, w); munmap _ _ w := w;
  store a px w := Card (<[a := px ++ drop (length px) (vram_at w a)]> (vram w)) (scanout w) (flip_to w);
  set_crtc _ f _ w := (true, Card (vram w) f (flip_to w));
  queue_flip _ f w := match flip_to w with None => (true, Card (vram w) (scanout w) (Some f)) | Some _ => (false, w) end;
  flip_event w := match flip_to w with Some f => (true, Card (vram w) f None) | None => (false, w) end;
  release w := w |}.
#[export] Instance card_flip : DrmFlip card.
Proof.
  refine {| linked w a f := a = f; pixels := vram_at; on_screen := scanout; queued := flip_to |}.
  - intros a f px w <- _. cbn [store card_dev]. unfold vram_at. cbn [vram scanout flip_to]. split_and!; [by rewrite lookup_insert_eq| |done|done|done]. intros g Hg. by rewrite lookup_insert_ne.
  - intros c f w. unfold queue_flip. cbn. destruct (flip_to w) eqn:E; cbn; rewrite ?E; split_and!; reflexivity.
  - intros w. unfold flip_event. cbn. destruct (flip_to w) eqn:E; cbn; rewrite ?E; split_and!; reflexivity.
Defined.

Definition card_ctx : vdm_drm_t := Drm 3 1 1 0 0 2 1 8 0 1 [10; 11] [10; 11] [5; 6] false.
Definition card_start : card := Card (<[10 := [0; 0]]> (<[11 := [0; 0]]> ∅)) 10 None.
Lemma card_ok : flip_ok 2 card_ctx card_start.
Proof. constructor; cbn; auto. Qed.

Lemma frames_are_shown_witness :
  exists c1 w1 c2 w2, show_passes (W := card) 1 ([(true, [1; 2]); (false, [3; 4])] ++ [(false, [5; 6])]) (card_ctx, card_start) = Some (c1, w1) /\ flip_ok 2 c1 w1 /\
    drm_wait_flip 1 c1 w1 = Some (c2, w2) /\ flip_ok 2 c2 w2 /\
    picture w2 = if flipping c1 then [5; 6] else last_taken 1 [(true, [1; 2]); (false, [3; 4])] (card_ctx, card_start) (pixels card_start (fb_of card_ctx (front_buf card_ctx))).
Proof.
  apply (frames_are_shown (W := card) 1).
  - intros w f Hq. cbn in *. by rewrite Hq.
  - exact card_ok.
  - repeat constructor.
Defined.
(** On this card every flip is taken. *)
Example last_frame_shown : (fun cw => vram_at cw.2 (scanout cw.2)) <$>
  (show_passes (W := card) 1 [(true, [1; 2]); (false, [3; 4]); (false, [5; 6])] (card_ctx, card_start) ≫= fun cw => drm_wait_flip 1 cw.1 cw.2) = Some [5; 6].
Proof. reflexivity. Qed.

(** ** What the driver gets wrong *)

(** While a flip is pending the buffer behind is the one on the screen, and the
    next frame is copied into it before the flip is waited for. *)
Lemma pending_frame_is_overwritten :
  let w1 := match present 1 [1; 2] card_ctx card_start with Some (_, w) => w | None => card_start end in
  let c1 := match present 1 [1; 2] card_ctx card_start with Some (c, _) => c | None => card_ctx end in
  picture w1 = [0; 0] /\ picture (store (nth (back_buf c1) (buffers c1) 0) [3; 4] w1) = [3; 4].
Proof. split; reflexivity. Qed.

(** A mode without a usable controller is accepted: its number stays 0. *)
Lemma no_crtc_is_accepted :
  let r := Resources [Some (Connector 7 true [(640, 480)] 9)] [Some (Encoder 9 2)] [(40, true)] None in
  (crtc_id <$> drm_set_mode (Some r) (drm0 3)) = Some 0.
Proof. reflexivity. Qed.

(** ** The virtual terminal ([tty.c]) *)

(** The console, with the answers of [open] and of the three requests; each
    request may fail and then changes nothing. *)
Record vt := Vt { graphics : bool; termios : Z; open_fds : list Z }.
Record vt_sys := VtSys { open_tty : list Z -> Z; tcgets_ok : bool; set_mode_ok : bool -> bool; tcsets_ok : bool }.
Record tty_ctx_t := Tty { t_fd : Z; active : bool; orig_termios : Z; termios_saved : bool }.

Definition tty_save_state (sys : vt_sys) (t : tty_ctx_t) (v : vt) : tty_ctx_t :=
  if t_fd t <? 0 then t else if tcgets_ok sys then Tty (t_fd t) (active t) (termios v) true else t.

Definition set_kd_mode (sys : vt_sys) (g : bool) (v : vt) : vt := if set_mode_ok sys g then Vt g (termios v) (open_fds v) else v.
Definition tty_setup_graphics (sys : vt_sys) (t : tty_ctx_t) (v : vt) : vt :=
  if t_fd t <? 0 then v else set_kd_mode sys true v.

Definition tty_restore_text (sys : vt_sys) (t : tty_ctx_t) (v : vt) : vt :=
  if t_fd t <? 0 then v
  else
    let v := set_kd_mode sys false v in
    if termios_saved t && tcsets_ok sys then Vt (graphics v) (orig_termios t) (open_fds v) else v.

Definition tty0 : list Z := [47; 100; 101; 118; 47; 116; 116; 121; 48].
Definition tty1 : list Z := [47; 100; 101; 118; 47; 116; 116; 121; 49].
Definition tty_init (sys : vt_sys) (v : vt) : tty_ctx_t * vt :=
  let f0 := open_tty sys tty0 in
  let f := if f0 <? 0 then open_tty sys tty1 else f0 in
  if f <? 0 then (Tty f true 0 false, v)
  else
    let v := Vt (graphics v) (termios v) (f :: open_fds v) in
    let t := tty_save_state sys (Tty f false 0 false) v in
    let v := tty_setup_graphics sys t v in
    (Tty (t_fd t) true (orig_termios t) (termios_saved t), v).

Definition tty_shutdown (sys : vt_sys) (t : tty_ctx_t) (v : vt) : tty_ctx_t * vt :=
  if negb (active t) then (t, v)
  else
    let v := tty_restore_text sys t v in
    let '(f, v) := if 0 <=? t_fd t then (-1, Vt (graphics v) (termios v) (List.remove Z.eq_dec (t_fd t) (open_fds v))) else (t_fd t, v) in
    (Tty f false (orig_termios t) (termios_saved t), v).

(** Whatever the session did to the mode and the line settings ([v2]), shutting
    down after an initialisation whose requests succeed puts back text mode and
    the settings found at the start, and closes the terminal; a second shutdown
    does nothing. *)
Theorem tty_is_restored sys v t v1 g s :
  0 <= open_tty sys tty0 -> tcgets_ok sys = true -> tcsets_ok sys = true -> (forall m, set_mode_ok sys m = true) ->
  ~ In (open_tty sys tty0) (open_fds v) -> tty_init sys v = (t, v1) ->
  graphics v1 = true /\
  exists t', tty_shutdown sys t (Vt g s (open_fds v1)) = (t', Vt false (termios v) (open_fds v)) /\ forall v3, tty_shutdown sys t' v3 = (t', v3).
Proof.
  intros Hf Hg Hs Hm Hn. unfold tty_init. set (f := open_tty sys tty0) in *. assert (E : (f <? 0) = false) by lia. assert (E' : (0 <=? f) = true) by lia.
  rewrite E. cbv zeta. rewrite E. unfold tty_save_state, tty_setup_graphics, set_kd_mode. cbn [t_fd]. rewrite E, Hg. cbn [t_fd]. rewrite E, Hm.
  cbn. intros [= <- <-]. cbn. split; [done|]. unfold tty_shutdown, tty_restore_text, set_kd_mode. cbn -[List.remove].
  rewrite E, Hm, Hs, E'. cbn. exists (Tty (-1) false (termios v) true). split; [|done].
  destruct (Z.eq_dec f f) as [_|]; [|done]. by rewrite notin_remove.
Qed.

(** Without a terminal the server still runs and shutting down touches nothing. *)
Lemma no_tty_is_harmless sys v : open_tty sys tty0 < 0 -> open_tty sys tty1 < 0 ->
  (tty_init sys v).2 = v /\ active (tty_init sys v).1 = true /\ (tty_shutdown sys (tty_init sys v).1 v).2 = v.
Proof.
  intros H0 H1. assert (E0 : (open_tty sys tty0 <? 0) = true) by lia. assert (E1 : (open_tty sys tty1 <? 0) = true) by lia. assert (E2 : (0 <=? open_tty sys tty1) = false) by lia.
  unfold tty_init, tty_shutdown, tty_restore_text. rewrite E0. cbv zeta. rewrite E1. cbn. rewrite E1, E2. done.
Qed.
