(* ===== verification/DisplayServer.v ===== *)
(** * The display server's clients, input and main loop
      ([vdm/project/display-server/socket.c], [input.c], [main.c], and
      [compositor_route_input] of [compositor.c])

    What the kernel and the input libraries deliver is an argument: the result of
    [accept], the bytes of a message, the events of libinput with the text xkb
    made of a key, the poll results.  Messages to clients are an output list. *)

From Stdlib Require Import ZArith Lia.
From stdpp Require Import base numbers list list_numbers option gmap fin_maps relations.
From S2P Require Import Prelude CLib Windows Compositor.

Notation MAX_CLIENTS := 64 (only parsing).

(** ** Clients *)

Record client_t := MkClient { fd : Z; cpid : Z; active : bool }.
Definition client_zero : client_t := MkClient 0 0 false.

Record socket_server_t := MkSrv { clients : list client_t; client_count : Z }.
Definition server_zero : socket_server_t := MkSrv (replicate 64 client_zero) 0.

Definition client_at (s : socket_server_t) (i : Z) : client_t := aget client_zero (clients s) i.

Fixpoint first_free (cs : list client_t) (i : Z) : option Z :=
  match cs with
  | [] => None
  | c :: cs' => if negb (active c) then Some i else first_free cs' (i + 1)
  end.

(** [os]: the descriptor [accept] returned and the peer's pid, each if obtained. *)
Definition socket_server_accept (os : option (Z * option Z)) (s : socket_server_t) : Z * socket_server_t :=
  match os with
  | None => (-1, s)
  | Some (f, cred) =>
      match first_free (clients s) 0 with
      | None => (-1, s)
      | Some i =>
          (i, MkSrv (aset (clients s) i (MkClient f (default 0 cred) true)) (client_count s + 1))
      end
  end.

Definition socket_server_shutdown (s : socket_server_t) : socket_server_t :=
  MkSrv (map (fun c => MkClient (fd c) (cpid c) false) (clients s)) (client_count s).

(** ** Messages *)

Inductive client_msg :=
  | MSG_CREATE_WINDOW (w h : Z) (ttl : cstr)
  | MSG_COMMIT_BUFFER (wid : Z)
  | MSG_DESTROY_WINDOW (wid : Z)
  | MSG_MOVE_WINDOW (wid nx ny : Z)
  | MSG_UNKNOWN (ty : Z).

Inductive server_msg :=
  | MSG_WINDOW_CREATED (wid shm : Z)
  | MSG_WINDOW_CLOSE (wid : Z)
  | MSG_KEY_EVENT (wid keycode pressed : Z) (text : list Z)
  | MSG_MOUSE_MOVE (wid mx my : Z)
  | MSG_MOUSE_BUTTON (wid button pressed : Z).

(** A message sent: the descriptor it goes to, and the message. *)
Notation sends := (list (Z * server_msg)) (only parsing).

(** [None]: a [NULL] window is dereferenced.  [m] is [None] when the peek or the
    read that follows it comes up short; [os] is the outcome of [shm_create]. *)
Definition handle_client_message (s : socket_server_t) (ci : Z) (os : option Z) (m : option client_msg)
    (wm : window_manager_t) : option (Z * window_manager_t * sends) :=
  match m with
  | None => Some (-1, wm, [])
  | Some (MSG_CREATE_WINDOW w h ttl) =>
      let '(win_id, wm) := window_create os ci (cpid (client_at s ci)) (i32 w) (i32 h) ttl wm in
      if win_id <? 0 then Some (0, wm, [(fd (client_at s ci), MSG_WINDOW_CLOSE 0)])
      else
        i ← window_find wm (u32 win_id);
        Some (0, wm, [(fd (client_at s ci), MSG_WINDOW_CREATED (u32 win_id) (shm_fd (buffer (win_at wm i))))])
  | Some (MSG_COMMIT_BUFFER wid) =>
      match window_find wm wid with
      | None => Some (0, wm, [])
      | Some _ => Some (0, window_mark_committed wid wm, [])
      end
  | Some (MSG_DESTROY_WINDOW wid) => Some (0, window_destroy wid wm, [])
  | Some (MSG_MOVE_WINDOW wid nx ny) => Some (0, window_move wid nx ny wm, [])
  | Some (MSG_UNKNOWN _) => Some (-1, wm, [])
  end.

Definition destroy_if_owned (ci i : Z) (wm : window_manager_t) : window_manager_t :=
  if visible (win_at wm i) && (client_idx (win_at wm i) =? ci)
  then window_destroy (id (win_at wm i)) wm else wm.
Definition handle_client_disconnect (ci : Z) (s : socket_server_t) (wm : window_manager_t) :
    socket_server_t * window_manager_t :=
  (MkSrv (aset (clients s) ci (MkClient (-1) (cpid (client_at s ci)) false)) (client_count s - 1),
   for_ 0 MAX_WINDOWS (destroy_if_owned ci) wm).

(** ** Input *)

Record input_ctx_t := MkInput {
  xkb_state : bool;
  mouse_x : Z; mouse_y : Z;
  last_keycode : Z; last_key_pressed : Z;
  last_button : Z; last_button_pressed : Z;
  has_mouse_event : bool; has_key_event : bool; want_exit : bool;
  ctrl_held : bool; alt_held : bool;
  last_text : list Z;
}.

Inductive li_event :=
  | LI_KEY (keycode : Z) (pressed : bool) (text : list Z)   (* text: what xkb made of the key *)
  | LI_MOTION (dx dy : Z)                                   (* already truncated to int *)
  | LI_BUTTON (button : Z) (pressed : bool)
  | LI_MOTION_ABSOLUTE (ax ay : Z)
  | LI_OTHER.

Definition b2z (b : bool) : Z := if b then 1 else 0.

Definition handle_keyboard_key (keycode : Z) (pressed : bool) (text : list Z) (i : input_ctx_t) : input_ctx_t :=
  let ctrl := if (keycode =? 29) || (keycode =? 97) then pressed else ctrl_held i in
  let alt := if (keycode =? 29) || (keycode =? 97) then alt_held i
             else if (keycode =? 56) || (keycode =? 100) then pressed else alt_held i in
  if (keycode =? 14) && pressed && ctrl && alt
  then MkInput (xkb_state i) (mouse_x i) (mouse_y i) (last_keycode i) (last_key_pressed i)
         (last_button i) (last_button_pressed i) (has_mouse_event i) (has_key_event i) true ctrl alt (last_text i)
  else
    let text := if xkb_state i && pressed then take 8 text else last_text i in
    MkInput (xkb_state i) (mouse_x i) (mouse_y i) keycode (b2z pressed)
      (last_button i) (last_button_pressed i) (has_mouse_event i) true (want_exit i) ctrl alt text.

Definition at_mouse (mx my : Z) (i : input_ctx_t) : input_ctx_t :=
  MkInput (xkb_state i) mx my (last_keycode i) (last_key_pressed i) (last_button i) (last_button_pressed i)
    true (has_key_event i) (want_exit i) (ctrl_held i) (alt_held i) (last_text i).

Definition handle_pointer_motion (dx dy : Z) (i : input_ctx_t) : input_ctx_t :=
  let mx := i32 (mouse_x i + dx) in
  let my := i32 (mouse_y i + dy) in
  at_mouse (if mx <? 0 then 0 else mx) (if my <? 0 then 0 else my) i.

Definition handle_pointer_button (button : Z) (pressed : bool) (i : input_ctx_t) : input_ctx_t :=
  MkInput (xkb_state i) (mouse_x i) (mouse_y i) (last_keycode i) (last_key_pressed i) button (b2z pressed)
    true (has_key_event i) (want_exit i) (ctrl_held i) (alt_held i) (last_text i).

Definition handle_pointer_motion_absolute (ax ay : Z) (i : input_ctx_t) : input_ctx_t := at_mouse ax ay i.

Definition handle_event (e : li_event) (i : input_ctx_t) : input_ctx_t :=
  match e with
  | LI_KEY k p t => handle_keyboard_key k p t i
  | LI_MOTION dx dy => handle_pointer_motion dx dy i
  | LI_BUTTON b p => handle_pointer_button b p i
  | LI_MOTION_ABSOLUTE ax ay => handle_pointer_motion_absolute ax ay i
  | LI_OTHER => i
  end.
Definition is_counted (e : li_event) : bool := match e with LI_OTHER => false | _ => true end.
Definition input_dispatch (es : list li_event) (i : input_ctx_t) : Z * input_ctx_t :=
  (zlen (filter (fun e => is_counted e = true) es),
   fold_left (fun i e => handle_event e i) es i).

Definition clear_mouse (i : input_ctx_t) : input_ctx_t :=
  MkInput (xkb_state i) (mouse_x i) (mouse_y i) (last_keycode i) (last_key_pressed i) (last_button i)
    (last_button_pressed i) false (has_key_event i) (want_exit i) (ctrl_held i) (alt_held i) (last_text i).
Definition clear_key (i : input_ctx_t) : input_ctx_t :=
  MkInput (xkb_state i) (mouse_x i) (mouse_y i) (last_keycode i) (last_key_pressed i) (last_button i)
    (last_button_pressed i) (has_mouse_event i) false (want_exit i) (ctrl_held i) (alt_held i) (last_text i).

(** ** Routing *)

Definition compositor_route_input (wm : window_manager_t) (c : compositor_t) (i : input_ctx_t) :
    compositor_t * input_ctx_t :=
  if negb (has_mouse_event i) then (c, i)
  else
    let cx := mouse_x i in
    let cy := mouse_y i in
    let cx := if cx <? 0 then 0 else cx in
    let cy := if cy <? 0 then 0 else cy in
    let cx := if drm_w c <=? cx then drm_w c - 1 else cx in
    let cy := if drm_h c <=? cy then drm_h c - 1 else cy in
    let focus := match window_find_at wm cx cy with
                 | Some k => i32 (id (win_at wm k))
                 | None => -1
                 end in
    (with_cursor c cx cy focus, clear_mouse i).

Definition send_event_to_client (s : socket_server_t) (ci : Z) (m : server_msg) : sends :=
  if (ci <? 0) || (MAX_CLIENTS <=? ci) then []
  else if negb (active (client_at s ci)) then []
  else [(fd (client_at s ci), m)].

Definition broadcast_key (s : socket_server_t) (wm : window_manager_t) (focus : Z) (i : input_ctx_t) : sends :=
  match window_find wm (u32 focus) with
  | Some k =>
      let w := win_at wm k in
      send_event_to_client s (client_idx w)
        (MSG_KEY_EVENT (id w) (last_keycode i) (last_key_pressed i) (last_text i))
  | None => []
  end.
Definition broadcast_mouse (s : socket_server_t) (wm : window_manager_t) (i : input_ctx_t) : sends :=
  match window_find_at wm (mouse_x i) (mouse_y i) with
  | Some k =>
      let w := win_at wm k in
      send_event_to_client s (client_idx w)
        (MSG_MOUSE_MOVE (id w) (i32 (mouse_x i - x w)) (i32 (mouse_y i - y w))) ++
      (if negb (last_button_pressed i =? 0)
       then send_event_to_client s (client_idx w) (MSG_MOUSE_BUTTON (id w) (last_button i) (last_button_pressed i))
       else [])
  | None => []
  end.
Definition broadcast_input_events (s : socket_server_t) (wm : window_manager_t) (focus : Z) (i : input_ctx_t) :
    input_ctx_t * sends :=
  let '(i, out1) := if has_key_event i then (clear_key i, broadcast_key s wm focus i) else (i, []) in
  let '(i, out2) := if has_mouse_event i then (clear_mouse i, broadcast_mouse s wm i) else (i, []) in
  (i, out1 ++ out2).

(** ** One pass of the main loop *)

Notation POLLIN := 1 (only parsing).
Notation POLLERR := 8 (only parsing).
Notation POLLHUP := 16 (only parsing).

Definition has (bits r : Z) : bool := negb (Z.land r bits =? 0).

Definition sst : Type := (socket_server_t * window_manager_t)%type.

(** What the outside delivers in one pass: the poll result per entry of [pfds],
    the accepted connection, each client's next message with the outcome of its
    allocation, and the input events. *)
Record world := MkWorld {
  revents : list Z;
  incoming : option (Z * option Z);
  message : Z -> option client_msg;
  alloc : Z -> option Z;
  events : list li_event;
}.

(** One served client: hang-up, or a message whose failure also disconnects. *)
Definition serve_client (wd : world) (i r : Z) (st : sst) : option (sst * sends) :=
  if has (Z.lor (Z.lor POLLIN POLLHUP) POLLERR) r
  then
    if has POLLHUP r || has POLLERR r
    then Some (handle_client_disconnect i st.1 st.2, [])
    else
      '(ret, wm, out) ← handle_client_message st.1 i (alloc wd i) (message wd i) st.2;
      Some (if ret <? 0 then handle_client_disconnect i st.1 wm else (st.1, wm), out)
  else Some (st, []).

(** [for(i=0;i<MAX_CLIENTS&&pfd_idx<nfds-2;i++)] from slot [i] on. *)
Fixpoint serve_loop (n : nat) (wd : world) (i pfd_idx nfds : Z) (st : sst) : option (sst * Z * sends) :=
  match n with
  | O => Some (st, pfd_idx, [])
  | S n' =>
      if nfds - 2 <=? pfd_idx then Some (st, pfd_idx, [])
      else if negb (active (client_at st.1 i)) then serve_loop n' wd (i + 1) pfd_idx nfds st
      else
        '(st, out) ← serve_client wd i (aget 0 (revents wd) pfd_idx) st;
        '(st, k, out') ← serve_loop n' wd (i + 1) (pfd_idx + 1) nfds st;
        Some (st, k, out ++ out')
  end.

Record server := MkServer {
  srv : socket_server_t; swm : window_manager_t; comp : compositor_t; input : input_ctx_t;
  libinput : bool; running : bool;
}.

(** The number of [pfds]: the listening socket, the clients, libinput, the card. *)
Definition count_active (s : socket_server_t) : Z := zlen (filter (fun c => active c = true) (clients s)).
Definition poll_count (sv : server) : Z := 1 + count_active (srv sv) + b2z (libinput sv) + 1.

(** The first half: a new connection, then the clients that have something. *)
Definition serve_pass (wd : world) (sv : server) : option (sst * Z * sends) :=
  let s := if has POLLIN (aget 0 (revents wd) 0)
           then (socket_server_accept (incoming wd) (srv sv)).2 else srv sv in
  serve_loop 64 wd 0 1 (poll_count sv) (s, swm sv).

Definition main_pass (wd : world) (sv : server) : option (server * sends) :=
  let nfds := poll_count sv in
  '((s, wm), k, out) ← serve_pass wd sv;
  let inp := if libinput sv && (k <? nfds - 1) && has POLLIN (aget 0 (revents wd) k)
             then (input_dispatch (events wd) (input sv)).2 else input sv in
  let '(c, inp) := compositor_route_input wm (comp sv) inp in
  let '(inp, out') := broadcast_input_events s wm (focused_window_id c) inp in
  '(c, wm) ← compositor_render c wm;
  Some (MkServer s wm c inp (libinput sv) (if want_exit inp then false else running sv), out ++ out').

(** ** Invariant: every window belongs to a connected client *)

Definition owned (s : socket_server_t) (wm : window_manager_t) : Prop :=
  forall k w, wm_map wm !! k = Some w ->
    0 <= client_idx w < MAX_CLIENTS /\ active (client_at s (client_idx w)) = true.

Record srv_ok (st : sst) : Prop := {
  so_slots : length (clients st.1) = 64%nat;
  so_count : client_count st.1 = count_active st.1;
  so_wm : wm_ok st.2;
  so_owned : owned st.1 st.2;
}.

Lemma client_lookup s i : length (clients s) = 64%nat -> 0 <= i < MAX_CLIENTS ->
  clients s !! Z.to_nat i = Some (client_at s i).
Proof.
  intros Hl Hi. destruct (lookup_lt_is_Some_2 (clients s) (Z.to_nat i)) as [c Hc]; [lia|].
  unfold client_at, aget. by rewrite nth_lookup, Hc.
Qed.

Lemma client_at_aset s i c j n :
  length (clients s) = 64%nat -> 0 <= i < MAX_CLIENTS -> 0 <= j ->
  client_at (MkSrv (aset (clients s) i c) n) j = if decide (j = i) then c else client_at s j.
Proof.
  intros Hl Hi Hj. unfold client_at. cbn [clients]. case_decide as E.
  - subst j. apply aget_aset_eq. unfold zlen. lia.
  - apply aget_aset_ne; lia.
Qed.

Lemma first_free_Some cs i0 i :
  first_free cs i0 = Some i ->
  exists n c, i = i0 + Z.of_nat n /\ cs !! n = Some c /\ active c = false.
Proof.
  revert i0. induction cs as [|c cs IH]; intros i0; cbn [first_free]; [done|].
  destruct (active c) eqn:E; cbn [negb].
  - intros (n & d & -> & Hd & Ha)%IH. exists (S n), d. by split_and!; [lia| |].
  - intros [= <-]. exists 0%nat, c. by split_and!; [lia| |].
Qed.

Lemma count_active_aset s i c n :
  length (clients s) = 64%nat -> 0 <= i < MAX_CLIENTS ->
  count_active (MkSrv (aset (clients s) i c) n) =
  count_active s - b2z (active (client_at s i)) + b2z (active c).
Proof.
  intros Hl Hi. unfold count_active, aset, b2z. cbn [clients].
  by rewrite (zlen_filter_insert active _ _ (client_at s i)) by (by apply client_lookup).
Qed.

Lemma accept_ok os s wm :
  srv_ok (s, wm) -> srv_ok ((socket_server_accept os s).2, wm).
Proof.
  intros [H1 H2 H3 H4]. cbn [fst snd] in *. unfold socket_server_accept.
  destruct os as [[f cred]|]; [|by constructor].
  destruct (first_free (clients s) 0) as [i|] eqn:E; [|by constructor].
  apply first_free_Some in E as (n & c & -> & Hc & Ha). rewrite Z.add_0_l.
  assert (Hn : 0 <= Z.of_nat n < MAX_CLIENTS) by (apply lookup_lt_Some in Hc; lia).
  assert (Ec : client_at s (Z.of_nat n) = c) by (unfold client_at, aget; by rewrite Nat2Z.id, nth_lookup, Hc).
  constructor; cbn [fst snd clients client_count].
  - unfold aset. by rewrite length_insert.
  - rewrite count_active_aset by done. rewrite Ec, Ha, H2. cbn [active b2z]. lia.
  - done.
  - intros k w Hw. destruct (H4 k w Hw) as [Hr Hact]. split; [done|].
    rewrite client_at_aset by (done || lia). by case_decide.
Qed.

(** *** Messages *)

Lemma owned_update s wm wm' f wid :
  owned s wm -> wm_map wm' = alter f wid (wm_map wm) -> (forall w, client_idx (f w) = client_idx w) -> owned s wm'.
Proof.
  intros Ho Em Hf k w. rewrite Em. destruct (decide (k = wid)) as [->|Hne].
  - rewrite lookup_alter_eq. intros (v & Hv & ->)%fmap_Some. rewrite Hf. by eapply Ho.
  - rewrite lookup_alter_ne by done. apply Ho.
Qed.

Lemma next_id_kept wm wid nx ny :
  next_id (window_destroy wid wm) = next_id wm /\ next_id (window_move wid nx ny wm) = next_id wm /\
  next_id (window_mark_committed wid wm) = next_id wm.
Proof.
  unfold window_destroy, window_move, window_mark_committed. by destruct (window_find wm wid).
Qed.

(** A window request of a connected client keeps the invariant, and the reply to
    a creation always finds the window it made. *)
Lemma message_ok s wm ci os m :
  srv_ok (s, wm) -> 0 <= ci < MAX_CLIENTS -> active (client_at s ci) = true -> next_id wm + 1 < 2^31 ->
  exists ret wm' out, handle_client_message s ci os m wm = Some (ret, wm', out) /\
    srv_ok (s, wm') /\ next_id wm <= next_id wm' <= next_id wm + 1.
Proof.
  intros Hok Hci Ha Hn. destruct (Hok) as [H1 H2 H3 H4]. cbn [fst snd] in *.
  assert (Hsame : forall wm', wm_ok wm' -> owned s wm' -> srv_ok (s, wm')) by (intros; by constructor).
  destruct m as [[w h ttl|wid|wid|wid nx ny|ty]|]; cbn [handle_client_message].
  - pose proof (window_create_spec os ci (cpid (client_at s ci)) (i32 w) (i32 h) ttl wm H3 ltac:(lia)) as Hc.
    destruct (window_create os ci _ (i32 w) (i32 h) ttl wm) as [r wm'].
    destruct Hc as (Hw' & Hid & [[-> Em]|(b & Hb & -> & Hnone & Em)]).
    + eexists _, _, _. split_and!; [done| |lia|lia]. apply Hsame; [done|]. intros k v. rewrite Em. apply H4.
    + pose proof (wm_next wm H3). rewrite i32_id by lia. case_test; [lia|]. rewrite u32_id by lia.
      destruct (window_find_spec wm' (next_id wm) Hw') as [[_ Hl]|(n & v & -> & _)].
      { rewrite Em, lookup_insert_eq in Hl. done. }
      cbn [mbind option_bind]. eexists _, _, _. split_and!; [done| |lia|lia]. apply Hsame; [done|].
      intros k v'. rewrite Em, lookup_insert_Some. intros [[_ <-]|[_ Hv]]; [by split|by eapply H4].
  - destruct (window_find wm wid); eexists _, _, _; (split; [done|]).
    + destruct (window_update_spec wm wid (with_commit true) H3) as [E1 E2]; [done|].
      destruct (next_id_kept wm wid 0 0) as (_ & _ & N). split_and!; [|lia..].
      apply Hsame; [done|]. by eapply owned_update.
    + split_and!; [done|lia|lia].
  - destruct (window_destroy_spec wm wid H3) as [E1 E2]. eexists _, _, _. split; [done|].
    destruct (next_id_kept wm wid 0 0) as (N & _ & _). split_and!; [|lia..].
    apply Hsame; [done|]. intros k v. rewrite E2, lookup_delete_Some. intros [_ Hv]. by eapply H4.
  - destruct (window_update_spec wm wid (with_xy nx ny) H3) as [E1 E2]; [done|]. eexists _, _, _. split; [done|].
    destruct (next_id_kept wm wid nx ny) as (_ & N & _). split_and!; [|lia..].
    apply Hsame; [done|]. by eapply owned_update.
  - eexists _, _, _. split_and!; [done|done|lia|lia].
  - eexists _, _, _. split_and!; [done|done|lia|lia].
Qed.

(** *** Disconnection *)

Lemma destroy_slot wm n w :
  wm_ok wm -> windows wm !! n = Some w -> visible w = true ->
  exists w', visible w' = false /\ windows (window_destroy (id w) wm) = <[n := w']> (windows wm).
Proof.
  intros Hok Hn Hv. unfold window_destroy.
  destruct (window_find_spec wm (id w) Hok) as [[_ Hl]|(m & v & -> & Hm & Hvm & Hid & _)].
  { unfold wm_map in Hl. by rewrite (shown_complete _ n w (wm_unique wm Hok) Hn Hv) in Hl. }
  assert (m = n) as -> by (eapply (wm_unique wm Hok m n v w); eauto).
  rewrite (win_at_nat wm n v), aset_nat by done. eexists. split; [|reflexivity]. done.
Qed.

(** After the slots below [i]: the windows left were there before, those of other
    clients are all left, and no slot below [i] shows a window of the client. *)
Definition disc_inv (ci : Z) (wm0 : window_manager_t) (i : Z) (wm : window_manager_t) : Prop :=
  wm_ok wm /\ next_id wm = next_id wm0 /\
  (forall k w, wm_map wm !! k = Some w -> wm_map wm0 !! k = Some w) /\
  (forall k w, wm_map wm0 !! k = Some w -> client_idx w <> ci -> wm_map wm !! k = Some w) /\
  (forall j w, (Z.of_nat j < i) -> windows wm !! j = Some w -> visible w = true -> client_idx w <> ci).

Lemma disc_step ci wm0 i wm :
  0 <= i < MAX_WINDOWS -> disc_inv ci wm0 i wm -> disc_inv ci wm0 (i + 1) (destroy_if_owned ci i wm).
Proof.
  intros Hi (I1 & I2 & I3 & I4 & I5).
  destruct (lookup_lt_is_Some_2 (windows wm) (Z.to_nat i)) as [w Hw]; [rewrite (wm_slots wm I1); lia|].
  assert (Ew : win_at wm i = w) by (rewrite <- (Z2Nat.id i) by lia; by apply win_at_nat).
  unfold destroy_if_owned. rewrite Ew.
  destruct (visible w && (client_idx w =? ci)) eqn:E.
  - apply andb_prop in E as [Hv Hc%Z.eqb_eq].
    destruct (window_destroy_spec wm (id w) I1) as [D1 D2].
    destruct (destroy_slot wm (Z.to_nat i) w I1 Hw Hv) as (w' & Hv' & Es).
    destruct (next_id_kept wm (id w) 0 0) as (N & _).
    assert (Hmap : wm_map wm !! id w = Some w) by (eapply shown_complete; [apply wm_unique| |]; eauto).
    split_and!; [done|congruence| | |].
    + intros k v. rewrite D2, lookup_delete_Some. intros [_ Hk]. by apply I3.
    + intros k v Hk Hne. rewrite D2, lookup_delete_Some. split; [|by apply I4].
      intros <-. pose proof (I3 _ _ Hmap). congruence.
    + intros j v Hj. rewrite Es. intros [(<- & <- & _)|[Hne Hv0]]%list_lookup_insert_Some; [congruence|].
      intros Hvis. eapply I5; [|exact Hv0|done]. lia.
  - split_and!; [done|done|done|done|]. intros j v Hj Hv Hvis.
    destruct (decide (j = Z.to_nat i)) as [->|Hne]; [|eapply I5; [|exact Hv|done]; lia].
    assert (v = w) as -> by congruence. rewrite Hvis in E. cbn [andb] in E. by apply Z.eqb_neq.
Qed.

Lemma disc_loop ci wm :
  wm_ok wm -> disc_inv ci wm MAX_WINDOWS (for_ 0 MAX_WINDOWS (destroy_if_owned ci) wm).
Proof.
  intros Hok. apply (for_ind (disc_inv ci wm)); [lia| |intros; by apply disc_step].
  split_and!; [done|done|done|done|]. intros j w Hj. lia.
Qed.

Lemma disc_done ci wm wm' :
  disc_inv ci wm MAX_WINDOWS wm' ->
  wm_ok wm' /\ next_id wm' = next_id wm /\
  wm_map wm' = filter (fun kw => client_idx kw.2 <> ci) (wm_map wm).
Proof.
  intros (I1 & I2 & I3 & I4 & I5). split_and!; [exact I1|exact I2|].
  apply map_eq. intros k. apply option_eq. intros w. rewrite map_lookup_filter_Some. cbn [snd]. split.
  - intros Hk. split; [by apply I3|].
    apply shown_sound in Hk as (j & Hj & Hv & _). eapply I5; [|exact Hj|exact Hv].
    apply lookup_lt_Some in Hj. rewrite (wm_slots wm' I1) in Hj. lia.
  - intros [Hk Hne]. by apply I4.
Qed.

Lemma disconnect_windows ci wm :
  wm_ok wm ->
  let wm' := for_ 0 MAX_WINDOWS (destroy_if_owned ci) wm in
  wm_ok wm' /\ next_id wm' = next_id wm /\
  wm_map wm' = filter (fun kw => client_idx kw.2 <> ci) (wm_map wm).
Proof. intros Hok. apply disc_done, disc_loop, Hok. Qed.

Lemma disconnect_ok s wm ci :
  srv_ok (s, wm) -> 0 <= ci < MAX_CLIENTS -> active (client_at s ci) = true ->
  srv_ok (handle_client_disconnect ci s wm) /\ next_id (handle_client_disconnect ci s wm).2 = next_id wm.
Proof.
  intros [H1 H2 H3 H4] Hci Ha. cbn [fst snd] in *. unfold handle_client_disconnect.
  destruct (disconnect_windows ci wm H3) as (W1 & W2 & W3).
  revert W1 W2 W3. generalize (for_ 0 MAX_WINDOWS (destroy_if_owned ci) wm). intros wm' W1 W2 W3.
  split; [|done]. constructor; cbn [fst snd clients client_count].
  - unfold aset. by rewrite length_insert.
  - rewrite count_active_aset by done. rewrite Ha, H2. cbn [active b2z]. lia.
  - done.
  - intros k w. rewrite W3, map_lookup_filter_Some. cbn [snd]. intros [Hk Hne].
    destruct (H4 k w Hk) as [Hr Hact]. split; [done|].
    rewrite client_at_aset by (done || lia). by case_decide.
Qed.

(** ** The server as a step relation *)

(** What can happen to the table of clients and windows: a connection, a message
    of any client, a hang-up of any client, in any order.  The relation leaves
    open which of them the poll reports; a pass of the main loop takes fewer of
    these steps ([serve_pass_refines]), and [serve_pass_serves] says which. *)
Inductive server_step : sst -> sst -> Prop :=
  | step_accept os s wm :
      server_step (s, wm) ((socket_server_accept os s).2, wm)
  | step_message ci os m s wm ret wm' out :
      0 <= ci < MAX_CLIENTS -> active (client_at s ci) = true ->
      handle_client_message s ci os m wm = Some (ret, wm', out) ->
      server_step (s, wm) (if ret <? 0 then handle_client_disconnect ci s wm' else (s, wm'))
  | step_hangup ci s wm :
      0 <= ci < MAX_CLIENTS -> active (client_at s ci) = true ->
      server_step (s, wm) (handle_client_disconnect ci s wm).

Definition server_start : sst := (server_zero, window_manager_init).

Lemma server_start_ok : srv_ok server_start.
Proof.
  destruct wm_init_ok as [H1 H2]. constructor; [done|done|done|].
  intros k w. cbn [snd server_start]. by rewrite H2, lookup_empty.
Qed.

Lemma server_step_ok st st' :
  server_step st st' -> srv_ok st -> next_id st.2 + 1 < 2^31 ->
  srv_ok st' /\ next_id st'.2 <= next_id st.2 + 1.
Proof.
  intros Hstep Hok Hn. destruct Hstep as [os s wm|ci os m s wm ret wm' out Hci Ha E|ci s wm Hci Ha]; cbn [snd] in *.
  - split; [by apply accept_ok|lia].
  - destruct (message_ok s wm ci os m Hok Hci Ha Hn) as (r & w & o & E' & Hok' & Hid).
    rewrite E in E'. injection E' as <- <- <-. case_test; [|by split; [|cbn; lia]].
    destruct (disconnect_ok s wm' ci Hok' Hci Ha) as [D1 D2]. split; [done|lia].
  - destruct (disconnect_ok s wm ci Hok Hci Ha) as [D1 D2]. split; [done|lia].
Qed.

Lemma reachable_ok n st :
  nsteps server_step n server_start st -> Z.of_nat n + 2 < 2^31 ->
  srv_ok st /\ next_id st.2 <= 1 + Z.of_nat n.
Proof.
  revert st. induction n as [|n IH]; intros st Hst Hn.
  - inversion Hst; subst. split; [apply server_start_ok|done].
  - apply nsteps_inv_r in Hst as (st1 & Hst1 & Hlast).
    destruct (IH st1 Hst1 ltac:(lia)) as [Hok Hid].
    destruct (server_step_ok st1 st Hlast Hok ltac:(lia)). split; [done|lia].
Qed.

(** C39: In every state the server can reach from its start by fewer than 2^31-2
    connections, messages and hang-ups, in any order, each window belongs to a
    connected client, window ids are distinct, and the two counters are exact;
    and no message of a connected client makes the server follow a missing window. *)
Theorem server_invariant n st :
  nsteps server_step n server_start st -> Z.of_nat n + 2 < 2^31 ->
  srv_ok st /\
  (forall ci os m, 0 <= ci < MAX_CLIENTS -> active (client_at st.1 ci) = true ->
     is_Some (handle_client_message st.1 ci os m st.2)).
Proof.
  intros Hst Hn. destruct (reachable_ok n st Hst Hn) as [Hok Hid]. split; [done|].
  intros ci os m Hci Ha. destruct st as [s wm].
  destruct (message_ok s wm ci os m Hok Hci Ha) as (r & w & o & E & _); [cbn in *; lia|].
  cbn [fst snd]. rewrite E. by eexists.
Qed.

Lemma server_invariant_witness :
  srv_ok ((socket_server_accept (Some (5, None)) server_zero).2, window_manager_init).
Proof.
  apply (server_invariant 1).
  - econstructor; [apply (step_accept (Some (5, None)))|constructor].
  - lia.
Defined.

(** When a client goes away, exactly its windows go: the window map keeps the
    windows of the other clients unchanged, the client's slot is free, and every
    other client is untouched. *)
Theorem disconnect_correct ci s wm :
  wm_ok wm -> length (clients s) = 64%nat -> 0 <= ci < MAX_CLIENTS ->
  let '(s', wm') := handle_client_disconnect ci s wm in
  wm_map wm' = filter (fun kw => client_idx kw.2 <> ci) (wm_map wm) /\
  active (client_at s' ci) = false /\
  (forall j, 0 <= j -> j <> ci -> client_at s' j = client_at s j).
Proof.
  intros Hok Hl Hci. unfold handle_client_disconnect.
  destruct (disconnect_windows ci wm Hok) as (_ & _ & W).
  revert W. generalize (for_ 0 MAX_WINDOWS (destroy_if_owned ci) wm). intros wm' W. split_and!; [done| |].
  - rewrite client_at_aset by (done || lia). by case_decide.
  - intros j Hj Hne. rewrite client_at_aset by (done || lia). by case_decide.
Qed.

Lemma disconnect_correct_witness :
  wm_map (handle_client_disconnect 0 server_zero
    (window_create (Some 7) 0 42 2 1 [97] window_manager_init).2).2 = ∅.
Proof.
  set (wm := (window_create (Some 7) 0 42 2 1 [97] window_manager_init).2).
  assert (Hok : wm_ok wm).
  { pose proof (window_create_spec (Some 7) 0 42 2 1 [97] window_manager_init (proj1 wm_init_ok)) as H.
    unfold wm. destruct (window_create _ _ _ _ _ _ _). apply H. done. }
  pose proof (disconnect_correct 0 server_zero wm Hok eq_refl ltac:(lia)) as H.
  destruct (handle_client_disconnect 0 server_zero wm) as [s' wm']. destruct H as [H _].
  cbn [snd]. rewrite H. vm_compute. reflexivity.
Defined.

(** ** The main loop takes these steps *)

Lemma serve_client_step wd i r st st' out :
  0 <= i < MAX_CLIENTS -> active (client_at st.1 i) = true ->
  serve_client wd i r st = Some (st', out) -> rtc server_step st st'.
Proof.
  intros Hi Ha. destruct st as [s wm]. cbn [fst] in Ha. unfold serve_client. cbn [fst snd].
  case_test; [|by intros [= <- _]; constructor]. case_test.
  - intros [= <- _]. apply rtc_once. by constructor.
  - destruct (handle_client_message s i (alloc wd i) (message wd i) wm) as [[[ret wm'] o]|] eqn:E; [|done].
    cbn [mbind option_bind]. intros [= <- _]. apply rtc_once. by econstructor.
Qed.

Lemma serve_loop_steps n wd i k nfds st st' k' out :
  0 <= i -> i + Z.of_nat n <= MAX_CLIENTS ->
  serve_loop n wd i k nfds st = Some (st', k', out) -> rtc server_step st st'.
Proof.
  revert i k st st' k' out. induction n as [|n IH]; intros i k st st' k' out H0 Hn; cbn [serve_loop].
  { intros [= <- _ _]. constructor. }
  case_test; [intros [= <- _ _]; constructor|].
  destruct (active (client_at st.1 i)) eqn:Ha; cbn [negb]; [|apply IH; lia].
  destruct (serve_client wd i _ st) as [[st1 o1]|] eqn:E1; [|done]. cbn [mbind option_bind].
  destruct (serve_loop n wd (i + 1) (k + 1) nfds st1) as [[[st2 k2] o2]|] eqn:E2; [|done].
  cbn [mbind option_bind]. intros [= <- _ _]. etransitivity.
  - eapply serve_client_step; [|done|exact E1]. lia.
  - eapply IH; [| |exact E2]; lia.
Qed.

(** A pass takes no other steps on the table than accept, message and hang-up, so
    that [server_invariant] covers it; who is served is [serve_pass_serves]. *)
Theorem serve_pass_refines wd sv st' k out :
  serve_pass wd sv = Some (st', k, out) -> rtc server_step (srv sv, swm sv) st'.
Proof.
  unfold serve_pass. intros H%serve_loop_steps; [|lia|lia]. etransitivity; [|exact H]. clear H.
  case_match; [apply rtc_once; constructor|constructor].
Qed.

(** ** Who is served *)

(** What the poll says of a socket; an error or a hang-up goes before data. *)
Inductive report := Quiet | Gone | Data.
Definition reported (r : Z) : report :=
  if Z.testbit r 3 || Z.testbit r 4 then Gone else if Z.testbit r 0 then Data else Quiet.

(** The client in slot [i] by what is reported for it. *)
Definition serve_one (wd : world) (i : Z) (what : report) (st : sst) : option (sst * sends) :=
  match what with
  | Quiet => Some (st, [])
  | Gone => Some (handle_client_disconnect i st.1 st.2, [])
  | Data =>
      '(ret, wm, out) ← handle_client_message st.1 i (alloc wd i) (message wd i) st.2;
      Some (if ret <? 0 then handle_client_disconnect i st.1 wm else (st.1, wm), out)
  end.

(** Slots with the poll entries from [k] on, one each. *)
Fixpoint serve_all (wd : world) (l : list Z) (k : Z) (st : sst) : option (sst * Z * sends) :=
  match l with
  | [] => Some (st, k, [])
  | i :: l' =>
      '(st, out) ← serve_one wd i (reported (aget 0 (revents wd) k)) st;
      '(st, k, out') ← serve_all wd l' (k + 1) st;
      Some (st, k, out ++ out')
  end.

(** The slots in use from [i] on, in the order of the table and of [pfds]. *)
Definition slots_from (s : socket_server_t) (i : Z) (n : nat) : list Z :=
  filter (fun j => active (client_at s j) = true) (seqZ i (Z.of_nat n)).
Definition slots (s : socket_server_t) : list Z := slots_from s 0 64.

Lemma has_lor a b r : has (Z.lor a b) r = has a r || has b r.
Proof.
  unfold has. rewrite Z.land_lor_distr_r. destruct (Z.eqb_spec (Z.land r a) 0) as [Ea|Ea], (Z.eqb_spec (Z.land r b) 0) as [Eb|Eb]; cbn [negb orb].
  - by rewrite Ea, Eb.
  - by rewrite Ea, (proj2 (Z.eqb_neq _ _)).
  - by rewrite Eb, Z.lor_0_r, (proj2 (Z.eqb_neq _ _)).
  - rewrite (proj2 (Z.eqb_neq _ _)); [done|]. by intros [? ?]%Z.lor_eq_0_iff.
Qed.
Lemma has_bit k r : 0 <= k -> has (2^k) r = Z.testbit r k.
Proof.
  intros Hk. unfold has. destruct (Z.testbit r k) eqn:E.
  - rewrite (proj2 (Z.eqb_neq _ _)); [done|]. intros H0. pose proof (Z.land_spec r (2^k) k) as H. rewrite H0, Z.bits_0, E, Z.pow2_bits_true in H by done. done.
  - rewrite (proj2 (Z.eqb_eq _ _)); [done|]. apply Z.bits_inj'. intros n Hn. rewrite Z.land_spec, Z.bits_0.
    destruct (Z.eq_dec n k) as [->|Hne]; [by rewrite E|]. by rewrite Z.pow2_bits_false, andb_false_r.
Qed.
Lemma serve_client_reported wd i r st : serve_client wd i r st = serve_one wd i (reported r) st.
Proof.
  unfold serve_client, reported. rewrite !has_lor, !(has_bit 0 r (Z.le_refl 0) : has POLLIN r = _), !(has_bit 3 r ltac:(done) : has POLLERR r = _), !(has_bit 4 r ltac:(done) : has POLLHUP r = _).
  destruct (Z.testbit r 0), (Z.testbit r 3), (Z.testbit r 4); done.
Qed.

(** Serving one client leaves the slots of the others alone. *)
Lemma serve_one_others wd i what st st' out : 0 <= i < MAX_CLIENTS -> length (clients st.1) = 64%nat ->
  serve_one wd i what st = Some (st', out) ->
  length (clients st'.1) = 64%nat /\ forall j, 0 <= j -> j <> i -> client_at st'.1 j = client_at st.1 j.
Proof.
  intros Hi Hl. assert (Hd : forall wm, length (clients (handle_client_disconnect i st.1 wm).1) = 64%nat /\
    forall j, 0 <= j -> j <> i -> client_at (handle_client_disconnect i st.1 wm).1 j = client_at st.1 j).
  { intros wm. split; [cbn [handle_client_disconnect fst clients]; unfold aset; by rewrite length_insert|]. intros j Hj Hne. unfold handle_client_disconnect. cbn [fst].
    rewrite client_at_aset by (done || lia). by case_decide. }
  destruct what; cbn [serve_one].
  - intros [= <- _]. done.
  - intros [= <- _]. apply Hd.
  - destruct (handle_client_message _ _ _ _ _) as [[[ret wm] o]|]; [|done]. cbn [mbind option_bind]. intros [= <- _]. case_test; [apply Hd|done].
Qed.

Lemma slots_from_S s i n : slots_from s i (S n) = if active (client_at s i) then i :: slots_from s (i + 1) n else slots_from s (i + 1) n.
Proof.
  unfold slots_from. rewrite seqZ_cons by lia. replace (Z.pred (Z.of_nat (S n))) with (Z.of_nat n) by lia. rewrite filter_cons.
  replace (Z.succ i) with (i + 1) by lia. by destruct (active _); case_decide.
Qed.
Lemma slots_from_ext s s' n : forall i, 0 <= i -> (forall j, i <= j -> client_at s' j = client_at s j) -> slots_from s' i n = slots_from s i n.
Proof.
  induction n as [|n IH]; intros i Hi Hs; [done|]. rewrite !slots_from_S, Hs by lia. by rewrite IH by (lia || intros j Hj; apply Hs; lia).
Qed.

Lemma serve_loop_serves n : forall wd i k nfds st, 0 <= i -> i + Z.of_nat n <= MAX_CLIENTS -> length (clients st.1) = 64%nat ->
  serve_loop n wd i k nfds st = serve_all wd (take (Z.to_nat (nfds - 2 - k)) (slots_from st.1 i n)) k st.
Proof.
  induction n as [|n IH]; intros wd i k nfds st Hi Hn Hl; cbn [serve_loop].
  { change (slots_from st.1 i 0) with (@nil Z). by rewrite take_nil. }
  destruct (Z.leb_spec (nfds - 2) k) as [Hk|Hk]; [by replace (Z.to_nat (nfds - 2 - k)) with 0%nat by lia|].
  rewrite slots_from_S. destruct (active (client_at st.1 i)) eqn:Ea; cbn [negb]; [|apply IH; lia || done].
  replace (Z.to_nat (nfds - 2 - k)) with (S (Z.to_nat (nfds - 2 - (k + 1)))) by lia. cbn [take serve_all]. rewrite serve_client_reported.
  destruct (serve_one _ _ _ st) as [[st1 o1]|] eqn:E1; [|done]. cbn [mbind option_bind].
  assert (Hi' : 0 <= i < MAX_CLIENTS) by lia. destruct (serve_one_others _ _ _ _ _ _ Hi' Hl E1) as [Hl1 Ho]. rewrite IH by (done || lia).
  rewrite (slots_from_ext st.1 st1.1) by (lia || intros j Hj; apply Ho; lia). done.
Qed.

Lemma slots_count s : length (clients s) = 64%nat -> zlen (slots s) = count_active s.
Proof.
  intros Hl. unfold slots, slots_from, count_active.
  assert (G : forall l pre, length (filter (fun j => active (aget client_zero (pre ++ l) j) = true) (seqZ (zlen pre) (zlen l))) = length (filter (fun c => active c = true) l)).
  { induction l as [|c l IH]; intros pre; [done|]. rewrite zlen_cons, seqZ_cons by (pose proof (zlen_nonneg l); lia).
    replace (Z.pred (1 + zlen l)) with (zlen l) by lia. rewrite !filter_cons.
    assert (E : aget client_zero (pre ++ c :: l) (zlen pre) = c) by (unfold aget, zlen; rewrite Nat2Z.id, app_nth2, Nat.sub_diag by lia; done).
    rewrite E. specialize (IH (pre ++ [c])). rewrite <- app_assoc, zlen_app in IH. cbn [app] in IH. change (zlen [c]) with 1 in IH.
    replace (Z.succ (zlen pre)) with (zlen pre + 1) by lia. case_decide; cbn [length]; by rewrite IH. }
  specialize (G (clients s) []). cbn [app] in G. unfold zlen in *. rewrite Hl in G. unfold client_at in *. f_equal. exact G.
Qed.

(** C40: The sockets are served by what the poll reported.  One pass first accepts
    a connection when the listening socket has data.  The clients in use after
    that, in the order of the table, take the poll entries behind the listening
    socket one after the other, and each is served by its entry: disconnected at
    a hang-up or an error, otherwise its message handled when there is data (and
    the client disconnected when that fails), otherwise left alone.  That goes for
    as many clients as were polled, less one when libinput is missing.  So, with
    libinput and without a new connection, it is exactly the polled clients, each
    by its own entry.  (Without libinput the last one starves,
    [lone_client_starves]; a new connection may take the entry of another client,
    [new_client_shifts_entries].) *)
Theorem serve_pass_serves wd sv :
  length (clients (srv sv)) = 64%nat ->
  let s := if Z.testbit (aget 0 (revents wd) 0) 0 then (socket_server_accept (incoming wd) (srv sv)).2 else srv sv in
  serve_pass wd sv = serve_all wd (take (Z.to_nat (count_active (srv sv) - 1 + b2z (libinput sv))) (slots s)) 1 (s, swm sv) /\
  (libinput sv = true -> Z.testbit (aget 0 (revents wd) 0) 0 = false -> serve_pass wd sv = serve_all wd (slots (srv sv)) 1 (srv sv, swm sv)).
Proof.
  intros Hl s.
  assert (E : serve_pass wd sv = serve_all wd (take (Z.to_nat (count_active (srv sv) - 1 + b2z (libinput sv))) (slots s)) 1 (s, swm sv)).
  { unfold serve_pass. rewrite (has_bit 0 _ (Z.le_refl 0) : has POLLIN _ = _). fold s. rewrite serve_loop_serves; [|lia|lia|].
    - f_equal. f_equal. f_equal. unfold poll_count. lia.
    - cbn [fst]. unfold s. case_match; [|done]. unfold socket_server_accept. repeat case_match; cbn [snd clients]; try done. unfold aset. by rewrite length_insert. }
  split; [exact E|]. intros Hlib Hq. rewrite E. unfold s. rewrite Hq, Hlib, take_ge; [done|].
  pose proof (slots_count (srv sv) Hl) as Hc. unfold zlen in Hc. change (b2z true) with 1. lia.
Qed.

Definition two_clients : server :=
  MkServer (MkSrv ([MkClient 5 1 true; MkClient (-1) 0 false; MkClient 6 2 true] ++ replicate 61 (MkClient (-1) 0 false)) 2)
    window_manager_init (sample_comp 0) (MkInput true 5000 3 0 0 0 0 true false false false false []) true true.
Definition second_asks : world :=
  MkWorld [0; 0; POLLIN] None (fun i => if i =? 2 then Some (MSG_CREATE_WINDOW 2 1 [97]) else None) (fun _ => Some 9) [].

Lemma serve_pass_serves_witness :
  serve_pass second_asks two_clients = serve_all second_asks [0; 2] 1 (srv two_clients, swm two_clients).
Proof. apply (serve_pass_serves second_asks two_clients); reflexivity. Defined.

(** A connection that is accepted into a free slot before another client takes
    that client's poll entry: the new client (descriptor 7) is disconnected for
    the hang-up of another, which stays. *)
Lemma new_client_shifts_entries :
  let wd := MkWorld [POLLIN; 0; POLLHUP] (Some (7, None)) (fun _ => None) (fun _ => None) [] in
  (fun r => map fd (take 3 (clients r.1.1.1))) <$> serve_pass wd two_clients = Some [5; -1; 6].
Proof. vm_compute. reflexivity. Qed.

(** ** Routing *)

(** Routing a mouse event puts the cursor on the screen, next to the reported
    position when that lies outside, focuses the topmost window under it (none
    when there is none) and consumes the event. *)
Theorem route_input_correct wm c i :
  1 <= drm_w c -> 1 <= drm_h c -> has_mouse_event i = true ->
  let '(c', i') := compositor_route_input wm c i in
  cursor_x c' = Z.min (drm_w c - 1) (Z.max 0 (mouse_x i)) /\
  cursor_y c' = Z.min (drm_h c - 1) (Z.max 0 (mouse_y i)) /\
  0 <= cursor_x c' < drm_w c /\ 0 <= cursor_y c' < drm_h c /\
  has_mouse_event i' = false /\
  match window_find_at wm (cursor_x c') (cursor_y c') with
  | Some k => focused_window_id c' = i32 (id (win_at wm k)) /\ visible (win_at wm k) = true /\
      contains (cursor_x c') (cursor_y c') (win_at wm k) = true /\
      (forall j, k < j < MAX_WINDOWS ->
         visible (win_at wm j) && contains (cursor_x c') (cursor_y c') (win_at wm j) = false)
  | None => focused_window_id c' = -1
  end.
Proof.
  intros Hw Hh Hm. unfold compositor_route_input. rewrite Hm. cbn [negb].
  set (cx := if drm_w c <=? _ then _ else _). set (cy := if drm_h c <=? _ then _ else _).
  assert (Ex : cx = Z.min (drm_w c - 1) (Z.max 0 (mouse_x i))) by (unfold cx; repeat case_test; lia).
  assert (Ey : cy = Z.min (drm_h c - 1) (Z.max 0 (mouse_y i))) by (unfold cy; repeat case_test; lia).
  clearbody cx cy. cbn [cursor_x cursor_y with_cursor has_mouse_event clear_mouse focused_window_id].
  pose proof (window_find_at_spec wm cx cy) as Hat.
  split_and!; [done|done|lia|lia|lia|lia|done|].
  destruct (window_find_at wm cx cy); [|done]. destruct Hat as (_ & H1 & H2 & H3). by split_and!.
Qed.

Definition sample_input : input_ctx_t := MkInput true 5000 3 0 0 0 0 true false false false false [].

Lemma route_input_correct_witness :
  cursor_x (compositor_route_input window_manager_init (sample_comp 0) sample_input).1 = 1.
Proof.
  pose proof (route_input_correct window_manager_init (sample_comp 0) sample_input
    ltac:(simpl; lia) ltac:(simpl; lia) eq_refl) as H.
  destruct (compositor_route_input window_manager_init (sample_comp 0) sample_input) as [c' i'].
  destruct H as (H & _). exact H.
Defined.

Lemma route_consumes wm c i : has_mouse_event (compositor_route_input wm c i).2 = false.
Proof.
  unfold compositor_route_input. destruct (has_mouse_event i) eqn:Em; cbn [negb snd has_mouse_event clear_mouse];
    [reflexivity|exact Em].
Qed.

(** The router consumes the mouse flag before the broadcaster looks at it: no
    client is ever told about the mouse. *)
Lemma mouse_events_never_sent s wm c i :
  let '(c', i') := compositor_route_input wm c i in
  Forall (fun m => match m.2 with MSG_MOUSE_MOVE _ _ _ | MSG_MOUSE_BUTTON _ _ _ => False | _ => True end)
    (broadcast_input_events s wm (focused_window_id c') i').2.
Proof.
  pose proof (route_consumes wm c i) as Hm.
  destruct (compositor_route_input wm c i) as [c' i']. cbn [snd] in Hm.
  assert (Hk : Forall (fun m => match m.2 with MSG_MOUSE_MOVE _ _ _ | MSG_MOUSE_BUTTON _ _ _ => False | _ => True end)
    (broadcast_key s wm (focused_window_id c') i')).
  { unfold broadcast_key. case_match; [|constructor]. unfold send_event_to_client.
    repeat case_match; repeat constructor. }
  unfold broadcast_input_events.
  destruct (has_key_event i') eqn:Ek; cbn [has_mouse_event clear_key]; rewrite Hm; cbn [snd]; rewrite app_nil_r; [done|constructor].
Qed.

(** Without libinput the bound [nfds-2] cuts off the last client: a lone client
    is never served. *)
Lemma lone_client_starves wd sv :
  libinput sv = false -> count_active (srv sv) = 1 -> has POLLIN (aget 0 (revents wd) 0) = false ->
  serve_pass wd sv = Some ((srv sv, swm sv), 1, []).
Proof.
  intros Hl Hc Hr. unfold serve_pass, poll_count. by rewrite Hl, Hc, Hr.
Qed.

Definition sample_server : server :=
  MkServer server_zero window_manager_init (sample_comp 0) sample_input true true.

Lemma serve_pass_refines_witness :
  exists st' k out,
    serve_pass (MkWorld [POLLIN] (Some (5, None)) (fun _ => None) (fun _ => None) []) sample_server = Some (st', k, out) /\
    rtc server_step (server_zero, window_manager_init) st'.
Proof.
  eexists _, _, _. split; [vm_compute; reflexivity|].
  apply (serve_pass_refines (MkWorld [POLLIN] (Some (5, None)) (fun _ => None) (fun _ => None) []) sample_server _ 1 []).
  vm_compute. reflexivity.
Defined.
