(* ===== verification/LogFile.v ===== *)
(** * Log files of the display server ([vdm/project/log/log.c])

    Files are names for numbered contents, so that a handle keeps its file when
    the name moves, as [rename] and [unlink] do it.  Time, the formatted time
    stamp and whether a file can be opened are arguments. *)

From Stdlib Require Import ZArith Lia.
From stdpp Require Import base numbers list strings gmap.
From S2P Require Import Prelude CLib.

Notation LOG_MAX_LINE := 1024 (only parsing).
Notation LOG_ROTATE_SIZE := (10 * 1024 * 1024) (only parsing).
Notation LOG_ROTATE_COUNT := 5 (only parsing).

Inductive log_level_t := TRACE | DEBUG | INFO | WARN | ERROR | FATAL.
Definition level_num (l : log_level_t) : Z :=
  match l with TRACE => 0 | DEBUG => 1 | INFO => 2 | WARN => 3 | ERROR => 4 | FATAL => 5 end.
Definition level_name (l : log_level_t) : cstr :=
  match l with
  | TRACE => cs "TRACE" | DEBUG => cs "DEBUG" | INFO => cs "INFO " | WARN => cs "WARN " | ERROR => cs "ERROR" | FATAL => cs "FATAL"
  end.
Definition esc_code (c : cstr) : cstr := 27 :: 91 :: c.
Definition level_color (l : log_level_t) : cstr :=
  esc_code match l with
  | TRACE => cs "2m" | DEBUG => cs "36m" | INFO => cs "32m" | WARN => cs "33m" | ERROR => cs "31m" | FATAL => cs "1;91m"
  end.

(** ** Files *)

Record files := Files { names : gmap (list Z) nat; data : gmap nat (list Z); fresh_id : nat; leaked : nat }.
Definition content (f : files) (h : nat) : list Z := default [] (data f !! h).
Definition fput (h : nat) (s : list Z) (f : files) : files :=
  Files (names f) (<[h := content f h ++ s]> (data f)) (fresh_id f) (leaked f).
(** [fopen(p,"w")] and [fopen(p,"a")] *)
Definition fopen (trunc : bool) (p : list Z) (f : files) : nat * files :=
  match names f !! p with
  | Some h => (h, if trunc then Files (names f) (<[h := []]> (data f)) (fresh_id f) (leaked f) else f)
  | None => (fresh_id f, Files (<[p := fresh_id f]> (names f)) (<[fresh_id f := []]> (data f)) (S (fresh_id f)) (leaked f))
  end.
Definition unlink (p : list Z) (f : files) : files := Files (delete p (names f)) (data f) (fresh_id f) (leaked f).
Definition rename (p q : list Z) (f : files) : files :=
  match names f !! p with
  | Some h => Files (<[q := h]> (delete p (names f))) (data f) (fresh_id f) (leaked f)
  | None => f
  end.
Definition leak (f : files) : files := Files (names f) (data f) (fresh_id f) (S (leaked f)).

(** ** The logger *)

Record log_ctx_t := Ctx {
  min_level : log_level_t; orig_min_level : log_level_t; component : cstr;
  display_log : option nat; combined_log : option nat; use_color : bool; trace_burst : bool; trace_burst_end : Z;
  lfiles : files; err_out : list Z }.
Definition set_levels m o b e c := Ctx m o (component c) (display_log c) (combined_log c) (use_color c) b e (lfiles c) (err_out c).
Definition set_logs d k f c := Ctx (min_level c) (orig_min_level c) (component c) d k (use_color c) (trace_burst c) (trace_burst_end c) f (err_out c).
Definition set_err s c := Ctx (min_level c) (orig_min_level c) (component c) (display_log c) (combined_log c) (use_color c) (trace_burst c) (trace_burst_end c) (lfiles c) s.

Definition display_path : list Z := cs "/var/log/vdm/display.log".
Definition combined_path : list Z := cs "/var/log/vdm/vdm.log".

Section Log.
(** [can_open]: whether [fopen] succeeds for a path. *)
Context (can_open : list Z -> bool).

Definition open_log (trunc : bool) (p : list Z) (f : files) : option nat * files :=
  if can_open p then let '(h, f) := fopen trunc p f in (Some h, f) else (None, f).

Definition log_init (comp : cstr) (level : log_level_t) (tty : bool) (f : files) : log_ctx_t :=
  let '(d, f) := open_log true display_path f in
  let '(k, f) := open_log true combined_path f in
  Ctx level level comp d k tty false 0 f [].

Definition numbered (p : list Z) (i : Z) : list Z := p ++ [46] ++ kia i.

(** The shifting loop: 5 is removed, 4 to 1 move up. *)
Definition shift_files (p : list Z) (f : files) : files :=
  for_ 0 LOG_ROTATE_COUNT (fun k f =>
    let i := LOG_ROTATE_COUNT - k in
    if i =? LOG_ROTATE_COUNT then unlink (numbered p i) f else rename (numbered p i) (numbered p (i + 1)) f) f.

(** [new] still holds the name of the last pass, number 2.  Both files are
    opened again; the handle of the other one is not closed. *)
Definition log_rotate (is_display : bool) (c : log_ctx_t) : log_ctx_t :=
  let p := if is_display then display_path else combined_path in
  match (if is_display then display_log c else combined_log c) with
  | None => c
  | Some h =>
      if zlen (content (lfiles c) h) <? LOG_ROTATE_SIZE then c
      else
        let f := rename p (numbered p 2) (shift_files p (lfiles c)) in
        let f := match (if is_display then combined_log c else display_log c) with Some _ => leak f | None => f end in
        let '(d, f) := open_log false display_path f in
        let '(k, f) := open_log false combined_path f in
        set_logs d k f c
  end.

Fixpoint after_slash (p : cstr) : cstr :=
  match p with
  | [] => []
  | x :: p' => if existsb (Z.eqb 47) p' then after_slash p' else if x =? 47 then p' else p
  end.
Definition basename_file (p : cstr) : cstr := if existsb (Z.eqb 47) p then after_slash p else p.

Definition log_line (ts : cstr) (level : log_level_t) (comp file : cstr) (line : Z) (msg : cstr) : cstr :=
  take 2047 ([91] ++ ts ++ cs "] [" ++ level_name level ++ cs "] [" ++ comp ++ cs "] [" ++ basename_file file ++ [58] ++ kia line ++ cs "] "
             ++ take 1023 msg ++ [c_nl]).

(** The level test: the state after it and whether the message passes. *)
Definition level_gate (now : Z) (level : log_level_t) (c : log_ctx_t) : log_ctx_t * bool :=
  let eff := min_level c in
  let '(c, eff) :=
    if trace_burst c then
      if trace_burst_end c <=? now then (set_levels (orig_min_level c) (orig_min_level c) false (trace_burst_end c) c, eff)
      else (c, TRACE)
    else (c, eff) in
  (c, negb (level_num level <? level_num eff)).

Definition put_log (h : option nat) (s : list Z) (f : files) : files := match h with Some h => fput h s f | None => f end.

Definition log_write (now : Z) (ts : cstr) (level : log_level_t) (file : cstr) (line : Z) (msg : cstr) (c : log_ctx_t) : log_ctx_t :=
  let '(c, pass) := level_gate now level c in
  if pass then
    let l := log_line ts level (component c) file line msg in
    let c := log_rotate false (log_rotate true c) in
    let f := put_log (combined_log c) l (put_log (display_log c) l (lfiles c)) in
    let c := set_logs (display_log c) (combined_log c) f c in
    set_err (err_out c ++ (if use_color c then level_color level ++ l ++ esc_code (cs "0m") else l)) c
  else c.

Definition log_set_level (l : log_level_t) (c : log_ctx_t) : log_ctx_t := set_levels l (orig_min_level c) (trace_burst c) (trace_burst_end c) c.
Definition log_sigusr1_handler (now : Z) (c : log_ctx_t) : log_ctx_t :=
  if trace_burst c then c else set_levels TRACE (min_level c) true (now + 60) c.
End Log.

(** ** The files hold the lines *)

(** Calls and signals, with the time at which they come. *)
Inductive log_op :=
  | Write (now : Z) (ts : cstr) (level : log_level_t) (file : cstr) (line : Z) (msg : cstr)
  | SetLevel (level : log_level_t)
  | Usr1 (now : Z).
Definition log_do (can_open : list Z -> bool) (o : log_op) (c : log_ctx_t) : log_ctx_t :=
  match o with
  | Write now ts level file line msg => log_write can_open now ts level file line msg c
  | SetLevel l => log_set_level l c
  | Usr1 now => log_sigusr1_handler now c
  end.

(** The lines that pass: a level machine with no files. *)
Definition gate_step (o : log_op) (c : log_ctx_t) : log_ctx_t * list Z :=
  match o with
  | Write now ts level file line msg =>
      let '(c, pass) := level_gate now level c in (c, if pass then log_line ts level (component c) file line msg else [])
  | SetLevel l => (log_set_level l c, [])
  | Usr1 now => (log_sigusr1_handler now c, [])
  end.
Fixpoint passing (ops : list log_op) (c : log_ctx_t) : list Z :=
  match ops with [] => [] | o :: ops' => let '(c, l) := gate_step o c in l ++ passing ops' c end.

(** Two open handles on the two files, whose texts are [s]. *)
Record logs (h k : nat) (s : list Z) (c : log_ctx_t) : Prop := Logs {
  lg_display : display_log c = Some h; lg_combined : combined_log c = Some k; lg_ne : h <> k;
  lg_names : names (lfiles c) !! display_path = Some h /\ names (lfiles c) !! combined_path = Some k;
  lg_d : content (lfiles c) h = s; lg_c : content (lfiles c) k = s }.
(** The same levels. *)
Definition alike (c c' : log_ctx_t) : Prop :=
  min_level c = min_level c' /\ orig_min_level c = orig_min_level c' /\ trace_burst c = trace_burst c' /\
  trace_burst_end c = trace_burst_end c' /\ component c = component c'.

Lemma gate_alike now l c c' : alike c c' -> alike (level_gate now l c).1 (level_gate now l c').1 /\ (level_gate now l c).2 = (level_gate now l c').2.
Proof.
  intros (H1 & H2 & H3 & H4 & H5). unfold level_gate. rewrite H1, H3, H4. destruct (trace_burst c') eqn:Eb; [destruct (trace_burst_end c' <=? now)|]; (split; [unfold alike; cbn; split_and!; congruence|done]).
Qed.

Lemma gate_component now l c : component (level_gate now l c).1 = component c.
Proof. unfold level_gate. destruct (trace_burst c); [destruct (trace_burst_end c <=? now)|]; done. Qed.

Lemma gate_logs now l c h k s : logs h k s c -> logs h k s (level_gate now l c).1.
Proof. intros []. unfold level_gate. destruct (trace_burst c); [destruct (trace_burst_end c <=? now)|]; by constructor. Qed.

Lemma content_fput f h k s : content (fput h s f) k = if decide (k = h) then content f h ++ s else content f k.
Proof.
  unfold content, fput. cbn [data]. case_decide as E; [subst; by rewrite lookup_insert_eq|by rewrite lookup_insert_ne].
Qed.

Lemma no_rotation can_open d c h k s : logs h k s c -> zlen s < LOG_ROTATE_SIZE -> log_rotate can_open d c = c.
Proof.
  intros [] Hs. unfold log_rotate. destruct d; cbv zeta; [rewrite lg_display0|rewrite lg_combined0]; (replace (_ <? _) with true; [done|]); symmetry; apply Z.ltb_lt; congruence.
Qed.

Lemma log_write_step can_open now ts lv file line msg c h k s : logs h k s c -> zlen s < LOG_ROTATE_SIZE ->
  let '(c', pass) := level_gate now lv c in
  let l := if pass then log_line ts lv (component c) file line msg else [] in
  logs h k (s ++ l) (log_write can_open now ts lv file line msg c) /\ alike (log_write can_open now ts lv file line msg c) c'.
Proof.
  intros Hl Hs. pose proof (gate_logs now lv c h k s Hl) as Hg. unfold log_write.
  pose proof (gate_component now lv c) as Hcomp.
  destruct (level_gate now lv c) as [c' pass] eqn:E. cbn [fst] in *. destruct pass; [|by rewrite app_nil_r].
  rewrite !(no_rotation can_open _ c' h k s) by done. destruct Hg as [E1 E2 Hne [Hn1 Hn2] Hd Hc]. cbv zeta. rewrite E1, E2, Hcomp. cbn [put_log]. split; [|done].
  constructor; cbn; try done; rewrite !content_fput; repeat case_decide; try done; congruence.
Qed.

Lemma log_run can_open ops : forall c c' h k s, logs h k s c -> alike c c' -> zlen s + zlen (passing ops c') < LOG_ROTATE_SIZE ->
  logs h k (s ++ passing ops c') (foldl (fun c o => log_do can_open o c) c ops).
Proof.
  induction ops as [|o ops IH]; intros c c' h k s Hl Ha Hs; cbn [foldl passing]; [by rewrite app_nil_r|].
  destruct (gate_step o c') as [c1 l] eqn:Eg. cbn [passing] in Hs. rewrite Eg in Hs. rewrite zlen_app in Hs. pose proof (zlen_nonneg l). pose proof (zlen_nonneg (passing ops c1)).
  rewrite app_assoc. destruct o as [now ts lv file line msg|lv|now]; cbn [gate_step log_do] in *.
  - pose proof (log_write_step can_open now ts lv file line msg c h k s Hl ltac:(lia)) as Hw.
    destruct (gate_alike now lv c c' Ha) as [Hg1 Hg2]. pose proof (gate_component now lv c') as Hd'. destruct (level_gate now lv c) as [d p]. destruct (level_gate now lv c') as [d' p']. cbn [fst snd] in *. subst p'.
    injection Eg as <- <-. destruct Hw as [Hw1 Hw2]. assert (Hcomp : component c = component d') by (destruct Ha as (_ & _ & _ & _ & ->); symmetry; apply Hd').
    rewrite <- Hcomp in *. apply IH; [done| |rewrite zlen_app; lia]. destruct Hw2 as (? & ? & ? & ? & ?), Hg1 as (? & ? & ? & ? & ?). repeat split; congruence.
  - injection Eg as <- <-. apply IH; [destruct Hl; rewrite app_nil_r; by constructor| |].
    + destruct Ha as (H1 & H2 & H3 & H4 & H5). done.
    + rewrite app_nil_r. lia.
  - injection Eg as <- <-. apply IH.
    + rewrite app_nil_r. unfold log_sigusr1_handler. destruct Hl. destruct (trace_burst c); by constructor.
    + destruct Ha as (H1 & H2 & H3 & H4 & H5). unfold log_sigusr1_handler. rewrite H3. destruct (trace_burst c') eqn:E; repeat split; cbn; congruence.
    + rewrite app_nil_r. lia.
Qed.

(** ** Levels *)

Definition lv_sample : log_ctx_t := Ctx INFO INFO [] None None false false 0 (Files ∅ ∅ 0 0) [].

(** For a minute after the signal every message passes, and no later signal
    prolongs it. *)
Lemma burst_lets_all_pass t now l c : trace_burst c = false -> now < t + 60 ->
  let c' := log_sigusr1_handler t c in (level_gate now l c').2 = true /\ log_sigusr1_handler now c' = c'.
Proof.
  intros Hb Hn. unfold log_sigusr1_handler. rewrite Hb. cbv zeta. cbn [trace_burst set_levels]. split; [|done].
  unfold level_gate. cbn [trace_burst set_levels trace_burst_end]. replace (t + 60 <=? now) with false by lia. by destruct l.
Qed.

(** The first message after it restores the level. *)
Lemma burst_ends t now l c : trace_burst c = false -> t + 60 <= now ->
  min_level (level_gate now l (log_sigusr1_handler t c)).1 = min_level c.
Proof.
  intros Hb Hn. unfold log_sigusr1_handler. rewrite Hb. unfold level_gate. cbn [trace_burst set_levels trace_burst_end].
  by replace (t + 60 <=? now) with true by lia.
Qed.

(** ** Rotation *)

Lemma numbered_ne p i j : kia i <> kia j -> numbered p i <> numbered p j.
Proof. unfold numbered. intros H E. by apply app_inv_head, app_inv_head in E. Qed.
Lemma numbered_base p i : numbered p i <> p.
Proof. unfold numbered. intros E%(f_equal length). rewrite !length_app in E. cbn in E. lia. Qed.

Definition moved (p q : list Z) (f : files) (x : list Z) : option nat :=
  match names f !! p with Some h => if decide (x = q) then Some h else if decide (x = p) then None else names f !! x | None => names f !! x end.
Lemma names_rename p q f x : p <> q -> names (rename p q f) !! x = moved p q f x.
Proof.
  intros Hne. unfold rename, moved. destruct (names f !! p); [|done]. cbn [names].
  repeat case_decide; subst; [by rewrite lookup_insert_eq|rewrite lookup_insert_ne by done; apply lookup_delete_eq|rewrite lookup_insert_ne by done; by rewrite lookup_delete_ne].
Qed.

(** A move seen at one name. *)
Lemma moved_to p q f : p <> q -> names f !! q = None -> names (rename p q f) !! q = names f !! p.
Proof. intros Hne Hq. rewrite names_rename by done. unfold moved. destruct (names f !! p); [by rewrite decide_True|done]. Qed.
Lemma moved_away p q f : p <> q -> names (rename p q f) !! p = None.
Proof. intros Hne. rewrite names_rename by done. unfold moved. destruct (names f !! p) eqn:E; [|done]. by rewrite decide_False, decide_True by done. Qed.
Lemma moved_other p q f x : p <> q -> x <> p -> x <> q -> names (rename p q f) !! x = names f !! x.
Proof. intros Hne H1 H2. rewrite names_rename by done. unfold moved. destruct (names f !! p); [|done]. by rewrite !decide_False by done. Qed.

Lemma shift_files_eq p f : shift_files p f =
  rename (numbered p 1) (numbered p 2) (rename (numbered p 2) (numbered p 3) (rename (numbered p 3) (numbered p 4) (rename (numbered p 4) (numbered p 5) (unlink (numbered p 5) f)))).
Proof. reflexivity. Qed.

(** Rotation shifts the history by one: the current log becomes number 2, and
    2, 3 and 4 become 3, 4 and 5; number 5 is dropped. *)
Lemma rotation_shifts p f h : names f !! p = Some h -> names f !! numbered p 1 = None ->
  let f' := rename p (numbered p 2) (shift_files p f) in
  names f' !! p = None /\ names f' !! numbered p 1 = None /\ names f' !! numbered p 2 = Some h /\
  names f' !! numbered p 3 = names f !! numbered p 2 /\ names f' !! numbered p 4 = names f !! numbered p 3 /\ names f' !! numbered p 5 = names f !! numbered p 4.
Proof.
  intros Hp H1. cbv zeta. rewrite shift_files_eq.
  assert (N : forall i j, kia i <> kia j -> numbered p i <> numbered p j) by (intros; by apply numbered_ne).
  pose proof (numbered_base p) as B.
  pose proof (N 1 2 ltac:(done)). pose proof (N 1 3 ltac:(done)). pose proof (N 1 4 ltac:(done)). pose proof (N 1 5 ltac:(done)).
  pose proof (N 2 3 ltac:(done)). pose proof (N 2 4 ltac:(done)). pose proof (N 2 5 ltac:(done)).
  pose proof (N 3 4 ltac:(done)). pose proof (N 3 5 ltac:(done)). pose proof (N 4 5 ltac:(done)).
  assert (forall i, p <> numbered p i) by (intros i E; by apply (B i)).
  set (f1 := unlink _ f). set (f2 := rename (numbered p 4) _ f1). set (f3 := rename (numbered p 3) _ f2).
  set (f4 := rename (numbered p 2) _ f3). set (f5 := rename (numbered p 1) _ f4).
  assert (L1 : forall x, x <> numbered p 5 -> names f1 !! x = names f !! x) by (intros x Hx; apply lookup_delete_ne; congruence).
  assert (L2 : names f2 !! numbered p 5 = names f !! numbered p 4).
  { unfold f2. rewrite moved_to; [by apply L1|done|apply lookup_delete_eq]. }
  assert (L3 : names f3 !! numbered p 4 = names f !! numbered p 3).
  { unfold f3. rewrite moved_to; [|done|unfold f2; by apply moved_away]. unfold f2. rewrite moved_other by congruence. by apply L1. }
  assert (L4 : names f4 !! numbered p 3 = names f !! numbered p 2).
  { unfold f4. rewrite moved_to; [|done|unfold f3; by apply moved_away]. unfold f3, f2. rewrite !moved_other by congruence. by apply L1. }
  assert (L5 : names f5 !! numbered p 2 = None).
  { unfold f5. rewrite moved_to; [|done|unfold f4; by apply moved_away]. unfold f4, f3, f2. rewrite !moved_other by congruence. rewrite L1 by done. done. }
  split_and!.
  - by apply moved_away.
  - rewrite moved_other by congruence. by apply moved_away.
  - rewrite moved_to by done. unfold f5, f4, f3, f2. rewrite !moved_other by congruence. by rewrite L1.
  - rewrite moved_other by congruence. unfold f5. by rewrite moved_other by congruence.
  - rewrite moved_other by congruence. unfold f5, f4. by rewrite !moved_other by congruence.
  - rewrite moved_other by congruence. unfold f5, f4, f3. by rewrite !moved_other by congruence.
Qed.

(** ** The log as a whole *)

Lemma log_init_logs can_open comp lv tty : can_open display_path = true -> can_open combined_path = true ->
  logs 0 1 [] (log_init can_open comp lv tty (Files ∅ ∅ 0 0)).
Proof.
  intros H1 H2. unfold log_init, open_log. rewrite H1, H2. constructor; try reflexivity; [done|]. split; reflexivity.
Qed.

(** What is logged is in the log.  For every sequence of messages, level
    changes and signals, until ten megabytes are reached: both files hold exactly
    the lines of the messages that pass the level test, each once and in order,
    under the names they were opened with. *)
Theorem log_holds_lines can_open comp lv tty ops :
  can_open display_path = true -> can_open combined_path = true ->
  let c0 := log_init can_open comp lv tty (Files ∅ ∅ 0 0) in
  zlen (passing ops c0) < LOG_ROTATE_SIZE ->
  let c := foldl (fun c o => log_do can_open o c) c0 ops in
  (content (lfiles c) <$> names (lfiles c) !! display_path) = Some (passing ops c0) /\
  (content (lfiles c) <$> names (lfiles c) !! combined_path) = Some (passing ops c0).
Proof.
  intros H1 H2 c0 Hs c. pose proof (log_init_logs can_open comp lv tty H1 H2) as Hl. fold c0 in Hl.
  destruct (log_run can_open ops c0 c0 0 1 [] Hl) as [_ _ _ [Hn1 Hn2] Hd Hc]; [by repeat split|done|]. fold c in Hn1, Hn2, Hd, Hc.
  rewrite Hn1, Hn2. cbn [fmap option_fmap option_map app] in *. by rewrite Hd, Hc.
Qed.

Definition log_sample : list log_op :=
  [Write 0 (cs "T") WARN (cs "a/b.c") 7 (cs "one"); Write 1 (cs "T") DEBUG (cs "b.c") 8 (cs "two"); Usr1 5; Write 6 (cs "T") TRACE (cs "b.c") 9 (cs "three")].
Lemma log_holds_lines_witness :
  let c0 := log_init (fun _ => true) (cs "x") INFO false (Files ∅ ∅ 0 0) in
  let c := foldl (fun c o => log_do (fun _ => true) o c) c0 log_sample in
  (content (lfiles c) <$> names (lfiles c) !! display_path) = Some (cs "[T] [WARN ] [x] [b.c:7] one" ++ [c_nl] ++ cs "[T] [TRACE] [x] [b.c:9] three" ++ [c_nl]).
Proof.
  exact (proj1 (log_holds_lines (fun _ => true) (cs "x") INFO false log_sample eq_refl eq_refl ltac:(vm_compute; reflexivity))).
Defined.

(** ** What the logger gets wrong *)

(** The first message after the burst passes, whatever its level. *)
Lemma late_message_passes t now l c : trace_burst c = false -> t + 60 <= now -> (level_gate now l (log_sigusr1_handler t c)).2 = true.
Proof.
  intros Hb Hn. unfold log_sigusr1_handler. rewrite Hb. unfold level_gate. cbn [trace_burst set_levels trace_burst_end].
  replace (t + 60 <=? now) with true by lia. by destruct l.
Qed.

(** A level that is set during the burst is forgotten. *)
Lemma level_set_in_burst_is_lost : min_level (level_gate 100 FATAL (log_set_level ERROR (log_sigusr1_handler 0 lv_sample))).1 = INFO.
Proof. reflexivity. Qed.

(** Rotating one file opens both again and leaves the other handle open. *)
Lemma rotation_leaks can_open c h k : display_log c = Some h -> combined_log c = Some k -> LOG_ROTATE_SIZE <= zlen (content (lfiles c) h) ->
  leaked (lfiles (log_rotate can_open true c)) = S (leaked (lfiles c)).
Proof.
  intros Hd Hk Hs. unfold log_rotate. rewrite Hd, Hk. replace (_ <? _) with false by lia.
  assert (Hl : forall p q f, leaked (rename p q f) = leaked f) by (intros p q f; unfold rename; by destruct (names f !! p)).
  assert (Ho : forall b p f, leaked (open_log can_open b p f).2 = leaked f).
  { intros b p f. unfold open_log. destruct (can_open p); [|done]. unfold fopen. destruct (names f !! p); [by destruct b|done]. }
  cbv zeta. set (f0 := leak _). assert (E0 : leaked f0 = S (leaked (lfiles c))).
  { unfold f0. cbn [leak leaked]. rewrite Hl, shift_files_eq, !Hl. done. }
  pose proof (Ho false display_path f0) as H1. destruct (open_log can_open false display_path f0) as [d f1]. cbn [snd] in H1.
  pose proof (Ho false combined_path f1) as H2. destruct (open_log can_open false combined_path f1) as [k' f2]. cbn [snd] in H2. cbn. congruence.
Qed.
