(* ===== verification/VdmClient.v ===== *)
(** * The client library of the display server ([vdm/project/libclient/client.c])

    The wire format both sides share ([client.h], [display-server/socket.h]), the
    library's calls, and the bytes the server reads and writes around
    [DisplayServer.handle_client_message].  A connection is two streams.  The
    stream to the client is the list of what the server sent and was not read
    yet, each piece with the descriptor that travels with it; reading stops
    behind a piece that carries a descriptor, as [unix(7)] has it. *)

From Stdlib Require Import ZArith Lia.
From stdpp Require Import base numbers list list_numbers option gmap.
From S2P Require Import Prelude CLib Windows Compositor DisplayServer.

(** ** The wire format *)

Definition le32 (n : Z) : list Z := [n mod 256; n / 256 mod 256; n / 65536 mod 256; n / 16777216 mod 256].
Definition rd32 (l : list Z) (off : nat) : Z :=
  nth off l 0 + 256 * nth (off + 1) l 0 + 65536 * nth (off + 2) l 0 + 16777216 * nth (off + 3) l 0.

(** [strncpy(d,s,63); d[63]=0;] over zeroes *)
Definition title_field (ttl : cstr) : list Z := take 63 ttl ++ replicate (64 - length (take 63 ttl)) 0.

(** What the library sends. *)
Definition enc_client (m : client_msg) : list Z :=
  match m with
  | MSG_CREATE_WINDOW w h ttl => le32 1 ++ le32 w ++ le32 h ++ title_field ttl
  | MSG_COMMIT_BUFFER wid => le32 2 ++ le32 wid
  | MSG_DESTROY_WINDOW wid => le32 3 ++ le32 wid
  | MSG_MOVE_WINDOW wid nx ny => le32 4 ++ le32 wid ++ le32 (u32 nx) ++ le32 (u32 ny)
  | MSG_UNKNOWN ty => le32 ty
  end.

(** What the server sends: [pad] fills the last bytes of the two structures
    that end in a byte field. *)
Definition enc_server (pad : list Z) (m : server_msg) : list Z :=
  match m with
  | MSG_WINDOW_CREATED wid shm => le32 101 ++ le32 wid ++ le32 (u32 shm)
  | MSG_WINDOW_CLOSE wid => le32 106 ++ le32 wid
  | MSG_KEY_EVENT wid keycode pressed text => le32 102 ++ le32 wid ++ le32 keycode ++ [u8 pressed] ++ text ++ pad
  | MSG_MOUSE_MOVE wid mx my => le32 103 ++ le32 wid ++ le32 (u32 mx) ++ le32 (u32 my)
  | MSG_MOUSE_BUTTON wid button pressed => le32 104 ++ le32 wid ++ le32 button ++ [u8 pressed] ++ pad
  end.

(** ** The server's side of the stream *)

(** [recv(fd,&msg,sizeof(msg),0)] and the check of its length. *)
Definition read_msg (n : nat) (mk : list Z -> client_msg) (st : list Z) : option client_msg * list Z :=
  (if bool_decide (n <= length st)%nat then Some (mk (take n st)) else None, drop n st).

(** The peek and the reads of [handle_client_message]; [junk] is what the
    variable of a short peek holds. *)
Definition server_read (junk : list Z) (st : list Z) : option client_msg * list Z :=
  match st with
  | [] => (None, [])
  | _ =>
      let ty := rd32 (take 4 st ++ drop (length (take 4 st)) junk) 0 in
      if ty =? 1 then read_msg 76 (fun b => MSG_CREATE_WINDOW (rd32 b 4) (rd32 b 8) (span_until 0 (drop 12 b)).1) st
      else if ty =? 2 then read_msg 8 (fun b => MSG_COMMIT_BUFFER (rd32 b 4)) st
      else if ty =? 3 then read_msg 8 (fun b => MSG_DESTROY_WINDOW (rd32 b 4)) st
      else if ty =? 4 then read_msg 16 (fun b => MSG_MOVE_WINDOW (rd32 b 4) (i32 (rd32 b 8)) (i32 (rd32 b 12))) st
      else (Some (MSG_UNKNOWN ty), st)
  end.

(** ** The client's side of the stream *)

Notation pieces := (list (list Z * option Z)) (only parsing).

(** [recvmsg]: the bytes, the descriptor, what is left. *)
Fixpoint recvmsg (n : nat) (st : pieces) : list Z * option Z * pieces :=
  match st with
  | [] => ([], None, [])
  | (b, f) :: st' =>
      if bool_decide (n = 0%nat) then ([], None, st)
      else if bool_decide (n < length b)%nat then (take n b, f, (drop n b, None) :: st')
      else match f with
           | Some _ => (b, f, st')
           | None => let '(b', f', st'') := recvmsg (n - length b) st' in (b ++ b', f', st'')
           end
  end.
Definition recv (n : nat) (st : pieces) : list Z * pieces := let '(b, _, st') := recvmsg n st in (b, st').
(** [MSG_PEEK] *)
Definition recv_peek (n : nat) (st : pieces) : list Z := (recv n st).1.

(** [None]: the stream ends, or nothing more comes, before [len] bytes. *)
Fixpoint recv_exact (fuel : nat) (len : nat) (got : list Z) (st : pieces) : option (list Z) * pieces :=
  if bool_decide (len <= length got)%nat then (Some got, st)
  else match fuel with
       | O => (None, st)
       | S f =>
           let '(b, st') := recv (len - length got) st in
           match b with [] => (None, st') | _ => recv_exact f len (got ++ b) st' end
       end.

(** ** The library *)

Record display_t := MkDisplay { d_fd : Z; socket_path : cstr }.
(** [size]: the bytes that were mapped. *)
Record cwindow_t := MkCWin { c_id : Z; c_width : Z; c_height : Z; c_shm : Z; c_size : Z; c_title : cstr }.

(** [mem]: whether [calloc] succeeds; [env]: VDM_DISPLAY; [sock]: what [socket]
    returns; [conn]: whether [connect] to the address succeeds.  The address
    holds 107 bytes of the path. *)
Definition display_connect (mem : bool) (env : option cstr) (sock : Z) (conn : cstr -> bool) : option display_t :=
  if negb mem then None else
  p ← env;
  let path := take 255 p in
  if sock <? 0 then None
  else if conn (take 107 path) then Some (MkDisplay sock path) else None.

(** [(size_t)w*h*4] *)
Definition map_size (w h : Z) : Z := u64 (u64 (u64 w * u64 h) * 4).

(** The request; whether it is sent whole is [sent]. *)
Definition create_request (w h : Z) (title : cstr) : client_msg := MSG_CREATE_WINDOW (u32 w) (u32 h) (take 63 title).

(** What a failing call gives back to the system. *)
Inductive release := Close (shm : Z) | Munmap (size : Z).

(** What follows the request: [st] is the stream when the answer is read,
    [mapped] whether [mmap] gives a mapping of that many bytes, [mem] whether
    [calloc] succeeds.  The window, what is given back, the stream. *)
Definition create_answer (w h : Z) (title : cstr) (mapped : Z -> bool) (mem : bool) (st : pieces) :
    option cwindow_t * list release * pieces :=
  let '(b, f, st') := recvmsg 12 st in
  match f with
  | None => (None, [], st')
  | Some shm =>
      if shm <? 0 then (None, [], st')
      else if negb (rd32 b 0 =? 101) then (None, [Close shm], st')
      else
        let size := map_size w h in
        if negb (mapped size) then (None, [Close shm], st')
        else if negb mem then (None, [Munmap size; Close shm], st')
        else (Some (MkCWin (rd32 b 4) w h shm size (take 63 title)), [], st')
  end.

(** [window_create] against a server: [serve] is what the stream to the client
    holds when the request has been answered. *)
Definition client_window_create (sent : bool) (serve : list Z -> pieces) (mapped : Z -> bool) (mem : bool) (w h : Z) (title : cstr) :
    option cwindow_t * list release * pieces :=
  if sent then create_answer w h title mapped mem (serve (enc_client (create_request w h title)))
  else (None, [], serve []).

Definition client_window_commit (win : cwindow_t) : list Z := enc_client (MSG_COMMIT_BUFFER (c_id win)).
Definition client_window_move (win : cwindow_t) (nx ny : Z) : list Z := enc_client (MSG_MOVE_WINDOW (c_id win) nx ny).
(** What is sent; the bytes unmapped and the descriptor closed. *)
Definition client_window_destroy (win : cwindow_t) : list Z * Z * option Z :=
  (enc_client (MSG_DESTROY_WINDOW (c_id win)), c_size win, if 0 <=? c_shm win then Some (c_shm win) else None).
Definition display_disconnect (d : display_t) : option Z := if 0 <=? d_fd d then Some (d_fd d) else None.

Inductive event_t :=
  | EVENT_KEY (wid keycode pressed : Z) (text : list Z)
  | EVENT_MOUSE_MOVE (wid mx my : Z)
  | EVENT_MOUSE_BUTTON (wid button pressed : Z)
  | EVENT_RESIZE (wid w h : Z)
  | EVENT_CLOSE (wid : Z)
  | EVENT_NONE.

(** Read a structure of [n] bytes and make the event; [-1] when it comes short. *)
Definition take_event (n : nat) (mk : list Z -> event_t) (st : pieces) : Z * option event_t * pieces :=
  match recv_exact n n [] st with
  | (Some b, st') => (1, Some (mk b), st')
  | (None, st') => (-1, None, st')
  end.

(** The result, the event written ([None]: not written), the stream. *)
Definition event_poll (junk : list Z) (st : pieces) : Z * option event_t * pieces :=
  let b := recv_peek 4 st in
  match b with
  | [] => (0, Some EVENT_NONE, st)
  | _ =>
      let ty := rd32 (b ++ drop (length b) junk) 0 in
      if ty =? 102 then take_event 24 (fun b => EVENT_KEY (rd32 b 4) (rd32 b 8) (nth 12 b 0) (take 8 (drop 13 b))) st
      else if ty =? 103 then take_event 16 (fun b => EVENT_MOUSE_MOVE (rd32 b 4) (i32 (rd32 b 8)) (i32 (rd32 b 12))) st
      else if ty =? 104 then take_event 16 (fun b => EVENT_MOUSE_BUTTON (rd32 b 4) (rd32 b 8) (nth 12 b 0)) st
      else if ty =? 105 then take_event 16 (fun b => EVENT_RESIZE (rd32 b 4) (rd32 b 8) (rd32 b 12)) st
      else if ty =? 106 then take_event 8 (fun b => EVENT_CLOSE (rd32 b 4)) st
      else (0, Some EVENT_NONE, st)
  end.

(** ** Words on the wire *)

Lemma rd32_at n a l off : 0 <= n < 2^32 -> off = length a -> rd32 (a ++ le32 n ++ l) off = n.
Proof.
  intros Hn ->. unfold rd32, le32. rewrite !(app_nth2 a) by lia.
  replace (length a - length a)%nat with 0%nat by lia. replace (length a + 1 - length a)%nat with 1%nat by lia.
  replace (length a + 2 - length a)%nat with 2%nat by lia. replace (length a + 3 - length a)%nat with 3%nat by lia.
  cbn [nth app]. replace (n / 65536) with (n / 256 / 256) by (by rewrite Z.div_div).
  replace (n / 16777216) with (n / 256 / 256 / 256) by (by rewrite !Z.div_div).
  Z.to_euclidean_division_equations. lia.
Qed.

(** The fields of a message are in the range of their C types. *)
Definition word (n : Z) : Prop := 0 <= n < 2^32.
Definition sword (n : Z) : Prop := -2^31 <= n < 2^31.
Definition client_msg_ok (m : client_msg) : Prop :=
  match m with
  | MSG_CREATE_WINDOW w h ttl => word w /\ word h /\ Forall (fun c => c <> 0) ttl /\ (length ttl <= 63)%nat
  | MSG_COMMIT_BUFFER wid | MSG_DESTROY_WINDOW wid => word wid
  | MSG_MOVE_WINDOW wid nx ny => word wid /\ sword nx /\ sword ny
  | MSG_UNKNOWN _ => False
  end.

Lemma i32_u32 n : sword n -> i32 (u32 n) = n.
Proof. unfold sword, i32, u32. intros Hn. Z.to_euclidean_division_equations. lia. Qed.
Lemma word_u32 n : word (u32 n).
Proof. apply u32_range. Qed.

Lemma span_title ttl k : Forall (fun c => c <> 0) ttl -> (0 < k)%nat -> (span_until 0 (ttl ++ replicate k 0)).1 = ttl.
Proof.
  intros Ht Hk. destruct k; [lia|]. cbn [replicate]. induction Ht as [|c s Hc _ IH]; [done|]. cbn [app span_until].
  case_test; [done|]. destruct (span_until 0 (s ++ 0 :: replicate k 0)). simpl in *. by rewrite IH.
Qed.

(** What the client library sends is what the server reads: for every message
    of the protocol with its fields in range, and whatever follows it on the
    stream, the server's peek and read take exactly the bytes of that message and
    yield its fields. *)
Lemma client_message_read junk m rest : client_msg_ok m -> server_read junk (enc_client m ++ rest) = (Some m, rest).
Proof.
  destruct m as [w h ttl|wid|wid|wid nx ny|ty]; cbn [client_msg_ok]; [| | | |done].
  - intros (Hw & Hh & Ht & Hl). unfold enc_client, title_field. rewrite (take_ge ttl 63) by lia.
    set (f := ttl ++ replicate (64 - length ttl) 0). assert (Hf : length f = 64%nat) by (subst f; rewrite length_app, length_replicate; lia).
    set (b := le32 1 ++ le32 w ++ le32 h ++ f). assert (Hb : length b = 76%nat) by (subst b; rewrite !length_app, Hf; done).
    change (server_read junk (b ++ rest)) with (read_msg 76 (fun b => MSG_CREATE_WINDOW (rd32 b 4) (rd32 b 8) (span_until 0 (drop 12 b)).1) (b ++ rest)).
    unfold read_msg. rewrite bool_decide_eq_true_2 by (rewrite length_app; lia). rewrite take_app_le, take_ge, drop_app_ge, Hb, Nat.sub_diag, drop_0 by lia.
    f_equal. f_equal. f_equal.
    + by apply (rd32_at w (le32 1)).
    + by apply (rd32_at h (le32 1 ++ le32 w)).
    + subst b f. change (drop 12 (le32 1 ++ le32 w ++ le32 h ++ ?f)) with f. apply span_title; [done|lia].
  - intros Hw. change (server_read junk (enc_client (MSG_COMMIT_BUFFER wid) ++ rest)) with
      (Some (MSG_COMMIT_BUFFER (rd32 (le32 2 ++ le32 wid ++ []) 4)), rest). by rewrite (rd32_at wid (le32 2)).
  - intros Hw. change (server_read junk (enc_client (MSG_DESTROY_WINDOW wid) ++ rest)) with
      (Some (MSG_DESTROY_WINDOW (rd32 (le32 3 ++ le32 wid ++ []) 4)), rest). by rewrite (rd32_at wid (le32 3)).
  - intros (Hw & Hx & Hy).
    set (b := le32 4 ++ le32 wid ++ le32 (u32 nx) ++ le32 (u32 ny) ++ []).
    change (server_read junk (enc_client (MSG_MOVE_WINDOW wid nx ny) ++ rest)) with
      (Some (MSG_MOVE_WINDOW (rd32 b 4) (i32 (rd32 b 8)) (i32 (rd32 b 12))), rest).
    assert (E1 : rd32 b 4 = wid) by (by apply (rd32_at wid (le32 4))).
    assert (E2 : rd32 b 8 = u32 nx) by (apply (rd32_at (u32 nx) (le32 4 ++ le32 wid)); [apply word_u32|done]).
    assert (E3 : rd32 b 12 = u32 ny) by (apply (rd32_at (u32 ny) (le32 4 ++ le32 wid ++ le32 (u32 nx))); [apply word_u32|done]).
    by rewrite E1, E2, E3, !i32_u32.
Qed.

Lemma client_message_read_witness :
  server_read [] (enc_client (MSG_MOVE_WINDOW 7 (-3) 400) ++ enc_client (MSG_COMMIT_BUFFER 7)) =
  (Some (MSG_MOVE_WINDOW 7 (-3) 400), enc_client (MSG_COMMIT_BUFFER 7)).
Proof. apply (client_message_read [] (MSG_MOVE_WINDOW 7 (-3) 400)). unfold client_msg_ok, word, sword. lia. Defined.

(** ** Events *)

Definition bytes (st : pieces) : list Z := concat (map fst st).
Definition no_fds (st : pieces) : Prop := Forall (fun p => p.2 = None) st.

Lemma recv_plain n st : no_fds st -> exists st', recv n st = (take n (bytes st), st') /\ bytes st' = drop n (bytes st) /\ no_fds st'.
Proof.
  unfold recv. intros Hst. revert n. induction Hst as [|[b f] st Hf Hst IH]; intros n; cbn [recvmsg].
  { exists []. change (bytes []) with (@nil Z). rewrite take_nil, drop_nil. split_and!; [done|done|by constructor]. }
  cbn [snd] in Hf. subst f. unfold bytes. cbn [map concat fst]. case_bool_decide as Hn.
  { subst n. exists ((b, None) :: st). split_and!; [done|done|]. by constructor. }
  case_bool_decide as Hl.
  - exists ((drop n b, None) :: st). rewrite take_app_le, drop_app_le by lia. split_and!; [done|done|]. by constructor.
  - destruct (IH (n - length b)%nat) as (st' & E & Hb & Hn'). destruct (recvmsg (n - length b) st) as [[b' f'] st''].
    injection E as -> ->. exists st'. rewrite take_app_ge, drop_app_ge by lia. done.
Qed.

Lemma recv_exact_plain n st : no_fds st -> (0 < n <= length (bytes st))%nat ->
  exists st', recv_exact n n [] st = (Some (take n (bytes st)), st') /\ bytes st' = drop n (bytes st) /\ no_fds st'.
Proof.
  intros Hst Hn. destruct n as [|n]; [lia|]. destruct (recv_plain (S n) st Hst) as (st' & E & Hb & Hp).
  exists st'. split; [|done]. cbn [recv_exact length]. rewrite bool_decide_eq_false_2 by lia.
  change (S n - 0)%nat with (S n). rewrite E. assert (Hl : length (take (S n) (bytes st)) = S n) by (rewrite length_take; lia).
  destruct (take (S n) (bytes st)) as [|x l] eqn:Et; [done|]. cbn [app]. destruct n as [|n]; cbn [recv_exact]; by rewrite bool_decide_eq_true_2 by lia.
Qed.

Definition server_msg_ok (m : server_msg) : Prop :=
  match m with
  | MSG_WINDOW_CREATED _ _ => False
  | MSG_WINDOW_CLOSE wid => word wid
  | MSG_KEY_EVENT wid keycode pressed text => word wid /\ word keycode /\ 0 <= pressed < 256 /\ length text = 8%nat
  | MSG_MOUSE_MOVE wid mx my => word wid /\ sword mx /\ sword my
  | MSG_MOUSE_BUTTON wid button pressed => word wid /\ word button /\ 0 <= pressed < 256
  end.
Definition event_of (m : server_msg) : event_t :=
  match m with
  | MSG_WINDOW_CREATED _ _ => EVENT_NONE
  | MSG_WINDOW_CLOSE wid => EVENT_CLOSE wid
  | MSG_KEY_EVENT wid keycode pressed text => EVENT_KEY wid keycode pressed text
  | MSG_MOUSE_MOVE wid mx my => EVENT_MOUSE_MOVE wid mx my
  | MSG_MOUSE_BUTTON wid button pressed => EVENT_MOUSE_BUTTON wid button pressed
  end.

Lemma take_event_plain n mk st b rest e :
  no_fds st -> bytes st = b ++ rest -> (0 < n)%nat -> length b = n -> mk b = e ->
  exists st', take_event n mk st = (1, Some e, st') /\ bytes st' = rest /\ no_fds st'.
Proof.
  intros Hst Hb Hn Hl <-. destruct (recv_exact_plain n st Hst) as (st' & E & Hb' & Hp); [rewrite Hb, length_app; lia|].
  exists st'. unfold take_event. rewrite E, Hb, take_app_le, take_ge by lia. split; [done|]. split; [|done].
  rewrite Hb', Hb, drop_app_ge, Hl, Nat.sub_diag, drop_0 by lia. done.
Qed.

Lemma event_polled junk pad m st rest :
  server_msg_ok m -> length pad = 3%nat -> no_fds st -> bytes st = enc_server pad m ++ rest ->
  exists st', event_poll junk st = (1, Some (event_of m), st') /\ bytes st' = rest /\ no_fds st'.
Proof.
  intros Hm Hp Hst Hb. unfold event_poll, recv_peek. destruct (recv_plain 4 st Hst) as (st0 & E & _). rewrite E, Hb. cbn [fst]. clear E.
  destruct m as [wid shm|wid|wid kc pr text|wid mx my|wid bt pr]; cbn [server_msg_ok event_of] in *; [done|..].
  - change (take 4 (enc_server pad (MSG_WINDOW_CLOSE wid) ++ rest)) with (le32 106).
    eapply take_event_plain; [done|exact Hb|lia|done|]. f_equal. by apply (rd32_at wid (le32 106) []).
  - destruct Hm as (Hw & Hk & Hpr & Ht). change (take 4 (enc_server pad (MSG_KEY_EVENT wid kc pr text) ++ rest)) with (le32 102).
    eapply take_event_plain; [done|exact Hb|lia|unfold enc_server; by rewrite !length_app, Ht, Hp|].
    change (drop 13 (enc_server pad (MSG_KEY_EVENT wid kc pr text))) with (text ++ pad). rewrite take_app_le, take_ge by lia. f_equal.
    + by apply (rd32_at wid (le32 102)).
    + by apply (rd32_at kc (le32 102 ++ le32 wid)).
    + by apply u8_id.
  - destruct Hm as (Hw & Hx & Hy). change (take 4 (enc_server pad (MSG_MOUSE_MOVE wid mx my) ++ rest)) with (le32 103).
    eapply take_event_plain; [done|exact Hb|lia|done|]. rewrite <- (i32_u32 mx), <- (i32_u32 my) by done. f_equal; [|f_equal..].
    + by apply (rd32_at wid (le32 103)).
    + rewrite i32_u32 by done. apply (rd32_at (u32 mx) (le32 103 ++ le32 wid)); [apply word_u32|done].
    + rewrite !i32_u32 by done. apply (rd32_at (u32 my) (le32 103 ++ le32 wid ++ le32 (u32 mx)) []); [apply word_u32|done].
  - destruct Hm as (Hw & Hk & Hpr). change (take 4 (enc_server pad (MSG_MOUSE_BUTTON wid bt pr) ++ rest)) with (le32 104).
    eapply take_event_plain; [done|exact Hb|lia|unfold enc_server; by rewrite !length_app, Hp|]. f_equal.
    + by apply (rd32_at wid (le32 104)).
    + by apply (rd32_at bt (le32 104 ++ le32 wid)).
    + by apply u8_id.
Qed.

(** [n] calls of [event_poll] in a row. *)
Fixpoint poll_n (n : nat) (junk : list Z) (st : pieces) : list (Z * option event_t) :=
  match n with
  | O => []
  | S n' => let '(r, e, st') := event_poll junk st in (r, e) :: poll_n n' junk st'
  end.

(** C25: Events arrive complete and in order: when the stream holds the bytes the
    server sent for a list of events, cut into pieces in any way, that many polls
    return exactly these events one by one, and the next poll says there is none. *)
Theorem events_in_order junk pad ms st :
  Forall server_msg_ok ms -> length pad = 3%nat -> no_fds st -> bytes st = concat (map (enc_server pad) ms) ->
  poll_n (S (length ms)) junk st = map (fun m => (1, Some (event_of m))) ms ++ [(0, Some EVENT_NONE)].
Proof.
  intros Hms Hp. revert st. induction Hms as [|m ms Hm _ IH]; intros st Hst Hb.
  - cbn [length poll_n map app]. unfold event_poll, recv_peek. destruct (recv_plain 4 st Hst) as (st0 & E & _). by rewrite E, Hb.
  - cbn [map concat] in Hb. destruct (event_polled junk pad m st _ Hm Hp Hst Hb) as (st' & E & Hb' & Hst').
    change (poll_n (S (length (m :: ms))) junk st) with (let '(r, e, st') := event_poll junk st in (r, e) :: poll_n (S (length ms)) junk st').
    rewrite E. cbn [map app]. f_equal. by apply IH.
Qed.

Lemma events_in_order_witness :
  poll_n 3 [] [([103; 0; 0], None); ([0; 7; 0; 0; 0; 255; 255; 255; 255; 4; 0; 0; 0; 106; 0; 0; 0], None); ([7; 0; 0; 0], None)] =
  [(1, Some (EVENT_MOUSE_MOVE 7 (-1) 4)); (1, Some (EVENT_CLOSE 7)); (0, Some EVENT_NONE)].
Proof.
  apply (events_in_order [] [0; 0; 0] [MSG_MOUSE_MOVE 7 (-1) 4; MSG_WINDOW_CLOSE 7]).
  - repeat constructor; unfold word, sword; lia.
  - reflexivity.
  - repeat constructor.
  - reflexivity.
Defined.

(** ** Creating a window, end to end *)

(** The answers of the server on the client's stream; the descriptor of the
    buffer stands for the memory it refers to. *)
Definition answer_pieces (pad : list Z) (out : sends) : pieces :=
  map (fun p => (enc_server pad p.2, match p.2 with MSG_WINDOW_CREATED _ shm => Some shm | _ => None end)) out.

(** One request of a client: read it, handle it; the table and the answers. *)
Definition serve_request (junk pad : list Z) (s : socket_server_t) (ci : Z) (os : option Z) (req : list Z) (wm : window_manager_t) :
    option (window_manager_t * pieces) :=
  match handle_client_message s ci os (server_read junk req).1 wm with
  | Some (_, wm', out) => Some (wm', answer_pieces pad out)
  | None => None
  end.

Lemma serve_move junk pad s ci os win nx ny wm :
  word (c_id win) -> sword nx -> sword ny ->
  serve_request junk pad s ci os (client_window_move win nx ny) wm = Some (window_move (c_id win) nx ny wm, []).
Proof.
  intros Hw Hx Hy. unfold serve_request, client_window_move.
  pose proof (client_message_read junk (MSG_MOVE_WINDOW (c_id win) nx ny) []) as E. rewrite app_nil_r in E. by rewrite E.
Qed.

(** The client's side, when the server's answer is next. *)
Lemma created_answer pad fdn w h ttl mapped mem wid shm :
  word wid -> 0 <= shm ->
  create_answer w h ttl mapped mem (answer_pieces pad [(fdn, MSG_WINDOW_CREATED wid shm)]) =
    (if mapped (buf_size w h) then
       if mem then (Some (MkCWin wid w h shm (buf_size w h) (take 63 ttl)), [], []) else (None, [Munmap (buf_size w h); Close shm], [])
     else (None, [Close shm], [])).
Proof.
  intros Hw Hs. unfold create_answer, answer_pieces. cbn [map snd recvmsg enc_server].
  change (bool_decide (12 = 0)%nat) with false. cbv iota.
  match goal with |- context [bool_decide (12 < length ?l)%nat] => change (bool_decide (12 < length l)%nat) with false end. cbv iota.
  rewrite (proj2 (Z.ltb_ge _ _)) by lia.
  change (rd32 (le32 101 ++ le32 wid ++ le32 (u32 shm)) 0 =? 101) with true. cbn [negb].
  rewrite (rd32_at wid (le32 101)) by done. change (map_size w h) with (buf_size w h). by destruct (mapped _), mem.
Qed.

(** What the client holds of a window, and what the server's table holds. *)
Definition holds_window (s : socket_server_t) (ci w h : Z) (ttl : cstr) (wid : Z) (b : shm_buf_t) (wm wm' : window_manager_t) : Prop :=
  wm_map wm !! wid = None /\
  wm_map wm' = <[wid := MkWin wid (cpid (client_at s ci)) ci 0 0 w h (take 63 ttl) b true false]> (wm_map wm).

(** C24: Creating a window from the client library to the server and back: for
    every request of a size and a title, the answer being next on the client's
    stream and fewer than 2^31-1 numbers given out, the server answers and takes
    the client's stream to its end, and one of two things happened.  The server
    made no window: its table holds the windows it held before, and the client
    gets none and has nothing to give back.  Or the server's table holds one more
    window, under a number that was free, with the requested size and title, for
    this client; then the client gets the window of that number, size and title
    on the same memory exactly when it can map the memory and allocate its
    structure, and otherwise it gets none, unmaps what it mapped and closes the
    descriptor, and the server keeps the window. *)
Theorem create_end_to_end junk pad s ci os wm w h ttl mapped mem :
  wm_ok wm -> next_id wm + 1 < 2^31 -> sword w -> sword h -> Forall (fun c => c <> 0) ttl ->
  (forall f, os = Some f -> 0 <= f < 2^31) ->
  exists wm' st, serve_request junk pad s ci os (enc_client (create_request w h ttl)) wm = Some (wm', st) /\ wm_ok wm' /\
    (wm_map wm' = wm_map wm /\ create_answer w h ttl mapped mem st = (None, [], []) \/
     exists wid b, holds_window s ci w h ttl wid b wm wm' /\
       create_answer w h ttl mapped mem st =
         (if mapped (buf_size w h) then
            if mem then (Some (MkCWin wid w h (shm_fd b) (buf_size w h) (take 63 ttl)), [], [])
            else (None, [Munmap (buf_size w h); Close (shm_fd b)], [])
          else (None, [Close (shm_fd b)], []))).
Proof.
  intros Hok Hn Hw Hh Ht Hos. unfold serve_request, create_request.
  set (m := MSG_CREATE_WINDOW (u32 w) (u32 h) (take 63 ttl)).
  assert (Hm : client_msg_ok m).
  { split_and!; [apply word_u32|apply word_u32|by apply Forall_take|rewrite length_take; lia]. }
  pose proof (client_message_read junk m [] Hm) as E. rewrite app_nil_r in E. rewrite E. cbn [fst m handle_client_message].
  rewrite !i32_u32 by done.
  pose proof (window_create_spec os ci (cpid (client_at s ci)) w h (take 63 ttl) wm Hok) as Hc.
  destruct (window_create os ci (cpid (client_at s ci)) w h (take 63 ttl) wm) as [r wm'].
  destruct Hc as (Hok' & _ & Hc); [lia|]. rewrite take_take, Nat.min_id in Hc.
  destruct Hc as [[-> Hmap]|(b & Hb & -> & Hfree & Hmap)].
  { eexists wm', _. split; [reflexivity|]. split; [done|]. left. split; [exact Hmap|reflexivity]. }
  pose proof (wm_next _ Hok). assert (Hid : i32 (next_id wm) = next_id wm) by (apply i32_id; lia).
  rewrite Hid, (proj2 (Z.ltb_ge _ _)) by lia. rewrite u32_id by lia.
  destruct (window_find_spec wm' (next_id wm) Hok') as [[_ Hl]|(n & win & -> & Hwn & _ & _ & Hl)];
    [by rewrite Hmap, lookup_insert_eq in Hl|]. cbn [mbind option_bind]. rewrite (win_at_nat wm' n win) by done.
  rewrite Hmap, lookup_insert_eq in Hl. injection Hl as <-. cbn [buffer].
  assert (Hfd : 0 <= shm_fd b < 2^31).
  { destruct os as [f|]; [|done]. cbn [shm_create mbind option_bind] in Hb. injection Hb as <-. by apply Hos. }
  eexists wm', _. split; [reflexivity|]. split; [done|]. right. exists (next_id wm), b. split; [done|].
  by rewrite created_answer by (unfold word; lia).
Qed.

Lemma create_end_to_end_witness :
  exists wm' st, serve_request [] [0; 0; 0] server_zero 0 (Some 7) (enc_client (create_request 2 1 [97])) window_manager_init = Some (wm', st) /\ wm_ok wm' /\
    (wm_map wm' = wm_map window_manager_init /\ create_answer 2 1 [97] (fun _ => true) true st = (None, [], []) \/
     exists wid b, holds_window server_zero 0 2 1 [97] wid b window_manager_init wm' /\
       create_answer 2 1 [97] (fun _ => true) true st = (Some (MkCWin wid 2 1 (shm_fd b) (buf_size 2 1) (take 63 [97])), [], [])).
Proof.
  apply (create_end_to_end [] [0; 0; 0] server_zero 0 (Some 7) window_manager_init 2 1 [97] (fun _ => true) true);
    [apply wm_init_ok|done|unfold sword; lia|unfold sword; lia|by repeat constructor|].
  intros f [= <-]. lia.
Defined.

(** ** What the library gets wrong *)

(** The answer is expected to be next on the stream: with an event in front of
    it the call fails, the server keeps the window, and what is left of the
    event is taken for the next message. *)
Lemma pending_event_breaks_create :
  let key := enc_server [0; 0; 0] (MSG_KEY_EVENT 1 30 1 (replicate 8 0)) in
  let st := [(key, None); (enc_server [] (MSG_WINDOW_CREATED 2 9), Some 9)] in
  create_answer 2 1 [97] (fun _ => true) true st = (None, [], [(drop 12 key, None); (enc_server [] (MSG_WINDOW_CREATED 2 9), Some 9)]).
Proof. vm_compute. auto. Qed.

(** A message of an unknown type is not consumed: every later poll finds it
    again, and no event behind it is ever delivered. *)
Lemma unknown_message_blocks n junk wid shm st :
  poll_n n junk ((enc_server [] (MSG_WINDOW_CREATED wid shm), Some shm) :: st) = replicate n (0, Some EVENT_NONE).
Proof. induction n as [|n IH]; [done|]. cbn [poll_n replicate]. by f_equal. Qed.

(** When the buffer cannot be mapped the client gives up without telling the
    server, whose window stays. *)
Lemma failed_map_leaks_window :
  exists wm' st, serve_request [] [] server_zero 0 (Some 7) (enc_client (create_request 2 1 [97])) window_manager_init = Some (wm', st) /\
    create_answer 2 1 [97] (fun _ => false) true st = (None, [Close 7], []) /\ is_Some (wm_map wm' !! 1).
Proof. eexists _, _. split; [reflexivity|]. split; [vm_compute; reflexivity|]. vm_compute. eauto. Qed.
