(* ===== verification/Terminal.v ===== *)
(** * Terminal window ([vdm/project/demo/demo-terminal.c])

    A terminal emulator in a window of the display server: a grid of 30 rows of
    80 cells with a cursor, written byte by byte through a machine for escape
    sequences, rendered with a bitmap font, and fed by the keyboard with
    auto-repeat.  A store outside the grid is the result [None]. *)

From Stdlib Require Import ZArith Lia Sorted.
From stdpp Require Import strings base numbers list list_numbers option.
From S2P Require Import Prelude CLib Windows Compositor DisplayServer VdmClient.

Notation TERM_COLS := 80 (only parsing).
Notation TERM_ROWS := 30 (only parsing).
Notation FONT_W := 8 (only parsing).
Notation FONT_H := 16 (only parsing).

(** Glyphs of the characters 0x20 to 0x7E; the others are empty. *)
Definition font_glyphs : list Z :=
  [0x00000000000000000000000000000000; 0x0000183C3C1818181818181800181800;
   0x00666666240000000000000000000000; 0x00006C6CFE6C6C6CFE6C6C0000000000;
   0x18183E603C603C067E18180000000000; 0x0000C6CCCC183060CCCCCC0000000000;
   0x00386C6C3876DCCCCCCC760000000000; 0x00181818300000000000000000000000;
   0x000C1830303030303030180C00000000; 0x0030180C0C0C0C0C0C0C183000000000;
   0x0000663CFF3C66000000000000000000; 0x00001818187E18181800000000000000;
   0x00000000000000000018181830000000; 0x00000000007E00000000000000000000;
   0x00000000000000000018180000000000; 0x00060C181830306060C0C00000000000;
   0x003C66C3C3C3C3C3C3C3663C00000000; 0x00183878181818181818187E00000000;
   0x003C66C3060C183060C0C3FF00000000; 0x003C66C306061C0606C3663C00000000;
   0x000C1C3C6CCCFE0C0C0C0C1E00000000; 0x00FFC0C0C0FC060606C3663C00000000;
   0x003C66C0C0FCC6C6C6C6663C00000000; 0x00FFC60C181830303030303000000000;
   0x003C66C6C66C386CC6C6663C00000000; 0x003C66C6C6663E060606663C00000000;
   0x00000018180000000018180000000000; 0x00000018180000000018181830000000;
   0x00060C183060C06030180C0600000000; 0x0000000000FE0000FE00000000000000;
   0x006030180C0603060C18306000000000; 0x003C66C60C1818180018180000000000;
   0x003C66C3C3C3DBDBC0C0C37E00000000; 0x00183C66666666FEFE66666600000000;
   0x00FC666666667C66666666FC00000000; 0x003C66C3C0C0C0C0C0C3663C00000000;
   0x00F86C666666666666666CF800000000; 0x00FE666260607C60606266FE00000000;
   0x00FE666260607C60606266FE00000000; 0x003C66C3C0C0CECEC6C3663C00000000;
   0x006666666666FEFE6666666600000000; 0x003C1818181818181818183C00000000;
   0x001E0C0C0C0C0C0CCCCCCC7800000000; 0x00E6666C6C78786C6C6666E600000000;
   0x00F0606060606060606266FE00000000; 0x0063777F7F6B6B6B6363636300000000;
   0x00E666666E6E7676666666E600000000; 0x003C66C3C3C3C3C3C3C3663C00000000;
   0x00FC666666667C60606060F000000000; 0x003C66C3C3C3C3C3DBDB663C06000000;
   0x00FC666666667C6C666666E600000000; 0x003C66C36030180C06C3663C00000000;
   0x007E7E5A181818181818183C00000000; 0x00666666666666666666663C00000000;
   0x00666666666666663C3C181800000000; 0x006363636B6B6B7F7F77636300000000;
   0x0066663C3C18183C3C66666600000000; 0x006666663C3C18181818183C00000000;
   0x00FEC6860C183060C0C2C6FE00000000; 0x007C6060606060606060607C00000000;
   0x00C0C06060303018180C0C0600000000; 0x007C0C0C0C0C0C0C0C0C0C7C00000000;
   0x00183C66660000000000000000000000; 0x000000000000000000000000000000FF;
   0x00181830000000000000000000000000; 0x0000000000780C7CCCCCCC7600000000;
   0x00E06060607C66666666667C00000000; 0x00000000007CC6C0C0C0C67C00000000;
   0x001C0C0C0C7CCCCCCCCCCC7600000000; 0x00000000007CC6FEC0C0C67C00000000;
   0x001C3630307C30303030307800000000; 0x000000000076CCCCCCCCCC7C0CCC7800;
   0x00E06060607C6666666666E600000000; 0x00181800003818181818183C00000000;
   0x000C0C00001C0C0C0C0CCCCCCCCC7800; 0x00E06060666C78786C6666E600000000;
   0x00381818181818181818183C00000000; 0x0000000000ECFEFED6D6D6C600000000;
   0x0000000000DC66666666666600000000; 0x00000000007CC6C6C6C6C67C00000000;
   0x0000000000DC66666666667C6060F000; 0x000000000076CCCCCCCCCC7C0C0C1E00;
   0x0000000000DC7660606060F000000000; 0x00000000007CC07C0606CC7800000000;
   0x00103030FC3030303030361C00000000; 0x0000000000CCCCCCCCCCCC7600000000;
   0x0000000000666666663C3C1800000000; 0x0000000000C6C6C6D6FE6C6C00000000;
   0x0000000000C6C66C38386CC600000000; 0x000000000066666666663C183060C000;
   0x0000000000FECC183060C6FE00000000; 0x000E1818187018181818180E00000000;
   0x00181818181818181818181818181800; 0x00701818180E18181818187000000000;
   0x0076DC00000000000000000000000000].
(** The sixteen rows of a glyph, one byte each, the first in the highest place. *)
Definition glyph_rows (n : Z) : list Z := map (fun k => Z.land (Z.shiftr n (8 * (15 - k))) 0xFF) (seqZ 0 16).
Definition font_data (ch : Z) : list Z :=
  if (0x20 <=? ch) && (ch <=? 0x7E) then glyph_rows (aget 0 font_glyphs (ch - 0x20)) else replicate 16 0.

Record term_cell_t := Cell { ch : Z; fg_r : Z; fg_g : Z; fg_b : Z; bg_r : Z; bg_g : Z; bg_b : Z }.
Definition set_ch (x : Z) (c : term_cell_t) : term_cell_t := Cell x (fg_r c) (fg_g c) (fg_b c) (bg_r c) (bg_g c) (bg_b c).
Definition set_fg (x : Z) (c : term_cell_t) : term_cell_t := Cell (ch c) x x x (bg_r c) (bg_g c) (bg_b c).
Definition no_cell : term_cell_t := Cell 0 0 0 0 0 0 0.

(** [esc_buf]: the parameters so far, [esc_len] of them. *)
Record term := Term { grid : list (list term_cell_t); tcol : Z; trow : Z; esc_state : Z; esc_buf : list Z }.
Definition set_grid g t := Term g (tcol t) (trow t) (esc_state t) (esc_buf t).
Definition set_cur c r t := Term (grid t) c r (esc_state t) (esc_buf t).
Definition set_esc n b t := Term (grid t) (tcol t) (trow t) n b.

(** ** The grid *)

Definition blank : term_cell_t := Cell 32 0 0 0 0x1e 0x1e 0x2e.
Definition term_clear (t : term) : term := set_grid (replicate 30 (replicate 80 blank)) t.

(** [for(c=lo;c<hi;c++) term_buffer[r][c].ch=' ';] *)
Definition blank_row (lo hi : Z) (cells : list term_cell_t) : list term_cell_t :=
  for_ lo hi (fun c cells => aset cells c (set_ch 32 (aget no_cell cells c))) cells.
Definition blank_cells (r lo hi : Z) (t : term) : option term :=
  if (lo <? hi) && negb ((0 <=? r) && (r <? TERM_ROWS) && (0 <=? lo) && (hi <=? TERM_COLS)) then None
  else Some (set_grid (aset (grid t) r (blank_row lo hi (aget [] (grid t) r))) t).

Definition term_clear_line_from_cursor (t : term) : option term := blank_cells (trow t) (tcol t) TERM_COLS t.
Definition term_clear_line_to_cursor (t : term) : option term := blank_cells (trow t) 0 (tcol t + 1) t.
Definition term_clear_screen_from_cursor (t : term) : option term :=
  t ← term_clear_line_from_cursor t;
  for_ (trow t + 1) TERM_ROWS (fun r o => t ← o; blank_cells r 0 TERM_COLS t) (Some t).
Definition term_clear_screen_to_cursor (t : term) : option term :=
  t ← term_clear_line_to_cursor t;
  for_ 0 (trow t) (fun r o => t ← o; blank_cells r 0 TERM_COLS t) (Some t).
Definition term_clear_screen (t : term) : term := set_cur 0 0 (term_clear t).

Definition term_move_cursor (col row : Z) (t : term) : term :=
  set_cur (if (0 <=? col) && (col <? TERM_COLS) then col else tcol t) (if (0 <=? row) && (row <? TERM_ROWS) then row else trow t) t.

Definition put_row (col : Z) (x : Z) (cells : list term_cell_t) : list term_cell_t :=
  aset cells col (set_fg 0xCC (set_ch x (aget no_cell cells col))).
Definition term_putchar (col row x : Z) (t : term) : term :=
  if (0 <=? col) && (col <? TERM_COLS) && (0 <=? row) && (row <? TERM_ROWS)
  then set_grid (aset (grid t) row (put_row col x (aget [] (grid t) row))) t else t.

Definition scroll_rows (g : list (list term_cell_t)) : list (list term_cell_t) :=
  for_ 1 TERM_ROWS (fun r g => aset g (r - 1) (aget [] g r)) g.
Definition scrolled (g : list (list term_cell_t)) : list (list term_cell_t) :=
  let g := scroll_rows g in
  aset g (TERM_ROWS - 1) (for_ 0 TERM_COLS (fun c cells => put_row c 32 cells) (aget [] g (TERM_ROWS - 1))).
Definition term_scroll (t : term) : term := set_grid (scrolled (grid t)) t.

(** ** The byte machine *)

(** [cursor_col=0; cursor_row++;] with scrolling *)
Definition new_line (t : term) : term :=
  if TERM_ROWS <=? trow t + 1 then set_cur 0 (TERM_ROWS - 1) (term_scroll (set_cur 0 (trow t + 1) t)) else set_cur 0 (trow t + 1) t.

(** [atoi] on a string of digits and semicolons: [(int)strtol(s,NULL,10)]. *)
Definition atoi (s : list Z) : Z := i32 (Z.min (read_digits 10 0 s).1 (2^63 - 1)).
Definition is_param (c : Z) : bool := is_digit c || (c =? 59).

Definition ground_char (c : Z) (t : term) : term :=
  if c =? 27 then set_esc 1 [] t
  else if c =? c_nl then new_line t
  else if c =? c_cr then set_cur 0 (trow t) t
  else if c =? c_bs then if 0 <? tcol t then set_cur (tcol t - 1) (trow t) t else t
  else if c =? 9 then
    let next := Z.land (tcol t + 8) (Z.lnot 7) in
    set_cur (if next <? TERM_COLS then next else TERM_COLS - 1) (trow t) t
  else if (32 <=? c) && (c <? 127) then
    let t := term_putchar (tcol t) (trow t) c t in
    let t := set_cur (tcol t + 1) (trow t) t in
    if TERM_COLS <=? tcol t then new_line t else t
  else t.

(** [strchr(esc_buf,';')]: the parameters before and after it. *)
Fixpoint split_semi (s : list Z) : list Z * option (list Z) :=
  match s with
  | [] => ([], None)
  | c :: s' => if c =? 59 then ([], Some s') else let '(a, b) := split_semi s' in (c :: a, b)
  end.
Definition count_param (p : list Z) : Z := if bool_decide (p = []) then 1 else atoi p.

Definition csi_final (c : Z) (p : list Z) (t : term) : option term :=
  if c =? 75 then
    if bool_decide (p = []) then term_clear_line_from_cursor t
    else if aget 0 p 0 =? 48 then term_clear_line_from_cursor t
    else if aget 0 p 0 =? 49 then term_clear_line_to_cursor t
    else if aget 0 p 0 =? 50 then blank_cells (trow t) 0 TERM_COLS t
    else Some t
  else if c =? 74 then
    if bool_decide (p = []) || (aget 0 p 0 =? 48) then term_clear_screen_from_cursor t
    else if aget 0 p 0 =? 50 then Some (term_clear_screen t)
    else Some t
  else if (c =? 72) || (c =? 102) then
    let '(row, col) :=
      if bool_decide (p = []) then (0, 0)
      else match split_semi p with
           | (a, Some b) => (i32 (atoi a - 1), i32 (atoi b - 1))
           | (a, None) => (i32 (atoi a - 1), 0)
           end in
    Some (term_move_cursor col row t)
  else if c =? 65 then Some (term_move_cursor (tcol t) (i32 (trow t - count_param p)) t)
  else if c =? 66 then Some (term_move_cursor (tcol t) (i32 (trow t + count_param p)) t)
  else if c =? 67 then Some (term_move_cursor (i32 (tcol t + count_param p)) (trow t) t)
  else if c =? 68 then Some (term_move_cursor (i32 (tcol t - count_param p)) (trow t) t)
  else Some t.

(** The argument is a byte; as a [char] it is signed. *)
Definition term_write_char (b : Z) (t : term) : option term :=
  let c := i8 b in
  if esc_state t =? 0 then Some (ground_char c t)
  else if esc_state t =? 1 then Some (if c =? 91 then set_esc 2 [] t else set_esc 0 (esc_buf t) t)
  else if esc_state t =? 2 then
    if (c =? 63) || (c =? 61) then Some (set_esc 3 (esc_buf t) t)
    else if is_param c then Some (if zlen (esc_buf t) <? 63 then set_esc 2 (esc_buf t ++ [c]) t else t)
    else if negb (zlen (esc_buf t) <? 64) then None
    else t ← csi_final c (esc_buf t) t; Some (set_esc 0 [] t)
  else if esc_state t =? 3 then
    Some (if is_param c || (c =? 63) || (c =? 61) || (c =? 62) || (c =? 60) then t else set_esc 0 [] t)
  else Some t.

Fixpoint term_write_str (s : list Z) (t : term) : option term :=
  match s with [] => Some t | b :: s' => t ← term_write_char b t; term_write_str s' t end.

(** ** Rendering *)

Definition draw_char (w h px py c fg bg : Z) (buf : list Z) : list Z :=
  let glyph := font_data (u8 c) in
  for_ 0 FONT_H (fun row buf =>
    let bits := aget 0 glyph row in
    for_ 0 FONT_W (fun col buf =>
      let dx := px + col in
      let dy := py + row in
      if (dx <? 0) || (w <=? dx) || (dy <? 0) || (h <=? dy) then buf
      else aset buf (dy * w + dx) (if Z.land bits (Z.shiftr 0x80 col) =? 0 then bg else fg)) buf) buf.

Definition rgb (r g b : Z) : Z := Z.lor (Z.lor (Z.shiftl r 16) (Z.shiftl g 8)) b.
Definition term_render (t : term) (w h : Z) (blink : bool) (buf : list Z) : list Z :=
  let buf := for_ 0 h (fun y buf => for_ 0 w (fun x buf => aset buf (y * w + x) 0xFF1a1a2e) buf) buf in
  let buf := for_ 0 TERM_ROWS (fun row buf => for_ 0 TERM_COLS (fun col buf =>
    let cell := aget no_cell (aget [] (grid t) row) col in
    draw_char w h (col * FONT_W) (row * FONT_H) (ch cell) (rgb (fg_r cell) (fg_g cell) (fg_b cell)) (rgb (bg_r cell) (bg_g cell) (bg_b cell)) buf) buf) buf in
  if blink then
    let px := tcol t * FONT_W in
    let py := trow t * FONT_H in
    for_ 0 (Z.min FONT_H (h - py)) (fun row buf =>
      for_ 0 (Z.min 2 (w - px)) (fun col buf => aset buf ((py + row) * w + (px + col)) 0xFFFF0000) buf) buf
  else buf.

(** ** The program *)

(** [sent]: the bytes written to the shell; [running], the key that repeats and
    the blinking of the cursor are locals and statics of [main]. *)
Record prog := Prog {
  p_term : term; p_sent : list Z; p_running : bool; p_shell : bool;
  repeat_keycode : Z; repeat_first_time : Z; repeat_last_time : Z; repeat_text : list Z; key_held : bool;
  blink_state : bool; blink_timer : Z }.
Definition set_term t p := Prog t (p_sent p) (p_running p) (p_shell p) (repeat_keycode p) (repeat_first_time p) (repeat_last_time p) (repeat_text p) (key_held p) (blink_state p) (blink_timer p).
Definition set_running b p := Prog (p_term p) (p_sent p) b (p_shell p) (repeat_keycode p) (repeat_first_time p) (repeat_last_time p) (repeat_text p) (key_held p) (blink_state p) (blink_timer p).
Definition set_shell b p := Prog (p_term p) (p_sent p) (p_running p) b (repeat_keycode p) (repeat_first_time p) (repeat_last_time p) (repeat_text p) (key_held p) (blink_state p) (blink_timer p).
Definition set_repeat k f l x held p := Prog (p_term p) (p_sent p) (p_running p) (p_shell p) k f l x held (blink_state p) (blink_timer p).
Definition set_blink b n p := Prog (p_term p) (p_sent p) (p_running p) (p_shell p) (repeat_keycode p) (repeat_first_time p) (repeat_last_time p) (repeat_text p) (key_held p) b n.
Definition send_to_shell (bs : list Z) p := Prog (p_term p) (p_sent p ++ bs) (p_running p) (p_shell p) (repeat_keycode p) (repeat_first_time p) (repeat_last_time p) (repeat_text p) (key_held p) (blink_state p) (blink_timer p).

(** The bytes of a key without text. *)
Definition plain_key (keycode : Z) : list Z := if keycode =? 28 then [c_cr] else if keycode =? 14 then [c_bs] else [].

(** One event; [now] is the time [get_time_ms] gives.  [text] has eight bytes;
    without a terminator in it [strlen] leaves the structure. *)
Definition on_event (now : Z) (e : event_t) (p : prog) : option prog :=
  match e with
  | EVENT_CLOSE _ => Some (set_running false p)
  | EVENT_KEY _ keycode pressed text =>
      if pressed =? 0 then Some (if repeat_keycode p =? keycode
                                 then set_repeat (repeat_keycode p) (repeat_first_time p) (repeat_last_time p) (repeat_text p) false p else p)
      else if negb (existsb (Z.eqb 0) text) then None
      else
        let txt := (span_until 0 text).1 in
        let p := if negb (bool_decide (txt = [])) then send_to_shell txt p
                 else if (keycode =? 28) || (keycode =? 14) then send_to_shell (plain_key keycode) p
                 else if keycode =? 1 then set_running false p else p in
        Some (set_repeat keycode now now txt true p)
  | _ => Some p
  end.
Fixpoint on_events (es : list (Z * event_t)) (p : prog) : option prog :=
  match es with [] => Some p | (now, e) :: es' => p ← on_event now e p; on_events es' p end.

Definition REPEAT_DELAY_MS : Z := 200.
Definition REPEAT_RATE_MS : Z := 50.
Definition auto_repeat (now : Z) (p : prog) : prog :=
  if key_held p && (REPEAT_DELAY_MS <? u64 (now - repeat_first_time p)) && (REPEAT_RATE_MS <? u64 (now - repeat_last_time p)) then
    let p := send_to_shell (if negb (bool_decide (repeat_text p = [])) then repeat_text p else plain_key (repeat_keycode p)) p in
    set_repeat (repeat_keycode p) (repeat_first_time p) now (repeat_text p) (key_held p) p
  else p.

(** [read_from_pty]: what the reads return, up to 4096 bytes each. *)
Fixpoint read_from_pty (chunks : list (list Z)) (t : term) : option term :=
  match chunks with [] => Some t | b :: chunks' => t ← term_write_str b t; read_from_pty chunks' t end.

Definition exited_msg : list Z := [c_cr; c_nl] ++ cs "[Process exited]" ++ [c_cr; c_nl].
Definition do_blink (p : prog) : prog :=
  let n := u64 (blink_timer p + 1) in if 30 <? n then set_blink (negb (blink_state p)) 0 p else set_blink (blink_state p) n p.

(** What one pass meets: events with their times, the time, the output of the
    shell, and whether it ended. *)
Record meets := Meets { m_events : list (Z * event_t); m_now : Z; m_output : list (list Z); m_exited : bool }.
(** The new state and the frame that is committed. *)
Definition window_pass (m : meets) (pb : prog * list Z) : option (prog * list Z) :=
  let '(p, buf) := pb in
  p ← on_events (m_events m) p;
  let p := auto_repeat (m_now m) p in
  t ← read_from_pty (m_output m) (p_term p);
  let p := set_term t p in
  p ← (if m_exited m && p_shell p then t ← term_write_str exited_msg (p_term p); Some (set_shell false (set_term t p)) else Some p);
  let p := do_blink p in
  Some (p, term_render (p_term p) 640 480 (blink_state p) buf).

(** The passes until the program is left; [None] when the list ends before. *)
Fixpoint window_loop (ms : list meets) (pb : prog * list Z) : option (prog * list Z) :=
  match ms with
  | [] => Some pb
  | m :: ms' => if p_running pb.1 then pb ← window_pass m pb; window_loop ms' pb else Some pb
  end.

(** The statics, and the two lines of greeting: the second call passes 23 of
    its 24 bytes. *)
Definition term0 : term := term_clear (Term [] 0 0 0 []).
Definition greeting1 : list Z := cs "=== VDM Terminal ===" ++ [c_cr; c_nl].
Definition greeting2 : list Z := take 23 (cs "Type commands below:" ++ [c_cr; c_nl; c_cr; c_nl]).
Definition main_start : option prog :=
  t ← term_write_str greeting1 term0;
  t ← term_write_str greeting2 t;
  Some (Prog t [] true true 0 0 0 [] false true 0).

(** ** Grids *)

Definition grid_ok (g : list (list term_cell_t)) : Prop := zlen g = 30 /\ Forall (fun row => zlen row = 80) g.
Definition gcell (g : list (list term_cell_t)) (r c : Z) : term_cell_t := aget no_cell (aget [] g r) c.

Lemma grid_row g r : grid_ok g -> 0 <= r < 30 -> zlen (aget [] g r) = 80.
Proof.
  intros [Hl Hf] Hr. unfold aget. unfold zlen in Hl. destruct (lookup_lt_is_Some_2 g (Z.to_nat r)) as [row Hrow]; [lia|].
  rewrite nth_lookup, Hrow. cbn. by eapply Forall_lookup_1 in Hf.
Qed.

Lemma grid_upd g r row : grid_ok g -> 0 <= r < 30 -> zlen row = 80 ->
  grid_ok (aset g r row) /\ forall r' c, 0 <= r' -> gcell (aset g r row) r' c = if r' =? r then aget no_cell row c else gcell g r' c.
Proof.
  intros [Hl Hf] Hr Hrow. split.
  - split; [by rewrite zlen_aset|]. unfold aset. by apply Forall_insert.
  - intros r' c Hr'. unfold gcell. case_test; [subst; by rewrite aget_aset_eq by lia|by rewrite aget_aset_ne by lia].
Qed.

Lemma row_upd {f : term_cell_t -> term_cell_t} lo hi cells : 0 <= lo -> hi <= zlen cells ->
  let cells' := for_ lo hi (fun c cells => aset cells c (f (aget no_cell cells c))) cells in
  zlen cells' = zlen cells /\ forall c, 0 <= c -> aget no_cell cells' c = if (lo <=? c) && (c <? hi) then f (aget no_cell cells c) else aget no_cell cells c.
Proof.
  intros Hlo Hhi. cbv zeta. destruct (Z.le_gt_cases hi lo).
  { rewrite for_done by done. split; [done|]. intros c Hc. by replace ((lo <=? c) && (c <? hi)) with false by lia. }
  apply (for_ind (fun k cells' => zlen cells' = zlen cells /\ forall c, 0 <= c -> aget no_cell cells' c = if (lo <=? c) && (c <? k) then f (aget no_cell cells c) else aget no_cell cells c)); [lia| |].
  - split; [done|]. intros c Hc. by replace ((lo <=? c) && (c <? lo)) with false by lia.
  - intros k cs' Hk [Hl Hg]. rewrite zlen_aset. split; [done|]. intros c Hc. destruct (decide (c = k)) as [->|Hne].
    + rewrite aget_aset_eq, Hg by lia. replace ((lo <=? k) && (k <? k)) with false by lia. by replace ((lo <=? k) && (k <? k + 1)) with true by lia.
    + rewrite aget_aset_ne, Hg by lia. by replace ((lo <=? c) && (c <? k + 1)) with ((lo <=? c) && (c <? k)) by lia.
Qed.

Lemma scroll_rows_spec g : grid_ok g -> grid_ok (scroll_rows g) /\ forall r c, 0 <= r < 30 -> gcell (scroll_rows g) r c = gcell g (if r <? 29 then r + 1 else r) c.
Proof.
  intros Hg. unfold scroll_rows.
  assert (H : grid_ok (for_ 1 30 (fun r g => aset g (r - 1) (aget [] g r)) g) /\
    forall r c, 0 <= r < 30 -> gcell (for_ 1 30 (fun r g => aset g (r - 1) (aget [] g r)) g) r c = gcell g (if r <? 30 - 1 then r + 1 else r) c); [|done].
  apply (for_ind (fun k g' => grid_ok g' /\ forall r c, 0 <= r < 30 -> gcell g' r c = gcell g (if r <? k - 1 then r + 1 else r) c)); [lia| |].
  - split; [done|]. intros r c Hr. by replace (r <? 1 - 1) with false by lia.
  - intros k g' Hk [Hg' Hc]. destruct (grid_upd g' (k - 1) (aget [] g' k) Hg') as [H1 H2]; [lia|apply grid_row; [done|lia]|].
    split; [done|]. intros r c Hr. rewrite H2 by lia. case_test.
    + subst. change (aget no_cell (aget [] g' k) c) with (gcell g' k c). rewrite Hc by lia.
      replace (k <? k - 1) with false by lia. replace (k - 1 <? k + 1 - 1) with true by lia. f_equal. lia.
    + rewrite Hc by done. do 2 f_equal. destruct (r <? k - 1) eqn:E; destruct (r <? k + 1 - 1) eqn:E'; lia.
Qed.

(** ** The abstract terminal *)

Record screen := Screen { at_ : Z -> Z -> term_cell_t; s_col : Z; s_row : Z }.

(** The grid shows the screen; the escape machine is at rest. *)
Record term_ok (t : term) : Prop := TermOk {
  ok_grid : grid_ok (grid t);
  ok_col : 0 <= tcol t < 80; ok_row : 0 <= trow t < 30;
  ok_esc : zlen (esc_buf t) <= 63 }.
Record shows (t : term) (s : screen) : Prop := Shows {
  sh_ok : term_ok t;
  sh_col : tcol t = s_col s; sh_row : trow t = s_row s;
  sh_cell : forall r c, 0 <= r < 30 -> 0 <= c < 80 -> gcell (grid t) r c = at_ s r c }.

Definition erase_where (cov : Z -> Z -> bool) (s : screen) : screen :=
  Screen (fun r c => if cov r c then set_ch 32 (at_ s r c) else at_ s r c) (s_col s) (s_row s).
Definition move (col row : Z) (s : screen) : screen :=
  Screen (at_ s) (if (0 <=? col) && (col <? 80) then col else s_col s) (if (0 <=? row) && (row <? 30) then row else s_row s).
Definition fresh (s : screen) : screen := Screen (fun _ _ => blank) 0 0.
Definition feed (s : screen) : screen :=
  if s_row s =? 29
  then Screen (fun r c => if r <? 29 then at_ s (r + 1) c else set_fg 0xCC (set_ch 32 (at_ s r c))) 0 29
  else Screen (at_ s) 0 (s_row s + 1).
Definition print (x : Z) (s : screen) : screen :=
  let s' := Screen (fun r c => if (r =? s_row s) && (c =? s_col s) then set_fg 0xCC (set_ch x (at_ s r c)) else at_ s r c) (s_col s + 1) (s_row s) in
  if s_col s =? 79 then feed s' else s'.

(** ** Each operation on the grid is the operation on the screen *)

Lemma blank_cells_spec t r lo hi : term_ok t -> 0 <= r < 30 -> 0 <= lo -> hi <= 80 -> exists t', blank_cells r lo hi t = Some t' /\
  term_ok t' /\ tcol t' = tcol t /\ trow t' = trow t /\ esc_state t' = esc_state t /\ esc_buf t' = esc_buf t /\
  forall r' c, 0 <= r' < 30 -> 0 <= c < 80 ->
    gcell (grid t') r' c = if (r' =? r) && (lo <=? c) && (c <? hi) then set_ch 32 (gcell (grid t) r' c) else gcell (grid t) r' c.
Proof.
  intros [Hg Hc Hr He] Hr' Hlo Hhi. unfold blank_cells. replace ((lo <? hi) && _) with false by lia.
  destruct (row_upd (f := set_ch 32) lo hi (aget [] (grid t) r)) as [Hl Hcell]; [done|by rewrite grid_row|]. cbv zeta in *.
  destruct (grid_upd (grid t) r (blank_row lo hi (aget [] (grid t) r))) as [H1 H2]; [done|done|unfold blank_row; by rewrite Hl, grid_row|].
  eexists. split; [done|]. split; [by constructor|]. do 4 (split; [done|]). cbn [grid set_grid]. intros r' c Hr1 Hc1. rewrite H2 by lia.
  case_test; [|done]. subst. unfold blank_row. rewrite Hcell by lia. done.
Qed.

Lemma blank_rows_spec t lo hi : term_ok t -> 0 <= lo -> hi <= 30 -> exists t',
  for_ lo hi (fun r o => t ← o; blank_cells r 0 TERM_COLS t) (Some t) = Some t' /\
  term_ok t' /\ tcol t' = tcol t /\ trow t' = trow t /\ esc_state t' = esc_state t /\ esc_buf t' = esc_buf t /\
  forall r c, 0 <= r < 30 -> 0 <= c < 80 ->
    gcell (grid t') r c = if (lo <=? r) && (r <? hi) then set_ch 32 (gcell (grid t) r c) else gcell (grid t) r c.
Proof.
  intros Ht Hlo Hhi. destruct (Z.le_gt_cases hi lo).
  { exists t. rewrite for_done by done. split_and!; try done. intros r c Hr Hc. by replace ((lo <=? r) && (r <? hi)) with false by lia. }
  apply (for_ind (fun k o => exists t', o = Some t' /\ term_ok t' /\ tcol t' = tcol t /\ trow t' = trow t /\ esc_state t' = esc_state t /\ esc_buf t' = esc_buf t /\
    forall r c, 0 <= r < 30 -> 0 <= c < 80 ->
      gcell (grid t') r c = if (lo <=? r) && (r <? k) then set_ch 32 (gcell (grid t) r c) else gcell (grid t) r c)); [lia| |].
  - exists t. split_and!; try done. intros r c Hr Hc. by replace ((lo <=? r) && (r <? lo)) with false by lia.
  - intros k o Hk (t1 & -> & Hok & E1 & E2 & E3 & E4 & Hc). cbn [mbind option_bind].
    destruct (blank_cells_spec t1 k 0 80 Hok) as (t2 & -> & Hok2 & F1 & F2 & F3 & F4 & Hc2); [lia..|].
    exists t2. split_and!; try done; try congruence. intros r c Hr Hcc. rewrite Hc2 by done.
    replace ((0 <=? c) && (c <? 80)) with true in * by lia. rewrite <- andb_assoc. replace ((0 <=? c) && (c <? 80)) with true by lia. rewrite andb_true_r.
    rewrite Hc by done. destruct (decide (r = k)) as [->|Hne].
    + rewrite Z.eqb_refl. replace ((lo <=? k) && (k <? k)) with false by lia. by replace ((lo <=? k) && (k <? k + 1)) with true by lia.
    + replace (r =? k) with false by lia. by replace ((lo <=? r) && (r <? k + 1)) with ((lo <=? r) && (r <? k)) by lia.
Qed.

(** [keeps m s s']: run on a grid that shows [s], [m] succeeds, shows [s'] and
    leaves the escape machine alone. *)
Definition turns (m : term -> option term) (s s' : screen) : Prop := forall t, shows t s ->
  exists t', m t = Some t' /\ shows t' s' /\ esc_state t' = esc_state t /\ esc_buf t' = esc_buf t.

Lemma turns_line lo hi s : 0 <= lo -> hi <= 80 -> turns (fun t => blank_cells (trow t) lo hi t) s (erase_where (fun r c => (r =? s_row s) && (lo <=? c) && (c <? hi)) s).
Proof.
  intros Hlo Hhi t [Hok Hc Hr Hcell]. destruct (blank_cells_spec t (trow t) lo hi Hok) as (t' & Hb & Hok' & E1 & E2 & E3 & E4 & Hc'); [apply Hok|done|done|].
  exists t'. split; [done|]. split; [|done]. constructor; [done|by rewrite E1|by rewrite E2|]. intros r c Hr1 Hc1. rewrite Hc', Hcell, Hr by done. done.
Qed.

Lemma turns_below s : turns term_clear_screen_from_cursor s (erase_where (fun r c => ((r =? s_row s) && (s_col s <=? c)) || (s_row s <? r)) s).
Proof.
  intros t [Hok Hc Hr Hcell]. unfold term_clear_screen_from_cursor, term_clear_line_from_cursor.
  destruct (blank_cells_spec t (trow t) (tcol t) 80 Hok) as (t1 & -> & Hok1 & E1 & E2 & E3 & E4 & Hc1); [apply Hok|destruct Hok; lia|done|]. cbn [mbind option_bind].
  destruct (blank_rows_spec t1 (trow t1 + 1) 30 Hok1) as (t2 & -> & Hok2 & F1 & F2 & F3 & F4 & Hc2); [destruct Hok1; lia|done|].
  exists t2. split; [done|]. split; [|split; congruence]. constructor; [done|cbn; congruence|cbn; congruence|]. intros r c Hr1 Hcc.
  rewrite Hc2, Hc1, Hcell by done. rewrite E2. rewrite <- Hr, <- Hc. cbn [erase_where at_].
  replace (c <? 80) with true by lia. replace (r <? 30) with true by lia. rewrite !andb_true_r.
  destruct (r =? trow t) eqn:Er; destruct (tcol t <=? c) eqn:Ec; destruct (trow t <? r) eqn:El; cbn [andb orb]; try lia;
    (replace (trow t + 1 <=? r) with false by lia; done) || (replace (trow t + 1 <=? r) with true by lia; done).
Qed.

Lemma turns_move col row s : turns (fun t => Some (term_move_cursor col row t)) s (move col row s).
Proof.
  intros t [[Hg Hc0 Hr0 He] Hc Hr Hcell]. eexists. split; [done|]. split; [|done]. unfold term_move_cursor, move. constructor; [constructor; cbn; try done| | |].
  all: cbn; try done; destruct ((0 <=? col) && (col <? 80)) eqn:E1; destruct ((0 <=? row) && (row <? 30)) eqn:E2; try lia; congruence.
Qed.

Lemma blank_grid_ok : grid_ok (replicate 30 (replicate 80 blank)).
Proof. split; [done|]. by apply Forall_replicate. Qed.
Lemma gcell_blank r c : 0 <= r < 30 -> 0 <= c < 80 -> gcell (replicate 30 (replicate 80 blank)) r c = blank.
Proof. intros Hr Hc. unfold gcell, aget. rewrite !nth_lookup, lookup_replicate_2 by lia. change (default [] (Some (replicate 80 blank))) with (replicate 80 blank). by rewrite lookup_replicate_2 by lia. Qed.

Lemma turns_fresh s : turns (fun t => Some (term_clear_screen t)) s (fresh s).
Proof.
  intros t [Hok Hc Hr Hcell]. eexists. split; [done|]. split; [|done]. destruct Hok.
  constructor; [constructor|done|done|]; cbn [grid tcol trow esc_buf term_clear_screen term_clear set_cur set_grid]; try lia; [apply blank_grid_ok|].
  intros r c Hr1 Hc1. by apply gcell_blank.
Qed.

Lemma scrolled_spec g0 : grid_ok g0 -> grid_ok (scrolled g0) /\
  forall r c, 0 <= r < 30 -> 0 <= c < 80 -> gcell (scrolled g0) r c = if r <? 29 then gcell g0 (r + 1) c else set_fg 0xCC (set_ch 32 (gcell g0 r c)).
Proof.
  intros Hg. destruct (scroll_rows_spec g0 Hg) as [Hs Hc]. unfold scrolled. cbv zeta.
  generalize dependent (scroll_rows g0). intros g Hs Hc.
  destruct (row_upd (f := fun x => set_fg 0xCC (set_ch 32 x)) 0 80 (aget [] g (30 - 1))) as [Hl Hu]; [lia|by rewrite grid_row|]. cbv zeta in Hl, Hu.
  unfold put_row. generalize dependent (for_ 0 80 (fun c cells => aset cells c (set_fg 0xCC (set_ch 32 (aget no_cell cells c)))) (aget [] g (30 - 1))). intros row Hl Hu.
  destruct (grid_upd g (30 - 1) row) as [H1 H2]; [done|lia|by rewrite Hl, grid_row|]. split; [done|].
  intros r c Hr Hcc. rewrite H2 by lia. case_test.
  - subst. rewrite Hu by lia. replace ((0 <=? c) && (c <? 80)) with true by lia. change (30 - 1 <? 29) with false.
    fold (gcell g (30 - 1) c). by rewrite Hc by lia.
  - rewrite Hc by lia. by replace (r <? 29) with true by lia.
Qed.

(** The screen after the line feed, for a cursor that may stand behind the line. *)
Lemma new_line_spec t s : grid_ok (grid t) -> 0 <= trow t < 30 -> zlen (esc_buf t) <= 63 -> trow t = s_row s ->
  (forall r c, 0 <= r < 30 -> 0 <= c < 80 -> gcell (grid t) r c = at_ s r c) ->
  shows (new_line t) (feed s) /\ esc_state (new_line t) = esc_state t /\ esc_buf (new_line t) = esc_buf t.
Proof.
  intros Hg Hr0 He Hr Hcell. unfold new_line, feed. case_test.
  - replace (s_row s =? 29) with true by lia. destruct (scrolled_spec (grid t) Hg) as [Hg' Hs].
    unfold term_scroll. cbn [grid set_cur]. generalize dependent (scrolled (grid t)). intros g Hg' Hs. split; [|done].
    constructor; [constructor| | |]; cbn [tcol trow set_cur set_grid esc_buf s_col s_row grid]; try lia; try done.
    intros r c Hrr Hcc. rewrite Hs by done. cbn [at_]. case_test; rewrite Hcell by lia; done.
  - replace (s_row s =? 29) with false by lia. split; [|done]. constructor; [constructor; cbn; try lia; try done| | |]; cbn; try done. lia.
Qed.

Lemma term_putchar_spec t s x : shows t s ->
  let t' := term_putchar (tcol t) (trow t) x t in
  grid_ok (grid t') /\ forall r c, 0 <= r < 30 -> 0 <= c < 80 ->
    gcell (grid t') r c = if (r =? s_row s) && (c =? s_col s) then set_fg 0xCC (set_ch x (at_ s r c)) else at_ s r c.
Proof.
  intros [[Hg Hc0 Hr0 He] Hc Hr Hcell]. cbv zeta. unfold term_putchar. replace (_ && _) with true by lia. cbn [grid set_grid].
  set (row := put_row _ _ _). assert (Hrow : zlen row = 80) by (unfold row, put_row; by rewrite zlen_aset, grid_row).
  destruct (grid_upd (grid t) (trow t) row Hg Hr0 Hrow) as [H1 H2]. split; [done|]. intros r c Hrr Hcc. rewrite H2 by lia. rewrite <- Hr, <- Hc.
  destruct (Z.eqb_spec r (trow t)) as [->|]; cbn [andb]; [|by apply Hcell]. unfold row, put_row.
  destruct (Z.eqb_spec c (tcol t)) as [->|]; [rewrite aget_aset_eq by (rewrite grid_row; done)|rewrite aget_aset_ne by lia];
    change (aget no_cell (aget [] (grid t) (trow t)) ?c) with (gcell (grid t) (trow t) c); by rewrite Hcell.
Qed.

Lemma turns_print x s : 32 <= x < 127 -> turns (fun t => Some (ground_char x t)) s (print x s).
Proof.
  intros Hx t Hs. eexists. split; [done|]. pose proof (term_putchar_spec t s x Hs) as [Hg Hcell]. destruct Hs as [[_ Hc0 Hr0 He] Hc Hr _].
  unfold ground_char, print. replace (x =? 27) with false by lia. replace (x =? 10) with false by lia. replace (x =? 13) with false by lia.
  replace (x =? 8) with false by lia. replace (x =? 9) with false by lia. replace ((32 <=? x) && (x <? 127)) with true by lia. cbv zeta in *.
  set (t' := term_putchar (tcol t) (trow t) x t) in *.
  assert (E : tcol t' = tcol t /\ trow t' = trow t /\ esc_state t' = esc_state t /\ esc_buf t' = esc_buf t) by (unfold t', term_putchar; by destruct (_ && _)).
  destruct E as (E1 & E2 & E3 & E4). cbn [tcol set_cur]. rewrite E1. case_test.
  - replace (s_col s =? 79) with true by lia. match goal with |- shows _ (feed ?s2) /\ _ => destruct (new_line_spec (set_cur (tcol t + 1) (trow t') t') s2) as (H1 & H2 & H3) end; cbn; try done; try lia; [by rewrite E4|].
    split; [exact H1|]. rewrite H2, H3. cbn. by rewrite E3, E4.
  - replace (s_col s =? 79) with false by lia. split; [|done]. constructor; [constructor; cbn; try lia; try done; by rewrite E4| | |]; cbn; try done; lia.
Qed.

(** ** Commands and the bytes that stand for them *)

Inductive vt :=
  | Print (x : Z) | LineFeed | Return | Backspace | Tab
  | EraseLine (m : Z) | EraseBelow | EraseAll
  | Home | MoveTo (row col : Z) | Up (n : Z) | Down (n : Z) | Forward (n : Z) | Back (n : Z)
  | Style (p : list Z) | Mode (p : list Z) (on : bool).

Definition csi (p : list Z) (c : Z) : list Z := [27; 91] ++ p ++ [c].
Definition vt_bytes (k : vt) : list Z :=
  match k with
  | Print x => [x] | LineFeed => [c_nl] | Return => [c_cr] | Backspace => [c_bs] | Tab => [9]
  | EraseLine m => csi (kia m) 75 | EraseBelow => csi [] 74 | EraseAll => csi (kia 2) 74
  | Home => csi [] 72 | MoveTo row col => csi (kia row ++ 59 :: kia col) 72
  | Up n => csi (kia n) 65 | Down n => csi (kia n) 66 | Forward n => csi (kia n) 67 | Back n => csi (kia n) 68
  | Style p => csi p 109 | Mode p on => csi (63 :: p) (if on then 104 else 108)
  end.

Definition vt_ok (k : vt) : Prop :=
  match k with
  | Print x => 32 <= x < 127
  | EraseLine m => 0 <= m <= 2
  | MoveTo row col => 0 <= row < 2^30 /\ 0 <= col < 2^30
  | Up n | Down n | Forward n | Back n => 0 <= n < 2^30
  | Style p | Mode p _ => Forall (fun c => is_param c = true) p
  | _ => True
  end.

Definition vt_step (s : screen) (k : vt) : screen :=
  match k with
  | Print x => print x s
  | LineFeed => feed s
  | Return => Screen (at_ s) 0 (s_row s)
  | Backspace => Screen (at_ s) (Z.max 0 (s_col s - 1)) (s_row s)
  | Tab => Screen (at_ s) (Z.min 79 ((s_col s / 8 + 1) * 8)) (s_row s)
  | EraseLine m =>
      erase_where (fun r c => (r =? s_row s) && (if m =? 0 then s_col s <=? c else if m =? 1 then c <=? s_col s else true)) s
  | EraseBelow => erase_where (fun r c => ((r =? s_row s) && (s_col s <=? c)) || (s_row s <? r)) s
  | EraseAll => fresh s
  | Home => move 0 0 s
  | MoveTo row col => move (col - 1) (row - 1) s
  | Up n => move (s_col s) (s_row s - n) s
  | Down n => move (s_col s) (s_row s + n) s
  | Forward n => move (s_col s + n) (s_row s) s
  | Back n => move (s_col s - n) (s_row s) s
  | Style _ | Mode _ _ => s
  end.

Lemma write_app a b t : term_write_str (a ++ b) t = term_write_str a t ≫= term_write_str b.
Proof. revert t. induction a as [|x a IH]; intros t; cbn [app term_write_str]; [done|]. destruct (term_write_char x t); [apply IH|done]. Qed.

Lemma i8_id x : -128 <= x < 128 -> i8 x = x.
Proof. intros Hx. unfold i8. rewrite Z.mod_small by lia. lia. Qed.

Lemma is_param_range c : is_param c = true -> 48 <= c <= 59.
Proof. unfold is_param, is_digit. lia. Qed.

(** Reading the parameters of a sequence. *)
Lemma write_params p : Forall (fun c => is_param c = true) p -> forall t, esc_state t = 2 -> zlen (esc_buf t) <= 63 ->
  exists b, term_write_str p t = Some (set_esc 2 b t) /\ zlen b <= 63 /\ (zlen (esc_buf t) + zlen p <= 63 -> b = esc_buf t ++ p).
Proof.
  induction 1 as [|c p Hc _ IH]; intros t Ht Hl.
  { exists (esc_buf t). cbn [term_write_str]. split; [f_equal; by destruct t; cbn in *; subst|]. split; [done|]. by rewrite app_nil_r. }
  cbn [term_write_str]. pose proof (is_param_range c Hc) as Hr. unfold term_write_char. cbv zeta. rewrite i8_id, Ht by lia.
  change (2 =? 0) with false. change (2 =? 1) with false. change (2 =? 2) with true. cbv iota.
  replace ((c =? 63) || (c =? 61)) with false by lia. rewrite Hc. cbn [mbind option_bind].
  rewrite zlen_cons. case_test.
  - destruct (IH (set_esc 2 (esc_buf t ++ [c]) t)) as (b & -> & Hb & Heq); [done|cbn; rewrite zlen_app; change (zlen [c]) with 1; lia|].
    exists b. split; [done|]. split; [done|]. intros Hs. rewrite Heq; cbn; [by rewrite <- app_assoc|]. rewrite zlen_app. change (zlen [c]) with 1. lia.
  - destruct (IH t Ht Hl) as (b & -> & Hb & Heq). exists b. split; [done|]. split; [done|]. pose proof (zlen_nonneg p). lia.
Qed.

Definition rests (t : term) (s : screen) : Prop := shows t s /\ esc_state t = 0.

Lemma shows_esc n b t s : zlen b <= 63 -> shows t s -> shows (set_esc n b t) s.
Proof. intros Hb [[] ? ? ?]. by constructor; [constructor|..]. Qed.

(** A control sequence does what its final byte does. *)
Lemma csi_runs p c s s' t : Forall (fun c => is_param c = true) p -> 64 <= c < 127 ->
  (forall b, zlen b <= 63 -> (zlen p <= 63 -> b = p) -> turns (csi_final c b) s s') -> rests t s ->
  exists t', term_write_str (csi p c) t = Some t' /\ rests t' s'.
Proof.
  intros Hp Hc Hf [Hs Ht]. unfold csi. cbn [app term_write_str].
  assert (E1 : term_write_char 27 t = Some (set_esc 1 [] t)) by (unfold term_write_char; by rewrite Ht). rewrite E1. cbn [mbind option_bind].
  assert (E2 : term_write_char 91 (set_esc 1 [] t) = Some (set_esc 2 [] t)) by done. rewrite E2. cbn [mbind option_bind].
  rewrite write_app. destruct (write_params p Hp (set_esc 2 [] t)) as (b & -> & Hb & Heq); [done|done|]. cbn [mbind option_bind term_write_str].
  unfold term_write_char. cbv zeta. rewrite i8_id by lia. cbn [esc_state set_esc]. change (2 =? 0) with false. change (2 =? 1) with false. change (2 =? 2) with true. cbv iota.
  replace ((c =? 63) || (c =? 61)) with false by lia. replace (is_param c) with false by (unfold is_param, is_digit; lia).
  cbn [esc_buf set_esc]. replace (zlen b <? 64) with true by lia. cbn [negb].
  destruct (Hf b Hb (fun H => Heq H) (set_esc 2 b t)) as (t' & E & Hs' & _ & _); [by apply shows_esc|].
  change (set_esc 2 b (set_esc 2 [] t)) with (set_esc 2 b t). rewrite E. cbn. eexists. split; [done|]. split; [|done]. by apply shows_esc.
Qed.

(** Screens that agree on the visible cells are the same. *)
#[export] Instance screen_equiv : Equiv screen := fun s s' =>
  s_col s = s_col s' /\ s_row s = s_row s' /\ forall r c, 0 <= r < 30 -> 0 <= c < 80 -> at_ s r c = at_ s' r c.
#[export] Instance screen_equivalence : Equivalence (≡@{screen}).
Proof.
  split.
  - by intros s.
  - intros s s' (H1 & H2 & H3). split_and!; [done|done|]. intros. symmetry. by apply H3.
  - intros s1 s2 s3 (H1 & H2 & H3) (H4 & H5 & H6). split_and!; [congruence|congruence|]. intros. rewrite H3 by done. by apply H6.
Qed.
#[export] Instance shows_proper t : Proper ((≡) ==> iff) (shows t).
Proof.
  assert (H : forall s s', s ≡ s' -> shows t s -> shows t s').
  { intros s s' (H1 & H2 & H3) [Hok Hc Hr Hcell]. constructor; [done|congruence|congruence|]. intros. rewrite Hcell by done. by apply H3. }
  intros s s' E. split; apply H; [done|by symmetry].
Qed.

Lemma turns_equiv m s s1 s2 : s1 ≡ s2 -> turns m s s1 -> turns m s s2.
Proof. intros E Hm t Ht. destruct (Hm t Ht) as (t' & Hr & Hs & He). exists t'. split; [done|]. split; [by rewrite <- E|done]. Qed.

Lemma turns_at m m' s s' : (forall t, shows t s -> m t = m' t) -> turns m' s s' -> turns m s s'.
Proof. intros E Hm t Ht. rewrite E by done. by apply Hm. Qed.

Lemma turns_in m s s' : (forall t, shows t s -> turns m s s') -> turns m s s'.
Proof. intros H t Ht. by apply (H t). Qed.

Lemma digits_param l : Forall (fun c => is_digit c = true) l -> Forall (fun c => is_param c = true) l.
Proof. apply Forall_impl. intros c Hc. unfold is_param. by rewrite Hc. Qed.

Lemma kia_all_digits n : 0 <= n < 10 ^ 20 -> kia n <> [] /\ Forall (fun c => is_digit c = true) (kia n).
Proof.
  intros Hn. destruct (decide (n = 0)) as [->|]; [split; [done|by repeat constructor]|].
  destruct (kia_digits n) as (c & ds & -> & Hd & _); [lia|done].
Qed.

Lemma atoi_kia n : 0 <= n < 2^31 -> atoi (kia n) = n.
Proof.
  intros Hn. unfold atoi. rewrite <- (app_nil_r (kia n)), read_digits_kia by lia. cbn [read_digits fst]. rewrite Z.min_l by lia. apply i32_id. lia.
Qed.
Lemma count_kia n : 0 <= n < 2^31 -> count_param (kia n) = n.
Proof. intros Hn. unfold count_param. rewrite bool_decide_false by (apply kia_all_digits; lia). by apply atoi_kia. Qed.

Lemma split_semi_digits a b : Forall (fun c => is_digit c = true) a -> split_semi (a ++ 59 :: b) = (a, Some b).
Proof.
  induction 1 as [|c a Hc _ IH]; cbn [app split_semi]; [done|]. rewrite IH.
  replace (c =? 59) with false; [done|]. unfold is_digit in Hc. lia.
Qed.

Lemma turns_eraseline m s : 0 <= m <= 2 -> turns (csi_final 75 (kia m)) s (vt_step s (EraseLine m)).
Proof.
  intros Hm. apply turns_in. intros t0 [[_ Hc0 _ _] Hc _ _]. assert (m = 0 \/ m = 1 \/ m = 2) as [-> | [-> | ->]] by lia.
  - eapply turns_equiv; [|eapply turns_at; [|apply (turns_line (s_col s) 80); lia]].
    + split_and!; [done|done|]. intros r c Hr Hcc. cbn. by replace (c <? 80) with true by lia; rewrite andb_true_r.
    + intros t [_ E _ _]. unfold csi_final, term_clear_line_from_cursor. cbn. by rewrite E.
  - eapply turns_equiv; [|eapply turns_at; [|apply (turns_line 0 (s_col s + 1)); lia]].
    + split_and!; [done|done|]. intros r c Hr Hcc. cbn. replace (0 <=? c) with true by lia. rewrite andb_true_r. by replace (c <? s_col s + 1) with (c <=? s_col s) by lia.
    + intros t [_ E _ _]. unfold csi_final, term_clear_line_to_cursor. cbn. by rewrite E.
  - eapply turns_equiv; [|eapply turns_at; [|apply (turns_line 0 80); lia]]; [|done].
    split_and!; [done|done|]. intros r c Hr Hcc. cbn. replace (0 <=? c) with true by lia. replace (c <? 80) with true by lia. by rewrite !andb_true_r.
Qed.

Lemma turns_moveto row col s : 0 <= row < 2^30 -> 0 <= col < 2^30 -> turns (csi_final 72 (kia row ++ 59 :: kia col)) s (move (col - 1) (row - 1) s).
Proof.
  intros Hr Hc. eapply turns_at; [|apply turns_move]. intros t _. unfold csi_final.
  change (72 =? 75) with false. change (72 =? 74) with false. change ((72 =? 72) || (72 =? 102)) with true. cbv iota.
  rewrite bool_decide_false by (by destruct (kia row)). rewrite split_semi_digits by (apply kia_all_digits; lia).
  rewrite !atoi_kia, !i32_id by lia. done.
Qed.

(** The four relative moves. *)
Lemma turns_relative s n : 0 <= n < 2^30 ->
  turns (csi_final 65 (kia n)) s (move (s_col s) (s_row s - n) s) /\ turns (csi_final 66 (kia n)) s (move (s_col s) (s_row s + n) s) /\
  turns (csi_final 67 (kia n)) s (move (s_col s + n) (s_row s) s) /\ turns (csi_final 68 (kia n)) s (move (s_col s - n) (s_row s) s).
Proof.
  intros Hn. split_and!; apply turns_in; intros t0 [[_ ? ? _] ? ? _]; (eapply turns_at; [|apply turns_move]); intros t [_ E1 E2 _];
    unfold csi_final; cbn [Z.eqb Pos.eqb orb]; rewrite count_kia by lia; rewrite i32_id by lia; by rewrite E1, E2.
Qed.

(** ** The terminal refines the abstract one *)

Lemma rests_char x t s s' : -128 <= x < 128 -> x <> 27 -> turns (fun t => Some (ground_char x t)) s s' -> rests t s ->
  exists t', term_write_str [x] t = Some t' /\ rests t' s'.
Proof.
  intros Hx Hne Hm [Hs Ht]. destruct (Hm t Hs) as (t' & E & Hs' & He & _). exists t'. cbn [term_write_str].
  unfold term_write_char. rewrite Ht, i8_id by lia. change (0 =? 0) with true. cbv iota zeta. rewrite E. split; [done|]. split; [done|congruence].
Qed.

Lemma turns_cursor m s col : (forall t, shows t s -> m t = Some (set_cur col (s_row s) t)) -> 0 <= col < 80 -> turns m s (Screen (at_ s) col (s_row s)).
Proof.
  intros E Hc t Ht. exists (set_cur col (s_row s) t). split; [by apply E|]. split; [|done]. destruct Ht as [[] ? Hr ?].
  constructor; [constructor; cbn; try done; lia|done|done|done].
Qed.

Lemma turns_feed s : turns (fun t => Some (ground_char c_nl t)) s (feed s).
Proof. intros t [[] ? ? ?]. eexists. split; [done|]. by apply new_line_spec. Qed.

Lemma csi_number n c s s' t : 0 <= n < 2^31 -> 64 <= c < 127 -> turns (csi_final c (kia n)) s s' -> rests t s ->
  exists t', term_write_str (csi (kia n) c) t = Some t' /\ rests t' s'.
Proof.
  intros Hn Hc Hm. apply csi_runs; [apply digits_param, kia_all_digits; lia|done|]. pose proof (kia_int_length n ltac:(lia)).
  intros b _ Hb. by rewrite Hb by lia.
Qed.

Lemma mode_runs p c t s : Forall (fun c => is_param c = true) p -> 64 <= c < 127 -> rests t s -> exists t', term_write_str (csi (63 :: p) c) t = Some t' /\ rests t' s.
Proof.
  intros Hp Hc [Hs Ht]. unfold csi. cbn [app term_write_str].
  assert (E1 : term_write_char 27 t = Some (set_esc 1 [] t)) by (unfold term_write_char; by rewrite Ht). rewrite E1. cbn [mbind option_bind].
  assert (E2 : term_write_char 91 (set_esc 1 [] t) = Some (set_esc 2 [] t)) by done. rewrite E2. cbn [mbind option_bind].
  assert (E3 : term_write_char 63 (set_esc 2 [] t) = Some (set_esc 3 [] t)) by done. rewrite E3. cbn [mbind option_bind].
  assert (E4 : term_write_str p (set_esc 3 [] t) = Some (set_esc 3 [] t)).
  { clear -Hp. induction Hp as [|x p Hx _ IH]; cbn [term_write_str]; [done|]. pose proof (is_param_range x Hx). unfold term_write_char. cbv zeta.
    rewrite i8_id by lia. cbn [esc_state set_esc]. change (3 =? 0) with false. change (3 =? 1) with false. change (3 =? 2) with false. change (3 =? 3) with true.
    cbv iota. rewrite Hx. cbn [orb]. exact IH. }
  rewrite write_app, E4. cbn [mbind option_bind term_write_str]. exists (set_esc 0 [] t). split.
  - unfold term_write_char. cbv zeta. rewrite i8_id by lia. cbn [esc_state set_esc]. change (3 =? 0) with false. change (3 =? 1) with false. change (3 =? 2) with false. change (3 =? 3) with true.
    cbv iota. replace (_ || _) with false; [done|]. unfold is_param, is_digit. lia.
  - split; [by apply shows_esc|done].
Qed.

Lemma land_tab x : Z.land x (Z.lnot 7) = x / 8 * 8.
Proof.
  change 7 with (Z.ones 3). rewrite <- Z.ldiff_land, Z.ldiff_ones_r by lia. by rewrite Z.shiftl_mul_pow2, Z.shiftr_div_pow2 by lia.
Qed.

Lemma vt_step_runs k t s : vt_ok k -> rests t s -> exists t', term_write_str (vt_bytes k) t = Some t' /\ rests t' (vt_step s k).
Proof.
  intros Hk Ht. assert (Hcol : 0 <= s_col s < 80 /\ 0 <= s_row s < 30) by (destruct Ht as [[[] ? ? ?] _]; lia).
  destruct k; cbn [vt_bytes vt_step vt_ok] in *.
  - apply (rests_char x t s); [lia|lia|by apply turns_print|done].
  - apply (rests_char 10 t s); [lia|lia|apply turns_feed|done].
  - apply (rests_char 13 t s); [lia|lia| |done]. apply turns_cursor; [|lia]. intros t1 [_ _ E _]. unfold ground_char. cbn. by rewrite E.
  - apply (rests_char 8 t s); [lia|lia| |done]. apply turns_cursor; [|lia]. intros t1 [_ E1 E _]. unfold ground_char. cbn. rewrite E1, E. case_test; f_equal.
    + f_equal; lia.
    + rewrite <- E. replace (Z.max 0 (s_col s - 1)) with (tcol t1) by lia. by destruct t1.
  - assert (0 <= s_col s / 8) by (apply Z.div_pos; lia).
    apply (rests_char 9 t s); [lia|lia| |done]. apply turns_cursor; [|lia]. intros t1 [_ E1 E _]. unfold ground_char. cbn. rewrite E1, E. do 2 f_equal.
    change (-8) with (Z.lnot 7). rewrite land_tab.
    replace (s_col s + 8) with (s_col s + 1 * 8) by lia. rewrite Z.div_add by lia. case_test; lia.
  - apply (csi_number m 75 s); [lia|lia|by apply turns_eraseline|done].
  - apply (csi_runs [] 74 s); [constructor|lia| |done]. intros b _ ->; [|done]. apply turns_below.
  - apply (csi_number 2 74 s); [lia|lia|apply turns_fresh|done].
  - apply (csi_runs [] 72 s); [constructor|lia| |done]. intros b _ ->; [|done]. apply turns_move.
  - destruct Hk as [Hr Hc]. pose proof (kia_int_length row ltac:(lia)). pose proof (kia_int_length col ltac:(lia)). apply (csi_runs _ 72 s); [|lia| |done].
    + apply Forall_app. split; [apply digits_param, kia_all_digits; lia|]. constructor; [done|]. apply digits_param, kia_all_digits; lia.
    + intros b _ ->; [by apply turns_moveto|]. rewrite zlen_app, zlen_cons. lia.
  - apply (csi_number n 65 s); [lia|lia|by apply turns_relative|done].
  - apply (csi_number n 66 s); [lia|lia|by apply turns_relative|done].
  - apply (csi_number n 67 s); [lia|lia|by apply turns_relative|done].
  - apply (csi_number n 68 s); [lia|lia|by apply turns_relative|done].
  - apply (csi_runs p 109 s); [done|lia| |done]. intros b _ _ t1 Ht1. by exists t1.
  - apply mode_runs; [done|by destruct on|done].
Qed.

(** ** Any bytes *)

Definition screen_of (t : term) : screen := Screen (gcell (grid t)) (tcol t) (trow t).
Lemma shows_self t : term_ok t -> shows t (screen_of t).
Proof. by intros H. Qed.

Lemma turns_ok m s' t : term_ok t -> turns m (screen_of t) s' -> exists t', m t = Some t' /\ term_ok t'.
Proof. intros Hok Hm. destruct (Hm t (shows_self t Hok)) as (t' & E & [H _ _ _] & _). eauto. Qed.

Lemma csi_final_ok c b t : term_ok t -> exists t', csi_final c b t = Some t' /\ term_ok t'.
Proof.
  intros Hok. assert (Hm : forall col row, exists t', Some (term_move_cursor col row t) = Some t' /\ term_ok t').
  { intros col row. eapply (turns_ok (fun t => Some (term_move_cursor col row t))); [done|apply turns_move]. }
  assert (Hl : forall lo hi, 0 <= lo -> hi <= 80 -> exists t', blank_cells (trow t) lo hi t = Some t' /\ term_ok t').
  { intros lo hi H1 H2. eapply (turns_ok (fun t => blank_cells (trow t) lo hi t)); [done|by apply turns_line]. }
  pose proof Hok as [_ Hc _ _]. unfold csi_final, term_clear_line_from_cursor, term_clear_line_to_cursor.
  repeat case_match; try (by exists t); try (apply Hm); try (apply Hl; lia).
  - eapply turns_ok; [done|apply turns_below].
  - eapply (turns_ok (fun t => Some (term_clear_screen t))); [done|apply turns_fresh].
Qed.

Lemma ground_char_ok x t : -128 <= x < 128 -> term_ok t -> term_ok (ground_char x t).
Proof.
  intros Hx Hok. destruct (decide (32 <= x < 127)) as [Hp|Hp].
  { destruct (turns_ok (fun t => Some (ground_char x t)) _ t Hok (turns_print x _ Hp)) as (t' & [= ->] & H). done. }
  destruct (decide (x = 10)) as [->|Hn].
  { destruct (turns_ok (fun t => Some (ground_char 10 t)) _ t Hok (turns_feed _)) as (t' & [= ->] & H). done. }
  pose proof Hok as [Hg Hc Hr He]. unfold ground_char. replace ((32 <=? x) && (x <? 127)) with false by lia. replace (x =? 10) with false by lia.
  assert (0 <= (tcol t + 8) / 8) by (apply Z.div_pos; lia). cbv zeta. rewrite land_tab.
  repeat case_test; try done; constructor; cbn; try done; lia.
Qed.

Lemma ok_set_esc n b t : zlen b <= 63 -> term_ok t -> term_ok (set_esc n b t).
Proof. intros Hb []. by constructor. Qed.

Lemma term_write_char_ok b t : term_ok t -> exists t', term_write_char b t = Some t' /\ term_ok t'.
Proof.
  intros Hok. pose proof (ok_esc t Hok) as He. pose proof (i8_range b) as Hb. unfold term_write_char. cbv zeta. set (c := i8 b) in *. clearbody c.
  assert (Hset : forall n, term_ok (set_esc n (esc_buf t) t)) by (intros n; by apply ok_set_esc).
  assert (Hnil : forall n, term_ok (set_esc n [] t)) by (intros n; by apply ok_set_esc).
  destruct (esc_state t =? 0); [eexists; split; [done|by apply ground_char_ok]|].
  destruct (esc_state t =? 1); [eexists; split; [done|by destruct (c =? 91)]|].
  destruct (esc_state t =? 2).
  - destruct ((c =? 63) || (c =? 61)); [eauto|]. destruct (is_param c).
    + eexists. split; [done|]. case_test; [|done]. apply ok_set_esc; [|done]. rewrite zlen_app. change (zlen [c]) with 1. lia.
    + replace (zlen (esc_buf t) <? 64) with true by lia. cbn [negb]. destruct (csi_final_ok c (esc_buf t) t Hok) as (t' & -> & Hok').
      cbn. eexists. split; [done|]. by apply ok_set_esc.
  - destruct (esc_state t =? 3); [|eauto]. eexists. split; [done|]. by destruct (_ || _).
Qed.

Lemma term_write_str_ok bs : forall t, term_ok t -> exists t', term_write_str bs t = Some t' /\ term_ok t'.
Proof.
  induction bs as [|b bs IH]; intros t Hok; cbn [term_write_str]; [eauto|].
  destruct (term_write_char_ok b t Hok) as (t' & -> & Hok'). cbn. by apply IH.
Qed.

Lemma vt_run ks : forall t s, Forall vt_ok ks -> rests t s -> exists t', term_write_str (concat (map vt_bytes ks)) t = Some t' /\ rests t' (foldl vt_step s ks).
Proof.
  induction ks as [|k ks IH]; intros t s Hks Ht; [by exists t|]. apply Forall_cons_1 in Hks as [Hk Hks]. cbn [map concat foldl].
  destruct (vt_step_runs k t s Hk Ht) as (t' & E & Ht'). rewrite write_app, E. by apply IH.
Qed.

(** ** The frame *)

Definition inside (w h x y : Z) : bool := (0 <=? x) && (x <? w) && (0 <=? y) && (y <? h).
(** [if(x<0||x>=w||y<0||y>=h) continue; buf[y*w+x]=v;] *)
Definition plot (w h x y v : Z) (buf : list Z) : list Z := if inside w h x y then aset buf (y * w + x) v else buf.
(** [buf'] is [buf] with [pix] where [cov] holds. *)
Definition drawn (w h : Z) (cov : Z -> Z -> bool) (pix : Z -> Z -> Z) (buf buf' : list Z) : Prop :=
  zlen buf' = zlen buf /\
  forall x y, 0 <= x < w -> 0 <= y < h -> aget 0 buf' (y * w + x) = if cov x y then pix x y else aget 0 buf (y * w + x).

Section Frame.
Context (w h : Z).

Lemma drawn_ext cov cov' pix pix' buf buf' :
  (forall x y, 0 <= x < w -> 0 <= y < h -> cov x y = cov' x y /\ (cov x y = true -> pix x y = pix' x y)) -> drawn w h cov pix buf buf' -> drawn w h cov' pix' buf buf'.
Proof.
  intros He [Hl Hp]. split; [done|]. intros x y Hx Hy. rewrite Hp by done. destruct (He x y Hx Hy) as [<- Hpx]. destruct (cov x y); [by apply Hpx|done].
Qed.

(** Drawing what agrees with the final picture, one loop pass at a time. *)
Lemma drawn_for (pix : Z -> Z -> Z) (cov : Z -> Z -> Z -> bool) lo hi f buf : zlen buf = w * h ->
  (forall i b, lo <= i < hi -> zlen b = w * h -> drawn w h (cov i) pix b (f i b)) ->
  drawn w h (fun x y => existsb (fun i => cov i x y) (seqZ lo (hi - lo))) pix buf (for_ lo hi f buf).
Proof.
  intros Hb Hf. destruct (Z.le_gt_cases lo hi) as [Hle|Hgt].
  2:{ rewrite for_done, seqZ_nil by lia. split; [done|]. by intros. }
  apply (for_ind (fun k b => drawn w h (fun x y => existsb (fun i => cov i x y) (seqZ lo (k - lo))) pix buf b)); [done| |].
  - rewrite Z.sub_diag. split; [done|]. by intros.
  - intros k b Hk [Hl Hp]. destruct (Hf k b Hk ltac:(lia)) as [Hl' Hp']. split; [lia|]. intros x y Hx Hy. rewrite Hp', Hp by done.
    replace (k + 1 - lo) with (k - lo + 1) by lia. rewrite seqZ_app, existsb_app by lia. replace (lo + (k - lo)) with k by lia.
    rewrite (seqZ_cons k 1), (seqZ_nil (Z.succ k)) by lia. cbn [existsb]. rewrite orb_false_r.
    by destruct (existsb _ (seqZ lo (k - lo))), (cov k x y).
Qed.

Lemma exists_seqZ (P : Z -> bool) lo hi k b : (forall i, lo <= i < hi -> P i = (i =? k) && b) -> existsb P (seqZ lo (hi - lo)) = (lo <=? k) && (k <? hi) && b.
Proof.
  intros HP. apply Bool.eq_iff_eq_true. rewrite existsb_exists. split.
  - intros (i & Hi%list_elem_of_In%elem_of_seqZ & Ht). rewrite HP in Ht by lia. apply andb_true_iff in Ht as [->%Z.eqb_eq ->]. rewrite andb_true_r. lia.
  - intros Hk. assert (b = true) as -> by (by destruct b; [|rewrite andb_false_r in Hk]). exists k. split; [apply list_elem_of_In, elem_of_seqZ; lia|].
    rewrite HP by lia. by rewrite Z.eqb_refl.
Qed.

Lemma drawn_plot pix x y buf : zlen buf = w * h -> drawn w h (fun x' y' => (x' =? x) && (y' =? y)) pix buf (plot w h x y (pix x y) buf).
Proof.
  intros Hb. unfold plot, inside. destruct (_ && _) eqn:E; bool_to_prop.
  - split; [by rewrite zlen_aset|]. intros x' y' Hx Hy. pose proof (pixel_index w h x y) as Hi. destruct (decide (x' = x /\ y' = y)) as [[-> ->]|Hne].
    + rewrite aget_aset_eq by lia. by rewrite !Z.eqb_refl.
    + replace ((x' =? x) && (y' =? y)) with false by lia. pose proof (pixel_index w h x' y' Hx Hy). apply aget_aset_ne; [lia|lia|].
      intros E'. destruct (pixel_index_inj w x y x' y') as [-> ->]; try done; lia.
  - split; [done|]. intros x' y' Hx Hy. by replace ((x' =? x) && (y' =? y)) with false by lia.
Qed.

(** A rectangle of plots. *)
Lemma drawn_box pix ox oy bw bh f buf : zlen buf = w * h ->
  (forall r c b, 0 <= r < bh -> 0 <= c < bw -> f r c b = plot w h (ox + c) (oy + r) (pix (ox + c) (oy + r)) b) ->
  drawn w h (fun x y => (ox <=? x) && (x <? ox + bw) && (oy <=? y) && (y <? oy + bh)) pix buf (for_ 0 bh (fun r b => for_ 0 bw (fun c b => f r c b) b) buf).
Proof.
  intros Hb Hf. eapply drawn_ext; [|apply (drawn_for pix (fun r x y => (ox <=? x) && (x <? ox + bw) && (y =? oy + r))); [done|]].
  - intros x y Hx Hy. split; [|done]. rewrite (exists_seqZ _ 0 bh (y - oy) ((ox <=? x) && (x <? ox + bw))) by (intros; lia). lia.
  - intros r b Hr Hbz. erewrite for_ext by (intros c b' Hc; apply Hf; lia).
    eapply drawn_ext; [|apply (drawn_for pix (fun c x y => (x =? ox + c) && (y =? oy + r))); [done|]].
    + intros x y Hx Hy. split; [|done]. rewrite (exists_seqZ _ 0 bw (x - ox) (y =? oy + r)) by (intros; lia). lia.
    + intros c b' Hc Hb'. by apply drawn_plot.
Qed.

Lemma drawn_trans cov cov' pix b1 b2 b3 : drawn w h cov pix b1 b2 -> drawn w h cov' pix b2 b3 -> drawn w h (fun x y => cov' x y || cov x y) pix b1 b3.
Proof.
  intros [H1 H2] [H3 H4]. split; [lia|]. intros x y Hx Hy. rewrite H4, H2 by done. by destruct (cov' x y), (cov x y).
Qed.

(** A pixel of the text: the bit of the glyph in the cell it lies in. *)
Definition cell_pixel (t : term) (x y : Z) : Z :=
  let cell := gcell (grid t) (y / 16) (x / 8) in
  if Z.testbit (aget 0 (font_data (u8 (ch cell))) (y mod 16)) (7 - x mod 8)
  then rgb (fg_r cell) (fg_g cell) (fg_b cell) else rgb (bg_r cell) (bg_g cell) (bg_b cell).

Lemma land_bit n i : 0 <= i < 8 -> (Z.land n (Z.shiftr 0x80 i) =? 0) = negb (Z.testbit n (7 - i)).
Proof.
  intros Hi. replace (Z.shiftr 0x80 i) with (2 ^ (7 - i)).
  2:{ assert (i = 0 \/ i = 1 \/ i = 2 \/ i = 3 \/ i = 4 \/ i = 5 \/ i = 6 \/ i = 7) as Hc by lia. repeat (destruct Hc as [->|Hc]; [reflexivity|]). by subst. }
  destruct (Z.testbit n (7 - i)) eqn:E; cbn [negb].
  - apply Z.eqb_neq. intros H0. apply (f_equal (fun z => Z.testbit z (7 - i))) in H0. rewrite Z.land_spec, Z.bits_0, E, Z.pow2_bits_true in H0 by lia. done.
  - apply Z.eqb_eq. apply Z.bits_inj'. intros k Hk. rewrite Z.land_spec, Z.bits_0. destruct (decide (k = 7 - i)) as [->|Hne]; [by rewrite E|].
    rewrite Z.pow2_bits_false by lia. apply andb_false_r.
Qed.

Lemma cell_div n k c : 0 < n -> 0 <= c < n -> (k * n + c) / n = k /\ (k * n + c) mod n = c.
Proof.
  intros Hn Hc. split.
  - rewrite Z.div_add_l, Z.div_small by lia. lia.
  - rewrite Z.add_comm, Z.mod_add, Z.mod_small by lia. done.
Qed.

Lemma drawn_char t row col buf : zlen buf = w * h ->
  let cell := gcell (grid t) row col in
  drawn w h (fun x y => (col * 8 <=? x) && (x <? col * 8 + 8) && (row * 16 <=? y) && (y <? row * 16 + 16)) (cell_pixel t) buf
    (draw_char w h (col * 8) (row * 16) (ch cell) (rgb (fg_r cell) (fg_g cell) (fg_b cell)) (rgb (bg_r cell) (bg_g cell) (bg_b cell)) buf).
Proof.
  intros Hb cell. unfold draw_char. cbv zeta.
  apply (drawn_box (cell_pixel t) (col * 8) (row * 16) 8 16
    (fun r c b => if (col * 8 + c <? 0) || (w <=? col * 8 + c) || (row * 16 + r <? 0) || (h <=? row * 16 + r) then b else
       aset b ((row * 16 + r) * w + (col * 8 + c)) (if Z.land (aget 0 (font_data (u8 (ch cell))) r) (Z.shiftr 128 c) =? 0 then rgb (bg_r cell) (bg_g cell) (bg_b cell) else rgb (fg_r cell) (fg_g cell) (fg_b cell)))); [done|].
  intros r c b Hr Hc. unfold plot, inside, cell_pixel. destruct (cell_div 8 col c) as [-> ->]; [lia|lia|]. destruct (cell_div 16 row r) as [-> ->]; [lia|lia|].
  fold cell. rewrite land_bit by lia. destruct (_ || _) eqn:E1; destruct (_ && _) eqn:E2; try lia; try done. by destruct (Z.testbit _ _).
Qed.

Lemma drawn_text t buf : zlen buf = w * h ->
  drawn w h (fun x y => (x <? 640) && (y <? 480)) (cell_pixel t) buf
    (for_ 0 30 (fun row buf => for_ 0 80 (fun col buf =>
      let cell := gcell (grid t) row col in
      draw_char w h (col * 8) (row * 16) (ch cell) (rgb (fg_r cell) (fg_g cell) (fg_b cell)) (rgb (bg_r cell) (bg_g cell) (bg_b cell)) buf) buf) buf).
Proof.
  intros Hb. eapply drawn_ext; [|apply (drawn_for (cell_pixel t) (fun row x y => (x <? 640) && (row * 16 <=? y) && (y <? row * 16 + 16))); [done|]].
  - intros x y Hx Hy. split; [|done]. pose proof (Z.div_mod y 16). pose proof (Z.mod_pos_bound y 16).
    rewrite (exists_seqZ _ 0 30 (y / 16) (x <? 640)) by (intros; lia). lia.
  - intros row b Hrow Hbz. eapply drawn_ext; [|apply (drawn_for (cell_pixel t) (fun col x y => (col * 8 <=? x) && (x <? col * 8 + 8) && (row * 16 <=? y) && (y <? row * 16 + 16))); [done|]].
    + intros x y Hx Hy. split; [|done]. pose proof (Z.div_mod x 8). pose proof (Z.mod_pos_bound x 8).
      rewrite (exists_seqZ _ 0 80 (x / 8) ((row * 16 <=? y) && (y <? row * 16 + 16))) by (intros; lia). lia.
    + intros col b' Hcol Hb'. by apply drawn_char.
Qed.

Lemma drawn_ground buf : zlen buf = w * h ->
  drawn w h (fun _ _ => true) (fun _ _ => 0xFF1a1a2e) buf (for_ 0 h (fun y buf => for_ 0 w (fun x buf => aset buf (y * w + x) 0xFF1a1a2e) buf) buf).
Proof.
  intros Hb. eapply drawn_ext; [|apply (drawn_box (fun _ _ => 0xFF1a1a2e) 0 0 w h (fun y x b => aset b (y * w + x) 0xFF1a1a2e)); [done|]].
  - intros x y Hx Hy. split; [lia|done].
  - intros y x b Hy Hx. unfold plot, inside. by replace (_ && _) with true by lia.
Qed.

Lemma drawn_cursor t buf : 0 <= tcol t -> 0 <= trow t -> zlen buf = w * h ->
  let px := tcol t * 8 in
  let py := trow t * 16 in
  drawn w h (fun x y => (px <=? x) && (x <? px + 2) && (py <=? y) && (y <? py + 16)) (fun _ _ => 0xFFFF0000) buf
    (for_ 0 (Z.min 16 (h - py)) (fun row buf => for_ 0 (Z.min 2 (w - px)) (fun col buf => aset buf ((py + row) * w + (px + col)) 0xFFFF0000) buf) buf).
Proof.
  intros Hc Hr Hb px py. assert (0 <= px /\ 0 <= py) by (subst px py; lia). clearbody px py.
  eapply drawn_ext; [|apply (drawn_box (fun _ _ => 0xFFFF0000) px py (Z.min 2 (w - px)) (Z.min 16 (h - py)) (fun r c b => aset b ((py + r) * w + (px + c)) 0xFFFF0000)); [done|]].
  - intros x y Hx Hy. split; [lia|done].
  - intros r c b Hr' Hc'. unfold plot, inside. by replace (_ && _) with true by lia.
Qed.

Definition frame_pixel (t : term) (blink : bool) (x y : Z) : Z :=
  if blink && (tcol t * 8 <=? x) && (x <? tcol t * 8 + 2) && (trow t * 16 <=? y) && (y <? trow t * 16 + 16) then 0xFFFF0000
  else if (x <? 640) && (y <? 480) then cell_pixel t x y else 0xFF1a1a2e.

Lemma term_render_spec t blink buf : term_ok t -> zlen buf = w * h ->
  zlen (term_render t w h blink buf) = w * h /\
  forall x y, 0 <= x < w -> 0 <= y < h -> aget 0 (term_render t w h blink buf) (y * w + x) = frame_pixel t blink x y.
Proof.
  intros [_ Hc Hr _] Hb. unfold term_render. cbv zeta. destruct (drawn_ground buf Hb) as [L1 P1]. set (b1 := for_ 0 h _ buf) in *. clearbody b1.
  destruct (drawn_text t b1 ltac:(lia)) as [L2 P2]. cbv zeta in L2, P2.
  change (fun (row : Z) (buf0 : list Z) => for_ 0 80 (fun (col : Z) (buf1 : list Z) => draw_char w h (col * 8) (row * 16) (ch (aget no_cell (aget [] (grid t) row) col)) _ _ buf1) buf0)
    with (fun (row : Z) (buf0 : list Z) => for_ 0 80 (fun (col : Z) (buf1 : list Z) => draw_char w h (col * 8) (row * 16) (ch (gcell (grid t) row col)) (rgb (fg_r (gcell (grid t) row col)) (fg_g (gcell (grid t) row col)) (fg_b (gcell (grid t) row col))) (rgb (bg_r (gcell (grid t) row col)) (bg_g (gcell (grid t) row col)) (bg_b (gcell (grid t) row col))) buf1) buf0).
  set (b2 := for_ 0 30 _ b1) in *. clearbody b2. unfold frame_pixel. destruct blink; cbn [andb].
  - destruct (drawn_cursor t b2) as [L3 P3]; [lia|lia|lia|]. cbv zeta in L3, P3. split; [lia|]. intros x y Hx Hy. rewrite P3, P2, P1 by done. done.
  - split; [lia|]. intros x y Hx Hy. rewrite P2, P1 by done. done.
Qed.
End Frame.

(** ** The program *)

Definition terminated (e : event_t) : Prop := match e with EVENT_KEY _ _ _ text => existsb (Z.eqb 0) text = true | _ => True end.
Definition meets_ok (m : meets) : Prop := Forall (fun te => terminated te.2) (m_events m).

Lemma on_events_ok es : forall p, Forall (fun te => terminated te.2) es -> exists p', on_events es p = Some p' /\ p_term p' = p_term p.
Proof.
  induction es as [|[now e] es IH]; intros p Hes; [by exists p|]. apply Forall_cons_1 in Hes as [He Hes]. cbn [on_events snd] in *.
  assert (H1 : exists p1, on_event now e p = Some p1 /\ p_term p1 = p_term p).
  { destruct e; cbn [on_event terminated] in *; try (eexists; split; [done|done]).
    destruct (pressed =? 0); [eexists; split; [done|by destruct (_ =? _)]|]. rewrite He. cbn [negb]. eexists. split; [done|]. by repeat case_match. }
  destruct H1 as (p1 & -> & E1). cbn. destruct (IH p1 Hes) as (p2 & -> & E2). exists p2. split; [done|congruence].
Qed.

Lemma read_from_pty_concat chunks t : read_from_pty chunks t = term_write_str (concat chunks) t.
Proof. revert t. induction chunks as [|c cs IH]; intros t; cbn [read_from_pty concat]; [done|]. rewrite write_app. destruct (term_write_str c t); [apply IH|done]. Qed.

Definition framed (p : prog) (buf : list Z) : Prop :=
  forall x y, 0 <= x < 640 -> 0 <= y < 480 -> aget 0 buf (y * 640 + x) = frame_pixel (p_term p) (blink_state p) x y.

Lemma window_pass_ok m p buf : meets_ok m -> term_ok (p_term p) -> zlen buf = 640 * 480 ->
  exists p' buf', window_pass m (p, buf) = Some (p', buf') /\ term_ok (p_term p') /\ zlen buf' = 640 * 480 /\ framed p' buf'.
Proof.
  intros Hm Hok Hb. cbn [window_pass]. destruct (on_events_ok (m_events m) p Hm) as (p1 & -> & E1). cbn [mbind option_bind].
  assert (E2 : p_term (auto_repeat (m_now m) p1) = p_term p) by (unfold auto_repeat; destruct (_ && _); cbn; done).
  rewrite E2, read_from_pty_concat. destruct (term_write_str_ok (concat (m_output m)) (p_term p) Hok) as (t1 & -> & Hok1). cbn [mbind option_bind].
  set (p2 := set_term t1 _).
  assert (H3 : exists p3, (if m_exited m && p_shell p2 then t ← term_write_str exited_msg (p_term p2); Some (set_shell false (set_term t p2)) else Some p2) = Some p3 /\ term_ok (p_term p3)).
  { destruct (_ && _); [|by exists p2]. destruct (term_write_str_ok exited_msg (p_term p2) Hok1) as (t2 & -> & Hok2). cbn. by eexists. }
  destruct H3 as (p3 & -> & Hok3). cbn [mbind option_bind]. set (p4 := do_blink p3).
  assert (Hok4 : term_ok (p_term p4)) by (unfold p4, do_blink; cbv zeta; by case_match).
  destruct (term_render_spec 640 480 (p_term p4) (blink_state p4) buf Hok4 Hb) as [Hl Hp]. by exists p4, (term_render (p_term p4) 640 480 (blink_state p4) buf).
Qed.

Lemma window_loop_ok ms : forall p buf, Forall meets_ok ms -> term_ok (p_term p) -> zlen buf = 640 * 480 -> framed p buf ->
  exists p' buf', window_loop ms (p, buf) = Some (p', buf') /\ term_ok (p_term p') /\ framed p' buf'.
Proof.
  induction ms as [|m ms IH]; intros p buf Hms Hok Hb Hf; cbn [window_loop fst]; [by exists p, buf|]. apply Forall_cons_1 in Hms as [Hm Hms].
  destruct (p_running p); [|by exists p, buf]. destruct (window_pass_ok m p buf Hm Hok Hb) as (p1 & b1 & -> & Hok1 & Hb1 & Hf1). cbn. by apply IH.
Qed.

Lemma term0_ok : term_ok term0.
Proof. constructor; [apply blank_grid_ok|done|done|done]. Qed.

Lemma main_start_ok : exists p, main_start = Some p /\ term_ok (p_term p) /\ p_running p = true.
Proof.
  unfold main_start. destruct (term_write_str_ok greeting1 term0 term0_ok) as (t1 & -> & H1). cbn [mbind option_bind].
  destruct (term_write_str_ok greeting2 t1 H1) as (t2 & -> & H2). cbn [mbind option_bind].
  exists (Prog t2 [] true true 0 0 0 [] false true 0). split; [reflexivity|]. split; [exact H2|reflexivity].
Qed.

(** C28: The terminal understands the control sequences it is sent.  For every
    list of commands (characters, line feeds, tabs, erasing, absolute and
    relative moves, styles, modes), the bytes that stand for them, with their
    numbers in decimal, change the grid exactly as the abstract screen does, and
    leave the escape machine at rest. *)
Theorem terminal_refines t s ks :
  Forall vt_ok ks -> shows t s -> esc_state t = 0 ->
  exists t', term_write_str (concat (map vt_bytes ks)) t = Some t' /\ shows t' (foldl vt_step s ks) /\ esc_state t' = 0.
Proof. intros Hk Hs He. destruct (vt_run ks t s Hk (conj Hs He)) as (t' & E & H1 & H2). by exists t'. Qed.

Lemma terminal_refines_witness :
  exists t', term_write_str (concat (map vt_bytes [Print 65; MoveTo 30 80; Print 66; Up 4; Style [49]; Print 67])) term0 = Some t' /\ tcol t' = 1 /\ trow t' = 25 /\
    ch (gcell (grid t') 28 79) = 66 /\ ch (gcell (grid t') 25 0) = 67.
Proof.
  destruct (terminal_refines term0 (screen_of term0) [Print 65; MoveTo 30 80; Print 66; Up 4; Style [49]; Print 67]) as (t' & E & [_ Hc Hr Hcell] & _).
  - repeat constructor; lia.
  - apply shows_self, term0_ok.
  - reflexivity.
  - exists t'. split; [exact E|]. split; [rewrite Hc; reflexivity|]. split; [rewrite Hr; reflexivity|]. split; rewrite Hcell by lia; reflexivity.
Defined.

(** C29: No input breaks the terminal window, and what it shows is right: from its
    start, for all events, times and output of the shell, the program runs on,
    the cursor and the cells stay in the grid, and every pixel of the frame that
    is committed is the cursor, the bit of the glyph of the character in its
    cell in that cell's colours, or the background. *)
Theorem terminal_frames m ms buf :
  Forall meets_ok (m :: ms) -> zlen buf = 640 * 480 ->
  exists p0 p buf', main_start = Some p0 /\ window_loop (m :: ms) (p0, buf) = Some (p, buf') /\ term_ok (p_term p) /\
    forall x y, 0 <= x < 640 -> 0 <= y < 480 -> aget 0 buf' (y * 640 + x) = frame_pixel (p_term p) (blink_state p) x y.
Proof.
  intros [Hm Hms]%Forall_cons_1 Hb. destruct main_start_ok as (p0 & E0 & Hok & Hrun). exists p0. cbn [window_loop fst]. rewrite Hrun.
  destruct (window_pass_ok m p0 buf Hm Hok Hb) as (p1 & b1 & -> & Hok1 & Hb1 & Hf1). cbn [mbind option_bind].
  destruct (window_loop_ok ms p1 b1 Hms Hok1 Hb1 Hf1) as (p2 & b2 & E2 & Hok2 & Hf2).
  exists p2, b2. split; [exact E0|]. split; [exact E2|]. split; [exact Hok2|exact Hf2].
Qed.

Lemma terminal_frames_witness :
  exists p0 p buf', main_start = Some p0 /\
    window_loop [Meets [(10, EVENT_KEY 1 30 1 [97; 0; 0; 0; 0; 0; 0; 0])] 20 [[27; 91; 72; 65]] false] (p0, replicate (Z.to_nat (640 * 480)) 0) = Some (p, buf') /\ term_ok (p_term p) /\
    forall x y, 0 <= x < 640 -> 0 <= y < 480 -> aget 0 buf' (y * 640 + x) = frame_pixel (p_term p) (blink_state p) x y.
Proof.
  apply (terminal_frames (Meets [(10, EVENT_KEY 1 30 1 [97; 0; 0; 0; 0; 0; 0; 0])] 20 [[27; 91; 72; 65]] false) []).
  - repeat constructor.
  - unfold zlen. rewrite length_replicate. lia.
Defined.

(** ** Auto-repeat *)

(** The passes at which a key held since [first] repeats. *)
Fixpoint fires (first last : Z) (ts : list Z) : list Z :=
  match ts with
  | [] => []
  | t :: ts' => if (200 <? t - first) && (50 <? t - last) then t :: fires first t ts' else fires first last ts'
  end.
Definition repeat_bytes (p : prog) : list Z := if negb (bool_decide (repeat_text p = [])) then repeat_text p else plain_key (repeat_keycode p).

Lemma auto_repeat_schedule ts : forall p, key_held p = true -> 0 <= repeat_first_time p <= repeat_last_time p ->
  Forall (fun t => repeat_last_time p <= t < 2^64) ts -> Sorted Z.le ts ->
  p_sent (foldl (fun p t => auto_repeat t p) p ts) = p_sent p ++ concat (map (fun _ => repeat_bytes p) (fires (repeat_first_time p) (repeat_last_time p) ts)).
Proof.
  induction ts as [|t ts IH]; intros p Hk Hf Hts Hs; cbn [foldl fires map concat]; [by rewrite app_nil_r|].
  apply Forall_cons_1 in Hts as [Ht Hts]. pose proof (Sorted_StronglySorted Z.le_trans Hs) as Hst. apply StronglySorted_inv in Hst as [_ Hall]. apply Sorted_inv in Hs as [Hs _].
  unfold auto_repeat at 2. rewrite Hk. unfold u64. rewrite !Z.mod_small by lia. cbn [andb]. unfold REPEAT_DELAY_MS, REPEAT_RATE_MS.
  destruct ((200 <? t - repeat_first_time p) && (50 <? t - repeat_last_time p)) eqn:E; [|by apply IH].
  cbv zeta. rewrite IH; [cbn [map concat]; by rewrite app_assoc|done|cbn; lia| |done].
  cbn. apply Forall_forall. intros x Hx. pose proof (proj1 (Forall_forall _ _) Hall x Hx). pose proof (proj1 (Forall_forall _ _) Hts x Hx). cbn in *. lia.
Qed.

(** A repeat comes more than 200 ms after the press and more than 50 ms after
    the one before; a released key does not repeat. *)
Lemma fires_spaced first last ts : Forall (fun t => first + 200 < t) (fires first last ts) /\
  match fires first last ts with [] => True | t :: l => last + 50 < t end.
Proof.
  revert last. induction ts as [|t ts IH]; intros last; cbn [fires]; [split; constructor|].
  destruct ((200 <? t - first) && (50 <? t - last)) eqn:E; [|apply IH]. bool_to_prop. split; [constructor; [lia|apply IH]|lia].
Qed.
Lemma released_key_rests t p : key_held p = false -> auto_repeat t p = p.
Proof. intros H. unfold auto_repeat. by rewrite H. Qed.

(** ** What the terminal gets wrong *)

(** The second greeting is one byte short: its last line feed is missing. *)
Lemma greeting_is_cut : (fun p => trow (p_term p)) <$> main_start = Some 2 /\ zlen greeting2 = 23 /\ aget 0 greeting2 22 = c_cr.
Proof. split_and!; vm_compute; reflexivity. Qed.

(** An omitted number counts as zero, so that coordinate is not moved to 1. *)
Lemma omitted_row_is_kept t : esc_state t = 0 ->
  exists t', term_write_str [27; 91; 59; 53; 72] t = Some t' /\ trow t' = trow t /\ tcol t' = 4.
Proof.
  intros He. destruct t as [g c r e b]. cbn in He. subst e. eexists. split; [reflexivity|]. split; reflexivity.
Qed.

(** A move past the edge is dropped; a terminal stops at the edge. *)
Lemma far_move_is_dropped : (fun t => (tcol t, trow t)) <$> term_write_str (vt_bytes (Forward 100)) term0 = Some (0, 0).
Proof. vm_compute. reflexivity. Qed.
