(* ===== verification/Rtl.v ===== *)
(** * RTL8139 network driver ([lwip/port/netif/rtl8139.h])

    The card writes received frames into a ring of 8192 bytes and sends from
    four slots of 1792 bytes.  The ports of the card, the PCI configuration space
    and the stack above (buffers and [netif->input]) are the interface [Nic];
    [NicOk] states what the theorems need of it. *)

From Stdlib Require Import ZArith Lia.
From stdpp Require Import base numbers list list_numbers strings.
From S2P Require Import Prelude CLib Console.

Notation NET_LOG_MAX := 64 (only parsing).
Notation RTL_RX_SZ := 8192 (only parsing).
Notation RTL_TX_SZ := 1792 (only parsing).
Notation RTL_RX_PHYS := 0x02000000 (only parsing).
Notation RTL_TX_PHYS := 0x02010000 (only parsing).

(** ** The card and the stack *)

Class Nic (W : Type) := {
  in_port : Z -> M W Z;                 (* [rtl_inb], [rtl_inw], [rtl_inl] *)
  out_port : Z -> Z -> M W unit;        (* [rtl_outb], [rtl_outw], [rtl_outl] *)
  pci_r32 : Z -> Z -> Z -> M W Z;       (* bus, device, register *)
  pci_w32 : Z -> Z -> Z -> Z -> M W unit;
  pbuf_alloc : Z -> M W bool;
  netif_input : list Z -> M W unit;
}.

(** The fields of lwIP's [struct netif] a driver fills in; [0x0E] are the flags
    [NETIF_FLAG_BROADCAST], [NETIF_FLAG_ETHARP] and [NETIF_FLAG_LINK_UP]. *)
Record netif := NetIf { if_name : cstr; if_mtu : Z; if_flags : Z; hwaddr : list Z; hwaddr_len : Z }.

Inductive err_t := ERR_OK | ERR_BUF | ERR_IF.

(** ** The log of the driver *)

Record NetLogEntry := NetEntry { tick : Z; event : cstr; detail : cstr }.
Definition no_event : NetLogEntry := NetEntry 0 [] [].
Record netlog := NetLog { net_log : list NetLogEntry; net_log_idx : Z; net_log_count : Z; net_tick : Z }.
Definition netlog0 : netlog := NetLog (replicate 64 no_event) 0 0 0.

Definition net_log_event (e d : cstr) (l : netlog) : netlog :=
  let count := if net_log_count l =? 0 then 1 else net_log_count l in
  let tk := net_tick l + 1 in
  NetLog (aset (net_log l) (net_log_idx l mod NET_LOG_MAX) (NetEntry tk (take 15 e) (take 47 d))) (net_log_idx l + 1)
         (if count <? NET_LOG_MAX then count + 1 else count) tk.

(** [idx=(net_log_idx-net_log_count+i)%NET_LOG_MAX], the C remainder, which is
    negative for a negative dividend. *)
Definition entry_at (i : Z) : M netlog NetLogEntry :=
  l ← get;
  let idx := Z.rem (net_log_idx l - net_log_count l + i) NET_LOG_MAX in
  in_array NET_LOG_MAX idx ;; mret (aget no_event (net_log l) idx).

Definition net_log_dump : M netlog unit :=
  l ← get;
  if net_log_count l =? 0 then vpln (cs "[no network events logged yet]")
  else mapM_ (fun i => e ← entry_at i;
                       if bool_decide (event e = []) then mret tt
                       else vps (cs "[") ;; vps (event e) ;; vps (cs "] ") ;; vpln (detail e)) (seqZ 0 (net_log_count l)).

(** The text handed out, at most [max-1] characters. *)
Fixpoint get_lines (n : nat) (i max : Z) (out : cstr) : M netlog cstr :=
  match n with
  | O => mret out
  | S n' =>
      if zlen out <? max - 1 then
        e ← entry_at i;
        let line := if bool_decide (event e = []) then [] else event e ++ [c_sp] ++ detail e ++ [c_nl] in
        get_lines n' (i + 1) max (take (Z.to_nat (max - 1)) (out ++ line))
      else mret out
  end.
Definition rtl_net_log_get (max : Z) : M netlog cstr := l ← get; get_lines (Z.to_nat (net_log_count l)) 0 max [].

(** ** The driver *)

(** [rx], [tx]: the memory the card reads and writes at [RTL_RX_PHYS] and
    [RTL_TX_PHYS]. *)
Record rtl (W : Type) := Rtl {
  hw_ok : bool; iobase : Z; mac : list Z; tx_cur : Z; rx_ptr : Z; rx_count : Z; tx_count : Z; rx_poll_count : Z;
  rx : list Z; tx : list Z; log : netlog; card : W }.
Arguments Rtl {W} _ _ _ _ _ _ _ _ _ _ _ _.
Arguments hw_ok {W} _.
Arguments iobase {W} _.
Arguments mac {W} _.
Arguments tx_cur {W} _.
Arguments rx_ptr {W} _.
Arguments rx_count {W} _.
Arguments tx_count {W} _.
Arguments rx_poll_count {W} _.
Arguments rx {W} _.
Arguments tx {W} _.
Arguments log {W} _.
Arguments card {W} _.

(** Bytes [d] stored from index [i] on. *)
Definition blit (m : list Z) (i : Z) (d : list Z) : list Z := for_ 0 (zlen d) (fun k m => aset m (i + k) (aget 0 d k)) m.

(** A 16-bit little-endian load. *)
Definition ld16 (m : list Z) (i : Z) : Z := Z.lor (aget 0 m i) (Z.shiftl (aget 0 m (i + 1)) 8).

(** The polls of [rtl_output] and of the reset. *)
Definition TX_POLLS : nat := Z.to_nat 1000000.
Definition RESET_POLLS : nat := Z.to_nat 10000.

Section Driver.
Context {W : Type} `{Nic W}.
Implicit Type s : rtl W.

Definition set_card (w : W) s := Rtl (hw_ok s) (iobase s) (mac s) (tx_cur s) (rx_ptr s) (rx_count s) (tx_count s) (rx_poll_count s) (rx s) (tx s) (log s) w.
Definition set_log (l : netlog) s := Rtl (hw_ok s) (iobase s) (mac s) (tx_cur s) (rx_ptr s) (rx_count s) (tx_count s) (rx_poll_count s) (rx s) (tx s) l (card s).
Definition set_tx (m : list Z) s := Rtl (hw_ok s) (iobase s) (mac s) (tx_cur s) (rx_ptr s) (rx_count s) (tx_count s) (rx_poll_count s) (rx s) m (log s) (card s).
Definition set_rx (m : list Z) s := Rtl (hw_ok s) (iobase s) (mac s) (tx_cur s) (rx_ptr s) (rx_count s) (tx_count s) (rx_poll_count s) m (tx s) (log s) (card s).
Definition set_tx_cur (z : Z) s := Rtl (hw_ok s) (iobase s) (mac s) z (rx_ptr s) (rx_count s) (tx_count s) (rx_poll_count s) (rx s) (tx s) (log s) (card s).
Definition set_rx_ptr (z : Z) s := Rtl (hw_ok s) (iobase s) (mac s) (tx_cur s) z (rx_count s) (tx_count s) (rx_poll_count s) (rx s) (tx s) (log s) (card s).
Definition add_rx s := Rtl (hw_ok s) (iobase s) (mac s) (tx_cur s) (rx_ptr s) (u32 (rx_count s + 1)) (tx_count s) (rx_poll_count s) (rx s) (tx s) (log s) (card s).
Definition add_tx s := Rtl (hw_ok s) (iobase s) (mac s) (tx_cur s) (rx_ptr s) (rx_count s) (u32 (tx_count s + 1)) (rx_poll_count s) (rx s) (tx s) (log s) (card s).
Definition add_poll s := Rtl (hw_ok s) (iobase s) (mac s) (tx_cur s) (rx_ptr s) (rx_count s) (tx_count s) (u32 (rx_poll_count s + 1)) (rx s) (tx s) (log s) (card s).
Definition set_hw (ok : bool) s := Rtl ok (iobase s) (mac s) (tx_cur s) (rx_ptr s) (rx_count s) (tx_count s) (rx_poll_count s) (rx s) (tx s) (log s) (card s).
Definition set_iobase (z : Z) s := Rtl (hw_ok s) z (mac s) (tx_cur s) (rx_ptr s) (rx_count s) (tx_count s) (rx_poll_count s) (rx s) (tx s) (log s) (card s).
Definition set_mac (l : list Z) s := Rtl (hw_ok s) (iobase s) l (tx_cur s) (rx_ptr s) (rx_count s) (tx_count s) (rx_poll_count s) (rx s) (tx s) (log s) (card s).

Definition on_card {A} (m : M W A) : M (rtl W) A := zoom card set_card m.
Definition rtl_in (p : Z) : M (rtl W) Z := on_card (in_port (u16 p)).
Definition rtl_out (p v : Z) : M (rtl W) unit := on_card (out_port (u16 p) v).
Definition NET_LOG (e d : string) : M (rtl W) unit := modify (fun s => set_log (net_log_event (cs e) (cs d) (log s)) s).

(** *** Sending *)

(** The chain of buffers copied into [buf], at most 1514 bytes. *)
Fixpoint gather (chain : list (list Z)) (buf : list Z) : list Z :=
  match chain with
  | [] => buf
  | q :: chain' =>
      let c := if 1514 <? zlen buf + zlen q then 1514 - zlen buf else zlen q in
      gather chain' (buf ++ take (Z.to_nat c) q)
  end.

(** [while(t-->0){ ...; if(!(tsd&mask))break; }]: the value of [t] left. *)
Fixpoint wait_clear (n : nat) (port mask : Z) : M (rtl W) Z :=
  match n with
  | O => mret (-1)
  | S n' => v ← rtl_in port; if Z.land v mask =? 0 then mret (Z.of_nat n') else wait_clear n' port mask
  end.

Definition rtl_output (chain : list (list Z)) : M (rtl W) err_t :=
  s ← get;
  if negb (hw_ok s) then NET_LOG "TX" "RTL not initialized" ;; mret ERR_IF
  else
    NET_LOG "TX" "starting packet send" ;;
    let buf := gather chain [] in
    let slot := tx_cur s in
    modify (fun s => set_tx (blit (tx s) (slot * RTL_TX_SZ) buf) s) ;;
    rtl_out (iobase s + 0x20 + slot * 4) (RTL_TX_PHYS + slot * RTL_TX_SZ) ;;
    rtl_out (iobase s + 0x10 + slot * 4) (Z.lor (Z.land (zlen buf) 0x1FFF) 0x80000000) ;;
    NET_LOG "TX" "waiting for TX completion" ;;
    t ← wait_clear TX_POLLS (iobase s + 0x10 + slot * 4) 0x80000000;
    if t <=? 0 then NET_LOG "TX" "timeout waiting for TX" ;; mret ERR_BUF
    else
      NET_LOG "TX" "packet sent successfully" ;;
      modify (fun s => add_tx (set_tx_cur (Z.land (slot + 1) 3) s)) ;;
      mret ERR_OK.

Definition rtl_send (data : list Z) : M (rtl W) unit :=
  s ← get;
  if negb (hw_ok s) || (1514 <? zlen data) then mret tt
  else
    let slot := tx_cur s in
    modify (fun s => set_tx (blit (tx s) (slot * RTL_TX_SZ) data) s) ;;
    rtl_out (iobase s + 0x20 + slot * 4) (RTL_TX_PHYS + slot * RTL_TX_SZ) ;;
    rtl_out (iobase s + 0x10 + slot * 4) (Z.land (zlen data) 0x1FFF) ;;
    _ ← wait_clear TX_POLLS (iobase s + 0x10 + slot * 4) 0x2000;
    modify (fun s => set_tx_cur (Z.land (slot + 1) 3) s).

(** *** Receiving *)

(** The frame of [len] bytes whose first is at [dp], which wraps at the end. *)
Definition ring_bytes (m : list Z) (dp len : Z) : list Z := map (fun i => aget 0 m ((dp + i) mod RTL_RX_SZ)) (seqZ 0 len).

Definition wrap_ptr (p : Z) : Z := if RTL_RX_SZ <=? p then p - RTL_RX_SZ else p.

(** One pass of the loop; [false] is the [break]. *)
Definition rx_packet (pkt : Z) : M (rtl W) bool :=
  s ← get;
  let pos := rx_ptr s in
  in_array (RTL_RX_SZ - 1) pos ;;
  if Z.land (ld16 (rx s) pos) 1 =? 0 then
    (if pkt =? 0 then NET_LOG "RX" "NO PACKETS - rx status=0x0000 (buffer empty)" else mret tt) ;; mret false
  else
    NET_LOG "RX" "packet found! status=0x0001" ;;
    in_array (RTL_RX_SZ - 1) (pos + 2) ;;
    let raw_len := ld16 (rx s) (pos + 2) in
    let len := raw_len - 4 in
    if (len <=? 0) || (1518 <? len) then NET_LOG "RX" "bad length" ;; mret false
    else
      modify add_rx ;;
      NET_LOG "RX" "processing packet" ;;
      p ← on_card (pbuf_alloc len);
      (if p : bool then
         on_card (netif_input (ring_bytes (rx s) ((pos + 4) mod RTL_RX_SZ) len)) ;;
         NET_LOG "RX" "packet delivered to lwIP"
       else mret tt) ;;
      let next_ptr := wrap_ptr (u16 (Z.land (pos + 4 + raw_len + 3) (Z.lnot 3))) in
      rtl_out (iobase s + 0x38) (u16 (next_ptr - 0x10)) ;;
      modify (set_rx_ptr next_ptr) ;;
      mret true.

Fixpoint rx_loop (n : nat) (pkt : Z) : M (rtl W) unit :=
  match n with
  | O => mret tt
  | S n' => go ← rx_packet pkt; if (go : bool) then rx_loop n' (pkt + 1) else mret tt
  end.

Definition rtl_input : M (rtl W) unit :=
  s ← get;
  if negb (hw_ok s) then NET_LOG "RX" "RTL not initialized"
  else
    modify add_poll ;;
    NET_LOG "RX" "polling for packets..." ;;
    rx_loop 16 0 ;;
    if rx_poll_count (add_poll s) mod 1000 =? 0 then NET_LOG "RX" "poll check" else mret tt.

(** [uint16_t len]: the subtraction wraps. *)
Definition rtl_recv (max : Z) : M (rtl W) (option (list Z)) :=
  s ← get;
  if negb (hw_ok s) then mret None
  else
    let pos := rx_ptr s in
    in_array (RTL_RX_SZ - 1) pos ;;
    if Z.land (ld16 (rx s) pos) 1 =? 0 then mret None
    else
      in_array (RTL_RX_SZ - 1) (pos + 2) ;;
      let len := u16 (ld16 (rx s) (pos + 2) - 4) in
      if (len <=? 0) || (1518 <? len) || (max <? len) then mret None
      else
        let next_ptr := wrap_ptr (u16 (Z.land (pos + len + 4 + 3) (Z.lnot 3))) in
        rtl_out (iobase s + 0x38) (u16 (next_ptr - 0x10)) ;;
        modify (set_rx_ptr next_ptr) ;;
        mret (Some (ring_bytes (rx s) ((pos + 4) mod RTL_RX_SZ) len)).

(** *** Initialisation *)

(** [while((rtl_inb(...)&0x10)&&t-->0);]: what is left of [t], tested after the
    register, so [-1] when it ran out. *)
Fixpoint reset_wait (n : nat) (port : Z) : M (rtl W) Z :=
  v ← rtl_in port;
  if Z.land v 0x10 =? 0 then mret (Z.of_nat n)
  else match n with O => mret (-1) | S n' => reset_wait n' port end.

Fixpoint find_card (slots : list (Z * Z)) : M (rtl W) bool :=
  match slots with
  | [] => mret false
  | (b, d) :: slots' =>
      id ← on_card (pci_r32 b d 0);
      NET_LOG "RTL" "PCI scan" ;;
      if id =? 0x813910EC then
        NET_LOG "RTL" "Found RTL8139!" ;;
        bar ← on_card (pci_r32 b d 0x10);
        modify (set_iobase (Z.land bar (Z.lnot 3))) ;;
        NET_LOG "RTL" "Enabled bus master" ;;
        cmd ← on_card (pci_r32 b d 4);
        on_card (pci_w32 b d 4 (Z.lor cmd 5)) ;;
        mret true
      else find_card slots'
  end.
Definition pci_slots : list (Z * Z) := b ← seqZ 0 4; d ← seqZ 0 32; [(b, d)].

Fixpoint read_mac (n : nat) (i : Z) : M (rtl W) unit :=
  match n with
  | O => mret tt
  | S n' =>
      s ← get;
      v ← rtl_in (iobase s + i);
      modify (fun s => set_mac (aset (mac s) i v) s) ;;
      read_mac n' (i + 1)
  end.

(** The registers set after the reset, in order. *)
Definition setup_regs : list (Z * Z) :=
  [(0x52, 0); (0x30, RTL_RX_PHYS); (0x20, RTL_TX_PHYS); (0x24, RTL_TX_PHYS + RTL_TX_SZ); (0x28, RTL_TX_PHYS + RTL_TX_SZ * 2);
   (0x2C, RTL_TX_PHYS + RTL_TX_SZ * 3); (0x44, 0x00008F0F); (0x40, 0x03000700); (0x63, 0x21); (0x3C, 0x0005); (0x37, 0x0C)].

Definition rtl_hw_init : M (rtl W) bool :=
  NET_LOG "RTL" "Starting RTL8139 initialization..." ;;
  found ← find_card pci_slots;
  if negb found then NET_LOG "RTL" "FAILED: No RTL8139 found" ;; mret false
  else
    NET_LOG "RTL" "Resetting chip..." ;;
    s ← get;
    rtl_out (iobase s + 0x37) 0x10 ;;
    t ← reset_wait RESET_POLLS (iobase s + 0x37);
    if t <=? 0 then NET_LOG "RTL" "FAILED: Reset timeout" ;; mret false
    else
      NET_LOG "RTL" "Reading MAC address..." ;;
      read_mac 6 0 ;;
      mapM_ (fun rv => rtl_out (iobase s + rv.1) rv.2) setup_regs ;;
      modify (fun s => set_rx (replicate (Z.to_nat RTL_RX_SZ) 0) s) ;;
      NET_LOG "RTL" "Hardware initialized OK" ;;
      vps (cs "rtl rx_buf=0x") ;; vps (kuia RTL_RX_PHYS 16) ;; vpln [] ;;
      modify (fun s => set_rx_ptr 0 (set_tx_cur 0 (set_hw true s))) ;;
      NET_LOG "RTL" "RTL8139 ready" ;;
      mret true.

(** What [netif_add] is told of the interface. *)
Definition rtl_init : M (rtl W) netif := s ← get; mret (NetIf (cs "et") 1500 0x0E (mac s) 6).

End Driver.

(** ** What the driver relies on *)

(** [frames]: what the stack was handed so far; [written]: the port writes. *)
Class NicOk (W : Type) `{Nic W} := {
  frames : W -> list (list Z);
  written : W -> list (Z * Z);
  in_ok : forall p w, exists v w', in_port p w = Ok v w' [] /\ frames w' = frames w /\ written w' = written w;
  out_ok : forall p v w, exists w', out_port p v w = Ok tt w' [] /\ frames w' = frames w /\ written w' = written w ++ [(p, v)];
  alloc_ok : forall n w, exists b w', pbuf_alloc n w = Ok b w' [] /\ frames w' = frames w;
  input_ok : forall f w, exists w', netif_input f w = Ok tt w' [] /\ frames w' = frames w ++ [f];
  granted : W -> list bool;             (* the answers to the requests for a buffer *)
  in_grant : forall p w v w' o, in_port p w = Ok v w' o -> granted w' = granted w;
  out_grant : forall p v w w' o, out_port p v w = Ok tt w' o -> granted w' = granted w;
  alloc_grant : forall n w b w' o, pbuf_alloc n w = Ok b w' o -> granted w' = granted w ++ [b];
  input_grant : forall f w w' o, netif_input f w = Ok tt w' o -> granted w' = granted w;
}.

(** The memory between driver and card: the read pointer is a multiple of four
    inside the ring. *)
Definition ring_ok {W} (s : rtl W) : Prop := zlen (rx s) = RTL_RX_SZ /\ bytes_ok (rx s) /\ 0 <= rx_ptr s < RTL_RX_SZ /\ rx_ptr s mod 4 = 0.

(** What receiving does not touch. *)
Definition rx_frame {W} (s s' : rtl W) : Prop :=
  hw_ok s' = hw_ok s /\ iobase s' = iobase s /\ mac s' = mac s /\ tx_cur s' = tx_cur s /\ rx s' = rx s /\ tx s' = tx s.

Lemma rx_frame_trans {W} (a b c : rtl W) : rx_frame a b -> rx_frame b c -> rx_frame a c.
Proof. unfold rx_frame. intuition congruence. Qed.

Lemma ld16_range m i : bytes_ok m -> 0 <= ld16 m i < 65536.
Proof.
  intros Hm. assert (Hb : forall j, 0 <= aget 0 m j < 256) by (intros j; apply (Forall_aget_default 0 byte_ok); [done|unfold byte_ok; lia]).
  unfold ld16. pose proof (Hb i). pose proof (Hb (i + 1)). rewrite Z.shiftl_mul_pow2 by lia. rewrite Z.mul_comm, lor_high by lia. lia.
Qed.

(** The next packet starts at the next multiple of four. *)
Definition align4 (n : Z) : Z := 4 * ((n + 3) / 4).
Definition next_pos (pos len : Z) : Z := (pos + align4 (8 + len)) mod RTL_RX_SZ.

Lemma land_align n : 0 <= n -> Z.land n (Z.lnot 3) = 4 * (n / 4).
Proof.
  intros Hn. change 3 with (Z.ones 2). rewrite <- Z.ldiff_land, Z.ldiff_ones_r, Z.shiftl_mul_pow2, Z.shiftr_div_pow2 by lia. change (2^2) with 4. lia.
Qed.

Lemma next_ptr_eq pos len : 0 <= pos < RTL_RX_SZ -> pos mod 4 = 0 -> 1 <= len <= 1518 ->
  wrap_ptr (u16 (Z.land (pos + 4 + (len + 4) + 3) (Z.lnot 3))) = next_pos pos len.
Proof.
  intros Hp Hm Hl. rewrite land_align by lia. unfold wrap_ptr, next_pos, align4.
  rewrite u16_id by (Z.to_euclidean_division_equations; lia).
  case_test; Z.to_euclidean_division_equations; lia.
Qed.

Lemma next_pos_ok pos len : pos mod 4 = 0 -> 0 <= next_pos pos len < RTL_RX_SZ /\ next_pos pos len mod 4 = 0.
Proof. intros Hp. unfold next_pos, align4. Z.to_euclidean_division_equations; lia. Qed.

Section Receive.
Context {W : Type} `{NicOk W}.
Implicit Type s : rtl W.

Lemma out_eq p v s : exists w, rtl_out p v s = Ok tt (set_card w s) [] /\ frames w = frames (card s) /\
  written w = written (card s) ++ [(u16 p, v)] /\ granted w = granted (card s).
Proof.
  destruct (out_ok (u16 p) v (card s)) as (w & E & Hf & Hw). exists w.
  split; [unfold rtl_out, on_card, zoom; by rewrite E|]. split; [done|]. split; [done|]. by eapply out_grant.
Qed.
Lemma in_eq p s : exists v w, in_port (u16 p) (card s) = Ok v w [] /\ rtl_in p s = Ok v (set_card w s) [] /\
  frames w = frames (card s) /\ written w = written (card s).
Proof. destruct (in_ok (u16 p) (card s)) as (v & w & E & Hf & Hw). exists v, w. split; [done|]. split; [|done]. unfold rtl_in, on_card, zoom. by rewrite E. Qed.
Lemma alloc_eq n s : exists b w, on_card (pbuf_alloc n) s = Ok b (set_card w s) [] /\ frames w = frames (card s) /\
  granted w = granted (card s) ++ [b].
Proof.
  destruct (alloc_ok n (card s)) as (b & w & E & Hf). exists b, w.
  split; [unfold on_card, zoom; by rewrite E|]. split; [done|]. by eapply alloc_grant.
Qed.
Lemma input_eq f s : exists w, on_card (netif_input f) s = Ok tt (set_card w s) [] /\ frames w = frames (card s) ++ [f] /\
  granted w = granted (card s).
Proof.
  destruct (input_ok f (card s)) as (w & E & Hf). exists w.
  split; [unfold on_card, zoom; by rewrite E|]. split; [done|]. by eapply input_grant.
Qed.

Lemma in_array_ok {T} (st : T) n i : 0 <= i < n -> in_array n i st = Ok tt st [].
Proof. intros Hi. unfold in_array. by rewrite (proj2 (Z.leb_le 0 i)), (proj2 (Z.ltb_lt i n)) by lia. Qed.

(** Nothing there: the loop ends. *)
Lemma rx_packet_empty pkt s : ring_ok s -> Z.land (ld16 (rx s) (rx_ptr s)) 1 = 0 ->
  exists s', rx_packet pkt s = Ok false s' [] /\ rx_frame s s' /\ rx_ptr s' = rx_ptr s /\ frames (card s') = frames (card s) /\
    rx_count s' = rx_count s /\ card s' = card s.
Proof.
  intros (Hl & Hb & Hp & Hm) Hst. unfold rx_packet. rewrite (bind_silent get _ s s s) by done. cbv zeta.
  rewrite (bind_silent (in_array _ _) _ s tt s) by (apply in_array_ok; Z.to_euclidean_division_equations; lia).
  rewrite Hst. change (0 =? 0) with true. cbv iota. destruct (pkt =? 0); eexists; (split; [reflexivity|]); done.
Qed.

(** A packet of a wrong length: the loop ends and the pointer stays. *)
Lemma rx_packet_bad pkt s : ring_ok s -> Z.land (ld16 (rx s) (rx_ptr s)) 1 <> 0 ->
  ~ 1 <= ld16 (rx s) (rx_ptr s + 2) - 4 <= 1518 ->
  exists s', rx_packet pkt s = Ok false s' [] /\ rx_frame s s' /\ rx_ptr s' = rx_ptr s /\ frames (card s') = frames (card s) /\
    rx_count s' = rx_count s.
Proof.
  intros (Hl & Hb & Hp & Hm) Hst Hlen. unfold rx_packet. rewrite (bind_silent get _ s s s) by done. cbv zeta.
  rewrite (bind_silent (in_array _ _) _ s tt s) by (apply in_array_ok; Z.to_euclidean_division_equations; lia).
  rewrite (proj2 (Z.eqb_neq _ 0) Hst). rewrite (bind_silent (NET_LOG _ _) _ s tt _) by done.
  rewrite (bind_silent (in_array _ _) _ _ tt _) by (apply in_array_ok; Z.to_euclidean_division_equations; lia).
  destruct ((_ <=? 0) || _) eqn:E; [|bool_to_prop; lia]. eexists. split; [reflexivity|]. done.
Qed.

(** A packet: it is counted, handed on when there is a buffer, and the pointer
    moves to the next one. *)
Lemma rx_packet_one pkt s len : ring_ok s -> Z.land (ld16 (rx s) (rx_ptr s)) 1 <> 0 ->
  ld16 (rx s) (rx_ptr s + 2) = len + 4 -> 1 <= len <= 1518 ->
  exists b w s', pbuf_alloc len (card s) = Ok b w [] /\ rx_packet pkt s = Ok true s' [] /\ rx_frame s s' /\
    rx_ptr s' = next_pos (rx_ptr s) len /\ rx_count s' = u32 (rx_count s + 1) /\
    frames (card s') = (frames (card s) ++ if b : bool then [ring_bytes (rx s) ((rx_ptr s + 4) mod RTL_RX_SZ) len] else []) /\
    granted (card s') = granted (card s) ++ [b].
Proof.
  intros (Hl & Hb & Hp & Hm) Hst Hlen Hr. unfold rx_packet. rewrite (bind_silent get _ s s s) by done. cbv zeta.
  rewrite (bind_silent (in_array _ _) _ s tt s) by (apply in_array_ok; Z.to_euclidean_division_equations; lia).
  rewrite (proj2 (Z.eqb_neq _ 0) Hst). rewrite (bind_silent (NET_LOG _ _) _ s tt _) by done.
  rewrite (bind_silent (in_array _ _) _ _ tt _) by (apply in_array_ok; Z.to_euclidean_division_equations; lia).
  rewrite Hlen. replace (len + 4 - 4) with len by lia. destruct ((_ <=? 0) || _) eqn:E; [bool_to_prop; lia|].
  rewrite next_ptr_eq by done. rewrite (bind_silent (modify _) _ _ tt _) by done. rewrite (bind_silent (NET_LOG _ _) _ _ tt _) by done.
  set (s1 := set_log _ (add_rx _)). destruct (alloc_eq len s1) as (b & w & Ea & Fa & Ga).
  exists b, w. rewrite (bind_silent _ _ s1 b _ Ea).
  assert (Ha : pbuf_alloc len (card s) = Ok b w []).
  { unfold on_card, zoom in Ea. change (card s1) with (card s) in Ea. by destruct (pbuf_alloc len (card s)); simplify_eq. }
  assert (Hgo : exists w2 l2, (if b then on_card (netif_input (ring_bytes (rx s) ((rx_ptr s + 4) mod RTL_RX_SZ) len)) ;; NET_LOG "RX" "packet delivered to lwIP" else mret tt)
      (set_card w s1) = Ok tt (set_card w2 (set_log l2 s1)) [] /\
      frames w2 = (frames (card s) ++ if b then [ring_bytes (rx s) ((rx_ptr s + 4) mod RTL_RX_SZ) len] else []) /\
      granted w2 = granted (card s) ++ [b]).
  { destruct b.
    - destruct (input_eq (ring_bytes (rx s) ((rx_ptr s + 4) mod RTL_RX_SZ) len) (set_card w s1)) as (w2 & Ei & Fi & Gi).
      exists w2. eexists. rewrite (bind_silent _ _ _ tt _ Ei). split; [reflexivity|]. rewrite Fi, Gi. cbn [card set_card]. by rewrite Fa.
    - exists w, (log s1). split; [done|]. by rewrite app_nil_r, Fa. }
  destruct Hgo as (w2 & l2 & Eg & Fg & Gg). rewrite (bind_silent _ _ _ tt _ Eg).
  destruct (out_eq (iobase s + 56) (u16 (next_pos (rx_ptr s) len - 16)) (set_card w2 (set_log l2 s1))) as (w3 & Eo & Fo & _ & Go).
  rewrite (bind_silent _ _ _ tt _ Eo). eexists. split; [done|]. split; [reflexivity|]. split; [done|]. split; [done|]. split; [done|].
  cbn [card set_card set_rx_ptr]. rewrite Fo, Go. by split.
Qed.

Lemma rx_ok_next s s' len : ring_ok s -> rx_frame s s' -> rx_ptr s' = next_pos (rx_ptr s) len -> ring_ok s'.
Proof.
  intros (Hl & Hb & Hp & Hm) (_ & _ & _ & _ & Hrx & _) Hn. destruct (next_pos_ok (rx_ptr s) len Hm) as [H1 H2].
  unfold ring_ok. rewrite Hrx, Hn. done.
Qed.

(** *** Whatever the card wrote *)

Lemma rx_loop_safe n : forall pkt s, ring_ok s ->
  exists s', rx_loop n pkt s = Ok tt s' [] /\ rx_frame s s' /\ ring_ok s' /\
    exists fs, frames (card s') = frames (card s) ++ fs /\ (length fs <= n)%nat /\ Forall (fun f => 1 <= zlen f <= 1518) fs.
Proof.
  induction n as [|n IH]; intros pkt s Hs.
  { exists s. split; [done|]. split; [done|]. split; [done|]. exists []. rewrite app_nil_r. split; [done|]. split; [done|constructor]. }
  cbn [rx_loop]. destruct (decide (Z.land (ld16 (rx s) (rx_ptr s)) 1 = 0)) as [E|E].
  { destruct (rx_packet_empty pkt s Hs E) as (s' & Ep & Hf & Hp & Hfr & _). rewrite (bind_silent _ _ s false s' Ep).
    exists s'. split; [done|]. split; [done|]. split; [destruct Hs as (?&?&?&?), Hf as (?&?&?&?&Hrx&?); unfold ring_ok; by rewrite Hrx, Hp|].
    exists []. rewrite app_nil_r. split; [done|]. split; [cbn; lia|constructor]. }
  destruct (decide (1 <= ld16 (rx s) (rx_ptr s + 2) - 4 <= 1518)) as [Hl|Hl].
  - destruct (rx_packet_one pkt s (ld16 (rx s) (rx_ptr s + 2) - 4) Hs E) as (b & w & s1 & _ & Ep & Hf & Hp & _ & Hfr & _); [lia..|].
    rewrite (bind_silent _ _ s true s1 Ep). destruct (IH (pkt + 1) s1) as (s2 & E2 & F2 & O2 & fs & G2 & L2 & A2); [by eapply rx_ok_next|].
    exists s2. split; [done|]. split; [by eapply rx_frame_trans|]. split; [done|].
    rewrite G2, Hfr, <- app_assoc. eexists. split; [reflexivity|]. destruct b; cbn [app length]; (split; [lia|]); [|done].
    constructor; [|done]. unfold ring_bytes, zlen. rewrite length_map, length_seqZ. lia.
  - destruct (rx_packet_bad pkt s Hs E Hl) as (s' & Ep & Hf & Hp & Hfr & _). rewrite (bind_silent _ _ s false s' Ep).
    exists s'. split; [done|]. split; [done|]. split; [destruct Hs as (?&?&?&?), Hf as (?&?&?&?&Hrx&?); unfold ring_ok; by rewrite Hrx, Hp|].
    exists []. rewrite app_nil_r. split; [done|]. split; [cbn; lia|constructor].
Qed.

(** *** The frames the card queued *)

(** The ring holds the frames [fs] from [pos] on, and nothing behind. *)
Inductive queued (m : list Z) : Z -> list (list Z) -> Prop :=
  | q_empty pos : Z.land (ld16 m pos) 1 = 0 -> queued m pos []
  | q_frame pos f fs : Z.land (ld16 m pos) 1 <> 0 -> ld16 m (pos + 2) = zlen f + 4 -> 1 <= zlen f <= 1518 ->
      ring_bytes m ((pos + 4) mod RTL_RX_SZ) (zlen f) = f -> queued m (next_pos pos (zlen f)) fs -> queued m pos (f :: fs).

(** The frames for which a buffer was granted, in order. *)
Fixpoint picked {A} (bs : list bool) (xs : list A) : list A :=
  match bs, xs with
  | b :: bs', x :: xs' => if b then x :: picked bs' xs' else picked bs' xs'
  | _, _ => []
  end.

Lemma rx_loop_queued n : forall pkt s fs, ring_ok s -> queued (rx s) (rx_ptr s) fs ->
  exists s' bs, rx_loop n pkt s = Ok tt s' [] /\ rx_frame s s' /\ ring_ok s' /\
    length bs = length (take n fs) /\ granted (card s') = granted (card s) ++ bs /\
    frames (card s') = frames (card s) ++ picked bs (take n fs) /\ queued (rx s') (rx_ptr s') (drop n fs).
Proof.
  induction n as [|n IH]; intros pkt s fs Hs Hq.
  { exists s, []. by rewrite take_0, !app_nil_r, drop_0. }
  cbn [rx_loop]. inversion Hq as [? E Hpos Hfs|? f fs' E Hlen Hr Hby Hq' Hpos Hfs]; subst.
  - destruct (rx_packet_empty pkt s Hs E) as (s' & Ep & Hf & Hp & Hfr & _ & Hc). rewrite (bind_silent _ _ s false s' Ep).
    exists s', []. split; [done|]. split; [done|]. destruct Hs as (?&?&?&?). pose proof Hf as (?&?&?&?&Hrx&?).
    split; [unfold ring_ok; by rewrite Hrx, Hp|]. cbn [take drop picked length]. rewrite !app_nil_r, Hrx, Hp, Hc.
    repeat (split; [done|]). by constructor.
  - destruct (rx_packet_one pkt s (zlen f) Hs E Hlen Hr) as (b & w & s1 & Ea & Ep & Hf & Hp & _ & Hfr & Hg).
    rewrite Hby in Hfr. rewrite (bind_silent _ _ s true s1 Ep). pose proof Hf as (_ & _ & _ & _ & Hrx & _).
    destruct (IH (pkt + 1) s1 fs') as (s2 & bs & E2 & F2 & O2 & L2 & G2 & P2 & Q2); [by eapply rx_ok_next|by rewrite Hrx, Hp|].
    exists s2, (b :: bs). split; [done|]. split; [by eapply rx_frame_trans|]. split; [done|]. cbn [take drop picked length].
    split; [by rewrite L2|]. split; [by rewrite G2, Hg, <- app_assoc|]. split; [|done].
    rewrite P2, Hfr, <- app_assoc. by destruct b.
Qed.

End Receive.

(** [rtl_input] is the loop between changes of the log and the poll counter. *)
Lemma rtl_input_split {W} `{Nic W} (s s' : rtl W) l : hw_ok s = true ->
  l = net_log_event (cs "RX") (cs "polling for packets...") (log s) ->
  rx_loop 16 0 (set_log l (add_poll s)) = Ok tt s' [] -> exists l', rtl_input s = Ok tt (set_log l' s') [].
Proof.
  intros Hh -> El. unfold rtl_input. rewrite (bind_silent get _ s s s) by done. rewrite Hh. cbn [negb].
  rewrite (bind_silent (modify _) _ s tt _) by done. rewrite (bind_silent (NET_LOG _ _) _ _ tt _) by done.
  rewrite (bind_silent _ _ _ tt s' El). destruct (_ =? 0); [by eexists|]. exists (log s'). by destruct s'.
Qed.

(** ** What the card writes *)

Definition le16 (n : Z) : list Z := [n mod 256; n / 256].

(** Bytes [d] written into the ring from [pos] on. *)
Definition ring_write (m : list Z) (pos : Z) (d : list Z) : list Z :=
  for_ 0 (zlen d) (fun k m => aset m ((pos + k) mod RTL_RX_SZ) (aget 0 d k)) m.

Lemma zlen_ring_write m pos d : zlen (ring_write m pos d) = zlen m.
Proof. unfold ring_write. apply (for_inv (fun x => zlen x = zlen m)); [done|]. intros k x _ Hx. by rewrite zlen_aset. Qed.

Lemma bytes_ring_write m pos d : bytes_ok m -> bytes_ok d -> bytes_ok (ring_write m pos d).
Proof.
  intros Hm Hd. unfold ring_write. apply (for_inv bytes_ok); [done|]. intros k x Hk Hx.
  apply Forall_aset; [done|]. by apply (Forall_aget 0 byte_ok).
Qed.

Lemma aget_ring_write m pos d i : zlen m = RTL_RX_SZ -> zlen d <= RTL_RX_SZ -> 0 <= i < zlen d ->
  aget 0 (ring_write m pos d) ((pos + i) mod RTL_RX_SZ) = aget 0 d i.
Proof.
  intros Hm Hd Hi. unfold ring_write.
  apply (for_ind (fun k x => zlen x = RTL_RX_SZ /\ (i < k -> aget 0 x ((pos + i) mod RTL_RX_SZ) = aget 0 d i)) 0 (zlen d)); [lia|split; [done|lia]| |lia].
  intros k x Hk [Hx IH]. rewrite zlen_aset. split; [done|]. intros Hik. destruct (decide (k = i)) as [->|Hne].
  - apply aget_aset_eq. rewrite Hx. apply Z.mod_pos_bound. lia.
  - rewrite aget_aset_ne; [apply IH; lia|apply Z.mod_pos_bound; lia..|]. Z.to_euclidean_division_equations; lia.
Qed.

(** The ring reads [d] from [pos] on. *)
Definition stream (m : list Z) (pos : Z) (d : list Z) : Prop := forall i, 0 <= i < zlen d -> aget 0 m ((pos + i) mod RTL_RX_SZ) = aget 0 d i.

Lemma stream_app m pos a b : stream m pos (a ++ b) -> stream m pos a /\ stream m ((pos + zlen a) mod RTL_RX_SZ) b.
Proof.
  intros Hs. split; intros i Hi.
  - rewrite (Hs i) by (rewrite zlen_app; pose proof (zlen_nonneg b); lia). by apply aget_app_l.
  - rewrite Zplus_mod_idemp_l, <- Z.add_assoc. rewrite (Hs (zlen a + i)) by (rewrite zlen_app; pose proof (zlen_nonneg a); lia).
    apply aget_app_plus. lia.
Qed.

Lemma stream_ring_bytes m pos d : stream m pos d -> ring_bytes m pos (zlen d) = d.
Proof.
  intros Hs. unfold ring_bytes. apply list_eq. intros i.
  change (map ?f ?l) with (f <$> l). rewrite list_lookup_fmap. destruct (d !! i) as [x|] eqn:E.
  - apply lookup_lt_Some in E as Hlt. rewrite lookup_seqZ_lt by (unfold zlen; lia). cbn. f_equal. rewrite Z.add_0_l.
    rewrite Hs by (unfold zlen; lia). unfold aget. rewrite Nat2Z.id. by apply nth_lookup_Some.
  - apply lookup_ge_None in E. rewrite lookup_seqZ_ge by (unfold zlen; lia). done.
Qed.

Section Card.
Context (crc : list Z -> list Z) (crc4 : forall f, zlen (crc f) = 4).

(** A frame as the card stores it: status, length with the checksum, the bytes,
    the checksum, up to the next multiple of four. *)
Definition packet (f : list Z) : list Z :=
  [1; 0] ++ le16 (zlen f + 4) ++ f ++ crc f ++ replicate (Z.to_nat (align4 (8 + zlen f) - (8 + zlen f))) 0.

Lemma zlen_packet f : zlen (packet f) = align4 (8 + zlen f).
Proof.
  assert (Hr : forall n, zlen (replicate (Z.to_nat n) 0) = Z.max 0 n) by (intros n; unfold zlen; rewrite length_replicate; lia).
  unfold packet. rewrite !zlen_app, crc4, Hr. change (zlen [1; 0]) with 2. change (zlen (le16 (zlen f + 4))) with 2.
  pose proof (zlen_nonneg f). unfold align4. Z.to_euclidean_division_equations; lia.
Qed.

Lemma stream_queued m fs : forall pos, zlen m = RTL_RX_SZ -> 0 <= pos < RTL_RX_SZ -> pos mod 4 = 0 ->
  Forall (fun f => 1 <= zlen f <= 1518) fs -> stream m pos (concat (map packet fs) ++ [0; 0]) -> queued m pos fs.
Proof.
  induction fs as [|f fs IH]; intros pos Hm Hp H4 Hf Hs.
  { apply q_empty. cbn [concat map app] in Hs. unfold ld16.
    assert (H0 := Hs 0 ltac:(done)). assert (H1 := Hs 1 ltac:(done)).
    rewrite !Z.mod_small in H0, H1 by (Z.to_euclidean_division_equations; lia). rewrite Z.add_0_r in H0. by rewrite H0, H1. }
  apply Forall_cons in Hf as [Hlen Hf]. cbn [map concat] in Hs. rewrite <- app_assoc in Hs. apply stream_app in Hs as [Hpk Hrest].
  rewrite zlen_packet in Hrest. unfold packet in Hpk. pose proof Hpk as Hh. apply stream_app in Hh as [_ Hbody]. apply stream_app in Hbody as [_ Hbody].
  apply stream_app in Hbody as [Hbody _]. change (zlen [1; 0]) with 2 in Hbody. change (zlen (le16 (zlen f + 4))) with 2 in Hbody.
  rewrite Zplus_mod_idemp_l in Hbody. replace (pos + 2 + 2) with (pos + 4) in Hbody by lia.
  assert (Hat : forall i, 0 <= i < 4 -> aget 0 m (pos + i) = aget 0 ([1; 0] ++ le16 (zlen f + 4)) i).
  { intros i Hi. rewrite <- (Z.mod_small (pos + i) RTL_RX_SZ) by (Z.to_euclidean_division_equations; lia). rewrite Hpk.
    - rewrite app_assoc. by apply aget_app_l.
    - rewrite !zlen_app. change (zlen [1; 0]) with 2. change (zlen (le16 (zlen f + 4))) with 2. pose proof (zlen_nonneg (crc f)).
      pose proof (zlen_nonneg (replicate (Z.to_nat (align4 (8 + zlen f) - (8 + zlen f))) 0)). lia. }
  assert (E0 := Hat 0 ltac:(lia)). assert (E1 := Hat 1 ltac:(lia)). assert (E2 := Hat 2 ltac:(lia)). assert (E3 := Hat 3 ltac:(lia)).
  rewrite Z.add_0_r in E0. apply q_frame.
  - unfold ld16. rewrite E0, E1. done.
  - unfold ld16. replace (pos + 2 + 1) with (pos + 3) by lia. rewrite E2, E3.
    change (aget 0 ([1; 0] ++ le16 (zlen f + 4)) 2) with ((zlen f + 4) mod 256). change (aget 0 ([1; 0] ++ le16 (zlen f + 4)) 3) with ((zlen f + 4) / 256).
    rewrite Z.shiftl_mul_pow2 by lia. rewrite Z.mul_comm.
    pose proof (Z.mod_pos_bound (zlen f + 4) 256). pose proof (Z.div_mod (zlen f + 4) 256). rewrite lor_high by lia. lia.
  - done.
  - by apply stream_ring_bytes.
  - destruct (next_pos_ok pos (zlen f) H4) as [H5 H6]. by apply IH.
Qed.

End Card.

(** C21: Frames that the card stores reach the stack unchanged, in order and at
    most once.  If the card wrote the frames [fs] (each of 1 to 1518 bytes, at
    most 8190 bytes with headers and checksums) into the cleared part of the ring
    of an initialised driver, wherever its pointer stands and however they wrap
    around the end, a poll asks lwIP for one buffer for each of the first sixteen
    and hands on exactly those for which the buffer was granted; a frame whose
    allocation fails is dropped.  The next poll does the same with the next
    sixteen, and the ring is well formed after it. *)
Theorem rtl_receives {W} `{NicOk W} crc (s : rtl W) m fs :
  (forall f, zlen (crc f) = 4) ->
  hw_ok s = true -> ring_ok s -> Forall (fun f => 1 <= zlen f <= 1518) fs -> zlen (concat (map (packet crc) fs)) <= 8190 ->
  zlen m = 8192 -> rx s = ring_write m (rx_ptr s) (concat (map (packet crc) fs) ++ [0; 0]) ->
  let first := take 16 fs in
  let second := take 16 (drop 16 fs) in
  exists s1 s2 bs1 bs2,
    rtl_input s = Ok tt s1 [] /\ length bs1 = length first /\ granted (card s1) = granted (card s) ++ bs1 /\
    frames (card s1) = frames (card s) ++ picked bs1 first /\
    rtl_input s1 = Ok tt s2 [] /\ length bs2 = length second /\ granted (card s2) = granted (card s1) ++ bs2 /\
    frames (card s2) = frames (card s1) ++ picked bs2 second /\ ring_ok s2.
Proof.
  intros Hcrc Hh Hs Hf Hlen Hm Hrx first second. pose proof Hs as (Hl & Hb & Hp & H4).
  assert (Hq : queued (rx s) (rx_ptr s) fs).
  { apply (stream_queued crc Hcrc); [done..|]. intros i Hi. rewrite Hrx. apply aget_ring_write; [done| |done].
    rewrite zlen_app. change (zlen [0; 0]) with 2. lia. }
  destruct (rx_loop_queued 16 0 (set_log (net_log_event (cs "RX") (cs "polling for packets...") (log s)) (add_poll s)) fs Hs Hq)
    as (s1 & bs1 & E1 & F1 & O1 & L1 & G1 & P1 & Q1).
  destruct (rtl_input_split s s1 _ Hh eq_refl E1) as (l1 & I1).
  assert (Hh1 : hw_ok (set_log l1 s1) = true) by (destruct F1 as (HF & _); by rewrite <- Hh).
  destruct (rx_loop_queued 16 0 (set_log (net_log_event (cs "RX") (cs "polling for packets...") l1) (add_poll (set_log l1 s1))) (drop 16 fs) O1 Q1)
    as (s2 & bs2 & E2 & F2 & O2 & L2 & G2 & P2 & Q2).
  destruct (rtl_input_split (set_log l1 s1) s2 _ Hh1 eq_refl E2) as (l2 & I2).
  by exists (set_log l1 s1), (set_log l2 s2), bs1, bs2.
Qed.

(** A card and a stack for examples: registers read as 0, every buffer is
    granted, the frames, the writes and the answers are kept. *)
Record rig := Rig { handed : list (list Z); outs : list (Z * Z); grants : list bool }.
#[export] Instance rig_nic : Nic rig := {|
  in_port _ := mret 0;
  out_port p v := modify (fun w => Rig (handed w) (outs w ++ [(p, v)]) (grants w));
  pci_r32 _ _ r := mret (if r =? 0 then 0x813910EC else 0xC001);
  pci_w32 _ _ _ _ := mret tt;
  pbuf_alloc _ := fun w => Ok true (Rig (handed w) (outs w) (grants w ++ [true])) [];
  netif_input f := modify (fun w => Rig (handed w ++ [f]) (outs w) (grants w)) |}.
#[export] Instance rig_ok : NicOk rig.
Proof.
  refine {| frames := handed; written := outs; granted := grants |};
    intros; cbn in *; first [by simplify_eq/=|eexists; try (eexists; split; [reflexivity|]); try (split; [reflexivity|]); done|by match goal with E : _ = Ok _ _ _ |- _ => injection E as ?; subst end].
Defined.

Definition rig_sample (ring : list Z) (ptr : Z) : rtl rig :=
  Rtl true 0xC000 [] 0 ptr 0 0 0 ring (replicate (Z.to_nat 7168) 0) netlog0 (Rig [] [] []).
Definition clear_ring : list Z := replicate (Z.to_nat 8192) 0.
Definition crc0 (_ : list Z) : list Z := [9; 9; 9; 9].

Lemma rtl_receives_witness :
  exists s1 bs, rtl_input (rig_sample (ring_write clear_ring 8180 (concat (map (packet crc0) [cs "first"; cs "second frame"]) ++ [0; 0])) 8180) = Ok tt s1 [] /\
    length bs = 2%nat /\ handed (card s1) = picked bs [cs "first"; cs "second frame"].
Proof.
  assert (Hb : bytes_ok (ring_write clear_ring 8180 (concat (map (packet crc0) [cs "first"; cs "second frame"]) ++ [0; 0]))).
  { apply bytes_ring_write; [apply Forall_replicate; unfold byte_ok; lia|]. vm_compute. repeat constructor; discriminate. }
  destruct (rtl_receives crc0 (rig_sample (ring_write clear_ring 8180 (concat (map (packet crc0) [cs "first"; cs "second frame"]) ++ [0; 0])) 8180)
    clear_ring [cs "first"; cs "second frame"]) as (s1 & s2 & bs1 & bs2 & E1 & L1 & _ & F1 & _).
  - intros f. reflexivity.
  - reflexivity.
  - split; [vm_compute; reflexivity|]. split; [exact Hb|]. split; [cbn; lia|reflexivity].
  - repeat constructor; vm_compute; discriminate.
  - vm_compute. discriminate.
  - reflexivity.
  - reflexivity.
  - exists s1, bs1. split; [exact E1|]. split; [exact L1|exact F1].
Defined.

(** C22: No content of the ring, whatever the card wrote, makes a poll read outside
    the ring or fault: at most sixteen frames of 1 to 1518 bytes are handed on,
    and the pointer stays a multiple of four inside the ring. *)
Theorem rtl_poll_safe {W} `{NicOk W} (s : rtl W) : hw_ok s = true -> ring_ok s ->
  exists s' fs, rtl_input s = Ok tt s' [] /\ ring_ok s' /\ rx s' = rx s /\ tx s' = tx s /\
    frames (card s') = frames (card s) ++ fs /\ (length fs <= 16)%nat /\ Forall (fun f => 1 <= zlen f <= 1518) fs.
Proof.
  intros Hh Hs.
  destruct (rx_loop_safe 16 0 (set_log (net_log_event (cs "RX") (cs "polling for packets...") (log s)) (add_poll s)) Hs)
    as (s1 & E1 & F1 & O1 & fs & G1 & L1 & A1).
  destruct (rtl_input_split s s1 _ Hh eq_refl E1) as (l1 & I1). destruct F1 as (_ & _ & _ & _ & Hrx & Htx).
  exists (set_log l1 s1), fs. done.
Qed.

(** Initialised or not, a poll ends without a fault and prints nothing. *)
Lemma rtl_input_total {W} `{NicOk W} (s : rtl W) : ring_ok s -> exists s', rtl_input s = Ok tt s' [].
Proof.
  intros Hs. destruct (hw_ok s) eqn:Hh.
  - destruct (rx_loop_safe 16 0 (set_log (net_log_event (cs "RX") (cs "polling for packets...") (log s)) (add_poll s)) Hs)
      as (s1 & E1 & _). destruct (rtl_input_split s s1 _ Hh eq_refl E1) as (l1 & I1). eauto.
  - unfold rtl_input. rewrite (bind_silent get _ s s s) by done. rewrite Hh. eexists. reflexivity.
Qed.

Lemma rtl_poll_safe_witness :
  exists s' fs, rtl_input (rig_sample (replicate (Z.to_nat 8192) 5) 8188) = Ok tt s' [] /\ ring_ok s' /\
    handed (card s') = fs /\ (length fs <= 16)%nat.
Proof.
  destruct (rtl_poll_safe (rig_sample (replicate (Z.to_nat 8192) 5) 8188)) as (s' & fs & E & O & _ & _ & F & L & _).
  - reflexivity.
  - split; [vm_compute; reflexivity|]. split; [apply Forall_replicate; unfold byte_ok; lia|]. split; [cbn; lia|reflexivity].
  - exists s', fs. split; [exact E|]. split; [exact O|]. split; [exact F|exact L].
Defined.

(** ** Sending *)

Lemma gather_concat chain : forall buf, zlen buf <= 1514 -> gather chain buf = buf ++ take (1514 - length buf) (concat chain).
Proof.
  induction chain as [|q chain IH]; intros buf Hb; cbn [gather concat]; [by rewrite take_nil, app_nil_r|].
  match goal with |- context [Z.to_nat ?e] => set (c := e) end.
  assert (Hc : take (Z.to_nat c) q = take (1514 - length buf) q /\ zlen (buf ++ take (Z.to_nat c) q) <= 1514).
  { unfold c, zlen in *. rewrite length_app, length_take. case_test; (split; [|lia]).
    - f_equal. lia.
    - rewrite !take_ge by lia. done. }
  destruct Hc as [Hc Hl]. rewrite IH by done. rewrite Hc, take_app, <- app_assoc. do 3 f_equal.
  rewrite length_app, length_take. lia.
Qed.

Lemma aget_blit m i d j : 0 <= i -> i + zlen d <= zlen m -> 0 <= j ->
  aget 0 (blit m i d) j = if (i <=? j) && (j <? i + zlen d) then aget 0 d (j - i) else aget 0 m j.
Proof.
  intros Hi Hm Hj. unfold blit.
  apply (for_ind (fun k x => zlen x = zlen m /\ aget 0 x j = if (i <=? j) && (j <? i + k) then aget 0 d (j - i) else aget 0 m j) 0 (zlen d)).
  - apply zlen_nonneg.
  - split; [done|]. destruct ((i <=? j) && _) eqn:E; [bool_to_prop; lia|done].
  - intros k x Hk [Hx IH]. rewrite zlen_aset. split; [done|]. destruct (decide (i + k = j)) as [<-|Hne].
    + rewrite aget_aset_eq by lia. rewrite (proj2 (Z.leb_le i (i + k))), (proj2 (Z.ltb_lt (i + k) (i + (k + 1)))) by lia. cbn [andb]. f_equal. lia.
    + rewrite aget_aset_ne, IH by lia. destruct ((i <=? j) && (j <? i + k)) eqn:E1, ((i <=? j) && (j <? i + (k + 1))) eqn:E2; bool_to_prop; done || lia.
Qed.

Lemma zlen_blit m i d : zlen (blit m i d) = zlen m.
Proof. unfold blit. apply (for_inv (fun x => zlen x = zlen m)); [done|]. intros k x _ Hx. by rewrite zlen_aset. Qed.

Lemma wait_clear_idle {W} `{NicOk W} n port mask (s : rtl W) :
  (forall p w v w', in_port p w = Ok v w' [] -> Z.land v mask = 0) ->
  exists w, wait_clear (S n) port mask s = Ok (Z.of_nat n) (set_card w s) [] /\ frames w = frames (card s) /\ written w = written (card s).
Proof.
  intros Hidle. cbn [wait_clear]. destruct (in_eq port s) as (v & w & Ei & Er & Hf & Hw). apply Hidle in Ei.
  exists w. rewrite (bind_silent _ _ s v _ Er), Ei. done.
Qed.

(** Sending hands the card the frame: with the card idle, the chain of buffers
    (cut at 1514 bytes) lies in the current one of the four slots, the other
    slots are as they were, the address and the length of the slot are written
    to its two registers in that order, and the next frame takes the next slot. *)
Theorem rtl_output_correct {W} `{NicOk W} (s : rtl W) chain (f := take 1514 (concat chain)) (slot := tx_cur s) :
  hw_ok s = true -> 0 <= slot < 4 -> zlen (tx s) = 7168 ->
  (forall p w v w', in_port p w = Ok v w' [] -> Z.land v 0x80000000 = 0) ->
  exists s', rtl_output chain s = Ok ERR_OK s' [] /\
    (forall j, 0 <= j < 7168 ->
       aget 0 (tx s') j = if (slot * 1792 <=? j) && (j <? slot * 1792 + zlen f) then aget 0 f (j - slot * 1792) else aget 0 (tx s) j) /\
    written (card s') = written (card s) ++
      [(u16 (iobase s + 32 + slot * 4), 0x02010000 + slot * 1792); (u16 (iobase s + 16 + slot * 4), zlen f + 2^31)] /\
    tx_cur s' = (slot + 1) mod 4 /\ rx s' = rx s /\ rx_ptr s' = rx_ptr s.
Proof.
  intros Hh Hslot Htx Hidle. assert (Hf : gather chain [] = f) by (rewrite gather_concat by done; done).
  assert (Hlen : 0 <= zlen f <= 1514) by (unfold f, zlen; rewrite length_take; lia).
  unfold rtl_output. rewrite (bind_silent get _ s s s), Hh by done. cbn [negb]. rewrite Hf. fold slot. cbv zeta.
  rewrite (bind_silent (NET_LOG _ _) _ s tt _) by done. rewrite (bind_silent (modify _) _ _ tt _) by done. set (s1 := set_tx _ _).
  destruct (out_eq (iobase s + 32 + slot * 4) (33619968 + slot * 1792) s1) as (w1 & E1 & _ & W1 & _). rewrite (bind_silent _ _ _ tt _ E1).
  destruct (out_eq (iobase s + 16 + slot * 4) (Z.lor (Z.land (zlen f) 8191) 2147483648) (set_card w1 s1)) as (w2 & E2 & _ & W2 & _).
  rewrite (bind_silent _ _ _ tt _ E2). rewrite (bind_silent (NET_LOG _ _) _ _ tt _) by done. set (s2 := set_log _ _).
  replace TX_POLLS with (S (Z.to_nat 999999)) by (unfold TX_POLLS; lia).
  destruct (wait_clear_idle (Z.to_nat 999999) (iobase s + 16 + slot * 4) 2147483648 s2 Hidle) as (w3 & E3 & _ & W3).
  rewrite (bind_silent _ _ _ _ _ E3). rewrite Z2Nat.id by lia. cbn [Z.leb Z.compare].
  eexists. split; [reflexivity|]. split; [intros j Hj; apply (aget_blit (tx s)); unfold zlen in *; lia|].
  assert (Ew : written w3 = written (card s) ++ [(u16 (iobase s + 32 + slot * 4), 33619968 + slot * 1792); (u16 (iobase s + 16 + slot * 4), zlen f + 2^31)]).
  { rewrite W3. change (written (card s2)) with (written w2). rewrite W2. change (card (set_card w1 s1)) with w1. rewrite W1.
    rewrite <- app_assoc. cbn [app]. do 3 f_equal. f_equal. change 8191 with (Z.ones 13). rewrite Z.land_ones by lia.
    rewrite Z.mod_small by lia. change 2147483648 with (2^31 * 1). rewrite lor_high by lia. lia. }
  split; [exact Ew|]. split; [|done]. change (Z.land (slot + 1) 3 = (slot + 1) mod 4). change 3 with (Z.ones 2). by rewrite Z.land_ones.
Qed.

Lemma rtl_output_correct_witness :
  exists s', rtl_output [cs "head"; cs "er and body"] (rig_sample clear_ring 0) = Ok ERR_OK s' [] /\
    outs (card s') = [(0xC020, 0x02010000); (0xC010, 15 + 2^31)] /\ tx_cur s' = 1.
Proof.
  destruct (rtl_output_correct (rig_sample clear_ring 0) [cs "head"; cs "er and body"]) as (s' & E & _ & Hw & Hc & _).
  - reflexivity.
  - cbn. lia.
  - vm_compute. reflexivity.
  - intros p w v w' Hi. injection Hi as <- _. reflexivity.
  - exists s'. split; [exact E|]. split; [exact Hw|exact Hc].
Defined.

(** ** What the driver gets wrong *)

(** The status of a packet that was read stays in the ring: when six packets fill
    it exactly, the pointer is back at the first, which is delivered again. *)
Definition full_ring : list Z := concat (map (packet crc0) (replicate 5 (replicate (Z.to_nat 1518) 7) ++ [replicate (Z.to_nat 544) 8])).
Lemma stale_packets_return :
  zlen full_ring = 8192 /\ match rx_loop 7 0 (rig_sample full_ring 0) with Ok _ s' _ => map zlen (handed (card s')) = [1518; 1518; 1518; 1518; 1518; 544; 1518] | _ => False end.
Proof. vm_compute. split; reflexivity. Qed.

(** A header with a wrong length is never skipped: the poll leaves the pointer
    where it is, and so does every later one. *)
Lemma bad_length_blocks {W} `{NicOk W} (s : rtl W) : hw_ok s = true -> ring_ok s -> Z.land (ld16 (rx s) (rx_ptr s)) 1 <> 0 ->
  ~ 1 <= ld16 (rx s) (rx_ptr s + 2) - 4 <= 1518 ->
  exists s', rtl_input s = Ok tt s' [] /\ rx_ptr s' = rx_ptr s /\ rx s' = rx s /\ frames (card s') = frames (card s).
Proof.
  intros Hh Hs H1 H2.
  destruct (rx_packet_bad 0 (set_log (net_log_event (cs "RX") (cs "polling for packets...") (log s)) (add_poll s)) Hs H1 H2)
    as (s1 & E1 & (_ & _ & _ & _ & Hrx & _) & Hp & Hf & _).
  destruct (rtl_input_split s s1 _ Hh eq_refl) as (l & I1); [cbn [rx_loop]; by rewrite (bind_silent _ _ _ false s1 E1)|].
  by exists (set_log l s1).
Qed.

(** [rtl_recv] steps over the bytes of the frame but not over its checksum: what
    follows is not the next header. *)
Lemma recv_stops_short :
  match rtl_recv 1600 (rig_sample (ring_write clear_ring 0 (concat (map (packet crc0) [cs "abcdefgh"; cs "next"]))) 0) with
  | Ok (Some f) s' _ => f = cs "abcdefgh" /\ rx_ptr s' = 12 /\ next_pos 0 8 = 16
  | _ => False
  end.
Proof. vm_compute. repeat split. Qed.

(** The first event counts twice, so showing the log reads before its start until
    it is full. *)
Lemma dump_reads_before_the_log : result (net_log_dump (net_log_event (cs "TX") (cs "x") netlog0)) = inr OutOfBounds.
Proof. vm_compute. reflexivity. Qed.

(** The card is found, reset and set up. *)
Lemma rtl_init_sets_up :
  match rtl_hw_init (rig_sample clear_ring 4) with
  | Ok b s' _ => b = true /\ iobase s' = 0xC000 /\ rx_ptr s' = 0 /\
      outs (card s') = (0xC037, 0x10) :: map (fun rv => (0xC000 + rv.1, rv.2)) setup_regs
  | _ => False
  end.
Proof. vm_compute. repeat split. Qed.
