(* ===== verification/Net.v ===== *)
(** * Network layer ([drivers/net/network.h])

    Detection and set-up of the interface, the synchronous wrappers around
    lwIP's callback interface, ping, and the calls the TLS client uses.  lwIP and
    the drivers below it are the interface [Lwip]: its polling calls answer with
    the callbacks they ran, which [run_cb] translates. *)

From Stdlib Require Import ZArith Lia.
From stdpp Require Import base numbers list list_numbers strings.
From S2P Require Import Prelude CLib Console Rtl.

(** ** Bounded polling *)

(** [m] up to [p] times, until it answers [true]. *)
Fixpoint upto {T} (p : positive) (m : M T bool) : M T bool :=
  match p with
  | xH => m
  | xO q => b ← upto q m; if (b : bool) then mret true else upto q m
  | xI q => b ← m; if (b : bool) then mret true else b ← upto q m; if (b : bool) then mret true else upto q m
  end.

(** ** lwIP *)

(** The callbacks run by a poll: a connection is established, data or the end of
    the stream arrives, an ICMP packet arrives. *)
Inductive cb := Connected (err : Z) | Received (p : option (list Z)) | Icmp (p : list Z).

Notation NIC_NONE := 0 (only parsing).
Notation NIC_RTL := 1 (only parsing).
Notation NIC_E1000 := 2 (only parsing).
Notation NIC_VIRTIO := 3 (only parsing).

Class Lwip (W : Type) := {
  virtio_hw_init : M W bool;
  e1000_hw_init : M W bool;
  lwip_init : M W unit;
  netif_add : Z -> M W unit;
  netif_up : M W unit;                        (* [netif_set_up], [netif_set_link_up] *)
  netif_down : M W unit;
  netif_addr : Z -> Z -> Z -> M W unit;       (* address, gateway, mask *)
  netif_flags : M W Z;
  netif_mtu : M W Z;
  lw_poll : Z -> M W (list cb);               (* the receive path of a card *)
  tcp_tmr : M W (list cb);
  sys_check_timeouts : M W (list cb);
  tcp_new : M W (option Z);
  tcp_connect : Z -> Z -> Z -> M W Z;         (* 0 is [ERR_OK] *)
  tcp_write : Z -> list Z -> M W Z;
  tcp_output : Z -> M W unit;
  tcp_recv : Z -> M W unit;                   (* registers the callback *)
  tcp_abort : Z -> M W unit;
  tcp_close : Z -> M W unit;
  dns_gethostbyname : cstr -> M W (option Z);
  raw_new : M W (option Z);
  raw_sendto : Z -> list Z -> Z -> M W Z;
  raw_remove : Z -> M W unit;
  pbuf_ok : M W bool;                         (* [pbuf_alloc(PBUF_IP,64,PBUF_RAM)] *)
}.

(** ** State *)

(** [done_]: the local flag of a connection attempt. *)
Record net (W : Type) := Net {
  nic : Z; net_hw_ok : bool; net_ok : bool; net_my_ip : Z; net_gw_ip : Z; net_mask : Z; netif_name : cstr;
  done_ : bool; tcp_recv_pbuf : option (list Z); tcp_recv_done : bool; ping_got_reply : bool;
  test_ok : bool; test_failed : bool; tcp_state : Z; active_pcb : option Z; drv : rtl W }.
Arguments Net {W} _ _ _ _ _ _ _ _ _ _ _ _ _ _ _ _.
Arguments nic {W} _.
Arguments net_hw_ok {W} _.
Arguments net_ok {W} _.
Arguments net_my_ip {W} _.
Arguments net_gw_ip {W} _.
Arguments net_mask {W} _.
Arguments netif_name {W} _.
Arguments done_ {W} _.
Arguments tcp_recv_pbuf {W} _.
Arguments tcp_recv_done {W} _.
Arguments ping_got_reply {W} _.
Arguments test_ok {W} _.
Arguments test_failed {W} _.
Arguments tcp_state {W} _.
Arguments active_pcb {W} _.
Arguments drv {W} _.

Section Setters.
Context {W : Type}.
Implicit Type s : net W.
Definition set_nic (z : Z) s := Net z (net_hw_ok s) (net_ok s) (net_my_ip s) (net_gw_ip s) (net_mask s) (netif_name s) (done_ s) (tcp_recv_pbuf s) (tcp_recv_done s) (ping_got_reply s) (test_ok s) (test_failed s) (tcp_state s) (active_pcb s) (drv s).
Definition set_hw_ok (b : bool) s := Net (nic s) b (net_ok s) (net_my_ip s) (net_gw_ip s) (net_mask s) (netif_name s) (done_ s) (tcp_recv_pbuf s) (tcp_recv_done s) (ping_got_reply s) (test_ok s) (test_failed s) (tcp_state s) (active_pcb s) (drv s).
Definition set_addr (ok : bool) (ip gw mask : Z) s := Net (nic s) (net_hw_ok s) ok ip gw mask (netif_name s) (done_ s) (tcp_recv_pbuf s) (tcp_recv_done s) (ping_got_reply s) (test_ok s) (test_failed s) (tcp_state s) (active_pcb s) (drv s).
Definition set_name (n : cstr) s := Net (nic s) (net_hw_ok s) (net_ok s) (net_my_ip s) (net_gw_ip s) (net_mask s) n (done_ s) (tcp_recv_pbuf s) (tcp_recv_done s) (ping_got_reply s) (test_ok s) (test_failed s) (tcp_state s) (active_pcb s) (drv s).
Definition set_done (b : bool) s := Net (nic s) (net_hw_ok s) (net_ok s) (net_my_ip s) (net_gw_ip s) (net_mask s) (netif_name s) b (tcp_recv_pbuf s) (tcp_recv_done s) (ping_got_reply s) (test_ok s) (test_failed s) (tcp_state s) (active_pcb s) (drv s).
Definition set_recv (p : option (list Z)) (b : bool) s := Net (nic s) (net_hw_ok s) (net_ok s) (net_my_ip s) (net_gw_ip s) (net_mask s) (netif_name s) (done_ s) p b (ping_got_reply s) (test_ok s) (test_failed s) (tcp_state s) (active_pcb s) (drv s).
Definition set_ping (b : bool) s := Net (nic s) (net_hw_ok s) (net_ok s) (net_my_ip s) (net_gw_ip s) (net_mask s) (netif_name s) (done_ s) (tcp_recv_pbuf s) (tcp_recv_done s) b (test_ok s) (test_failed s) (tcp_state s) (active_pcb s) (drv s).
Definition set_test (ok bad : bool) s := Net (nic s) (net_hw_ok s) (net_ok s) (net_my_ip s) (net_gw_ip s) (net_mask s) (netif_name s) (done_ s) (tcp_recv_pbuf s) (tcp_recv_done s) (ping_got_reply s) ok bad (tcp_state s) (active_pcb s) (drv s).
Definition set_tcp (z : Z) (p : option Z) s := Net (nic s) (net_hw_ok s) (net_ok s) (net_my_ip s) (net_gw_ip s) (net_mask s) (netif_name s) (done_ s) (tcp_recv_pbuf s) (tcp_recv_done s) (ping_got_reply s) (test_ok s) (test_failed s) z p (drv s).
Definition set_drv (d : rtl W) s := Net (nic s) (net_hw_ok s) (net_ok s) (net_my_ip s) (net_gw_ip s) (net_mask s) (netif_name s) (done_ s) (tcp_recv_pbuf s) (tcp_recv_done s) (ping_got_reply s) (test_ok s) (test_failed s) (tcp_state s) (active_pcb s) d.
End Setters.

Definition nic_name (n : Z) : cstr :=
  if n =? NIC_RTL then cs "RTL8139" else if n =? NIC_E1000 then cs "e1000 (Intel PRO/1000)"
  else if n =? NIC_VIRTIO then cs "VirtIO-Net" else cs "none".

(** ** Addresses and checksums *)

(** Byte [i] of a [uint32_t] in memory. *)
Definition ip_byte (ip i : Z) : Z := Z.land (Z.shiftr ip (8 * i)) 255.

(** The loop over the characters: [None] is [return 0], otherwise the octets
    stored and the one being read. *)
Fixpoint ip_loop (s : cstr) (v : list Z) (cur : Z) : option (list Z * Z) :=
  match s with
  | [] => Some (v, cur)
  | c :: s' =>
      if zlen v <? 4 then
        if c =? c_dot then ip_loop s' (v ++ [cur]) 0
        else if is_digit c then ip_loop s' v (i32 (cur * 10 + (c - c_0)))
        else None
      else Some (v, cur)
  end.

Definition KNOWN_IPS : list (cstr * Z) :=
  [(cs "10.0.2.2", 0x0202000A); (cs "10.0.2.15", 0x0F02000A); (cs "127.0.0.1", 0x0100007F); (cs "8.8.8.8", 0x08080808); (cs "1.1.1.1", 0x01010101)].

(** [v[3]=cur] replaces a fourth octet already stored. *)
Definition ip_parse (s : cstr) : option Z :=
  match list_find (fun k => k.1 = s) KNOWN_IPS with
  | Some (_, k) => Some k.2
  | None =>
      match ip_loop s [] 0 with
      | None => None
      | Some (v, cur) =>
          if zlen v <? 3 then None
          else Some (Z.lor (Z.lor (Z.lor (u32 (Z.shiftl cur 24)) (u32 (Z.shiftl (aget 0 v 2) 16))) (u32 (Z.shiftl (aget 0 v 1) 8))) (u32 (aget 0 v 0)))
      end
  end.

Definition icmp_words (buf : list Z) (len : Z) : list Z :=
  map (fun k => let i := 2 * k in let w := u16 (Z.shiftl (aget 0 buf i) 8) in if i + 1 <? len then Z.lor w (aget 0 buf (i + 1)) else w)
      (seqZ 0 ((len + 1) / 2)).

(** [while(sum>>16)sum=(sum&0xFFFF)+(sum>>16);]: two passes are enough for any
    32-bit sum ([fold_carry_fuel] below). *)
Fixpoint fold_carry (fuel : nat) (sum : Z) : option Z :=
  if Z.shiftr sum 16 =? 0 then Some sum
  else match fuel with O => None | S f => fold_carry f (u32 (Z.land sum 0xFFFF + Z.shiftr sum 16)) end.

Definition icmp_cksum (buf : list Z) (len : Z) : option Z :=
  sum ← fold_carry 2 (fold_left (fun a w => u32 (a + w)) (icmp_words buf len) 0);
  Some (u16 (Z.lnot sum)).

Section Layer.
Context {W : Type} `{Nic W} `{Lwip W}.
Implicit Type s : net W.

Definition on_drv {A} (m : M (rtl W) A) : M (net W) A := zoom drv set_drv m.
Definition lw {A} (m : M W A) : M (net W) A := on_drv (on_card m).

(** ** Detection and set-up *)

(** What a probe of the 32 VirtIO slots finds; [None] when [virtio_mmio] is set
    already. *)
Context (virtio_slots : option (list (Z * Z))).

Definition E1000_IDS : list Z :=
  [0x10088086; 0x10098086; 0x10008086; 0x10018086; 0x10048086; 0x100E8086; 0x100F8086; 0x10118086; 0x10158086; 0x10198086; 0x101D8086].

Fixpoint scan_nic (slots : list (Z * Z)) : M (net W) unit :=
  match slots with
  | [] => mret tt
  | (b, d) :: slots' =>
      id ← lw (pci_r32 b d 0);
      if id =? 0x813910EC then modify (set_nic NIC_RTL)
      else if bool_decide (id ∈ E1000_IDS) then modify (set_nic NIC_E1000)
      else scan_nic slots'
  end.

Definition net_detect_nic : M (net W) unit :=
  if existsb (fun md => (md.1 =? 0x74726976) && (md.2 =? 1)) (default [] virtio_slots) then modify (set_nic NIC_VIRTIO)
  else scan_nic pci_slots.

Definition net_hw_init : M (net W) bool :=
  s ← get;
  ok ← (if nic s =? NIC_VIRTIO then lw virtio_hw_init
        else if nic s =? NIC_E1000 then lw e1000_hw_init
        else if nic s =? NIC_RTL then on_drv rtl_hw_init
        else mret false);
  if (ok : bool) then modify (set_hw_ok true) ;; mret true else mret false.

(** [if(b>=10){...'0'+b/10...'0'+b%10} else ...'0'+b] *)
Definition two_digits (n : Z) : cstr := if 10 <=? n then [c_0 + n / 10; c_0 + n mod 10] else [c_0 + n].

Fixpoint name_from (slots : list (Z * Z)) : M (net W) unit :=
  match slots with
  | [] => modify (set_name (cs "eth0"))
  | (b, d) :: slots' =>
      s ← get;
      id ← lw (pci_r32 b d 0);
      if ((nic s =? NIC_RTL) && (id =? 0x813910EC)) || ((nic s =? NIC_E1000) && ((id =? 0x10088086) || (id =? 0x100E8086)))
      then modify (set_name (cs "enp" ++ two_digits b ++ cs "s" ++ two_digits d))
      else name_from slots'
  end.

Definition netif_detect_name : M (net W) unit :=
  s ← get;
  if (nic s =? NIC_RTL) || (nic s =? NIC_E1000) then name_from pci_slots
  else if nic s =? NIC_VIRTIO then modify (set_name (cs "ens0"))
  else modify (set_name (cs "eth0")).

Definition net_status_callback (ip gw mask : Z) : M (net W) unit := modify (set_addr true ip gw mask).

Definition net_init : M (net W) unit :=
  net_detect_nic ;;
  s ← get;
  if nic s =? NIC_NONE then vpln (cs "net: no supported NIC found (RTL8139/e1000/VirtIO)")
  else
    vps (cs "net: detected ") ;; vps (nic_name (nic s)) ;; vpln [] ;;
    ok ← net_hw_init;
    if negb ok then vpln (cs "net: hardware init failed") ;; modify (set_nic NIC_NONE)
    else
      netif_detect_name ;;
      lw lwip_init ;; lw (netif_add (nic s)) ;; lw netif_up ;;
      vset C_LCYAN C_BLACK ;;
      vpln (cs "lwip: stack initialized") ;;
      fl ← lw netif_flags;
      vps (cs "lwip: netif flags=") ;; vps (kuia fl 16) ;; vpln [] ;;
      mtu ← lw netif_mtu;
      vps (cs "lwip: netif mtu=") ;; vpln (kia mtu) ;;
      vrst.

(** 10.0.2.15/24, gateway 10.0.2.2. *)
Definition set_slirp : M (net W) unit := modify (set_addr true 0x0F02000A 0x0202000A 0x00FFFFFF).

Definition eth0_configured (card : string) : M (net W) bool :=
  vpln (cs "eth0: " ++ cs card ++ cs " already configured via net_init") ;;
  set_slirp ;;
  vset C_LGREEN C_BLACK ;;
  vpln (cs "eth0: UP - 10.0.2.15/24 gw 10.0.2.2") ;; vpln [] ;; vrst ;;
  mret true.

(** One line of the register dump: the decimal form goes to [char b[8]]. *)
Definition dump_reg (label : string) (off : Z) : M (net W) unit :=
  vps (cs label) ;;
  s ← get;
  v ← on_drv (rtl_in (iobase (drv s) + off));
  fits 8 (kia v) ;; vps (kia v) ;; vpln [].

Definition mac_text (m : list Z) : cstr :=
  match map kia m with [] => [] | x :: xs => x ++ concat (map (fun y => c_colon :: y) xs) end.

Definition eth0_up : M (net W) bool :=
  s ← get;
  let out off v := on_drv (rtl_out (iobase (drv s) + off) v) in
  if negb (net_hw_ok s) then vps (cs "eth0: no ") ;; vps (nic_name (nic s)) ;; vpln (cs " hardware detected") ;; mret false
  else if nic s =? NIC_VIRTIO then eth0_configured "VirtIO-Net"
  else if nic s =? NIC_E1000 then eth0_configured "e1000"
  else
    vpln (cs "eth0: step 1/8 - Resetting RTL8139 hardware...") ;;
    out 0x37 0x10 ;;
    t ← on_drv (reset_wait RESET_POLLS (iobase (drv s) + 0x37));
    if t <=? 0 then vpln (cs "eth0: FAILED - hardware reset timeout") ;; mret false
    else
      vpln (cs "eth0: step 2/8 - Reading MAC address...") ;;
      on_drv (read_mac 6 0) ;;
      s2 ← get;
      fits 20 (mac_text (mac (drv s2))) ;;
      vps (cs "eth0: MAC: ") ;; vpln (mac_text (mac (drv s2))) ;;
      vpln (cs "eth0: step 3/8 - Configuring RX buffer...") ;;
      out 0x52 0 ;; out 0x30 0x02000000 ;;
      vpln (cs "eth0: step 4/8 - Setting TX descriptors...") ;;
      out 0x20 0x02010000 ;; out 0x24 (0x02010000 + 1792) ;; out 0x28 (0x02010000 + 1792 * 2) ;; out 0x2C (0x02010000 + 1792 * 3) ;;
      vpln (cs "eth0: step 5/8 - Setting RX/TX config registers...") ;;
      out 0x44 0x0000070F ;; out 0x40 0x03000700 ;; out 0x63 0x21 ;; out 0x3C 0x0005 ;;
      vpln (cs "eth0: step 6/8 - Enabling TX and RX...") ;;
      out 0x37 0x0C ;;
      vset C_LCYAN C_BLACK ;;
      vpln (cs "RTL8139 Status Registers:") ;;
      dump_reg "  Command (0x37): 0x" 0x37 ;; dump_reg "  Interrupt Status (0x3E): 0x" 0x3E ;;
      dump_reg "  RX Status (0x3A): 0x" 0x3A ;; dump_reg "  TX Status (0x38): 0x" 0x38 ;;
      dump_reg "  RX Config (0x44): 0x" 0x44 ;; dump_reg "  TX Config (0x40): 0x" 0x40 ;;
      vrst ;;
      vpln (cs "eth0: step 7/8 - Configuring IP 10.0.2.15/24 gw 10.0.2.2...") ;;
      lw (netif_addr 0x0F02000A 0x0202000A 0x00FFFFFF) ;;
      vpln (cs "eth0: step 8/8 - Bringing interface UP...") ;;
      lw netif_up ;;
      set_slirp ;;
      modify (fun s => set_drv (set_rx_ptr 0 (set_tx_cur 0 (set_rx (replicate (Z.to_nat 8192) 0) (drv s)))) s) ;;
      vset C_LGREEN C_BLACK ;;
      vpln (cs "eth0: UP - 10.0.2.15/24 gw 10.0.2.2 (SLIRP)") ;;
      vps (cs "eth0: MTU 1500, RX promiscuous, full-duplex 100Mbps") ;; vpln [] ;; vrst ;;
      mret true.

Definition eth0_down : M (net W) unit :=
  lw netif_down ;; modify (fun s => set_addr false (net_my_ip s) (net_gw_ip s) (net_mask s) s).

Definition do_dhcp : M (net W) bool :=
  s ← get;
  if nic s =? NIC_NONE then vpln (cs "net: no NIC detected") ;; mret false
  else vpln (cs "net: requesting DHCP...") ;; vpln (cs "net: setting static IP for QEMU slirp...") ;; eth0_up.

(** ** Callbacks and polling *)

(** [tcp_connected_cb] and [wget_connected_cb] set the flag they were given,
    [tcp_test_cb] one of its two, [tcp_recv_cb] keeps the buffer, [ping_recv_cb]
    looks at the type of the ICMP packet behind the IP header. *)
Definition run_cb (c : cb) (s : net W) : net W :=
  match c with
  | Connected err => set_test (if err =? 0 then true else test_ok s) (if err =? 0 then test_failed s else true) (set_done true s)
  | Received (Some p) => set_recv (Some p) true s
  | Received None => set_recv (tcp_recv_pbuf s) true s
  | Icmp p => if (28 <=? zlen p) && (aget 0 p 20 =? 0) then set_ping true s else s
  end.
Definition calls (m : M W (list cb)) : M (net W) unit := cs ← lw m; modify (fun s => fold_left (fun s c => run_cb c s) cs s).

(** The card of the interface, by its driver. *)
Definition net_poll : M (net W) unit := s ← get; calls (lw_poll (nic s)).

(** [tcp_tmr_ctr++; if(tcp_tmr_ctr>=250){tcp_tmr();tcp_tmr_ctr=0;}] *)
Definition tick_tmr (ctr : Z) : M (net W) Z := if 250 <=? ctr + 1 then calls tcp_tmr ;; mret 0 else mret (ctr + 1).

(** [upto] over a state with the timer counter. *)
Definition with_ctr {A} (m : M (net W) A) : M (net W * Z) A := zoom fst (fun s sc => (s, sc.2)) m.
Definition poll_pass (stop : net W -> bool) (timeouts : bool) : M (net W * Z) bool :=
  sc ← get;
  if stop sc.1 then mret true
  else
    (if timeouts then with_ctr (calls sys_check_timeouts) else mret tt) ;;
    with_ctr net_poll ;;
    c ← with_ctr (tick_tmr sc.2);
    modify (fun sc => (sc.1, c)) ;;
    mret false.
Definition poll_until (stop : net W -> bool) (timeouts : bool) (n : positive) : M (net W) unit := fun s =>
  match upto n (poll_pass stop timeouts) (s, 0) with Ok _ sc o => Ok tt sc.1 o | Err f sc o => Err f sc.1 o end.

(** ** TCP *)

Definition tcp_connect_sync (ip port : Z) : M (net W) bool :=
  vpln (cs "tcp_sync: entry") ;;
  pcb ← lw tcp_new;
  vpln (cs "tcp_sync: pcb created") ;;
  match pcb with
  | None => vpln (cs "tcp_sync: no PCB") ;; mret false
  | Some pcb =>
      modify (set_done false) ;;
      vpln (cs "tcp_sync: calling tcp_connect...") ;;
      e ← lw (tcp_connect pcb ip port);
      vpln (cs "tcp_sync: tcp_connect returned") ;;
      if negb (e =? 0) then vpln (cs "tcp_sync: connect failed") ;; lw (tcp_abort pcb) ;; mret false
      else
        vpln (cs "tcp_sync: polling loop starting...") ;;
        poll_until done_ false 50000000 ;;
        s ← get;
        if negb (done_ s) then vpln (cs "tcp_sync: timeout") ;; lw (tcp_abort pcb) ;; mret false
        else vpln (cs "tcp_sync: connected!") ;; mret true
  end.

(** The length when everything was taken, 0 otherwise. *)
Definition tcp_send_sync (pcb : Z) (data : list Z) : M (net W) Z :=
  e ← lw (tcp_write pcb data);
  if negb (e =? 0) then mret 0 else lw (tcp_output pcb) ;; mret (zlen data).

(** The bytes stored in [out]. *)
Definition tcp_recv_sync (pcb max : Z) : M (net W) (list Z) :=
  modify (set_recv None false) ;;
  lw (tcp_recv pcb) ;;
  poll_until tcp_recv_done true 5000000 ;;
  s ← get;
  match tcp_recv_pbuf s with
  | None => mret []
  | Some p => modify (fun s => set_recv None (tcp_recv_done s) s) ;; mret (take (Z.to_nat max) p)
  end.

(** *** The calls of the older interface *)

Definition tcp_connect_compat (dst dport : Z) : M (net W) bool :=
  pcb ← lw tcp_new;
  modify (fun s => set_tcp (tcp_state s) pcb s) ;;
  match pcb with
  | None => mret false
  | Some pcb =>
      let giving_up := lw (tcp_abort pcb) ;; modify (fun s => set_tcp (tcp_state s) None s) ;; mret false in
      modify (set_done false) ;;
      e ← lw (tcp_connect pcb dst dport);
      if negb (e =? 0) then giving_up
      else
        poll_until done_ true 10000000 ;;
        s ← get;
        if negb (done_ s) then giving_up
        else modify (set_tcp 2 (Some pcb)) ;; mret true
  end.

Definition tcp_send_data_compat (data : list Z) : M (net W) Z :=
  s ← get;
  match active_pcb s with
  | Some pcb => if tcp_state s =? 2 then tcp_send_sync pcb data else mret 0
  | None => mret 0
  end.

(** The result, which is not the number of bytes, and the bytes stored. *)
Definition tcp_recv_data_compat (max : Z) : M (net W) (Z * list Z) :=
  s ← get;
  match active_pcb s with
  | Some pcb =>
      if tcp_state s =? 2 then d ← tcp_recv_sync pcb max; mret (if 0 <? zlen d then 0x10 else -1, d)
      else mret (-1, [])
  | None => mret (-1, [])
  end.

Definition tcp_close_compat : M (net W) unit :=
  s ← get;
  (match active_pcb s with Some pcb => lw (tcp_close pcb) | None => mret tt end) ;;
  modify (set_tcp 0 None).

(** *** HTTP *)

(** [out] holds a blank line at [i]. *)
Definition blank_at (out : list Z) (i : Z) : bool := bool_decide (take 4 (drop (Z.to_nat i) out) = [13; 10; 13; 10]).

(** The receive loop: one pass, over the response so far. *)
Definition http_pass (pcb maxout : Z) : M (net W * list Z) bool :=
  let on {A} (m : M (net W) A) : M (net W * list Z) A := zoom fst (fun s sr => (s, sr.2)) m in
  sr ← get;
  if negb (zlen sr.2 <? maxout - 1) then mret true
  else
    on (calls sys_check_timeouts) ;; on net_poll ;;
    d ← on (tcp_recv_sync pcb (maxout - zlen sr.2 - 1));
    modify (fun sr => (sr.1, sr.2 ++ d)) ;;
    let out := sr.2 ++ d in
    mret ((4 <? zlen out) && blank_at out (zlen out - 4)).

(** The body: behind the first blank line that has bytes after it. *)
Fixpoint body_from (n : nat) (i : Z) (out : list Z) : option Z :=
  match n with O => None | S n' => if blank_at out i then Some (i + 4) else body_from n' (i + 1) out end.
Definition http_body (out : list Z) : list Z :=
  match body_from (Z.to_nat (zlen out - 4)) 0 out with Some b => drop (Z.to_nat b) out ++ drop (Z.to_nat (zlen out - b)) out | None => out end.

(** The text left in [out], [None] when it is not touched. *)
Definition http_request_sync (host path : cstr) (maxout : Z) : M (net W) (option cstr) :=
  ip ← lw (dns_gethostbyname host);
  match ip with
  | None => vpln (cs "http: DNS failed") ;; mret None
  | Some ip =>
      vps (cs "http: connecting to ") ;; vps host ;; vpln (cs "...") ;;
      pcb ← lw tcp_new;
      match pcb with
      | None => vpln (cs "http: no PCB") ;; mret None
      | Some pcb =>
          modify (set_done false) ;;
          e ← lw (tcp_connect pcb ip 80);
          if negb (e =? 0) then vpln (cs "http: connect failed") ;; lw (tcp_abort pcb) ;; mret None
          else
            poll_until done_ true 10000000 ;;
            s ← get;
            if negb (done_ s) then vpln (cs "http: connect timeout") ;; lw (tcp_abort pcb) ;; mret None
            else
              vpln (cs "http: connected") ;;
              let req := cs "GET " ++ path ++ cs " HTTP/1.1" ++ [13; 10] ++ cs "Host: " ++ host ++ [13; 10] ++ cs "Connection: close" ++ [13; 10; 13; 10] in
              in_array 1025 (zlen req) ;;
              _ ← tcp_send_sync pcb req;
              out ← (fun s => match upto 20000000 (http_pass pcb maxout) (s, []) with
                              | Ok _ sr o => Ok sr.2 sr.1 o | Err f sr o => Err f sr.1 o end);
              lw (tcp_close pcb) ;;
              mret (Some (span_until 0 (http_body out)).1)
      end
  end.

(** *** Connection tests *)

Definition test_pass : M (net W * Z) bool :=
  sc ← get;
  with_ctr net_poll ;;
  c ← with_ctr (tick_tmr sc.2);
  modify (fun sc => (sc.1, c)) ;;
  sc ← get;
  mret (test_ok sc.1 || test_failed sc.1).

Definition tcp_test : M (net W) unit :=
  s ← get;
  if negb (net_ok s) then vpln (cs "tcp test: no network")
  else
    vpln (cs "tcp test: connecting to 10.0.2.2:80 via lwIP...") ;;
    pcb ← lw tcp_new;
    match pcb with
    | None => vpln (cs "tcp test: no PCB")
    | Some pcb =>
        modify (set_test false false) ;;
        e ← lw (tcp_connect pcb 0x0202000A 80);
        if negb (e =? 0) then vpln (cs "tcp test: connect failed") ;; lw (tcp_abort pcb)
        else
          (fun s => match upto 50000000 test_pass (s, 0) with Ok _ sc o => Ok tt sc.1 o | Err f sc o => Err f sc.1 o end) ;;
          s ← get;
          if test_ok s then
            vpln (cs "tcp test: connected to 10.0.2.2:80!") ;; vpln (cs "tcp test: TCP works!") ;; lw (tcp_close pcb)
          else if test_failed s then vpln (cs "tcp test: connection refused")
          else vpln (cs "tcp test: timeout - no response from 10.0.2.2:80") ;; lw (tcp_abort pcb)
    end.

(** A pass of [tcp_wget]; the counter [i] shows a dot every two million. *)
Definition wget_pass : M (net W * Z) bool :=
  with_ctr net_poll ;; with_ctr (calls sys_check_timeouts) ;; with_ctr (calls tcp_tmr) ;;
  sc ← get;
  if done_ sc.1 then mret true
  else
    (if sc.2 mod 2000000 =? 0 then vpc c_dot else mret tt) ;;
    modify (fun sc => (sc.1, sc.2 + 1)) ;;
    mret false.

(** [rx_polls]: the counter of the RTL8139 driver; the URL is not used. *)
Definition tcp_wget (url : cstr) : M (net W) bool :=
  s ← get;
  if negb (net_ok s) then vpln (cs "wget: no network") ;; mret false
  else
    vps (cs "wget: testing TCP connection to 10.0.2.2:80" ++ [c_nl]) ;;
    vps (cs "wget: RX polls so far: ") ;; vpln (kia (i32 (rx_poll_count (drv s)))) ;;
    pcb ← lw tcp_new;
    match pcb with
    | None => vpln (cs "wget: no PCB") ;; mret false
    | Some pcb =>
        modify (set_done false) ;;
        e ← lw (tcp_connect pcb 0x0202000A 80);
        if negb (e =? 0) then vpln (cs "wget: tcp_connect returned error") ;; lw (tcp_close pcb) ;; mret false
        else
          vps (cs "wget: polling for 3 seconds..." ++ [c_nl]) ;;
          b ← (fun s => match upto 15000000 wget_pass (s, 0) with Ok b sc o => Ok b sc.1 o | Err f sc o => Err f sc.1 o end);
          if (b : bool) then
            vset C_LGREEN C_BLACK ;; vpln (cs "wget: TCP CONNECTED!") ;; vrst ;; lw (tcp_close pcb) ;; mret true
          else
            s ← get;
            vpln [] ;;
            vps (cs "wget: timeout - RX polls: ") ;; vpln (kia (i32 (rx_poll_count (drv s)))) ;;
            vpln (cs "wget: TCP failed - QEMU SLIRP doesn't forward packets to RTL8139") ;;
            vpln (cs "Fix: Use TAP networking or different QEMU backend") ;;
            lw (tcp_close pcb) ;; mret false
    end.

(** ** Ping *)

Definition net_print_ip (ip : Z) : M (net W) unit :=
  vps (kia (ip_byte ip 0)) ;; vpc c_dot ;; vps (kia (ip_byte ip 1)) ;; vpc c_dot ;; vps (kia (ip_byte ip 2)) ;; vpc c_dot ;; vps (kia (ip_byte ip 3)).

Definition cmd_ifconfig : M (net W) unit :=
  vpln (cs "eth0: flags=UP,BROADCAST,MULTICAST") ;;
  vps (cs "  inet ") ;;
  s ← get;
  net_print_ip (net_my_ip s) ;; vpln [] ;;
  vps (cs "  gateway ") ;;
  net_print_ip (net_gw_ip s) ;; vpln [].

(** The echo request of [seq] without its checksum, and with it. *)
Definition echo_body (seq : Z) : list Z := [8; 0; 0; 0; 0x41; 0x00; u8 (Z.shiftr seq 8); Z.land seq 255] ++ map (fun i => u8 (i - 8)) (seqZ 8 56).
Definition echo_packet (seq : Z) : option (list Z) :=
  ck ← icmp_cksum (echo_body seq) 64;
  Some (aset (aset (echo_body seq) 2 (Z.shiftr ck 8)) 3 (Z.land ck 0xff)).

(** [for(int r=0;r<3000000;r++){net_poll();sys_check_timeouts();}] *)
Definition idle_pass : M (net W) bool := net_poll ;; calls sys_check_timeouts ;; mret false.
Definition ping_pass : M (net W) bool := net_poll ;; calls sys_check_timeouts ;; s ← get; mret (ping_got_reply s).

(** One sequence number: [None] leaves the loop, otherwise whether a reply came. *)
Definition ping_one (rpcb ip : Z) (host : cstr) (seq : Z) : M (net W) (option bool) :=
  match echo_packet seq with
  | None => mret None
  | Some pkt =>
      let wait :=
        b ← upto 8000000 ping_pass;
        (if (b : bool) then
           vps (cs "64 bytes from ") ;; vps host ;; vps (cs ": icmp_seq=") ;; vps (kia seq) ;; vpln (cs " ttl=64 time=10 ms")
         else vps (cs "Request timeout for icmp_seq ") ;; vpln (kia seq)) ;;
        mret (Some b) in
      p ← lw pbuf_ok;
      if negb p then vpln (cs "ping: no pbuf") ;; mret None
      else
        modify (set_ping false) ;;
        e ← lw (raw_sendto rpcb pkt ip);
        if e =? 0 then wait
        else
          vps (cs "ping: send failed (err=") ;; vps (kia e) ;; vps (cs ") - ") ;; vpln host ;;
          _ ← upto 3000000 idle_pass;
          p ← lw pbuf_ok;
          if negb p then vpln (cs "ping: no pbuf for retry") ;; mret (Some false)
          else
            e ← lw (raw_sendto rpcb pkt ip);
            if e =? 0 then wait
            else vps (cs "ping: retry failed (err=") ;; vpln (kia e) ;; mret (Some false)
  end.

Fixpoint ping_loop (n : nat) (rpcb ip : Z) (host : cstr) (seq got : Z) : M (net W) Z :=
  match n with
  | O => mret got
  | S n' =>
      r ← ping_one rpcb ip host seq;
      match r with
      | None => mret got
      | Some b => ping_loop n' rpcb ip host (seq + 1) (if b : bool then got + 1 else got)
      end
  end.

Definition do_ping_count (host : cstr) (count : Z) : M (net W) unit :=
  s ← get;
  if negb (net_ok s) then vpln (cs "ping: network not up")
  else
    let count := if count <=? 0 then 4 else count in
    let count := if 100 <? count then 100 else count in
    match ip_parse host with
    | None => vpln (cs "ping: DNS not supported (try IP address like 10.0.2.2)")
    | Some ip =>
        vps (cs "ping: sending to gateway 10.0.2.2 (ARP handled by lwIP)" ++ [c_nl]) ;;
        vps (cs "PING ") ;; vps host ;; vps (cs " (") ;;
        net_print_ip ip ;;
        vpln (cs ") 56(84) bytes of data.") ;;
        rpcb ← lw raw_new;
        match rpcb with
        | None => vpln (cs "ping: no PCB")
        | Some rpcb =>
            got ← ping_loop (Z.to_nat count) rpcb ip host 1 0;
            vpln [] ;;
            vps (cs "--- ") ;; vps host ;; vpln (cs " ping statistics ---") ;;
            vps (kia count) ;; vps (cs " packets transmitted, ") ;;
            vps (kia got) ;; vps (cs " received, ") ;;
            vps (kia (Z.quot ((count - got) * 100) count)) ;; vpln (cs "% packet loss") ;;
            lw (raw_remove rpcb)
        end
    end.
Definition do_ping (host : cstr) : M (net W) unit := do_ping_count host 4.

End Layer.

(** ** Addresses *)

Definition ip_text (ip : Z) : cstr := kia (ip_byte ip 0) ++ c_dot :: kia (ip_byte ip 1) ++ c_dot :: kia (ip_byte ip 2) ++ c_dot :: kia (ip_byte ip 3).

(** The general part of [ip_parse]. *)
Definition quad (s : cstr) : option Z :=
  match ip_loop s [] 0 with
  | None => None
  | Some (v, cur) =>
      if zlen v <? 3 then None
      else Some (Z.lor (Z.lor (Z.lor (u32 (Z.shiftl cur 24)) (u32 (Z.shiftl (aget 0 v 2) 16))) (u32 (Z.shiftl (aget 0 v 1) 8))) (u32 (aget 0 v 0)))
  end.

Definition dec_val (ds : cstr) (cur : Z) : Z := fold_left (fun a c => i32 (a * 10 + (c - c_0))) ds cur.

Lemma ip_loop_digits ds : forall rest v cur, Forall (fun c => is_digit c = true) ds -> zlen v < 4 -> ip_loop (ds ++ rest) v cur = ip_loop rest v (dec_val ds cur).
Proof.
  induction ds as [|c ds IH]; intros rest v cur Hd Hv; [done|]. apply Forall_cons in Hd as [Hc Hd].
  cbn [app ip_loop]. rewrite (proj2 (Z.ltb_lt _ _)) by done. destruct (Z.eqb_spec c c_dot) as [->|]; [done|]. rewrite Hc, IH by done. done.
Qed.

Lemma octets : forallb (fun n => forallb is_digit (kia n) && (dec_val (kia n) 0 =? n)) (seqZ 0 256) = true.
Proof. vm_compute. reflexivity. Qed.

Lemma octet n : 0 <= n < 256 -> Forall (fun c => is_digit c = true) (kia n) /\ dec_val (kia n) 0 = n.
Proof.
  intros Hn. pose proof octets as H. rewrite forallb_forall in H. specialize (H n). apply andb_prop in H as [H1 H2].
  - split; [|by apply Z.eqb_eq]. rewrite forallb_forall in H1. apply Forall_forall. intros c Hc. apply H1. by apply list_elem_of_In.
  - apply list_elem_of_In, elem_of_seqZ. lia.
Qed.

Lemma ip_loop_octet n rest v : 0 <= n < 256 -> zlen v < 4 -> ip_loop (kia n ++ rest) v 0 = ip_loop rest v n.
Proof. intros Hn Hv. destruct (octet n Hn) as [Hd He]. by rewrite ip_loop_digits, He. Qed.

Lemma ip_loop_dot rest v n : zlen v < 4 -> ip_loop (c_dot :: rest) v n = ip_loop rest (v ++ [n]) 0.
Proof. intros Hv. cbn [ip_loop]. by rewrite (proj2 (Z.ltb_lt _ _)). Qed.

Lemma ip_byte_range ip i : 0 <= ip_byte ip i < 256.
Proof. unfold ip_byte. change 255 with (Z.ones 8). rewrite Z.land_ones by lia. apply Z.mod_pos_bound. lia. Qed.

Lemma quad_text ip : 0 <= ip < 2^32 -> quad (ip_text ip) = Some ip.
Proof.
  intros Hip. unfold quad, ip_text. pose proof (ip_byte_range ip) as Hb.
  rewrite ip_loop_octet, ip_loop_dot, ip_loop_octet, ip_loop_dot, ip_loop_octet, ip_loop_dot by (done || apply Hb).
  rewrite <- (app_nil_r (kia (ip_byte ip 3))), ip_loop_octet by (done || apply Hb). cbn [ip_loop app].
  change (zlen [ip_byte ip 0; ip_byte ip 1; ip_byte ip 2] <? 3) with false. cbv iota. f_equal.
  change (aget 0 [ip_byte ip 0; ip_byte ip 1; ip_byte ip 2] 0) with (ip_byte ip 0).
  change (aget 0 [ip_byte ip 0; ip_byte ip 1; ip_byte ip 2] 1) with (ip_byte ip 1).
  change (aget 0 [ip_byte ip 0; ip_byte ip 1; ip_byte ip 2] 2) with (ip_byte ip 2).
  pose proof (Hb 0). pose proof (Hb 1). pose proof (Hb 2). pose proof (Hb 3).
  rewrite !u32_id by (rewrite ?Z.shiftl_mul_pow2 by lia; lia).
  apply Z.bits_inj'. intros n Hn. rewrite !Z.lor_spec. unfold ip_byte. change 255 with (Z.ones 8).
  destruct (Z.lt_ge_cases n 32) as [Hlt|Hge].
  - assert (n < 8 \/ 8 <= n < 16 \/ 16 <= n < 24 \/ 24 <= n < 32) as Hc by lia.
    repeat match goal with |- context [Z.testbit (Z.shiftl ?x ?k) n] => rewrite (Z.shiftl_spec x k n) by lia end.
    repeat match goal with |- context [Z.testbit (Z.land (Z.shiftr ip ?a) (Z.ones 8)) ?k] =>
      destruct (decide (0 <= k < 8)); [rewrite (Z.land_spec _ _ k), (Z.ones_spec_low 8 k), (Z.shiftr_spec ip a k), andb_true_r by lia
        |destruct (decide (k < 0)); [rewrite (Z.testbit_neg_r _ k) by lia|rewrite (Z.land_spec _ _ k), (Z.ones_spec_high 8 k), andb_false_r by lia]] end;
    rewrite ?orb_false_l, ?orb_false_r; try (f_equal; lia); lia.
  - assert (Hh : Z.testbit ip n = false) by (rewrite <- (Z.mod_small ip (2^32)) by lia; apply Z.mod_pow2_bits_high; lia). rewrite Hh.
    repeat match goal with |- context [Z.testbit (Z.shiftl ?x ?k) n] => rewrite (Z.shiftl_spec x k n) by lia end.
    repeat match goal with |- context [Z.testbit (Z.land _ (Z.ones 8)) ?k] => rewrite (Z.land_spec _ _ k), (Z.ones_spec_high 8 k), andb_false_r by lia end. done.
Qed.

Lemma known_quads : Forall (fun k => quad k.1 = Some k.2) KNOWN_IPS.
Proof. repeat constructor. Qed.

(** Addresses survive printing and reading: for every 32-bit address, the
    dotted form that [net_print_ip] prints is parsed by [ip_parse] to the same
    address, on the table of known names as well as on the general path. *)
Theorem ip_roundtrip {W} ip (s : net W) : 0 <= ip < 2^32 ->
  ip_parse (ip_text ip) = Some ip /\
  net_print_ip ip s = Ok tt s [EPs (kia (ip_byte ip 0)); EPc c_dot; EPs (kia (ip_byte ip 1)); EPc c_dot; EPs (kia (ip_byte ip 2)); EPc c_dot; EPs (kia (ip_byte ip 3))].
Proof.
  intros Hip. split; [|done]. pose proof (quad_text ip Hip) as Hq. unfold ip_parse.
  destruct (list_find _ KNOWN_IPS) as [[i k]|] eqn:E; [|exact Hq].
  apply list_find_Some in E as (Hk & Hs & _). pose proof known_quads as Hf. rewrite Forall_lookup in Hf. apply Hf in Hk. by rewrite Hs, Hq in Hk.
Qed.

Definition net_sample {W} (d : rtl W) : net W := Net 1 true true 0 0 0 [] false None false false false false 0 None d.

Lemma ip_roundtrip_witness : ip_parse (cs "192.168.1.254") = Some 0xFE01A8C0 /\ ip_parse (ip_text 0x0202000A) = Some 0x0202000A.
Proof.
  split; [exact (proj1 (ip_roundtrip 0xFE01A8C0 (net_sample (rig_sample [] 0)) ltac:(lia)))|].
  apply (ip_roundtrip 0x0202000A (net_sample (rig_sample [] 0))). lia.
Defined.

(** ** The checksum *)

Lemma fold_step f x : 65536 <= x < 2^32 -> fold_carry (S f) x = fold_carry f (x mod 65536 + x / 65536).
Proof.
  intros Hx. cbn [fold_carry]. change 0xFFFF with (Z.ones 16). rewrite Z.land_ones, Z.shiftr_div_pow2 by lia. change (2^16) with 65536.
  rewrite (proj2 (Z.eqb_neq (x / 65536) 0)) by (Z.to_euclidean_division_equations; lia).
  rewrite u32_id by (Z.to_euclidean_division_equations; lia). done.
Qed.

Lemma fold_end f x : 0 <= x < 65536 -> fold_carry f x = Some x.
Proof.
  intros Hx. assert (E : Z.shiftr x 16 = 0) by (rewrite Z.shiftr_div_pow2 by lia; apply Z.div_small; lia).
  destruct f; cbn [fold_carry]; by rewrite E.
Qed.

Lemma fold_carry_fuel S : 0 <= S < 2^32 ->
  exists r, fold_carry 2 S = Some r /\ 0 <= r <= 65535 /\ r mod 65535 = S mod 65535 /\ (r = 0 <-> S = 0).
Proof.
  intros HS. destruct (Z.lt_ge_cases S 65536); [exists S; rewrite fold_end by lia; repeat split; lia|]. rewrite fold_step by lia.
  set (x := S mod 65536 + S / 65536). assert (Hx : 0 < x <= 131070) by (unfold x; Z.to_euclidean_division_equations; lia).
  assert (Hc : x mod 65535 = S mod 65535).
  { unfold x. replace S with (S mod 65536 + S / 65536 + (S / 65536) * 65535) at 3 by (Z.to_euclidean_division_equations; lia). by rewrite Z.mod_add. }
  destruct (Z.lt_ge_cases x 65536); [exists x; rewrite fold_end by lia; repeat split; lia|]. rewrite fold_step by lia.
  assert (Ey : x mod 65536 + x / 65536 = x - 65535) by (Z.to_euclidean_division_equations; lia). rewrite Ey.
  exists (x - 65535). rewrite fold_end by lia. split; [done|]. split; [lia|]. split; [|lia].
  rewrite <- Hc. replace x with (x - 65535 + 1 * 65535) at 2 by lia. by rewrite Z.mod_add.
Qed.

Lemma icmp_words_even n : forall buf, bytes_ok buf -> length buf = (2 * n)%nat ->
  icmp_words buf (zlen buf) = map (fun k => 256 * aget 0 buf (2 * k) + aget 0 buf (2 * k + 1)) (seqZ 0 (Z.of_nat n)).
Proof.
  intros buf Hb Hn. unfold icmp_words. replace ((zlen buf + 1) / 2) with (Z.of_nat n) by (unfold zlen; Z.to_euclidean_division_equations; lia).
  apply map_ext_in. intros k Hk. apply list_elem_of_In, elem_of_seqZ in Hk. cbv zeta.
  assert (Hr : forall j, 0 <= j < zlen buf -> byte_ok (aget 0 buf j)) by (intros j Hj; by apply (Forall_aget 0 byte_ok)).
  assert (Hz : zlen buf = 2 * Z.of_nat n) by (unfold zlen; lia).
  pose proof (Hr (2 * k) ltac:(lia)) as H0. pose proof (Hr (2 * k + 1) ltac:(lia)) as H1. unfold byte_ok in *.
  rewrite (proj2 (Z.ltb_lt _ _)) by lia. rewrite Z.shiftl_mul_pow2 by lia. rewrite u16_id by lia.
  rewrite Z.lor_comm, (Z.mul_comm _ (2^8)). rewrite lor_high by lia. lia.
Qed.

Definition total (ws : list Z) : Z := foldr Z.add 0 ws.

Lemma fold_total ws : forall acc, Forall (fun w => 0 <= w <= 65535) ws -> 0 <= acc -> acc + 65535 * zlen ws < 2^32 ->
  fold_left (fun a w => u32 (a + w)) ws acc = acc + total ws /\ 0 <= total ws <= 65535 * zlen ws.
Proof.
  induction ws as [|w ws IH]; intros acc Hf Ha Hb; [cbn; change (zlen (@nil Z)) with 0; lia|].
  apply Forall_cons in Hf as [Hw Hf]. rewrite zlen_cons in *. pose proof (zlen_nonneg ws). cbn [fold_left total foldr]. fold (total ws).
  rewrite u32_id by lia. destruct (IH (acc + w) Hf) as [-> Ht]; lia.
Qed.

Lemma icmp_total buf n : bytes_ok buf -> length buf = (2 * n)%nat -> Z.of_nat n <= 32768 ->
  exists r, icmp_cksum buf (zlen buf) = Some (65535 - r) /\ 0 <= r <= 65535 /\
    r mod 65535 = total (icmp_words buf (zlen buf)) mod 65535 /\ (r = 0 <-> total (icmp_words buf (zlen buf)) = 0) /\
    0 <= total (icmp_words buf (zlen buf)).
Proof.
  intros Hb Hn Hs. assert (Hws : Forall (fun w => 0 <= w <= 65535) (icmp_words buf (zlen buf)) /\ zlen (icmp_words buf (zlen buf)) = Z.of_nat n).
  { rewrite (icmp_words_even n) by done. split; [|unfold zlen; rewrite length_map, length_seqZ; lia].
    apply Forall_forall. intros w Hw. apply list_elem_of_In, in_map_iff in Hw as (k & <- & _).
    assert (Hr : forall j, 0 <= aget 0 buf j < 256) by (intros j; apply (Forall_aget_default 0 byte_ok); [done|unfold byte_ok; lia]).
    pose proof (Hr (2 * k)). pose proof (Hr (2 * k + 1)). lia. }
  destruct Hws as [Hw Hl]. destruct (fold_total (icmp_words buf (zlen buf)) 0 Hw) as [Hf Ht]; [lia..|].
  unfold icmp_cksum. rewrite Hf, Z.add_0_l. destruct (fold_carry_fuel (total (icmp_words buf (zlen buf)))) as (r & Er & Hr & Hm & H0); [lia|].
  exists r. rewrite Er. cbn [mbind option_bind]. split; [|by split; [|split; [|split; [|apply Ht]]]]. f_equal. unfold Z.lnot, u16. change (2^16) with 65536. Z.to_euclidean_division_equations; lia.
Qed.

Lemma total_app a b : total (a ++ b) = total a + total b.
Proof. induction a as [|x a IH]; [done|]. cbn [app total foldr]. fold (total (a ++ b)) (total a). lia. Qed.

Lemma stored_cksum buf n : bytes_ok buf -> length buf = (2 * n)%nat -> 2 <= Z.of_nat n <= 32768 ->
  aget 0 buf 2 = 0 -> aget 0 buf 3 = 0 ->
  exists ck, icmp_cksum buf (zlen buf) = Some ck /\ 0 <= ck < 65536 /\
    icmp_cksum (aset (aset buf 2 (Z.shiftr ck 8)) 3 (Z.land ck 255)) (zlen buf) = Some 0.
Proof.
  intros Hb Hn Hs H2 H3. destruct (icmp_total buf n Hb Hn) as (r & E & Hr & Hm & H0 & Hpos); [lia|].
  exists (65535 - r). split; [done|]. split; [lia|]. set (ck := 65535 - r). set (buf' := aset (aset buf 2 _) 3 _).
  assert (Hhi : Z.shiftr ck 8 = ck / 256) by (by rewrite Z.shiftr_div_pow2). assert (Hlo : Z.land ck 255 = ck mod 256) by (by apply (Z.land_ones ck 8)).
  assert (Hz : zlen buf' = zlen buf) by (unfold buf'; by rewrite !zlen_aset).
  assert (Hb' : bytes_ok buf') by (unfold buf'; rewrite Hhi, Hlo; repeat apply Forall_aset; [done|..]; unfold byte_ok, ck; Z.to_euclidean_division_equations; lia).
  assert (Hn' : length buf' = (2 * n)%nat) by (unfold zlen in Hz; lia).
  assert (Ht : total (icmp_words buf' (zlen buf')) = total (icmp_words buf (zlen buf)) + ck).
  { rewrite !(icmp_words_even n) by done. assert (Hlen : zlen buf = 2 * Z.of_nat n) by (unfold zlen; lia).
    replace (Z.of_nat n) with (Z.of_nat (2 + (n - 2))) by lia. rewrite Nat2Z.inj_add. rewrite seqZ_app by lia. change (seqZ 0 (Z.of_nat 2)) with [0; 1].
    rewrite !map_app, !total_app. cbn [map total foldr].
    assert (Hsame : forall j, 0 <= j -> j <> 2 -> j <> 3 -> aget 0 buf' j = aget 0 buf j) by (intros j Hj Hj2 Hj3; unfold buf'; by rewrite !aget_aset_ne by lia).
    assert (Hat2 : aget 0 buf' 2 = ck / 256) by (unfold buf'; rewrite aget_aset_ne, aget_aset_eq by (rewrite ?zlen_aset; lia); done).
    assert (Hat3 : aget 0 buf' 3 = ck mod 256) by (unfold buf'; rewrite aget_aset_eq by (rewrite zlen_aset; lia); done).
    change (2 * 1) with 2. change (2 + 1) with 3. change (2 * 0) with 0. change (0 + 1) with 1. rewrite Hat2, Hat3, H2, H3, !Hsame by lia.
    rewrite (map_ext_in _ (fun k => 256 * aget 0 buf (2 * k) + aget 0 buf (2 * k + 1)) (seqZ (0 + Z.of_nat 2) _)).
    - pose proof (Z.div_mod ck 256). lia.
    - intros k Hk. apply list_elem_of_In, elem_of_seqZ in Hk. rewrite !Hsame by lia. done. }
  destruct (icmp_total buf' n Hb' Hn') as (r' & E' & Hr' & Hm' & H0' & _); [lia|]. rewrite <- Hz, E'. f_equal.
  rewrite Ht in Hm', H0'. unfold ck in *.
  assert (Hd : (total (icmp_words buf (zlen buf)) + (65535 - r)) mod 65535 = 0).
  { rewrite Z.add_mod, <- Hm, <- Z.add_mod by lia. replace (r + (65535 - r)) with 65535 by lia. done. }
  rewrite Hd in Hm'. destruct (decide (r' = 65535)); [lia|]. rewrite Z.mod_small in Hm' by lia. apply H0' in Hm'. lia.
Qed.

(** The checksum of [icmp_cksum] verifies: for every buffer of even length up
    to 65536 whose bytes 2 and 3 are zero, storing the checksum there, high byte
    first as [do_ping_count] does, makes the checksum of the whole packet 0; in
    particular the loop that folds the carries ends. *)
Theorem icmp_cksum_verifies buf n : bytes_ok buf -> length buf = (2 * n)%nat -> 2 <= Z.of_nat n <= 32768 ->
  aget 0 buf 2 = 0 -> aget 0 buf 3 = 0 ->
  exists ck, icmp_cksum buf (zlen buf) = Some ck /\ 0 <= ck < 65536 /\
    icmp_cksum (aset (aset buf 2 (Z.shiftr ck 8)) 3 (Z.land ck 255)) (zlen buf) = Some 0.
Proof. apply stored_cksum. Qed.

Lemma icmp_cksum_verifies_witness :
  exists ck, icmp_cksum (cs "pi" ++ [0; 0] ++ cs "ng") 6 = Some ck /\ icmp_cksum (aset (aset (cs "pi" ++ [0; 0] ++ cs "ng") 2 (Z.shiftr ck 8)) 3 (Z.land ck 255)) 6 = Some 0.
Proof.
  destruct (icmp_cksum_verifies (cs "pi" ++ [0; 0] ++ cs "ng") 3) as (ck & E & _ & V).
  - repeat constructor; unfold byte_ok; vm_compute; discriminate.
  - reflexivity.
  - lia.
  - reflexivity.
  - reflexivity.
  - exists ck. split; [exact E|exact V].
Defined.

(** ** Ping *)

(** A network on which every echo request is answered: [pinged] are the packets
    sent. *)
Class EchoHost (W : Type) `{Lwip W} := {
  pinged : W -> list (list Z);
  echo_new : forall w, exists p w', raw_new w = Ok (Some p) w' [] /\ pinged w' = pinged w;
  echo_buf : forall w, exists w', pbuf_ok w = Ok true w' [] /\ pinged w' = pinged w;
  echo_send : forall p d ip w, exists w', raw_sendto p d ip w = Ok 0 w' [] /\ pinged w' = pinged w ++ [d];
  echo_poll : forall n w, exists p w', lw_poll n w = Ok [Icmp p] w' [] /\ 28 <= zlen p /\ aget 0 p 20 = 0 /\ pinged w' = pinged w;
  echo_idle : forall w, exists w', sys_check_timeouts w = Ok [] w' [] /\ pinged w' = pinged w;
  echo_remove : forall p w, exists w', raw_remove p w = Ok tt w' [] /\ pinged w' = pinged w;
}.

Lemma upto_first {T} p (m : M T bool) s s' : m s = Ok true s' [] -> upto p m s = Ok true s' [].
Proof.
  intros Hm. induction p as [p IH|p IH|]; cbn [upto]; [by rewrite (bind_silent _ _ s true s' Hm)| |done].
  by rewrite (bind_silent _ _ s true s' IH).
Qed.

Lemma echo_packet_ok seq : 0 <= seq < 65536 ->
  exists p, echo_packet seq = Some p /\ zlen p = 64 /\ icmp_cksum p 64 = Some 0 /\ aget 0 p 0 = 8 /\ 256 * aget 0 p 6 + aget 0 p 7 = seq.
Proof.
  intros Hs. assert (Hz : zlen (echo_body seq) = 64) by reflexivity.
  assert (Hhi : u8 (Z.shiftr seq 8) = seq / 256) by (rewrite Z.shiftr_div_pow2 by lia; apply u8_id; Z.to_euclidean_division_equations; lia).
  assert (Hlo : Z.land seq 255 = seq mod 256) by (by apply (Z.land_ones seq 8)).
  assert (Hb : bytes_ok (echo_body seq)).
  { unfold echo_body. rewrite Hhi, Hlo. apply Forall_app. split.
    - repeat constructor; unfold byte_ok; Z.to_euclidean_division_equations; lia.
    - apply Forall_forall. intros x Hx. apply list_elem_of_In, in_map_iff in Hx as (k & <- & _). apply u8_range. }
  destruct (stored_cksum (echo_body seq) 32 Hb eq_refl ltac:(lia) eq_refl eq_refl) as (ck & E & Hck & V). rewrite Hz in E, V.
  unfold echo_packet. rewrite E. cbn [mbind option_bind]. eexists. split; [reflexivity|]. split; [by rewrite !zlen_aset|]. split; [exact V|].
  rewrite !aget_aset_ne by lia. split; [reflexivity|].
  change (aget 0 (echo_body seq) 6) with (u8 (Z.shiftr seq 8)). change (aget 0 (echo_body seq) 7) with (Z.land seq 255). rewrite Hhi, Hlo.
  pose proof (Z.div_mod seq 256). lia.
Qed.

Section Echo.
Context {W : Type} `{Nic W} `{EchoHost W}.
Implicit Type s : net W.

(** The two states agree on what the theorem speaks of. *)
Definition same_sent s s' : Prop := pinged (card (drv s')) = pinged (card (drv s)).

Lemma lw_eq {A} (m : M W A) a w s : m (card (drv s)) = Ok a w [] -> lw m s = Ok a (set_drv (set_card w (drv s)) s) [].
Proof. intros E. unfold lw, on_drv, on_card, zoom. by rewrite E. Qed.

Lemma calls_eq m cbs w s : m (card (drv s)) = Ok cbs w [] -> calls m s = Ok tt (fold_left (fun s c => run_cb c s) cbs (set_drv (set_card w (drv s)) s)) [].
Proof. intros E. unfold calls. by rewrite (bind_silent _ _ s cbs _ (lw_eq m cbs w s E)). Qed.

Lemma ping_pass_reply s : exists s', ping_pass s = Ok true s' [] /\ same_sent s s'.
Proof.
  unfold ping_pass. destruct (echo_poll (nic s) (card (drv s))) as (p & w & E1 & Hl & H20 & F1).
  assert (Ep : net_poll s = Ok tt (set_ping true (set_drv (set_card w (drv s)) s)) []).
  { unfold net_poll. rewrite (bind_silent get _ s s s) by done. rewrite (calls_eq _ _ _ _ E1). cbn [fold_left run_cb].
    by rewrite (proj2 (Z.leb_le 28 _) Hl), H20. }
  rewrite (bind_silent _ _ s tt _ Ep). set (s1 := set_ping true _). destruct (echo_idle (card (drv s1))) as (w2 & E2 & F2).
  rewrite (bind_silent _ _ s1 tt _ (calls_eq _ _ _ s1 E2)). cbn [fold_left]. eexists. split; [reflexivity|]. unfold same_sent.
  change (pinged w2 = pinged (card (drv s))). by rewrite F2.
Qed.

Lemma ping_one_reply rpcb ip host seq p s : echo_packet seq = Some p ->
  exists s' o, ping_one rpcb ip host seq s = Ok (Some true) s' o /\ pinged (card (drv s')) = pinged (card (drv s)) ++ [p].
Proof.
  intros Hp. unfold ping_one. rewrite Hp. destruct (echo_buf (card (drv s))) as (w1 & E1 & F1).
  cbv zeta. rewrite (bind_silent _ _ s true _ (lw_eq _ _ _ s E1)). cbn [negb]. rewrite (bind_silent (modify _) _ _ tt _) by done.
  set (s1 := set_ping false _). destruct (echo_send rpcb p ip (card (drv s1))) as (w2 & E2 & F2).
  rewrite (bind_silent _ _ s1 0 _ (lw_eq _ _ _ s1 E2)). change (0 =? 0) with true. cbv iota. set (s2 := set_drv _ s1).
  destruct (ping_pass_reply s2) as (s3 & E3 & F3). rewrite (bind_silent _ _ s2 true s3) by (by apply upto_first).
  eexists s3, _. split; [reflexivity|]. rewrite F3. change (card (drv s2)) with w2. rewrite F2. change (card (drv s1)) with w1. by rewrite F1.
Qed.

Lemma ping_loop_replies n : forall rpcb ip host seq got s, 0 <= seq -> seq + Z.of_nat n <= 65536 ->
  exists s' o pkts, ping_loop n rpcb ip host seq got s = Ok (got + Z.of_nat n) s' o /\
    pinged (card (drv s')) = pinged (card (drv s)) ++ pkts /\ Forall2 (fun k p => echo_packet k = Some p) (seqZ seq (Z.of_nat n)) pkts.
Proof.
  induction n as [|n IH]; intros rpcb ip host seq got s Hlo Hhi.
  { exists s, [], []. rewrite app_nil_r, Z.add_0_r. split; [done|]. split; [done|]. constructor. }
  destruct (echo_packet_ok seq) as (p & Hp & _); [lia|]. destruct (ping_one_reply rpcb ip host seq p s Hp) as (s1 & o1 & E1 & F1).
  destruct (IH rpcb ip host (seq + 1) (got + 1) s1) as (s2 & o2 & pkts & E2 & F2 & A2); [lia..|].
  exists s2, (o1 ++ o2), (p :: pkts). cbn [ping_loop]. rewrite (bind_ok _ _ s (Some true) s1 o1 E1), E2.
  split; [f_equal; lia|]. split; [by rewrite F2, F1, <- app_assoc|]. rewrite seqZ_cons by lia. replace (Z.pred (Z.of_nat (S n))) with (Z.of_nat n) by lia.
  by constructor.
Qed.

(** The printed lines of the summary. *)
Definition ping_stats (host : cstr) (count got loss : Z) : list cev :=
  [EPln []; EPs (cs "--- "); EPs host; EPln (cs " ping statistics ---"); EPs (kia count); EPs (cs " packets transmitted, ");
   EPs (kia got); EPs (cs " received, "); EPs (kia loss); EPln (cs "% packet loss")].

(** [ping] against a host that answers: with the network up and an address
    that parses, exactly [count] echo requests are sent (4 when no count is
    given, at most 100), numbered from 1, each of 64 bytes with a checksum that
    verifies, and the summary reports that many received and 0% loss. *)
Theorem ping_answered host count ip s (n := if count <=? 0 then 4 else Z.min count 100) :
  net_ok s = true -> ip_parse host = Some ip ->
  exists s' o pkts, do_ping_count host count s = Ok tt s' (o ++ ping_stats host n n 0) /\
    pinged (card (drv s')) = pinged (card (drv s)) ++ pkts /\
    Forall2 (fun k p => zlen p = 64 /\ icmp_cksum p 64 = Some 0 /\ aget 0 p 0 = 8 /\ 256 * aget 0 p 6 + aget 0 p 7 = k) (seqZ 1 n) pkts.
Proof.
  intros Hok Hip. unfold do_ping_count. rewrite (bind_silent get _ s s s) by done. rewrite Hok, Hip. cbn [negb]. cbv zeta.
  replace (if 100 <? (if count <=? 0 then 4 else count) then 100 else if count <=? 0 then 4 else count) with n by (unfold n; repeat case_test; lia).
  assert (Hn : 1 <= n <= 100) by (unfold n; case_test; lia).
  do 4 (rewrite (bind_ok _ _ s tt s _ eq_refl)). rewrite (bind_ok (net_print_ip ip) _ s tt s _ eq_refl). rewrite (bind_ok _ _ s tt s _ eq_refl).
  destruct (echo_new (card (drv s))) as (rp & w1 & E1 & F1). rewrite (bind_silent _ _ s (Some rp) _ (lw_eq _ _ _ s E1)).
  set (s1 := set_drv _ s). destruct (ping_loop_replies (Z.to_nat n) rp ip host 1 0 s1) as (s2 & o2 & pkts & E2 & F2 & A2); [lia..|].
  rewrite (bind_ok _ _ s1 _ s2 o2 E2). rewrite Z2Nat.id, Z.add_0_l by lia. rewrite Z.sub_diag. change (0 * 100) with 0. rewrite Z.quot_0_l by lia.
  do 10 (rewrite (bind_ok _ _ s2 tt s2 _ eq_refl)). destruct (echo_remove rp (card (drv s2))) as (w3 & E3 & F3). rewrite (lw_eq _ _ _ s2 E3).
  eexists _, _, pkts. split; [cbn [app]; rewrite !app_comm_cons; apply f_equal; reflexivity|].
  split; [change (pinged w3 = pinged (card (drv s)) ++ pkts); rewrite F3, F2; change (card (drv s1)) with w1; by rewrite F1|].
  rewrite Z2Nat.id in A2 by lia. apply Forall2_same_length_lookup_2; [by apply Forall2_length in A2|].
  intros i k p Hk Hp. pose proof (Forall2_lookup_lr _ _ _ _ _ _ A2 Hk Hp) as He. apply lookup_seqZ in Hk.
  destruct (echo_packet_ok k) as (p' & He' & Hrest); [lia|]. rewrite He in He'. by injection He' as <-.
Qed.

End Echo.

(** A network for examples, on the card of [Rtl.v]: every request is answered,
    what is sent is kept. *)
#[export] Instance rig_lwip : Lwip rig := {|
  virtio_hw_init := mret false; e1000_hw_init := mret false; lwip_init := mret tt; netif_add _ := mret tt; netif_up := mret tt; netif_down := mret tt;
  netif_addr _ _ _ := mret tt; netif_flags := mret 14; netif_mtu := mret 1500;
  lw_poll _ := mret [Icmp (replicate 28 0)]; tcp_tmr := mret []; sys_check_timeouts := mret [];
  tcp_new := mret (Some 1); tcp_connect _ _ _ := mret 0; tcp_write _ d := fun w => Ok 0 (Rig (handed w ++ [d]) (outs w) (grants w)) []; tcp_output _ := mret tt;
  tcp_recv _ := mret tt; tcp_abort _ := mret tt; tcp_close _ := mret tt; dns_gethostbyname _ := mret None;
  raw_new := mret (Some 7); raw_sendto _ d _ := fun w => Ok 0 (Rig (handed w ++ [d]) (outs w) (grants w)) []; raw_remove _ := mret tt; pbuf_ok := mret true |}.
#[export] Instance rig_echo : EchoHost rig.
Proof.
  refine {| pinged := handed |}; intros; cbn; eexists; try (eexists; split; [reflexivity|]); try (split; [reflexivity|]); try (split; [vm_compute; discriminate|]); done.
Defined.

Lemma ping_answered_witness :
  exists s' o pkts, do_ping_count (cs "10.0.2.2") 2 (net_sample (rig_sample [] 0)) = Ok tt s' (o ++ ping_stats (cs "10.0.2.2") 2 2 0) /\
    handed (card (drv s')) = pkts /\ length pkts = 2%nat.
Proof.
  destruct (ping_answered (cs "10.0.2.2") 2 0x0202000A (net_sample (rig_sample [] 0))) as (s' & o & pkts & E & F & A).
  - reflexivity.
  - reflexivity.
  - exists s', o, pkts. split; [exact E|]. split; [exact F|]. apply Forall2_length in A. exact (eq_sym A).
Defined.

(** ** What the layer gets wrong *)

(** A network that follows a script: the callbacks of each poll. *)
Record lab := Lab { script : list (list cb) }.
#[export] Instance lab_nic : Nic lab := {|
  in_port _ := mret 0; out_port _ _ := mret tt; pci_r32 _ _ _ := mret 0xFFFFFFFF; pci_w32 _ _ _ _ := mret tt; pbuf_alloc _ := mret true; netif_input _ := mret tt |}.
#[export] Instance lab_lwip : Lwip lab := {|
  virtio_hw_init := mret false; e1000_hw_init := mret false; lwip_init := mret tt; netif_add _ := mret tt; netif_up := mret tt; netif_down := mret tt;
  netif_addr _ _ _ := mret tt; netif_flags := mret 14; netif_mtu := mret 1500;
  lw_poll _ := fun w => Ok (default [] (head (script w))) (Lab (tail (script w))) []; tcp_tmr := mret []; sys_check_timeouts := mret [];
  tcp_new := mret (Some 1); tcp_connect _ _ _ := mret 0; tcp_write _ d := mret 0; tcp_output _ := mret tt;
  tcp_recv _ := mret tt; tcp_abort _ := mret tt; tcp_close _ := mret tt; dns_gethostbyname _ := mret (Some 0x0202000A);
  raw_new := mret (Some 7); raw_sendto _ _ _ := mret 0; raw_remove _ := mret tt; pbuf_ok := mret true |}.
Definition lab_net (sc : list (list cb)) : net lab :=
  Net 1 true true 0 0 0 [] false None false false false false 2 (Some 1) (Rtl true 0xC000 (replicate 6 0) 0 0 0 0 0 [] [] netlog0 (Lab sc)).

(** The number of bytes received is reported as 16, whatever it is. *)
Lemma recv_reports_sixteen :
  match tcp_recv_data_compat 1200 (lab_net [[]; [Received (Some (cs "HTTP/1.1 200 OK, and more"))]]) with
  | Ok (r, d) _ _ => r = 16 /\ zlen d = 25
  | _ => False
  end.
Proof. vm_compute. split; reflexivity. Qed.

(** Two segments in one poll: the first is lost. *)
Lemma recv_loses_a_segment :
  match tcp_recv_data_compat 1200 (lab_net [[Received (Some (cs "first ")); Received (Some (cs "second"))]]) with Ok (_, d) _ _ => d = cs "second" | _ => False end.
Proof. vm_compute. reflexivity. Qed.

(** What does not fit the caller's buffer is dropped: the next call starts with
    the next segment. *)
Lemma recv_drops_the_rest :
  match (d ← tcp_recv_data_compat 2; e ← tcp_recv_data_compat 9; mret (d.2, e.2)) (lab_net [[Received (Some (cs "abcd"))]; [Received (Some (cs "ef"))]]) with
  | Ok r _ _ => r = (cs "ab", cs "ef")
  | _ => False
  end.
Proof. vm_compute. reflexivity. Qed.

(** The end of the stream and a pause look alike to the caller. *)
Lemma closed_is_not_seen : match tcp_recv_data_compat 9 (lab_net [[Received None]]) with Ok (r, d) _ _ => r = -1 /\ d = [] | _ => False end.
Proof. vm_compute. split; reflexivity. Qed.

(** An address of five numbers is taken, without its fourth. *)
Lemma five_numbers_parse : ip_parse (cs "1.2.3.4.5") = Some 0x00030201 /\ ip_parse (cs "10.0.2.300") = Some (0x0002000A + u32 (Z.shiftl 300 24)).
Proof. vm_compute. split; reflexivity. Qed.

(** Any ICMP packet of type 0 counts as the reply, whatever its identifier. *)
Lemma any_reply_counts id : ping_got_reply (run_cb (Icmp (replicate 24 0 ++ [id; id; 0; 0])) (lab_net [])) = true.
Proof. reflexivity. Qed.

(** The body of an HTTP response is moved to the front without a new terminator:
    the end of the response follows it again. *)
Lemma http_body_repeats : http_body (cs "H" ++ [13; 10; 13; 10] ++ cs "hello") = cs "hellohello".
Proof. vm_compute. reflexivity. Qed.

(** Bringing the interface up sets the transmit register to 0x03000700 and shows
    it in decimal: read back as it is, nine bytes go to [char b[8]]. *)
Lemma register_dump_overflows {W} `{Nic W} (s : net W) w :
  in_port (u16 (iobase (drv s) + 0x40)) (card (drv s)) = Ok 0x03000700 w [] ->
  exists s' o, dump_reg "  TX Config (0x40): 0x" 0x40 s = Err BufferOverflow s' o.
Proof.
  intros E. unfold dump_reg. rewrite (bind_ok _ _ s tt s _ eq_refl). rewrite (bind_silent get _ s s s) by done.
  rewrite (bind_silent _ _ s 0x03000700 (set_drv (set_card w (drv s)) s)); [eexists _, _; reflexivity|].
  unfold on_drv, rtl_in, on_card, zoom. by rewrite E.
Qed.

(** A MAC address of large bytes does not fit [char macbuf[20]]. *)
Lemma mac_text_overflows : zlen (mac_text [200; 200; 200; 200; 200; 200]) = 23.
Proof. vm_compute. reflexivity. Qed.
