(* ===== verification/Virtio.v ===== *)
(** * VirtIO network driver ([lwip/port/netif/virtio.h])

    Driver and device share two queues in memory: the driver offers descriptors
    in the [avail] ring and the device hands them back in the [used] ring.  The
    registers, the buffers of the stack and [netif->input] are the interface
    [Nic] of [Rtl.v]; what the device does to the transmit queue while the driver
    waits is [VirtDev].  The receiving side of the device is the step relation
    [rx_step], interleaved with the polls of the driver in any order. *)

From Stdlib Require Import ZArith Lia.
From stdpp Require Import base numbers list list_numbers strings relations.
From S2P Require Import Prelude CLib Console Rtl Net.

Notation QUEUE_SIZE := 16 (only parsing).
Notation VIRTIO_MMIO_BASE := 0x0a000000 (only parsing).
Notation VIRTIO_MMIO_STRIDE := 0x200 (only parsing).
Notation DESC_F_WRITE := 2 (only parsing).
(** [sizeof(virtio_net_hdr_t)] and [sizeof(rx_buffer_t)] *)
Notation HDR := 10 (only parsing).
Notation BUF_SIZE := 1536 (only parsing).

(** ** State *)

Record virtq_desc_t := Desc { d_addr : Z; d_len : Z; d_flags : Z; d_next : Z }.
Record virtq := Virtq {
  q_desc : list virtq_desc_t;
  a_flags : Z; a_idx : Z; a_ring : list Z;
  u_idx : Z; u_ring : list (Z * Z) }.
Definition desc0 : virtq_desc_t := Desc 0 0 0 0.
Definition virtq0 : virtq := Virtq (replicate 16 desc0) 0 0 (replicate 16 0) 0 (replicate 16 (0, 0)).

Record virtio (W : Type) := Virtio {
  v_mmio : option Z; v_index : Z; v_mac : list Z; v_ok : bool;
  rxq : virtq; txq : virtq; last_used : Z;
  rx_buffers : list (list Z); tx_buffer : list Z; v_card : W }.
Arguments Virtio {W}.
Arguments v_mmio {W}.
Arguments v_index {W}.
Arguments v_mac {W}.
Arguments v_ok {W}.
Arguments rxq {W}.
Arguments txq {W}.
Arguments last_used {W}.
Arguments rx_buffers {W}.
Arguments tx_buffer {W}.
Arguments v_card {W}.

Definition virtio0 {W} (w : W) : virtio W :=
  Virtio None (-1) (replicate 6 0) false virtq0 virtq0 0 (replicate 16 (replicate 1536 0)) (replicate 1536 0) w.

(** What the device does to the transmit queue between two reads of it. *)
Class VirtDev (W : Type) `{Nic W} := { dev_tx : virtq -> list Z -> M W virtq }.

Section Driver.
Context {W : Type} `{VirtDev W}.
(** Where the linker put the queues and the buffers. *)
Context (rx_mem tx_mem tx_buf : Z) (rx_buf : Z -> Z).
Implicit Type s : virtio W.

Definition v_set_card (w : W) s := Virtio (v_mmio s) (v_index s) (v_mac s) (v_ok s) (rxq s) (txq s) (last_used s) (rx_buffers s) (tx_buffer s) w.
Definition v_set_dev (b : option Z) (i : Z) s := Virtio b i (v_mac s) (v_ok s) (rxq s) (txq s) (last_used s) (rx_buffers s) (tx_buffer s) (v_card s).
Definition v_set_mac (m : list Z) s := Virtio (v_mmio s) (v_index s) m (v_ok s) (rxq s) (txq s) (last_used s) (rx_buffers s) (tx_buffer s) (v_card s).
Definition v_set_ok s := Virtio (v_mmio s) (v_index s) (v_mac s) true (rxq s) (txq s) (last_used s) (rx_buffers s) (tx_buffer s) (v_card s).
Definition v_set_rxq (q : virtq) s := Virtio (v_mmio s) (v_index s) (v_mac s) (v_ok s) q (txq s) (last_used s) (rx_buffers s) (tx_buffer s) (v_card s).
Definition v_set_txq (q : virtq) s := Virtio (v_mmio s) (v_index s) (v_mac s) (v_ok s) (rxq s) q (last_used s) (rx_buffers s) (tx_buffer s) (v_card s).
Definition v_set_last (i : Z) s := Virtio (v_mmio s) (v_index s) (v_mac s) (v_ok s) (rxq s) (txq s) i (rx_buffers s) (tx_buffer s) (v_card s).
Definition v_set_tx (b : list Z) s := Virtio (v_mmio s) (v_index s) (v_mac s) (v_ok s) (rxq s) (txq s) (last_used s) (rx_buffers s) b (v_card s).

Definition on_dev {A} (m : M W A) : M (virtio W) A := zoom v_card v_set_card m.
Definition vread32 (addr : Z) : M (virtio W) Z := on_dev (in_port addr).
Definition vwrite32 (addr v : Z) : M (virtio W) unit := on_dev (out_port addr v).
(** A register of the device that was found. *)
Definition reg (off : Z) : M (virtio W) Z :=
  s ← get; match v_mmio s with Some b => mret (b + off) | None => fail NullDeref end.
Definition rread (off : Z) : M (virtio W) Z := a ← reg off; vread32 a.
Definition rwrite (off v : Z) : M (virtio W) unit := a ← reg off; vwrite32 a v.

Fixpoint find_from (n : nat) (i : Z) : M (virtio W) (option Z) :=
  match n with
  | O => mret None
  | S n' =>
      let base := VIRTIO_MMIO_BASE + i * VIRTIO_MMIO_STRIDE in
      magic ← vread32 base;
      device_id ← vread32 (base + 8);
      if (magic =? 0x74726976) && (device_id =? 1)
      then modify (fun s => v_set_dev (v_mmio s) i s) ;; mret (Some base)
      else find_from n' (i + 1)
  end.
Definition find_virtio_net : M (virtio W) (option Z) := find_from 32 0.

(** The registers of a queue at [mem]; [None] for [-1].  The descriptors take 256
    bytes, the used ring starts at 2048. *)
Definition setup_queue (idx mem : Z) (q : virtq) : M (virtio W) (option virtq) :=
  rwrite 0x30 idx ;;
  max ← rread 0x34;
  if max <? QUEUE_SIZE then mret None
  else
    rwrite 0x38 QUEUE_SIZE ;;
    rwrite 0x80 (u32 mem) ;; rwrite 0x84 (u32 (Z.shiftr mem 32)) ;;
    rwrite 0x90 (u32 (mem + 256)) ;; rwrite 0x94 (u32 (Z.shiftr (mem + 256) 32)) ;;
    rwrite 0xa0 (u32 (mem + 2048)) ;; rwrite 0xa4 (u32 (Z.shiftr (mem + 2048) 32)) ;;
    rwrite 0x44 1 ;;
    mret (Some (Virtq (q_desc q) 0 0 (a_ring q) (u_idx q) (u_ring q))).

Fixpoint read_vmac (n : nat) (i : Z) : M (virtio W) unit :=
  match n with
  | O => mret tt
  | S n' => v ← rread (0x100 + i); modify (fun s => v_set_mac (aset (v_mac s) i (u8 v)) s) ;; read_vmac n' (i + 1)
  end.

Definition fill_rx (q : virtq) : virtq :=
  Virtq (map (fun i => Desc (rx_buf i) BUF_SIZE DESC_F_WRITE 0) (seqZ 0 16)) (a_flags q) 16 (seqZ 0 16) (u_idx q) (u_ring q).

Definition virtio_hw_init : M (virtio W) bool :=
  b ← find_virtio_net;
  modify (fun s => v_set_dev b (v_index s) s) ;;
  match b with
  | None => mret false
  | Some _ =>
      rwrite 0x70 0 ;; rwrite 0x70 1 ;; rwrite 0x70 3 ;;
      rwrite 0x14 0 ;; _ ← rread 0x10;
      rwrite 0x24 0 ;; rwrite 0x20 32 ;;
      rwrite 0x70 11 ;;
      status ← rread 0x70;
      if Z.land status 8 =? 0 then mret false
      else
        read_vmac 6 0 ;;
        s ← get;
        r ← setup_queue 0 rx_mem (rxq s);
        match r with
        | None => mret false
        | Some q =>
            modify (v_set_rxq q) ;;
            s ← get;
            r ← setup_queue 1 tx_mem (txq s);
            match r with
            | None => mret false
            | Some q =>
                modify (v_set_txq q) ;;
                modify (fun s => v_set_rxq (fill_rx (rxq s)) s) ;;
                rwrite 0x70 15 ;;
                status ← rread 0x70;
                if negb (Z.land status 0x40 =? 0) then mret false
                else rwrite 0x30 0 ;; rwrite 0x50 0 ;; modify v_set_ok ;; mret true
            end
        end
  end.

(** Copy of the first bytes of a buffer behind its header. *)
Definition tx_fill (b data : list Z) : list Z :=
  replicate 10 0 ++ take 1514 data ++ drop (10 + length (take 1514 data)) b.

(** One pass of the wait: [true] when the used index has moved. *)
Definition tx_pass (old_used : Z) : M (virtio W) bool :=
  s ← get;
  q ← on_dev (dev_tx (txq s) (tx_buffer s));
  modify (v_set_txq q) ;; mret (negb (u_idx q =? old_used)).

(** [p]: the first buffer of the chain; the others are not looked at. *)
Definition virtio_output (chain : list (list Z)) : M (virtio W) err_t :=
  s ← get;
  if negb (v_ok s) then mret ERR_IF
  else
    match chain with
    | [] => fail NullDeref
    | p :: _ =>
        modify (fun s => v_set_tx (tx_fill (tx_buffer s) p) s) ;;
        let q := txq s in
        let q := Virtq (aset (q_desc q) 0 (Desc tx_buf (u32 (HDR + zlen p)) 0 0)) (a_flags q)
                   (u16 (a_idx q + 1)) (aset (a_ring q) (a_idx q mod QUEUE_SIZE) 0) (u_idx q) (u_ring q) in
        modify (v_set_txq q) ;;
        rwrite 0x30 1 ;; rwrite 0x50 1 ;;
        moved ← upto 1000000 (tx_pass (u_idx q));
        if negb moved then mret ERR_BUF
        else v ← rread 0x60; rwrite 0x64 v ;; mret ERR_OK
    end.

Definition virtio_input : M (virtio W) unit :=
  s ← get;
  if negb (v_ok s) then mret tt
  else
    let q := rxq s in
    if u_idx q =? last_used s then mret tt
    else
      let '(desc_idx, total_len) := aget (0, 0) (u_ring q) (last_used s mod QUEUE_SIZE) in
      modify (v_set_last (u16 (last_used s + 1))) ;;
      let frame_len := u32 (total_len - HDR) in
      (if (0 <? frame_len) && (frame_len <=? 1514) then
         p ← on_dev (pbuf_alloc frame_len);
         if (p : bool) then
           in_array QUEUE_SIZE desc_idx ;;
           on_dev (netif_input (take (Z.to_nat frame_len) (drop 10 (aget [] (rx_buffers s) desc_idx))))
         else mret tt
       else mret tt) ;;
      modify (fun s => let q := rxq s in
        v_set_rxq (Virtq (q_desc q) (a_flags q) (u16 (a_idx q + 1)) (aset (a_ring q) (a_idx q mod QUEUE_SIZE) (u16 desc_idx)) (u_idx q) (u_ring q)) s) ;;
      rwrite 0x30 0 ;; rwrite 0x50 0 ;;
      v ← rread 0x60; rwrite 0x64 v.

Definition virtio_init : M (virtio W) netif := s ← get; mret (NetIf (cs "et") 1500 0x0E (v_mac s) 6).

End Driver.

(** ** Windows of a ring

    [window r lo l]: the ring [r] of 16 slots holds the entries [l] from the
    running number [lo] on. *)

Section Window.
Context {A : Type}.
Implicit Types (r l : list A).

Definition window r (lo : Z) l : Prop :=
  length r = 16%nat /\ forall k x, l !! k = Some x -> r !! Z.to_nat ((lo + Z.of_nat k) mod 16) = Some x.

Lemma window_head r lo x l : window r lo (x :: l) -> r !! Z.to_nat (lo mod 16) = Some x /\ window r (lo + 1) l.
Proof.
  intros [Hr Hw]. split.
  - specialize (Hw 0%nat x eq_refl). by rewrite Z.add_0_r in Hw.
  - split; [done|]. intros k y Hk. specialize (Hw (S k) y Hk). by replace (lo + 1 + Z.of_nat k) with (lo + Z.of_nat (S k)) by lia.
Qed.

Lemma window_snoc r lo l x :
  window r lo l -> (length l < 16)%nat -> window (<[Z.to_nat ((lo + zlen l) mod 16) := x]> r) lo (l ++ [x]).
Proof.
  intros [Hr Hw] Hl. split; [by rewrite length_insert|]. intros k y Hk.
  assert (Hz : 0 <= (lo + zlen l) mod 16 < 16) by (apply Z.mod_pos_bound; lia).
  assert (Hz2 : 0 <= (lo + Z.of_nat k) mod 16 < 16) by (apply Z.mod_pos_bound; lia).
  destruct (decide (k < length l)%nat) as [Hlt|Hge].
  - rewrite lookup_app_l in Hk by lia. rewrite list_lookup_insert_ne; [by apply Hw|].
    intros E. apply Z2Nat.inj in E; [|lia|lia]. unfold zlen in *.
    assert ((lo + Z.of_nat (length l) - (lo + Z.of_nat k)) mod 16 = 0).
    { rewrite Zminus_mod, E, Z.sub_diag. done. }
    rewrite Z.mod_small in H; lia.
  - rewrite lookup_app_r in Hk by lia. destruct (k - length l)%nat eqn:E; [|done]. injection Hk as <-.
    replace k with (length l) by lia. apply list_lookup_insert_eq. unfold zlen in *. lia.
Qed.
End Window.

Lemma u16_mod16 n : u16 n mod 16 = n mod 16.
Proof. unfold u16. change (2^16) with 65536. Z.to_euclidean_division_equations. lia. Qed.
Lemma u16_eq a b : u16 a = u16 b -> 0 <= b - a <= 16 -> a = b.
Proof.
  unfold u16. intros E Hab. assert (((b - a) mod 2^16) = 0) by (rewrite Zminus_mod, E, Z.sub_diag; done).
  rewrite Z.mod_small in H; lia.
Qed.
Lemma u16_add a b : u16 (u16 a + b) = u16 (a + b).
Proof. unfold u16. by rewrite Zplus_mod_idemp_l. Qed.

(** ** The device, and every interleaving with the driver *)

Record sys (W : Type) := Sys {
  drv : virtio W;
  fetched : Z;            (* the device's position in the avail ring *)
  held : list Z;          (* descriptors it has taken and not returned *)
  posted : list (list Z)  (* the frames it has received so far *) }.
Arguments Sys {W}.
Arguments drv {W}.
Arguments fetched {W}.
Arguments held {W}.
Arguments posted {W}.

(** A frame written behind the header of a buffer. *)
Definition rx_write (b frame : list Z) : list Z := take 10 b ++ frame ++ drop (10 + length frame) b.
Definition post_used (id len : Z) (q : virtq) : virtq :=
  Virtq (q_desc q) (a_flags q) (a_idx q) (a_ring q) (u16 (u_idx q + 1)) (aset (u_ring q) (u_idx q mod 16) (id, len)).
Definition v_post {W} (id : Z) (frame : list Z) (s : virtio W) : virtio W :=
  Virtio (v_mmio s) (v_index s) (v_mac s) (v_ok s) (post_used id (10 + zlen frame) (rxq s)) (txq s) (last_used s)
    (aset (rx_buffers s) id (rx_write (aget [] (rx_buffers s) id) frame)) (tx_buffer s) (v_card s).

(** The device takes a descriptor when there is one, and returns any it holds
    with a frame in its buffer; the driver polls. *)
Inductive rx_step {W} `{Nic W} : sys W -> sys W -> Prop :=
  | dev_fetch s F h p : F <> a_idx (rxq s) ->
      rx_step (Sys s F h p) (Sys s (u16 (F + 1)) (h ++ [aget 0 (a_ring (rxq s)) (F mod 16)]) p)
  | dev_post s F h1 id h2 p frame : 0 < zlen frame <= 1514 ->
      rx_step (Sys s F (h1 ++ id :: h2) p) (Sys (v_post id frame s) F (h1 ++ h2) (p ++ [frame]))
  | drv_poll s F h p s' o : virtio_input s = Ok tt s' o -> rx_step (Sys s F h p) (Sys s' F h p).

(** The descriptors in the used ring that the driver has not read, and those in
    the avail ring that the device has not taken, as the indices delimit them. *)
Definition unread {W} (x : sys W) : list Z :=
  map (fun k => (aget (0, 0) (u_ring (rxq (drv x))) ((last_used (drv x) + k) mod 16)).1)
      (seqZ 0 (u16 (u_idx (rxq (drv x)) - last_used (drv x)))).
Definition offered {W} (x : sys W) : list Z :=
  map (fun k => aget 0 (a_ring (rxq (drv x))) ((fetched x + k) mod 16))
      (seqZ 0 (u16 (a_idx (rxq (drv x)) - fetched x))).

Lemma window_read {A} (d : A) r lo l :
  window r lo l -> map (fun k => aget d r ((lo + k) mod 16)) (seqZ 0 (zlen l)) = l.
Proof.
  intros [_ Hw]. apply list_eq. intros i. change (map ?f ?l) with (f <$> l). rewrite list_lookup_fmap.
  destruct (l !! i) as [x|] eqn:E.
  - apply lookup_lt_Some in E as Hlt. rewrite lookup_seqZ_lt by (unfold zlen; lia). cbn. f_equal. rewrite Z.add_0_l.
    unfold aget. by apply nth_lookup_Some, Hw.
  - apply lookup_ge_None in E. by rewrite lookup_seqZ_ge by (unfold zlen; lia).
Qed.

Lemma u16_add_mod16 a b : (u16 a + b) mod 16 = (a + b) mod 16.
Proof. rewrite <- Zplus_mod_idemp_l, u16_mod16. apply Zplus_mod_idemp_l. Qed.
Lemma u16_distance a b : 0 <= b - a <= 16 -> u16 (u16 b - u16 a) = b - a.
Proof. intros Hab. unfold u16. rewrite <- Zminus_mod. apply Z.mod_small. lia. Qed.

Lemma picked_snoc {A} bs (xs : list A) b x :
  length bs = length xs -> picked (bs ++ [b]) (xs ++ [x]) = picked bs xs ++ if b then [x] else [].
Proof.
  revert xs. induction bs as [|c bs IH]; intros [|y xs] Hl; simpl in *; try done.
  rewrite IH by lia. by destruct c.
Qed.

Section Receive.
Context {W : Type} `{NicOk W} (g0 : list bool).
Implicit Type s : virtio W.

(** The frame a used entry stands for. *)
Definition entry_frame (bufs : list (list Z)) (e : Z * Z) : list Z := take (Z.to_nat (e.2 - 10)) (drop 10 (aget [] bufs e.1)).

(** [D] frames read by the driver, [U] returned, [F] taken by the device; [pend]
    the used entries not read, [av] the descriptors not taken.  Of the frames read
    the stack has those for which a buffer was granted; [g0]: the answers before. *)
Record rx_inv (x : sys W) (D U F : Z) (pend : list (Z * Z)) (av : list Z) : Prop := RxInv {
  inv_ok : v_ok (drv x) = true;
  inv_mmio : is_Some (v_mmio (drv x));
  inv_order : 0 <= D;
  inv_pend : zlen pend = U - D;
  inv_av : zlen av = 16 + D - F;
  inv_aidx : a_idx (rxq (drv x)) = u16 (16 + D);
  inv_uidx : u_idx (rxq (drv x)) = u16 U;
  inv_last : last_used (drv x) = u16 D;
  inv_fetched : fetched x = u16 F;
  inv_used : window (u_ring (rxq (drv x))) D pend;
  inv_avail : window (a_ring (rxq (drv x))) F av;
  inv_perm : map fst pend ++ held x ++ av ≡ₚ seqZ 0 16;
  inv_bufs : length (rx_buffers (drv x)) = 16%nat /\ Forall (fun b => length b = 1536%nat) (rx_buffers (drv x));
  inv_lens : Forall (fun e => 10 < e.2 <= 1524) pend;
  inv_frames : exists done_ bs, done_ ++ map (entry_frame (rx_buffers (drv x))) pend = posted x /\
    granted (v_card (drv x)) = g0 ++ bs /\ length bs = length done_ /\ frames (v_card (drv x)) = picked bs done_ }.

Lemma aget_at {A} (d : A) l i x : l !! Z.to_nat i = Some x -> aget d l i = x.
Proof. intros Hl. unfold aget. by apply nth_lookup_Some. Qed.

Lemma held_count x D U F pend av : rx_inv x D U F pend av -> zlen (held x) = F - U.
Proof.
  intros I. pose proof (Permutation_length (inv_perm _ _ _ _ _ _ I)) as Hl. pose proof (inv_pend _ _ _ _ _ _ I). pose proof (inv_av _ _ _ _ _ _ I).
  rewrite !length_app, length_map, length_seqZ in Hl. unfold zlen in *. lia.
Qed.

Lemma inv_fetch s F h p D U G pend av :
  rx_inv (Sys s F h p) D U G pend av -> F <> a_idx (rxq s) ->
  exists av', rx_inv (Sys s (u16 (F + 1)) (h ++ [aget 0 (a_ring (rxq s)) (F mod 16)]) p) D U (G + 1) pend av'.
Proof.
  intros I HF. pose proof (held_count _ _ _ _ _ _ I) as Hh. destruct I. cbn [drv fetched held posted] in *.
  destruct av as [|a av'].
  { exfalso. apply HF. rewrite inv_aidx0, inv_fetched0. change (zlen []) with 0 in inv_av0. f_equal. lia. }
  destruct (window_head _ _ _ _ inv_avail0) as [Ha Hw]. exists av'.
  assert (E : aget 0 (a_ring (rxq s)) (F mod 16) = a) by (apply aget_at; by rewrite inv_fetched0, u16_mod16).
  rewrite E. rewrite zlen_cons in inv_av0. split; cbn [drv fetched held posted]; try done; try lia.
  - by rewrite inv_fetched0, u16_add.
  - rewrite <- app_assoc. done.
Qed.

Lemma inv_ids x D U F pend av e : rx_inv x D U F pend av -> e ∈ pend -> 0 <= e.1 < 16 /\ e.1 ∉ held x /\ e.1 ∉ av.
Proof.
  intros I He. assert (Hin : e.1 ∈ map fst pend) by (by apply list_elem_of_fmap_2).
  pose proof (inv_perm _ _ _ _ _ _ I) as P. assert (Hnd : NoDup (map fst pend ++ held x ++ av)) by (rewrite P; apply NoDup_seqZ).
  apply NoDup_app in Hnd as (_ & Hd & _). specialize (Hd _ Hin). rewrite elem_of_app in Hd.
  split; [|tauto]. assert (e.1 ∈ seqZ 0 16) as Hs%elem_of_seqZ by (rewrite <- P; apply elem_of_app; by left). lia.
Qed.

Lemma rx_write_data b frame : length b = 1536%nat -> (length frame <= 1514)%nat ->
  take (length frame) (drop 10 (rx_write b frame)) = frame /\ length (rx_write b frame) = 1536%nat.
Proof.
  intros Hb Hf. unfold rx_write. split.
  - assert (E : length (take 10 b) = 10%nat) by (rewrite length_take; lia).
    rewrite drop_app_ge by lia. rewrite E. change (10 - 10)%nat with 0%nat. rewrite drop_0, take_app_le by lia. by rewrite take_ge by lia.
  - rewrite !length_app, length_take, length_drop. lia.
Qed.

Lemma entry_frame_other bufs id b e : e.1 <> id -> 0 <= e.1 -> 0 <= id -> entry_frame (aset bufs id b) e = entry_frame bufs e.
Proof. intros. unfold entry_frame. by rewrite aget_aset_ne by lia. Qed.

Lemma inv_post s F h1 id h2 p frame D U G pend av :
  rx_inv (Sys s F (h1 ++ id :: h2) p) D U G pend av -> 0 < zlen frame <= 1514 ->
  rx_inv (Sys (v_post id frame s) F (h1 ++ h2) (p ++ [frame])) D (U + 1) G (pend ++ [(id, 10 + zlen frame)]) av.
Proof.
  intros I Hf. pose proof (held_count _ _ _ _ _ _ I) as Hh. pose proof (fun e => inv_ids _ _ _ _ _ _ e I) as Hids.
  destruct I. cbn [drv fetched held posted] in *. pose proof (zlen_nonneg av).
  assert (Hlen : zlen (h1 ++ id :: h2) = zlen h1 + (1 + zlen h2)) by (by rewrite zlen_app, zlen_cons).
  pose proof (zlen_nonneg h1). pose proof (zlen_nonneg h2).
  assert (Hid : 0 <= id < 16).
  { assert (id ∈ seqZ 0 16) as Hin%elem_of_seqZ; [|lia]. rewrite <- inv_perm0. set_solver. }
  destruct inv_bufs0 as [Hb16 Hb]. destruct (lookup_lt_is_Some_2 (rx_buffers s) (Z.to_nat id)) as [b Hbid]; [lia|].
  assert (Eb : aget [] (rx_buffers s) id = b) by (by apply aget_at).
  assert (Hbl : length b = 1536%nat) by (by eapply Forall_lookup_1 in Hb).
  destruct (rx_write_data b frame Hbl) as [Hd Hwl]; [unfold zlen in *; lia|].
  split; cbn [drv fetched held posted v_post post_used v_ok v_mmio rxq a_idx u_idx a_ring u_ring last_used rx_buffers v_card]; try done.
  - rewrite zlen_app. change (zlen [(id, 10 + zlen frame)]) with 1. lia.
  - by rewrite inv_uidx0, u16_add.
  - unfold aset. rewrite inv_uidx0, u16_mod16. replace U with (D + zlen pend) by lia. apply window_snoc; [done|]. unfold zlen in *. lia.
  - rewrite map_app. cbn [map fst]. rewrite <- inv_perm0, <- !app_assoc. f_equiv. cbn [app]. apply Permutation_middle.
  - rewrite Eb. unfold aset. split; [by rewrite length_insert|]. by apply Forall_insert.
  - apply Forall_app. split; [done|]. apply Forall_singleton. cbn [snd]. lia.
  - destruct inv_frames0 as (dn & bs & Hp & Hg & Hbs & Hfr). exists dn, bs. split; [|done].
    rewrite map_app, app_assoc. f_equal.
    + rewrite <- Hp. f_equal. apply list_fmap_ext. intros i e He. apply list_elem_of_lookup_2 in He.
      destruct (Hids e He) as (? & Hnh & _). apply entry_frame_other; [|lia|lia]. intros E. apply Hnh. rewrite E. set_solver.
    + cbn [map]. f_equal. unfold entry_frame. cbn [fst snd]. rewrite Eb. replace (Z.to_nat (10 + zlen frame - 10)) with (length frame) by (unfold zlen; lia).
      rewrite aget_aset_eq by (unfold zlen in *; lia). done.
Qed.

(** Register accesses leave everything but the card alone. *)
Lemma rwrite_ok off v s : is_Some (v_mmio s) -> exists w, rwrite off v s = Ok tt (v_set_card w s) [] /\ frames w = frames (v_card s) /\
  granted w = granted (v_card s).
Proof.
  intros [b Hb]. destruct (out_ok (b + off) v (v_card s)) as (w & E & Hf & _). exists w.
  split; [|split; [done|by eapply out_grant]].
  unfold rwrite, reg, vwrite32, on_dev, zoom, mbind, M_bind, get, mret, M_ret. rewrite Hb. by rewrite E.
Qed.
Lemma rread_ok off s : is_Some (v_mmio s) -> exists v w, rread off s = Ok v (v_set_card w s) [] /\ frames w = frames (v_card s) /\
  granted w = granted (v_card s).
Proof.
  intros [b Hb]. destruct (in_ok (b + off) (v_card s)) as (v & w & E & Hf & _). exists v, w.
  split; [|split; [done|by eapply in_grant]].
  unfold rread, reg, vread32, on_dev, zoom, mbind, M_bind, get, mret, M_ret. rewrite Hb. by rewrite E.
Qed.

(** The registers written at the end of [virtio_input]. *)
Lemma poll_tail s : is_Some (v_mmio s) ->
  exists w, (rwrite 0x30 0 ;; rwrite 0x50 0 ;; v ← rread 0x60; rwrite 0x64 v) s = Ok tt (v_set_card w s) [] /\ frames w = frames (v_card s) /\
    granted w = granted (v_card s).
Proof.
  intros Hb. destruct (rwrite_ok 0x30 0 s Hb) as (w1 & E1 & F1 & G1). rewrite (bind_silent _ _ _ _ _ E1).
  destruct (rwrite_ok 0x50 0 (v_set_card w1 s) Hb) as (w2 & E2 & F2 & G2). rewrite (bind_silent _ _ _ _ _ E2).
  destruct (rread_ok 0x60 (v_set_card w2 s) Hb) as (v & w3 & E3 & F3 & G3). cbn [v_set_card v_card] in *.
  change (v_set_card w2 (v_set_card w1 s)) with (v_set_card w2 s). rewrite (bind_silent _ _ _ _ _ E3).
  destruct (rwrite_ok 0x64 v (v_set_card w3 s) Hb) as (w4 & E4 & F4 & G4). cbn [v_set_card v_card] in *.
  exists w4. split; [|split; congruence]. change (v_set_card w3 (v_set_card w2 s)) with (v_set_card w3 s). by rewrite E4.
Qed.

Lemma poll_none x D U F av : rx_inv x D U F [] av -> virtio_input (drv x) = Ok tt (drv x) [].
Proof.
  intros []. unfold virtio_input. rewrite (bind_silent get _ _ _ _ eq_refl). rewrite inv_ok0. cbn [negb].
  change (zlen []) with 0 in inv_pend0. replace U with D in inv_uidx0 by lia. by rewrite inv_uidx0, inv_last0, Z.eqb_refl.
Qed.

Lemma poll_one x D U F e pend av :
  rx_inv x D U F (e :: pend) av ->
  exists s' b, virtio_input (drv x) = Ok tt s' [] /\ granted (v_card s') = granted (v_card (drv x)) ++ [b] /\
    frames (v_card s') = (frames (v_card (drv x)) ++ if b then [entry_frame (rx_buffers (drv x)) e] else []) /\
    rx_inv (Sys s' (fetched x) (held x) (posted x)) (D + 1) U F pend (av ++ [e.1]).
Proof.
  intros I. destruct (inv_ids _ _ _ _ _ _ e I) as (Hid & _); [left|]. pose proof (held_count _ _ _ _ _ _ I) as Hh.
  pose proof I as I0. destruct I as []. destruct e as [id len]. cbn [fst] in *. rewrite zlen_cons in *. pose proof (zlen_nonneg pend).
  pose proof (zlen_nonneg (held x)). pose proof (zlen_nonneg av).
  apply Forall_cons in inv_lens0 as [Hlen Hlens]. cbn [snd] in Hlen. destruct (window_head _ _ _ _ inv_used0) as [Hu Hw].
  unfold virtio_input. rewrite (bind_silent get _ _ _ _ eq_refl). rewrite inv_ok0. cbn [negb].
  assert (Hne : (u_idx (rxq (drv x)) =? last_used (drv x)) = false).
  { apply Z.eqb_neq. rewrite inv_uidx0, inv_last0. intros E. apply eq_sym, u16_eq in E; lia. }
  rewrite Hne, inv_last0, u16_mod16. rewrite (aget_at (0, 0) _ _ _ Hu).
  rewrite (bind_silent (modify _) _ _ tt _ eq_refl). set (s1 := v_set_last (u16 (u16 D + 1)) (drv x)).
  rewrite u32_id by lia. replace ((0 <? len - 10) && (len - 10 <=? 1514)) with true by lia.
  set (f := take (Z.to_nat (len - 10)) (drop 10 (aget [] (rx_buffers (drv x)) id))).
  destruct (alloc_ok (len - 10) (v_card s1)) as (b & w1 & E1 & F1). pose proof (alloc_grant _ _ _ _ _ E1) as G1.
  assert (Hgo : exists w2, (p ← on_dev (pbuf_alloc (len - 10));
      if (p : bool) then in_array 16 id ;; on_dev (netif_input f) else mret tt) s1 = Ok tt (v_set_card w2 s1) [] /\
      frames w2 = (frames (v_card s1) ++ if b then [f] else []) /\ granted w2 = granted (v_card s1) ++ [b]).
  { rewrite (bind_silent _ _ s1 b (v_set_card w1 s1)) by (unfold on_dev, zoom; by rewrite E1). destruct b.
    - destruct (input_ok f w1) as (w2 & E2 & F2). exists w2. pose proof (input_grant _ _ _ _ E2).
      rewrite (bind_silent _ _ (v_set_card w1 s1) tt (v_set_card w1 s1)) by (apply in_array_ok; lia).
      split; [unfold on_dev, zoom; cbn [v_card v_set_card]; by rewrite E2|]. split; congruence.
    - exists w1. rewrite app_nil_r. done. }
  destruct Hgo as (w2 & Eg & F2 & G2). erewrite (bind_silent _ _ s1 tt (v_set_card w2 s1)); [|exact Eg].
  rewrite (bind_silent (modify _) _ _ tt _ eq_refl). cbv zeta.
  match goal with |- exists s' (b : bool), _ ?s2 = _ /\ _ => destruct (poll_tail s2 inv_mmio0) as (w3 & E3 & F3 & G3) end.
  eexists _, b. split; [exact E3|]. cbn [v_card v_set_rxq v_set_card s1 v_set_last] in *.
  split; [by rewrite G3, G2|]. split; [by rewrite F3, F2|].
  split; cbn [drv fetched held posted v_set_card v_set_rxq v_set_last v_ok v_mmio rxq a_idx u_idx a_ring u_ring last_used rx_buffers v_card s1]; try done.
  - lia.
  - lia.
  - rewrite zlen_app. change (zlen [id]) with 1. lia.
  - rewrite inv_aidx0, u16_add. f_equal. lia.
  - rewrite u16_add. done.
  - unfold aset. rewrite inv_aidx0, u16_mod16, u16_id by lia. replace (16 + D) with (F + zlen av) by lia. apply window_snoc; [done|unfold zlen in *; lia].
  - rewrite <- inv_perm0. cbn [map fst app]. rewrite !app_assoc. rewrite <- Permutation_cons_append. done.
  - destruct inv_frames0 as (dn & bs & Hp & Hg & Hbs & Hfr). exists (dn ++ [f]), (bs ++ [b]).
    split; [by rewrite <- Hp, <- app_assoc|]. split; [by rewrite G3, G2, Hg, <- app_assoc|].
    split; [rewrite !length_app; simpl; lia|]. by rewrite picked_snoc, F3, F2, Hfr.
Qed.

(** The state after [virtio_hw_init], before the device has done anything. *)
Definition rx_ready s : Prop :=
  v_ok s = true /\ is_Some (v_mmio s) /\ a_idx (rxq s) = 16 /\ a_ring (rxq s) = seqZ 0 16 /\ u_idx (rxq s) = 0 /\ length (u_ring (rxq s)) = 16%nat /\
  last_used s = 0 /\ length (rx_buffers s) = 16%nat /\ Forall (fun b => length b = 1536%nat) (rx_buffers s) /\ frames (v_card s) = [].

Lemma ready_inv s : rx_ready s -> granted (v_card s) = g0 -> rx_inv (Sys s 0 [] []) 0 0 0 [] (seqZ 0 16).
Proof.
  intros (? & ? & ? & Ha & ? & ? & ? & ? & ? & Hf) Hg. split; cbn [drv fetched held posted]; try done.
  - rewrite Ha. split; [done|]. intros k x Hk. apply lookup_seqZ in Hk as [-> Hk]. rewrite Z.add_0_l, Z.mod_small by lia.
    apply lookup_seqZ. lia.
  - exists [], []. split; [done|]. split; [by rewrite app_nil_r|]. done.
Qed.

(** The indices delimit exactly the entries the invariant speaks of. *)
Lemma inv_places x D U F pend av : rx_inv x D U F pend av -> unread x = map fst pend /\ offered x = av.
Proof.
  intros I. pose proof (held_count _ _ _ _ _ _ I) as Hh. destruct I. pose proof (zlen_nonneg (held x)).
  pose proof (zlen_nonneg pend). pose proof (zlen_nonneg av).
  assert (Hall : zlen pend + zlen (held x) + zlen av = 16) by lia. split.
  - unfold unread. rewrite inv_uidx0, inv_last0, u16_distance by lia. rewrite <- inv_pend0.
    rewrite <- (window_read (0, 0) _ _ _ inv_used0) at 2. rewrite map_map. apply map_ext. intros k. by rewrite u16_add_mod16.
  - unfold offered. rewrite inv_aidx0, inv_fetched0, u16_distance by lia. rewrite <- inv_av0.
    rewrite <- (window_read 0 _ _ _ inv_avail0) at 2. apply map_ext. intros k. by rewrite u16_add_mod16.
Qed.

Lemma step_inv x y D U F pend av :
  rx_inv x D U F pend av -> rx_step x y -> exists D U F pend av, rx_inv y D U F pend av.
Proof.
  intros I Hs. destruct Hs as [s G h p HF|s G h1 id h2 p frame Hf|s G h p s' o E].
  - destruct (inv_fetch _ _ _ _ _ _ _ _ _ I HF) as [av' I']. do 5 eexists. exact I'.
  - do 5 eexists. by apply inv_post.
  - destruct pend as [|e pend].
    + pose proof (poll_none _ _ _ _ _ I) as E2. cbn [drv] in E2. rewrite E2 in E. injection E as <- _. do 5 eexists. exact I.
    + destruct (poll_one _ _ _ _ _ _ _ I) as (s2 & b & E2 & _ & _ & I2). cbn [drv] in E2. rewrite E2 in E. injection E as <- _. do 5 eexists. exact I2.
Qed.

(** ** Initialisation *)

(** What no register access changes. *)
Definition quiet_rx s : Prop :=
  u_idx (rxq s) = 0 /\ length (u_ring (rxq s)) = 16%nat /\ last_used s = 0 /\
  length (rx_buffers s) = 16%nat /\ Forall (fun b => length b = 1536%nat) (rx_buffers s) /\ frames (v_card s) = [].

Lemma quiet_card s w : quiet_rx s -> frames w = frames (v_card s) -> quiet_rx (v_set_card w s).
Proof. intros (? & ? & ? & ? & ? & Hf) Hw. unfold quiet_rx. cbn. rewrite Hw. done. Qed.

Lemma wp_rwrite off v s (Q : unit -> virtio W -> Prop) E :
  is_Some (v_mmio s) -> (forall w, frames w = frames (v_card s) -> Q tt (v_set_card w s)) -> wp (rwrite off v) s Q E.
Proof. intros Hb HQ. destruct (rwrite_ok off v s Hb) as (w & Ew & Hf & _). unfold wp. rewrite Ew. by apply HQ. Qed.
Lemma wp_rread off s (Q : Z -> virtio W -> Prop) E :
  is_Some (v_mmio s) -> (forall v w, frames w = frames (v_card s) -> Q v (v_set_card w s)) -> wp (rread off) s Q E.
Proof. intros Hb HQ. destruct (rread_ok off s Hb) as (v & w & Ew & Hf & _). unfold wp. rewrite Ew. by apply HQ. Qed.

Definition up s : Prop := quiet_rx s /\ is_Some (v_mmio s).
Lemma up_card s w : up s -> frames w = frames (v_card s) -> up (v_set_card w s).
Proof. intros [Hq Hm] Hw. split; [by apply quiet_card|done]. Qed.

Lemma wp_up_write off v s E : up s -> wp (rwrite off v) s (fun _ => up) E.
Proof. intros Hs. apply wp_rwrite; [apply Hs|]. intros w Hw. by apply up_card. Qed.
Lemma wp_up_read off s E : up s -> wp (rread off) s (fun _ => up) E.
Proof. intros Hs. apply wp_rread; [apply Hs|]. intros v w Hw. by apply up_card. Qed.

(** A register access in front of something that needs the state up. *)
Lemma wp_up_bind {A B} (m : M (virtio W) A) (k : A -> M (virtio W) B) s Q (E : fault -> virtio W -> Prop) :
  (forall f s, E f s) -> wp m s (fun _ => up) E -> (forall a s, up s -> wp (k a) s Q E) -> wp (m ≫= k) s Q E.
Proof. intros HE Hm Hk. apply wp_bind. eapply wp_mono; [exact Hm|intros a s'; apply Hk|done]. Qed.

Ltac up_step := eapply wp_up_bind; [done|first [by apply wp_up_write|by apply wp_up_read]|intros ? ? ?; cbv beta].

Notation anyway := (fun (_ : fault) (_ : virtio W) => True).

Lemma find_up n i s : quiet_rx s -> wp (find_from n i) s (fun _ => quiet_rx) anyway.
Proof.
  revert i s. induction n as [|n IH]; intros i s Hs; cbn [find_from]; [by apply wp_ret|].
  unfold vread32, on_dev. apply wp_bind, wp_zoom. unfold wp at 1. destruct (in_ok (VIRTIO_MMIO_BASE + i * VIRTIO_MMIO_STRIDE) (v_card s)) as (v & w & -> & Hf & _).
  apply wp_bind, wp_zoom. unfold wp at 1. cbn [v_card v_set_card].
  destruct (in_ok (VIRTIO_MMIO_BASE + i * VIRTIO_MMIO_STRIDE + 8) w) as (v2 & w2 & -> & Hf2 & _).
  assert (Hq : quiet_rx (v_set_card w2 (v_set_card w s))) by (apply quiet_card; [by apply quiet_card|done]).
  destruct (_ && _); [apply wp_bind, wp_modify, wp_ret; exact Hq|by apply IH].
Qed.

Lemma setup_up idx mem q s : up s ->
  wp (setup_queue idx mem q) s (fun r s' => up s' /\ (forall q', r = Some q' -> u_idx q' = u_idx q /\ u_ring q' = u_ring q)) anyway.
Proof.
  intros Hs. unfold setup_queue. up_step. up_step. destruct (_ <? _); [by apply wp_ret|].
  do 8 up_step. apply wp_ret. split; [done|]. by intros q' [= <-].
Qed.

Lemma mac_up n i s : up s -> wp (read_vmac n i) s (fun _ => up) anyway.
Proof.
  revert i s. induction n as [|n IH]; intros i s Hs; cbn [read_vmac]; [by apply wp_ret|].
  up_step. apply wp_bind, wp_modify. by apply IH.
Qed.
(** The driver that initialised itself from power-on is ready to receive. *)
Lemma init_ready rx_mem tx_mem rx_buf (w : W) s o :
  frames w = [] -> virtio_hw_init rx_mem tx_mem rx_buf (virtio0 w) = Ok true s o -> rx_ready s.
Proof.
  intros Hw E. cut (wp (virtio_hw_init rx_mem tx_mem rx_buf) (virtio0 w) (fun b s => b = true -> rx_ready s) (fun _ _ => True)).
  { unfold wp. rewrite E. auto. }
  assert (Hq : quiet_rx (virtio0 w)).
  { split_and!; try done. by apply Forall_replicate. }
  unfold virtio_hw_init. apply wp_bind. eapply wp_mono; [by apply find_up| |done]. intros b s1 K1. apply wp_bind, wp_modify.
  destruct b as [b|]; [|by apply wp_ret].
  assert (Hu : up (v_set_dev (Some b) (v_index s1) s1)) by (split; [exact K1|by eexists]). revert Hu. generalize (v_set_dev (Some b) (v_index s1) s1). clear s1 K1 E Hq.
  intros sv1 K1. do 9 up_step. destruct (_ =? 0); [by apply wp_ret|].
  eapply wp_up_bind; [done|by apply mac_up|intros [] sv2 K2; cbv beta]. apply wp_bind, wp_get, wp_bind.
  eapply wp_mono; [by apply setup_up| |done]. intros r sv3 [K3 Hr3].
  destruct r as [q|]; [|by apply wp_ret]. destruct (Hr3 _ eq_refl) as [Hq1 Hq2]. apply wp_bind, wp_modify, wp_bind, wp_get, wp_bind.
  assert (K4 : up (v_set_rxq q sv3)).
  { destruct K2 as [(? & ? & _) _], K3 as [(? & ? & ? & ? & ? & ?) ?]. split; [|done]. unfold quiet_rx. cbn. rewrite Hq1, Hq2. done. }
  eapply wp_mono; [by apply setup_up| |done]. intros r sv5 [K5 _].
  destruct r as [q2|]; [|by apply wp_ret]. apply wp_bind, wp_modify, wp_bind, wp_modify.
  set (sv6 := v_set_rxq _ _). assert (K6 : up sv6) by exact K5.
  assert (Ha : a_idx (rxq sv6) = 16 /\ a_ring (rxq sv6) = seqZ 0 16) by done. clearbody sv6. clear - K6 Ha.
  apply wp_bind, wp_rwrite; [apply K6|]. intros w1 F1. apply wp_bind, wp_rread; [apply K6|]. intros st w2 F2.
  destruct (negb _); [by apply wp_ret|]. apply wp_bind, wp_rwrite; [apply K6|]. intros w3 F3.
  apply wp_bind, wp_rwrite; [apply K6|]. intros w4 F4. apply wp_bind, wp_modify, wp_ret. intros _.
  destruct K6 as [(? & ? & ? & ? & ? & Hf) ?]. cbn in *. destruct Ha. split_and!; try done. cbn. congruence.
Qed.
End Receive.

(** C26: Receiving through the shared queues is a first-in first-out channel.  From
    a driver that has just been initialised, under every interleaving of its polls
    with a device that takes the descriptors offered and returns those it holds,
    in any order, each with a frame of 1 to 1514 bytes: the frames the device
    received are, in order, those the driver has read followed by at most 16 still
    in the queue, and of those read the stack has exactly the ones for which lwIP
    granted a buffer.  The next poll reads the first of the queued frames, asks for
    one buffer and hands the frame on when it is granted, and does nothing when the
    queue is empty.  Every one of the 16 descriptors is in exactly one place:
    among those the driver has not read, those the device holds, or those offered
    to it; so none is lost or used twice, although the 16-bit indices wrap. *)
Theorem virtio_receives {W} `{NicOk W} (s : virtio W) x :
  rx_ready s -> rtc rx_step (Sys s 0 [] []) x ->
  exists done_ queued_ bs,
    done_ ++ queued_ = posted x /\ (length queued_ <= 16)%nat /\
    granted (v_card (drv x)) = granted (v_card s) ++ bs /\ length bs = length done_ /\
    frames (v_card (drv x)) = picked bs done_ /\
    unread x ++ held x ++ offered x ≡ₚ seqZ 0 16 /\
    match queued_ with
    | [] => virtio_input (drv x) = Ok tt (drv x) []
    | f :: _ => exists s' b, virtio_input (drv x) = Ok tt s' [] /\
        granted (v_card s') = granted (v_card (drv x)) ++ [b] /\
        frames (v_card s') = frames (v_card (drv x)) ++ if b : bool then [f] else []
    end.
Proof.
  intros Hs Hr. set (g0 := granted (v_card s)).
  assert (exists D U F pend av, rx_inv g0 x D U F pend av) as (D & U & F & pend & av & I).
  { assert (HI : exists D U F pend av, rx_inv g0 (Sys s 0 [] []) D U F pend av) by (do 5 eexists; by apply ready_inv).
    clear Hs. clearbody g0. induction Hr as [|a b c Hab _ IH]; [done|]. apply IH. destruct HI as (? & ? & ? & ? & ? & I). by eapply step_inv. }
  pose proof (inv_frames _ _ _ _ _ _ _ I) as (dn & bs & Hp & Hg & Hbs & Hfr).
  exists dn, (map (entry_frame (rx_buffers (drv x))) pend), bs.
  pose proof (inv_places _ _ _ _ _ _ _ I) as [Hu Ho].
  split; [done|]. split.
  { pose proof (Permutation_length (inv_perm _ _ _ _ _ _ _ I)) as Hl. rewrite !length_app, length_map, length_seqZ in Hl. rewrite length_map. lia. }
  split; [done|]. split; [done|]. split; [done|]. split; [rewrite Hu, Ho; apply (inv_perm _ _ _ _ _ _ _ I)|].
  destruct pend as [|e pend].
  - by eapply poll_none.
  - destruct (poll_one _ _ _ _ _ _ _ _ I) as (s' & b & E & G & Hf & _). by exists s', b.
Qed.

Definition ready_state {W} (w : W) : virtio W :=
  Virtio (Some 0x0a000000) 0 (replicate 6 0) true (fill_rx (fun i => 0x3000000 + 1536 * i) virtq0) virtq0 0 (replicate 16 (replicate 1536 0)) (replicate 1536 0) w.

Lemma virtio_receives_witness :
  exists x, rtc rx_step (Sys (ready_state (Rig [] [] [])) 0 [] []) x /\ posted x = [[98]; [97]] /\
    unread x ++ held x ++ offered x ≡ₚ seqZ 0 16.
Proof.
  assert (Hr : exists x, rtc rx_step (Sys (ready_state (Rig [] [] [])) 0 [] []) x /\ posted x = [[98]; [97]]).
  { eexists. split.
    - eapply rtc_l; [apply dev_fetch; discriminate|]. eapply rtc_l; [apply dev_fetch; discriminate|].
      eapply rtc_l; [apply (dev_post _ _ [0] 1 [] _ [98]); by compute|].
      eapply rtc_l; [apply (dev_post _ _ [] 0 [] _ [97]); by compute|]. apply rtc_refl.
    - reflexivity. }
  destruct Hr as (x & Hr & Hp). exists x. split; [done|]. split; [done|].
  destruct (virtio_receives (ready_state (Rig [] [] [])) x) as (dn & q & bs & _ & _ & _ & _ & _ & Hd & _); [|done|exact Hd].
  unfold rx_ready. split_and!; try done. by apply Forall_replicate.
Defined.

(** ** Sending *)

(** A device that sends what a descriptor describes when it is notified. *)
Class TxDev (W : Type) `{VirtDev W} := {
  sent_frames : W -> list (list Z);
  tx_sends : forall q b w, exists w',
    dev_tx q b w = Ok (Virtq (q_desc q) (a_flags q) (a_idx q) (a_ring q) (u16 (u_idx q + 1)) (u_ring q)) w' [] /\
    sent_frames w' = sent_frames w ++ [drop 10 (take (Z.to_nat (d_len (aget desc0 (q_desc q) 0))) b)];
  tx_quiet_in : forall p w, exists v w', in_port p w = Ok v w' [] /\ sent_frames w' = sent_frames w;
  tx_quiet_out : forall p v w, exists w', out_port p v w = Ok tt w' [] /\ sent_frames w' = sent_frames w }.

Section Send.
Context {W : Type} `{TxDev W}.
Implicit Type s : virtio W.

Lemma tx_rwrite off v s : is_Some (v_mmio s) -> exists w, rwrite off v s = Ok tt (v_set_card w s) [] /\ sent_frames w = sent_frames (v_card s).
Proof.
  intros [b Hb]. destruct (tx_quiet_out (b + off) v (v_card s)) as (w & E & Hf). exists w. split; [|done].
  unfold rwrite, reg, vwrite32, on_dev, zoom, mbind, M_bind, get, mret, M_ret. rewrite Hb. by rewrite E.
Qed.

Lemma tx_fill_data b p : length b = 1536%nat -> (length p <= 1514)%nat ->
  drop 10 (take (Z.to_nat (10 + zlen p)) (tx_fill b p)) = p.
Proof.
  intros Hb Hp. unfold tx_fill. rewrite (take_ge p) by lia. replace (Z.to_nat (10 + zlen p)) with (10 + length p)%nat by (unfold zlen; lia).
  rewrite take_app_add' by (by rewrite length_replicate). rewrite drop_app_ge by (rewrite length_replicate; lia).
  rewrite length_replicate, Nat.sub_diag, drop_0, take_app_le by lia. by rewrite take_ge by lia.
Qed.

(** Sending a frame that is in one buffer and not too long puts exactly that
    frame on the wire and succeeds. *)
Lemma virtio_output_correct tx_buf s p :
  v_ok s = true -> is_Some (v_mmio s) -> length (tx_buffer s) = 1536%nat -> (0 < length (q_desc (txq s)))%nat -> zlen p <= 1514 ->
  exists s', virtio_output tx_buf [p] s = Ok ERR_OK s' [] /\ sent_frames (v_card s') = sent_frames (v_card s) ++ [p].
Proof.
  intros Hok Hm Hb Hd Hp. unfold virtio_output. rewrite (bind_silent get _ _ _ _ eq_refl), Hok. cbn [negb].
  rewrite !(bind_silent (modify _) _ _ tt _ eq_refl). set (q := Virtq _ _ _ _ _ _). set (s1 := v_set_txq q _).
  assert (Hm1 : is_Some (v_mmio s1)) by exact Hm.
  destruct (tx_rwrite 0x30 1 s1 Hm1) as (w1 & E1 & F1). rewrite (bind_silent _ _ _ _ _ E1).
  destruct (tx_rwrite 0x50 1 (v_set_card w1 s1) Hm1) as (w2 & E2 & F2). rewrite (bind_silent _ _ _ _ _ E2). cbn [v_card v_set_card] in *.
  change (v_set_card w2 (v_set_card w1 s1)) with (v_set_card w2 s1).
  destruct (tx_sends q (tx_buffer s1) w2) as (w3 & E3 & F3). set (q' := Virtq (q_desc q) _ _ _ _ _) in E3.
  rewrite (bind_silent _ _ _ true (v_set_txq q' (v_set_card w3 s1))); cycle 1.
  { apply upto_first. unfold tx_pass. rewrite (bind_silent get _ _ _ _ eq_refl).
    rewrite (bind_silent _ _ _ q' (v_set_card w3 s1)) by (unfold on_dev, zoom; change (txq (v_set_card w2 s1)) with q; change (tx_buffer (v_set_card w2 s1)) with (tx_buffer s1); change (v_card (v_set_card w2 s1)) with w2; by rewrite E3).
    rewrite (bind_silent (modify _) _ _ tt _ eq_refl). unfold mret, M_ret. f_equal. apply negb_true_iff, Z.eqb_neq. cbn [q' u_idx].
    unfold u16. generalize (u_idx q). intros u E. change (2^16) with 65536 in E.
    Z.to_euclidean_division_equations. lia. }
  cbn [negb]. set (s3 := v_set_txq q' _). destruct Hm as [b Hbase]. destruct (tx_quiet_in (b + 0x60) w3) as (v & w4 & E4 & F4).
  rewrite (bind_silent _ _ _ v (v_set_card w4 s3)); cycle 1.
  { unfold rread, reg, vread32, on_dev, zoom, mbind, M_bind, get, mret, M_ret. change (v_mmio s3) with (v_mmio s). rewrite Hbase.
    change (v_card s3) with w3. by rewrite E4. }
  destruct (tx_rwrite 0x64 v (v_set_card w4 s3)) as (w5 & E5 & F5); [by exists b|]. rewrite (bind_silent _ _ _ _ _ E5).
  eexists. split; [reflexivity|]. cbn [v_card v_set_card] in *. rewrite F5, F4, F3, F2, F1.
  change (tx_buffer s1) with (tx_fill (tx_buffer s) p). cbn [q q_desc].
  rewrite aget_aset_eq by (unfold zlen; lia). cbn [d_len]. rewrite u32_id by (pose proof (zlen_nonneg p); lia).
  by rewrite tx_fill_data by (done || unfold zlen in *; lia).
Qed.
End Send.

(** A card that records what is sent. *)
Record vwire := VWire { v_rig : rig; v_sent : list (list Z) }.
Definition on_rig {A} (m : M rig A) : M vwire A := zoom v_rig (fun r w => VWire r (v_sent w)) m.
#[export] Instance vwire_nic : Nic vwire := {|
  in_port p := on_rig (in_port p); out_port p v := on_rig (out_port p v); pci_r32 b d r := on_rig (pci_r32 b d r);
  pci_w32 b d r v := on_rig (pci_w32 b d r v); pbuf_alloc n := on_rig (pbuf_alloc n); netif_input f := on_rig (netif_input f) |}.
#[export] Instance vwire_dev : VirtDev vwire := {|
  dev_tx q b w := Ok (Virtq (q_desc q) (a_flags q) (a_idx q) (a_ring q) (u16 (u_idx q + 1)) (u_ring q))
                     (VWire (v_rig w) (v_sent w ++ [drop 10 (take (Z.to_nat (d_len (aget desc0 (q_desc q) 0))) b)])) [] |}.
#[export] Instance vwire_tx : TxDev vwire.
Proof. refine {| sent_frames := v_sent |}; intros; cbn; repeat eexists. Defined.

Lemma virtio_output_correct_witness :
  exists s', virtio_output 0 [[1; 2; 3]] (ready_state (VWire (Rig [] [] []) [])) = Ok ERR_OK s' [] /\ sent_frames (v_card s') = [[1; 2; 3]].
Proof.
  destruct (virtio_output_correct 0 (ready_state (VWire (Rig [] [] []) [])) [1; 2; 3]) as (s' & E & F); [done|by eexists|done|cbn; lia|done|].
  exists s'. split; [exact E|exact F].
Defined.

(** ** What the driver gets wrong *)

(** Of a frame in several buffers only the first is sent, as a whole frame. *)
Lemma chain_is_cut :
  match virtio_output 0 [[1; 2; 3]; [4; 5]] (ready_state (VWire (Rig [] [] []) [])) with
  | Ok ERR_OK s' _ => sent_frames (v_card s') = [[1; 2; 3]]
  | _ => False
  end.
Proof. vm_compute. reflexivity. Qed.

(** A buffer of more than 1514 bytes is announced with its full length: what
    follows the copied bytes in memory goes out with it. *)
Lemma long_buffer_leaks :
  match virtio_output 0 [replicate 1520 7] (ready_state (VWire (Rig [] [] []) [])) with
  | Ok ERR_OK s' _ => sent_frames (v_card s') = [replicate 1514 7 ++ replicate 6 0]
  | _ => False
  end.
Proof. vm_compute. reflexivity. Qed.

(** The descriptor number of the device is not checked. *)
Lemma bad_descriptor_faults :
  let s := ready_state (Rig [] [] []) in
  result (virtio_input (v_set_rxq (post_used 16 60 (rxq s)) s)) = inr OutOfBounds.
Proof. vm_compute. reflexivity. Qed.
