(* ===== verification/E1000.v ===== *)
(** * Intel e1000 network driver ([lwip/port/netif/e1000.h])

    The driver keeps 32 descriptors of 16 bytes and the packets in the same
    memory: packet [idx] starts behind descriptor [idx], where descriptor
    [idx+1] is.  The two areas are byte arrays.  Registers, buffers and
    [netif->input] are the interface [Nic] of [Rtl.v]; what the device does to
    the transmit area while the driver waits is [E1000Dev]. *)

From Stdlib Require Import ZArith Lia.
From stdpp Require Import base numbers list list_numbers strings.
From S2P Require Import Prelude CLib Console Sha256 Rtl Net.

Notation E1000_RX_SZ := 8192 (only parsing).
Notation E1000_TX_SZ := 4096 (only parsing).
Notation E1000_MAX_DESC := 32 (only parsing).
Notation TX_BASE := 0x03020000 (only parsing).

Class E1000Dev (W : Type) `{Nic W} := { tx_idle : list Z -> M W (list Z) }.

Record e1000 (W : Type) := E1000 {
  e_mmio : Z; e_mac : list Z; e_ok : bool; tx_idx : Z; rx_idx : Z;
  tx_mem : list Z; rx_mem : list Z; e_card : W }.
Arguments E1000 {W}.
Arguments e_mmio {W}.
Arguments e_mac {W}.
Arguments e_ok {W}.
Arguments tx_idx {W}.
Arguments rx_idx {W}.
Arguments tx_mem {W}.
Arguments rx_mem {W}.
Arguments e_card {W}.

Definition e1000_0 {W} (w : W) : e1000 W :=
  E1000 0 [0x52; 0x54; 0x00; 0x12; 0x34; 0x56] false 0 0 (replicate (Z.to_nat E1000_TX_SZ) 0) (replicate (Z.to_nat E1000_RX_SZ) 0) w.

(** Fields of a descriptor: [length] at 8, [cmd] at 11, [status] at 12. *)
Definition le_bytes (n : nat) (v : Z) : list Z := map (fun i => Z.land (Z.shiftr v (8 * i)) 255) (seqZ 0 (Z.of_nat n)).
Definition at_desc (idx off : Z) : Z := idx * 16 + off.

Section Driver.
Context {W : Type} `{E1000Dev W}.
Implicit Type s : e1000 W.

Definition e_set_card (w : W) s := E1000 (e_mmio s) (e_mac s) (e_ok s) (tx_idx s) (rx_idx s) (tx_mem s) (rx_mem s) w.
Definition e_set_mmio (b : Z) s := E1000 b (e_mac s) (e_ok s) (tx_idx s) (rx_idx s) (tx_mem s) (rx_mem s) (e_card s).
Definition e_set_tx (m : list Z) s := E1000 (e_mmio s) (e_mac s) (e_ok s) (tx_idx s) (rx_idx s) m (rx_mem s) (e_card s).
Definition e_set_rx (m : list Z) s := E1000 (e_mmio s) (e_mac s) (e_ok s) (tx_idx s) (rx_idx s) (tx_mem s) m (e_card s).
Definition e_set_idx (ok : bool) (t r : Z) s := E1000 (e_mmio s) (e_mac s) ok t r (tx_mem s) (rx_mem s) (e_card s).

Definition on_e {A} (m : M W A) : M (e1000 W) A := zoom e_card e_set_card m.
Definition e1000_read32 (off : Z) : M (e1000 W) Z := s ← get; on_e (in_port (e_mmio s + off)).
Definition e1000_write32 (off v : Z) : M (e1000 W) unit := s ← get; on_e (out_port (e_mmio s + off) v).

(** One pass of the wait: the device, then the status. *)
Definition free_pass (idx : Z) : M (e1000 W) bool :=
  s ← get;
  m ← on_e (tx_idle (tx_mem s));
  modify (e_set_tx m) ;; mret (Z.land (aget 0 m (at_desc idx 12)) 1 =? 0).

(** The fields written after the packet, in order. *)
Definition fill_desc (idx len : Z) (m : list Z) : list Z :=
  let m := put m (at_desc idx 0) (le_bytes 8 (TX_BASE + idx * 16 + 16)) in
  let m := put m (at_desc idx 8) (le_bytes 2 len) in
  let m := aset m (at_desc idx 11) 0x09 in
  aset m (at_desc idx 12) 0.

Definition e1000_output (chain : list (list Z)) : M (e1000 W) err_t :=
  s ← get;
  if negb (e_ok s) || (e_mmio s =? 0) then mret ERR_IF
  else
    let idx := tx_idx s in
    _ ← upto 100000 (free_pass idx);
    let buf := gather chain [] in
    modify (fun s => e_set_tx (fill_desc idx (zlen buf) (put (tx_mem s) (at_desc idx 16) buf)) s) ;;
    e1000_write32 0x3818 idx ;;
    modify (fun s => e_set_idx (e_ok s) (Z.land (tx_idx s + 1) 0x1F) (rx_idx s) s) ;;
    mret ERR_OK.

(** One pass of the receive loop; [false] is the [break]. *)
Definition e1000_packet : M (e1000 W) bool :=
  s ← get;
  let idx := rx_idx s in
  in_array E1000_RX_SZ (at_desc idx 12) ;;
  if Z.land (aget 0 (rx_mem s) (at_desc idx 12)) 1 =? 0 then mret false
  else
    let len := ld16 (rx_mem s) (at_desc idx 8) in
    (if (0 <? len) && (len <=? 1518) then
       p ← on_e (pbuf_alloc len);
       if (p : bool) then on_e (netif_input (take (Z.to_nat len) (drop (Z.to_nat (at_desc idx 16)) (rx_mem s)))) else mret tt
     else mret tt) ;;
    modify (fun s => e_set_rx (aset (rx_mem s) (at_desc idx 12) 0) s) ;;
    e1000_write32 0x3808 (Z.land (idx + 1) 0x1F) ;;
    modify (fun s => e_set_idx (e_ok s) (tx_idx s) (Z.land (rx_idx s + 1) 0x1F) s) ;;
    mret true.
Fixpoint e1000_packets (n : nat) : M (e1000 W) unit :=
  match n with
  | O => mret tt
  | S n' => go ← e1000_packet; if (go : bool) then e1000_packets n' else mret tt
  end.
(** [false] for [ERR_VAL]. *)
Definition e1000_input : M (e1000 W) bool :=
  s ← get;
  if negb (e_ok s) || (e_mmio s =? 0) then mret false else e1000_packets 16 ;; mret true.

Definition e1000_init : M (e1000 W) netif := s ← get; mret (NetIf (cs "et") 1500 0x0E (e_mac s) 6).

Fixpoint find_e1000 (slots : list (Z * Z)) : M (e1000 W) (option Z) :=
  match slots with
  | [] => mret None
  | (b, d) :: slots' =>
      id ← on_e (pci_r32 b d 0);
      if (id =? 0x10088086) || (id =? 0x10098086) then
        bar0 ← on_e (pci_r32 b d 0x10);
        if negb (Z.land bar0 1 =? 0) then mret (Some (Z.land bar0 (Z.lnot 1))) else find_e1000 slots'
      else find_e1000 slots'
  end.

Definition e1000_regs : list (Z * Z) :=
  [(0x0000, 0); (0x00D0, 0); (0x00D8, 0);
   (0x3800, 0x02020000); (0x3804, 0x80000000); (0x3808, 0x03020000); (0x3810, E1000_MAX_DESC * 16); (0x3818, 0); (0x0400, 0x00040000); (0x0404, 0x10);
   (0x2800, 0x02020000); (0x2804, 0x80000000); (0x2808, 0x03000000); (0x2810, E1000_MAX_DESC * 16); (0x2814, 0); (0x2818, E1000_MAX_DESC - 1);
   (0x2600, 1); (0x2604, 0); (0x0000, 6)].

Definition e1000_hw_init : M (e1000 W) bool :=
  r ← find_e1000 pci_slots;
  modify (e_set_mmio (default 0xFE000000 r)) ;;
  s ← get;
  if e_mmio s =? 0 then mret false
  else
    mapM_ (fun rv => e1000_write32 rv.1 rv.2) e1000_regs ;;
    modify (e_set_idx true 0 0) ;; mret true.

End Driver.

(** ** Receiving is safe whatever the card wrote *)

Definition e_areas {W} (s : e1000 W) : Prop :=
  zlen (tx_mem s) = E1000_TX_SZ /\ zlen (rx_mem s) = E1000_RX_SZ /\ bytes_ok (rx_mem s) /\ 0 <= tx_idx s < 32 /\ 0 <= rx_idx s < 32.

Lemma and31 n : 0 <= n -> 0 <= Z.land n 0x1F < 32.
Proof. intros Hn. change 0x1F with (Z.ones 5). rewrite Z.land_ones by lia. apply Z.mod_pos_bound. lia. Qed.

Section Receive.
Context {W : Type} `{NicOk W}.
Implicit Type s : e1000 W.

Lemma e_write_ok off v s : exists w, e1000_write32 off v s = Ok tt (e_set_card w s) [] /\ frames w = frames (e_card s).
Proof.
  destruct (out_ok (e_mmio s + off) v (e_card s)) as (w & E & F & _). exists w. split; [|done].
  unfold e1000_write32, on_e, zoom, mbind, M_bind, get. by rewrite E.
Qed.

(** One pass: at most one frame, of a length the code accepts. *)
Lemma e1000_packet_ok s : e_areas s ->
  exists go s' fs, e1000_packet s = Ok go s' [] /\ e_areas s' /\ frames (e_card s') = frames (e_card s) ++ fs /\
    (length fs <= 1)%nat /\ Forall (fun f => 0 < zlen f <= 1518) fs.
Proof.
  intros (Ht & Hr & Hb & Hti & Hri). unfold e1000_packet. rewrite (bind_silent get _ _ _ _ eq_refl).
  assert (Hd : 0 <= at_desc (rx_idx s) 12 < E1000_RX_SZ) by (unfold at_desc; lia).
  rewrite (bind_silent (in_array _ _) _ _ _ _ (in_array_ok s _ _ Hd)).
  destruct (_ =? 0). { exists false, s, []. rewrite app_nil_r. split_and!; try done. by simpl; lia. }
  set (len := ld16 (rx_mem s) (at_desc (rx_idx s) 8)). set (f := take (Z.to_nat len) (drop (Z.to_nat (at_desc (rx_idx s) 16)) (rx_mem s))).
  assert (Hf : exists w fs, (if (0 <? len) && (len <=? 1518) then p ← on_e (pbuf_alloc len); if (p : bool) then on_e (netif_input f) else mret tt else mret tt) s =
    Ok tt (e_set_card w s) [] /\ frames w = frames (e_card s) ++ fs /\ (length fs <= 1)%nat /\ Forall (fun f => 0 < zlen f <= 1518) fs).
  { destruct ((0 <? len) && (len <=? 1518)) eqn:El.
    - bool_to_prop. destruct (alloc_ok len (e_card s)) as (b & w1 & E1 & F1).
      rewrite (bind_silent _ _ _ b (e_set_card w1 s)) by (unfold on_e, zoom; by rewrite E1). destruct b.
      + destruct (input_ok f w1) as (w2 & E2 & F2). exists w2, [f]. split_and!; [unfold on_e, zoom; cbn [e_card e_set_card]; by rewrite E2|congruence|done|].
        apply Forall_singleton. subst f. unfold zlen in *. rewrite length_take, length_drop. unfold at_desc. lia.
      + exists w1, []. rewrite app_nil_r. by split_and!; try (simpl; lia).
    - exists (e_card s), []. rewrite app_nil_r. split_and!; try done; [by destruct s|by simpl; lia]. }
  destruct Hf as (w & fs & E & Ff & Hl & Hfs). rewrite (bind_silent _ _ _ _ _ E). rewrite (bind_silent (modify _) _ _ tt _ eq_refl).
  match goal with |- context [(e1000_write32 0x3808 ?v ≫= _) ?s1] => destruct (e_write_ok 0x3808 v s1) as (w2 & E2 & F2) end.
  rewrite (bind_silent _ _ _ _ _ E2), (bind_silent (modify _) _ _ tt _ eq_refl). eexists true, _, fs. split; [reflexivity|]. cbn in F2 |- *.
  split; [|split_and!; [congruence|done|done]]. pose proof (and31 (rx_idx s + 1)).
  unfold e_areas. cbn. rewrite zlen_aset. split_and!; try lia. by apply Forall_aset.
Qed.

(** A poll of any memory ends without a fault, hands over at most 16 frames of
    lengths the stack accepts, and keeps the indices in range. *)
Lemma e1000_poll_safe s : e_areas s ->
  exists b s' fs, e1000_input s = Ok b s' [] /\ e_areas s' /\ frames (e_card s') = frames (e_card s) ++ fs /\
    (length fs <= 16)%nat /\ Forall (fun f => 0 < zlen f <= 1518) fs.
Proof.
  intros Hs. assert (G : forall n s, e_areas s -> exists s' fs, e1000_packets n s = Ok tt s' [] /\ e_areas s' /\ frames (e_card s') = frames (e_card s) ++ fs /\
    (length fs <= n)%nat /\ Forall (fun f => 0 < zlen f <= 1518) fs).
  { clear s Hs. induction n as [|n IH]; intros s Hs; cbn [e1000_packets].
    - exists s, []. rewrite app_nil_r. by split_and!.
    - destruct (e1000_packet_ok s Hs) as (go & s1 & f1 & E1 & H1' & F1 & L1 & A1). rewrite (bind_silent _ _ _ _ _ E1). destruct go.
      + destruct (IH s1 H1') as (s2 & f2 & E2 & H2' & F2 & L2 & A2). exists s2, (f1 ++ f2). split_and!; [done|done| | |by apply Forall_app].
        * by rewrite F2, F1, app_assoc.
        * rewrite length_app. lia.
      + exists s1, f1. split_and!; try done. lia. }
  unfold e1000_input. rewrite (bind_silent get _ _ _ _ eq_refl). destruct (_ || _).
  - exists false, s, []. rewrite app_nil_r. split_and!; try done. by simpl; lia.
  - destruct (G 16%nat s Hs) as (s' & fs & E & R). exists true, s', fs. split; [|exact R]. by rewrite (bind_silent _ _ _ _ _ E).
Qed.
End Receive.

(** ** Sending *)

Lemma fill_desc_keeps idx len m i :
  0 <= idx < 32 -> zlen m = E1000_TX_SZ -> at_desc idx 16 <= i -> aget 0 (fill_desc idx len m) i = aget 0 m i.
Proof.
  intros Hidx Hm Hi. unfold at_desc in Hi. unfold fill_desc.
  rewrite !aget_aset_ne by (unfold at_desc; lia).
  assert (P : forall b pos d, 0 <= pos -> pos + zlen d <= i -> zlen b = E1000_TX_SZ -> pos + zlen d <= E1000_TX_SZ ->
    aget 0 (put b pos d) i = aget 0 b i /\ zlen (put b pos d) = E1000_TX_SZ).
  { intros b pos d Hp Hd Hb Hs. unfold put, aget, zlen in *. split.
    - rewrite app_nth2 by (rewrite length_take; lia). rewrite app_nth2 by (rewrite length_take; lia). rewrite nth_skipn. f_equal. rewrite length_take. lia.
    - rewrite !length_app, length_take, length_drop. lia. }
  assert (L1 : zlen (le_bytes 8 (TX_BASE + idx * 16 + 16)) = 8) by done. assert (L2 : zlen (le_bytes 2 len) = 2) by done.
  destruct (P m (at_desc idx 0) (le_bytes 8 (TX_BASE + idx * 16 + 16))) as [E1 E2]; unfold at_desc; [lia|lia|done|lia|].
  destruct (P (put m (at_desc idx 0) (le_bytes 8 (TX_BASE + idx * 16 + 16))) (at_desc idx 8) (le_bytes 2 len)) as [E3 _]; unfold at_desc in *; [lia|lia|done|lia|].
  by rewrite E3, E1.
Qed.

(** The status byte of descriptor [idx+1] is byte 12 of the packet sent with
    descriptor [idx]: the next call waits for a bit of that packet. *)
Lemma next_status_is_data idx buf m :
  0 <= idx < 31 -> zlen m = E1000_TX_SZ -> 12 < zlen buf <= 1514 ->
  aget 0 (fill_desc idx (zlen buf) (put m (at_desc idx 16) buf)) (at_desc (idx + 1) 12) = aget 0 buf 12.
Proof.
  intros Hidx Hm Hb. rewrite fill_desc_keeps; [|lia| |unfold at_desc; lia].
  - unfold put, aget, at_desc, zlen in *. rewrite app_nth2 by (rewrite length_take; lia). rewrite length_take, app_nth1 by lia. f_equal. lia.
  - unfold put, at_desc, zlen in *. rewrite !length_app, length_take, length_drop. lia.
Qed.

(** ** What the driver gets wrong *)

#[export] Instance rig_e1000 : E1000Dev rig := {| tx_idle m := mret m |}.
Definition e_sample : e1000 rig := e_set_mmio 0xFE000000 (e_set_idx true 0 0 (e1000_0 (Rig [] [] []))).

Definition packet_at {W} (s : e1000 W) (idx len : Z) : list Z := take (Z.to_nat len) (drop (Z.to_nat (at_desc idx 16)) (tx_mem s)).

(** The second packet overwrites the first, which the card may not have sent. *)
Lemma second_packet_overwrites_the_first :
  let s1 := post (e1000_output [replicate 60 7] e_sample) in
  let s2 := post (e1000_output [replicate 60 8] s1) in
  packet_at s1 0 60 = replicate 60 7 /\ packet_at s2 0 60 <> replicate 60 7.
Proof. split; [vm_compute; reflexivity|]. vm_compute. discriminate. Qed.

(** Receiving reports its position to register 0x3808, which the initialisation
    set as the base of the transmit descriptors (0x2818 is the one it uses for
    the receive position). *)
Lemma receive_sets_the_transmit_base :
  let s := e_set_rx (aset (rx_mem e_sample) 12 1) e_sample in
  outs (e_card (post (e1000_input s))) = [(0xFE003808, 1)] /\ (0x3808, 0x03020000) ∈ e1000_regs /\ (0x2818, 31) ∈ e1000_regs.
Proof. split_and!; [vm_compute; reflexivity| |]; apply (bool_decide_unpack _); vm_compute; exact I. Qed.

(** A bus with one card, whose address register is the state. *)
#[local] Instance bar_nic : Nic Z := {|
  in_port _ := mret 0; out_port _ _ := mret tt; pci_r32 _ _ r := (bar ← get; mret (if r =? 0 then 0x10088086 else bar));
  pci_w32 _ _ _ _ := mret tt; pbuf_alloc _ := mret true; netif_input _ := mret tt |}.

(** A memory address of the card (bit 0 clear) is ignored: only an I/O address
    is taken, and then used as a memory address. *)
Lemma memory_bar_is_ignored bar slot :
  result (find_e1000 [slot] (e1000_0 bar)) = inl (if Z.land bar 1 =? 0 then None else Some (Z.land bar (Z.lnot 1))).
Proof. destruct slot as [b d]. unfold result, find_e1000. cbv -[Z.land Z.lnot]. by destruct (Z.land bar 1). Qed.
