(* ===== verification/Asn1.v ===== *)
(** * ASN.1 ([crypto/asn1.h])

    The DER parser fills a table of 256 nodes in preorder; a constructed node
    addresses its children as [child_start], [child_start+1], ...  Pointers into
    the message are offsets; reading outside the message is a fault.  The nodes
    in use are a list. *)

From Stdlib Require Import ZArith Lia.
From stdpp Require Import base numbers list list_numbers option strings.
From S2P Require Import Prelude CLib Console.

Notation ASN1_MAX_DEPTH := 16%nat (only parsing).
Notation ASN1_MAX_NODES := 256 (only parsing).

(** ** Data *)

Record Asn1Node := ANode { tag : Z; len : Z; val : Z; children : Z; child_start : Z }.
Notation tree := (list Asn1Node) (only parsing).

Definition node0 : Asn1Node := ANode 0 0 0 0 0.
Definition set_start (z : Z) (n : Asn1Node) : Asn1Node := ANode (tag n) (len n) (val n) (children n) z.
Definition add_child (n : Asn1Node) : Asn1Node := ANode (tag n) (len n) (val n) (children n + 1) (child_start n).
Definition upd (t : tree) (i : Z) (f : Asn1Node -> Asn1Node) : tree := aset t i (f (aget node0 t i)).

Record X509Cert := Cert {
  n_bytes : list Z; nlen : Z; e_bytes : list Z; elen : Z; cn : list Z; not_before : list Z; not_after : list Z }.
Definition cert0 : X509Cert :=
  Cert (replicate 256 0) 0 (replicate 8 0) 0 (replicate 128 0) (replicate 32 0) (replicate 32 0).

Section Parser.

(** The message. *)
Context (data : list Z).

Definition byte_at {T} (p : Z) : M T Z := in_array (zlen data) p ;; mret (aget 0 data p).

(** ** Parsing *)

Fixpoint len_loop {T} (n : nat) (p acc : Z) : M T Z :=
  match n with
  | O => mret acc
  | S n' => b ← byte_at p; len_loop n' (p + 1) (u32 (Z.lor (Z.shiftl acc 8) b))
  end.

(** The length and the number of bytes it takes, 0 when it is malformed. *)
Definition asn1_parse_len {T} (p max : Z) : M T (Z * Z) :=
  if max <? 1 then mret (0, 0)
  else
    b ← byte_at p;
    if b <? 128 then mret (b, 1)
    else
      let nb := Z.land b 127 in
      if (4 <? nb) || (max <? 1 + nb) then mret (0, 0)
      else l ← len_loop (Z.to_nat nb) (p + 1) 0; mret (l, 1 + nb).

(** The loop over the contents of node [idx]; [node] parses one child. *)
Fixpoint asn1_children (node : Z -> Z -> M tree Z) (fuel : nat) (idx cp rem : Z) : M tree unit :=
  match fuel with
  | O => fail StackOverflow
  | S f =>
      if 0 <? rem then
        ci ← node cp rem;
        if ci <? 0 then mret tt
        else
          modify (fun t => upd t idx add_child) ;;
          t ← get;
          l ← (if 2 <=? rem then asn1_parse_len (cp + 1) (rem - 1) else mret (0, 0));
          let ctot := u32 (1 + l.2 + len (aget node0 t ci)) in
          if ctot =? 0 then mret tt
          else if u32 (rem - ctot) =? 0 then mret tt
          else asn1_children node f idx (cp + ctot) (u32 (rem - ctot))
      else mret tt
  end.

(** [d]: the levels left, [ASN1_MAX_DEPTH-depth]. *)
Fixpoint asn1_parse_node (d : nat) (p max : Z) : M tree Z :=
  t ← get;
  match d with
  | O => mret (-1)
  | S d' =>
      if (ASN1_MAX_NODES <=? zlen t) || (max <? 2) then mret (-1)
      else
        tg ← byte_at p;
        l ← asn1_parse_len (p + 1) (max - 1);
        let v := p + 1 + l.2 in
        modify (fun t => t ++ [ANode tg l.1 v 0 0]) ;;
        if max <? u32 (1 + l.2 + l.1) then mret (-1)
        else if negb (Z.land tg 32 =? 0) && (0 <? l.1) then
          modify (fun t' => upd t' (zlen t) (set_start (zlen t'))) ;;
          asn1_children (asn1_parse_node d') 257 (zlen t) v l.1 ;;
          mret (zlen t)
        else mret (zlen t)
  end.

Definition asn1_parse (p n : Z) : M tree Z := modify (fun _ => []) ;; asn1_parse_node ASN1_MAX_DEPTH p n.

(** ** Access *)

Definition asn1_child {T} (t : tree) (parent : Asn1Node) (idx : Z) : M T (option Asn1Node) :=
  if (idx <? 0) || (children parent <=? idx) then mret None
  else in_array (zlen t) (child_start parent + idx) ;; mret (Some (aget node0 t (child_start parent + idx))).

Definition asn1_find_seq (t : tree) (start : Z) : option Asn1Node :=
  find (fun n => tag n =? 48) (drop (Z.to_nat start) t).

Fixpoint find_child {T} (p : Asn1Node -> M T (option Asn1Node)) (t : tree) (parent : Asn1Node) (ks : list Z) : M T (option Asn1Node) :=
  match ks with
  | [] => mret None
  | i :: ks' =>
      c ← asn1_child t parent i;
      match c with
      | Some c => r ← p c; match r with Some n => mret (Some n) | None => find_child p t parent ks' end
      | None => find_child p t parent ks'
      end
  end.

Definition asn1_find_tag {T} (t : tree) (parent : Asn1Node) (tg : Z) : M T (option Asn1Node) :=
  find_child (fun c => mret (if tag c =? tg then Some c else None)) t parent (seqZ 0 (children parent)).

Fixpoint asn1_find_tag_deep {T} (fuel : nat) (t : tree) (parent : Asn1Node) (tg : Z) : M T (option Asn1Node) :=
  match fuel with
  | O => fail StackOverflow
  | S f =>
      find_child (fun c => if tag c =? tg then mret (Some c) else asn1_find_tag_deep f t c tg) t parent (seqZ 0 (children parent))
  end.

Fixpoint read_bytes {T} (p : Z) (n : nat) : M T (list Z) :=
  match n with
  | O => mret []
  | S n' => b ← byte_at p; bs ← read_bytes (p + 1) n'; mret (b :: bs)
  end.

(** [p[0]==x&&p[1]==y&&...] *)
Fixpoint bytes_are {T} (p : Z) (bs : list Z) : M T bool :=
  match bs with
  | [] => mret true
  | x :: bs' => b ← byte_at p; if b =? x then bytes_are (p + 1) bs' else mret false
  end.

(** [kmc(out,...,l)] into an array. *)
Definition put_bytes (out bs : list Z) : list Z := bs ++ drop (length bs) out.

Definition asn1_extract_str {T} (out : list Z) (maxout : Z) (n : Asn1Node) : M T (list Z) :=
  if len n =? 0 then mret (aset out 0 0)
  else
    let l := if len n <? maxout - 1 then len n else maxout - 1 in
    bs ← read_bytes (val n) (Z.to_nat l);
    mret (aset (put_bytes out bs) l 0).

(** ** Certificates *)

Definition set_cn (s : list Z) (c : X509Cert) := Cert (n_bytes c) (nlen c) (e_bytes c) (elen c) s (not_before c) (not_after c).
Definition set_dates (b a : list Z) (c : X509Cert) := Cert (n_bytes c) (nlen c) (e_bytes c) (elen c) (cn c) b a.
Definition set_n (l : Z) (s : list Z) (c : X509Cert) := Cert s l (e_bytes c) (elen c) (cn c) (not_before c) (not_after c).
Definition set_e (l : Z) (s : list Z) (c : X509Cert) := Cert (n_bytes c) (nlen c) s l (cn c) (not_before c) (not_after c).

(** A local [Asn1Tree]: the result and the table. *)
Definition with_tree {T A} (m : M tree A) : M T (A * tree) := fun s =>
  match m [] with Ok a t o => Ok (a, t) s o | Err f _ o => Err f s o end.

Definition child_opt (t : tree) (p : option Asn1Node) (i : Z) : M X509Cert (option Asn1Node) :=
  match p with Some p => asn1_child t p i | None => mret None end.

(** One relative name of the subject. *)
Definition x509_name (t : tree) (subject : Asn1Node) (i : Z) : M X509Cert unit :=
  rset ← asn1_child t subject i;
  rseq ← child_opt t rset 0;
  match rseq with
  | None => mret tt
  | Some rseq =>
      oid ← asn1_child t rseq 0;
      v ← asn1_child t rseq 1;
      match oid, v with
      | Some oid, Some v =>
          if (tag oid =? 6) && (3 <=? len oid) then
            is_cn ← bytes_are (val oid) [85; 4; 3];
            if is_cn : bool then c ← get; s ← asn1_extract_str (cn c) 128 v; modify (set_cn s) else mret tt
          else mret tt
      | _, _ => mret tt
      end
  end.

Definition x509_validity (t : tree) (validity : Asn1Node) : M X509Cert unit :=
  nb ← asn1_child t validity 0;
  na ← asn1_child t validity 1;
  c ← get;
  b ← (match nb with Some n => asn1_extract_str (not_before c) 32 n | None => mret (not_before c) end);
  a ← (match na with Some n => asn1_extract_str (not_after c) 32 n | None => mret (not_after c) end);
  modify (set_dates b a).

Definition x509_modulus (m : Asn1Node) : M X509Cert unit :=
  let l := if len m <? 256 then len m else 256 in
  c ← get;
  zero ← (if 0 <? len m then b ← byte_at (val m); mret (b =? 0) else mret false);
  if zero : bool then
    let l' := if l - 1 <? 256 then l - 1 else 256 in
    bs ← read_bytes (val m + 1) (Z.to_nat l'); modify (set_n l' (put_bytes (n_bytes c) bs))
  else bs ← read_bytes (val m) (Z.to_nat l); modify (set_n l (put_bytes (n_bytes c) bs)).

Definition x509_exponent (e : Asn1Node) : M X509Cert unit :=
  let l := if len e <? 8 then len e else 8 in
  c ← get; bs ← read_bytes (val e) (Z.to_nat l); modify (set_e l (put_bytes (e_bytes c) bs)).

Definition x509_pubkey (t : tree) (pubkey : Asn1Node) : M X509Cert unit :=
  algo ← asn1_child t pubkey 0;
  bits ← asn1_child t pubkey 1;
  match bits with
  | Some bits =>
      if tag bits =? 3 then
        let bp := if 1 <? len bits then val bits + 1 else val bits in
        r ← with_tree (asn1_parse bp (u32 (len bits - 1)));
        if 0 <=? r.1 then
          let seq := aget node0 r.2 0 in
          if (tag seq =? 48) && (2 <=? children seq) then
            md ← asn1_child r.2 seq 0;
            ex ← asn1_child r.2 seq 1;
            (match md with Some m => if tag m =? 2 then x509_modulus m else mret tt | None => mret tt end) ;;
            (match ex with Some e => if tag e =? 2 then x509_exponent e else mret tt | None => mret tt end)
          else mret tt
        else mret tt
      else mret tt
  | None => mret tt
  end.

Definition x509_parse_cert (dlen : Z) : M X509Cert Z :=
  modify (fun _ => cert0) ;;
  r ← with_tree (asn1_parse 0 dlen);
  if r.1 <? 0 then mret (-1)
  else
    let t := r.2 in
    let root := aget node0 t 0 in
    if negb (tag root =? 48) then mret (-1)
    else
      tbs ← asn1_child t root 0;
      match tbs with
      | Some tbs =>
          if negb (tag tbs =? 48) then mret (-1)
          else
            ver ← asn1_child t tbs 0;
            let off := match ver with Some v => if tag v =? 160 then 1 else 0 | None => 0 end in
            subject ← asn1_child t tbs (5 + off);
            (match subject with Some s => mapM_ (x509_name t s) (seqZ 0 (children s)) | None => mret tt end) ;;
            validity ← asn1_child t tbs (4 + off);
            (match validity with Some v => x509_validity t v | None => mret tt end) ;;
            pubkey ← asn1_child t tbs (6 + off);
            (match pubkey with Some k => x509_pubkey t k | None => mret tt end) ;;
            mret 0
      | None => mret (-1)
      end.

End Parser.

(** ** Any input: termination and a well-formed table *)

(** Every child a node claims lies behind it in the table. *)
Definition node_wf (n i : Z) (nd : Asn1Node) : Prop :=
  0 <= children nd /\ i + children nd < n /\ (children nd = 0 \/ child_start nd = i + 1).
Definition tree_wf (t : tree) : Prop :=
  zlen t <= ASN1_MAX_NODES /\ forall i, 0 <= i < zlen t -> node_wf (zlen t) i (aget node0 t i).

(** [t'] keeps the nodes of [t] below [b]. *)
Definition grows (b : Z) (t t' : tree) : Prop := zlen t <= zlen t' /\ forall i, 0 <= i < b -> aget node0 t' i = aget node0 t i.

Lemma grows_refl b t : grows b t t.
Proof. by split. Qed.
Lemma grows_trans b t1 t2 t3 : grows b t1 t2 -> grows b t2 t3 -> grows b t1 t3.
Proof. intros [? H1] [? H2]. split; [lia|]. intros i Hi. by rewrite H2, H1. Qed.
Lemma grows_le b b' t t' : b' <= b -> grows b t t' -> grows b' t t'.
Proof. intros ? [? H]. split; [done|]. intros i Hi. apply H. lia. Qed.

Lemma zlen_asn1_upd t i f : zlen (upd t i f) = zlen t.
Proof. apply zlen_aset. Qed.
Lemma aget_snoc (t : tree) x i : 0 <= i < zlen t -> aget node0 (t ++ [x]) i = aget node0 t i.
Proof. unfold aget, zlen. intros Hi. rewrite app_nth1 by lia. done. Qed.
Lemma aget_last (t : tree) x : aget node0 (t ++ [x]) (zlen t) = x.
Proof. unfold aget, zlen. rewrite Nat2Z.id, app_nth2, Nat.sub_diag by lia. done. Qed.

Definition oob {T} (f : fault) (_ : T) : Prop := f = OutOfBounds.

Section Any.
Context (data : list Z).

Lemma byte_at_wp {T} p (s : T) (Q : Z -> T -> Prop) : (forall b, Q b s) -> wp (byte_at data p) s Q oob.
Proof. intros HQ. unfold byte_at. by wp_run. Qed.

Lemma len_loop_wp {T} n : forall p acc (s : T) (Q : Z -> T -> Prop), (forall b, Q b s) -> wp (len_loop data n p acc) s Q oob.
Proof. induction n as [|n IH]; intros p acc s Q HQ; cbn [len_loop]; [by apply wp_ret|]. apply wp_bind, byte_at_wp. intros b. by apply IH. Qed.

Lemma parse_len_wp {T} p max (s : T) (Q : Z * Z -> T -> Prop) : (forall l, Q l s) -> wp (asn1_parse_len data p max) s Q oob.
Proof.
  intros HQ. unfold asn1_parse_len. destruct (max <? 1); [by apply wp_ret|]. apply wp_bind, byte_at_wp. intros b.
  destruct (b <? 128); [by apply wp_ret|]. cbv zeta. destruct (_ || _); [by apply wp_ret|].
  apply wp_bind, len_loop_wp. intros l. by apply wp_ret.
Qed.

(** What one call does to the table. *)
Definition node_post (t : tree) (r : Z) (t' : tree) : Prop :=
  tree_wf t' /\ grows (zlen t) t t' /\ (r = -1 \/ r = zlen t /\ zlen t < zlen t').
Definition parses (node : Z -> Z -> M tree Z) : Prop :=
  forall p max t, tree_wf t -> wp (node p max) t (fun r t' => node_post t r t') oob.

Lemma add_child_wf t t' idx :
  tree_wf t -> grows (zlen t) t t' -> tree_wf t' -> 0 <= idx < zlen t -> zlen t < zlen t' ->
  child_start (aget node0 t idx) = idx + 1 -> tree_wf (upd t' idx add_child).
Proof.
  intros [_ Ht] [_ Hg] [Hl Ht'] Hi Hlt Hc. unfold tree_wf. rewrite zlen_asn1_upd. split; [done|]. intros i Hi'.
  unfold upd. destruct (Z.eq_dec i idx) as [->|Hne].
  - rewrite aget_aset_eq by lia. rewrite Hg by lia. destruct (Ht idx) as (H0 & ? & _); [lia|].
    unfold node_wf. cbn [children child_start add_child]. lia.
  - rewrite aget_aset_ne by lia. by apply Ht'.
Qed.

Lemma children_wp node fuel : parses node -> forall idx cp rem t,
  tree_wf t -> 0 <= idx < zlen t -> child_start (aget node0 t idx) = idx + 1 -> 257 - zlen t <= Z.of_nat fuel ->
  wp (asn1_children data node fuel idx cp rem) t (fun _ t' => tree_wf t' /\ grows idx t t') oob.
Proof.
  intros Hn. induction fuel as [|f IH]; intros idx cp rem t Ht Hi Hs Hf; cbn [asn1_children]; [destruct Ht; lia|].
  destruct (0 <? rem); [|apply wp_ret; by split; [|apply grows_refl]].
  apply wp_bind. eapply wp_mono; [by apply Hn| |done]. intros ci t1 (Ht1 & Hg & Hc). cbv beta.
  destruct (ci <? 0) eqn:Eci; [apply wp_ret; split; [done|]; eapply grows_le; [|done]; lia|].
  destruct Hc as [->|[-> Hlt]]; [done|]. apply wp_bind, wp_modify. apply wp_bind, wp_get. cbv beta.
  assert (Hwf : tree_wf (upd t1 idx add_child)) by by apply (add_child_wf t).
  assert (Hgr : grows idx t (upd t1 idx add_child)).
  { split; [rewrite zlen_asn1_upd; lia|]. intros i Hi'. unfold upd. rewrite aget_aset_ne by lia. apply Hg. lia. }
  assert (Hrest : forall cp rem, wp (asn1_children data node f idx cp rem) (upd t1 idx add_child)
            (fun _ t' => tree_wf t' /\ grows idx t t') oob).
  { intros cp' rem'. eapply wp_mono; [apply IH; [done|rewrite zlen_asn1_upd; lia| |rewrite zlen_asn1_upd; lia]| |done].
    - unfold upd. rewrite aget_aset_eq by lia. destruct Hg as [_ Hg]. rewrite Hg by lia. exact Hs.
    - intros _ t' [? ?]. split; [done|]. eapply grows_trans; done. }
  apply wp_bind.
  assert (Hl : forall l : Z * Z, wp (let ctot := u32 (1 + l.2 + len (aget node0 (upd t1 idx add_child) (zlen t))) in
            if ctot =? 0 then mret tt else if u32 (rem - ctot) =? 0 then mret tt
            else asn1_children data node f idx (cp + ctot) (u32 (rem - ctot))) (upd t1 idx add_child)
            (fun _ t' => tree_wf t' /\ grows idx t t') oob).
  { intros l. cbv zeta. destruct (_ =? 0); [by apply wp_ret|]. destruct (_ =? 0); [by apply wp_ret|]. apply Hrest. }
  destruct (2 <=? rem); [by apply parse_len_wp|apply wp_ret; apply Hl].
Qed.

Lemma node_parses d : parses (asn1_parse_node data d).
Proof.
  induction d as [|d IH]; intros p max t Ht; cbn [asn1_parse_node]; apply wp_bind, wp_get; cbv beta.
  { apply wp_ret. split; [done|]. split; [apply grows_refl|]. by left. }
  destruct (_ || _) eqn:E; [apply wp_ret; split; [done|]; split; [apply grows_refl|]; by left|]. bool_to_prop.
  apply wp_bind, byte_at_wp. intros tg. apply wp_bind, parse_len_wp. intros l. cbv zeta beta.
  apply wp_bind, wp_modify. cbv beta. set (nd := ANode _ _ _ 0 0). set (t1 := t ++ [nd]).
  assert (Hz : zlen t1 = zlen t + 1) by (unfold t1; rewrite zlen_app, zlen_cons, zlen_nil; lia). pose proof (zlen_nonneg t).
  assert (Hg1 : grows (zlen t) t t1) by (split; [lia|]; intros i Hi; by apply aget_snoc).
  assert (Hw1 : tree_wf t1).
  { destruct Ht as [Hl Ht]. split; [lia|]. intros i Hi. destruct (Z.eq_dec i (zlen t)) as [->|].
    - unfold t1. rewrite aget_last. fold t1. unfold node_wf, nd. cbn [children child_start]. lia.
    - unfold t1. rewrite aget_snoc by lia. fold t1. destruct (Ht i) as (? & ? & ?); [lia|]. unfold node_wf. lia. }
  destruct (max <? _); [apply wp_ret; split; [done|]; split; [done|]; by left|].
  destruct (_ && _); [|apply wp_ret; split; [done|]; split; [done|]; right; lia].
  apply wp_bind, wp_modify. cbv beta. apply wp_bind.
  set (t2 := upd t1 (zlen t) (set_start (zlen t1))).
  assert (Hnd : aget node0 t2 (zlen t) = set_start (zlen t1) nd).
  { unfold t2, upd. rewrite aget_aset_eq by lia. unfold t1. by rewrite aget_last. }
  assert (Hg2 : grows (zlen t) t t2).
  { split; [unfold t2; rewrite zlen_asn1_upd; lia|]. intros i Hi. unfold t2, upd. rewrite aget_aset_ne by lia. by apply Hg1. }
  eapply wp_mono; [apply (children_wp _ 257 IH)| |done].
  - split; [unfold t2; rewrite zlen_asn1_upd; lia|]. unfold t2. rewrite zlen_asn1_upd. intros i Hi. destruct (Z.eq_dec i (zlen t)) as [->|].
    + fold t2. rewrite Hnd. unfold node_wf, nd. cbn [children child_start set_start]. lia.
    + unfold upd. rewrite aget_aset_ne by lia. by apply Hw1.
  - unfold t2. rewrite zlen_asn1_upd. lia.
  - rewrite Hnd. cbn [child_start set_start]. lia.
  - unfold t2. rewrite zlen_asn1_upd. lia.
  - intros _ t' [Hw Hg]. cbv beta. apply wp_ret. split; [done|]. split; [eapply grows_trans; done|]. right. split; [done|].
    destruct Hg as [Hg _]. unfold t2 in Hg. rewrite zlen_asn1_upd in Hg. lia.
Qed.

End Any.

(** C18: On any message and any stated length the parser ends: it returns -1 or the
    index 0 with a table of at most 256 nodes in which every child that
    [asn1_child] can address exists and lies behind its parent, or it has read
    past the message; no other fault is possible. *)
Theorem asn1_parse_ends data p n t0 :
  match asn1_parse data p n t0 with
  | Ok r t _ => tree_wf t /\ (r = -1 \/ r = 0 /\ 0 < zlen t)
  | Err f _ _ => f = OutOfBounds
  end.
Proof.
  assert (H0 : tree_wf []) by (split; [done|]; intros i Hi; change (zlen (@nil Asn1Node)) with 0 in Hi; lia).
  pose proof (node_parses data ASN1_MAX_DEPTH p n [] H0) as H. unfold wp in H. unfold asn1_parse, modify, mbind, M_bind.
  destruct (asn1_parse_node _ _ _ _ _) as [r t o|f t o]; [|done]. destruct H as (? & _ & ?). by split.
Qed.

(** ** DER values and their encoding *)

Inductive der := Prim (tg : Z) (v : list Z) | Cons (tg : Z) (ds : list der).

Lemma der_nested (P : der -> Prop) :
  (forall tg v, P (Prim tg v)) -> (forall tg ds, Forall P ds -> P (Cons tg ds)) -> forall d, P d.
Proof.
  intros Hp Hc. fix IH 1. intros [tg v|tg ds]; [apply Hp|]. apply Hc. induction ds as [|d ds IHds]; constructor; [apply IH|exact IHds].
Qed.

(** The [k] low bytes of [n], the high one first. *)
Fixpoint be (k : nat) (n : Z) : list Z :=
  match k with O => [] | S k' => be k' (n / 256) ++ [n mod 256] end.
Definition der_len (n : Z) : list Z :=
  if n <? 2^7 then [n] else if n <? 2^8 then 129 :: be 1 n else if n <? 2^16 then 130 :: be 2 n
  else if n <? 2^24 then 131 :: be 3 n else 132 :: be 4 n.

Fixpoint enc (d : der) : list Z :=
  match d with
  | Prim tg v => tg :: der_len (zlen v) ++ v
  | Cons tg ds => let body := concat (map enc ds) in tg :: der_len (zlen body) ++ body
  end.
Definition contents (d : der) : list Z := match d with Prim _ v => v | Cons _ ds => concat (map enc ds) end.
Definition tag_of (d : der) : Z := match d with Prim tg _ | Cons tg _ => tg end.

Lemma enc_eq d : enc d = tag_of d :: der_len (zlen (contents d)) ++ contents d.
Proof. by destruct d. Qed.

Fixpoint size (d : der) : Z :=
  match d with Prim _ _ => 1 | Cons _ ds => 1 + fold_right (fun d n => size d + n) 0 ds end.
Definition sizes (ds : list der) : Z := fold_right (fun d n => size d + n) 0 ds.
Fixpoint levels (d : der) : nat :=
  match d with Prim _ _ => 1 | Cons _ ds => S (fold_right (fun d n => Nat.max (levels d) n) O ds) end.

(** Tags are bytes with the bit for constructed values as it should be. *)
Fixpoint der_ok (d : der) : Prop :=
  match d with
  | Prim tg v => byte_ok tg /\ Z.land tg 32 = 0 /\ bytes_ok v
  | Cons tg ds => byte_ok tg /\ Z.land tg 32 <> 0 /\ fold_right (fun d P => der_ok d /\ P) True ds
  end.

(** The nodes in preorder, of a value encoded at offset [p] with index [i]. *)
Fixpoint flat (p i : Z) (d : der) : tree :=
  let v := p + 1 + zlen (der_len (zlen (contents d))) in
  match d with
  | Prim tg b => [ANode tg (zlen b) v 0 0]
  | Cons tg ds =>
      ANode tg (zlen (contents d)) v (zlen ds) (if bool_decide (ds = []) then 0 else i + 1) ::
      (fix flats (p i : Z) (ds : list der) : tree :=
        match ds with
        | [] => []
        | d :: ds' => flat p i d ++ flats (p + zlen (enc d)) (i + size d) ds'
        end) v (i + 1) ds
  end.
Fixpoint flats (p i : Z) (ds : list der) : tree :=
  match ds with
  | [] => []
  | d :: ds' => flat p i d ++ flats (p + zlen (enc d)) (i + size d) ds'
  end.

(** *** Lengths *)

Lemma zlen_be k n : zlen (be k n) = Z.of_nat k.
Proof. revert n. induction k as [|k IH]; intros n; cbn [be]; [done|]. rewrite zlen_app, IH, zlen_cons, zlen_nil. lia. Qed.

Lemma zlen_der_len n : 1 <= zlen (der_len n) <= 5.
Proof. unfold der_len. repeat case_match; rewrite ?zlen_cons, ?zlen_be, ?zlen_nil; lia. Qed.

Lemma zlen_enc d : zlen (enc d) = 1 + zlen (der_len (zlen (contents d))) + zlen (contents d).
Proof. rewrite enc_eq, zlen_cons, zlen_app. lia. Qed.

Lemma enc_two d : 2 <= zlen (enc d).
Proof. rewrite zlen_enc. pose proof (zlen_der_len (zlen (contents d))). pose proof (zlen_nonneg (contents d)). lia. Qed.

Lemma size_pos d : 1 <= size d.
Proof.
  induction d as [tg v|tg ds IH] using der_nested; cbn [size]; [lia|].
  enough (0 <= fold_right (fun d n => size d + n) 0 ds) by lia. induction IH as [|d ds Hd _ IH]; cbn [fold_right]; lia.
Qed.

Lemma zlen_flat d : forall p i, zlen (flat p i d) = size d.
Proof.
  induction d as [tg v|tg ds IH] using der_nested; intros p i; [done|]. cbn [flat size]. rewrite zlen_cons. f_equal.
  generalize (p + 1 + zlen (der_len (zlen (contents (Cons tg ds))))) (i + 1). clear p i.
  induction IH as [|d ds Hd _ IH]; intros p i; [done|]. cbn [fold_right]. rewrite zlen_app, Hd, IH. done.
Qed.

Lemma flat_cons p i tg ds :
  let v := p + 1 + zlen (der_len (zlen (concat (map enc ds)))) in
  flat p i (Cons tg ds) = ANode tg (zlen (concat (map enc ds))) v (zlen ds) (if bool_decide (ds = []) then 0 else i + 1) ::
    flats v (i + 1) ds.
Proof.
  cbv zeta. cbn [flat contents]. f_equal.
Qed.

(** The first node of a value. *)
Lemma flat_head p i d : exists nd rest, flat p i d = nd :: rest /\ len nd = zlen (contents d).
Proof. destruct d as [tg v|tg ds]; [by eexists _, _|]. rewrite flat_cons. by eexists _, _. Qed.

(** *** Reading back *)

Lemma byte_here {T} pre b post (s : T) : byte_at (pre ++ b :: post) (zlen pre) s = Ok b s [].
Proof.
  unfold byte_at, in_array. rewrite zlen_app, zlen_cons. pose proof (zlen_nonneg pre). pose proof (zlen_nonneg post).
  rewrite (proj2 (Z.leb_le _ _)), (proj2 (Z.ltb_lt _ _)) by lia. unfold mbind, M_bind. cbn [andb].
  unfold aget, zlen. rewrite Nat2Z.id, app_nth2, Nat.sub_diag by lia. done.
Qed.

Definition len_acc (bs : list Z) (acc : Z) : Z := fold_left (fun a b => u32 (Z.lor (Z.shiftl a 8) b)) bs acc.

Lemma len_loop_here {T} bs : forall pre post acc (s : T),
  len_loop (pre ++ bs ++ post) (length bs) (zlen pre) acc s = Ok (len_acc bs acc) s [].
Proof.
  induction bs as [|b bs IH]; intros pre post acc s; [done|]. cbn [length len_loop app].
  rewrite (bind_ok _ _ s b s []) by apply byte_here.
  replace (zlen pre + 1) with (zlen (pre ++ [b])) by (rewrite zlen_app, zlen_cons, zlen_nil; lia).
  rewrite (eq_refl : pre ++ b :: bs ++ post = pre ++ [b] ++ bs ++ post), (app_assoc pre [b]), IH. done.
Qed.

Lemma len_acc_be k : forall n, (k <= 4)%nat -> len_acc (be k n) 0 = n mod 256 ^ Z.of_nat k.
Proof.
  induction k as [|k IH]; intros n Hk; cbn [be]; [rewrite Z.pow_0_r, Z.mod_1_r; done|].
  unfold len_acc in *. rewrite fold_left_app, IH by lia. cbn [fold_left].
  assert (Hn : 0 <= n mod 256 < 256) by (apply Z.mod_pos_bound; lia).
  assert (Hm : 0 <= (n / 256) mod 256 ^ Z.of_nat k < 256 ^ Z.of_nat k) by (apply Z.mod_pos_bound; lia).
  rewrite Z.shiftl_mul_pow2, Z.lor_comm, (Z.mul_comm _ (2^8)), lor_high by lia. change (2^8) with 256.
  replace (256 ^ Z.of_nat (S k)) with (256 * 256 ^ Z.of_nat k) by (rewrite Nat2Z.inj_succ, Z.pow_succ_r by lia; done).
  rewrite Z.rem_mul_r by lia. apply u32_id.
  assert (256 ^ Z.of_nat k <= 256 ^ 3) by (apply Z.pow_le_mono_r; lia). change (256^3) with 16777216 in *. lia.
Qed.

Lemma parse_len_long {T} pre k bs post max (s : T) :
  0 <= k <= 4 -> length bs = Z.to_nat k -> 1 + k <= max ->
  asn1_parse_len (pre ++ (128 + k) :: bs ++ post) (zlen pre) max s = Ok (len_acc bs 0, 1 + k) s [].
Proof.
  intros Hk Hbs Hmax. unfold asn1_parse_len. rewrite (proj2 (Z.ltb_ge max 1)) by lia.
  rewrite (bind_ok _ _ s (128 + k) s []) by apply byte_here. rewrite (proj2 (Z.ltb_ge (128 + k) 128)) by lia. cbv zeta.
  replace (Z.land (128 + k) 127) with k by (assert (k = 0 \/ k = 1 \/ k = 2 \/ k = 3 \/ k = 4) as [-> |[-> |[-> |[-> | ->]]]] by lia; done).
  rewrite (proj2 (Z.ltb_ge 4 k)), (proj2 (Z.ltb_ge max (1 + k))) by lia. cbn [orb].
  replace (zlen pre + 1) with (zlen (pre ++ [128 + k])) by (rewrite zlen_app, zlen_cons, zlen_nil; lia).
  rewrite (eq_refl : pre ++ (128 + k) :: bs ++ post = pre ++ [128 + k] ++ bs ++ post), (app_assoc pre [_]), <- Hbs.
  by rewrite (bind_ok _ _ s _ s []) by apply len_loop_here.
Qed.

Lemma parse_len_here {T} pre n post max (s : T) :
  0 <= n < 2^32 -> zlen (der_len n) <= max ->
  asn1_parse_len (pre ++ der_len n ++ post) (zlen pre) max s = Ok (n, zlen (der_len n)) s [].
Proof.
  intros Hn Hmax.
  assert (Hlong : forall k, (1 <= k <= 4)%nat -> n < 256 ^ Z.of_nat k -> der_len n = (128 + Z.of_nat k) :: be k n ->
    asn1_parse_len (pre ++ der_len n ++ post) (zlen pre) max s = Ok (n, zlen (der_len n)) s []).
  { intros k Hk Hb E. rewrite E in Hmax |- *. rewrite zlen_cons, zlen_be in *. cbn [app]. rewrite parse_len_long; [|lia| |lia].
    - by rewrite len_acc_be, Z.mod_small by lia.
    - pose proof (zlen_be k n) as H. unfold zlen in H. lia. }
  destruct (Z.ltb_spec n (2^7)) as [H7|H7].
  { unfold der_len in *. rewrite (proj2 (Z.ltb_lt n (2^7))) in * by lia. unfold asn1_parse_len.
    rewrite zlen_cons, zlen_nil in Hmax. rewrite (proj2 (Z.ltb_ge max 1)) by lia. cbn [app].
    rewrite (bind_ok _ _ s n s []) by apply byte_here. by rewrite (proj2 (Z.ltb_lt n 128)) by lia. }
  assert (E7 : (n <? 2^7) = false) by lia.
  destruct (Z.ltb_spec n (2^8)); [apply (Hlong 1%nat); [lia..|]; unfold der_len; by rewrite E7, (proj2 (Z.ltb_lt n (2^8))) by lia|].
  assert (E8 : (n <? 2^8) = false) by lia.
  destruct (Z.ltb_spec n (2^16)); [apply (Hlong 2%nat); [lia..|]; unfold der_len; by rewrite E7, E8, (proj2 (Z.ltb_lt n (2^16))) by lia|].
  assert (E16 : (n <? 2^16) = false) by lia.
  destruct (Z.ltb_spec n (2^24)); [apply (Hlong 3%nat); [lia..|]; unfold der_len; by rewrite E7, E8, E16, (proj2 (Z.ltb_lt n (2^24))) by lia|].
  assert (E24 : (n <? 2^24) = false) by lia.
  apply (Hlong 4%nat); [lia..|]. unfold der_len. by rewrite E7, E8, E16, E24.
Qed.

(** *** Whole values *)

Lemma upd_mid (t0 : tree) nd u f : upd (t0 ++ nd :: u) (zlen t0) f = t0 ++ f nd :: u.
Proof.
  unfold upd, aget, aset, zlen. rewrite Nat2Z.id, app_nth2, Nat.sub_diag by lia. cbn [nth].
  rewrite insert_app_r_alt, Nat.sub_diag by lia. done.
Qed.

Definition add_children (k : Z) (n : Asn1Node) : Asn1Node := ANode (tag n) (len n) (val n) (children n + k) (child_start n).

Definition reads (data : list Z) (d : der) : Prop := forall pre post lv max t,
  data = pre ++ enc d ++ post -> (levels d <= lv)%nat -> zlen t + size d <= ASN1_MAX_NODES -> zlen (enc d) <= max < 2^32 ->
  asn1_parse_node data lv (zlen pre) max t = Ok (zlen t) (t ++ flat (zlen pre) (zlen t) d) [].

Lemma aget_flat_head (t : tree) p i d u : len (aget node0 (t ++ flat p i d ++ u) (zlen t)) = zlen (contents d).
Proof.
  destruct (flat_head p i d) as (nd & rest & -> & <-). unfold aget, zlen. rewrite Nat2Z.id, app_nth2, Nat.sub_diag by lia. done.
Qed.

Lemma parse_len_of {T} pre d post max (s : T) :
  zlen (contents d) < 2^32 -> zlen (enc d) <= max + 1 ->
  asn1_parse_len (pre ++ enc d ++ post) (zlen pre + 1) max s = Ok (zlen (contents d), zlen (der_len (zlen (contents d)))) s [].
Proof.
  intros Hl Hmax. rewrite zlen_enc in Hmax. pose proof (zlen_nonneg (contents d)).
  replace (zlen pre + 1) with (zlen (pre ++ [tag_of d])) by (rewrite zlen_app, zlen_cons, zlen_nil; lia).
  replace (pre ++ enc d ++ post) with ((pre ++ [tag_of d]) ++ der_len (zlen (contents d)) ++ contents d ++ post)
    by (rewrite enc_eq; cbn [app]; by rewrite <- !app_assoc).
  apply parse_len_here; lia.
Qed.

Lemma children_read data ds lv : Forall (reads data) ds -> Forall (fun d => levels d <= lv)%nat ds ->
  forall fuel pre post t0 nd u,
  data = pre ++ concat (map enc ds) ++ post -> zlen ds < Z.of_nat fuel ->
  zlen t0 + 1 + zlen u + sizes ds <= ASN1_MAX_NODES -> zlen (concat (map enc ds)) < 2^32 ->
  asn1_children data (asn1_parse_node data lv) fuel (zlen t0) (zlen pre) (zlen (concat (map enc ds))) (t0 ++ nd :: u) =
    Ok tt (t0 ++ add_children (zlen ds) nd :: u ++ flats (zlen pre) (zlen t0 + 1 + zlen u) ds) [].
Proof.
  intros Hr Hlv. induction Hr as [|d ds Hd Hr IH]; intros fuel pre post t0 nd u Hdata Hf Hn Hlen; (destruct fuel as [|fuel]; [unfold zlen in Hf; lia|]).
  { cbn. rewrite app_nil_r. unfold add_children. rewrite Z.add_0_r. by destruct nd. }
  apply Forall_cons in Hlv as [Hl Hlv]. cbn [map concat sizes fold_right] in *. fold (sizes ds) in *.
  rewrite zlen_app, <- app_assoc in *. rewrite zlen_cons in Hf |- *.
  pose proof (enc_two d) as H2. pose proof (zlen_nonneg (concat (map enc ds))) as H0. pose proof (size_pos d) as Hs.
  assert (Hs' : 0 <= sizes ds) by (clear; induction ds as [|d ds IH]; cbn [sizes fold_right]; [lia|]; pose proof (size_pos d); fold (sizes ds); lia).
  cbn [asn1_children]. rewrite (proj2 (Z.ltb_lt 0 _)) by lia.
  assert (Hz : zlen (t0 ++ nd :: u) = zlen t0 + 1 + zlen u) by (rewrite zlen_app, zlen_cons; lia).
  rewrite (bind_ok _ _ _ (zlen (t0 ++ nd :: u)) (t0 ++ nd :: (u ++ flat (zlen pre) (zlen t0 + 1 + zlen u) d)) []).
  2:{ rewrite (Hd pre (concat (map enc ds) ++ post)) by (done || lia). rewrite Hz, <- app_assoc. done. }
  pose proof (zlen_nonneg t0). pose proof (zlen_nonneg u). rewrite (proj2 (Z.ltb_ge _ 0)) by lia.
  set (t1 := t0 ++ add_child nd :: (u ++ flat (zlen pre) (zlen t0 + 1 + zlen u) d)).
  rewrite (bind_ok (modify _) _ _ tt t1 []) by (unfold modify; by rewrite upd_mid).
  rewrite (bind_ok get _ t1 t1 t1 []) by done. rewrite (proj2 (Z.leb_le 2 _)) by lia.
  assert (Hlen' : zlen (contents d) < 2^32) by (rewrite zlen_enc in Hlen; pose proof (zlen_der_len (zlen (contents d))); lia).
  rewrite (bind_ok _ _ t1 (zlen (contents d), zlen (der_len (zlen (contents d)))) t1 []).
  2:{ rewrite Hdata. apply parse_len_of; lia. }
  assert (Hhead : len (aget node0 t1 (zlen (t0 ++ nd :: u))) = zlen (contents d)).
  { unfold t1. rewrite Hz. replace (zlen t0 + 1 + zlen u) with (zlen (t0 ++ add_child nd :: u)) by (rewrite zlen_app, zlen_cons; lia).
    rewrite <- (aget_flat_head (t0 ++ add_child nd :: u) (zlen pre) (zlen (t0 ++ add_child nd :: u)) d []), app_nil_r, <- app_assoc. done. }
  cbv zeta. rewrite Hhead. cbn [snd]. rewrite <- zlen_enc, u32_id by lia. rewrite (proj2 (Z.eqb_neq (zlen (enc d)) 0)) by lia.
  replace (zlen (enc d) + zlen (concat (map enc ds)) - zlen (enc d)) with (zlen (concat (map enc ds))) by lia. rewrite u32_id by lia.
  unfold t1.
  replace (add_children (1 + zlen ds) nd) with (add_children (zlen ds) (add_child nd))
    by (unfold add_children, add_child; cbn; f_equal; lia).
  cbn [flats]. rewrite (app_assoc u).
  destruct (zlen (concat (map enc ds)) =? 0) eqn:E0.
  - destruct ds as [|d' ds]; [cbn [flats]; rewrite app_nil_r; unfold add_children; rewrite Z.add_0_r; by destruct nd|].
    cbn [map concat] in E0. rewrite zlen_app in E0. pose proof (enc_two d'). pose proof (zlen_nonneg (concat (map enc ds))). lia.
  - replace (zlen pre + zlen (enc d)) with (zlen (pre ++ enc d)) by (rewrite zlen_app; lia).
    rewrite (IH Hlv fuel (pre ++ enc d) post); [|by rewrite <- app_assoc|lia| |lia].
    + rewrite (zlen_app u), zlen_flat, (Z.add_assoc (zlen t0 + 1)). done.
    + rewrite (zlen_app u), zlen_flat. lia.
Qed.

Lemma der_ok_cons tg ds : der_ok (Cons tg ds) <-> byte_ok tg /\ Z.land tg 32 <> 0 /\ Forall der_ok ds.
Proof.
  cbn [der_ok]. assert (fold_right (fun d P => der_ok d /\ P) True ds <-> Forall der_ok ds) as ->; [|done].
  induction ds as [|d ds IH]; cbn [fold_right]; [by split|]. by rewrite IH, Forall_cons.
Qed.

Lemma levels_cons tg ds lv : (levels (Cons tg ds) <= S lv)%nat <-> Forall (fun d => levels d <= lv)%nat ds.
Proof.
  cbn [levels]. assert (fold_right (fun d n => Nat.max (levels d) n) O ds <= lv <-> Forall (fun d => levels d <= lv) ds)%nat as <-; [|lia].
  induction ds as [|d ds IH]; cbn [fold_right]; [split; [done|lia]|]. rewrite Forall_cons, <- IH. lia.
Qed.

Lemma zlen_sizes ds : zlen ds <= sizes ds.
Proof. induction ds as [|d ds IH]; cbn [sizes fold_right]; [done|]. rewrite zlen_cons. pose proof (size_pos d). fold (sizes ds). lia. Qed.

(** One node up to its contents. *)
Lemma node_start data d pre post lv max t :
  data = pre ++ enc d ++ post -> zlen t < ASN1_MAX_NODES -> zlen (enc d) <= max < 2^32 ->
  let n := zlen (contents d) in
  let v := zlen pre + 1 + zlen (der_len n) in
  asn1_parse_node data (S lv) (zlen pre) max t =
    (if negb (Z.land (tag_of d) 32 =? 0) && (0 <? n) then
       modify (fun t' => upd t' (zlen t) (set_start (zlen t'))) ;;
       asn1_children data (asn1_parse_node data lv) 257 (zlen t) v n ;; mret (zlen t)
     else mret (zlen t)) (t ++ [ANode (tag_of d) n v 0 0]).
Proof.
  intros Hdata Ht Hmax n v. pose proof (enc_two d). pose proof (zlen_enc d) as He. fold n in He. pose proof (zlen_der_len n).
  pose proof (zlen_nonneg (contents d)). fold n in H1.
  cbn [asn1_parse_node]. rewrite (bind_silent get _ t t t) by done.
  rewrite (proj2 (Z.leb_gt ASN1_MAX_NODES _)), (proj2 (Z.ltb_ge max 2)) by lia. cbn [orb].
  rewrite (bind_silent (byte_at data (zlen pre)) _ t (tag_of d) t) by (rewrite Hdata, enc_eq; apply byte_here).
  rewrite (bind_silent (asn1_parse_len _ _ _) _ t (n, zlen (der_len n)) t) by (rewrite Hdata; apply parse_len_of; lia).
  cbn [fst snd]. cbv zeta. rewrite (bind_silent (modify _) _ t tt (t ++ [ANode (tag_of d) n v 0 0])) by done.
  rewrite u32_id by lia. by rewrite (proj2 (Z.ltb_ge max _)) by lia.
Qed.

Lemma node_reads data d : der_ok d -> reads data d.
Proof.
  induction d as [tg v|tg ds IH] using der_nested; intros Hok pre post lv max t Hdata Hlv Hn Hmax;
    (destruct lv as [|lv]; [cbn in Hlv; lia|]); cbn [size] in Hn.
  - rewrite (node_start data (Prim tg v) pre post) by (done || lia). destruct Hok as (_ & Ht & _). cbn [tag_of]. by rewrite Ht.
  - fold (sizes ds) in Hn. pose proof (zlen_sizes ds) as Hds. pose proof (zlen_nonneg ds). pose proof (zlen_nonneg t).
    apply der_ok_cons in Hok as (_ & Ht & Hok). apply levels_cons in Hlv.
    rewrite (node_start data (Cons tg ds) pre post) by (done || lia). cbn [tag_of contents]. rewrite flat_cons.
    rewrite (proj2 (Z.eqb_neq _ _)) by done. cbn [negb andb].
    destruct (Z.ltb_spec 0 (zlen (concat (map enc ds)))) as [Hpos|Hzero].
    + rewrite (bind_silent (modify _) _ _ tt (t ++ [set_start (zlen t + 1) (ANode tg (zlen (concat (map enc ds)))
        (zlen pre + 1 + zlen (der_len (zlen (concat (map enc ds))))) 0 0)])).
      2:{ unfold modify. rewrite upd_mid, zlen_app. done. }
      set (n := zlen (concat (map enc ds))) in *.
      assert (Hpre : zlen pre + 1 + zlen (der_len n) = zlen (pre ++ tg :: der_len n)) by (rewrite zlen_app, zlen_cons; lia).
      rewrite Hpre. erewrite bind_silent.
      2:{ apply (children_read data ds lv) with (post := post) (u := []); [|done| |lia| |].
          - rewrite Forall_forall in IH, Hok |- *. intros d Hd. apply IH; [done|by apply Hok].
          - rewrite Hdata. cbn [enc]. rewrite <- app_assoc. cbn [app]. by rewrite <- app_assoc.
          - rewrite zlen_nil. lia.
          - rewrite zlen_enc in Hmax. cbn [contents] in Hmax. fold n in Hmax |- *. pose proof (zlen_der_len n). lia. }
      cbn [app]. change (zlen (@nil Asn1Node)) with 0. rewrite Z.add_0_r, bool_decide_false by (by intros ->). done.
    + destruct ds as [|d ds]; [done|]. cbn [map concat] in Hzero. rewrite zlen_app in Hzero.
      pose proof (enc_two d). pose proof (zlen_nonneg (concat (map enc ds))). lia.
Qed.

(** C17: Parsing is the inverse of DER encoding: a message that is the encoding of a
    value (tags with the constructed bit as it should be, at most 16 levels and
    256 nodes, below 4 GiB) is parsed to exactly the nodes of the value in
    preorder, with their tags, lengths, positions and numbers of children. *)
Theorem asn1_roundtrip d rest t0 :
  der_ok d -> (levels d <= ASN1_MAX_DEPTH)%nat -> size d <= ASN1_MAX_NODES -> zlen (enc d) < 2^32 ->
  asn1_parse (enc d ++ rest) 0 (zlen (enc d)) t0 = Ok 0 (flat 0 0 d) [].
Proof.
  intros Hok Hl Hs Hlen. unfold asn1_parse. rewrite (bind_silent (modify _) _ t0 tt []) by done.
  apply (node_reads (enc d ++ rest) d Hok [] rest); done.
Qed.

Lemma asn1_roundtrip_witness :
  let d := Cons 48 [Prim 2 [7]; Cons 49 [Prim 6 [85; 4; 3]; Prim 12 (cs "pig")]; Prim 4 (replicate 200 9)] in
  asn1_parse (enc d) 0 (zlen (enc d)) [] = Ok 0 (flat 0 0 d) [] /\ zlen (flat 0 0 d) = 6.
Proof.
  intros d. split; [|reflexivity]. rewrite <- (app_nil_r (enc d)) at 1.
  apply (asn1_roundtrip d [] []);
    [vm_compute; repeat split; try discriminate; repeat constructor; discriminate|apply Nat.leb_le; vm_compute; reflexivity
    |vm_compute; discriminate|vm_compute; reflexivity].
Defined.

(** ** Where the code goes wrong *)

(** [total] wraps: a length of 2^32-1 passes the test, and the contents are read
    past the message. *)
Lemma huge_length_overruns : result (asn1_parse [48; 132; 255; 255; 255; 255] 0 6 []) = inr OutOfBounds.
Proof. vm_compute. reflexivity. Qed.

(** An empty BIT STRING has its key parsed with length [0-1]. *)
Definition empty_bits : der :=
  Cons 48 [Cons 48 [Prim 2 []; Prim 2 []; Prim 2 []; Prim 2 []; Prim 2 []; Prim 2 []; Cons 48 [Prim 6 []; Prim 3 []]]].
Lemma empty_bit_string_overruns : result (x509_parse_cert (enc empty_bits) (zlen (enc empty_bits)) cert0) = inr OutOfBounds.
Proof. vm_compute. reflexivity. Qed.

(** A certificate of the usual shape. *)
Definition name_of (s : cstr) : der := Cons 48 [Cons 49 [Cons 48 [Prim 6 [85; 4; 3]; Prim 12 s]]].
Definition sig_alg : der := Cons 48 [Prim 6 [42; 134; 72; 134; 247; 13; 1; 1; 11]; Prim 5 []].
Definition rsa_key (n e : list Z) : der :=
  Cons 48 [Cons 48 [Prim 6 [42; 134; 72; 134; 247; 13; 1; 1; 1]; Prim 5 []]; Prim 3 (0 :: enc (Cons 48 [Prim 2 n; Prim 2 e]))].
Definition certificate (serial : list Z) (issuer subject : cstr) (from till : cstr) (n e sig : list Z) : der :=
  Cons 48 [Cons 48 [Cons 160 [Prim 2 [2]]; Prim 2 serial; sig_alg; name_of issuer; Cons 48 [Prim 23 from; Prim 23 till];
                    name_of subject; rsa_key n e]; sig_alg; Prim 3 sig].

(** Children are addressed as if they were consecutive nodes: the name taken for
    the subject is the issuer's, and neither the dates nor the key are found. *)
Lemma x509_reads_the_issuer :
  let c := certificate [1] (cs "Pig CA") (cs "discord.com") (cs "240101000000Z") (cs "250101000000Z")
             (0 :: replicate 256 171) [1; 0; 1] (replicate 256 17) in
  match x509_parse_cert (enc c) (zlen (enc c)) cert0 with
  | Ok r x _ => r = 0 /\ cn x = cs "Pig CA" ++ replicate 122 0 /\ nlen x = 0 /\ elen x = 0 /\ not_before x = replicate 32 0
  | Err _ _ _ => False
  end.
Proof. vm_compute. repeat split; reflexivity. Qed.

(** The last byte of a 2048-bit modulus is dropped: its encoding has a leading
    zero, and 257 bytes are cut to 256 before the zero is skipped. *)
Lemma modulus_loses_a_byte :
  let m := 0 :: replicate 255 171 ++ [1] in
  match x509_modulus m (ANode 2 257 0 0 0) cert0 with
  | Ok _ x _ => nlen x = 255 /\ n_bytes x = replicate 255 171 ++ [0]
  | Err _ _ _ => False
  end.
Proof. vm_compute. repeat split; reflexivity. Qed.

(** ** Searching a parsed table *)

(** The children a node of a well-formed table addresses exist. *)
Lemma child_wf {T} t i k (s : T) :
  tree_wf t -> 0 <= i < zlen t -> 0 <= k < children (aget node0 t i) ->
  asn1_child t (aget node0 t i) k s = Ok (Some (aget node0 t (i + 1 + k))) s [] /\ i < i + 1 + k < zlen t.
Proof.
  intros [_ Ht] Hi Hk. destruct (Ht i Hi) as (_ & Hc & [Hs|Hs]); [lia|]. unfold asn1_child.
  rewrite (proj2 (Z.ltb_ge k 0)), (proj2 (Z.leb_gt _ k)) by lia. cbn [orb]. rewrite Hs. unfold in_array.
  rewrite (proj2 (Z.leb_le 0 _)), (proj2 (Z.ltb_lt _ _)) by lia. split; [done|lia].
Qed.

Lemma find_child_ends {T} p t i ks (s : T) :
  tree_wf t -> 0 <= i < zlen t -> (forall j, i < j < zlen t -> exists r, p (aget node0 t j) s = Ok r s []) ->
  Forall (fun k => 0 <= k < children (aget node0 t i)) ks ->
  exists r, find_child p t (aget node0 t i) ks s = Ok r s [].
Proof.
  intros Ht Hi Hp. induction 1 as [|k ks Hk _ [r IH]]; cbn [find_child]; [by eexists|].
  destruct (child_wf t i k s Ht Hi Hk) as [Hc Hj]. rewrite (bind_silent _ _ s _ s Hc).
  destruct (Hp _ Hj) as [[n|] Hr]; rewrite (bind_silent _ _ s _ s Hr); [by eexists|]. rewrite IH. by eexists.
Qed.

Lemma children_range t i : Forall (fun k => 0 <= k < children (aget node0 t i)) (seqZ 0 (children (aget node0 t i))).
Proof. apply Forall_forall. intros k Hk. apply elem_of_seqZ in Hk. lia. Qed.

(** The search goes down the table: the nodes behind the first bound its depth. *)
Lemma find_tag_deep_ends {T} t tg fuel : forall i (s : T), tree_wf t -> 0 <= i < zlen t -> zlen t - i <= Z.of_nat fuel ->
  exists r, asn1_find_tag_deep fuel t (aget node0 t i) tg s = Ok r s [].
Proof.
  induction fuel as [|f IH]; intros i s Ht Hi Hf; [lia|]. cbn [asn1_find_tag_deep].
  apply find_child_ends; [done|done| |apply children_range].
  intros j Hj. destruct (tag _ =? tg); [by eexists|]. apply IH; [done|lia..].
Qed.

Lemma find_tag_ends {T} t tg i (s : T) : tree_wf t -> 0 <= i < zlen t -> exists r, asn1_find_tag t (aget node0 t i) tg s = Ok r s [].
Proof. intros Ht Hi. apply find_child_ends; [done|done| |apply children_range]. intros j _. by eexists. Qed.
