(* ===== verification/WebSocket.v ===== *)
(** * WebSocket client ([crypto/websocket.h])

    Base 64, frames and the handshake.  The secure channel underneath
    ([tls_connect], [tls_send], [tls_recv], [tls_close]) is the interface
    [Transport]; what reading a frame relies on is stated as [ByteStream]. *)

From Stdlib Require Import ZArith Lia.
From stdpp Require Import base numbers list list_numbers option strings.
From S2P Require Import Prelude CLib Console.

Notation WS_MAX_FRAME := 65536 (only parsing).
Notation WS_OP_TEXT := 1 (only parsing).
Notation WS_OP_CLOSE := 8 (only parsing).
Notation WS_OP_PING := 9 (only parsing).
Notation WS_OP_PONG := 10 (only parsing).

(** ** The channel *)

Class Transport (W : Type) := {
  tls_connect : cstr -> Z -> M W bool;
  tls_send : list Z -> M W Z;
  (** [tls_recv(out,max)]: the bytes written when the result is positive. *)
  tls_recv : Z -> M W (option (list Z));
  tls_close : M W unit;
}.

(** ** Base 64 *)

Definition b64 : list Z := cs "ABCDEFGHIJKLMNOPQRSTUVWXYZabcdefghijklmnopqrstuvwxyz0123456789+/".
Definition b64_at (v k : Z) : Z := aget 0 b64 (Z.land (Z.shiftr v k) 63).
Definition c_pad : Z := 61.

Fixpoint b64_groups (oi outmax : Z) (l : list Z) : cstr :=
  if oi <? outmax - 4 then
    match l with
    | a :: b :: c :: r =>
        let v := Z.lor (Z.lor (Z.shiftl a 16) (Z.shiftl b 8)) c in
        b64_at v 18 :: b64_at v 12 :: b64_at v 6 :: b64_at v 0 :: b64_groups (oi + 4) outmax r
    | [a; b] => let v := Z.lor (Z.shiftl a 16) (Z.shiftl b 8) in [b64_at v 18; b64_at v 12; b64_at v 6; c_pad]
    | [a] => let v := Z.shiftl a 16 in [b64_at v 18; b64_at v 12; c_pad; c_pad]
    | [] => []
    end
  else [].
Definition ws_b64_encode (l : list Z) (outmax : Z) : cstr := b64_groups 0 outmax l.

(** ** State *)

(** [ms] and [ks]: the two static generators. *)
Record WS_CTX := WsCtx { ws_host : cstr; ws_path : cstr; ws_port : Z; connected : bool }.
Definition ws_ctx0 : WS_CTX := WsCtx [] [] 0 false.
Record ws (W : Type) := Ws { ctx : WS_CTX; ms : Z; ks : Z; world : W }.
Arguments Ws {W} _ _ _ _.
Arguments ctx {W} _.
Arguments ms {W} _.
Arguments ks {W} _.
Arguments world {W} _.

Definition xorshift (s : Z) : Z :=
  let s := Z.lxor s (u32 (Z.shiftl s 13)) in
  let s := Z.lxor s (Z.shiftr s 17) in
  Z.lxor s (u32 (Z.shiftl s 5)).

Section Client.
Context {W : Type} `{Transport W}.

Definition set_ctx (c : WS_CTX) (s : ws W) : ws W := Ws c (ms s) (ks s) (world s).
Definition set_ms (z : Z) (s : ws W) : ws W := Ws (ctx s) z (ks s) (world s).
Definition set_ks (z : Z) (s : ws W) : ws W := Ws (ctx s) (ms s) z (world s).
Definition set_world (w : W) (s : ws W) : ws W := Ws (ctx s) (ms s) (ks s) w.
Definition chan {A} (m : M W A) : M (ws W) A := zoom world set_world m.

(** ** Frames *)

Definition ws_mask_data (d mask : list Z) : list Z := imap (fun i b => Z.lxor b (aget 0 mask (Z.land (Z.of_nat i) 3))) d.

Definition mask_of (m : Z) : list Z := map (fun k => Z.land (Z.shiftr m k) 255) [0; 8; 16; 24].

(** Shifts of an [int] by 32 and more take the count modulo 32. *)
Definition len_field (plen : Z) : list Z :=
  if plen <? 126 then [Z.lor 128 (u8 plen)]
  else if plen <? 65536 then [Z.lor 128 126; u8 (Z.shiftr plen 8); u8 plen]
  else Z.lor 128 127 :: map (fun i => u8 (Z.shiftr plen ((i * 8) mod 32))) [7; 6; 5; 4; 3; 2; 1; 0].

Definition ws_frame (opcode : Z) (mask payload : list Z) : list Z :=
  (Z.lor 128 opcode :: len_field (zlen payload)) ++ mask ++ ws_mask_data payload mask.

Definition ws_send_frame (opcode : Z) (payload : list Z) : M (ws W) Z :=
  s ← get;
  let m := xorshift (ms s) in
  modify (set_ms m) ;;
  let f := ws_frame opcode (mask_of m) payload in
  if zlen f <=? WS_MAX_FRAME + 14 then chan (tls_send f) else fail BufferOverflow.

(** [while(got<n){ r=tls_recv(...); if(r<=0) return -1; got+=r; }] *)
Fixpoint read_loop (fuel : nat) (n : Z) (acc : list Z) : M (ws W) (option (list Z)) :=
  if n <=? zlen acc then mret (Some acc)
  else
    match fuel with
    | O => fail Blocked
    | S f =>
        r ← chan (tls_recv (n - zlen acc));
        match r with
        | None => mret None
        | Some bs => if n - zlen acc <? zlen bs then fail BufferOverflow else read_loop f n (acc ++ bs)
        end
    end.
Definition read_n (n : Z) : M (ws W) (option (list Z)) := read_loop (Z.to_nat n) n [].

Definition be_val (bs : list Z) : Z := fold_left (fun a b => u64 (Z.lor (Z.shiftl a 8) b)) bs 0.

(** The length announced by the second byte. *)
Definition recv_len (b1 : Z) : M (ws W) (option Z) :=
  let p := Z.land b1 127 in
  if p =? 126 then r ← read_n 2; mret (be_val <$> r)
  else if p =? 127 then r ← read_n 8; mret (be_val <$> r)
  else mret (Some p).

(** The result, the opcode and the bytes stored in [out]; the opcode is stored
    only when the frame is complete. *)
Definition ws_recv_frame (maxout : Z) : M (ws W) (Z * option Z * list Z) :=
  h ← read_n 2;
  match h with
  | None => mret (-1, None, [])
  | Some h =>
      let op := Z.land (aget 0 h 0) 15 in
      let masked := negb (Z.land (aget 0 h 1) 128 =? 0) in
      l ← recv_len (aget 0 h 1);
      match l with
      | None => mret (-1, None, [])
      | Some plen =>
          mk ← (if masked then read_n 4 else mret (Some [0; 0; 0; 0]));
          match mk with
          | None => mret (-1, None, [])
          | Some mask =>
              let plen := if maxout <? i32 plen then maxout else plen in
              p ← read_n (i32 plen);
              match p with
              | None => mret (-1, None, [])
              | Some out =>
                  let out := if masked then ws_mask_data out mask else out in
                  if op =? WS_OP_PING then ws_send_frame WS_OP_PONG out ;; mret (-2, Some op, out)
                  else mret (zlen out, Some op, out)
              end
          end
      end
  end.

(** ** Sessions *)

Fixpoint key_bytes (n : nat) (k : Z) : list Z * Z :=
  match n with
  | O => ([], k)
  | S n' => let k' := xorshift k in let '(l, k'') := key_bytes n' k' in (Z.land k' 255 :: l, k'')
  end.

Definition crlf : cstr := [c_cr; c_nl].
Definition request_lines (host path key : cstr) : list cstr :=
  [cs "GET "; path; cs " HTTP/1.1" ++ crlf; cs "Host: "; host; crlf; cs "Upgrade: websocket" ++ crlf;
   cs "Connection: Upgrade" ++ crlf; cs "Sec-WebSocket-Key: "; key; crlf; cs "Sec-WebSocket-Version: 13" ++ crlf;
   cs "Sec-WebSocket-Protocol: json" ++ crlf; crlf].

Definition ends_blank (r : list Z) : bool := bool_decide (4 <= zlen r /\ drop (length r - 4) r = crlf ++ crlf).

(** [polls]: the passes of the loop, 5000000. *)
Fixpoint recv_response (polls : nat) (resp : list Z) : M (ws W) (list Z) :=
  match polls with
  | O => mret resp
  | S n =>
      r ← chan (tls_recv (1024 - zlen resp));
      let resp' := match r with Some bs => resp ++ bs | None => resp end in
      if 1024 <? zlen resp' then fail BufferOverflow
      else if ends_blank resp' then mret resp' else recv_response n resp'
  end.

Definition ws_connect (polls : nat) (host path : cstr) : M (ws W) Z :=
  modify (set_ctx ws_ctx0) ;;
  fits 128 host ;; fits 256 path ;;
  modify (set_ctx (WsCtx host path 443 false)) ;;
  vps (cs "ws: connecting to ") ;; vps host ;; vps path ;; vpln [] ;;
  ok ← chan (tls_connect host 443);
  if negb ok then vpln (cs "ws: TLS connect failed") ;; mret 0
  else
    s ← get;
    let '(kb, k) := key_bytes 16 (ks s) in
    modify (set_ks k) ;;
    let req := concat (take 9 (request_lines host path (ws_b64_encode kb 32))) in
    (if zlen req <=? 512 then mret tt else fail BufferOverflow) ;;
    vpln (cs "ws: sending handshake...") ;;
    chan (tls_send req) ;;
    resp ← recv_response polls [];
    in_array 1024 (zlen resp) ;;
    if negb (strneq resp (cs "HTTP/1.1 101") 12) then
      vpln (cs "ws: handshake failed") ;; vps (span_until 0 resp).1 ;; mret 0
    else
      s ← get;
      modify (set_ctx (WsCtx (ws_host (ctx s)) (ws_path (ctx s)) (ws_port (ctx s)) true)) ;;
      vpln (cs "ws: connected") ;; mret 1.

Definition ws_send (data : list Z) (opcode : Z) : M (ws W) Z :=
  s ← get; if connected (ctx s) then ws_send_frame opcode data else mret (-1).

Definition ws_recv (max : Z) : M (ws W) (Z * list Z) :=
  s ← get; if connected (ctx s) then r ← ws_recv_frame max; mret (r.1.1, r.2) else mret (-1, []).

Definition ws_close : M (ws W) unit :=
  s ← get;
  (if connected (ctx s) then ws_send_frame WS_OP_CLOSE [3; 232] ;; mret tt else mret tt) ;;
  s ← get;
  modify (set_ctx (WsCtx (ws_host (ctx s)) (ws_path (ctx s)) (ws_port (ctx s)) false)) ;;
  chan tls_close.

End Client.

(** ** Base 64 decodes *)

(** A reference decoder. *)
Definition b64_val (c : Z) : Z := Z.of_nat (default O (list_find (fun x => x = c) b64 ≫= fun p => Some p.1)).
Fixpoint b64_decode (l : cstr) : list Z :=
  match l with
  | p :: q :: r :: s :: l' =>
      let v := b64_val p * 2^18 + b64_val q * 2^12 + b64_val r * 2^6 + b64_val s in
      if s =? c_pad then
        let v := b64_val p * 2^18 + b64_val q * 2^12 in
        if r =? c_pad then [v / 2^16] else [v / 2^16; (v + b64_val r * 2^6) / 2^8 mod 2^8]
      else v / 2^16 :: v / 2^8 mod 2^8 :: v mod 2^8 :: b64_decode l'
  | _ => []
  end.

Lemma b64_val_at v k : 0 <= k -> b64_val (b64_at v k) = v / 2^k mod 64 /\ b64_at v k <> c_pad.
Proof.
  intros Hk. unfold b64_at. rewrite Z.shiftr_div_pow2 by done. change 63 with (Z.ones 6). rewrite Z.land_ones by lia. change (2^6) with 64.
  assert (H : 0 <= v / 2^k mod 64 < 64) by (apply Z.mod_pos_bound; lia). generalize dependent (v / 2^k mod 64). clear v k Hk. intros i Hi.
  assert (Hall : forallb (fun i => (b64_val (aget 0 b64 i) =? i) && negb (aget 0 b64 i =? c_pad)) (seqZ 0 64) = true)
    by (vm_compute; reflexivity).
  rewrite forallb_forall in Hall. specialize (Hall i). rewrite <- list_elem_of_In, elem_of_seqZ in Hall.
  specialize (Hall ltac:(lia)). bool_to_prop. by split.
Qed.

Lemma group_bits a b c : byte_ok a -> byte_ok b -> byte_ok c ->
  Z.lor (Z.lor (Z.shiftl a 16) (Z.shiftl b 8)) c = a * 2^16 + b * 2^8 + c.
Proof.
  intros Ha Hb Hc. unfold byte_ok in *. rewrite !Z.shiftl_mul_pow2 by lia. rewrite (Z.lor_comm _ c), (Z.lor_comm (a * 2^16)).
  rewrite (Z.mul_comm a), lor_high by lia. replace (b * 2^8 + 2^16 * a) with (2^8 * (b + 2^8 * a)) by lia. rewrite lor_high by lia. lia.
Qed.

Lemma group_bits2 a b : byte_ok a -> byte_ok b -> Z.lor (Z.shiftl a 16) (Z.shiftl b 8) = a * 2^16 + b * 2^8.
Proof. intros Ha Hb. pose proof (group_bits a b 0 Ha Hb) as H. rewrite Z.lor_0_r in H. rewrite H; [lia|]. unfold byte_ok. lia. Qed.

Lemma decode_group v a b c l : byte_ok a -> byte_ok b -> byte_ok c -> v = a * 2^16 + b * 2^8 + c ->
  b64_decode (b64_at v 18 :: b64_at v 12 :: b64_at v 6 :: b64_at v 0 :: l) = a :: b :: c :: b64_decode l.
Proof.
  intros Ha Hb Hc Hv. unfold byte_ok in *.
  destruct (b64_val_at v 18) as [E1 _], (b64_val_at v 12) as [E2 _], (b64_val_at v 6) as [E3 _], (b64_val_at v 0) as [E4 N4]; try lia.
  cbn [b64_decode]. rewrite (proj2 (Z.eqb_neq (b64_at v 0) c_pad)), E1, E2, E3, E4 by done. cbv zeta. change (2^0) with 1.
  assert (Hs : v / 2^18 mod 64 * 2^18 + v / 2^12 mod 64 * 2^12 + v / 2^6 mod 64 * 2^6 + v / 1 mod 64 = v)
    by (assert (0 <= v < 2^24) by lia; clear -H; Z.to_euclidean_division_equations; lia).
  rewrite Hs. f_equal; [|f_equal; [|f_equal]]; clear -Ha Hb Hc Hv; Z.to_euclidean_division_equations; lia.
Qed.

Lemma decode_two v a b : byte_ok a -> byte_ok b -> v = a * 2^16 + b * 2^8 ->
  b64_decode [b64_at v 18; b64_at v 12; b64_at v 6; c_pad] = [a; b].
Proof.
  intros Ha Hb Hv. unfold byte_ok in *.
  destruct (b64_val_at v 18) as [E1 _], (b64_val_at v 12) as [E2 _], (b64_val_at v 6) as [E3 N3]; try lia.
  cbn [b64_decode]. rewrite Z.eqb_refl, (proj2 (Z.eqb_neq (b64_at v 6) c_pad)), E1, E2, E3 by done. cbv zeta.
  f_equal; [|f_equal]; clear -Ha Hb Hv; Z.to_euclidean_division_equations; lia.
Qed.

Lemma decode_one v a : byte_ok a -> v = a * 2^16 -> b64_decode [b64_at v 18; b64_at v 12; c_pad; c_pad] = [a].
Proof.
  intros Ha Hv. unfold byte_ok in *. destruct (b64_val_at v 18) as [E1 _], (b64_val_at v 12) as [E2 _]; try lia.
  cbn [b64_decode]. rewrite Z.eqb_refl, E1, E2. cbv zeta. f_equal. clear -Ha Hv. Z.to_euclidean_division_equations. lia.
Qed.

(** Base 64 loses nothing: when the text fits the output with its terminator,
    decoding what [ws_b64_encode] wrote gives back the bytes. *)
Theorem b64_roundtrip l outmax :
  bytes_ok l -> 4 * ((zlen l + 2) / 3) < outmax -> b64_decode (ws_b64_encode l outmax) = l.
Proof.
  unfold ws_b64_encode. intros Hl. enough (Hgen : forall n oi l, (length l <= n)%nat -> bytes_ok l -> oi + 4 * ((zlen l + 2) / 3) < outmax ->
    b64_decode (b64_groups oi outmax l) = l) by (intros Ho; by apply (Hgen (length l))).
  clear l Hl. induction n as [|n IH]; intros oi l Hn Hl Hout; [destruct l; [cbn; by destruct (oi <? _)|cbn in Hn; lia]|].
  destruct l as [|a [|b [|c l]]]; [cbn; by destruct (oi <? _)|..].
  - apply Forall_cons in Hl as [Ha _]. change (oi + 4 * 1 < outmax) in Hout. cbn [b64_groups].
    rewrite (proj2 (Z.ltb_lt oi _)) by lia. cbv zeta. apply decode_one; [done|]. by rewrite Z.shiftl_mul_pow2.
  - apply Forall_cons in Hl as [Ha Hl]. apply Forall_cons in Hl as [Hb _]. change (oi + 4 * 1 < outmax) in Hout. cbn [b64_groups].
    rewrite (proj2 (Z.ltb_lt oi _)) by lia. cbv zeta. apply decode_two; [done..|]. by apply group_bits2.
  - apply Forall_cons in Hl as [Ha Hl]. apply Forall_cons in Hl as [Hb Hl]. apply Forall_cons in Hl as [Hc Hl].
    rewrite !zlen_cons in Hout. pose proof (zlen_nonneg l). cbn [length] in Hn. cbn [b64_groups].
    replace (1 + (1 + (1 + zlen l)) + 2) with (zlen l + 2 + 1 * 3) in Hout by lia. rewrite Z.div_add in Hout by lia.
    assert (0 <= (zlen l + 2) / 3) by (apply Z.div_pos; lia).
    rewrite (proj2 (Z.ltb_lt oi _)) by lia. cbv zeta. rewrite (decode_group _ a b c) by (done || by apply group_bits).
    rewrite IH; [done|lia|done|lia].
Qed.

Lemma b64_roundtrip_witness : b64_decode (ws_b64_encode (cs "pigOS") 32) = cs "pigOS" /\ ws_b64_encode (cs "pigOS") 32 = cs "cGlnT1M=".
Proof.
  split; [|vm_compute; reflexivity].
  apply (b64_roundtrip (cs "pigOS") 32); [vm_compute; repeat constructor; discriminate|vm_compute; reflexivity].
Defined.

(** ** Frames are read back *)

Lemma mask_twice d mask : ws_mask_data (ws_mask_data d mask) mask = d.
Proof.
  apply list_eq. intros i. unfold ws_mask_data. rewrite !list_lookup_imap. destruct (d !! i) as [b|]; [|done]. cbn [fmap option_fmap option_map].
  by rewrite Z.lxor_assoc, Z.lxor_nilpotent, Z.lxor_0_r.
Qed.

Lemma zlen_mask_data d mask : zlen (ws_mask_data d mask) = zlen d.
Proof. unfold zlen, ws_mask_data. by rewrite length_imap. Qed.

(** The channel as the client means it: a stream that hands on what arrives, in
    pieces of any size.  [tls_recv] of this repository is not such a channel: a
    read that asks for less than the record in front fails
    ([Tls.frame_over_tls_fails]). *)
Class ByteStream (W : Type) `{Transport W} := {
  incoming : W -> list Z;
  recv_some n w : 0 < n -> incoming w <> [] ->
    exists bs w' o, tls_recv n w = Ok (Some bs) w' o /\ bs <> [] /\ zlen bs <= n /\ incoming w = bs ++ incoming w';
}.

Section Stream.
Context {W : Type} `{ByteStream W}.
Implicit Types s : ws W.

(** A computation that only reads from the channel. *)
Definition takes {A} (m : M (ws W) A) (s : ws W) (a : A) (rest : list Z) : Prop :=
  exists w' o, m s = Ok a (set_world w' s) o /\ incoming w' = rest.

Lemma takes_bind {A B} (m : M (ws W) A) (k : A -> M (ws W) B) s a mid b rest :
  takes m s a mid -> (forall w', incoming w' = mid -> takes (k a) (set_world w' s) b rest) -> takes (m ≫= k) s b rest.
Proof.
  intros (w & o & Hm & Hw) Hk. destruct (Hk w Hw) as (w' & o' & Hk' & Hw'). exists w', (o ++ o'). split; [|done].
  unfold mbind, M_bind. rewrite Hm, Hk'. by destruct s.
Qed.

Lemma takes_ret {A} (a : A) s : takes (mret a) s a (incoming (world s)).
Proof. exists (world s), []. split; [by destruct s|done]. Qed.

Lemma read_loop_takes fuel n : forall acc bs rest s,
  incoming (world s) = bs ++ rest -> zlen acc + zlen bs = n -> zlen bs <= Z.of_nat fuel ->
  takes (read_loop fuel n acc) s (Some (acc ++ bs)) rest.
Proof.
  induction fuel as [|f IH]; intros acc bs rest s Hin Hn Hf.
  - assert (bs = []) as -> by (destruct bs; [done|]; rewrite zlen_cons in Hf; pose proof (zlen_nonneg bs); lia).
    rewrite zlen_nil in Hn. unfold read_loop. rewrite (proj2 (Z.leb_le n _)), app_nil_r by lia. cbn [app] in Hin. rewrite <- Hin. apply takes_ret.
  - destruct (Z.leb_spec n (zlen acc)) as [Hle|Hgt].
    + assert (bs = []) as -> by (destruct bs; [done|]; rewrite zlen_cons in Hn; pose proof (zlen_nonneg bs); lia).
      cbn [read_loop]. rewrite (proj2 (Z.leb_le n _)), app_nil_r by lia. cbn [app] in Hin. rewrite <- Hin. apply takes_ret.
    + cbn [read_loop]. rewrite (proj2 (Z.leb_gt n _)) by lia.
      assert (bs <> []) as Hbs by (intros ->; rewrite zlen_nil in Hn; lia).
      destruct (recv_some (n - zlen acc) (world s)) as (ch & w' & o & Hr & Hch & Hl & Hinc); [lia|rewrite Hin; by destruct bs|].
      assert (Hsplit : bs = ch ++ drop (length ch) bs /\ incoming w' = drop (length ch) bs ++ rest).
      { rewrite Hin in Hinc. assert (length ch <= length bs)%nat by (unfold zlen in *; lia).
        assert (Ht : take (length ch) bs = ch) by (rewrite <- (take_app_le bs rest), Hinc, take_app_length by done; done).
        split; [rewrite <- Ht at 1; by rewrite take_drop|]. apply (app_inv_head ch). rewrite <- Hinc, app_assoc. f_equal.
        rewrite <- Ht at 1. by rewrite take_drop. }
      destruct Hsplit as [Hbs' Hw']. apply (takes_bind _ _ _ (Some ch) (incoming w')).
      { exists w', o. split; [|done]. unfold chan, zoom. by rewrite Hr. }
      intros w2 Hw2. rewrite (proj2 (Z.ltb_ge _ _)) by lia. rewrite Hbs', app_assoc.
      assert (1 <= zlen ch) by (destruct ch; [done|]; rewrite zlen_cons; pose proof (zlen_nonneg ch); lia).
      assert (zlen bs = zlen ch + zlen (drop (length ch) bs)) by (rewrite Hbs' at 1; apply zlen_app).
      apply IH; [cbn; by rewrite Hw2, Hw'|rewrite zlen_app; lia|lia].
Qed.

Lemma read_n_takes n bs rest s : incoming (world s) = bs ++ rest -> zlen bs = n -> takes (read_n n) s (Some bs) rest.
Proof. intros Hin Hn. apply (read_loop_takes (Z.to_nat n) n []); [done|rewrite zlen_nil; lia|pose proof (zlen_nonneg bs); lia]. Qed.

(** *** The header *)

Lemma opcode_bits op : 0 <= op < 16 -> Z.land (Z.lor 128 op) 15 = op.
Proof.
  intros Hop. assert (Hall : forallb (fun op => Z.land (Z.lor 128 op) 15 =? op) (seqZ 0 16) = true) by (vm_compute; reflexivity).
  rewrite forallb_forall in Hall. specialize (Hall op). rewrite <- list_elem_of_In, elem_of_seqZ in Hall. specialize (Hall ltac:(lia)). lia.
Qed.

Lemma len_bits b : 0 <= b < 128 -> Z.land (Z.lor 128 b) 127 = b /\ Z.land (Z.lor 128 b) 128 <> 0.
Proof.
  intros Hb. assert (Hall : forallb (fun b => (Z.land (Z.lor 128 b) 127 =? b) && negb (Z.land (Z.lor 128 b) 128 =? 0)) (seqZ 0 128) = true)
    by (vm_compute; reflexivity).
  rewrite forallb_forall in Hall. specialize (Hall b). rewrite <- list_elem_of_In, elem_of_seqZ in Hall. specialize (Hall ltac:(lia)). lia.
Qed.

Lemma be_val_two n : 0 <= n < 65536 -> be_val [u8 (Z.shiftr n 8); u8 n] = n.
Proof.
  intros Hn. unfold be_val. cbn [fold_left]. rewrite Z.shiftl_0_l, Z.lor_0_l, Z.shiftr_div_pow2 by lia. unfold u8, u64.
  assert (Hh : 0 <= n / 2^8 < 2^8) by (clear -Hn; Z.to_euclidean_division_equations; lia).
  rewrite !(Z.mod_small (n / 2^8)) by lia. rewrite Z.shiftl_mul_pow2, Z.lor_comm, (Z.mul_comm _ (2^8)) by lia.
  assert (0 <= n mod 2^8 < 2^8) by (apply Z.mod_pos_bound; lia).
  rewrite lor_high by lia. rewrite (Z.add_comm (n mod _)), <- Z.div_mod by lia. apply Z.mod_small. lia.
Qed.

(** The second byte of a frame and what belongs to the length. *)
Lemma len_field_split n : 0 <= n < 65536 -> exists b1 ext,
  len_field n = b1 :: ext /\ Z.land b1 128 <> 0 /\
  forall rest s, incoming (world s) = ext ++ rest -> takes (recv_len b1) s (Some n) rest.
Proof.
  intros Hn. unfold len_field. destruct (Z.ltb_spec n 126).
  - rewrite u8_id by lia. destruct (len_bits n) as [Hl Hm]; [lia|]. eexists _, []. split; [done|]. split; [done|].
    intros rest s Hin. unfold recv_len. rewrite Hl. cbv zeta. rewrite !(proj2 (Z.eqb_neq n _)) by lia. cbn [app] in Hin.
    rewrite <- Hin. apply takes_ret.
  - rewrite (proj2 (Z.ltb_lt n 65536)) by lia. eexists _, _. split; [done|]. split; [done|]. intros rest s Hin.
    unfold recv_len. change (Z.land (Z.lor 128 126) 127) with 126. cbv zeta. rewrite Z.eqb_refl.
    eapply takes_bind; [apply (read_n_takes 2 [u8 (Z.shiftr n 8); u8 n] rest); [exact Hin|done]|]. intros w' Hw'. cbn [fmap option_fmap option_map].
    rewrite be_val_two by lia. rewrite <- Hw'. apply (takes_ret (Some n) (set_world w' s)).
Qed.

Lemma recv_frame_takes op mask payload rest maxout s :
  0 <= op < 16 -> op <> WS_OP_PING -> length mask = 4%nat -> zlen payload < 65536 -> zlen payload <= maxout < 2^31 ->
  incoming (world s) = ws_frame op mask payload ++ rest ->
  takes (ws_recv_frame maxout) s (zlen payload, Some op, payload) rest.
Proof.
  intros Hop Hping Hmask Hlen Hmax Hin. pose proof (zlen_nonneg payload) as Hpos.
  destruct (len_field_split (zlen payload)) as (b1 & ext & Hf & Hb & Hl); [lia|].
  unfold ws_frame in Hin. rewrite Hf in Hin. cbn [app] in Hin. rewrite <- !app_assoc in Hin.
  unfold ws_recv_frame.
  eapply takes_bind; [apply (read_n_takes 2 [Z.lor 128 op; b1]); [exact Hin|done]|]. intros w1 Hw1. cbv beta iota zeta.
  change (aget 0 [Z.lor 128 op; b1] 0) with (Z.lor 128 op). change (aget 0 [Z.lor 128 op; b1] 1) with b1.
  rewrite opcode_bits, (proj2 (Z.eqb_neq _ _) Hb) by done. cbn [negb].
  eapply takes_bind; [apply (Hl _ (set_world w1 s) Hw1)|]. intros w2 Hw2. cbv beta iota.
  eapply takes_bind; [apply (read_n_takes 4 mask); [exact Hw2|unfold zlen; by rewrite Hmask]|]. intros w3 Hw3. cbv beta iota.
  rewrite (i32_id (zlen payload)) by lia. rewrite (proj2 (Z.ltb_ge maxout _)), i32_id by lia.
  eapply takes_bind; [apply (read_n_takes (zlen payload) (ws_mask_data payload mask)); [exact Hw3|apply zlen_mask_data]|].
  intros w4 Hw4. cbv beta iota. rewrite mask_twice, (proj2 (Z.eqb_neq op _)) by done. rewrite <- Hw4.
  apply (takes_ret (zlen payload, Some op, payload) (set_world w4 _)).
Qed.

End Stream.

(** *** Frames on the wire *)

Lemma send_frame_sends {W} `{Transport W} (s : ws W) op payload : zlen payload < 65536 ->
  ws_send_frame op payload s = chan (tls_send (ws_frame op (mask_of (xorshift (ms s))) payload)) (set_ms (xorshift (ms s)) s).
Proof.
  intros Hlen. unfold ws_send_frame. rewrite (bind_ok get _ s s s []) by done. cbv zeta.
  rewrite (bind_ok (modify _) _ s tt (set_ms (xorshift (ms s)) s) []) by done.
  rewrite (proj2 (Z.leb_le _ _)); [by destruct (chan _ _)|].
  unfold ws_frame. rewrite !zlen_app, zlen_mask_data, zlen_cons. change (zlen (mask_of (xorshift (ms s)))) with 4.
  unfold len_field. pose proof (zlen_nonneg payload). repeat case_match; rewrite ?zlen_cons, ?zlen_nil; try lia.
Qed.

(** What RFC 6455 makes of the bytes a client sent: whether the message ends
    here, the opcode, the payload with its mask taken off, and what follows.  A
    frame of a client that is not masked is refused. *)
Definition rfc_length (n7 : Z) (r : list Z) : option (Z * list Z) :=
  if n7 =? 126 then match r with h :: l :: r' => Some (h * 256 + l, r') | _ => None end
  else if n7 =? 127 then
    if zlen r <? 8 then None else Some (fold_left (fun a b => a * 256 + b) (take 8 r) 0, drop 8 r)
  else Some (n7, r).
Definition rfc_unmask (mask d : list Z) : list Z := imap (fun i b => Z.lxor b (nth (i mod 4) mask 0)) d.
Definition rfc_frame (f : list Z) : option (bool * Z * list Z * list Z) :=
  match f with
  | b0 :: b1 :: r =>
      if b1 <? 128 then None
      else
        '(n, r) ← rfc_length (b1 - 128) r;
        if zlen r <? 4 + n then None
        else Some (128 <=? b0, b0 mod 16, rfc_unmask (take 4 r) (take (Z.to_nat n) (drop 4 r)), drop (4 + Z.to_nat n) r)
  | _ => None
  end.

Lemma rfc_unmask_eq mask d : rfc_unmask mask d = ws_mask_data d mask.
Proof.
  unfold rfc_unmask, ws_mask_data. apply imap_ext. intros i b _. f_equal. unfold aget. f_equal.
  change 3 with (Z.ones 2). rewrite Z.land_ones by lia. change (2^2) with (Z.of_nat 4). rewrite <- (Nat2Z.inj_mod i 4). by rewrite Nat2Z.id.
Qed.
Lemma lor_128 n : 0 <= n < 128 -> Z.lor 128 n = 128 + n.
Proof.
  intros Hn. assert (Hall : forallb (fun n => Z.lor 128 n =? 128 + n) (seqZ 0 128) = true) by (vm_compute; reflexivity).
  rewrite forallb_forall in Hall. specialize (Hall n). rewrite <- list_elem_of_In, elem_of_seqZ in Hall. specialize (Hall ltac:(lia)). lia.
Qed.

Lemma rfc_length_field n : 0 <= n < 65536 -> exists b1 ext, len_field n = b1 :: ext /\ 128 <= b1 /\ forall r, rfc_length (b1 - 128) (ext ++ r) = Some (n, r).
Proof.
  intros Hn. unfold len_field. destruct (Z.ltb_spec n 126).
  - rewrite u8_id, lor_128 by lia. eexists _, []. split; [done|]. split; [lia|]. intros r. unfold rfc_length.
    replace (128 + n - 128) with n by lia. by rewrite !(proj2 (Z.eqb_neq n _)) by lia.
  - rewrite (proj2 (Z.ltb_lt n 65536)) by lia. eexists _, _. split; [done|]. split; [done|]. intros r.
    change (rfc_length (Z.lor 128 126 - 128) ([u8 (Z.shiftr n 8); u8 n] ++ r)) with (Some (u8 (Z.shiftr n 8) * 256 + u8 n, r)).
    rewrite Z.shiftr_div_pow2 by lia. unfold u8. do 2 f_equal. Z.to_euclidean_division_equations. lia.
Qed.

(** C19: What is sent is the frame RFC 6455 asks for: for every opcode and every
    payload below 64 KiB, [ws_send_frame] hands its channel one message, whose
    bytes a reference decoder of the standard reads, whatever follows them, as one
    final, masked frame of that opcode with exactly that payload. *)
Theorem ws_frame_sent {W} `{Transport W} (s : ws W) op payload rest :
  0 <= op < 16 -> zlen payload < 65536 ->
  exists f, ws_send_frame op payload s = chan (tls_send f) (set_ms (xorshift (ms s)) s) /\
    rfc_frame (f ++ rest) = Some (true, op, payload, rest).
Proof.
  intros Hop Hlen. exists (ws_frame op (mask_of (xorshift (ms s))) payload). split; [by apply send_frame_sends|].
  pose proof (zlen_nonneg payload) as Hpos. set (mask := mask_of _). unfold ws_frame. rewrite (lor_128 op) by lia.
  destruct (rfc_length_field (zlen payload)) as (b1 & ext & -> & Hb & Hext); [lia|]. rewrite <- !app_assoc. cbn [app]. cbn [rfc_frame].
  rewrite (proj2 (Z.ltb_ge b1 _)) by lia. rewrite Hext. cbn [mbind option_bind].
  assert (Hm : length mask = 4%nat) by done. assert (Hd : length (ws_mask_data payload mask) = Z.to_nat (zlen payload)) by (unfold ws_mask_data, zlen; rewrite length_imap; lia).
  rewrite (proj2 (Z.ltb_ge _ _)).
  - rewrite (take_app_length' mask), (drop_app_length' mask) by done. rewrite take_app_length' by done.
    rewrite rfc_unmask_eq, mask_twice, <- drop_drop, (drop_app_length' mask), drop_app_length' by done.
    rewrite (proj2 (Z.leb_le _ _)) by lia. replace (128 + op) with (op + 8 * 16) by lia. rewrite Z.mod_add, Z.mod_small by lia. done.
  - rewrite !zlen_app. unfold zlen in *. rewrite Hm, Hd. lia.
Qed.

(** Over a channel that is a [ByteStream] a frame arrives as it was sent: the
    bytes that [ws_send_frame] hands to its channel for an opcode other than ping
    and a payload below 64 KiB that fits the caller's buffer, received in pieces
    of any size, make [ws_recv_frame] return the length, the opcode and exactly
    the payload, and leave what follows in the stream. *)
Theorem ws_frame_roundtrip {W1 W2} `{Transport W1} `{ByteStream W2} (s1 : ws W1) op payload :
  0 <= op < 16 -> op <> WS_OP_PING -> zlen payload < 65536 ->
  exists f, ws_send_frame op payload s1 = chan (tls_send f) (set_ms (xorshift (ms s1)) s1) /\
    forall (s2 : ws W2) rest maxout, zlen payload <= maxout < 2^31 -> incoming (world s2) = f ++ rest ->
      exists w' o, ws_recv_frame maxout s2 = Ok (zlen payload, Some op, payload) (set_world w' s2) o /\ incoming w' = rest.
Proof.
  intros Hop Hping Hlen. exists (ws_frame op (mask_of (xorshift (ms s1))) payload). split.
  - by apply send_frame_sends.
  - intros s2 rest maxout Hmax Hin. by apply (recv_frame_takes op (mask_of (xorshift (ms s1))) payload rest maxout s2).
Qed.

(** A channel to compute with: what arrives, at most three bytes at a time, and
    what was sent. *)
Record loop_chan := LoopChan { arriving : list Z; sent : list Z }.
#[export] Instance loop_transport : Transport loop_chan := {
  tls_connect _ _ := mret true;
  tls_send f := modify (fun w => LoopChan (arriving w) (sent w ++ f)) ;; mret 0;
  tls_recv n := fun w =>
    let k := Nat.min 3 (Z.to_nat n) in
    if bool_decide (take k (arriving w) = []) then Ok None w []
    else Ok (Some (take k (arriving w))) (LoopChan (drop k (arriving w)) (sent w)) [];
  tls_close := mret tt;
}.
Lemma ws_frame_sent_witness :
  exists f, ws_send_frame (W := loop_chan) 1 (cs "pig") (Ws ws_ctx0 0x12345678 0 (LoopChan [] [])) = chan (tls_send f) (Ws ws_ctx0 (xorshift 0x12345678) 0 (LoopChan [] [])) /\
    rfc_frame (f ++ [7]) = Some (true, 1, cs "pig", [7]).
Proof. apply (ws_frame_sent (Ws ws_ctx0 0x12345678 0 (LoopChan [] [])) 1 (cs "pig") [7]); [lia|done]. Defined.

#[export] Program Instance loop_stream : ByteStream loop_chan := { incoming := arriving }.
Next Obligation.
  intros n [a o] Hn Ha. cbn in *. destruct a as [|x a]; [done|]. destruct (Z.to_nat n) as [|k] eqn:E; [lia|].
  eexists _, _, _. split; [reflexivity|]. split; [done|]. split; [|cbn; by rewrite take_drop].
  unfold zlen. cbn. rewrite length_take. destruct k as [|[|k]]; lia.
Qed.

Definition ws_sample (w : loop_chan) : ws loop_chan := Ws (WsCtx (cs "h") (cs "/") 443 true) 305419896 2882400001 w.

Lemma ws_frame_roundtrip_witness :
  exists f, ws_send_frame WS_OP_TEXT (cs "oink oink") (ws_sample (LoopChan [] [])) =
      chan (tls_send f) (set_ms (xorshift 305419896) (ws_sample (LoopChan [] []))) /\
    forall (s2 : ws loop_chan) rest maxout, zlen (cs "oink oink") <= maxout < 2^31 -> incoming (world s2) = f ++ rest ->
      exists w' o, ws_recv_frame maxout s2 = Ok (zlen (cs "oink oink"), Some 1, cs "oink oink") (set_world w' s2) o /\ incoming w' = rest.
Proof. apply (ws_frame_roundtrip (ws_sample (LoopChan [] [])) WS_OP_TEXT (cs "oink oink")); vm_compute; split || idtac; discriminate || reflexivity. Defined.

(** A ping is answered by a pong with its payload. *)
Lemma ping_is_answered :
  let f := ws_frame WS_OP_PING [1; 2; 3; 4] (cs "hi") in
  match ws_recv_frame 100 (ws_sample (LoopChan f [])) with
  | Ok r s _ => r = (-2, Some WS_OP_PING, cs "hi") /\ sent (world s) = ws_frame WS_OP_PONG (mask_of (ms s)) (cs "hi")
  | Err _ _ _ => False
  end.
Proof. vm_compute. split; reflexivity. Qed.

(** A payload of 65536 bytes, the largest that fits, is announced with a length
    of 2^48+65536: the shifts go beyond the width of [int]. *)
Lemma large_frame_length : len_field 65536 = [255; 0; 1; 0; 0; 0; 1; 0; 0] /\ be_val [0; 1; 0; 0; 0; 1; 0; 0] = 2^48 + 65536.
Proof. vm_compute. split; reflexivity. Qed.

(** A payload longer than the buffer is cut, and its rest is taken for the next
    frame. *)
Lemma long_payload_desynchronises :
  let f := ws_frame WS_OP_TEXT [0; 0; 0; 0] [65; 66; 129; 1; 67] in
  match ws_recv_frame 2 (ws_sample (LoopChan f [])) with
  | Ok r s _ => r = (2, Some 1, [65; 66]) /\ arriving (world s) = [129; 1; 67] /\
      result (ws_recv_frame 2 s) = inl (1, Some 1, [67])
  | Err _ _ _ => False
  end.
Proof. vm_compute. repeat split; reflexivity. Qed.

(** Only nine of the fourteen pieces of the request are sent: it ends before the
    key, without the empty line that would complete it. *)
Lemma request_is_cut host path kb :
  concat (take 9 (request_lines host path kb)) =
    cs "GET " ++ path ++ cs " HTTP/1.1" ++ crlf ++ cs "Host: " ++ host ++ crlf ++ cs "Upgrade: websocket" ++ crlf ++
    cs "Connection: Upgrade" ++ crlf ++ cs "Sec-WebSocket-Key: ".
Proof.
  unfold request_lines. cbn [take concat]. rewrite app_nil_r, <- !app_assoc. reflexivity.
Qed.

(** A response of 1024 bytes has its terminator stored behind the buffer. *)
Lemma full_response_overflows :
  result (ws_connect 400 (cs "h") (cs "/") (ws_sample (LoopChan (replicate 1024 65) []))) = inr OutOfBounds.
Proof. vm_compute. reflexivity. Qed.
