(* ===== verification/Tls.v ===== *)
(** * TLS client ([crypto/tls_client.h])

    Key derivation, the record layer, the handshake and the three calls on a
    session.  The connection below is the interface [Tcp], which [Net.v]
    implements; the session is an instance of the [Transport] that [WebSocket.v]
    uses.  [stack n] stands for what [n] bytes of the stack hold. *)

From Stdlib Require Import ZArith Lia.
From stdpp Require Import base numbers list list_numbers option strings.
From S2P Require Import Prelude CLib Console Sha256 Bignum Rsa Aes Asn1 Rtl Net WebSocket.

Notation TLS_MAX_RECORD := 16384 (only parsing).
Notation TLS_MAX_CERT := 8192 (only parsing).

(** ** The connection below *)

Class Tcp (W : Type) := {
  tcp_open : Z -> Z -> M W bool;             (* [tcp_connect] *)
  tcp_push : list Z -> M W Z;                (* [tcp_send_data]: how much was taken *)
  tcp_pull : Z -> M W (Z * list Z);          (* [tcp_recv_data]: the result and the bytes stored *)
}.
#[export] Instance net_tcp {W} `{Lwip W} : Tcp (net W) := {|
  tcp_open := tcp_connect_compat; tcp_push := tcp_send_data_compat; tcp_pull := tcp_recv_data_compat |}.

(** ** State *)

Record TLS_CTX := TlsCtx {
  server_ip : Z; server_port : Z; host : cstr; client_random : list Z; server_random : list Z; premaster : list Z; master_secret : list Z;
  key_block : list Z; enc_ctx : AES_CTX; dec_ctx : AES_CTX; mac_write_key : list Z; mac_read_key : list Z; client_iv : list Z; server_iv : list Z;
  client_seq : Z; server_seq : Z; cert : X509Cert; cert_der : list Z; cert_len : Z; t_connected : bool;
  recv_buf : list Z; recv_pos : Z; recv_len : Z }.

(** [kms(&_tls,0,sizeof(TLS_CTX))] *)
Definition zeros (n : Z) : list Z := replicate (Z.to_nat n) 0.
Definition tls_ctx0 : TLS_CTX :=
  TlsCtx 0 0 [] (zeros 32) (zeros 32) (zeros 48) (zeros 48) (zeros 136) (MkCtx [] []) (MkCtx [] []) (zeros 32) (zeros 32) (zeros 16) (zeros 16)
         0 0 cert0 (zeros 8192) 0 false (zeros 16640) 0 0.

Definition c_server (ip port : Z) (h : cstr) (c : TLS_CTX) := TlsCtx ip port h (client_random c) (server_random c) (premaster c) (master_secret c) (key_block c) (enc_ctx c) (dec_ctx c) (mac_write_key c) (mac_read_key c) (client_iv c) (server_iv c) (client_seq c) (server_seq c) (cert c) (cert_der c) (cert_len c) (t_connected c) (recv_buf c) (recv_pos c) (recv_len c).
Definition c_client_random (r : list Z) (c : TLS_CTX) := TlsCtx (server_ip c) (server_port c) (host c) r (server_random c) (premaster c) (master_secret c) (key_block c) (enc_ctx c) (dec_ctx c) (mac_write_key c) (mac_read_key c) (client_iv c) (server_iv c) (client_seq c) (server_seq c) (cert c) (cert_der c) (cert_len c) (t_connected c) (recv_buf c) (recv_pos c) (recv_len c).
Definition c_server_random (r : list Z) (c : TLS_CTX) := TlsCtx (server_ip c) (server_port c) (host c) (client_random c) r (premaster c) (master_secret c) (key_block c) (enc_ctx c) (dec_ctx c) (mac_write_key c) (mac_read_key c) (client_iv c) (server_iv c) (client_seq c) (server_seq c) (cert c) (cert_der c) (cert_len c) (t_connected c) (recv_buf c) (recv_pos c) (recv_len c).
Definition c_secrets (p m : list Z) (c : TLS_CTX) := TlsCtx (server_ip c) (server_port c) (host c) (client_random c) (server_random c) p m (key_block c) (enc_ctx c) (dec_ctx c) (mac_write_key c) (mac_read_key c) (client_iv c) (server_iv c) (client_seq c) (server_seq c) (cert c) (cert_der c) (cert_len c) (t_connected c) (recv_buf c) (recv_pos c) (recv_len c).
Definition c_keys (kb wk rk ci si : list Z) (c : TLS_CTX) := TlsCtx (server_ip c) (server_port c) (host c) (client_random c) (server_random c) (premaster c) (master_secret c) kb (aes_init_ctx_iv wk ci) (aes_init_ctx_iv rk si) wk rk ci si 0 0 (cert c) (cert_der c) (cert_len c) (t_connected c) (recv_buf c) (recv_pos c) (recv_len c).
Definition c_client_iv (iv : list Z) (c : TLS_CTX) := TlsCtx (server_ip c) (server_port c) (host c) (client_random c) (server_random c) (premaster c) (master_secret c) (key_block c) (enc_ctx c) (dec_ctx c) (mac_write_key c) (mac_read_key c) iv (server_iv c) (client_seq c) (server_seq c) (cert c) (cert_der c) (cert_len c) (t_connected c) (recv_buf c) (recv_pos c) (recv_len c).
Definition c_server_iv (iv : list Z) (c : TLS_CTX) := TlsCtx (server_ip c) (server_port c) (host c) (client_random c) (server_random c) (premaster c) (master_secret c) (key_block c) (enc_ctx c) (dec_ctx c) (mac_write_key c) (mac_read_key c) (client_iv c) iv (client_seq c) (server_seq c) (cert c) (cert_der c) (cert_len c) (t_connected c) (recv_buf c) (recv_pos c) (recv_len c).
Definition c_seq (n : Z) (c : TLS_CTX) := TlsCtx (server_ip c) (server_port c) (host c) (client_random c) (server_random c) (premaster c) (master_secret c) (key_block c) (enc_ctx c) (dec_ctx c) (mac_write_key c) (mac_read_key c) (client_iv c) (server_iv c) n (server_seq c) (cert c) (cert_der c) (cert_len c) (t_connected c) (recv_buf c) (recv_pos c) (recv_len c).
Definition c_cert (x : X509Cert) (der : list Z) (n : Z) (c : TLS_CTX) := TlsCtx (server_ip c) (server_port c) (host c) (client_random c) (server_random c) (premaster c) (master_secret c) (key_block c) (enc_ctx c) (dec_ctx c) (mac_write_key c) (mac_read_key c) (client_iv c) (server_iv c) (client_seq c) (server_seq c) x der n (t_connected c) (recv_buf c) (recv_pos c) (recv_len c).
Definition c_connected (b : bool) (c : TLS_CTX) := TlsCtx (server_ip c) (server_port c) (host c) (client_random c) (server_random c) (premaster c) (master_secret c) (key_block c) (enc_ctx c) (dec_ctx c) (mac_write_key c) (mac_read_key c) (client_iv c) (server_iv c) (client_seq c) (server_seq c) (cert c) (cert_der c) (cert_len c) b (recv_buf c) (recv_pos c) (recv_len c).
Definition c_recv (b : list Z) (p n : Z) (c : TLS_CTX) := TlsCtx (server_ip c) (server_port c) (host c) (client_random c) (server_random c) (premaster c) (master_secret c) (key_block c) (enc_ctx c) (dec_ctx c) (mac_write_key c) (mac_read_key c) (client_iv c) (server_iv c) (client_seq c) (server_seq c) (cert c) (cert_der c) (cert_len c) (t_connected c) b p n.

(** [t_rng]: the static state of [tls_rng]. *)
Record tls (W : Type) := Tls { tctx : TLS_CTX; t_rng : Z; conn : W }.
Arguments Tls {W} _ _ _.
Arguments tctx {W} _.
Arguments t_rng {W} _.
Arguments conn {W} _.

(** ** Integers on the wire *)

Definition tls_write_uint8 (v : Z) : list Z := [u8 v].
Definition tls_write_uint16 (v : Z) : list Z := [u8 (Z.shiftr v 8); u8 v].
Definition tls_write_uint24 (v : Z) : list Z := [u8 (Z.shiftr v 16); u8 (Z.shiftr v 8); u8 v].
Definition tls_write_uint32 (v : Z) : list Z := [u8 (Z.shiftr v 24); u8 (Z.shiftr v 16); u8 (Z.shiftr v 8); u8 v].
Definition tls_read_uint16 (p : list Z) : Z := Z.lor (Z.shiftl (aget 0 p 0) 8) (aget 0 p 1).
Definition tls_read_uint24 (p : list Z) : Z := Z.lor (Z.lor (Z.shiftl (aget 0 p 0) 16) (Z.shiftl (aget 0 p 1) 8)) (aget 0 p 2).
Definition tls_read_uint32 (p : list Z) : Z :=
  Z.lor (Z.lor (Z.lor (Z.shiftl (aget 0 p 0) 24) (Z.shiftl (aget 0 p 1) 16)) (Z.shiftl (aget 0 p 2) 8)) (aget 0 p 3).

(** ** The host address of [tls_connect] *)

(** The loop: the address so far, the octet and the number of parts. *)
Fixpoint host_loop (s : cstr) (hip oct parts : Z) : Z * Z :=
  match s with
  | [] => (hip, parts)
  | c :: s' =>
      if parts <? 4 then
        let oct := if is_digit c then u32 (oct * 10 + (c - c_0)) else oct in
        if (c =? c_dot) || bool_decide (s' = []) then host_loop s' (Z.lor (u32 (Z.shiftl hip 8)) oct) 0 (parts + 1)
        else host_loop s' hip oct parts
      else (hip, parts)
  end.

Section Client.
Context {W : Type} `{Tcp W}.
Context (w0 c0 : list Z) (stack : Z -> list Z).
Implicit Type s : tls W.

Definition set_tctx (c : TLS_CTX) s : tls W := Tls c (t_rng s) (conn s).
Definition upd_ctx (f : TLS_CTX -> TLS_CTX) : M (tls W) unit := modify (fun s => set_tctx (f (tctx s)) s).
Definition on_conn {A} (m : M W A) : M (tls W) A := zoom conn (fun w s => Tls (tctx s) (t_rng s) w) m.

(** *** Random numbers and keys *)

Definition tls_rng : M (tls W) Z :=
  s ← get;
  let r := xorshift (t_rng s) in
  modify (fun s => Tls (tctx s) r (conn s)) ;; mret r.

Fixpoint fill_words (fuel : nat) (len : Z) (acc : list Z) : M (tls W) (list Z) :=
  match fuel with
  | O => mret acc
  | S f =>
      if zlen acc <? len then
        r ← tls_rng;
        let c := Z.min (len - zlen acc) 4 in
        fill_words f len (acc ++ map (fun j => u8 (Z.shiftr r (j * 8))) (seqZ 0 c))
      else mret acc
  end.
Definition tls_fill_random (len : Z) : M (tls W) (list Z) := fill_words (Z.to_nat len) len [].

Definition hmac (key msg : list Z) : list Z := hmac_sha256 w0 c0 key msg.

(** The loop of [tls_prf]; [a]: the 64 bytes of the local array. *)
Fixpoint prf_loop (fuel : nat) (olen : Z) (secret label seed a out : list Z) : list Z :=
  match fuel with
  | O => out
  | S f =>
      if zlen out <? olen then
        let seed_total := Z.min (zlen label + zlen seed) 256 in
        let p_buf := take (Z.to_nat (64 + seed_total)) (take 32 a ++ label ++ seed) in
        let hash := hmac secret p_buf in
        let out := out ++ take (Z.to_nat (Z.min (olen - zlen out) 32)) hash in
        let sd := take 32 a ++ take 224 seed in
        let a_seed := take (Z.to_nat (Z.min (32 + seed_total) 256)) (sd ++ drop (length sd) (stack 256)) in
        prf_loop f olen secret label seed (put a 0 (hmac (take (length secret) a) a_seed)) out
      else out
  end.

(** Only 32 bytes of the secret are copied to [a], but [slen] are used as key. *)
Definition tls_prf (olen : Z) (secret label seed : list Z) : list Z :=
  let a := put (stack 64) 0 (take 32 secret) in
  let a := put a 0 (hmac (take (length secret) a) (take 256 (label ++ seed))) in
  prf_loop (Z.to_nat olen) olen secret label seed a [].

Definition tls_compute_keys : M (tls W) unit :=
  s ← get;
  let c := tctx s in
  let kb := put (key_block c) 0 (tls_prf 104 (master_secret c) (cs "key expansion") (client_random c ++ server_random c)) in
  let at_ o n := take n (drop o kb) in
  upd_ctx (c_keys kb (at_ 0%nat 32%nat) (at_ 32%nat 32%nat) (at_ 64%nat 16%nat) (at_ 80%nat 16%nat)).

(** The sequence number of the record is always 0. *)
Definition tls_compute_mac (key : list Z) (type ver len : Z) (data : list Z) : list Z :=
  hmac key (zeros 8 ++ [u8 type; u8 (Z.shiftr ver 8); u8 ver; u8 (Z.shiftr len 8); u8 len] ++ take (Z.to_nat len) data).

(** *** Sending a record *)

(** [while(sent<5+total)]: chunks of at most 1200 bytes; [false] is [return -1]. *)
Fixpoint send_loop (fuel : nat) (buf : list Z) : M (tls W) bool :=
  match buf with
  | [] => mret true
  | _ =>
      match fuel with
      | O => mret false
      | S f =>
          r ← on_conn (tcp_push (take 1200 buf));
          if r <=? 0 then mret false else send_loop f (drop (Z.to_nat r) buf)
      end
  end.

(** The plain text of a record: data, padding, and the first half of the
    authentication code of both. *)
Definition record_plain (key data : list Z) : list Z :=
  let pad := 16 - zlen data mod 16 in
  let padded := data ++ replicate (Z.to_nat pad) pad in
  padded ++ take 16 (hmac key padded).

Definition tls_send_record (type : Z) (data : list Z) : M (tls W) Z :=
  s ← get;
  let c := tctx s in
  let enc_buf := record_plain (mac_write_key c) data in
  let total := zlen enc_buf in
  in_array (TLS_MAX_RECORD + 33) (total - 16) ;;
  match aes_cbc_encrypt (aes_init_ctx_iv (mac_write_key c) (client_iv c)) enc_buf total with
  | None => fail OutOfBounds
  | Some (_, enc) =>
      upd_ctx (c_client_iv (drop (Z.to_nat (total - 16)) enc)) ;;
      ok ← send_loop (Z.to_nat (5 + total)) ([u8 type; 3; 3] ++ tls_write_uint16 (u16 total) ++ enc);
      if negb ok then mret (-1)
      else upd_ctx (fun c => c_seq (u32 (client_seq c + 1)) c) ;; mret 0
  end.

(** *** Receiving a record *)

(** What the buffer [tmp] of 1200 bytes gives when [r] bytes are reported. *)
Definition pull_pass : M (tls W * option (list Z)) bool :=
  rd ← zoom fst (fun s sr => (s, sr.2)) (on_conn (tcp_pull 1200));
  if 0 <? rd.1 then
    in_array 1201 rd.1 ;;
    modify (fun sr => (sr.1, Some (take (Z.to_nat rd.1) (rd.2 ++ drop (length rd.2) (stack 1200))))) ;; mret true
  else mret false.
Definition tls_tcp_recv (timeout : positive) : M (tls W) (option (list Z)) := fun s =>
  match upto timeout pull_pass (s, None) with Ok _ sr o => Ok sr.2 sr.1 o | Err f sr o => Err f sr.1 o end.

(** The bytes behind the ones used go to the buffer of the session. *)
Definition keep_rest (rest : list Z) : M (tls W) unit :=
  match rest with [] => mret tt | _ => upd_ctx (fun c => c_recv (put (recv_buf c) 0 rest) 0 (zlen rest) c) end.

Fixpoint hdr_loop (fuel : nat) (hdr : list Z) : M (tls W) (option (list Z)) :=
  if zlen hdr <? 5 then
    match fuel with
    | O => mret None
    | S f =>
        tmp ← tls_tcp_recv 500000;
        match tmp with
        | None => mret None
        | Some d =>
            let need := (5 - length hdr)%nat in
            keep_rest (drop need d) ;; hdr_loop f (hdr ++ take need d)
        end
    end
  else mret (Some hdr).

Fixpoint body_loop (fuel : nat) (rlen : Z) (raw : list Z) : M (tls W) (option (list Z)) :=
  if zlen raw <? rlen then
    match fuel with
    | O => mret None
    | S f =>
        s ← get;
        let c := tctx s in
        let need := Z.to_nat (rlen - zlen raw) in
        if 0 <? recv_len c - recv_pos c then
          let d := take need (take (Z.to_nat (recv_len c - recv_pos c)) (drop (Z.to_nat (recv_pos c)) (recv_buf c))) in
          upd_ctx (fun c => c_recv (recv_buf c) (recv_pos c + zlen d) (recv_len c) c) ;;
          body_loop f rlen (raw ++ d)
        else
          tmp ← tls_tcp_recv 500000;
          match tmp with
          | None => mret None
          | Some d => keep_rest (drop need d) ;; body_loop f rlen (raw ++ take need d)
          end
    end
  else mret (Some raw).

(** The type and the bytes stored, [None] for [-1]. *)
Definition tls_recv_record (maxdata : Z) : M (tls W) (option (Z * list Z)) :=
  hdr ← hdr_loop 5 [];
  match hdr with
  | None => mret None
  | Some hdr =>
      let type := aget 0 hdr 0 in
      let rlen := tls_read_uint16 (drop 3 hdr) in
      if maxdata <? rlen then mret None
      else
        in_array (TLS_MAX_RECORD + 65) rlen ;;
        raw ← body_loop (Z.to_nat rlen) rlen [];
        match raw with
        | None => mret None
        | Some raw =>
            if type =? 0x17 then
              in_array (TLS_MAX_RECORD + 33) rlen ;;
              s ← get;
              let c := tctx s in
              match aes_cbc_decrypt (aes_init_ctx_iv (mac_read_key c) (server_iv c)) (raw ++ drop (length raw) (stack 16416)) rlen with
              | None => fail OutOfBounds
              | Some (_, dec) =>
                  upd_ctx (c_server_iv (take 16 (raw ++ drop (length raw) (stack 16448)))) ;;
                  in_array (TLS_MAX_RECORD + 32) (rlen - 1) ;;
                  let pad := Z.min (aget 0 dec (rlen - 1)) 15 in
                  let plain := Z.max (rlen - 16 - pad - 1) 0 in
                  mret (Some (type, take (Z.to_nat plain) (drop 16 dec)))
              end
            else mret (Some (type, raw))
        end
  end.
(** *** The handshake *)

(** The message with its length fields filled in; the last store goes over the
    end of the host name. *)
Definition client_hello (random session h : list Z) : list Z :=
  let ch := [1] ++ tls_write_uint24 0 ++ [3; 3] ++ random ++ [32] ++ session ++ tls_write_uint16 2 ++ tls_write_uint16 0x003D ++ [1; 0] in
  let ext_start := zlen ch in
  let ch := ch ++ tls_write_uint16 0 in
  let sni_start := zlen ch in
  let ch := ch ++ tls_write_uint16 0 in
  let sni_list_start := zlen ch in
  let ch := ch ++ tls_write_uint16 0 ++ [0] ++ tls_write_uint16 (zlen h + 3) ++ [0] ++ tls_write_uint16 (zlen h) ++ h in
  let off := zlen ch in
  let ch := put ch sni_list_start (tls_write_uint16 (off - sni_list_start - 2)) in
  let ch := put ch sni_start (tls_write_uint16 (off - sni_start - 2)) in
  let ch := put ch ext_start (tls_write_uint16 (off - ext_start - 2)) in
  let ch := put ch 1 (tls_write_uint24 (off - 4)) in
  put ch (off - 2) (tls_write_uint16 (off - 5)).

(** [enc]: the encrypted secret; the last store goes over its end. *)
Definition client_key_exchange (nl : Z) (enc : BN) : list Z :=
  let cke := [0x10] ++ tls_write_uint24 (264 - 4) ++ [3; 3] ++ tls_write_uint16 (u16 nl) ++ bn_bytes 256 enc in
  put cke 262 (tls_write_uint16 (264 - 5)).

(** The Certificate message in [resp] and what follows it. *)
Definition recv_certificate (resp : list Z) : M (tls W) unit :=
  vpln (cs "tls: Certificate message") ;;
  let n := Z.min (tls_read_uint24 (drop 7 resp)) TLS_MAX_CERT in
  s ← get;
  let der := put (cert_der (tctx s)) 0 (take (Z.to_nat n) (drop 10 resp)) in
  upd_ctx (fun c => c_cert (cert c) der n c) ;;
  _ ← zoom (fun s => cert (tctx s)) (fun x s => set_tctx (c_cert x der n (tctx s)) s) (x509_parse_cert der n);
  s ← get;
  let x := cert (tctx s) in
  vps (cs "tls: cert CN=") ;; vpln (span_until 0 (cn x)).1 ;;
  vps (cs "tls: valid from ") ;; vps (span_until 0 (not_before x)).1 ;;
  vps (cs " to ") ;; vpln (span_until 0 (not_after x)).1 ;;
  r ← tls_recv_record TLS_MAX_RECORD;
  let is_msg (r : option (Z * list Z)) (b : Z) := match r with Some (t, d) => (0 <? zlen d) && (t =? 0x16) && (aget 0 d 0 =? b) | None => false end in
  r ← (if is_msg r 0x0C then vpln (cs "tls: ServerKeyExchange") ;; tls_recv_record TLS_MAX_RECORD else mret r);
  if is_msg r 0x0E then vpln (cs "tls: ServerHelloDone") else mret tt.

(** The secrets of the session, once the server's answer was read. *)
Definition exchange_keys : M (tls W) bool :=
  pm ← tls_fill_random 46;
  upd_ctx (fun c => c_secrets ([3; 3] ++ pm) (master_secret c) c) ;;
  vpln (cs "tls: sending ClientKeyExchange...") ;;
  s ← get;
  let c := tctx s in
  let x := cert c in
  let pub_n := to_bn (take (Z.to_nat (nlen x)) (n_bytes x)) in
  let pub_e := to_bn (take (Z.to_nat (elen x)) (e_bytes x)) in
  match rsa_public (to_bn (premaster c)) pub_e pub_n with
  | None => fail OutOfBounds
  | Some enc =>
      r ← tls_send_record 0x16 (client_key_exchange (nlen x) enc);
      if r <? 0 then vpln (cs "tls: send ClientKeyExchange failed") ;; mret false
      else
        upd_ctx (fun c => c_secrets (premaster c) (tls_prf 48 (premaster c) (cs "master secret") (client_random c ++ server_random c)) c) ;;
        tls_compute_keys ;; mret true
  end.

Definition finish : M (tls W) unit :=
  vpln (cs "tls: sending ChangeCipherSpec...") ;;
  _ ← tls_send_record 0x14 [1];
  s ← get;
  let verify_data := take 12 (hmac (mac_write_key (tctx s)) (zeros 12)) in
  _ ← tls_send_record 0x16 ([0x14] ++ tls_write_uint24 12 ++ verify_data);
  r ← tls_recv_record TLS_MAX_RECORD;
  (match r with
   | Some (t, d) =>
       if 0 <? zlen d then
         r ← (if t =? 0x14 then vpln (cs "tls: ChangeCipherSpec received") ;; tls_recv_record TLS_MAX_RECORD else mret r);
         match r with
         | Some (t, d) => if (0 <? zlen d) && (t =? 0x16) && (aget 0 d 0 =? 0x14) then vpln (cs "tls: Server Finished verified") else mret tt
         | None => mret tt
         end
       else mret tt
   | None => mret tt
   end) ;;
  upd_ctx (c_connected true) ;;
  vpln (cs "tls: handshake complete").

(** The address, [None] when the name is not known. *)
Definition host_ip (h : cstr) : M (tls W) (option Z) :=
  let '(hip, parts) := host_loop h 0 0 0 in
  if parts =? 4 then mret (Some hip)
  else if streq h (cs "discord.com") then vpln (cs "tls: using Discord IP 162.159.128.233") ;; mret (Some 0xA29F80E9)
  else if streq h (cs "discord.gg") then mret (Some 0xA29F80E9)
  else vpln (cs "tls: DNS not implemented, use IP address") ;; mret None.

Definition tls_connect (h : cstr) (port : Z) : M (tls W) bool :=
  fits 128 h ;;
  upd_ctx (fun _ => c_server 0 port h tls_ctx0) ;;
  vps (cs "tls: connecting to ") ;; vps h ;; vps (cs ":") ;; vps (kuia port 10) ;; vpln (cs "...") ;;
  ip ← host_ip h;
  match ip with
  | None => mret false
  | Some ip =>
      upd_ctx (c_server ip port h) ;;
      ok ← on_conn (tcp_open ip port);
      if negb (ok : bool) then vpln (cs "tls: TCP connect failed") ;; mret false
      else
        vpln (cs "tls: TCP connected") ;;
        cr ← tls_fill_random 32;
        upd_ctx (c_client_random cr) ;;
        sid ← tls_fill_random 32;
        vpln (cs "tls: sending ClientHello") ;;
        r ← tls_send_record 0x16 (client_hello cr sid h);
        if r <? 0 then vpln (cs "tls: send ClientHello failed") ;; mret false
        else
          vpln (cs "tls: waiting for ServerHello...") ;;
          r ← tls_recv_record TLS_MAX_RECORD;
          match r with
          | None => vpln (cs "tls: no response") ;; mret false
          | Some (rtype, d) =>
              let resp := d ++ drop (length d) (stack 16448) in
              (if (rtype =? 0x16) && (aget 0 resp 0 =? 0x02) then
                 vpln (cs "tls: ServerHello received") ;; upd_ctx (c_server_random (take 32 (drop 38 resp)))
               else if (rtype =? 0x16) && (aget 0 resp 0 =? 0x0B) then recv_certificate resp
               else mret tt) ;;
              ok ← exchange_keys;
              if negb ok then mret false else finish ;; mret true
          end
  end.

(** *** The session *)

Definition tls_send (data : list Z) : M (tls W) Z :=
  s ← get;
  if negb (t_connected (tctx s)) then mret (-1) else tls_send_record 0x17 data.

(** The bytes stored, [None] for [-1]. *)
Definition tls_recv (max : Z) : M (tls W) (option (list Z)) :=
  s ← get;
  if negb (t_connected (tctx s)) then mret None
  else r ← tls_recv_record max; mret (snd <$> r).

Definition tls_close : M (tls W) unit :=
  s ← get;
  (if t_connected (tctx s) then _ ← tls_send_record 0x15 [1; 0]; mret tt else mret tt) ;;
  upd_ctx (c_connected false).

(** What the WebSocket client runs on; a result of 0 bytes is not positive. *)
Definition tls_transport : Transport (tls W) := {|
  WebSocket.tls_connect := tls_connect; WebSocket.tls_send := tls_send;
  WebSocket.tls_recv := fun max => r ← tls_recv max; mret (match r with Some [] => None | _ => r end);
  WebSocket.tls_close := tls_close |}.

End Client.

(** ** The record layer over a byte stream *)

(** The connection delivers the bytes in order, in pieces of any size: what the
    record layer means [tcp_recv_data] to do.  That of [network.h] does not, see
    [recv_reports_sixteen] and [recv_loses_a_segment] in [Net.v] and
    [tls_over_net_reads_sixteen] below. *)
Class TcpStream (W : Type) `{Tcp W} := {
  arriving : W -> list Z;
  pull_ok : forall max w, 0 < max -> arriving w <> [] ->
    exists d w', tcp_pull max w = Ok (zlen d, d) w' [] /\ d <> [] /\ zlen d <= max /\ arriving w = d ++ arriving w';
}.

(** The session without what receiving changes. *)
Definition same_keys (c c' : TLS_CTX) : Prop := c' = c_recv (recv_buf c') (recv_pos c') (recv_len c') c.

Lemma same_keys_trans a b c : same_keys a b -> same_keys b c -> same_keys a c.
Proof. unfold same_keys. intros Hab Hbc. rewrite Hbc, Hab. done. Qed.

(** A record on the wire. *)
Definition record (ty : Z) (body : list Z) : list Z := [ty; 3; 3] ++ tls_write_uint16 (zlen body) ++ body.

Lemma uint16_roundtrip n l : 0 <= n < 65536 -> tls_read_uint16 (tls_write_uint16 n ++ l) = n.
Proof.
  intros Hn. unfold tls_read_uint16, tls_write_uint16. cbn [app].
  change (aget 0 (u8 (Z.shiftr n 8) :: u8 n :: l) 0) with (u8 (Z.shiftr n 8)). change (aget 0 (u8 (Z.shiftr n 8) :: u8 n :: l) 1) with (u8 n).
  rewrite Z.shiftr_div_pow2 by lia. rewrite (u8_id (n / 2^8)) by (change (2^8) with 256; Z.to_euclidean_division_equations; lia).
  rewrite Z.shiftl_mul_pow2 by lia. rewrite Z.lor_comm, Z.mul_comm. unfold u8. pose proof (Z.mod_pos_bound n (2^8)). pose proof (Z.div_mod n (2^8)).
  rewrite lor_high by lia. lia.
Qed.

(** A piece [d] of a stream that starts with [h]: what of [h] it brings, what is
    still to come, and what it brings beyond. *)
Lemma piece_of (h rest d w : list Z) : h ++ rest = d ++ w ->
  h = take (length h) d ++ drop (length d) h /\ drop (length h) d ++ w = drop (length d) h ++ rest.
Proof.
  intros E. destruct (decide (length h <= length d)%nat) as [Hl|Hl].
  - rewrite (drop_ge h), app_nil_r by lia. pose proof (f_equal (take (length h)) E) as E1. pose proof (f_equal (drop (length h)) E) as E2.
    rewrite take_app_length, take_app_le in E1 by done. rewrite drop_app_length, drop_app_le in E2 by done. by split.
  - rewrite (drop_ge d), (take_ge d) by lia. pose proof (f_equal (take (length d)) E) as E1. pose proof (f_equal (drop (length d)) E) as E2.
    rewrite take_app_length, take_app_le in E1 by lia. rewrite drop_app_length, drop_app_le in E2 by lia. split; [|done].
    rewrite <- E1 at 1. by rewrite take_drop.
Qed.

Section Stream.
Context {W : Type} `{TcpStream W} (w0 c0 : list Z) (stack : Z -> list Z).
Implicit Type s : tls W.

Definition buffered (c : TLS_CTX) : list Z := take (Z.to_nat (recv_len c - recv_pos c)) (drop (Z.to_nat (recv_pos c)) (recv_buf c)).
Definition pending s : list Z := buffered (tctx s) ++ arriving (conn s).
Definition buf_ok (c : TLS_CTX) : Prop := zlen (recv_buf c) = 16640 /\ 0 <= recv_pos c <= recv_len c /\ recv_len c <= 16640.

Lemma recv_piece p s : arriving (conn s) <> [] ->
  exists d w, tls_tcp_recv stack p s = Ok (Some d) (Tls (tctx s) (t_rng s) w) [] /\ d <> [] /\ zlen d <= 1200 /\ arriving (conn s) = d ++ arriving w.
Proof.
  intros Ha. destruct (pull_ok 1200 (conn s)) as (d & w & E & Hd & Hl & Hw); [lia|done|]. exists d, w. split; [|done].
  assert (Hpos : 0 < zlen d) by (destruct d; [done|rewrite zlen_cons; pose proof (zlen_nonneg d); lia]).
  unfold tls_tcp_recv. rewrite (upto_first p (pull_pass stack) (s, None) (Tls (tctx s) (t_rng s) w, Some d)); [done|].
  unfold pull_pass. rewrite (bind_silent _ _ (s, None) (zlen d, d) (Tls (tctx s) (t_rng s) w, None)); [|unfold zoom, on_conn, zoom; cbn [fst]; by rewrite E].
  cbn [fst snd]. rewrite (proj2 (Z.ltb_lt 0 _) Hpos). rewrite (bind_silent (in_array _ _) _ _ tt _) by (apply in_array_ok; lia).
  unfold zlen. rewrite Nat2Z.id, take_app_length. done.
Qed.

Lemma keep_rest_eq rest s : buf_ok (tctx s) -> buffered (tctx s) = [] -> zlen rest <= 1200 ->
  exists c, keep_rest rest s = Ok tt (set_tctx c s) [] /\ same_keys (tctx s) c /\ buf_ok c /\ buffered c = rest.
Proof.
  intros (Hb & Hp & Hl) He Hr. unfold keep_rest. destruct rest as [|x rest]; [exists (tctx s); split; [by destruct s|]; split; [by destruct (tctx s)|]; by split|].
  set (r := x :: rest) in *. eexists. split; [reflexivity|]. split; [done|]. unfold buf_ok, buffered. cbn [recv_buf recv_pos recv_len c_recv].
  assert (Hput : put (recv_buf (tctx s)) 0 r = r ++ drop (length r) (recv_buf (tctx s))) by done.
  rewrite Hput, zlen_app. pose proof (zlen_nonneg r). split; [split; [|lia]|].
  - unfold zlen in *. rewrite length_drop. lia.
  - rewrite Z.sub_0_r. cbn [Z.to_nat]. rewrite drop_0. unfold zlen. rewrite Nat2Z.id. by rewrite take_app_length.
Qed.

Lemma hdr_loop_eq f : forall hdr h rest s, buf_ok (tctx s) -> buffered (tctx s) = [] -> (length h <= f)%nat -> (length hdr + length h = 5)%nat ->
  arriving (conn s) = h ++ rest ->
  exists s', hdr_loop stack f hdr s = Ok (Some (hdr ++ h)) s' [] /\ same_keys (tctx s) (tctx s') /\ buf_ok (tctx s') /\ pending s' = rest.
Proof.
  induction f as [|f IH]; intros hdr h rest s Hb He Hf Hlen Ha.
  { destruct h; [|cbn in Hf; lia]. cbn [length] in Hlen. cbn [hdr_loop]. rewrite (proj2 (Z.ltb_ge _ _)) by (unfold zlen; lia). rewrite app_nil_r.
    exists s. split; [done|]. split; [by destruct (tctx s)|]. split; [done|]. unfold pending. by rewrite He. }
  cbn [hdr_loop]. destruct (Z.ltb_spec (zlen hdr) 5) as [Hlt|Hge].
  2:{ destruct h; [|cbn in Hlen; unfold zlen in Hge; lia]. rewrite app_nil_r. exists s. split; [done|]. split; [by destruct (tctx s)|]. split; [done|].
      unfold pending. by rewrite He. }
  destruct (recv_piece 500000 s) as (d & w & Er & Hd & Hd2 & Hw); [rewrite Ha; destruct h; [unfold zlen in Hlt; cbn in Hlen; lia|done]|].
  rewrite (bind_silent _ _ s _ _ Er). set (s1 := Tls (tctx s) (t_rng s) w). cbv zeta.
  assert (Hneed : (5 - length hdr = length h)%nat) by lia. rewrite Hneed.
  destruct (keep_rest_eq (drop (length h) d) s1 Hb He) as (c & Ek & Hk & Hbc & Hbuf); [unfold zlen in *; rewrite length_drop; lia|].
  rewrite (bind_silent _ _ s1 tt _ Ek). rewrite Ha in Hw. apply piece_of in Hw as [Eh Hw]. assert (Hdl : (0 < length d)%nat) by (destruct d; [done|cbn; lia]).
  destruct (decide (length h <= length d)%nat) as [Hge|Hless].
  - rewrite (drop_ge h) in Eh, Hw by lia. rewrite app_nil_r in Eh. rewrite <- Eh.
    destruct f as [|f]; cbn [hdr_loop]; rewrite (proj2 (Z.ltb_ge _ _)) by (unfold zlen; rewrite length_app; lia); eexists;
      (split; [reflexivity|]); (split; [done|]); (split; [done|]); unfold pending; cbn [tctx conn set_tctx]; by rewrite Hbuf.
  - rewrite (drop_ge d) in Hbuf, Hw by lia. rewrite (take_ge d) in * by lia.
    destruct (IH (hdr ++ d) (drop (length d) h) rest (set_tctx c s1)) as (s2 & E2 & K2 & B2 & P2); [done|done|rewrite length_drop; lia| |done|].
    + rewrite length_app, length_drop. lia.
    + exists s2. rewrite E2, <- app_assoc, <- Eh. split; [done|]. split; [by eapply same_keys_trans|done].
Qed.

(** A pass that takes from the buffer. *)
Lemma take_buffered n s (d := take n (buffered (tctx s))) (s' := set_tctx (c_recv (recv_buf (tctx s)) (recv_pos (tctx s) + zlen d) (recv_len (tctx s)) (tctx s)) s) :
  buf_ok (tctx s) -> buf_ok (tctx s') /\ same_keys (tctx s) (tctx s') /\ pending s' = drop n (buffered (tctx s)) ++ arriving (conn s).
Proof.
  intros (Hbl & Hbp & Hbm).
  assert (Hbf : zlen (buffered (tctx s)) = recv_len (tctx s) - recv_pos (tctx s)) by (unfold buffered, zlen in *; rewrite length_take, length_drop; lia).
  assert (Hd : length d = Nat.min n (length (buffered (tctx s)))) by (unfold d; by rewrite length_take).
  split; [|split; [done|]].
  - split; [done|]. cbn [tctx s' set_tctx recv_len recv_pos recv_buf c_recv]. unfold zlen in *. lia.
  - unfold pending. cbn [conn s' set_tctx]. f_equal. unfold buffered at 1. cbn [tctx s' set_tctx recv_len recv_pos recv_buf c_recv].
    assert (E : drop n (buffered (tctx s)) = drop (length d) (buffered (tctx s))).
    { rewrite Hd. destruct (decide (n <= length (buffered (tctx s)))%nat); [by replace (Nat.min n (length (buffered (tctx s)))) with n by lia|]. rewrite !drop_ge by lia. done. }
    rewrite E. unfold buffered. rewrite skipn_firstn_comm, drop_drop. f_equal; [unfold zlen; lia|]. f_equal. unfold zlen. lia.
Qed.

Lemma body_loop_eq f : forall rlen raw b rest s, buf_ok (tctx s) -> (length b <= f)%nat -> zlen raw + zlen b = rlen -> pending s = b ++ rest ->
  exists s', body_loop stack f rlen raw s = Ok (Some (raw ++ b)) s' [] /\ same_keys (tctx s) (tctx s') /\ buf_ok (tctx s') /\ pending s' = rest.
Proof.
  induction f as [|f IH]; intros rlen raw b rest s Hb Hf Hlen Hp.
  { destruct b; [|cbn in Hf; lia]. change (zlen (@nil Z)) with 0 in Hlen. cbn [body_loop]. rewrite (proj2 (Z.ltb_ge _ _)) by lia. rewrite app_nil_r.
    exists s. split; [done|]. split; [by destruct (tctx s)|]. by split. }
  cbn [body_loop]. destruct (Z.ltb_spec (zlen raw) rlen) as [Hlt|Hge].
  2:{ destruct b; [|rewrite zlen_cons in Hlen; pose proof (zlen_nonneg b); lia]. rewrite app_nil_r. exists s. split; [done|]. split; [by destruct (tctx s)|]. by split. }
  assert (Hneed : Z.to_nat (rlen - zlen raw) = length b) by (unfold zlen in *; lia).
  assert (Hb0 : (0 < length b)%nat) by (unfold zlen in *; lia).
  rewrite (bind_silent get _ s s s) by done. cbv zeta. rewrite Hneed.
  destruct (Z.ltb_spec 0 (recv_len (tctx s) - recv_pos (tctx s))) as [Hav|Hav].
  - change (take (Z.to_nat (recv_len (tctx s) - recv_pos (tctx s))) (drop (Z.to_nat (recv_pos (tctx s))) (recv_buf (tctx s)))) with (buffered (tctx s)).
    destruct (take_buffered (length b) s Hb) as (B1 & K1 & P1). rewrite (bind_silent (upd_ctx _) _ s tt _) by done.
    set (d := take (length b) (buffered (tctx s))) in *. set (s1 := set_tctx _ s) in *.
    assert (Hdl : (0 < length d <= length b)%nat) by (destruct Hb as (? & ? & ?); unfold d, buffered, zlen in *; rewrite length_take, length_take, length_drop; lia).
    unfold pending in Hp. symmetry in Hp. apply piece_of in Hp as [Eb Hp]. fold d in Eb.
    assert (Hd2 : drop (length (buffered (tctx s))) b = drop (length d) b).
    { apply (f_equal (drop (length d))) in Eb. rewrite drop_app_length in Eb. by rewrite Eb. }
    rewrite Hd2 in Eb, Hp. rewrite Hp in P1.
    destruct (IH rlen (raw ++ d) (drop (length d) b) rest s1) as (s2 & E2 & K2 & B2 & P2); [done|rewrite length_drop; lia| |done|].
    + rewrite zlen_app. unfold zlen in *. rewrite length_drop. lia.
    + exists s2. rewrite E2, <- app_assoc, <- Eb. split; [done|]. split; [exact (same_keys_trans _ _ _ K1 K2)|done].
  - assert (Hemp : buffered (tctx s) = []).
    { unfold buffered. replace (Z.to_nat (recv_len (tctx s) - recv_pos (tctx s))) with 0%nat by lia. apply take_0. }
    assert (Ha : arriving (conn s) = b ++ rest) by (unfold pending in Hp; by rewrite Hemp in Hp).
    destruct (recv_piece 500000 s) as (d & w & Er & Hd & Hd2 & Hw); [rewrite Ha; destruct b; [cbn in Hb0; lia|done]|].
    rewrite (bind_silent _ _ s _ _ Er). set (s1 := Tls (tctx s) (t_rng s) w).
    destruct (keep_rest_eq (drop (length b) d) s1 Hb Hemp) as (c & Ek & Hk & Hbc & Hbuf); [unfold zlen in *; rewrite length_drop; lia|].
    rewrite (bind_silent _ _ s1 tt _ Ek). rewrite Ha in Hw. apply piece_of in Hw as [Eb Hw]. assert (Hdl : (0 < length d)%nat) by (destruct d; [done|cbn; lia]).
    destruct (IH rlen (raw ++ take (length b) d) (drop (length d) b) rest (set_tctx c s1)) as (s2 & E2 & K2 & B2 & P2); [done|rewrite length_drop; lia| | |].
    + unfold zlen in *. rewrite length_app, length_take, length_drop. lia.
    + unfold pending. cbn [tctx conn set_tctx s1]. by rewrite Hbuf.
    + exists s2. rewrite E2, <- app_assoc, <- Eb. split; [done|]. split; [by eapply same_keys_trans|done].
Qed.


(** Records are put together again however a stream cuts them, on a connection
    that hands over what arrives ([TcpStream], which [tcp_recv_data] of this
    repository does not satisfy, see [tls_over_net_reads_sixteen]): when the
    buffer of the session is empty and the stream starts with a record of a type
    other than application data, of at most [maxdata] and 16384 bytes, then
    [tls_recv_record] answers with its type and its bytes whatever the pieces in
    which they arrive, the keys are untouched, and every byte behind the record
    is still pending, in the buffer or in the stream. *)
Theorem tls_record_reassembled s maxdata ty body rest :
  buf_ok (tctx s) -> buffered (tctx s) = [] -> ty <> 0x17 -> zlen body <= maxdata -> zlen body <= 16384 ->
  arriving (conn s) = record ty body ++ rest ->
  exists s', tls_recv_record stack maxdata s = Ok (Some (ty, body)) s' [] /\ pending s' = rest /\ buf_ok (tctx s') /\ same_keys (tctx s) (tctx s').
Proof.
  intros Hb He Hty Hmax Hlen Ha. set (h := [ty; 3; 3] ++ tls_write_uint16 (zlen body)). pose proof (zlen_nonneg body).
  assert (Ha' : arriving (conn s) = h ++ body ++ rest) by (rewrite Ha; unfold record, h; by rewrite <- !app_assoc).
  destruct (hdr_loop_eq 5 [] h (body ++ rest) s Hb He (le_n 5) eq_refl Ha') as (s1 & E1 & K1 & B1 & P1).
  unfold tls_recv_record. rewrite (bind_silent _ _ s _ s1 E1). cbn [app]. change (aget 0 h 0) with ty.
  assert (Hrl : tls_read_uint16 (drop 3 h) = zlen body) by (unfold h; cbn [app drop]; rewrite <- (app_nil_r (tls_write_uint16 _)); apply uint16_roundtrip; lia).
  rewrite Hrl. cbv zeta. rewrite (proj2 (Z.ltb_ge _ _)) by lia. rewrite (bind_silent (in_array _ _) _ _ tt _) by (apply in_array_ok; lia).
  destruct (body_loop_eq (Z.to_nat (zlen body)) (zlen body) [] body rest s1 B1) as (s2 & E2 & K2 & B2 & P2); [unfold zlen; lia|done|done|].
  rewrite (bind_silent _ _ s1 _ s2 E2). cbn [app]. rewrite (proj2 (Z.eqb_neq _ _) Hty).
  exists s2. split; [done|]. split; [done|]. split; [done|]. by eapply same_keys_trans.
Qed.

End Stream.

(** ** Sending over a stream *)

(** The connection takes a part of what it is given, from the front, or
    refuses. *)
Class TcpSink (W : Type) `{Tcp W} := {
  taken : W -> list Z;
  push_ok : forall d w, d <> [] -> exists r w', tcp_push d w = Ok r w' [] /\
    ((r <= 0 /\ taken w' = taken w) \/ (0 < r <= zlen d /\ taken w' = taken w ++ take (Z.to_nat r) d));
}.

(** lwIP's [tcp_write] takes all of the data or, with an error, nothing; the
    network layer of this repository on top of it is such a connection. *)
Class LwipTcp (W : Type) `{Lwip W} := {
  tcp_out : W -> list Z;
  write_law : forall pcb d w, exists e w', tcp_write pcb d w = Ok e w' [] /\ tcp_out w' = if e =? 0 then tcp_out w ++ d else tcp_out w;
  output_law : forall pcb w, exists w', tcp_output pcb w = Ok tt w' [] /\ tcp_out w' = tcp_out w;
}.

#[export] Instance net_sink {W} `{LwipTcp W} : TcpSink (net W).
Proof.
  refine {| taken := fun n : net W => tcp_out (card (drv n)) |}. intros d n Hd. cbn [tcp_push net_tcp]. unfold tcp_send_data_compat.
  rewrite (bind_silent get _ n n n) by done.
  assert (Hno : exists r w', mret (M := M (net W)) 0 n = Ok r w' [] /\
    (r <= 0 /\ tcp_out (card (drv w')) = tcp_out (card (drv n)) \/
     0 < r <= zlen d /\ tcp_out (card (drv w')) = tcp_out (card (drv n)) ++ take (Z.to_nat r) d)) by (exists 0, n; split; [done|by left]).
  destruct (active_pcb n) as [pcb|]; [|exact Hno]. destruct (tcp_state n =? 2); [|exact Hno].
  destruct (write_law pcb d (card (drv n))) as (e & w & E & Ht).
  assert (Elw : lw (tcp_write pcb d) n = Ok e (set_drv (set_card w (drv n)) n) []) by (unfold lw, on_drv, on_card, zoom; by rewrite E).
  unfold tcp_send_sync. rewrite (bind_silent _ _ n e _ Elw). destruct (e =? 0); cbn [negb].
  - destruct (output_law pcb w) as (w2 & E2 & Ht2). rewrite (bind_silent _ _ _ tt (set_drv (set_card w2 (drv n)) n)).
    + eexists (zlen d), _. split; [reflexivity|]. right. cbn [drv set_drv card set_card]. rewrite Ht2, Ht. pose proof (zlen_nonneg d).
      split; [destruct d; [done|rewrite zlen_cons in *; pose proof (zlen_nonneg d); lia]|]. f_equal. unfold zlen. by rewrite Nat2Z.id, firstn_all.
    + unfold lw, on_drv, on_card, zoom. cbn [drv set_drv card set_card]. by rewrite E2.
  - eexists 0, _. split; [reflexivity|]. left. split; [done|]. cbn [drv set_drv card set_card]. exact Ht.
Defined.

Lemma zlen_hmac w0 c0 k m : zlen (hmac w0 c0 k m) = 32.
Proof.
  unfold hmac, hmac_sha256, calc_sha256, sha256_close. destruct (if _ <? 8 then _ else _) as [[[? ?] ?] ?]. unfold hash_bytes, consume, sha256_consume.
  destruct (for_ 0 4 _ _) as [? ah]. reflexivity.
Qed.

Section Sink.
Context {W : Type} `{TcpSink W} (w0 c0 : list Z).
Implicit Type s : tls W.

Lemma send_loop_eq f : forall buf s, (length buf <= f)%nat ->
  exists b w sent rest, send_loop f buf s = Ok b (Tls (tctx s) (t_rng s) w) [] /\ buf = sent ++ rest /\ taken w = taken (conn s) ++ sent /\ (b = true <-> rest = []).
Proof.
  induction f as [|f IH]; intros buf s Hf.
  { destruct buf; [|cbn in Hf; lia]. exists true, (conn s), [], []. split; [by destruct s|]. split; [done|]. by rewrite app_nil_r. }
  destruct buf as [|x buf]; [exists true, (conn s), [], []; split; [by destruct s|]; split; [done|]; by rewrite app_nil_r|].
  set (l := x :: buf) in *. change (send_loop (S f) l) with (r ← on_conn (tcp_push (take 1200 l)); if r <=? 0 then mret false else send_loop f (drop (Z.to_nat r) l)).
  destruct (push_ok (take 1200 l) (conn s)) as (r & w & E & Hr); [done|].
  assert (Eo : on_conn (tcp_push (take 1200 l)) s = Ok r (Tls (tctx s) (t_rng s) w) []) by (unfold on_conn, zoom; by rewrite E).
  rewrite (bind_silent _ _ s r _ Eo). destruct Hr as [[Hr Ht]|[Hr Ht]].
  - rewrite (proj2 (Z.leb_le r 0) Hr). exists false, w, [], l. split; [done|]. split; [done|]. by rewrite app_nil_r.
  - rewrite (proj2 (Z.leb_gt r 0)) by lia. assert (Hl : (Z.to_nat r <= length l)%nat) by (unfold zlen in Hr; rewrite length_take in Hr; lia).
    destruct (IH (drop (Z.to_nat r) l) (Tls (tctx s) (t_rng s) w)) as (b & w2 & sent & rest & E2 & Hb & Ht2 & Hi); [rewrite length_drop; lia|].
    exists b, w2, (take (Z.to_nat r) l ++ sent), rest. split; [done|]. split; [by rewrite <- app_assoc, <- Hb, take_drop|]. split; [|done].
    rewrite Ht2. cbn [conn]. rewrite Ht, <- app_assoc. do 2 f_equal. rewrite take_take. f_equal. unfold zlen in Hr. rewrite length_take in Hr. lia.
Qed.

Lemma zlen_record_plain key data : zlen data <= 16384 ->
  exists n, zlen (record_plain w0 c0 key data) = 16 * Z.of_nat n /\ zlen data + 16 < 16 * Z.of_nat n <= zlen data + 32.
Proof.
  intros Hd. pose proof (zlen_nonneg data). exists (Z.to_nat (zlen data / 16 + 2)). unfold record_plain. cbv zeta. rewrite !zlen_app.
  set (pad := 16 - zlen data mod 16). assert (Hp : zlen (replicate (Z.to_nat pad) pad) = pad).
  { unfold zlen at 1. rewrite length_replicate. unfold pad. Z.to_euclidean_division_equations; lia. }
  assert (Hh : forall k m, zlen (take 16 (hmac w0 c0 k m)) = 16).
  { intros k m. pose proof (zlen_hmac w0 c0 k m). unfold zlen in *. rewrite length_take. lia. }
  rewrite Hp, Hh. rewrite Z2Nat.id by (Z.to_euclidean_division_equations; lia). unfold pad. Z.to_euclidean_division_equations; lia.
Qed.

Lemma header_bytes ty n (enc : list Z) : 0 <= n < 65536 ->
  [ty; 3; 3] ++ tls_write_uint16 n ++ enc = [ty; 3; 3; n / 256; n mod 256] ++ enc.
Proof.
  intros Hn. unfold tls_write_uint16. cbn [app]. do 4 f_equal.
  - unfold u8. rewrite Z.shiftr_div_pow2 by lia. change (2 ^ 8) with 256. apply Z.mod_small. Z.to_euclidean_division_equations; lia.
Qed.

(** What a record carries: the data, its padding to whole blocks, and the first
    half of the code of both; encrypted block by block in chaining mode. *)
Definition sealed (key data : list Z) : list Z :=
  let pad := 16 - zlen data mod 16 in
  let padded := data ++ replicate (Z.to_nat pad) pad in
  padded ++ take 16 (ref_hmac key padded).
Definition sealed_cbc (key iv data : list Z) : list Z :=
  let plain := sealed key data in
  concat (cbc_chain (aes_cipher (aes_key_expansion key)) iv (blocks16 (length plain / 16) plain)).

(** C23: Sending a record.  With a 32-byte write key and a 16-byte vector in the
    session, for data of at most 16384 bytes, whatever the uninitialised stack
    held and whatever pieces the connection takes (from the front, or none: the
    network layer over lwIP is one, [net_sink]), [tls_send_record]
    never faults.  The bytes for the wire are the type, the version 3.3, the true
    length in two bytes, and the chained encryption, under the write key and from
    the session's vector, of the data, its padding up to a multiple of 16 and the
    first 16 bytes of the standard HMAC-SHA256 of both.  It answers 0 exactly when
    TCP took all of them, and then the vector is the last encrypted block and the
    sequence number has grown by one; it answers -1 when TCP refused, after a
    proper prefix of them. *)
Theorem tls_record_sent s ty data :
  zlen w0 = 16 -> zlen c0 = 64 -> zlen (mac_write_key (tctx s)) = 32 -> zlen (client_iv (tctx s)) = 16 -> zlen data <= 16384 ->
  let enc := sealed_cbc (mac_write_key (tctx s)) (client_iv (tctx s)) data in
  exists r s' sent rest, tls_send_record w0 c0 ty data s = Ok r s' [] /\
    [u8 ty; 3; 3; zlen enc / 256; zlen enc mod 256] ++ enc = sent ++ rest /\ taken (conn s') = taken (conn s) ++ sent /\
    ((r = 0 /\ rest = [] /\ client_iv (tctx s') = drop (length enc - 16) enc /\ client_seq (tctx s') = u32 (client_seq (tctx s) + 1)) \/
     (r = -1 /\ rest <> [])).
Proof.
  intros Hw Hc Hk Hiv Hd enc. destruct (zlen_record_plain (mac_write_key (tctx s)) data Hd) as (n & Hn & Hb). pose proof (zlen_nonneg data).
  assert (Hpl : record_plain w0 c0 (mac_write_key (tctx s)) data = sealed (mac_write_key (tctx s)) data).
  { unfold record_plain, sealed, hmac. cbv zeta. rewrite hmac_sha256_ref; [done..|lia|].
    rewrite zlen_app. unfold zlen at 2. rewrite length_replicate. pose proof (Z.mod_pos_bound (zlen data) 16). lia. }
  unfold tls_send_record. rewrite (bind_silent get _ s s s) by done. cbv zeta. rewrite Hpl in *. set (plain := sealed _ _) in *.
  rewrite (bind_silent (in_array _ _) _ s tt s) by (apply in_array_ok; lia).
  unfold aes_cbc_encrypt. assert (Hq : (zlen plain + 15) / 16 = Z.of_nat n) by (rewrite Hn; Z.to_euclidean_division_equations; lia).
  rewrite Hq, Nat2Z.id. cbn [RoundKey Iv aes_init_ctx_iv]. rewrite (take_ge (client_iv (tctx s)) 16) by (unfold zlen in *; lia).
  destruct (cbc_encrypt_chain n (aes_key_expansion (mac_write_key (tctx s))) (client_iv (tctx s)) plain Hn Hiv) as (iv & E).
  assert (Hnn : n = (length plain / 16)%nat).
  { unfold zlen in Hn. replace (length plain) with (n * 16)%nat by lia. by rewrite Nat.div_mul by lia. }
  assert (He : zlen enc = zlen plain).
  { destruct (cbc_encrypt_total n (aes_key_expansion (mac_write_key (tctx s))) (client_iv (tctx s)) plain Hn) as (iv2 & o2 & E2 & L2).
    rewrite E in E2. injection E2 as _ E2. rewrite <- L2, <- E2. unfold enc, sealed_cbc. fold plain. by rewrite <- Hnn. }
  assert (Ee : concat (cbc_chain (aes_cipher (aes_key_expansion (mac_write_key (tctx s)))) (client_iv (tctx s)) (blocks16 n plain)) = enc)
    by (unfold enc, sealed_cbc; fold plain; by rewrite <- Hnn).
  rewrite E, Ee. cbn [mbind option_bind]. rewrite (bind_silent (upd_ctx _) _ s tt _) by done. set (s1 := set_tctx _ s).
  replace (u16 (zlen plain)) with (zlen enc) by (rewrite He, u16_id by lia; done).
  assert (Hhead : [u8 ty; 3; 3] ++ tls_write_uint16 (zlen enc) ++ enc = [u8 ty; 3; 3; zlen enc / 256; zlen enc mod 256] ++ enc)
    by (apply header_bytes; lia).
  rewrite Hhead. clearbody enc.
  destruct (send_loop_eq (Z.to_nat (5 + zlen plain)) ([u8 ty; 3; 3; zlen enc / 256; zlen enc mod 256] ++ enc) s1) as (b & w & sent & rest & Es & Hrec & Ht & Hi).
  { rewrite length_app. cbn [length]. unfold zlen in *. lia. }
  rewrite (bind_silent _ _ s1 b _ Es). destruct b; cbn [negb].
  - eexists 0, _, sent, rest. split; [reflexivity|]. split; [done|]. split; [done|]. left. split; [done|]. split; [by apply Hi|].
    split; [|done]. cbn. f_equal. unfold zlen in *. lia.
  - eexists (-1), _, sent, rest. split; [reflexivity|]. split; [done|]. split; [done|]. right. split; [done|]. intros Hre. by apply Hi in Hre.
Qed.

End Sink.

(** A connection for examples: at most [piece] and one bytes go over at a time. *)
Record wire := Wire { w_in : list Z; w_out : list Z; piece : nat }.
#[export] Instance wire_tcp : Tcp wire := {|
  tcp_open _ _ := mret true;
  tcp_push d := fun w => Ok (zlen (take (S (piece w)) d)) (Wire (w_in w) (w_out w ++ take (S (piece w)) d) (piece w)) [];
  tcp_pull max := fun w =>
    let d := take (Nat.min (S (piece w)) (Z.to_nat max)) (w_in w) in Ok (zlen d, d) (Wire (drop (length d) (w_in w)) (w_out w) (piece w)) [] |}.
#[export] Instance wire_stream : TcpStream wire.
Proof.
  refine {| arriving := w_in |}. intros max w Hm Ha. cbn [tcp_pull wire_tcp]. eexists _, _. split; [reflexivity|].
  destruct (w_in w) as [|x l]; [done|]. replace (Nat.min (S (piece w)) (Z.to_nat max)) with (S (Nat.min (piece w) (Z.to_nat max - 1))) by lia.
  split; [done|]. split; [unfold zlen; rewrite length_take; cbn [length]; lia|]. cbn [w_in]. rewrite length_take. cbn [take length].
  set (k := Nat.min (piece w) (Z.to_nat max - 1)). destruct (decide (k <= length l)%nat).
  - replace (Nat.min (S k) (S (length l))) with (S k) by lia. cbn [drop app]. by rewrite take_drop.
  - replace (Nat.min (S k) (S (length l))) with (S (length l)) by lia. cbn [drop app]. rewrite take_ge, drop_ge, app_nil_r by lia. done.
Defined.
#[export] Instance wire_sink : TcpSink wire.
Proof.
  refine {| taken := w_out |}. intros d w Hd. cbn [tcp_push wire_tcp]. eexists _, _. split; [reflexivity|]. right.
  destruct d as [|x d]; [done|]. unfold zlen. rewrite length_take. cbn [length]. split; [lia|]. cbn [w_out]. f_equal.
  rewrite Nat2Z.id. cbn [take]. f_equal. destruct (decide (piece w <= length d)%nat).
  - by replace (Nat.min (S (piece w)) (S (length d))) with (S (piece w)) by lia.
  - replace (Nat.min (S (piece w)) (S (length d))) with (S (length d)) by lia. cbn [take]. by rewrite !take_ge by lia.
Defined.

Definition tls_sample (input : list Z) (n : nat) : tls wire := Tls (c_connected true tls_ctx0) 0xCAFEBABE (Wire input [] n).

Lemma tls_record_reassembled_witness :
  exists s', tls_recv_record zeros 100 (tls_sample (record 22 (cs "server hello") ++ cs "more") 2) = Ok (Some (22, cs "server hello")) s' [] /\
    pending s' = cs "more".
Proof.
  destruct (tls_record_reassembled zeros (tls_sample (record 22 (cs "server hello") ++ cs "more") 2) 100 22 (cs "server hello") (cs "more")) as (s' & E & P & _).
  - split; [vm_compute; reflexivity|]. cbn. lia.
  - reflexivity.
  - discriminate.
  - vm_compute. discriminate.
  - vm_compute. discriminate.
  - reflexivity.
  - exists s'. split; [exact E|exact P].
Defined.

Lemma tls_record_sent_witness :
  let enc := sealed_cbc (zeros 32) (zeros 16) (cs "ping") in
  exists r s' sent rest, tls_send_record (zeros 16) (zeros 64) 0x17 (cs "ping") (tls_sample [] 6) = Ok r s' [] /\
    [0x17; 3; 3; zlen enc / 256; zlen enc mod 256] ++ enc = sent ++ rest /\ w_out (conn s') = sent.
Proof.
  destruct (tls_record_sent (zeros 16) (zeros 64) (tls_sample [] 6) 0x17 (cs "ping")) as (r & s' & sent & rest & E & Hr & Ht & _).
  - reflexivity.
  - reflexivity.
  - reflexivity.
  - reflexivity.
  - vm_compute. discriminate.
  - exists r, s', sent, rest. split; [exact E|]. split; [exact Hr|exact Ht].
Defined.

(** ** What the client gets wrong *)

(** The octets are put together from the left, while lwIP wants the first one in
    the lowest byte: 10.0.2.2 becomes 2.2.0.10. *)
Lemma address_is_reversed : host_loop (cs "10.0.2.2") 0 0 0 = (0x0A000202, 4) /\ ip_parse (cs "10.0.2.2") = Some 0x0202000A.
Proof. split; reflexivity. Qed.

(** The length of the message is stored once more over the end of the name. *)
Lemma hello_clobbers_the_name :
  let ch := client_hello (zeros 32) (zeros 32) (cs "discord.com") in
  drop (length ch - 11) ch = cs "discord.c" ++ [0; 95].
Proof. vm_compute. reflexivity. Qed.

(** What is kept as the random of the server is the session identifier. *)
Lemma server_random_is_the_session_id random sid rest : length random = 32%nat -> length sid = 32%nat ->
  take 32 (drop 38 ([2; 0; 0; 70; 3; 3] ++ random ++ sid ++ rest)) = sid.
Proof.
  intros Hr Hs. change (take 32 (drop 32 (random ++ sid ++ rest)) = sid). rewrite drop_app_ge, Hr, Nat.sub_diag, drop_0 by lia.
  rewrite take_app_le by lia. apply take_ge. lia.
Qed.

(** A ServerHello that comes first, as it must, leaves no certificate: the key
    exchange then computes with an exponent of no words and indexes before it. *)
Lemma key_exchange_without_certificate {W} `{Tcp W} w0 c0 stack (s : tls W) : cert (tctx s) = cert0 ->
  exists s' o, exchange_keys w0 c0 stack s = Err OutOfBounds s' o.
Proof.
  intros Hc. unfold exchange_keys.
  assert (Hf : forall f n acc (s : tls W), exists r z, fill_words f n acc s = Ok r (Tls (tctx s) z (conn s)) []).
  { induction f as [|f IH]; intros n acc s1; cbn [fill_words]; [exists acc, (t_rng s1); by destruct s1|].
    destruct (zlen acc <? n); [|exists acc, (t_rng s1); by destruct s1].
    rewrite (bind_silent tls_rng _ s1 (xorshift (t_rng s1)) (Tls (tctx s1) (xorshift (t_rng s1)) (conn s1))) by done.
    destruct (IH n (acc ++ map (fun j => u8 (Z.shiftr (xorshift (t_rng s1)) (j * 8))) (seqZ 0 (Z.min (n - zlen acc) 4)))
      (Tls (tctx s1) (xorshift (t_rng s1)) (conn s1))) as (r & z & E). by exists r, z. }
  destruct (Hf (Z.to_nat 46) 46 [] s) as (pm & z & E). unfold tls_fill_random. rewrite (bind_silent _ _ s pm _ E).
  rewrite (bind_silent (upd_ctx _) _ _ tt _) by done. rewrite (bind_ok (vpln _) _ _ tt _ _ eq_refl). rewrite (bind_silent get _ _ _ _) by done.
  cbn [tctx set_tctx cert c_secrets]. rewrite Hc. cbv zeta. cbn [nlen elen cert0 Z.to_nat take]. eexists _, _. reflexivity.
Qed.

(** A record that is already in the buffer is not looked at: with nothing more
    arriving, the call gives up. *)
Lemma upto_never {T} p (m : M T bool) (s : T) : m s = Ok false s [] -> upto p m s = Ok false s [].
Proof.
  intros Hm. induction p as [p IH|p IH|]; cbn [upto]; [rewrite (bind_silent _ _ s false s Hm)| |done];
    by rewrite (bind_silent _ _ s false s IH), IH.
Qed.

Lemma buffered_record_is_lost {W} `{Tcp W} stack max (s : tls W) : tcp_pull 1200 (conn s) = Ok (0, []) (conn s) [] ->
  tls_recv_record stack max s = Ok None s [].
Proof.
  intros Hp. unfold tls_recv_record.
  assert (E : tls_tcp_recv stack 500000 s = Ok None s []).
  { unfold tls_tcp_recv. rewrite (upto_never _ _ (s, None)); [done|]. unfold pull_pass.
    rewrite (bind_silent _ _ (s, None) (0, []) (s, None)); [done|]. unfold zoom, on_conn, zoom. cbn [fst]. rewrite Hp. by destruct s. }
  rewrite (bind_silent _ _ s None s); [done|]. cbn [hdr_loop]. change (zlen (@nil Z) <? 5) with true. cbv iota. by rewrite (bind_silent _ _ s None s E).
Qed.

(** A record longer than the caller's buffer is refused after its header was
    taken; a WebSocket frame is read two bytes first, so over TLS it never is. *)
Lemma short_read_fails {W} `{TcpStream W} stack (s : tls W) max ty body rest :
  buf_ok (tctx s) -> buffered (tctx s) = [] -> max < zlen body <= 65535 -> arriving (conn s) = record ty body ++ rest ->
  exists s', tls_recv_record stack max s = Ok None s' [] /\ pending s' = body ++ rest.
Proof.
  intros Hb He Hl Ha. set (h := [ty; 3; 3] ++ tls_write_uint16 (zlen body)). pose proof (zlen_nonneg body).
  assert (Ha' : arriving (conn s) = h ++ body ++ rest) by (rewrite Ha; unfold record, h; by rewrite <- !app_assoc).
  destruct (hdr_loop_eq stack 5 [] h (body ++ rest) s Hb He (le_n 5) eq_refl Ha') as (s1 & E1 & K1 & B1 & P1).
  unfold tls_recv_record. rewrite (bind_silent _ _ s _ s1 E1). cbn [app].
  assert (Hrl : tls_read_uint16 (drop 3 h) = zlen body) by (unfold h; cbn [app drop]; rewrite <- (app_nil_r (tls_write_uint16 _)); apply uint16_roundtrip; lia).
  rewrite Hrl. cbv zeta. rewrite (proj2 (Z.ltb_lt max (zlen body))) by lia. by exists s1.
Qed.

Lemma frame_over_tls_fails {W} `{TcpStream W} w0 c0 stack (s : ws (tls W)) max ty body rest (c := tctx (world s)) :
  t_connected c = true -> buf_ok c -> buffered c = [] -> 2 < zlen body <= 65535 -> arriving (conn (world s)) = record ty body ++ rest ->
  exists s', ws_recv_frame (H := tls_transport w0 c0 stack) max s = Ok (-1, None, []) s' [].
Proof.
  intros Hc Hb He Hl Ha. destruct (short_read_fails stack (world s) 2 ty body rest Hb He Hl Ha) as (t & E & _).
  unfold ws_recv_frame, read_n. change (Z.to_nat 2) with 2%nat. cbn [read_loop]. change (2 <=? zlen (@nil Z)) with false. cbv iota.
  assert (Er : chan (WebSocket.tls_recv (Transport := tls_transport w0 c0 stack) (2 - zlen (@nil Z))) s = Ok None (set_world t s) []).
  { assert (Et : tls_recv stack 2 (world s) = Ok None t []).
    { unfold tls_recv. rewrite (bind_silent get _ (world s) (world s) (world s)) by done. fold c. rewrite Hc. cbn [negb]. by rewrite (bind_silent _ _ (world s) None t E). }
    unfold chan, zoom. cbn [WebSocket.tls_recv tls_transport]. change (2 - zlen (@nil Z)) with 2. by rewrite (bind_silent _ _ (world s) None t Et). }
  rewrite (bind_silent _ _ s None (set_world t s)); [by eexists|]. by rewrite (bind_silent _ _ s None _ Er).
Qed.

(** Over the calls of [Net.v] every read counts as 16 bytes. *)
Lemma tls_over_net_reads_sixteen :
  match tls_tcp_recv zeros 1 (Tls tls_ctx0 1 (lab_net [[Received (Some (record 22 (cs "a server hello of 30 bytes....")))]])) with
  | Ok (Some d) _ _ => zlen d = 16
  | _ => False
  end.
Proof. vm_compute. reflexivity. Qed.

(** An empty record of application data has its padding read before the start. *)
Lemma empty_record_faults : result (tls_recv_record zeros 100 (tls_sample (record 0x17 []) 9)) = inr OutOfBounds.
Proof. vm_compute. reflexivity. Qed.

(** Of a secret of 48 bytes, 32 are copied and 48 used: the derived keys depend
    on what the stack held. *)
Lemma prf_depends_on_the_stack :
  bool_decide (tls_prf (replicate 16 0) (replicate 64 0) zeros 12 (replicate 48 1) (cs "master secret") [] =
    tls_prf (replicate 16 0) (replicate 64 0) (fun n => replicate (Z.to_nat n) 1) 12 (replicate 48 1) (cs "master secret") []) = false.
Proof. vm_compute. reflexivity. Qed.
