(* ===== verification/Nano.v ===== *)
(** * The pnano editor ([cmd_nano] of [shell/shell.h])

    The text lives in an array [ebuf] of 2048 bytes of which the first [elen]
    count; [cur] is the cursor.  Keys come from the keyboard queue.  The
    reference editor at the end of the file works on the text before and after
    the cursor; the theorems relate the two and the file that is saved. *)

From Stdlib Require Import ZArith Lia.
From stdpp Require Import base numbers list strings gmap.
From S2P Require Import Prelude CLib Console PigPath PigFs PigFsCmd Ps2 Users.
Import Libc.

Record ed := Ed { ebuf : list Z; elen : Z; cur : Z; modified : bool }.

(** [kcp] of a string over the bytes an array held before. *)
Definition write_cstr (old s : list Z) : list Z := s ++ [0] ++ drop (length s + 1) old.

(** The string an array holds: its bytes before the first NUL. *)
Definition read_cstr (buf : list Z) : cstr := (span_until 0 buf).1.

Fixpoint nano_find_line_start (buf : list Z) (pos : nat) : Z :=
  match pos with
  | O => 0
  | S i => if aget 0 buf (Z.of_nat i) =? c_nl then Z.of_nat pos else nano_find_line_start buf i
  end.

Fixpoint line_end_loop (fuel : nat) (buf : list Z) (len i : Z) : Z :=
  match fuel with
  | O => len
  | S f => if i <? len then if aget 0 buf i =? c_nl then i else line_end_loop f buf len (i + 1) else len
  end.
Definition nano_find_line_end (buf : list Z) (len pos : Z) : Z :=
  line_end_loop (Z.to_nat (len - pos)) buf len pos.

(** The same loop as [nano_find_line_start], from [pos-2] down. *)
Definition nano_find_prev_line_start (buf : list Z) (pos : Z) : Z :=
  if pos <=? 0 then 0 else nano_find_line_start buf (Z.to_nat (pos - 1)).

(** The walk over the text up to the cursor; it stops at row 23. *)
Fixpoint cursor_walk (s : list Z) (x y : Z) : Z * Z :=
  match s with
  | [] => (x, y)
  | c :: s' =>
      if c =? c_nl then if 23 <=? y + 1 then (0, y + 1) else cursor_walk s' 0 (y + 1)
      else if 80 <=? x + 1 then if 23 <=? y + 1 then (0, y + 1) else cursor_walk s' 0 (y + 1)
      else cursor_walk s' (x + 1) y
  end.

Definition nano_redraw_cursor (e : ed) : M fs unit :=
  let '(x, y) := cursor_walk (take (Z.to_nat (Z.min (elen e) (cur e))) (ebuf e)) 0 1 in
  emit (EMove 0 1) ;; emit (EMove x y) ;; emit EHwCursor.

Definition message_line (col : Z) (s : cstr) : M fs unit :=
  vfill 0 22 80 1 c_sp col ;; vstr 1 22 col s.

(** [vx=0; vy=1; nano_redraw_cursor(...); vga_update_hw_cursor(); continue;] *)
Definition nano_home (e : ed) : M fs ed :=
  emit (EMove 0 1) ;; nano_redraw_cursor e ;; emit EHwCursor ;; mret e.

(** [nano_redraw_cursor(...); vga_update_hw_cursor(); continue;] *)
Definition nano_shown (e : ed) : M fs ed :=
  nano_redraw_cursor e ;; emit EHwCursor ;; mret e.

(** [m=memfs_find(p); if(!m)m=memfs_create(p); if(m)kcp(m->content,c);] *)
Definition store_file (p c : cstr) : M fs unit :=
  i ← memfs_find p;
  i ← (match i with Some i => mret (Some i) | None => memfs_create p end);
  match i with Some i => put_content i c | None => mret tt end.

Definition nano_save (path : cstr) (e : ed) : M fs ed :=
  in_array 2048 (elen e) ;;
  let b := aset (ebuf e) (elen e) 0 in
  store_file path (read_cstr b) ;;
  message_line (COL C_BLACK C_LGREY) (cs "Saved.") ;;
  nano_home (Ed b (elen e) (cur e) false).

Definition set_cur (c : Z) (e : ed) : ed := Ed (ebuf e) (elen e) c (modified e).

(** Shift the tail right and store [c] at the cursor. *)
Definition nano_insert (c : Z) (e : ed) : M fs ed :=
  in_array 2048 (elen e) ;; in_array 2048 (cur e) ;;
  let b := copy_down (Z.to_nat (elen e - cur e)) (Z.to_nat (cur e) + 1) (Z.to_nat (cur e)) (ebuf e) in
  nano_shown (Ed (aset b (cur e) c) (elen e + 1) (cur e + 1) true).

(** Shift the tail left over position [at_]: the byte there is lost. *)
Definition remove_at (e : ed) (at_ : Z) : list Z :=
  copy_up (Z.to_nat (elen e - 1 - at_)) (Z.to_nat at_) (Z.to_nat at_ + 1) (ebuf e).

Definition nano_up (e : ed) : M fs ed :=
  let ls := nano_find_line_start (ebuf e) (Z.to_nat (cur e)) in
  if 0 <? ls then
    let pls := nano_find_prev_line_start (ebuf e) ls in
    let plen := ls - pls - 1 in
    let col := if plen <? cur e - ls then plen else cur e - ls in
    let c := pls + col in
    nano_shown (set_cur (if c <? 0 then 0 else c) e)
  else emit EHwCursor ;; mret e.

Definition nano_down (e : ed) : M fs ed :=
  let le := nano_find_line_end (ebuf e) (elen e) (cur e) in
  if le <? elen e then
    let nls := le + 1 in
    let tls := nano_find_line_start (ebuf e) (Z.to_nat (cur e)) in
    let nlen := nano_find_line_end (ebuf e) (elen e) nls - nls in
    let col := if nlen <? cur e - tls then nlen else cur e - tls in
    let c := nls + col in
    nano_shown (set_cur (if elen e <? c then elen e else c) e)
  else emit EHwCursor ;; mret e.

(** Every key but ^X. *)
Definition nano_key (path : cstr) (c : Z) (e : ed) : M fs ed :=
  if c =? 15 then nano_save path e
  else if c =? 7 then
    message_line (COL C_WHITE C_BLUE) (cs "^X=exit ^O=save ^G=help ^K=cut line") ;; nano_home e
  else if c =? KEY_LEFT then
    if 0 <? cur e then nano_shown (set_cur (cur e - 1) e) else emit EHwCursor ;; mret e
  else if c =? KEY_RIGHT then
    if cur e <? elen e then nano_shown (set_cur (cur e + 1) e) else emit EHwCursor ;; mret e
  else if c =? KEY_UP then nano_up e
  else if c =? KEY_DOWN then nano_down e
  else if (32 <=? c) && (c <? 127) && (elen e <? 2046) then nano_insert c e
  else if (c =? c_nl) && (elen e <? 2046) then nano_insert c_nl e
  else if (c =? c_bs) && (0 <? cur e) then
    nano_shown (Ed (remove_at e (cur e - 1)) (elen e - 1) (cur e - 1) true)
  else if c =? 127 then
    if cur e <? elen e
    then nano_shown (Ed (remove_at e (cur e)) (elen e - 1) (cur e) true)
    else emit EHwCursor ;; mret e
  else mret e.

(** The loop, on the keys the keyboard will deliver; the keys left are returned. *)
Fixpoint nano_loop (path : cstr) (ks : list Z) (e : ed) : M fs (list Z) :=
  match ks with
  | [] => fail Blocked
  | c :: ks1 =>
      if c =? 24 then
        if modified e then
          message_line (COL C_BLACK C_YELLOW) (cs "Save modified buffer? (Y=yes N=no C=cancel) ") ;;
          match ks1 with
          | [] => fail Blocked
          | ans :: ks2 =>
              if (ans =? 121) || (ans =? 89) then e' ← nano_save path e; nano_loop path ks2 e'
              else if (ans =? 99) || (ans =? 67) then e' ← nano_home e; nano_loop path ks2 e'
              else mret ks2
          end
        else mret ks1
      else e' ← nano_key path c e; nano_loop path ks1 e'
  end.

(** The text [cmd_nano] opens. *)
Definition nano_open (path : cstr) : M fs cstr :=
  m ← lookup_mem path;
  match m with
  | Some m => fits 2048 (mf_content m) ;; mret (mf_content m)
  | None =>
      n ← fs_find_vnode path;
      mret match n with
           | Some n => match vn_content n with
                       | Some c => if ksl c <? 2047 then c else []
                       | None => []
                       end
           | None => []
           end
  end.

Definition nano_path (cwd : cstr) (f : option cstr) : M fs cstr :=
  if no_arg f then mret (cs "/tmp/unnamed.txt") else resolve cwd (the_arg f).

(** [stale] is what the stack array [ebuf] held before. *)
Definition cmd_nano (stale : list Z) (cwd : cstr) (f : option cstr) (ks : list Z) : M fs (list Z) :=
  path ← nano_path cwd f;
  buf ← nano_open path;
  vclear ;;
  let tb := COL C_WHITE C_BLUE in
  vfill 0 0 80 1 c_sp tb ;;
  vstr 1 0 tb (cs "pigPNano 1.0 - ") ;; vstr 16 0 tb path ;;
  vfill 0 23 80 1 c_sp (COL C_BLACK C_LGREY) ;;
  vstr 1 23 (COL C_BLACK C_LGREY) (cs "^X=exit  ^O=save  ^G=help  ARROWS=move") ;;
  let e := Ed (write_cstr stale buf) (ksl buf) (ksl buf) false in
  vset C_WHITE C_BLACK ;; emit (EMove 0 1) ;; vps (read_cstr (ebuf e)) ;;
  emit (EMove 0 1) ;; nano_redraw_cursor e ;; emit EHwCursor ;;
  ks' ← nano_loop path ks e;
  vclear ;; vrst ;; mret ks'.

(** ** The reference editor: the text before and after the cursor *)

(** The last line of a text and what precedes it (nothing, or whole lines). *)
Fixpoint last_line (s : list Z) : list Z * list Z :=
  match s with
  | [] => ([], [])
  | c :: s' =>
      let '(st, l) := last_line s' in
      if (c =? c_nl) || negb (bool_decide (st = [])) then (c :: st, l) else ([], c :: l)
  end.

Definition move_to (p : list Z) (text : list Z) : list Z * list Z := (p, drop (length p) text).

Definition edit (c : Z) (b a : list Z) : list Z * list Z :=
  if c =? KEY_LEFT then match last b with Some x => (removelast b, x :: a) | None => (b, a) end
  else if c =? KEY_RIGHT then match a with x :: a' => (b ++ [x], a') | [] => (b, a) end
  else if c =? KEY_UP then
    let '(st, l) := last_line b in
    match st with
    | [] => (b, a)
    | _ => let '(st', m) := last_line (removelast st) in move_to (st' ++ take (length l) m) (b ++ a)
    end
  else if c =? KEY_DOWN then
    let '(_, l) := last_line b in
    match span_until c_nl a with
    | (_, []) => (b, a)
    | (x, n :: r) => move_to (b ++ x ++ [n] ++ take (length l) (span_until c_nl r).1) (b ++ a)
    end
  else if ((32 <=? c) && (c <? 127) || (c =? c_nl)) && (zlen (b ++ a) <? 2046) then (b ++ [c], a)
  else if c =? c_bs then (removelast b, a)
  else if c =? 127 then (b, tail a)
  else (b, a).

Definition is_edit (c : Z) (b a : list Z) : bool :=
  ((32 <=? c) && (c <? 127) || (c =? c_nl)) && (zlen (b ++ a) <? 2046)
  || (c =? c_bs) && negb (bool_decide (b = [])) || (c =? 127) && negb (bool_decide (a = [])).

(** A session: the text last saved, and whether and with which keys it ends. *)
Fixpoint nano_ref (ks : list Z) (b a : list Z) (m : bool) (saved : option cstr) : option cstr * option (list Z) :=
  match ks with
  | [] => (saved, None)
  | c :: ks1 =>
      if c =? 24 then
        if m then
          match ks1 with
          | [] => (saved, None)
          | ans :: ks2 =>
              if (ans =? 121) || (ans =? 89) then nano_ref ks2 b a false (Some (b ++ a))
              else if (ans =? 99) || (ans =? 67) then nano_ref ks2 b a m saved
              else (saved, Some ks2)
          end
        else (saved, Some ks1)
      else if c =? 15 then nano_ref ks1 b a false (Some (b ++ a))
      else let '(b', a') := edit c b a in nano_ref ks1 b' a' (m || is_edit c b a) saved
  end.

(** ** Lemmas on lines *)

Lemma last_line_snoc s c :
  last_line (s ++ [c]) =
    if c =? c_nl then (s ++ [c], []) else let '(st, l) := last_line s in (st, l ++ [c]).
Proof.
  induction s as [|x s IH]; simpl; [by destruct (c =? c_nl)|].
  rewrite IH. destruct (c =? c_nl).
  - rewrite bool_decide_false by (by destruct s). simpl. by rewrite orb_true_r.
  - destruct (last_line s) as [st l]. by destruct ((x =? c_nl) || negb (bool_decide (st = []))).
Qed.

Lemma last_line_app s : s = (last_line s).1 ++ (last_line s).2.
Proof.
  induction s as [|c s IH] using rev_ind; [done|]. rewrite last_line_snoc.
  destruct (c =? c_nl); [by rewrite app_nil_r|].
  destruct (last_line s) as [st l]. simpl in *. by rewrite IH at 1; rewrite app_assoc.
Qed.

(** What precedes the last line ends in a newline. *)
Lemma last_line_stem s st l : last_line s = (st, l) -> st <> [] -> st = removelast st ++ [c_nl].
Proof.
  revert st l. induction s as [|c s IH] using rev_ind; intros st l; [by intros [= <- <-]|].
  rewrite last_line_snoc. destruct (c =? c_nl) eqn:Ec.
  - intros [= <- <-] _. rewrite removelast_last. bool_to_prop. by subst.
  - destruct (last_line s) as [st0 l0]. intros [= <- <-]. by apply (IH st0 l0).
Qed.

Lemma aget_app_at (b r : list Z) c i : i = Z.of_nat (length b) -> aget 0 (b ++ c :: r) i = c.
Proof. intros ->. unfold aget. by rewrite Nat2Z.id, nth_middle. Qed.

Lemma find_line_start_spec b r : nano_find_line_start (b ++ r) (length b) = zlen (last_line b).1.
Proof.
  revert r. induction b as [|c b IH] using rev_ind; intros r; [done|].
  rewrite length_app, Nat.add_1_r, last_line_snoc. cbn [nano_find_line_start].
  rewrite <- app_assoc. cbn [app]. rewrite aget_app_at by done. destruct (c =? c_nl).
  - unfold zlen. cbn [fst]. rewrite length_app. simpl. lia.
  - rewrite IH. by destruct (last_line b).
Qed.

Lemma line_end_spec a : forall b r,
  line_end_loop (length a) (b ++ a ++ r) (zlen (b ++ a)) (zlen b) = zlen b + zlen (span_until c_nl a).1.
Proof.
  induction a as [|c a IH]; intros b r; simpl; [rewrite app_nil_r, zlen_nil; lia|].
  rewrite zlen_app, zlen_cons. pose proof (zlen_nonneg a).
  rewrite (proj2 (Z.ltb_lt _ _)) by lia. rewrite aget_app_at by done.
  destruct (c =? c_nl); [simpl; rewrite zlen_nil; lia|].
  specialize (IH (b ++ [c]) r). rewrite <- !app_assoc in IH. cbn [app] in IH.
  rewrite !zlen_app, !zlen_cons, zlen_nil in IH.
  replace (zlen b + (1 + 0)) with (zlen b + 1) in IH by lia. rewrite IH.
  destruct (span_until c_nl a) as [t q]. simpl. rewrite zlen_cons. lia.
Qed.

Lemma find_line_end_spec b a r :
  nano_find_line_end (b ++ a ++ r) (zlen (b ++ a)) (zlen b) = zlen b + zlen (span_until c_nl a).1.
Proof.
  unfold nano_find_line_end. rewrite <- line_end_spec with (r := r). f_equal.
  unfold zlen. rewrite length_app. lia.
Qed.

Lemma span_until_app c s : s = (span_until c s).1 ++ (span_until c s).2.
Proof. induction s as [|x s IH]; simpl; [done|]. destruct (x =? c); [done|]. destruct (span_until c s). simpl in *. by f_equal. Qed.

Lemma read_cstr_app s r : no_nul s -> read_cstr (s ++ 0 :: r) = s.
Proof.
  unfold read_cstr. induction 1 as [|c s Hc _ IH]; simpl; [done|].
  rewrite (proj2 (Z.eqb_neq c 0)) by done. destruct (span_until 0 (s ++ 0 :: r)). simpl in *. by f_equal.
Qed.

(** ** The array represents the text around the cursor *)

Definition rep (e : ed) (b a : list Z) : Prop :=
  zlen (ebuf e) = 2048 /\ elen e = zlen (b ++ a) /\ cur e = zlen b /\ zlen (b ++ a) <= 2047 /\
  exists r, ebuf e = b ++ a ++ r.

Lemma rep_split e b a p q : rep e b a -> b ++ a = p ++ q -> rep (set_cur (zlen p) e) p q.
Proof.
  intros (Hb & Hl & Hc & Hle & r & Hr) Hq. unfold rep. simpl. rewrite <- Hq.
  split_and!; try done. exists r. by rewrite Hr, !app_assoc, Hq.
Qed.

Lemma rep_move e b a p :
  rep e b a -> p `prefix_of` b ++ a -> rep (set_cur (zlen p) e) p (drop (length p) (b ++ a)).
Proof. intros Hr [q Hq]. apply (rep_split e b a); [done|]. by rewrite Hq, drop_app_length. Qed.

Lemma zlen_zero {A} (l : list A) : zlen l <= 0 -> l = [].
Proof. destruct l; [done|]. rewrite zlen_cons. pose proof (zlen_nonneg l). lia. Qed.

Lemma nano_shown_eq e s : exists out, nano_shown e s = Ok e s out.
Proof. unfold nano_shown, nano_redraw_cursor. destruct (cursor_walk _ _ _). eexists. reflexivity. Qed.
Lemma nano_home_eq e s : exists out, nano_home e s = Ok e s out.
Proof. unfold nano_home, nano_redraw_cursor. destruct (cursor_walk _ _ _). eexists. reflexivity. Qed.

Lemma insert_shift (b a r : list Z) x c :
  <[length b := c]> (copy_down (length a) (length b + 1) (length b) (b ++ a ++ x :: r)) = b ++ c :: a ++ r.
Proof.
  apply list_eq. intros i. destruct (decide (i = length b)) as [->|Hi].
  - rewrite list_lookup_insert_eq by (rewrite length_copy_down, !length_app; simpl; lia).
    by rewrite lookup_app_r, Nat.sub_diag by lia.
  - rewrite list_lookup_insert_ne by done.
    rewrite copy_down_lookup by (rewrite ?length_app; simpl; rewrite ?length_app; simpl; lia).
    destruct (decide (i < length b)%nat).
    + rewrite bool_decide_false by lia. by rewrite !lookup_app_l by lia.
    + rewrite (lookup_app_r b (c :: a ++ r)) by lia.
      replace (i - length b)%nat with (S (i - length b - 1)) by lia.
      change ((c :: a ++ r) !! S (i - length b - 1)) with ((a ++ r) !! (i - length b - 1)%nat).
      case_bool_decide.
      * rewrite lookup_app_r by lia. rewrite !lookup_app_l by lia. by replace (length b + (i - (length b + 1)) - length b)%nat with (i - length b - 1)%nat by lia.
      * rewrite lookup_app_r by lia. rewrite !(lookup_app_r a) by lia.
        replace (i - length b - length a)%nat with (S (i - length b - 1 - length a)) by lia. done.
Qed.

Lemma remove_shift (b a r : list Z) x :
  exists q, copy_up (length a) (length b) (length b + 1) (b ++ x :: a ++ r) = b ++ a ++ q.
Proof.
  eexists (drop (length b + length a) (copy_up (length a) (length b) (length b + 1) (b ++ x :: a ++ r))).
  rewrite app_assoc. rewrite <- (take_drop (length b + length a) (copy_up _ _ _ _)) at 1. f_equal.
  apply list_eq. intros i. destruct (decide (i < length b + length a)%nat) as [Hi|Hi].
  - rewrite lookup_take_lt by done.
    rewrite copy_up_lookup by (rewrite ?length_app; simpl; rewrite ?length_app; lia).
    case_bool_decide.
    + rewrite lookup_app_r by lia. replace (length b + 1 + (i - length b) - length b)%nat with (S (i - length b)) by lia.
      change ((x :: a ++ r) !! S (i - length b)) with ((a ++ r) !! (i - length b)%nat). rewrite lookup_app_l by lia. by rewrite lookup_app_r by lia.
    + by rewrite !lookup_app_l by lia.
  - rewrite !lookup_ge_None_2; [done| |]; rewrite ?length_app, ?length_take; lia.
Qed.

Lemma rep_insert e b a c :
  rep e b a -> zlen (b ++ a) < 2046 ->
  rep (Ed (aset (copy_down (Z.to_nat (elen e - cur e)) (Z.to_nat (cur e) + 1) (Z.to_nat (cur e)) (ebuf e))
                (cur e) c) (elen e + 1) (cur e + 1) true) (b ++ [c]) a.
Proof.
  intros (Hb & Hl & Hc & Hle & r & Hr) Hlt. unfold rep. simpl.
  rewrite Hl, Hc, Hr in *. rewrite zlen_app in *.
  replace (Z.to_nat (zlen b + zlen a - zlen b)) with (length a) by (unfold zlen; lia).
  replace (Z.to_nat (zlen b)) with (length b) by (unfold zlen; lia).
  destruct r as [|x r]; [rewrite !zlen_app, zlen_nil in Hb; lia|].
  unfold aset. replace (Z.to_nat (zlen b)) with (length b) by (unfold zlen; lia). rewrite insert_shift.
  rewrite !zlen_app, !zlen_cons in Hb.
  rewrite !zlen_app, !zlen_cons, !zlen_app, !zlen_nil. split_and!; try lia. exists r. by rewrite <- app_assoc.
Qed.

Lemma rep_remove e b a x k b1 a1 :
  rep e b a -> b ++ a = b1 ++ x :: a1 -> k = zlen b1 ->
  rep (Ed (remove_at e k) (elen e - 1) k true) b1 a1.
Proof.
  intros (Hb & Hl & Hc & Hle & r & Hr) Hs ->. unfold rep, remove_at. simpl.
  rewrite app_assoc, Hs in Hr. rewrite Hs in Hl, Hle. rewrite Hl, Hr in *.
  rewrite zlen_app, zlen_cons in *. rewrite <- app_assoc in *.
  replace (Z.to_nat (zlen b1 + (1 + zlen a1) - 1 - zlen b1)) with (length a1) by (unfold zlen; lia).
  replace (Z.to_nat (zlen b1)) with (length b1) by (unfold zlen; lia). cbn [app].
  destruct (remove_shift b1 a1 r x) as [q Hq]. split_and!; try (rewrite zlen_app; lia); try done; [|by exists q].
  unfold zlen in *. rewrite length_copy_up. rewrite !length_app in *. simpl in *. rewrite length_app. lia.
Qed.

Lemma last_removelast (b : list Z) x : last b = Some x -> b = removelast b ++ [x].
Proof. intros (b' & ->)%last_Some. by rewrite removelast_last. Qed.

Lemma nano_up_spec e b a s :
  rep e b a -> exists e' out, nano_up e s = Ok e' s out /\ modified e' = modified e /\
    rep e' (edit KEY_UP b a).1 (edit KEY_UP b a).2.
Proof.
  intros Hrep. pose proof Hrep as (Hb & Hl & Hc & Hle & r & Hr).
  assert (Hls : nano_find_line_start (ebuf e) (Z.to_nat (cur e)) = zlen (last_line b).1).
  { rewrite Hc, Hr. replace (Z.to_nat (zlen b)) with (length b) by (unfold zlen; lia). apply find_line_start_spec. }
  unfold nano_up. rewrite Hls. change (edit KEY_UP b a) with
    (let '(st, l) := last_line b in match st with [] => (b, a) | _ => let '(st', m) := last_line (removelast st) in
       move_to (st' ++ take (length l) m) (b ++ a) end).
  pose proof (last_line_app b) as Happ. pose proof (last_line_stem b) as Hstem.
  destruct (last_line b) as [st l]. simpl in Happ |- *.
  destruct st as [|x0 st0] eqn:Est; [exists e; eauto|]. rewrite <- Est in *.
  assert (Hst : st = removelast st ++ [c_nl]) by (eapply Hstem; [done|by rewrite Est]).
  clear Est x0 st0 Hstem. set (p := removelast st) in *.
  assert (Hz : zlen st = zlen p + 1) by (rewrite Hst, zlen_app, zlen_cons, zlen_nil; lia).
  assert (Hp : nano_find_prev_line_start (ebuf e) (zlen st) = zlen (last_line p).1).
  { unfold nano_find_prev_line_start. pose proof (zlen_nonneg p). rewrite (proj2 (Z.leb_gt _ _)) by lia.
    replace (Z.to_nat (zlen st - 1)) with (length p) by (unfold zlen in *; lia).
    rewrite Hr, Happ, Hst, <- !app_assoc. apply find_line_start_spec. }
  rewrite Hp. pose proof (last_line_app p) as Hp2. destruct (last_line p) as [st' m]. simpl in Hp2 |- *.
  pose proof (zlen_nonneg p). rewrite (proj2 (Z.ltb_lt _ _)) by lia.
  assert (Hb2 : zlen b = zlen st + zlen l) by (rewrite Happ, zlen_app; lia).
  assert (Hpp : zlen p = zlen st' + zlen m) by (rewrite Hp2, zlen_app; lia).
  pose proof (zlen_nonneg st'). pose proof (zlen_nonneg m). pose proof (zlen_nonneg l).
  match goal with |- context [nano_shown (set_cur ?v e)] => replace v with (zlen (st' ++ take (length l) m)) end.
  - destruct (nano_shown_eq (set_cur (zlen (st' ++ take (length l) m)) e) s) as [out ->].
    eexists _, out. split; [done|]. split; [done|]. unfold move_to. simpl. apply rep_move; [done|].
    exists (drop (length l) m ++ [c_nl] ++ l ++ a). rewrite Happ, Hst, Hp2. rewrite <- !app_assoc. f_equal.
    by rewrite (app_assoc (take _ _)), take_drop.
  - rewrite zlen_app. unfold zlen at 2. rewrite length_take. rewrite Hz, Hpp, Hc, Hb2, Hz, Hpp.
    unfold zlen in *. repeat case_test; lia.
Qed.

Lemma nano_down_spec e b a s :
  rep e b a -> exists e' out, nano_down e s = Ok e' s out /\ modified e' = modified e /\
    rep e' (edit KEY_DOWN b a).1 (edit KEY_DOWN b a).2.
Proof.
  intros Hrep. pose proof Hrep as (Hb & Hl & Hc & Hle & r & Hr).
  assert (Hls : nano_find_line_start (ebuf e) (Z.to_nat (cur e)) = zlen (last_line b).1).
  { rewrite Hc, Hr. replace (Z.to_nat (zlen b)) with (length b) by (unfold zlen; lia). apply find_line_start_spec. }
  unfold nano_down. rewrite Hls, Hl, Hc. change (edit KEY_DOWN b a) with
    (let '(_, l) := last_line b in match span_until c_nl a with (_, []) => (b, a)
     | (x, n :: r) => move_to (b ++ x ++ [n] ++ take (length l) (span_until c_nl r).1) (b ++ a) end).
  assert (Hend : nano_find_line_end (ebuf e) (zlen (b ++ a)) (zlen b) = zlen b + zlen (span_until c_nl a).1)
    by (rewrite Hr; apply find_line_end_spec).
  rewrite Hend. pose proof (last_line_app b) as Happ.
  pose proof (span_until_app c_nl a) as Ha. destruct (last_line b) as [st l].
  destruct (span_until c_nl a) as [x [|n q]]; simpl in Happ, Ha |- *.
  { rewrite app_nil_r in Ha. subst x. rewrite zlen_app, Z.ltb_irrefl. eexists e, _. split; [reflexivity|done]. }
  assert (Hza : zlen a = zlen x + (1 + zlen q)) by (by rewrite Ha, zlen_app, zlen_cons).
  pose proof (zlen_nonneg q). rewrite (proj2 (Z.ltb_lt _ _)) by (rewrite zlen_app; lia).
  assert (He : nano_find_line_end (ebuf e) (zlen (b ++ a)) (zlen b + zlen x + 1) =
               zlen b + zlen x + 1 + zlen (span_until c_nl q).1).
  { pose proof (find_line_end_spec (b ++ x ++ [n]) q r) as Hs. rewrite <- !app_assoc in Hs. cbn [app] in Hs.
    rewrite Hr, Ha, <- !app_assoc. cbn [app].
    replace (zlen b + zlen x + 1) with (zlen (b ++ x ++ [n])) by (rewrite !zlen_app, zlen_cons, zlen_nil; lia).
    exact Hs. }
  rewrite He. pose proof (span_until_app c_nl q) as Hq. destruct (span_until c_nl q) as [m q']. simpl in Hq |- *.
  assert (Hb2 : zlen b = zlen st + zlen l) by (rewrite Happ, zlen_app; lia).
  assert (Hzq : zlen q = zlen m + zlen q') by (by rewrite Hq, zlen_app).
  pose proof (zlen_nonneg q'). pose proof (zlen_nonneg st). pose proof (zlen_nonneg l).
  match goal with |- context [nano_shown (set_cur ?v e)] => replace v with (zlen (b ++ x ++ n :: take (length l) m)) end.
  - destruct (nano_shown_eq (set_cur (zlen (b ++ x ++ n :: take (length l) m)) e) s) as [out ->].
    eexists _, out. split; [done|]. split; [done|]. unfold move_to. simpl. apply rep_move; [done|].
    exists (drop (length l) m ++ q'). rewrite Ha, Hq. rewrite <- !app_assoc. do 2 f_equal. cbn [app]. f_equal.
    by rewrite (app_assoc (take _ _)), take_drop.
  - rewrite !zlen_app, zlen_cons. unfold zlen at 3. rewrite length_take. rewrite Hza, Hzq.
    unfold zlen in *. repeat case_test; lia.
Qed.

(** ** Saving *)

(** The file a store of [c] under [p] leaves: a new name is a directory when it
    ends in a slash. *)
Definition stored (s : fs) (p c : cstr) : MemFile :=
  MkMem p c true match abs s !! p with
                 | Some m => mf_is_dir m
                 | None => (1 <? ksl p) && (cget p (ksl p - 1) =? c_slash)
                 end.

(** Whether a store under a name shows: the name is not marked deleted, and has
    or finds a slot. *)
Definition kept (s : fs) (p : cstr) : bool :=
  negb (is_deleted s p) && (bool_decide (is_Some (abs s !! p)) || (memfs_n s <? 64)).

Lemma kept_spec s p : kept s p = true <-> is_deleted s p = false /\ (is_Some (abs s !! p) \/ memfs_n s < 64).
Proof. unfold kept. by rewrite andb_true_iff, negb_true_iff, orb_true_iff, bool_decide_eq_true, Z.ltb_lt. Qed.

Lemma store_file_kept s p c :
  fs_ok s -> zlen p < 128 -> kept s p = true -> zlen c < 2048 ->
  exists s', store_file p c s = Ok tt s' [] /\ fs_ok s' /\ kept s' p = true /\
    abs s' = <[p := stored s p c]> (abs s).
Proof.
  intros Hs Hp [Hd Hroom]%kept_spec Hc. unfold store_file, stored.
  rewrite (bind_ok _ _ s (find_slot s p) s []) by (by apply memfs_find_eq).
  pose proof (abs_find_slot s p) as Ha. destruct (find_slot s p) as [i|] eqn:Ef.
  - destruct (find_slot_Some s p i Ef) as (m & Hm & _). simpl in Ha. rewrite Hm in Ha. rewrite Ha.
    destruct (put_content_spec s p i m c) as (s1 & Hput & Hs1 & Ha1 & Hn & Hdn & Hdp); try done.
    exists s1. rewrite (bind_ok _ _ s (Some i) s []) by done. rewrite Hput. split; [done|]. split; [done|].
    rewrite kept_spec, Ha1, lookup_insert_eq. unfold is_deleted in *. rewrite Hdn, Hdp. eauto.
  - rewrite Ha in *. destruct Hroom as [[? ?]|Hn]; [done|].
    set (new := MkMem p [] true ((1 <? ksl p) && (cget p (ksl p - 1) =? c_slash))).
    set (s1 := set_memfs (memfs s ++ [new]) s).
    rewrite (bind_ok _ _ s (Some (length (memfs s))) s1 []).
    2:{ rewrite memfs_create_eq by done. rewrite Ef. by rewrite (proj2 (Z.leb_gt 64 (memfs_n s))) by lia. }
    assert (Hs1 : fs_ok s1) by (by apply append_ok).
    assert (Ha1 : abs s1 = <[p := new]> (abs s)) by (by apply abs_append).
    assert (Hi : memfs s1 !! length (memfs s) = Some new) by (simpl; by rewrite lookup_app_r, Nat.sub_diag).
    assert (Hf1 : find_slot s1 p = Some (length (memfs s))).
    { assert (Hx : abs s1 !! p = Some new) by (by rewrite Ha1, lookup_insert_eq).
      rewrite abs_find_slot in Hx. destruct (find_slot s1 p) as [j|] eqn:E; [|done].
      destruct (find_slot_Some s1 p j E) as (m & Hm & Hl & Hpm). f_equal.
      eapply (ok_unique s1 Hs1); [exact Hm|exact Hi|done| |done].
      unfold live. simpl. unfold is_deleted in *. simpl. by rewrite Hd. }
    destruct (put_content_spec s1 p (length (memfs s)) new c) as (s2 & Hput & Hs2 & Ha2 & Hn2 & Hdn & Hdp); try done.
    exists s2. rewrite Hput. split; [done|]. split; [done|].
    rewrite kept_spec, Ha2, Ha1, insert_insert_eq, lookup_insert_eq. unfold is_deleted in *. rewrite Hdn, Hdp. eauto.
Qed.

(** A store that does not show: the table is full, or the file of a deleted name
    is written where no lookup finds it. *)
Lemma store_file_lost s p c :
  fs_ok s -> zlen p < 128 -> kept s p = false -> zlen c < 2048 ->
  exists s', store_file p c s = Ok tt s' [] /\ fs_ok s' /\ kept s' p = false /\ abs s' = abs s.
Proof.
  intros Hs Hp Hk Hc. unfold store_file.
  assert (Habs : abs s !! p = None).
  { destruct (is_deleted s p) eqn:Hd; [by apply abs_deleted|]. unfold kept in Hk. rewrite Hd in Hk. simpl in Hk.
    apply orb_false_iff in Hk as [Hk _]. destruct (abs s !! p); [|done]. by apply bool_decide_eq_false in Hk as []. }
  assert (Ef : find_slot s p = None).
  { rewrite abs_find_slot in Habs. destruct (find_slot s p) as [i|] eqn:E; [|done].
    destruct (find_slot_Some s p i E) as (m & Hm & _). congruence. }
  rewrite (bind_ok _ _ s None s []) by (rewrite memfs_find_eq by done; by rewrite Ef).
  destruct (Z.leb_spec 64 (memfs_n s)) as [Hn|Hn].
  { rewrite (bind_ok _ _ s None s []); [by exists s|]. rewrite memfs_create_eq by done. rewrite Ef.
    by rewrite (proj2 (Z.leb_le 64 (memfs_n s))) by lia. }
  assert (Hd : is_deleted s p = true).
  { destruct (is_deleted s p) eqn:Hd; [done|]. unfold kept in Hk. rewrite Hd, (proj2 (Z.ltb_lt _ _) Hn), orb_true_r in Hk. done. }
  set (new := MkMem p [] true ((1 <? ksl p) && (cget p (ksl p - 1) =? c_slash))).
  set (s1 := set_memfs (memfs s ++ [new]) s).
  rewrite (bind_ok _ _ s (Some (length (memfs s))) s1 []).
  2:{ rewrite memfs_create_eq by done. rewrite Ef. by rewrite (proj2 (Z.leb_gt 64 (memfs_n s))) by lia. }
  assert (Hs1 : fs_ok s1) by (by apply append_ok).
  assert (Hi : memfs s1 !! length (memfs s) = Some new) by (simpl; by rewrite lookup_app_r, Nat.sub_diag).
  eexists. split; [unfold put_content, fits; by rewrite (proj2 (Z.ltb_lt (zlen c) 2048)) by lia|].
  split; [by eapply update_ok|]. split; [unfold kept, is_deleted in *; simpl; by rewrite Hd|].
  rewrite (abs_update_hidden s1 _ new) by done. by apply abs_append_hidden.
Qed.

(** Either way the store returns, and whether later ones show does not change. *)
Lemma store_file_spec s p c :
  fs_ok s -> zlen p < 128 -> zlen c < 2048 ->
  exists s', store_file p c s = Ok tt s' [] /\ fs_ok s' /\ kept s' p = kept s p /\
    abs s' = if kept s p then <[p := stored s p c]> (abs s) else abs s.
Proof.
  intros Hs Hp Hc. destruct (kept s p) eqn:Hk; [by apply store_file_kept|by apply store_file_lost].
Qed.

Lemma nano_save_spec path e b a s :
  rep e b a -> no_nul (b ++ a) -> fs_ok s -> zlen path < 128 ->
  exists e' s' out, nano_save path e s = Ok e' s' out /\ rep e' b a /\ modified e' = false /\
    fs_ok s' /\ kept s' path = kept s path /\
    abs s' = if kept s path then <[path := stored s path (b ++ a)]> (abs s) else abs s.
Proof.
  intros (Hb & Hl & Hc & Hle & r & Hr) Hnul Hs Hst. unfold nano_save.
  pose proof (zlen_nonneg (b ++ a)).
  assert (Hin : in_array 2048 (elen e) s = Ok tt s []).
  { unfold in_array. by replace ((0 <=? elen e) && (elen e <? 2048)) with true by lia. }
  rewrite (bind_ok _ _ s tt s []) by exact Hin.
  assert (exists x r', r = x :: r') as (x & r' & ->).
  { destruct r; [|eauto]. rewrite Hr, app_nil_r in Hb. lia. }
  assert (Hset : aset (ebuf e) (elen e) 0 = (b ++ a) ++ 0 :: r').
  { unfold aset. rewrite Hr, Hl, app_assoc. unfold zlen. rewrite Nat2Z.id.
    rewrite insert_app_r_alt by lia. by rewrite Nat.sub_diag. }
  rewrite Hset, read_cstr_app by done.
  destruct (store_file_spec s path (b ++ a) Hs Hst ltac:(lia)) as (s' & Hsf & Hs' & Hst' & Ha).
  rewrite (bind_ok _ _ s tt s' []) by exact Hsf.
  set (e' := Ed ((b ++ a) ++ 0 :: r') (elen e) (cur e) false).
  destruct (nano_home_eq e' s') as [out Hout].
  unfold message_line. eexists e', s', _. split.
  - unfold vfill, vstr, emit, mbind, M_bind in *. rewrite Hout. reflexivity.
  - split; [|done]. unfold rep. simpl. split_and!; try done.
    + rewrite Hr in Hb. rewrite !zlen_app, zlen_cons in *. lia.
    + exists (0 :: r'). by rewrite <- app_assoc.
Qed.

(** ** Every key *)

Definition refines_edit (c : Z) (e : ed) (b a : list Z) (s : fs) (r : res fs ed) : Prop :=
  exists e' out, r = Ok e' s out /\ rep e' (edit c b a).1 (edit c b a).2 /\
    modified e' = modified e || is_edit c b a.

Lemma refines_shown c e e' b a s :
  rep e' (edit c b a).1 (edit c b a).2 -> modified e' = modified e || is_edit c b a ->
  refines_edit c e b a s (nano_shown e' s).
Proof. intros Hr Hm. destruct (nano_shown_eq e' s) as [out ->]. exists e', out. done. Qed.

Lemma refines_same c e b a s out (m : M fs ed) :
  m s = Ok e s out -> rep e b a -> edit c b a = (b, a) -> is_edit c b a = false ->
  refines_edit c e b a s (m s).
Proof. intros -> Hr He Hi. exists e, out. rewrite He, Hi, orb_false_r. done. Qed.

Lemma nano_insert_refines c e b a s :
  rep e b a -> zlen (b ++ a) < 2046 -> edit c b a = (b ++ [c], a) -> is_edit c b a = true ->
  refines_edit c e b a s (nano_insert c e s).
Proof.
  intros Hrep Hlt He Hi. pose proof Hrep as (Hb & Hl & Hc & Hle & _).
  pose proof (zlen_nonneg a). pose proof (zlen_nonneg b). pose proof (zlen_app b a). unfold nano_insert.
  assert (Hin : forall i, 0 <= i < 2048 -> in_array 2048 i s = Ok tt s []).
  { intros i Hr. unfold in_array. by replace ((0 <=? i) && (i <? 2048)) with true by lia. }
  rewrite (bind_ok _ _ s tt s []) by (apply Hin; lia).
  rewrite (bind_ok _ _ s tt s []) by (apply Hin; lia).
  match goal with |- context [nano_shown ?x s] => pose proof (refines_shown c e x b a s) as Hsh end.
  cbv zeta in *. destruct (nano_shown _ s) eqn:E.
  - apply Hsh; [rewrite He; by apply rep_insert|]. simpl. by rewrite Hi, orb_true_r.
  - destruct (Hsh ltac:(rewrite He; by apply rep_insert) ltac:(simpl; by rewrite Hi, orb_true_r)) as (? & ? & ? & _). done.
Qed.

Lemma zlen_removelast (b : list Z) x : last b = Some x -> zlen b = zlen (removelast b) + 1.
Proof. intros H%last_removelast. rewrite H at 1. rewrite zlen_app, zlen_cons, zlen_nil. lia. Qed.

Lemma nano_left_refines e b a s :
  rep e b a -> refines_edit KEY_LEFT e b a s
    ((if 0 <? cur e then nano_shown (set_cur (cur e - 1) e) else emit EHwCursor ;; mret e) s).
Proof.
  intros Hrep. pose proof Hrep as (_ & _ & Hc & _). case_test.
  - destruct (last b) as [x|] eqn:Ex; [|apply last_None in Ex as ->; rewrite zlen_nil in *; lia].
    apply refines_shown; [|by rewrite orb_false_r].
    assert (He : edit KEY_LEFT b a = (removelast b, x :: a)) by (unfold edit; simpl; by rewrite Ex).
    rewrite He. pose proof (zlen_removelast b x Ex).
    replace (cur e - 1) with (zlen (removelast b)) by lia.
    apply (rep_split e b a); [done|]. rewrite (last_removelast b x Ex) at 1. by rewrite <- app_assoc.
  - assert (b = []) as -> by (apply zlen_zero; lia). eapply refines_same; [reflexivity|done..].
Qed.

Lemma nano_right_refines e b a s :
  rep e b a -> refines_edit KEY_RIGHT e b a s
    ((if cur e <? elen e then nano_shown (set_cur (cur e + 1) e) else emit EHwCursor ;; mret e) s).
Proof.
  intros Hrep. pose proof Hrep as (_ & Hl & Hc & _). rewrite zlen_app in Hl. case_test.
  - destruct a as [|x a]; [rewrite zlen_nil in *; lia|]. apply refines_shown; [|by rewrite orb_false_r].
    replace (cur e + 1) with (zlen (b ++ [x])) by (rewrite Hc, zlen_app, zlen_cons, zlen_nil; lia).
    apply (rep_split e b (x :: a)); [done|]. unfold edit. simpl. by rewrite <- app_assoc.
  - assert (a = []) as -> by (apply zlen_zero; lia). eapply refines_same; [reflexivity|done..].
Qed.

(** The removing keys, once the text is full or the key prints nothing. *)
Lemma nano_backspace_refines e b a s :
  rep e b a -> refines_edit c_bs e b a s
    ((if 0 <? cur e then nano_shown (Ed (remove_at e (cur e - 1)) (elen e - 1) (cur e - 1) true) else mret e) s).
Proof.
  intros Hrep. pose proof Hrep as (_ & _ & Hc & _). case_test.
  - destruct (last b) as [x|] eqn:Ex; [|apply last_None in Ex as ->; rewrite zlen_nil in *; lia].
    pose proof (zlen_removelast b x Ex). apply last_removelast in Ex. apply refines_shown.
    + apply (rep_remove e b a x); [done| |simpl; lia]. rewrite Ex at 1. by rewrite <- app_assoc.
    + unfold is_edit. simpl. rewrite bool_decide_false by (rewrite Ex; by destruct (removelast b)). by rewrite orb_true_r.
  - assert (b = []) as -> by (apply zlen_zero; lia). eapply refines_same; [reflexivity|done..].
Qed.

Lemma nano_delete_refines e b a s :
  rep e b a -> refines_edit 127 e b a s
    ((if cur e <? elen e then nano_shown (Ed (remove_at e (cur e)) (elen e - 1) (cur e) true)
      else emit EHwCursor ;; mret e) s).
Proof.
  intros Hrep. pose proof Hrep as (_ & Hl & Hc & _). rewrite zlen_app in Hl. case_test.
  - destruct a as [|x a]; [rewrite zlen_nil in *; lia|]. apply refines_shown.
    + by apply (rep_remove e b (x :: a) x).
    + unfold is_edit. simpl. by rewrite orb_true_r.
  - assert (a = []) as -> by (apply zlen_zero; lia). eapply refines_same; [reflexivity|done..].
Qed.

Lemma nano_key_refines path c e b a s :
  rep e b a -> c <> 15 -> c <> 24 -> refines_edit c e b a s (nano_key path c e s).
Proof.
  intros Hrep H15 H24. pose proof Hrep as (_ & Hl & Hc & _).
  unfold nano_key. rewrite (proj2 (Z.eqb_neq c 15)) by done.
  destruct (Z.eqb_spec c 7) as [->|H7].
  { destruct (nano_home_eq e s) as [out Ho]. unfold message_line, vfill, vstr, emit, mbind, M_bind.
    rewrite Ho. eexists e, _. split; [reflexivity|]. by rewrite orb_false_r. }
  destruct (Z.eqb_spec c KEY_LEFT) as [->|HL]; [by apply nano_left_refines|].
  destruct (Z.eqb_spec c KEY_RIGHT) as [->|HR]; [by apply nano_right_refines|].
  destruct (Z.eqb_spec c KEY_UP) as [->|HU].
  { destruct (nano_up_spec e b a s Hrep) as (e' & out & -> & Hm & Hr). exists e', out. by rewrite orb_false_r. }
  destruct (Z.eqb_spec c KEY_DOWN) as [->|HD].
  { destruct (nano_down_spec e b a s Hrep) as (e' & out & -> & Hm & Hr). exists e', out. by rewrite orb_false_r. }
  assert (Hins : forall P : Prop, (((32 <=? c) && (c <? 127) || (c =? c_nl)) && (zlen (b ++ a) <? 2046) = true -> P) ->
    zlen (b ++ a) < 2046 -> (32 <= c < 127 \/ c = c_nl) -> P) by (intros P HP; intros; apply HP; lia).
  rewrite Hl. destruct ((32 <=? c) && (c <? 127) && (zlen (b ++ a) <? 2046)) eqn:Ep.
  { bool_to_prop. apply Hins; [|lia|lia]. intros Hb.
    apply nano_insert_refines; [done|lia| |unfold is_edit; by rewrite Hb].
    unfold edit. by rewrite !(proj2 (Z.eqb_neq c _)), Hb by done. }
  destruct ((c =? c_nl) && (zlen (b ++ a) <? 2046)) eqn:En.
  { bool_to_prop. subst c. apply nano_insert_refines; [done|lia| |]; unfold edit, is_edit;
      by rewrite (proj2 (Z.ltb_lt (zlen (b ++ a)) 2046)) by lia. }
  rewrite <- Hl. destruct (Z.eqb_spec c c_bs) as [->|HB]; [|cbn [andb]].
  { pose proof (nano_backspace_refines e b a s Hrep) as Hbs. by destruct (0 <? cur e). }
  destruct (Z.eqb_spec c 127) as [->|HE]; [by apply nano_delete_refines|].
  eapply refines_same; [done|done| |]; unfold edit, is_edit;
    rewrite ?(proj2 (Z.eqb_neq c _)) by done; by repeat case_test; try lia.
Qed.

(** A key leaves a text without NUL bytes. *)
Lemma edit_no_nul c b a : no_nul (b ++ a) -> no_nul ((edit c b a).1 ++ (edit c b a).2).
Proof.
  intros Hn. pose proof Hn as Hn2. rewrite no_nul_app in Hn2. destruct Hn2 as [Hb Ha].
  assert (Hmove : forall p q, p ++ q = b ++ a -> no_nul (p ++ q)) by (by intros ? ? ->).
  assert (Hdrop : forall p, p `prefix_of` b ++ a -> no_nul (p ++ drop (length p) (b ++ a))).
  { intros p [q Hq]. apply Hmove. by rewrite Hq, drop_app_length. }
  unfold edit, move_to. repeat (case_test; [|]).
  - destruct (last b) as [x|] eqn:Ex; [|done]. apply Hmove. simpl. rewrite (last_removelast b x Ex) at 2. by rewrite <- app_assoc.
  - destruct a; [done|]. apply Hmove. simpl. by rewrite <- app_assoc.
  - pose proof (last_line_app b) as Hl. pose proof (last_line_stem b) as Hst. destruct (last_line b) as [st l].
    simpl in Hl. destruct st as [|x st0] eqn:Est; [done|]. rewrite <- Est in *.
    specialize (Hst st l eq_refl ltac:(by rewrite Est)). clear Est x st0.
    pose proof (last_line_app (removelast st)) as Hl2.
    destruct (last_line (removelast st)) as [st' m]. simpl in Hl2 |- *. apply Hdrop.
    exists (drop (length l) m ++ [c_nl] ++ l ++ a). rewrite Hl, Hst, Hl2, <- !app_assoc. f_equal.
    by rewrite (app_assoc (take _ _)), take_drop.
  - destruct (last_line b) as [_ l]. pose proof (span_until_app c_nl a) as Hsp. destruct (span_until c_nl a) as [x [|n r]]; [done|].
    simpl. apply Hdrop. pose proof (span_until_app c_nl r) as Hr. destruct (span_until c_nl r) as [m q]. simpl in *.
    exists (drop (length l) m ++ q). rewrite Hsp, Hr, <- !app_assoc. cbn [app]. do 3 f_equal.
    by rewrite (app_assoc (take _ _)), take_drop.
  - simpl. rewrite !no_nul_app, no_nul_cons. split_and!; try done; [|apply no_nul_nil]. lia.
  - apply no_nul_app. split; [|done]. destruct (last b) as [x|] eqn:Ex.
    + rewrite (last_removelast b x Ex), no_nul_app in Hb. apply Hb.
    + apply last_None in Ex as ->. done.
  - simpl. apply no_nul_app. split; [done|]. destruct a; [done|]. by apply no_nul_cons in Ha as [_ ?].
  - done.
Qed.

(** The visible files after a session that last saved [saved]. *)
Definition saved_map (s : fs) (path : cstr) (saved : option cstr) : gmap (list Z) MemFile :=
  match saved with None => abs s | Some c => if kept s path then <[path := stored s path c]> (abs s) else abs s end.

Lemma saved_map_again s0 s path saved c :
  abs s = saved_map s0 path saved -> kept s path = kept s0 path ->
  (if kept s path then <[path := stored s path c]> (abs s) else abs s) = saved_map s0 path (Some c).
Proof.
  intros Ha ->. simpl. unfold stored. rewrite Ha. destruct saved as [c0|]; [|done]. simpl.
  destruct (kept s0 path); [|done]. by rewrite lookup_insert_eq, insert_insert_eq.
Qed.

Definition ends (r : res fs (list Z)) (fin : option (list Z)) (s' : fs) : Prop :=
  exists out, r = match fin with Some ks => Ok ks s' out | None => Err Blocked s' out end.

Lemma ends_bind {A} (m : M fs A) k s x s1 out fin s' :
  m s = Ok x s1 out -> ends (k x s1) fin s' -> ends ((m ≫= k) s) fin s'.
Proof. intros Hm [o Hk]. unfold ends. rewrite (bind_ok _ _ _ _ _ _ Hm), Hk. exists (out ++ o). by destruct fin. Qed.

Lemma nano_loop_refines s0 path n : forall ks e b a s saved,
  (length ks <= n)%nat -> rep e b a -> no_nul (b ++ a) -> fs_ok s -> zlen path < 128 -> kept s path = kept s0 path ->
  abs s = saved_map s0 path saved ->
  exists s', ends (nano_loop path ks e s) (nano_ref ks b a (modified e) saved).2 s' /\ fs_ok s' /\
    abs s' = saved_map s0 path (nano_ref ks b a (modified e) saved).1.
Proof.
  induction n as [|n IH]; intros ks e b a s saved Hn Hrep Hnul Hs Hlp Hst Ha.
  { destruct ks; [|simpl in Hn; lia]. exists s. split; [by exists []|done]. }
  destruct ks as [|c ks]; [exists s; split; [by exists []|done]|]. simpl in Hn. cbn [nano_loop nano_ref].
  assert (Hsave : forall ks', (length ks' <= n)%nat -> exists s',
    ends ((e' ← nano_save path e; nano_loop path ks' e') s) (nano_ref ks' b a false (Some (b ++ a))).2 s' /\
    fs_ok s' /\ abs s' = saved_map s0 path (nano_ref ks' b a false (Some (b ++ a))).1).
  { intros ks' Hk. destruct (nano_save_spec path e b a s) as (e' & s1 & out & Hsv & Hr' & Hm & Hs1 & Hst1 & Ha1); try done.
    destruct (IH ks' e' b a s1 (Some (b ++ a))) as (s' & He & Hs' & Ha'); try done.
    { by rewrite Hst1. }
    { rewrite Ha1. by eapply saved_map_again. }
    rewrite Hm in He, Ha'. exists s'. split; [by eapply ends_bind|done]. }
  destruct (Z.eqb_spec c 24) as [->|H24].
  - destruct (modified e) eqn:Em; [|exists s; split; [by exists []|done]].
    assert (Hmsg : exists out, message_line (COL C_BLACK C_YELLOW) (cs "Save modified buffer? (Y=yes N=no C=cancel) ") s = Ok tt s out)
      by (eexists; reflexivity).
    destruct Hmsg as [out0 Hmsg]. destruct ks as [|ans ks].
    { exists s. split; [|done]. unfold ends. rewrite (bind_ok _ _ _ _ _ _ Hmsg). eexists. reflexivity. }
    simpl in Hn. destruct ((ans =? 121) || (ans =? 89)).
    { destruct (Hsave ks ltac:(lia)) as (s' & He & Hr). exists s'. split; [by eapply ends_bind|done]. }
    destruct ((ans =? 99) || (ans =? 67)).
    + destruct (IH ks e b a s saved ltac:(lia) Hrep Hnul Hs Hlp Hst Ha) as (s' & He & Hr). rewrite Em in He, Hr.
      destruct (nano_home_eq e s) as [o Ho]. exists s'. split; [|done].
      eapply ends_bind; [exact Hmsg|]. by eapply ends_bind.
    + exists s. split; [|done]. eapply ends_bind; [exact Hmsg|]. by exists [].
  - destruct (Z.eqb_spec c 15) as [->|H15].
    { destruct (Hsave ks ltac:(lia)) as (s' & Hr). exists s'. exact Hr. }
    destruct (nano_key_refines path c e b a s Hrep H15 H24) as (e' & out & Hk & Hr' & Hm).
    pose proof (edit_no_nul c b a Hnul) as Hnul'.
    destruct (edit c b a) as [b' a'] eqn:Ee. simpl in *.
    destruct (IH ks e' b' a' s saved ltac:(lia) Hr' Hnul' Hs Hlp Hst Ha) as (s' & He & Hr2). rewrite Hm in He, Hr2.
    exists s'. split; [by eapply ends_bind|done].
Qed.

(** ** Properties *)

Definition nano_text (s : fs) (path : cstr) : cstr :=
  match abs s !! path with
  | Some m => mf_content m
  | None => match visible_vnode s path with
            | Some n => match vn_content n with Some c => if ksl c <? 2047 then c else [] | None => [] end
            | None => []
            end
  end.

Lemma abs_content_fits s p m : fs_ok s -> abs s !! p = Some m -> zlen (mf_content m) < 2048.
Proof.
  intros Hs. rewrite abs_find_slot. destruct (find_slot s p) as [i|]; [|done]. intros Hm.
  by destruct (Forall_lookup_1 _ _ _ _ (ok_slots s Hs) Hm).
Qed.

Lemma nano_open_eq s path : fs_ok s -> nano_open path s = Ok (nano_text s path) s [] /\ zlen (nano_text s path) <= 2047.
Proof.
  intros Hs. unfold nano_open, nano_text. rewrite (bind_ok _ _ s (abs s !! path) s []) by (by apply lookup_mem_eq).
  destruct (abs s !! path) as [m|] eqn:Em.
  - pose proof (abs_content_fits s path m Hs Em). unfold fits.
    rewrite (proj2 (Z.ltb_lt (zlen (mf_content m)) 2048)) by done. split; [done|lia].
  - rewrite (bind_ok _ _ s (visible_vnode s path) s []) by (by apply fs_find_vnode_eq). split; [done|].
    destruct (visible_vnode s path) as [n|]; [|rewrite zlen_nil; lia]. destruct (vn_content n); [|rewrite zlen_nil; lia].
    unfold ksl. case_test; [lia|rewrite zlen_nil; lia].
Qed.

(** C15: An editing session refines the reference editor.  For a file whose
    resolved name has fewer than 128 characters and whose text has no NUL byte,
    and for every sequence of keys, [pnano] ends exactly when the reference
    session ends and with the same keys left (waiting for a key otherwise) and
    never writes outside its buffers.  The visible files do not change unless the
    user saves; then the edited file holds the text at the last save and no other
    file changes, provided the name is not marked deleted and exists already or
    finds a free slot among the 64; otherwise nothing is kept, although the
    editor reports the save. *)
Theorem nano_session_refines stale cwd f ks s path :
  fs_ok s -> zlen stale = 2048 -> nano_path cwd f s = Ok path s [] -> zlen path < 128 ->
  no_nul (nano_text s path) ->
  let '(saved, fin) := nano_ref ks (nano_text s path) [] false None in
  exists s' out,
    cmd_nano stale cwd f ks s = match fin with Some ks' => Ok ks' s' out | None => Err Blocked s' out end /\
    fs_ok s' /\ abs s' = saved_map s path saved.
Proof.
  intros Hs Hst Hp Hsto Hnul. destruct (nano_open_eq s path Hs) as [Ho Hlen].
  set (t := nano_text s path) in *. set (e := Ed (write_cstr stale t) (ksl t) (ksl t) false).
  assert (Hrep : rep e t []).
  { unfold rep, e, write_cstr, ksl. simpl. rewrite app_nil_r. split_and!; try done; [|by eexists].
    rewrite zlen_app, zlen_cons. unfold zlen in *. rewrite length_drop. lia. }
  destruct (nano_loop_refines s path (length ks) ks e t [] s None) as (s' & (out & He) & Hs' & Ha');
    try done; [by rewrite app_nil_r|].
  change (modified e) with false in He, Ha'. destruct (nano_ref ks t [] false None) as [saved fin]. simpl in He, Ha'.
  assert (Hends : ends (cmd_nano stale cwd f ks s) fin s').
  { unfold cmd_nano. eapply ends_bind; [exact Hp|]. eapply ends_bind; [exact Ho|].
    do 10 (eapply ends_bind; [reflexivity|]). fold e. unfold nano_redraw_cursor.
    destruct (cursor_walk _ _ _) as [x y]. do 2 (eapply ends_bind; [reflexivity|]).
    destruct fin as [ks'|].
    - eapply ends_bind; [exact He|]. eexists. reflexivity.
    - unfold ends. unfold mbind at 1, M_bind at 1. rewrite He. by eexists. }
  destruct Hends as [out' Hout]. exists s', out'. split; [exact Hout|done].
Qed.

Lemma nano_session_refines_witness :
  exists s' out,
    cmd_nano (replicate 2048 0) (cs "/tmp") (Some (cs "a")) ([KEY_LEFT; 33; c_nl; 15; 24] ++ [7]) fs_sample =
      Ok [7] s' out /\
    abs s' = <[cs "/tmp/a" := MkMem (cs "/tmp/a") (cs "alph!" ++ [c_nl] ++ cs "a") true false]> (abs fs_sample).
Proof.
  pose proof (nano_session_refines (replicate 2048 0) (cs "/tmp") (Some (cs "a")) ([KEY_LEFT; 33; c_nl; 15; 24] ++ [7])
    fs_sample (cs "/tmp/a") fs_sample_ok) as H.
  destruct H as (s' & out & Hc & _ & Ha).
  - reflexivity.
  - reflexivity.
  - reflexivity.
  - repeat constructor; discriminate.
  - exists s', out. split; [exact Hc|exact Ha].
Defined.

(** ** Typing, and what the keyboard can reach *)

Definition typed (c : Z) : Prop := 32 <= c < 127 \/ c = c_nl.

Lemma nano_ref_typed w : forall t m ks saved,
  Forall typed w -> zlen t + zlen w <= 2046 ->
  nano_ref (w ++ ks) t [] m saved = nano_ref ks (t ++ w) [] (m || negb (bool_decide (w = []))) saved.
Proof.
  induction w as [|c w IH]; intros t m ks saved Hw Hlen.
  { by rewrite app_nil_r, orb_false_r. }
  apply Forall_cons in Hw as [Hc Hw]. rewrite zlen_cons in Hlen. pose proof (zlen_nonneg w).
  cbn [app nano_ref]. unfold typed in Hc. rewrite !(proj2 (Z.eqb_neq c _)) by lia.
  assert (Hb : ((32 <=? c) && (c <? 127) || (c =? c_nl)) && (zlen (t ++ []) <? 2046) = true)
    by (rewrite app_nil_r; lia).
  assert (He : edit c t [] = (t ++ [c], [])).
  { unfold edit. rewrite Hb, !(proj2 (Z.eqb_neq c _)) by lia. done. }
  rewrite He. unfold is_edit. rewrite Hb. cbn [orb]. rewrite IH; [|done|rewrite zlen_app, zlen_cons, zlen_nil; lia].
  rewrite <- app_assoc. cbn [app]. rewrite (bool_decide_false (c :: w = [])) by done. cbn [negb].
  by rewrite !orb_true_r.
Qed.

(** Text typed at the end of a file, saved and left: the file holds the old
    text and the new. *)
Lemma nano_types_text w t ks :
  Forall typed w -> zlen t + zlen w <= 2046 ->
  nano_ref (w ++ [15; 24] ++ ks) t [] false None = (Some (t ++ w), Some ks).
Proof. intros Hw Hlen. rewrite nano_ref_typed by done. cbn [app nano_ref Z.eqb]. by rewrite app_nil_r. Qed.

(** Answering yes at the exit prompt saves but does not leave the editor. *)
Lemma nano_yes_does_not_exit : nano_ref [120; 24; 121] (cs "pig") [] false None = (Some (cs "pigx"), None).
Proof. reflexivity. Qed.

(** ^K, named in the help line, does nothing. *)
Lemma nano_cut_line_does_nothing b a m saved ks : nano_ref (11 :: ks) b a m saved = nano_ref ks b a m saved.
Proof. cbn. by rewrite orb_false_r. Qed.

(** A key that changes the text draws nothing: only the cursor moves. *)
Lemma nano_typing_not_drawn path c e s e' s' out :
  32 <= c < 127 -> nano_key path c e s = Ok e' s' out ->
  Forall (fun ev => match ev with EMove _ _ | EHwCursor => True | _ => False end) out.
Proof.
  intros Hc. unfold nano_key. rewrite !(proj2 (Z.eqb_neq c _)) by lia. case_test; cbn [andb].
  - unfold nano_insert, nano_shown, nano_redraw_cursor, in_array. destruct (cursor_walk _ _ _).
    repeat case_test; intros [= <- <- <-]; repeat constructor.
  - intros [= <- <- <-]. constructor.
Qed.

(** When every slot is used, saving a new file reports success and stores nothing. *)
Lemma nano_saved_when_full e path s :
  fs_ok s -> zlen path < 128 -> abs s !! path = None -> memfs_n s = 64 -> 0 <= elen e < 2048 ->
  exists e' out, nano_save path e s = Ok e' s out /\ EStr 1 22 (COL C_BLACK C_LGREY) (cs "Saved.") ∈ out.
Proof.
  intros Hs Hp Ha Hn He. unfold nano_save, store_file, in_array.
  replace ((0 <=? elen e) && (elen e <? 2048)) with true by lia.
  rewrite (bind_ok _ _ s tt s []) by done.
  assert (Hf : find_slot s path = None).
  { rewrite abs_find_slot in Ha. destruct (find_slot s path) as [i|] eqn:E; [|done].
    destruct (find_slot_Some s path i E) as (m & Hm & _). simpl in Ha. congruence. }
  rewrite (bind_ok _ _ s tt s []).
  2:{ rewrite (bind_ok _ _ s None s []) by (rewrite memfs_find_eq by done; by rewrite Hf).
      rewrite (bind_ok _ _ s None s []); [done|]. rewrite memfs_create_eq by done. by rewrite Hf, Hn. }
  set (e' := Ed _ _ _ _). destruct (nano_home_eq e' s) as [out Hout].
  unfold message_line, vfill, vstr, emit, mbind, M_bind in *. rewrite Hout. eexists e', _. split; [reflexivity|].
  right. left.
Qed.

(** ** The cursor stays on the screen *)

Lemma cursor_walk_range t : forall x y, 0 <= x < 80 -> 1 <= y <= 22 ->
  0 <= (cursor_walk t x y).1 < 80 /\ 1 <= (cursor_walk t x y).2 <= 23.
Proof.
  induction t as [|c t IH]; intros x y Hx Hy; simpl; [lia|].
  repeat case_test; simpl; try lia; apply IH; lia.
Qed.

Lemma redraw_draws e : draws_ok (nano_redraw_cursor e).
Proof.
  unfold nano_redraw_cursor. pose proof (cursor_walk_range (take (Z.to_nat (Z.min (elen e) (cur e))) (ebuf e)) 0 1).
  destruct (cursor_walk _ 0 1) as [x y]. simpl in *. draws; apply draws_emit; simpl; lia.
Qed.
#[export] Hint Resolve redraw_draws : draws.
#[export] Hint Extern 1 (draws_ok (emit (EMove 0 1))) => apply draws_emit; simpl; lia : draws.
