(* ===== verification/Discord.v ===== *)
(** * Discord client ([crypto/discord.h])

    Requests over the secure channel (the interface [Transport]), the tables of
    servers, channels and messages filled from JSON, the screen and the keys of
    the chat, and the command [discord].  Keys reach the queue when [ps2_poll]
    runs: [d_polls] lists what each later call adds; waiting for a key that
    never comes is the fault [Blocked].  [stack] is what the uninitialised
    request buffer holds. *)

From Stdlib Require Import ZArith Lia.
From stdpp Require Import base numbers list list_numbers option strings.
From S2P Require Import Prelude CLib Console Ps2 Sha256 Json Rtl Net WebSocket Nano.
Import Libc.

Notation DISC_MAX_TOKEN := 512 (only parsing).
Notation DISC_MAX_GUILDS := 64 (only parsing).
Notation DISC_MAX_CHANNELS := 128 (only parsing).
Notation DISC_MAX_MESSAGES := 128 (only parsing).
Notation DISC_MAX_MSG_LEN := 512 (only parsing).
Notation DISC_MAX_NAME := 128 (only parsing).
Notation DISC_RECV_BUF := 8192 (only parsing).

(** ** State *)

Record DiscGuild := Guild { g_id : cstr; g_name : cstr }.
Record DiscChannel := Channel { ch_id : cstr; ch_name : cstr; ch_guild : cstr; ch_type : Z }.
Record DiscMessage := Message { m_id : cstr; m_author : cstr; m_content : cstr; m_time : cstr }.
Definition guild0 : DiscGuild := Guild [] [].
Definition channel0 : DiscChannel := Channel [] [] [] 0.
Definition message0 : DiscMessage := Message [] [] [] [].

Record disc (W : Type) := Disc {
  d_token : cstr; d_token_set : bool; d_username : cstr; d_last_guild : cstr;
  sel_guild : Z; sel_channel : Z; msg_scroll : Z;
  guilds : list DiscGuild; nguilds : Z;
  channels : list DiscChannel; nchannels : Z;
  messages : list DiscMessage; nmessages : Z;
  d_net_ok : bool; d_queue : list Z; d_polls : list (list Z); d_chan : W;
  d_heap : Z  (* [_hp] of [kernel/mem.h] *) }.
Arguments Disc {W}.
Arguments d_token {W}.
Arguments d_token_set {W}.
Arguments d_username {W}.
Arguments d_last_guild {W}.
Arguments sel_guild {W}.
Arguments sel_channel {W}.
Arguments msg_scroll {W}.
Arguments guilds {W}.
Arguments nguilds {W}.
Arguments channels {W}.
Arguments nchannels {W}.
Arguments messages {W}.
Arguments nmessages {W}.
Arguments d_net_ok {W}.
Arguments d_queue {W}.
Arguments d_polls {W}.
Arguments d_chan {W}.
Arguments d_heap {W}.

Definition disc0 {W} (ok : bool) (polls : list (list Z)) (w : W) : disc W :=
  Disc [] false [] [] 0 0 0 (replicate 64 guild0) 0 (replicate 128 channel0) 0 (replicate 128 message0) 0 ok [] polls w Heap.HEAP_BASE.

Section Setters.
Context {W : Type}.
Definition d_set_token (t : cstr) (s : disc W) : disc W :=
  Disc t true (d_username s) (d_last_guild s) (sel_guild s) (sel_channel s) (msg_scroll s) (guilds s) (nguilds s) (channels s) (nchannels s) (messages s) (nmessages s) (d_net_ok s) (d_queue s) (d_polls s) (d_chan s) (d_heap s).
Definition d_set_user (u : cstr) (s : disc W) : disc W :=
  Disc (d_token s) (d_token_set s) u (d_last_guild s) (sel_guild s) (sel_channel s) (msg_scroll s) (guilds s) (nguilds s) (channels s) (nchannels s) (messages s) (nmessages s) (d_net_ok s) (d_queue s) (d_polls s) (d_chan s) (d_heap s).
Definition d_set_guild (g : cstr) (i : Z) (s : disc W) : disc W :=
  Disc (d_token s) (d_token_set s) (d_username s) g i (sel_channel s) (msg_scroll s) (guilds s) (nguilds s) (channels s) (nchannels s) (messages s) (nmessages s) (d_net_ok s) (d_queue s) (d_polls s) (d_chan s) (d_heap s).
Definition d_set_channel (i : Z) (s : disc W) : disc W :=
  Disc (d_token s) (d_token_set s) (d_username s) (d_last_guild s) (sel_guild s) i (msg_scroll s) (guilds s) (nguilds s) (channels s) (nchannels s) (messages s) (nmessages s) (d_net_ok s) (d_queue s) (d_polls s) (d_chan s) (d_heap s).
Definition d_set_scroll (i : Z) (s : disc W) : disc W :=
  Disc (d_token s) (d_token_set s) (d_username s) (d_last_guild s) (sel_guild s) (sel_channel s) i (guilds s) (nguilds s) (channels s) (nchannels s) (messages s) (nmessages s) (d_net_ok s) (d_queue s) (d_polls s) (d_chan s) (d_heap s).
Definition d_set_guilds (l : list DiscGuild) (n : Z) (s : disc W) : disc W :=
  Disc (d_token s) (d_token_set s) (d_username s) (d_last_guild s) (sel_guild s) (sel_channel s) (msg_scroll s) l n (channels s) (nchannels s) (messages s) (nmessages s) (d_net_ok s) (d_queue s) (d_polls s) (d_chan s) (d_heap s).
Definition d_set_channels (l : list DiscChannel) (n : Z) (s : disc W) : disc W :=
  Disc (d_token s) (d_token_set s) (d_username s) (d_last_guild s) (sel_guild s) (sel_channel s) (msg_scroll s) (guilds s) (nguilds s) l n (messages s) (nmessages s) (d_net_ok s) (d_queue s) (d_polls s) (d_chan s) (d_heap s).
Definition d_set_messages (l : list DiscMessage) (n : Z) (s : disc W) : disc W :=
  Disc (d_token s) (d_token_set s) (d_username s) (d_last_guild s) (sel_guild s) (sel_channel s) (msg_scroll s) (guilds s) (nguilds s) (channels s) (nchannels s) l n (d_net_ok s) (d_queue s) (d_polls s) (d_chan s) (d_heap s).
Definition d_set_keys (q : list Z) (ps : list (list Z)) (s : disc W) : disc W :=
  Disc (d_token s) (d_token_set s) (d_username s) (d_last_guild s) (sel_guild s) (sel_channel s) (msg_scroll s) (guilds s) (nguilds s) (channels s) (nchannels s) (messages s) (nmessages s) (d_net_ok s) q ps (d_chan s) (d_heap s).
Definition d_set_chan (w : W) (s : disc W) : disc W :=
  Disc (d_token s) (d_token_set s) (d_username s) (d_last_guild s) (sel_guild s) (sel_channel s) (msg_scroll s) (guilds s) (nguilds s) (channels s) (nchannels s) (messages s) (nmessages s) (d_net_ok s) (d_queue s) (d_polls s) w (d_heap s).
Definition d_set_heap (hp : Z) (s : disc W) : disc W :=
  Disc (d_token s) (d_token_set s) (d_username s) (d_last_guild s) (sel_guild s) (sel_channel s) (msg_scroll s) (guilds s) (nguilds s) (channels s) (nchannels s) (messages s) (nmessages s) (d_net_ok s) (d_queue s) (d_polls s) (d_chan s) hp.
End Setters.

(** ** Input lines: an array, its length and the cursor *)

Record inp := Inp { ibuf : list Z; ilen : Z; icur : Z }.

(** [for(i=cur-1;i<len-1;i++) buf[i]=buf[i+1]; len--; cur--; buf[len]=0;] *)
Definition inp_delete (i : inp) : inp :=
  let b := copy_up (Z.to_nat (ilen i - icur i)) (Z.to_nat (icur i - 1)) (Z.to_nat (icur i)) (ibuf i) in
  Inp (aset b (ilen i - 1) 0) (ilen i - 1) (icur i - 1).

(** [for(i=len;i>cur;i--) buf[i]=buf[i-1]; buf[cur]=c; len++; cur++; buf[len]=0;] *)
Definition inp_insert (c : Z) (i : inp) : inp :=
  let b := copy_down (Z.to_nat (ilen i - icur i)) (Z.to_nat (icur i) + 1) (Z.to_nat (icur i)) (ibuf i) in
  Inp (aset (aset b (icur i) c) (ilen i + 1) 0) (ilen i + 1) (icur i + 1).

Definition is_print (c : Z) : bool := (32 <=? c) && (c <? 127).
Definition is_enter (c : Z) : bool := (c =? c_nl) || (c =? c_cr).
Definition is_back (c : Z) : bool := (c =? c_bs) || (c =? 127).

(** ** Requests *)

(** The escaping of message texts, up to an offset. *)
Fixpoint escape_upto (lim off : Z) (s : cstr) : cstr :=
  match s with
  | [] => []
  | c :: s' =>
      if off <? lim then
        if (c =? c_dquote) || (c =? c_bslash) then c_bslash :: c :: escape_upto lim (off + 2) s'
        else c :: escape_upto lim (off + 1) s'
      else []
  end.

Definition crlf : cstr := [13; 10].
Definition q (s : string) : cstr := c_dquote :: cs s ++ [c_dquote].

(** The body of [disc_send_message]. *)
Definition message_open : cstr := 123 :: q "content" ++ [c_colon; c_dquote].
Definition message_body (content : cstr) : cstr :=
  message_open ++ escape_upto 1020 (zlen message_open) content ++ [c_dquote; 125].

(** The body of the login request. *)
Definition login_body (email pass : cstr) : cstr :=
  let b := 123 :: q "login" ++ [c_colon; c_dquote] in
  let b := b ++ escape_upto 1000 (zlen b) email ++ [c_dquote; 44] in
  let b := b ++ q "password" ++ [c_colon; c_dquote] in
  let b := b ++ escape_upto 1000 (zlen b) pass ++ [c_dquote] in
  b ++ 44 :: q "undelete" ++ cs ":false," ++ q "login_source" ++ cs ":null," ++ q "gift_code_sku_id" ++ cs ":null}".

(** What [disc_http_send] writes, in order. *)
Definition USER_AGENT : cstr := cs "User-Agent: Mozilla/5.0 (X11; Linux x86_64) AppleWebKit/537.36" ++ crlf.
Definition request_parts (method path token : cstr) (body : option cstr) : list cstr :=
  [method; cs " "; path; cs " HTTP/1.1" ++ crlf; cs "Host: discord.com" ++ crlf] ++
  (if bool_decide (token = []) then [] else [cs "Authorization: "; token; crlf]) ++
  [cs "Content-Type: application/json" ++ crlf; cs "Accept: */*" ++ crlf; USER_AGENT] ++
  match body with
  | Some (c :: b) => [cs "Content-Length: "; kia (zlen (c :: b)); crlf ++ crlf; c :: b]
  | _ => [crlf]
  end.
Definition login_parts (body : cstr) : list cstr :=
  [cs "POST /api/v9/auth/login HTTP/1.1" ++ crlf; cs "Host: discord.com" ++ crlf; cs "Content-Type: application/json" ++ crlf;
   cs "Accept: */*" ++ crlf; USER_AGENT;
   cs "X-Super-Properties: eyJvcyI6IkxpbnV4IiwiYnJvd3NlciI6IkNocm9tZSIsImRldmljZSI6IiJ9" ++ crlf;
   cs "Content-Length: "; kia (zlen body); crlf ++ crlf; body].

(** [kcp(req+off,s); off=ksl(req+off);]: the offset becomes the length of the
    last part alone. *)
Fixpoint req_build {T} (b : list Z) (off : Z) (ps : list cstr) : M T (list Z * Z) :=
  match ps with
  | [] => mret (b, off)
  | p :: ps' => fits (2048 - off) p ;; req_build (put b off (p ++ [0])) (zlen p) ps'
  end.

(** The text behind the first blank line that has bytes after it. *)
Definition response_text (out : list Z) : cstr :=
  cut_nul (match body_from (Z.to_nat (zlen out - 4)) 0 out with Some b => drop (Z.to_nat b) out | None => out end).

Section Client.
Context {W : Type} `{Transport W} (stack : list Z).

Definition on_chan {A} (m : M W A) : M (disc W) A := zoom d_chan d_set_chan m.

(** ** Keys *)

Definition ps2_poll : M (disc W) unit :=
  s ← get;
  match d_polls s with
  | [] => fail Blocked
  | ks :: ps => modify (d_set_keys (d_queue s ++ ks) ps)
  end.
Definition set_queue (ks : list Z) : M (disc W) unit := modify (fun s => d_set_keys ks (d_polls s) s).

(** The keys of one poll: [inl] the line so far, [inr] the result of the
    function; with the keys left in the queue. *)
Fixpoint line_keys (max : Z) (mask : bool) (ks : list Z) (i : inp) : M (disc W) ((inp + option cstr) * list Z) :=
  match ks with
  | [] => mret (inl i, [])
  | c :: ks' =>
      if c =? 27 then mret (inr None, ks')
      else if is_enter c then mret (inr (Some (cut_nul (aset (ibuf i) (ilen i) 0))), ks')
      else if is_back c then
        if 0 <? icur i then (vpc c_bs ;; vpc c_sp ;; vpc c_bs) ;; line_keys max mask ks' (inp_delete i)
        else line_keys max mask ks' i
      else if is_print c && (ilen i <? max - 1) then
        vpc (if mask then 42 else c) ;; line_keys max mask ks' (inp_insert c i)
      else line_keys max mask ks' i
  end.
Fixpoint line_polls (fuel : nat) (max : Z) (mask : bool) (i : inp) : M (disc W) (option cstr) :=
  match fuel with
  | O => fail Blocked
  | S f =>
      ps2_poll ;;
      s ← get;
      r ← line_keys max mask (d_queue s) i;
      set_queue r.2 ;;
      match r.1 with inl i' => line_polls f max mask i' | inr o => mret o end
  end.
(** [None] for [-1]; every pass takes one entry of [d_polls]. *)
Definition disc_read_line (max : Z) (mask : bool) : M (disc W) (option cstr) :=
  s ← get; line_polls (S (length (d_polls s))) max mask (Inp (replicate (Z.to_nat max) 0) 0 0).

(** ** HTTP over the channel *)

Definition recv_pass (maxout : Z) : M (disc W * list Z) bool :=
  so ← get;
  if negb (zlen so.2 <? maxout - 1) then mret true
  else
    r ← zoom fst (fun s so => (s, so.2)) (on_chan (tls_recv (maxout - zlen so.2 - 1)));
    let out := so.2 ++ default [] r in
    in_array maxout (zlen out) ;;
    modify (fun so => (so.1, out)) ;;
    mret ((4 <? zlen out) && blank_at out (zlen out - 4)).
Definition recv_all (n : positive) (maxout : Z) : M (disc W) (list Z) := fun s =>
  match upto n (recv_pass maxout) (s, []) with Ok _ so o => Ok so.2 so.1 o | Err f so o => Err f so.1 o end.

(** [None] for 0, else the response text. *)
Definition disc_http_send (method path : cstr) (body : option cstr) (maxout : Z) : M (disc W) (option cstr) :=
  s ← get;
  if negb (d_net_ok s) then vpln (cs "disc: no network") ;; mret None
  else
    ok ← on_chan (tls_connect (cs "discord.com") 443);
    if negb ok then vpln (cs "disc: connect failed") ;; mret None
    else
      r ← req_build stack 0 (request_parts method path (d_token s) body);
      _ ← on_chan (tls_send (take (Z.to_nat r.2) r.1));
      out ← recv_all 20000000 maxout;
      on_chan tls_close ;;
      mret (Some (response_text out)).

(** ** The tables *)

(** [if(s) kcp(d,s);] into an array of [n] bytes. *)
Definition store (n : Z) (o : option cstr) (f : cstr -> disc W -> disc W) : M (disc W) unit :=
  match o with Some s => fits n s ;; modify (f s) | None => mret tt end.

Definition upd_guild (i : Z) (f : DiscGuild -> DiscGuild) (s : disc W) : disc W :=
  d_set_guilds (aset (guilds s) i (f (aget guild0 (guilds s) i))) (nguilds s) s.
Definition upd_channel (i : Z) (f : DiscChannel -> DiscChannel) (s : disc W) : disc W :=
  d_set_channels (aset (channels s) i (f (aget channel0 (channels s) i))) (nchannels s) s.
Definition upd_message (i : Z) (f : DiscMessage -> DiscMessage) (s : disc W) : disc W :=
  d_set_messages (aset (messages s) i (f (aget message0 (messages s) i))) (nmessages s) s.

(** [json_parse] on the heap of the kernel: the tree, or a write through the null
    pointer of a failed request (the callers look for a null tree, which is too
    late).  The parser ends on every text ([json_parse_wf]). *)
Definition parse_json (json : cstr) : M (disc W) tree :=
  s ← get;
  match json_parse json (d_heap s) with
  | Some (t, Some hp) => modify (d_set_heap hp) ;; mret t
  | _ => fail NullDeref
  end.

(** The loop all three share: over the objects of the root array, up to [max]. *)
Definition for_objects (json : cstr) (max : Z) (entry : tree -> Z -> Z -> M (disc W) unit) : M (disc W) unit :=
  t ← parse_json json;
  if (zlen t <? 1) || negb (bool_decide (type (node t 0) = JSON_ARRAY)) then mret tt
  else
    mapM_ (fun i =>
      match json_array_get t (Some 0) i with
      | None => mret tt
      | Some o => if bool_decide (type (node t o) = JSON_OBJECT) then entry t o i else mret tt
      end) (seqZ 0 (Z.min (json_array_len t (Some 0)) max)).

Definition guild_entry (t : tree) (o i : Z) : M (disc W) unit :=
  store DISC_MAX_NAME (json_get_string t (Some o) (cs "id")) (fun v => upd_guild i (fun g => Guild v (g_name g))) ;;
  store DISC_MAX_NAME (json_get_string t (Some o) (cs "name")) (fun v => upd_guild i (fun g => Guild (g_id g) v)) ;;
  modify (fun s => d_set_guilds (guilds s) (nguilds s + 1) s).
Definition disc_parse_guilds (json : cstr) : M (disc W) unit :=
  modify (fun s => d_set_guilds (guilds s) 0 s) ;; for_objects json DISC_MAX_GUILDS guild_entry.

Definition channel_entry (t : tree) (o i : Z) : M (disc W) unit :=
  store DISC_MAX_NAME (json_get_string t (Some o) (cs "id"))
    (fun v => upd_channel i (fun c => Channel v (ch_name c) (ch_guild c) (ch_type c))) ;;
  store DISC_MAX_NAME (json_get_string t (Some o) (cs "name"))
    (fun v => upd_channel i (fun c => Channel (ch_id c) v (ch_guild c) (ch_type c))) ;;
  modify (upd_channel i (fun c => Channel (ch_id c) (ch_name c) (ch_guild c) (json_get_int t (Some o) (cs "type")))) ;;
  store DISC_MAX_NAME (json_get_string t (Some o) (cs "guild_id"))
    (fun v => upd_channel i (fun c => Channel (ch_id c) (ch_name c) v (ch_type c))) ;;
  modify (fun s => d_set_channels (channels s) (nchannels s + 1) s).
Definition disc_parse_channels (json : cstr) : M (disc W) unit :=
  modify (fun s => d_set_channels (channels s) 0 s) ;; for_objects json DISC_MAX_CHANNELS channel_entry.

Definition message_entry (t : tree) (o i : Z) : M (disc W) unit :=
  store DISC_MAX_NAME (json_get_string t (Some o) (cs "id"))
    (fun v => upd_message i (fun m => Message v (m_author m) (m_content m) (m_time m))) ;;
  store DISC_MAX_NAME (json_get_string t (Some o) (cs "timestamp"))
    (fun v => upd_message i (fun m => Message (m_id m) (m_author m) (m_content m) v)) ;;
  (match json_get_object t (Some o) (cs "author") with
   | Some a => store DISC_MAX_NAME (json_get_string t (Some a) (cs "username"))
                 (fun v => upd_message i (fun m => Message (m_id m) v (m_content m) (m_time m)))
   | None => mret tt
   end) ;;
  store DISC_MAX_MSG_LEN (json_get_string t (Some o) (cs "content"))
    (fun v => upd_message i (fun m => Message (m_id m) (m_author m) v (m_time m))) ;;
  modify (fun s => d_set_messages (messages s) (nmessages s + 1) s).
Definition disc_parse_messages (json : cstr) : M (disc W) unit :=
  modify (fun s => d_set_messages (messages s) 0 s) ;; for_objects json DISC_MAX_MESSAGES message_entry.

(** [disc_msg_scroll=disc_nmessages-(VGA_H-4); if(<0) =0;] *)
Definition scroll_down : M (disc W) unit := modify (fun s => d_set_scroll (Z.max 0 (nmessages s - 21)) s).

Definition disc_get_messages (channel_id : cstr) : M (disc W) unit :=
  let path := cs "/api/v9/channels/" ++ channel_id ++ cs "/messages?limit=50" in
  fits 256 path ;;
  r ← disc_http_send (cs "GET") path None DISC_RECV_BUF;
  match r with Some resp => disc_parse_messages resp ;; scroll_down | None => mret tt end.

Definition disc_send_message (channel_id content : cstr) : M (disc W) unit :=
  let body := message_body content in
  fits 1024 body ;;
  let path := cs "/api/v9/channels/" ++ channel_id ++ cs "/messages" in
  fits 256 path ;;
  _ ← disc_http_send (cs "POST") path (Some body) DISC_RECV_BUF; mret tt.

(** ** The screen *)

Notation PANEL_W := 24 (only parsing).
Definition rows_at (lo hi : Z) (f : Z -> M (disc W) unit) : M (disc W) unit := mapM_ f (seqZ lo (hi - lo)).

Definition draw_frame : M (disc W) unit :=
  let bc := COL C_BLUE C_BLUE in
  rows_at 0 25 (fun r => vat 0xBA bc PANEL_W r) ;;
  vat 0xC9 bc 0 0 ;; vat 0xBB bc PANEL_W 0 ;;
  vat 0xDA bc 0 1 ;; vat 0xBF bc PANEL_W 1 ;;
  vat 0xCC bc 0 2 ;; vat 0xB9 bc PANEL_W 2 ;;
  rows_at 3 24 (fun r => vat 0xBA bc 0 r ;; vat 0xBA bc PANEL_W r) ;;
  vat 0xC8 bc 0 23 ;; vat 0xBC bc PANEL_W 23 ;;
  vstr 2 0 (COL C_WHITE C_BLUE) (cs " Channels") ;;
  vstr (PANEL_W + 2) 0 (COL C_WHITE C_BLACK) (cs " #general") ;;
  vfill 0 24 80 1 c_sp (COL C_BLACK C_LGREY) ;;
  vstr 1 24 (COL C_WHITE C_LGREY) (cs "> ").

Definition draw_input (input : cstr) (cur : Z) : M (disc W) unit :=
  let put col i := vat (aget 0 input i) col (PANEL_W + 3 + i) 24 in
  rows_at 0 (Z.min cur (Z.min (zlen input) 52)) (put (COL C_WHITE C_LGREY)) ;;
  rows_at cur (Z.min (zlen input) 52) (put (COL C_LGREY C_LGREY)).

Definition draw_channel (i : Z) : M (disc W) unit :=
  s ← get;
  let c := aget channel0 (channels s) i in
  let col := if i =? sel_channel s then COL C_BLACK C_LCYAN else COL C_WHITE C_BLACK in
  vat (if ch_type c =? 4 then 62 else if ch_type c =? 2 then 118 else 35) col 1 (i + 3) ;;
  rows_at 0 (Z.min (zlen (ch_name c)) (PANEL_W - 3)) (fun j => vat (aget 0 (ch_name c) j) col (3 + j) (i + 3)).

Definition draw_message (start i : Z) : M (disc W) unit :=
  in_array DISC_MAX_MESSAGES (start + i) ;;
  s ← get;
  let m := aget message0 (messages s) (start + i) in
  let nl := zlen (m_author m) in
  vstr (PANEL_W + 1) (3 + i) (COL C_LCYAN C_BLACK) (m_author m) ;;
  vstr (PANEL_W + 1 + nl) (3 + i) (COL C_LGREY C_BLACK) (cs ": ") ;;
  rows_at 0 (Z.min (zlen (m_content m)) (80 - PANEL_W - 4))
    (fun j => vat (aget 0 (m_content m) j) (COL C_WHITE C_BLACK) (PANEL_W + 3 + nl + j) (3 + i)).

Definition disc_draw_chat (input : cstr) (cur : Z) : M (disc W) unit :=
  vclear ;; draw_frame ;; draw_input input cur ;;
  s ← get;
  rows_at 0 (Z.min (nchannels s) 22) draw_channel ;;
  let start := Z.max 0 (msg_scroll s) in
  rows_at 0 (Z.min 21 (nmessages s - start)) (draw_message start) ;;
  emit EHwCursor.

(** ** The chat *)

(** [disc_channels[disc_sel_channel].id] *)
Definition selected_id : M (disc W) cstr :=
  s ← get; in_array DISC_MAX_CHANNELS (sel_channel s) ;; mret (ch_id (aget channel0 (channels s) (sel_channel s))).

Definition chat_send (i : inp) : M (disc W) inp :=
  let input := cut_nul (aset (ibuf i) (ilen i) 0) in
  id ← selected_id;
  disc_send_message id input ;;
  s ← get;
  in_array DISC_MAX_MESSAGES (nmessages s) ;;
  modify (upd_message (nmessages s) (fun m => Message (m_id m) (cs "You") (m_content m) (m_time m))) ;;
  fits DISC_MAX_MSG_LEN input ;;
  modify (upd_message (nmessages s) (fun m => Message (m_id m) (m_author m) input (m_time m))) ;;
  modify (fun s => d_set_messages (messages s) (nmessages s + 1) s) ;;
  scroll_down ;;
  mret (Inp (aset (aset (ibuf i) (ilen i) 0) 0 0) 0 0).

Definition chat_key (c : Z) (i : inp) : M (disc W) inp :=
  s ← get;
  if c =? KEY_UP then (if 0 <? msg_scroll s then modify (d_set_scroll (msg_scroll s - 1)) else mret tt) ;; mret i
  else if c =? KEY_DOWN then
    (if msg_scroll s <? nmessages s - 21 then modify (d_set_scroll (msg_scroll s + 1)) else mret tt) ;; mret i
  else if c =? KEY_LEFT then mret (if 0 <? icur i then Inp (ibuf i) (ilen i) (icur i - 1) else i)
  else if c =? KEY_RIGHT then mret (if icur i <? ilen i then Inp (ibuf i) (ilen i) (icur i + 1) else i)
  else if is_enter c then if 0 <? ilen i then chat_send i else mret i
  else if is_back c then mret (if 0 <? icur i then inp_delete i else i)
  else if is_print c && (ilen i <? 255) then mret (inp_insert c i)
  else mret i.

(** The keys of one poll: whether the chat goes on, the line, the keys left. *)
Fixpoint chat_keys (ks : list Z) (i : inp) : M (disc W) (bool * inp * list Z) :=
  match ks with
  | [] => mret (true, i, [])
  | c :: ks' => if c =? 27 then mret (false, i, ks') else i' ← chat_key c i; chat_keys ks' i'
  end.

Fixpoint chat_loop (fuel : nat) (count : Z) (i : inp) : M (disc W) unit :=
  match fuel with
  | O => fail Blocked
  | S f =>
      disc_draw_chat (cut_nul (ibuf i)) (icur i) ;;
      ps2_poll ;;
      s ← get;
      r ← chat_keys (d_queue s) i;
      set_queue r.2 ;;
      count ← (if 500000 <? count + 1 then id ← selected_id; disc_get_messages id ;; mret 0 else mret (count + 1));
      if (r.1.1 : bool) then chat_loop f count r.1.2 else mret tt
  end.

Definition inp0 : inp := Inp (replicate 256 0) 0 0.

Definition disc_chat_run : M (disc W) unit :=
  s ← get;
  if nchannels s =? 0 then vpln (cs "disc: no channels")
  else
    id ← selected_id;
    disc_get_messages id ;;
    s ← get;
    chat_loop (S (length (d_polls s))) 0 inp0 ;;
    vclear ;; vrst.

(** ** The command *)

Definition disc_lines (l : list cstr) : M (disc W) unit := mapM_ vpln l.

(** [GET] the channels of a server and parse them. *)
Definition get_channels (guild : cstr) : M (disc W) bool :=
  let path := cs "/api/v9/guilds/" ++ guild ++ cs "/channels" in
  fits 256 path ;;
  r ← disc_http_send (cs "GET") path None DISC_RECV_BUF;
  match r with Some resp => disc_parse_channels resp ;; mret true | None => mret false end.

Definition disc_args (args : cstr) : M (disc W) unit :=
  s ← get;
  if strneq args (cs "login") 5 then
    let t := skip_char c_sp (drop 5 args) in
    if bool_decide (t = []) then mret tt
    else fits DISC_MAX_TOKEN t ;; modify (d_set_token t) ;; vpln (cs "disc: token set")
  else if strneq args (cs "post") 4 then
    if negb (d_token_set s) then vpln (cs "disc: not logged in")
    else if 0 <? nchannels s then id ← selected_id; disc_send_message id (skip_char c_sp (drop 4 args))
    else vpln (cs "disc: no channel selected")
  else if strneq args (cs "send") 4 then
    let '(cid, r) := span_until c_sp (skip_char c_sp (drop 4 args)) in
    let r := drop 127 cid ++ r in
    let cid := take 127 cid in
    let m := skip_char c_sp r in
    if bool_decide (m = []) || bool_decide (cid = []) then mret tt else disc_send_message cid m
  else if strneq args (cs "channels") 8 then
    let g := skip_char c_sp (drop 8 args) in
    if bool_decide (g = []) then mret tt
    else
      ok ← get_channels g;
      if (ok : bool) then
        s ← get;
        rows_at 0 (nchannels s) (fun i => s ← get; vps (cs "  #") ;; vpln (ch_name (aget channel0 (channels s) i)))
      else mret tt
  else mret tt.

(** [vclear(); vrst(); return;] after ESC. *)
Definition leave : M (disc W) unit := vclear ;; vrst.
Definition heading (s : string) : M (disc W) unit := vset C_LGREEN C_BLACK ;; vpln (cs s) ;; vrst.

(** The number typed, less one. *)
Definition choice (s : cstr) : Z := (read_digits 10 0 s).1 - 1.

(** Step 1: [true] when logged in. *)
Definition disc_login (email pass : cstr) : M (disc W) bool :=
  vps (cs "  Logging in...") ;;
  let body := login_body email pass in
  fits 1024 body ;;
  vpln (cs "  Attempting TLS connection to discord.com:443...") ;;
  ok ← on_chan (tls_connect (cs "discord.com") 443);
  if negb ok then
    disc_lines [cs "  TLS connection failed - network may be unreachable"; cs "  Try: netpg dhcp, then ping 10.0.2.2"] ;; mret false
  else
    r ← req_build stack 0 (login_parts body);
    vpln (cs "  Sending login request...") ;;
    _ ← on_chan (tls_send (take (Z.to_nat r.2) r.1));
    out ← recv_all 30000000 DISC_RECV_BUF;
    vps (cs "  Response size: ") ;; vpln (kia (zlen out)) ;;
    on_chan tls_close ;;
    t ← parse_json (response_text out);
    match json_get_string t (Some 0) (cs "token") with
    | Some token =>
        fits DISC_MAX_TOKEN token ;; modify (d_set_token token) ;;
        vpln (cs "  Logged in!") ;;
        (match json_get_object t (Some 0) (cs "user") with
         | Some u =>
             match json_get_string t (Some u) (cs "username") with
             | Some un => fits DISC_MAX_NAME un ;; modify (d_set_user un) ;; vps (cs "  Welcome, ") ;; vpln un
             | None => mret tt
             end
         | None => mret tt
         end) ;;
        mret true
    | None =>
        vps (cs "  Login failed: ") ;;
        vpln (default (cs "unknown error") (json_get_string t (Some 0) (cs "message"))) ;; mret false
    end.

(** Step 2: the server chosen. *)
Definition choose_server : M (disc W) (option Z) :=
  vpln [] ;; heading "  Step 2: Select a Server" ;; vpln [] ;; vps (cs "  Loading servers...") ;;
  r ← disc_http_send (cs "GET") (cs "/api/v9/users/@me/guilds") None DISC_RECV_BUF;
  (match r with Some resp => disc_parse_guilds resp | None => mret tt end) ;;
  vpln [] ;;
  s ← get;
  if nguilds s =? 0 then vpln (cs "  No servers found.") ;; mret None
  else
    rows_at 0 (nguilds s) (fun i =>
      fits 4 (kia (i + 1)) ;;
      vps (cs "    [") ;; vps (kia (i + 1)) ;; vps (cs "] ") ;; vpln (g_name (aget guild0 (guilds s) i))) ;;
    vpln [] ;; vps (cs "  Select server [1-") ;; fits 4 (kia (nguilds s)) ;; vps (kia (nguilds s)) ;; vps (cs "]: ") ;;
    l ← disc_read_line 8 false;
    match l with
    | None => leave ;; mret None
    | Some sel =>
        let sidx := choice sel in
        if (sidx <? 0) || (nguilds s <=? sidx) then vpln (cs "  Invalid selection") ;; mret None
        else
          let g := aget guild0 (guilds s) sidx in
          modify (d_set_guild (g_id g) sidx) ;;
          vps (cs "  Selected: ") ;; vpln (g_name g) ;; mret (Some sidx)
    end.

(** The position of the [n]th text channel. *)
Fixpoint nth_text (l : list DiscChannel) (i n : Z) : option Z :=
  match l with
  | [] => None
  | c :: l' =>
      if ch_type c =? 0 then if n =? 0 then Some i else nth_text l' (i + 1) (n - 1) else nth_text l' (i + 1) n
  end.

Fixpoint list_text (l : list DiscChannel) (n : Z) : M (disc W) Z :=
  match l with
  | [] => mret n
  | c :: l' =>
      if ch_type c =? 0 then
        fits 4 (kia (n + 1)) ;;
        vps (cs "    [") ;; vps (kia (n + 1)) ;; vps (cs "] #") ;; vpln (ch_name c) ;; list_text l' (n + 1)
      else list_text l' n
  end.

(** Step 3: whether a channel was chosen. *)
Definition choose_channel (sidx : Z) : M (disc W) bool :=
  vpln [] ;; heading "  Step 3: Select a Channel" ;; vpln [] ;; vps (cs "  Loading channels...") ;;
  s ← get;
  _ ← get_channels (g_id (aget guild0 (guilds s) sidx));
  vpln [] ;;
  s ← get;
  let l := take (Z.to_nat (nchannels s)) (channels s) in
  n ← list_text l 0;
  vpln [] ;; vps (cs "  Select channel [1-") ;; fits 4 (kia n) ;; vps (kia n) ;; vps (cs "]: ") ;;
  r ← disc_read_line 8 false;
  match r with
  | None => leave ;; mret false
  | Some sel =>
      match nth_text l 0 (choice sel) with
      | None => vpln (cs "  Invalid selection") ;; mret false
      | Some i =>
          modify (d_set_channel i) ;;
          vps (cs "  Selected: #") ;; vpln (ch_name (aget channel0 (channels s) i)) ;; vpln [] ;; mret true
      end
  end.

Definition cmd_discord (args : cstr) : M (disc W) unit :=
  s ← get;
  if negb (d_net_ok s) then in_color C_LRED C_BLACK (vpln (cs "discord: no network. Run: netpg dhcp"))
  else if negb (bool_decide (args = [])) then disc_args args
  else
    vclear ;; vset C_LCYAN C_BLACK ;;
    disc_lines [[]; cs "  ╔══════════════════════════════════╗"; cs "  ║     Discord for pigOS v1.0       ║";
                cs "  ╚══════════════════════════════════╝"] ;;
    vrst ;; vpln [] ;; heading "  Step 1: Login to Discord" ;; vpln [] ;; vps (cs "  Email: ") ;;
    email ← disc_read_line 128 false;
    match email with
    | None => leave
    | Some email =>
        vpln [] ;; vps (cs "  Password: ") ;;
        pass ← disc_read_line 128 true;
        match pass with
        | None => leave
        | Some pass =>
            vpln [] ;; vpln [] ;;
            ok ← disc_login email pass;
            if negb ok then mret tt
            else
              g ← choose_server;
              match g with
              | None => mret tt
              | Some sidx =>
                  ok ← choose_channel sidx;
                  if negb ok then mret tt
                  else heading "  Starting chat... (ESC to exit, arrows to scroll)" ;; disc_chat_run
              end
        end
    end.

End Client.

(** ** Message bodies *)

Lemma escape_upto_bound lim off s : off <= lim + 1 -> off + zlen (escape_upto lim off s) <= lim + 1.
Proof.
  revert off. induction s as [|c s IH]; intros off Ho; cbn [escape_upto]; [change (zlen []) with 0; lia|].
  destruct (Z.ltb_spec off lim); [|change (zlen []) with 0; lia].
  destruct (_ || _); rewrite !zlen_cons; [specialize (IH (off + 2))|specialize (IH (off + 1))]; lia.
Qed.

Lemma escape_upto_all lim off s : off + zlen (json_escape s) <= lim -> escape_upto lim off s = json_escape s.
Proof.
  revert off. induction s as [|c s IH]; intros off Ho; [done|]. cbn [escape_upto]. rewrite json_escape_cons in *.
  destruct (_ || _); rewrite zlen_app in Ho; pose proof (zlen_nonneg (json_escape s)).
  - change (zlen [c_bslash; c]) with 2 in Ho. rewrite (proj2 (Z.ltb_lt _ _)) by lia. cbn [app]. by rewrite IH by lia.
  - change (zlen [c]) with 1 in Ho. rewrite (proj2 (Z.ltb_lt _ _)) by lia. cbn [app]. by rewrite IH by lia.
Qed.

Lemma message_body_prints content :
  zlen (json_escape content) <= 1008 -> message_body content = print_object [(cs "content", content)].
Proof.
  intros Hl. unfold message_body. change (zlen message_open) with 12. rewrite escape_upto_all by lia.
  unfold print_object, members, member, quoted. cbn [fst snd].
  change (json_escape (cs "content")) with (cs "content"). change message_open with (123 :: c_dquote :: cs "content" ++ [c_dquote; c_colon; c_dquote]).
  generalize (json_escape content) as e. intros e. cbn [app]. rewrite <- !app_assoc. cbn [app]. by rewrite <- app_assoc.
Qed.

(** The body of a message fits its buffer of 1024 bytes whatever is sent, and
    is the JSON object that carries the text: for every text without NUL whose
    escaped form has at most 1008 bytes, the parser of [json.h] reads from the
    body exactly the text as the value of [content], quotes and backslashes
    included, as long as the heap has the room it needs. *)
Theorem message_body_roundtrip content hp :
  zlen (message_body content) < 1024 /\
  (plain content -> zlen (json_escape content) <= 1008 ->
   Heap.HEAP_BASE <= hp -> hp + object_need [(cs "content", content)] <= Heap.HEAP_LIMIT ->
   exists t h, json_parse (message_body content) hp = Some (t, Some h) /\ json_get_string t (Some 0) (cs "content") = Some content).
Proof.
  split.
  - unfold message_body. rewrite !zlen_app. change (zlen message_open) with 12. change (zlen [c_dquote; 125]) with 2.
    pose proof (escape_upto_bound 1020 12 content). lia.
  - intros Hp Hl Hb Hroom. rewrite message_body_prints by done. eexists _, _. split.
    + rewrite parse_print_object; [unfold spend; cbn [mbind option_bind]; by rewrite (proj2 (Z.leb_le _ _))| |done|done]. apply Forall_singleton. split; [|done]. repeat constructor; discriminate.
    + change (Some content) with (assoc (cs "content") [(cs "content", content)]).
      unfold json_get_string, json_find_key. reflexivity.
Qed.

Lemma message_body_roundtrip_witness :
  exists t h, json_parse (message_body [104; c_dquote; c_bslash]) Heap.HEAP_BASE = Some (t, Some h) /\
    json_get_string t (Some 0) (cs "content") = Some [104; c_dquote; c_bslash].
Proof. apply (message_body_roundtrip [104; c_dquote; c_bslash]); [repeat constructor; discriminate|vm_compute; discriminate..]. Defined.

(** ** Reading a line *)

(** The reference: what the keys leave of the text, how it ends, and the keys
    that are not read. *)
Fixpoint ref_line (max : Z) (acc : cstr) (ks : list Z) : (cstr + option cstr) * list Z :=
  match ks with
  | [] => (inl acc, [])
  | c :: ks' =>
      if c =? 27 then (inr None, ks')
      else if is_enter c then (inr (Some acc), ks')
      else ref_line max (if is_back c then removelast acc
                         else if is_print c && (zlen acc <? max - 1) then acc ++ [c] else acc) ks'
  end.

Definition line_rep (max : Z) (i : inp) (acc : cstr) : Prop :=
  zlen (ibuf i) = max /\ ilen i = zlen acc /\ icur i = zlen acc /\ zlen acc < max /\ plain acc /\ exists r, ibuf i = acc ++ r.

Lemma aset_at (a r : list Z) x v : aset (a ++ x :: r) (zlen a) v = a ++ v :: r.
Proof. unfold aset, zlen. by rewrite Nat2Z.id, insert_app_r_alt, Nat.sub_diag by lia. Qed.

Lemma rep_room max i acc : line_rep max i acc -> exists x r, ibuf i = acc ++ x :: r.
Proof.
  intros (Hb & _ & _ & Hl & _ & r & Hr). destruct r as [|x r]; [|eauto].
  rewrite Hr, app_nil_r in Hb. lia.
Qed.

Lemma line_text max i acc : line_rep max i acc -> cut_nul (aset (ibuf i) (ilen i) 0) = acc.
Proof.
  intros Hrep. destruct (rep_room _ _ _ Hrep) as (x & r & Hr). destruct Hrep as (_ & Hi & _ & _ & Hp & _).
  rewrite Hi, Hr, aset_at. clear -Hp. unfold cut_nul. induction Hp as [|c s Hc _ IH]; [done|].
  cbn [app span_until]. case_test; [done|]. destruct (span_until 0 (s ++ 0 :: r)). simpl in *. by rewrite IH.
Qed.

Lemma line_insert max i acc c :
  line_rep max i acc -> zlen acc < max - 1 -> c <> 0 -> line_rep max (inp_insert c i) (acc ++ [c]).
Proof.
  intros Hrep Hl Hc. destruct (rep_room _ _ _ Hrep) as (x & r & Hr). destruct Hrep as (Hb & Hi & Hcu & _ & Hp & _).
  unfold line_rep, inp_insert. cbn [ibuf ilen icur]. rewrite Hi, Hcu, Z.sub_diag. change (Z.to_nat 0) with O. cbn [copy_down].
  rewrite Hr.  rewrite aset_at. rewrite Hr, zlen_app, zlen_cons in Hb. destruct r as [|y r]; [change (zlen []) with 0 in Hb; lia|].
  replace (acc ++ c :: y :: r) with ((acc ++ [c]) ++ y :: r) by (by rewrite <- app_assoc).
  assert (E : zlen (acc ++ [c]) = zlen acc + 1) by (rewrite zlen_app; reflexivity).
  rewrite <- E, aset_at. rewrite !zlen_app, !zlen_cons in *. change (zlen []) with 0 in *.
  split_and!; try lia; [|by eexists]. apply Forall_app. split; [done|]. by apply Forall_singleton.
Qed.

Lemma line_delete max i acc c :
  line_rep max i (acc ++ [c]) -> line_rep max (inp_delete i) acc.
Proof.
  intros Hrep. destruct (rep_room _ _ _ Hrep) as (x & r & Hr). destruct Hrep as (Hb & Hi & Hcu & Hl & Hp & _).
  unfold line_rep, inp_delete. cbn [ibuf ilen icur]. rewrite Hi, Hcu, Z.sub_diag. change (Z.to_nat 0) with O. cbn [copy_up].
  assert (E : zlen (acc ++ [c]) - 1 = zlen acc) by (rewrite zlen_app; change (zlen [c]) with 1; lia).
  rewrite E, Hr, <- app_assoc. cbn [app]. rewrite aset_at. rewrite Hr in Hb.
  rewrite !zlen_app, !zlen_cons in *. change (zlen []) with 0 in *.
  apply Forall_app in Hp as [Hp _]. split_and!; try lia; [done|]. by eexists.
Qed.

(** What is shown while a line is read with [mask]. *)
Definition masked (e : cev) : Prop := e = EPc 42 \/ e = EPc c_bs \/ e = EPc c_sp.

Section Lines.
Context {W : Type}.
Implicit Types (s : disc W).

Lemma line_keys_ref max mask ks : forall i acc s, line_rep max i acc ->
  exists x out, line_keys max mask ks i s = Ok (x, (ref_line max acc ks).2) s out /\
    (mask = true -> Forall masked out) /\
    match (ref_line max acc ks).1 with inl acc' => exists i', x = inl i' /\ line_rep max i' acc' | inr o => x = inr o end.
Proof.
  induction ks as [|c ks IH]; intros i acc s Hrep; cbn [line_keys ref_line].
  { eexists _, []. split; [reflexivity|]. split; [by constructor|]. by exists i. }
  destruct (c =? 27); [eexists _, []; split; [reflexivity|]; split; [by constructor|done]|].
  destruct (is_enter c); [rewrite (line_text _ _ _ Hrep); eexists _, []; split; [reflexivity|]; split; [by constructor|done]|].
  destruct (is_back c).
  - assert (Hc : icur i = zlen acc) by apply Hrep. rewrite Hc. destruct acc as [|a acc' _] using rev_ind.
    + change (0 <? zlen []) with false. cbv iota. cbn [removelast]. apply (IH i [] s Hrep).
    + pose proof (zlen_nonneg acc'). rewrite (proj2 (Z.ltb_lt 0 _)) by (rewrite zlen_app; change (zlen [a]) with 1; lia).
      rewrite removelast_last. destruct (IH _ _ s (line_delete _ _ _ _ Hrep)) as (x & out & E & Hm & Hx).
      erewrite bind_ok by reflexivity. rewrite E. eexists x, _. split; [reflexivity|]. split; [|done].
      intros Hmask. rewrite !Forall_app. unfold masked in *. split_and!; try (by apply Hm); apply Forall_singleton; auto.
  - assert (Hl : ilen i = zlen acc) by apply Hrep. rewrite Hl.
    destruct (is_print c) eqn:Hp; cbn [andb]; [|by apply IH]. destruct (Z.ltb_spec (zlen acc) (max - 1)); [|by apply IH].
    assert (Hc0 : c <> 0) by (unfold is_print in Hp; bool_to_prop; lia).
    destruct (IH _ _ s (line_insert _ _ _ _ Hrep H Hc0)) as (x & out & E & Hm & Hx).
    erewrite bind_ok by reflexivity. rewrite E. eexists x, _. split; [reflexivity|]. split; [|done].
    intros ->. apply Forall_app. split; [|by apply Hm]. apply Forall_singleton. by left.
Qed.

Lemma ref_line_app max acc ks ks' :
  ref_line max acc (ks ++ ks') =
  match ref_line max acc ks with (inl acc', _) => ref_line max acc' ks' | (inr o, r) => (inr o, r ++ ks') end.
Proof. revert acc. induction ks as [|c ks IH]; intros acc; [done|]. cbn [ref_line app]. destruct (c =? 27); [done|]. destruct (is_enter c); [done|]. apply IH. Qed.

Lemma ref_line_inl max acc ks acc' : (ref_line max acc ks).1 = inl acc' -> (ref_line max acc ks).2 = [].
Proof. revert acc. induction ks as [|c ks IH]; intros acc; [done|]. cbn [ref_line]. destruct (c =? 27); [done|]. destruct (is_enter c); [done|]. apply IH. Qed.

Lemma line_polls_ref max mask ps : forall i acc s o r,
  line_rep max i acc -> d_polls s = ps -> ps <> [] ->
  ref_line max acc (d_queue s ++ concat ps) = (inr o, r) ->
  exists q ps' out, line_polls (S (length ps)) max mask i s = Ok o (d_set_keys q ps' s) out /\ q ++ concat ps' = r /\
    (mask = true -> Forall masked out).
Proof.
  induction ps as [|ks ps IH]; intros i acc s o r Hrep Hps Hne Hr; [done|]. clear Hne.
  change (length (ks :: ps)) with (S (length ps)). remember (S (length ps)) as f eqn:Ef. cbn [line_polls]. unfold ps2_poll.
  rewrite (bind_silent _ _ s tt (d_set_keys (d_queue s ++ ks) ps s)) by (unfold mbind, M_bind, get; by rewrite Hps).
  rewrite (bind_silent get _ _ _ _ eq_refl). cbn [d_queue d_set_keys].
  destruct (line_keys_ref max mask (d_queue s ++ ks) i acc (d_set_keys (d_queue s ++ ks) ps s) Hrep) as (x & out & E & Hm & Hx).
  erewrite bind_ok by exact E. cbn [snd fst]. cbn [concat] in Hr. rewrite app_assoc, ref_line_app in Hr.
  unfold set_queue. rewrite (bind_silent (modify _) _ _ tt _ eq_refl). cbn [d_set_keys d_polls d_queue].
  pose proof (ref_line_inl max acc (d_queue s ++ ks)) as Hnil.
  destruct (ref_line max acc (d_queue s ++ ks)) as [[acc'|o'] r']; cbn [fst snd] in *; [rewrite (Hnil _ eq_refl)|].
  - destruct Hx as (i' & -> & Hi'). destruct ps as [|ks2 ps2]; [cbn [concat ref_line] in Hr; discriminate|].
    destruct (IH i' acc' (d_set_keys [] (ks2 :: ps2) s) o r Hi' eq_refl) as (q & ps' & out' & E2 & Hq & Hm2); [done|exact Hr|].
    change (d_set_keys [] (ks2 :: ps2) (d_set_keys (d_queue s ++ ks) (ks2 :: ps2) s)) with (d_set_keys [] (ks2 :: ps2) s).
    rewrite E2. exists q, ps', (out ++ out'). split; [reflexivity|]. split; [done|]. intros Hk. apply Forall_app. auto.
  - subst x. injection Hr as <- <-. exists r', ps, (out ++ []). split; [reflexivity|]. split; [done|]. rewrite app_nil_r. done.
Qed.
End Lines.

(** Reading a line of the login does what an editor on a text does, however
    the keys are spread over the polls: the text typed, less what was erased and
    limited to the buffer, or nothing for ESC, and the keys behind the end stay
    for the next reader; a line read with [mask] shows none of its characters. *)
Theorem disc_read_line_correct {W} max mask (s : disc W) o r :
  1 <= max -> d_polls s <> [] -> ref_line max [] (d_queue s ++ concat (d_polls s)) = (inr o, r) ->
  exists q ps out, disc_read_line max mask s = Ok o (d_set_keys q ps s) out /\ q ++ concat ps = r /\
    (mask = true -> Forall masked out).
Proof.
  intros Hm Hne Hr. unfold disc_read_line. rewrite (bind_silent get _ _ _ _ eq_refl).
  apply line_polls_ref with (acc := []); try done.
  unfold line_rep. cbn [ibuf ilen icur]. change (zlen []) with 0. split_and!; try done; [|lia|by constructor|by eexists].
  unfold zlen. rewrite length_replicate. lia.
Qed.

Lemma disc_read_line_correct_witness :
  exists q ps out, disc_read_line 8 true (disc0 true [[]; [104; 105; 8]; [33; 10; 65]] tt) =
    Ok (Some [104; 33]) (d_set_keys q ps (disc0 true [[]; [104; 105; 8]; [33; 10; 65]] tt)) out /\
    q ++ concat ps = [65] /\ (true = true -> Forall masked out).
Proof. apply (disc_read_line_correct 8 true); [lia|discriminate|reflexivity]. Defined.

(** ** The tables stay well formed *)

Definition guild_ok (g : DiscGuild) : Prop := zlen (g_id g) < 128 /\ zlen (g_name g) < 128.
Definition channel_ok (c : DiscChannel) : Prop := zlen (ch_id c) < 128 /\ zlen (ch_name c) < 128 /\ zlen (ch_guild c) < 128.
Definition message_ok (m : DiscMessage) : Prop :=
  zlen (m_id m) < 128 /\ zlen (m_author m) < 128 /\ zlen (m_content m) < 512 /\ zlen (m_time m) < 128.

(** A table of [max] entries of which [n] count. *)
Definition table_ok {A} (P : A -> Prop) (max : Z) (l : list A) (n : Z) : Prop := zlen l = max /\ 0 <= n <= max /\ Forall P l.

Record disc_ok {W} (s : disc W) : Prop := DiscOk {
  ok_token : zlen (d_token s) < 512;
  ok_user : zlen (d_username s) < 128;
  ok_last : zlen (d_last_guild s) < 128;
  ok_guilds : table_ok guild_ok 64 (guilds s) (nguilds s);
  ok_channels : table_ok channel_ok 128 (channels s) (nchannels s);
  ok_messages : table_ok message_ok 128 (messages s) (nmessages s);
  ok_sel : 0 <= sel_channel s < 128;
  ok_scroll : 0 <= msg_scroll s <= 128 }.

Lemma table_upd {A} (P : A -> Prop) d max l n i f :
  table_ok P max l n -> P d -> (forall x, P x -> P (f x)) -> table_ok P max (aset l i (f (aget d l i))) n.
Proof.
  intros (Hl & Hn & HP) Hd Hf. split_and!; try lia; [by rewrite zlen_aset|].
  apply Forall_aset; [done|]. apply Hf, Forall_aget_default; done.
Qed.
Lemma table_get {A} (P : A -> Prop) d max l n i : table_ok P max l n -> P d -> P (aget d l i).
Proof. intros (_ & _ & HP) Hd. by apply Forall_aget_default. Qed.
Lemma table_count {A} (P : A -> Prop) max l n n' : table_ok P max l n -> 0 <= n' <= max -> table_ok P max l n'.
Proof. intros (Hl & _ & HP) Hn. done. Qed.

Lemma guild0_ok : guild_ok guild0. Proof. done. Qed.
Lemma channel0_ok : channel_ok channel0. Proof. done. Qed.
Lemma message0_ok : message_ok message0. Proof. done. Qed.
#[local] Hint Resolve guild0_ok channel0_ok message0_ok : core.

Lemma wp_mapM_seq {T} (f : Z -> M T unit) n s (I : Z -> T -> Prop) E :
  I 0 s -> (forall i s, 0 <= i < n -> I i s -> wp (f i) s (fun _ => I (i + 1)) E) ->
  wp (mapM_ f (seqZ 0 n)) s (fun _ => I (Z.max 0 n)) E.
Proof.
  intros Hs Hf. destruct (Z.leb_spec n 0) as [Hn|Hn].
  { rewrite Z.max_l, seqZ_nil by lia. by apply wp_ret. }
  rewrite Z.max_r by lia. assert (G : forall k lo s, 0 <= lo -> lo + Z.of_nat k = n -> I lo s ->
    wp (mapM_ f (seqZ lo (Z.of_nat k))) s (fun _ => I n) E).
  { induction k as [|k IH]; intros lo s' Hlo Hk HI.
    - rewrite seqZ_nil by lia. replace n with lo by lia. by apply wp_ret.
    - rewrite seqZ_cons by lia. cbn [mapM_]. apply wp_bind. eapply wp_mono; [apply Hf; [lia|done]| |done].
      intros [] s2 H2. replace (Z.pred (Z.of_nat (S k))) with (Z.of_nat k) by lia. apply IH; [lia|lia|]. by replace (Z.succ lo) with (lo + 1) by lia. }
  specialize (G (Z.to_nat n) 0 s). rewrite Z2Nat.id in G by lia. apply G; [lia|lia|done].
Qed.

Section Keeps.
Context {W : Type}.
Implicit Types (s : disc W).

Lemma ok_chan w s : disc_ok s -> disc_ok (d_set_chan w s).
Proof. intros []. by split. Qed.
Lemma ok_keys q ps s : disc_ok s -> disc_ok (d_set_keys q ps s).
Proof. intros []. by split. Qed.
Lemma ok_set_heap hp s : disc_ok s -> disc_ok (d_set_heap hp s).
Proof. by intros []. Qed.
Lemma ok_set_scroll i s : 0 <= i <= 128 -> disc_ok s -> disc_ok (d_set_scroll i s).
Proof. intros ? []. by split. Qed.
Lemma ok_set_channel i s : 0 <= i < 128 -> disc_ok s -> disc_ok (d_set_channel i s).
Proof. intros ? []. by split. Qed.
Lemma ok_set_guild g i s : zlen g < 128 -> disc_ok s -> disc_ok (d_set_guild g i s).
Proof. intros ? []. by split. Qed.
Lemma ok_set_token t s : zlen t < 512 -> disc_ok s -> disc_ok (d_set_token t s).
Proof. intros ? []. by split. Qed.
Lemma ok_set_user u s : zlen u < 128 -> disc_ok s -> disc_ok (d_set_user u s).
Proof. intros ? []. by split. Qed.
Lemma ok_upd_guild i f s : (forall g, guild_ok g -> guild_ok (f g)) -> disc_ok s -> disc_ok (upd_guild i f s).
Proof. intros Hf []. split; try done. by apply table_upd. Qed.
Lemma ok_upd_channel i f s : (forall g, channel_ok g -> channel_ok (f g)) -> disc_ok s -> disc_ok (upd_channel i f s).
Proof. intros Hf []. split; try done. by apply table_upd. Qed.
Lemma ok_upd_message i f s : (forall g, message_ok g -> message_ok (f g)) -> disc_ok s -> disc_ok (upd_message i f s).
Proof. intros Hf []. split; try done. by apply table_upd. Qed.
Lemma ok_count_guilds n s : 0 <= n <= 64 -> disc_ok s -> disc_ok (d_set_guilds (guilds s) n s).
Proof. intros Hn []. split; try done. by eapply table_count. Qed.
Lemma ok_count_channels n s : 0 <= n <= 128 -> disc_ok s -> disc_ok (d_set_channels (channels s) n s).
Proof. intros Hn []. split; try done. by eapply table_count. Qed.
Lemma ok_count_messages n s : 0 <= n <= 128 -> disc_ok s -> disc_ok (d_set_messages (messages s) n s).
Proof. intros Hn []. split; try done. by eapply table_count. Qed.

Lemma runs_store (I : disc W -> Prop) n o f :
  (forall v s, zlen v < n -> I s -> I (f v s)) -> runs (keeps I) (store n o f).
Proof.
  intros Hf. apply runs_keeps_wp. intros s Hs. unfold store. destruct o; [|by apply wp_ret].
  apply wp_bind, wp_fits; intros; [|done]. apply wp_modify. by apply Hf.
Qed.

(** A step of an entry that keeps the tables and the count. *)
Definition counted (cnt : disc W -> Z) (i : Z) s : Prop := disc_ok s /\ cnt s <= i.

Lemma wp_keeps {A B} (I : disc W -> Prop) (m : M (disc W) A) (k : A -> M (disc W) B) s Q E :
  runs (keeps I) m -> I s -> (forall s, I s -> forall f, E f s) -> (forall a s, I s -> wp (k a) s Q E) -> wp (m ≫= k) s Q E.
Proof.
  intros Hm Hs HE Hk. apply wp_bind. rewrite runs_keeps_wp in Hm. eapply wp_mono; [by apply Hm|done|]. intros f s' Hs'. by apply HE.
Qed.

Lemma objects_ok json max entry (cnt : disc W -> Z) s :
  (forall t o i s, 0 <= i < max -> counted cnt i s ->
     wp (entry t o i) s (fun _ => counted cnt (i + 1)) (fun _ => disc_ok)) ->
  (forall hp s, cnt (d_set_heap hp s) = cnt s) ->
  disc_ok s -> cnt s = 0 -> wp (for_objects json max entry) s (fun _ => disc_ok) (fun _ => disc_ok).
Proof.
  intros He Hcnt Hs Hc. unfold for_objects, parse_json. apply wp_bind, wp_bind, wp_get.
  destruct (json_parse json (d_heap s)) as [[t [hp|]]|]; [|done|done]. apply wp_bind, wp_modify, wp_ret.
  assert (Hs1 : disc_ok (d_set_heap hp s)) by by apply ok_set_heap. clear Hs. revert Hs1.
  assert (Hc1 : cnt (d_set_heap hp s) = 0) by by rewrite Hcnt. clear Hc. revert Hc1. generalize (d_set_heap hp s). clear s. intros s Hc Hs.
  destruct (_ || _); [by apply wp_ret|].
  eapply wp_mono; [apply (wp_mapM_seq _ _ _ (counted cnt) (fun _ => disc_ok))| |done].
  - split; [done|lia].
  - intros i s' Hi [Hs' Hc'].
    assert (Hst : counted cnt (i + 1) s') by (split; [done|lia]).
    destruct (json_array_get t (Some 0) i) as [o|]; [|by apply wp_ret].
    destruct (bool_decide _); [|by apply wp_ret]. apply He; [lia|done].
  - by intros _ s' [].
Qed.

Ltac entry_step I tac :=
  lazymatch goal with
  | H : counted _ _ ?s0 |- wp _ ?s0 _ _ =>
      eapply (wp_keeps I);
        [apply runs_store; intros ? ? ? [? ?]; split; [tac|assumption]|exact H|by intros ? []
        |clear H; let s := fresh "s" in intros ? s H; cbv beta]
  end.

Lemma parse_guilds_ok json s : disc_ok s -> wp (disc_parse_guilds json) s (fun _ => disc_ok) (fun _ => disc_ok).
Proof.
  intros Hs. unfold disc_parse_guilds. apply wp_bind, wp_modify. apply objects_ok with (cnt := nguilds); [|done|by apply ok_count_guilds|done].
  intros t o i s1 Hi H1. unfold guild_entry.
  do 2 entry_step (counted nguilds i) ltac:(apply ok_upd_guild; [intros g []; by split|done]).
  apply wp_modify. destruct H1 as [Hk Hn]. pose proof (ok_guilds _ Hk) as (_ & ? & _).
  split; [apply ok_count_guilds; [lia|done]|simpl; lia].
Qed.

Lemma parse_channels_ok json s : disc_ok s -> wp (disc_parse_channels json) s (fun _ => disc_ok) (fun _ => disc_ok).
Proof.
  intros Hs. unfold disc_parse_channels. apply wp_bind, wp_modify. apply objects_ok with (cnt := nchannels); [|done|by apply ok_count_channels|done].
  intros t o i s1 Hi H1. unfold channel_entry.
  do 2 entry_step (counted nchannels i) ltac:(apply ok_upd_channel; [intros g (? & ? & ?); by split|done]).
  apply wp_bind, wp_modify.
  lazymatch goal with |- wp _ ?s' _ _ =>
    assert (H2 : counted nchannels i s') by (destruct H1; split; [by apply ok_upd_channel|done]) end.
  entry_step (counted nchannels i) ltac:(apply ok_upd_channel; [intros g (? & ? & ?); by split|done]).
  apply wp_modify. destruct H2 as [Hk Hn]. pose proof (ok_channels _ Hk) as (_ & ? & _).
  split; [apply ok_count_channels; [lia|done]|simpl; lia].
Qed.

Lemma parse_messages_ok json s : disc_ok s -> wp (disc_parse_messages json) s (fun _ => disc_ok) (fun _ => disc_ok).
Proof.
  intros Hs. unfold disc_parse_messages. apply wp_bind, wp_modify. apply objects_ok with (cnt := nmessages); [|done|by apply ok_count_messages|done].
  intros t o i s1 Hi H1. unfold message_entry.
  do 2 entry_step (counted nmessages i) ltac:(apply ok_upd_message; [intros g (? & ? & ? & ?); by split|done]).
  destruct (json_get_object t (Some o) (cs "author")) as [au|].
  1: entry_step (counted nmessages i) ltac:(apply ok_upd_message; [intros g (? & ? & ? & ?); by split|done]).
  2: apply wp_bind, wp_ret.
  all: entry_step (counted nmessages i) ltac:(apply ok_upd_message; [intros g (? & ? & ? & ?); by split|done]).
  all: apply wp_modify; destruct H1 as [Hk Hn]; pose proof (ok_messages _ Hk) as (_ & ? & _).
  all: split; [apply ok_count_messages; [lia|done]|simpl; lia].
Qed.
End Keeps.

Section Runs.
Context {W : Type} `{Transport W} (stack : list Z).
Notation kept m := (runs (keeps (disc_ok (W := W))) m).

Lemma kept_wp {A} (m : M (disc W) A) : (forall s, disc_ok s -> wp m s (fun _ => disc_ok) (fun _ => disc_ok)) -> kept m.
Proof. apply runs_keeps_wp. Qed.
Lemma kept_modify f : (forall s : disc W, disc_ok s -> disc_ok (f s)) -> kept (modify f).
Proof. intros Hf. apply runs_modify. exact Hf. Qed.
Lemma kept_chan {A} (m : M W A) : kept (on_chan m).
Proof. intros s Hs. unfold on_chan, zoom. destruct (m (d_chan s)); by apply ok_chan. Qed.
Lemma kept_poll : kept ps2_poll.
Proof. intros s Hs. unfold ps2_poll, mbind, M_bind, get, fail. destruct (d_polls s); [done|]. by apply ok_keys. Qed.
Lemma kept_queue q : kept (set_queue q).
Proof. apply kept_modify. intros s Hs. by apply ok_keys. Qed.
Lemma kept_guilds json : kept (disc_parse_guilds json).
Proof. apply kept_wp. intros. by apply parse_guilds_ok. Qed.
Lemma kept_channels json : kept (disc_parse_channels json).
Proof. apply kept_wp. intros. by apply parse_channels_ok. Qed.
Lemma kept_messages json : kept (disc_parse_messages json).
Proof. apply kept_wp. intros. by apply parse_messages_ok. Qed.
Lemma kept_parse json : kept (parse_json json).
Proof. unfold parse_json. runs. apply kept_modify. intros. by apply ok_set_heap. Qed.
Lemma kept_scroll : kept scroll_down.
Proof. apply kept_modify. intros s Hs. pose proof (ok_messages _ Hs) as (_ & ? & _). apply ok_set_scroll; [lia|done]. Qed.
#[local] Hint Resolve kept_parse kept_chan kept_poll kept_queue kept_guilds kept_channels kept_messages kept_scroll : runs.

Lemma kept_line_keys max mask ks : forall i, kept (line_keys max mask ks i).
Proof. induction ks as [|c ks IH]; intros i; cbn [line_keys]; runs. Qed.
#[local] Hint Resolve kept_line_keys : runs.
Lemma kept_line_polls f max mask : forall i, kept (line_polls f max mask i).
Proof. induction f as [|f IH]; intros i; cbn [line_polls]; runs. Qed.
#[local] Hint Resolve kept_line_polls : runs.
Lemma kept_read_line max mask : kept (disc_read_line max mask).
Proof. unfold disc_read_line. runs. Qed.

Lemma runs_upto {T} (R : T -> T -> Prop) `{!PreOrder R} (m : M T bool) n : runs R m -> runs R (upto n m).
Proof. intros Hm. induction n as [n IH|n IH|]; cbn [upto]; runs. Qed.

Definition fst_ok (so : disc W * list Z) : Prop := disc_ok so.1.
Lemma kept_recv_all n maxout : kept (recv_all n maxout).
Proof.
  intros s Hs. unfold recv_all.
  assert (Hp : runs (keeps fst_ok) (upto n (recv_pass maxout))).
  { apply runs_upto; [typeclasses eauto|]. unfold recv_pass. runs.
    - eapply runs_zoom; [apply kept_chan|]. intros so u Hu Hso. by apply Hu.
    - apply runs_modify. intros so Hso. exact Hso. }
  specialize (Hp (s, []) Hs). destruct (upto n (recv_pass maxout) (s, [])); exact Hp.
Qed.
Lemma kept_build b off ps : kept (req_build b off ps).
Proof. revert b off. induction ps as [|p ps IH]; intros b off; cbn [req_build]; runs. Qed.
#[local] Hint Resolve kept_read_line kept_recv_all kept_build : runs.

Lemma kept_http method path body maxout : kept (disc_http_send stack method path body maxout).
Proof. unfold disc_http_send. runs. Qed.
#[local] Hint Resolve kept_http : runs.
Lemma kept_get_messages id : kept (disc_get_messages stack id).
Proof. unfold disc_get_messages. runs. Qed.
Lemma kept_send_message id c : kept (disc_send_message stack id c).
Proof. unfold disc_send_message. runs. Qed.
Lemma kept_draw input cur : kept (disc_draw_chat input cur).
Proof. unfold disc_draw_chat, draw_frame, draw_input, draw_channel, draw_message, rows_at. runs. Qed.
Lemma kept_selected : kept selected_id.
Proof. unfold selected_id. runs. Qed.
#[local] Hint Resolve kept_get_messages kept_send_message kept_draw kept_selected : runs.

Lemma kept_chat_send i : kept (chat_send stack i).
Proof.
  unfold chat_send. apply runs_bind; [typeclasses eauto|apply kept_selected|intros id].
  apply runs_bind; [typeclasses eauto|apply kept_send_message|intros _]. apply kept_wp. intros s Hs.
  apply wp_bind, wp_get, wp_bind, wp_in_array; intros Hn; [|done]. apply wp_bind, wp_modify.
  assert (H1 : forall f, (forall m, message_ok m -> message_ok (f m)) -> disc_ok (upd_message (nmessages s) f s)) by (intros; by apply ok_upd_message).
  apply wp_bind, wp_fits; intros Hf; [|apply H1; by intros m (? & ? & ? & ?)].
  apply wp_bind, wp_modify, wp_bind, wp_modify.
  lazymatch goal with |- wp _ (d_set_messages (messages ?s') _ _) _ _ =>
    assert (H2 : disc_ok s') by (apply ok_upd_message; [by intros m (? & ? & ? & ?)|]; apply H1; by intros m (? & ? & ? & ?));
    assert (H3 : disc_ok (d_set_messages (messages s') (nmessages s' + 1) s')) by (apply ok_count_messages; [simpl; lia|done]);
    revert H3; generalize (d_set_messages (messages s') (nmessages s' + 1) s') end.
  clear. intros s Hs. apply wp_bind. pose proof (kept_scroll s Hs) as Hk. by apply wp_ret.
Qed.
#[local] Hint Resolve kept_chat_send : runs.

Lemma kept_chat_key c i : kept (chat_key stack c i).
Proof.
  apply kept_wp. intros s Hs. pose proof (ok_scroll _ Hs). pose proof (ok_messages _ Hs) as (_ & ? & _).
  unfold chat_key. apply wp_bind, wp_get.
  repeat (match goal with |- wp (if ?b then _ else _) _ _ _ => destruct b eqn:? end); wp_run; try done.
  all: try (bool_to_prop; apply ok_set_scroll; [lia|done]).
  all: by (apply wp_post, kept_chat_send).
Qed.
#[local] Hint Resolve kept_chat_key : runs.
Lemma kept_chat_keys ks : forall i, kept (chat_keys stack ks i).
Proof. induction ks as [|c ks IH]; intros i; cbn [chat_keys]; runs. Qed.
#[local] Hint Resolve kept_chat_keys : runs.
Lemma kept_chat_loop f : forall n i, kept (chat_loop stack f n i).
Proof. induction f as [|f IH]; intros n i; cbn [chat_loop]; runs. Qed.
#[local] Hint Resolve kept_chat_loop : runs.
Lemma kept_chat_run : kept (disc_chat_run stack).
Proof. unfold disc_chat_run. runs. Qed.
#[local] Hint Resolve kept_chat_run : runs.
(** As [runs], keeping what a length check established. *)
Lemma kept_fits {A} n x (m : M (disc W) A) : (zlen x < n -> kept m) -> kept (fits n x ;; m).
Proof. intros Hm. apply kept_wp. intros s Hs. apply wp_bind, wp_fits; intros Hx; [|done]. by apply wp_post, Hm. Qed.
Lemma kept_get {A} (k : disc W -> M (disc W) A) : (forall s, disc_ok s -> kept (k s)) -> kept (s ← get; k s).
Proof. intros Hk. apply runs_get_bind. intros s Hs. by apply Hk. Qed.
Ltac kept :=
  repeat first
    [ progress cbv zeta beta
    | apply kept_get; intros ? ?
    | apply kept_fits; intros ?
    | solve [auto with runs typeclass_instances]
    | solve [apply kept_modify; intros ? ?; first [by apply ok_set_token|by apply ok_set_user|by apply ok_set_heap]]
    | progress unfold in_color
    | apply runs_bind; [typeclasses eauto| |intros ?]
    | apply runs_mapM; [typeclasses eauto|intros ?]
    | match goal with |- runs _ (if ?b then _ else _) => destruct b end
    | match goal with |- runs _ (match ?x with _ => _ end) => destruct x eqn:? end ].

Lemma kept_get_channels g : kept (get_channels stack g).
Proof. unfold get_channels. kept. Qed.
#[local] Hint Resolve kept_get_channels : runs.
Lemma kept_args args : kept (disc_args stack args).
Proof. unfold disc_args, rows_at. kept. Qed.
Lemma kept_login email pass : kept (disc_login stack email pass).
Proof. unfold disc_login, disc_lines. kept. Qed.

Lemma kept_choose_server : kept (choose_server stack).
Proof.
  unfold choose_server, heading, rows_at, leave. kept.
  apply kept_modify. intros ? ?. apply ok_set_guild; [|done]. eapply (table_get guild_ok); [by apply ok_guilds|done].
Qed.

Lemma nth_text_range l : forall i n j, nth_text l i n = Some j -> i <= j < i + zlen l.
Proof.
  induction l as [|c l IH]; intros i n j; cbn [nth_text]; [done|]. rewrite zlen_cons. pose proof (zlen_nonneg l).
  destruct (ch_type c =? 0); [destruct (n =? 0); [intros [= <-]; lia|]|]; intros Hj; apply IH in Hj; lia.
Qed.

Lemma kept_list_text l : forall n, kept (list_text l n).
Proof. induction l as [|c l IH]; intros n; cbn [list_text]; kept. Qed.
#[local] Hint Resolve kept_args kept_login kept_choose_server kept_list_text : runs.

Lemma kept_choose_channel g : kept (choose_channel stack g).
Proof.
  unfold choose_channel, heading, leave. kept.
  apply kept_modify. intros ? ?. apply ok_set_channel; [|done].
  match goal with Hj : nth_text _ _ _ = Some _ |- _ => apply nth_text_range in Hj end.
  match goal with Hj : context [take _ (channels ?s)], Hs : disc_ok ?s |- _ =>
    pose proof (ok_channels _ Hs) as (? & ? & _); unfold zlen in *; rewrite length_take in Hj; lia end.
Qed.

#[local] Hint Resolve kept_choose_channel : runs.

Lemma kept_discord args : kept (cmd_discord stack args).
Proof. unfold cmd_discord, heading, leave, disc_lines. kept. Qed.
End Runs.

(** ** Drawing never faults *)

Lemma silent_rows {W} (s : disc W) lo hi f :
  (forall i, lo <= i < hi -> exists out, f i s = Ok tt s out) -> exists out, rows_at lo hi f s = Ok tt s out.
Proof.
  intros Hf. unfold rows_at. assert (G : forall l, (forall i, i ∈ l -> lo <= i < hi) -> exists out, mapM_ f l s = Ok tt s out).
  { induction l as [|i l IH]; intros Hl; [by exists []|]. cbn [mapM_].
    destruct (Hf i) as [o1 E1]; [apply Hl; left|]. destruct IH as [o2 E2]; [intros j Hj; apply Hl; by right|].
    exists (o1 ++ o2). by rewrite (bind_ok _ _ _ _ _ _ E1), E2. }
  apply G. intros i Hi. apply elem_of_seqZ in Hi. lia.
Qed.

Lemma bind_out {T A B} (m : M T A) (k : A -> M T B) s a b s' :
  (exists o, m s = Ok a s o) -> (exists o, k a s = Ok b s' o) -> exists o, (m ≫= k) s = Ok b s' o.
Proof. intros [o1 E1] [o2 E2]. exists (o1 ++ o2). by rewrite (bind_ok _ _ _ _ _ _ E1), E2. Qed.
Lemma emit_out {T} e (s : T) : exists o, emit e s = Ok tt s o.
Proof. by exists [e]. Qed.

Ltac drawn :=
  repeat first
    [ progress cbv beta zeta
    | lazymatch goal with
      | |- exists _, mbind _ _ _ = _ => eapply bind_out
      | |- exists _, rows_at _ _ _ _ = _ => apply silent_rows; intros
      | |- exists _, get _ = _ => by exists []
      | |- exists _, in_array _ _ _ = _ => exists []; rewrite in_array_ok; [done|lia]
      end
    | apply emit_out ].

Lemma draw_chat_safe {W} input cur (s : disc W) : disc_ok s -> exists out, disc_draw_chat input cur s = Ok tt s out.
Proof.
  intros Hs. pose proof (ok_messages _ Hs) as (_ & Hm & _). pose proof (ok_scroll _ Hs).
  unfold disc_draw_chat, draw_frame, draw_input, draw_channel, draw_message. drawn.
Qed.

(** Whatever the server answers and whatever the user types, the tables of
    the Discord client stay well formed on every outcome of the command: the
    counts within the tables, every text within its field, the selected channel
    and the scroll position in range; and from such a state the chat screen is
    drawn without a fault, whatever the input line holds. *)
Theorem discord_tables_ok {W} `{Transport W} stack args (s : disc W) input cur :
  disc_ok s ->
  let s' := post (cmd_discord stack args s) in
  disc_ok s' /\ exists out, disc_draw_chat input cur s' = Ok tt s' out.
Proof.
  intros Hs s'. assert (Hs' : disc_ok s') by (by apply kept_discord). split; [done|]. by apply draw_chat_safe.
Qed.

Lemma disc0_ok {W} ok polls (w : W) : disc_ok (disc0 ok polls w).
Proof.
  assert (R : forall A (P : A -> Prop) x n, P x -> table_ok P (Z.of_nat n) (replicate n x) 0).
  { intros A P x n Hx. split_and!; [unfold zlen; by rewrite length_replicate|lia|lia|by apply Forall_replicate]. }
  split; try done; [apply (R _ guild_ok guild0 64%nat)|apply (R _ channel_ok channel0 128%nat)|apply (R _ message_ok message0 128%nat)]; done.
Qed.

(** A channel that answers every request with the same response. *)
Record script := Script { answers : list (list Z); asked : list (list Z) }.
#[export] Instance script_transport : Transport script := {|
  tls_connect := fun _ _ => mret true;
  tls_send := fun d => modify (fun w => Script (answers w) (asked w ++ [d])) ;; mret 0;
  tls_recv := fun max w => match answers w with d :: l => Ok (Some (take (Z.to_nat max) d)) (Script l (asked w)) [] | [] => Err Blocked w [] end;
  tls_close := mret tt |}.

Definition http_reply (body : cstr) : list Z := cs "HTTP/1.1 200 OK" ++ crlf ++ crlf ++ body ++ crlf ++ crlf.
Definition garbage : list Z := replicate 2048 120.
Definition obj (kvs : list (string * string)) : cstr := print_object (map (fun kv => (cs kv.1, cs kv.2)) kvs).
Definition arr (l : list cstr) : cstr := 91 :: concat (imap (fun i x => (if (i =? 0)%nat then [] else [44]) ++ x) l) ++ [93].

Lemma discord_tables_ok_witness :
  let s' := post (cmd_discord garbage (cs "channels 7") (disc0 true [] (Script [http_reply (arr [obj [("id", "1"); ("name", "pig")]])] []))) in
  disc_ok s' /\ exists out, disc_draw_chat (cs "hi") 1 s' = Ok tt s' out.
Proof. apply discord_tables_ok, disc0_ok. Defined.

(** ** What the code gets wrong *)

(** The offset of the next part is the length of the last one alone: a [GET]
    request of any path, without a token or with one of two bytes or more, sends
    two bytes, the first of the method and of the path. *)
Lemma take_put (b d : list Z) off : 2 <= off -> (2 <= length b)%nat -> take 2 (put b off d) = take 2 b /\ (2 <= length (put b off d))%nat.
Proof.
  intros Ho Hb. unfold put. rewrite take_app_le by (rewrite length_take; lia). rewrite take_take, Nat.min_l by lia.
  split; [done|]. rewrite length_app, length_take. lia.
Qed.

Lemma build_start {T} ps : forall b off (s : T) b' off' o,
  2 <= off -> (2 <= length b)%nat -> Forall (fun p => 2 <= zlen p) ps ->
  req_build b off ps s = Ok (b', off') s o -> take 2 b' = take 2 b /\ (2 <= length b')%nat.
Proof.
  induction ps as [|p ps IH]; intros b off s b' off' o Ho Hb Hps; cbn [req_build]; [by intros [= <- <- _]|].
  apply Forall_cons in Hps as [Hp Hps]. unfold fits. destruct (zlen p <? 2048 - off); [|done].
  rewrite (bind_silent (mret tt) _ s tt s eq_refl). intros E.
  destruct (take_put b (p ++ [0]) off Ho Hb) as [E1 E2]. destruct (IH _ _ _ _ _ _ Hp E2 Hps E) as [E3 E4]. by rewrite E3, E1.
Qed.

Lemma build_app {T} ps qs : forall b off (s : T),
  req_build b off (ps ++ qs) s = (r ← req_build b off ps; req_build r.1 r.2 qs) s.
Proof.
  induction ps as [|p ps IH]; intros b off s; cbn [app req_build].
  - by rewrite (bind_silent (mret _) _ s (b, off) s eq_refl).
  - unfold fits. destruct (zlen p <? 2048 - off); [|done]. rewrite !(bind_silent (mret tt) _ s tt s eq_refl), IH.
    unfold mbind, M_bind. cbn. by destruct (req_build _ _ ps s).
Qed.
Lemma build_last {T} ps p b off (s : T) b' off' o : req_build b off (ps ++ [p]) s = Ok (b', off') s o -> off' = zlen p.
Proof.
  rewrite build_app. unfold mbind, M_bind. destruct (req_build b off ps s) as [[b1 o1] s1 x|]; [|done]. cbn [fst snd req_build].
  unfold fits, mbind, M_bind. destruct (zlen p <? 2048 - o1); [|done]. by intros [= _ <- _].
Qed.

Lemma get_sends_two_bytes {T} (stack : list Z) a p token (s : T) b off o :
  length stack = 2048%nat -> p <> [] -> token = [] \/ 2 <= zlen token ->
  req_build stack 0 (request_parts (cs "GET") (a :: p) token None) s = Ok (b, off) s o ->
  take (Z.to_nat off) b = [71; a].
Proof.
  intros Hst Hp Htok. unfold request_parts.
  set (mid := (if bool_decide (token = []) then [] else [cs "Authorization: "; token; crlf]) ++ [cs "Content-Type: application/json" ++ crlf; cs "Accept: */*" ++ crlf; USER_AGENT]).
  assert (Hmid : Forall (fun p => 2 <= zlen p) (([cs " HTTP/1.1" ++ crlf; cs "Host: discord.com" ++ crlf] ++ mid) ++ [crlf])).
  { subst mid. repeat (apply Forall_app; split); try (case_bool_decide; [|destruct Htok; [done|]]); by repeat constructor. }
  match goal with |- req_build _ _ ?l _ = _ -> _ =>
    replace l with ([cs "GET"; cs " "] ++ [a :: p] ++ ([cs " HTTP/1.1" ++ crlf; cs "Host: discord.com" ++ crlf] ++ mid) ++ [crlf])
      by (subst mid; by rewrite <- !app_assoc) end.
  intros E. assert (Ho : off = 2).
  { rewrite !app_assoc in E. by apply build_last in E. }
  subst off. revert E. generalize dependent (([cs " HTTP/1.1" ++ crlf; cs "Host: discord.com" ++ crlf] ++ mid) ++ [crlf]). clear mid. intros parts Hparts.
  cbn [app]. destruct stack as [|x0 [|x1 [|x2 [|x3 [|x4 st]]]]]; try discriminate. cbn [req_build]. unfold fits.
  change (zlen (cs "GET") <? 2048 - 0) with true. change (zlen (cs " ") <? 2048 - zlen (cs "GET")) with true. cbv iota.
  rewrite !(bind_silent (mret tt) _ s tt s eq_refl). destruct (zlen (a :: p) <? _); [|done].
  rewrite !(bind_silent (mret tt) _ s tt s eq_refl). intros E. apply build_start in E as [E _]; try done.
  - rewrite zlen_cons. destruct p; [done|]. rewrite zlen_cons. pose proof (zlen_nonneg p). lia.
  - unfold put. rewrite !length_app. simpl. lia.
Qed.

(** So the server is sent [G/], whatever is asked. *)
Lemma chat_request_is_garbage :
  asked (d_chan (post (disc_get_messages garbage (cs "42") (disc0 true [] (Script [http_reply (cs "[]")] []))))) = [cs "G/"].
Proof. vm_compute. reflexivity. Qed.

(** Of two servers the second is lost: the parser's array lookup ([json.h])
    addresses the first one's members. *)
Lemma second_server_is_lost :
  let s := post (disc_parse_guilds (arr [obj [("id", "1"); ("name", "a")]; obj [("id", "2"); ("name", "b")]]) (disc0 true [] tt)) in
  nguilds s = 1 /\ aget guild0 (guilds s) 0 = Guild (cs "1") (cs "a") /\ aget guild0 (guilds s) 1 = guild0.
Proof. vm_compute. auto. Qed.

(** An entry that is not an object is skipped in the count and not in the
    table: the server behind it is counted, and the empty entry is shown. *)
Lemma skipped_entry_shifts :
  let s := post (disc_parse_guilds (arr [cs "0"; obj [("id", "1"); ("name", "a")]]) (disc0 true [] tt)) in
  nguilds s = 1 /\ aget guild0 (guilds s) 0 = guild0 /\ aget guild0 (guilds s) 1 = Guild (cs "1") (cs "a").
Proof. vm_compute. auto. Qed.

(** Names are copied without a length check. *)
Lemma long_name_overflows :
  result (disc_parse_guilds (arr [print_object [(cs "name", replicate 128 97)]]) (disc0 true [] tt)) = inr BufferOverflow.
Proof. vm_compute. reflexivity. Qed.

(** The 129th message of a session is stored behind the table. *)
Lemma message_table_overflows :
  let s := d_set_messages (replicate 128 message0) 128 (disc0 true [] (Script [http_reply (cs "{}")] [])) in
  result (chat_send garbage (Inp (104 :: replicate 255 0) 1 1) s) = inr OutOfBounds.
Proof. vm_compute. reflexivity. Qed.

(** A response whose header comes in a record of its own ends there: what is
    parsed as JSON is the header. *)
Lemma header_ends_the_response :
  result (disc_http_send garbage (cs "GET") (cs "/x") None 8192
            (disc0 true [] (Script [cs "HTTP/1.1 200 OK" ++ crlf ++ crlf; cs "[]"] []))) =
  inl (Some (cs "HTTP/1.1 200 OK" ++ crlf ++ crlf)).
Proof. vm_compute. reflexivity. Qed.
