(* ===== verification/Vi.v ===== *)
(** * The pi editor ([shell/vi.h])

    The text is an array of 24 rows of 78 bytes, of which [nlines] count, each
    holding a C string; the cursor is row [cy] and column [cx].  Keys come from
    the keyboard queue. *)

From Stdlib Require Import ZArith Lia.
From stdpp Require Import base numbers list strings gmap.
From S2P Require Import Prelude CLib Console PigPath PigFs PigFsCmd Ps2 Users Nano.
Import Libc.

Notation VI_ROWS := 20 (only parsing).
Notation VI_COLS := 78 (only parsing).
Notation VI_BUF_MAX := 4096 (only parsing).

Inductive ViMode := VI_NORMAL | VI_INSERT | VI_CMD.

#[export] Instance ViMode_eq_dec : EqDecision ViMode.
Proof. solve_decision. Defined.

Record vi := Vi {
  rows : list (list Z); nlines : Z; cy : Z; cx : Z; mode : ViMode; cmd_buf : cstr; vi_modified : bool }.

Definition set_rows (r : list (list Z)) (v : vi) := Vi r (nlines v) (cy v) (cx v) (mode v) (cmd_buf v) (vi_modified v).
Definition set_nlines (n : Z) (v : vi) := Vi (rows v) n (cy v) (cx v) (mode v) (cmd_buf v) (vi_modified v).
Definition set_cy (y : Z) (v : vi) := Vi (rows v) (nlines v) y (cx v) (mode v) (cmd_buf v) (vi_modified v).
Definition set_cx (x : Z) (v : vi) := Vi (rows v) (nlines v) (cy v) x (mode v) (cmd_buf v) (vi_modified v).
Definition set_mode (m : ViMode) (v : vi) := Vi (rows v) (nlines v) (cy v) (cx v) m (cmd_buf v) (vi_modified v).
Definition set_cmd (s : cstr) (v : vi) := Vi (rows v) (nlines v) (cy v) (cx v) (mode v) s (vi_modified v).
Definition set_modified (b : bool) (v : vi) := Vi (rows v) (nlines v) (cy v) (cx v) (mode v) (cmd_buf v) b.

(** [lines[r]], as an array and as a string. *)
Definition row (v : vi) (r : Z) : list Z := aget [] (rows v) r.
Definition line_at (v : vi) (r : Z) : cstr := read_cstr (row v r).
Definition line_len (v : vi) : Z := zlen (line_at v (cy v)).

(** A store to [lines[r]] as a whole array. *)
Definition set_row (r : Z) (a : list Z) (v : vi) : vi := set_rows (aset (rows v) r a) v.

(** [kcp(lines[r],s)] *)
Definition copy_row (r : Z) (s : cstr) (v : vi) : M fs vi :=
  in_array 24 r ;; fits VI_COLS s ;; mret (set_row r (write_cstr (row v r) s) v).

(** [for(r=lo;r<hi;r++) kcp(lines[r],lines[r+1]);] *)
Fixpoint rows_up (n : nat) (r : Z) (v : vi) : M fs vi :=
  match n with O => mret v | S n' => v ← copy_row r (line_at v (r + 1)) v; rows_up n' (r + 1) v end.
(** [for(r=hi;r>lo;r--) kcp(lines[r],lines[r-1]);] *)
Fixpoint rows_down (n : nat) (r : Z) (v : vi) : M fs vi :=
  match n with O => mret v | S n' => v ← copy_row r (line_at v (r - 1)) v; rows_down n' (r - 1) v end.

(** ** Opening a file *)

Fixpoint split_rows (s : cstr) (v : vi) (col : Z) : vi :=
  match s with
  | [] => v
  | c :: s' =>
      if nlines v <? VI_ROWS + 2 then
        if c =? c_nl then split_rows s' (set_nlines (nlines v + 1) (set_row (nlines v - 1) (aset (row v (nlines v - 1)) col 0) v)) 0
        else if col <? VI_COLS - 1 then
          split_rows s' (set_row (nlines v - 1) (aset (aset (row v (nlines v - 1)) col c) (col + 1) 0) v) (col + 1)
        else split_rows s' v col
      else v
  end.

Definition vi_load (path : cstr) : M fs cstr :=
  m ← lookup_mem path;
  match m with
  | Some m => fits VI_BUF_MAX (mf_content m) ;; mret (mf_content m)
  | None =>
      n ← fs_find_vnode path;
      match n with
      | Some n =>
          match vn_content n with
          | Some c => if zlen c <? VI_BUF_MAX - 1 then mret c else mret []
          | None => mret []
          end
      | None => mret []
      end
  end.

(** [junk]: the rows as the stack had them; the first 23 get a terminator. *)
Definition vi_start (junk : list (list Z)) (text : cstr) : vi :=
  let r0 := imap (fun i a => if (i <? 23)%nat then aset a 0 0 else a) junk in
  split_rows text (Vi r0 1 0 0 VI_NORMAL [] false) 0.

(** ** Drawing *)

Definition vi_draw (path : cstr) (v : vi) : M fs unit :=
  let tb := COL C_BLACK C_LGREY in
  vclear ;; vfill 0 0 80 1 c_sp tb ;; vstr 1 0 tb (cs "  pi - ") ;; vstr 7 0 tb path ;;
  (if vi_modified v then vstr 68 0 (COL C_RED C_LGREY) (cs " [Modified]") else mret tt) ;;
  emit (EMove 0 1) ;;
  mapM_ (fun r =>
    vset C_DGREY C_BLACK ;; mapM_ (fun _ => vpc c_sp) (seqZ 0 (3 - zlen (kia (r + 1)))) ;; vps (kia (r + 1)) ;; vpc c_sp ;;
    vset C_WHITE C_BLACK ;; vps (line_at v r) ;; vpc c_nl) (seqZ 0 (Z.min VI_ROWS (nlines v))) ;;
  vfill 0 23 80 1 c_sp (COL C_BLACK C_CYAN) ;;
  (match mode v with
   | VI_NORMAL => vstr 1 23 (COL C_BLACK C_CYAN) (cs "NORMAL  i=insert  :w=save  :q=quit  :wq=save+quit  dd=del  /=search")
   | VI_INSERT => vstr 1 23 (COL C_WHITE C_BLUE) (cs "-- INSERT -- ESC=normal  arrows=move")
   | VI_CMD => vstr 1 23 (COL C_BLACK C_CYAN) (cs ":") ;; vstr 2 23 (COL C_BLACK C_CYAN) (cmd_buf v)
   end) ;;
  (if (4 + cx v <? 80) && (1 + cy v <? 23) then emit (EInvert (4 + cx v) (1 + cy v)) else mret tt) ;;
  emit EHwCursor.

(** ** Keys *)

Definition clamp (v : vi) : vi := if line_len v <? cx v then set_cx (line_len v) v else v.

(** [dd] *)
Definition delete_line (v : vi) : M fs vi :=
  v ← rows_up (Z.to_nat (nlines v - 1 - cy v)) (cy v) v;
  let v := set_row (nlines v - 1) (aset (row v (nlines v - 1)) 0 0) v in
  let v := set_modified true (set_nlines (nlines v - 1) v) in
  mret (if nlines v <=? cy v then set_cy (nlines v - 1) v else v).

(** [o] and [O]: the empty line goes to row [r]. *)
Definition open_line (r : Z) (v : vi) : M fs vi :=
  if nlines v <? VI_ROWS + 2 then
    v ← rows_down (Z.to_nat (nlines v - r)) (nlines v) v;
    in_array 24 r ;;
    mret (set_modified true (set_mode VI_INSERT (set_cx 0 (set_cy r (set_nlines (nlines v + 1) (set_row r (aset (row v r) 0 0) v))))))
  else mret v.

(** One key in normal mode; the second key of [dd] is read from the queue. *)
Definition vi_normal (c : Z) (ks : list Z) (v : vi) : M fs (vi * list Z) :=
  if c =? 105 then mret (set_mode VI_INSERT v, ks)
  else if c =? c_colon then mret (set_cmd [] (set_mode VI_CMD v), ks)
  else if (c =? 104) || (c =? KEY_LEFT) then mret (if 0 <? cx v then set_cx (cx v - 1) v else v, ks)
  else if (c =? 108) || (c =? KEY_RIGHT) then mret (if cx v <? line_len v - 1 then set_cx (cx v + 1) v else v, ks)
  else if (c =? 107) || (c =? KEY_UP) then mret (if 0 <? cy v then clamp (set_cy (cy v - 1) v) else v, ks)
  else if (c =? 106) || (c =? KEY_DOWN) then mret (if cy v <? nlines v - 1 then clamp (set_cy (cy v + 1) v) else v, ks)
  else if c =? 48 then mret (set_cx 0 v, ks)
  else if c =? 36 then mret (set_cx (line_len v) v, ks)
  else if c =? 71 then mret (set_cy (nlines v - 1) v, ks)
  else if c =? 103 then mret (set_cx 0 (set_cy 0 v), ks)
  else if c =? 100 then
    match ks with
    | [] => fail Blocked
    | c2 :: ks' => if (c2 =? 100) && (1 <? nlines v) then v ← delete_line v; mret (v, ks') else mret (v, ks')
    end
  else if c =? 111 then v ← open_line (cy v + 1) v; mret (v, ks)
  else if c =? 79 then v ← open_line (cy v) v; mret (v, ks)
  else mret (v, ks).

(** Backspace inside a line: [for(i=cx-1;i<l;i++) a[i]=a[i+1];] *)
Definition vi_rub (v : vi) : M fs vi :=
  let a := row v (cy v) in
  let b := copy_up (Z.to_nat (line_len v - (cx v - 1))) (Z.to_nat (cx v - 1)) (Z.to_nat (cx v)) a in
  mret (set_modified true (set_cx (cx v - 1) (set_row (cy v) b v))).

(** Backspace at the start of a line: it joins the previous one. *)
Definition vi_join (v : vi) : M fs vi :=
  let plen := zlen (line_at v (cy v - 1)) in
  let joined := line_at v (cy v - 1) ++ line_at v (cy v) in
  fits VI_COLS joined ;;
  let v := set_row (cy v - 1) (write_cstr (row v (cy v - 1)) joined) v in
  v ← rows_up (Z.to_nat (nlines v - 1 - cy v)) (cy v) v;
  let v := set_row (nlines v - 1) (aset (row v (nlines v - 1)) 0 0) v in
  mret (set_modified true (set_cx plen (set_cy (cy v - 1) (set_nlines (nlines v - 1) v)))).

(** The rows are contiguous: [lines[cy]+cx] is read on into the next ones. *)
Definition vi_split (v : vi) : M fs vi :=
  if nlines v <? VI_ROWS + 2 then
    v ← rows_down (Z.to_nat (nlines v - (cy v + 1))) (nlines v) v;
    in_array VI_COLS (cx v) ;;
    v ← copy_row (cy v + 1) (read_cstr (drop (Z.to_nat (cx v)) (concat (drop (Z.to_nat (cy v)) (rows v))))) v;
    let v := set_row (cy v) (aset (row v (cy v)) (cx v) 0) v in
    mret (set_modified true (set_cx 0 (set_cy (cy v + 1) (set_nlines (nlines v + 1) v))))
  else mret v.

Definition vi_type (c : Z) (v : vi) : M fs vi :=
  let l := line_len v in
  if l <? VI_COLS - 2 then
    let b := copy_down (Z.to_nat (l - cx v)) (Z.to_nat (cx v) + 1) (Z.to_nat (cx v)) (row v (cy v)) in
    in_array VI_COLS (cx v) ;;
    mret (set_modified true (set_cx (cx v + 1) (set_row (cy v) (aset (aset b (cx v) c) (l + 1) 0) v)))
  else mret v.

Definition vi_insert (c : Z) (v : vi) : M fs vi :=
  if c =? c_esc then mret (let v := set_mode VI_NORMAL v in if 0 <? cx v then set_cx (cx v - 1) v else v)
  else if c =? KEY_LEFT then mret (if 0 <? cx v then set_cx (cx v - 1) v else v)
  else if c =? KEY_RIGHT then mret (if cx v <? line_len v then set_cx (cx v + 1) v else v)
  else if c =? KEY_UP then mret (if 0 <? cy v then set_cy (cy v - 1) v else v)
  else if c =? KEY_DOWN then mret (if cy v <? nlines v - 1 then set_cy (cy v + 1) v else v)
  else if c =? KEY_HOME then mret (set_cx 0 v)
  else if c =? KEY_END then mret (set_cx (line_len v) v)
  else if c =? c_bs then if 0 <? cx v then vi_rub v else if 0 <? cy v then vi_join v else mret v
  else if c =? c_nl then vi_split v
  else if (32 <=? c) && (c <? 127) then vi_type c v
  else mret v.

(** The text written to the file. *)
Fixpoint join_lines (ls : list cstr) : cstr :=
  match ls with [] => [] | [l] => l | l :: ls' => l ++ [c_nl] ++ join_lines ls' end.
Definition vi_text (v : vi) : cstr := join_lines (map (line_at v) (seqZ 0 (nlines v))).

Definition vi_save (path : cstr) (v : vi) : M fs vi :=
  fits VI_BUF_MAX (vi_text v) ;; store_file path (vi_text v) ;; mret (set_modified false v).

(** One key of a command; [None] when the editor is left. *)
Definition vi_cmd (path : cstr) (c : Z) (v : vi) : M fs (option vi) :=
  let back v := set_cmd [] (set_mode VI_NORMAL v) in
  if c =? c_esc then mret (Some (back v))
  else if c =? c_nl then
    let b := cmd_buf v in
    if streq b (cs "q!") || streq b (cs "q") then mret None
    else if streq b (cs "w") || streq b (cs "wq") || streq b (cs "x") then
      v ← vi_save path v;
      if streq b (cs "wq") || streq b (cs "x") then mret None else mret (Some (back v))
    else mret (Some (back v))
  else if c =? c_bs then mret (Some (set_cmd (removelast (cmd_buf v)) v))
  else if (32 <=? c) && (c <? 127) && (zlen (cmd_buf v) <? 63) then mret (Some (set_cmd (cmd_buf v ++ [c]) v))
  else mret (Some v).

(** One key in any mode, with the keys behind it. *)
Definition vi_key (path : cstr) (c : Z) (ks : list Z) (v : vi) : M fs (option vi * list Z) :=
  match mode v with
  | VI_NORMAL => r ← vi_normal c ks v; mret (Some r.1, r.2)
  | VI_INSERT => v ← vi_insert c v; mret (Some v, ks)
  | VI_CMD => r ← vi_cmd path c v; mret (r, ks)
  end.

(** The loop; [fuel] bounds the keys read. *)
Fixpoint vi_loop (fuel : nat) (path : cstr) (ks : list Z) (v : vi) : M fs (list Z) :=
  match fuel, ks with
  | S f, c :: ks' =>
      r ← vi_key path c ks' v;
      match r.1 with
      | None => mret r.2
      | Some v => vi_draw path v ;; vi_loop f path r.2 v
      end
  | _, _ => fail Blocked
  end.

(** [junk]: the stack the array lies on. *)
Definition cmd_vi (junk : list (list Z)) (cwd a : cstr) (ks : list Z) : M fs (list Z) :=
  path ← (if bool_decide (a = []) then mret (cs "/tmp/unnamed.txt") else resolve cwd a);
  text ← vi_load path;
  let v := vi_start junk text in
  vi_draw path v ;;
  ks ← vi_loop (length ks) path ks v;
  vclear ;; vrst ;; mret ks.

(** ** The rows as strings *)

(** The array holds the string: it and its terminator lie inside. *)
Definition holds (a : list Z) (l : cstr) : Prop := length a = 78%nat /\ no_nul l /\ exists j, a = l ++ 0 :: j.
Definition shape (v : vi) : Prop := zlen (rows v) = 24 /\ Forall (fun a => length a = 78%nat) (rows v).

Lemma holds_read a l : holds a l -> read_cstr a = l /\ zlen l <= 77.
Proof.
  intros (Hn & Hl & j & ->). split; [by apply read_cstr_app|]. rewrite length_app in Hn. cbn in Hn. unfold zlen. lia.
Qed.

Lemma holds_line v r l : holds (row v r) l -> line_at v r = l /\ zlen l <= 77.
Proof. apply holds_read. Qed.

Lemma holds_write a l : length a = 78%nat -> no_nul l -> zlen l <= 77 -> holds (write_cstr a l) l.
Proof.
  intros Ha Hl Hz. unfold write_cstr. split; [|split; [done|by eexists]]. rewrite !length_app, length_drop. cbn. unfold zlen in Hz. lia.
Qed.

Lemma holds_cut a b l : holds a (b ++ l) -> holds (aset a (zlen b) 0) b.
Proof.
  intros (Hn & Hl & j & ->). apply no_nul_app in Hl as [Hb _]. unfold aset, zlen. rewrite Nat2Z.id. split; [by rewrite length_insert|].
  split; [done|]. rewrite <- app_assoc. rewrite insert_app_r_alt, Nat.sub_diag by lia. destruct (l ++ 0 :: j) as [|x q] eqn:E; [by destruct l|].
  by eexists.
Qed.

Lemma row_set v r a k : shape v -> 0 <= r < 24 -> 0 <= k -> row (set_row r a v) k = if decide (k = r) then a else row v k.
Proof.
  intros [Hl _] Hr Hk. unfold row, set_row. cbn [rows set_rows]. destruct (decide (k = r)) as [->|]; [by rewrite aget_aset_eq by lia|].
  by rewrite aget_aset_ne by lia.
Qed.

Lemma shape_set v r a : shape v -> length a = 78%nat -> shape (set_row r a v).
Proof. intros [Hl Hf] Ha. split; cbn [rows set_rows set_row]; [by rewrite zlen_aset|by apply Forall_aset]. Qed.

Lemma shape_row v r : shape v -> 0 <= r < 24 -> length (row v r) = 78%nat.
Proof. intros [Hl Hf] Hr. unfold row. apply (Forall_aget [] (fun a => length a = 78%nat)); [done|lia]. Qed.

(** Everything but the rows is the same. *)
Definition same_rest (v v' : vi) : Prop :=
  nlines v' = nlines v /\ cy v' = cy v /\ cx v' = cx v /\ mode v' = mode v /\ cmd_buf v' = cmd_buf v /\ vi_modified v' = vi_modified v.

Lemma vi_copy_row_spec v r s st : shape v -> 0 <= r < 24 -> no_nul s -> zlen s <= 77 ->
  exists v', copy_row r s v st = Ok v' st [] /\ shape v' /\ same_rest v v' /\ holds (row v' r) s /\
    forall k, 0 <= k -> k <> r -> row v' k = row v k.
Proof.
  intros Hv Hr Hs Hl. unfold copy_row, in_array, fits. rewrite (proj2 (Z.leb_le 0 r)), (proj2 (Z.ltb_lt r 24)), (proj2 (Z.ltb_lt _ VI_COLS)) by lia.
  eexists. split; [done|]. pose proof (shape_row v r Hv Hr) as Hlen. pose proof (holds_write (row v r) s Hlen Hs Hl) as Hw.
  split; [apply shape_set; [done|by apply Hw]|]. split; [done|].
  split; [by rewrite row_set, decide_True by (done || lia)|]. intros k Hk Hne. by rewrite row_set, decide_False by (done || lia).
Qed.

Lemma rows_down_spec n : forall r v st, shape v -> 0 <= r - Z.of_nat n -> r < 24 ->
  (forall i, r - Z.of_nat n <= i < r -> exists l, holds (row v i) l) ->
  exists v', rows_down n r v st = Ok v' st [] /\ shape v' /\ same_rest v v' /\
    (forall i l, r - Z.of_nat n <= i < r -> holds (row v i) l -> holds (row v' (i + 1)) l) /\
    (forall i, 0 <= i -> i <= r - Z.of_nat n \/ r < i -> row v' i = row v i).
Proof.
  induction n as [|n IH]; intros r v st Hv Hr1 Hr2 Hs; cbn [rows_down].
  { exists v. split; [done|]. split; [done|]. split; [done|]. split; [intros; lia|done]. }
  destruct (Hs (r - 1)) as [l Hl]; [lia|]. destruct (holds_line v (r - 1) l Hl) as [-> Hz].
  destruct (vi_copy_row_spec v r l st) as (v1 & E1 & Hv1 & Hr & Hh & Hk); [done|lia|apply Hl|done|].
  destruct (IH (r - 1) v1 st) as (v2 & E2 & Hv2 & Hr' & Hm & Hk'); [done|lia|lia| |].
  { intros i Hi. destruct (Hs i) as [l' Hl']; [lia|]. exists l'. by rewrite Hk by lia. }
  exists v2. split; [rewrite (bind_ok _ _ st v1 st []) by done; by rewrite E2|]. split; [done|]. split; [unfold same_rest in *; intuition congruence|].
  split.
  - intros i l' Hi Hl'. destruct (Z.eq_dec i (r - 1)) as [->|].
    + rewrite Hk' by lia. replace (r - 1 + 1) with r by lia. destruct (holds_line v _ _ Hl) as [<- _], (holds_line v _ _ Hl') as [<- _]. done.
    + apply Hm; [lia|]. by rewrite Hk by lia.
  - intros i Hi Hor. rewrite Hk' by lia. apply Hk; lia.
Qed.

Lemma rows_up_spec n : forall r v st, shape v -> 0 <= r -> r + Z.of_nat n < 24 ->
  (forall i, r < i <= r + Z.of_nat n -> exists l, holds (row v i) l) ->
  exists v', rows_up n r v st = Ok v' st [] /\ shape v' /\ same_rest v v' /\
    (forall i l, r < i <= r + Z.of_nat n -> holds (row v i) l -> holds (row v' (i - 1)) l) /\
    (forall i, 0 <= i -> i < r \/ r + Z.of_nat n <= i -> row v' i = row v i).
Proof.
  induction n as [|n IH]; intros r v st Hv Hr1 Hr2 Hs; cbn [rows_up].
  { exists v. split; [done|]. split; [done|]. split; [done|]. split; [intros; lia|done]. }
  destruct (Hs (r + 1)) as [l Hl]; [lia|]. destruct (holds_line v (r + 1) l Hl) as [-> Hz].
  destruct (vi_copy_row_spec v r l st) as (v1 & E1 & Hv1 & Hr & Hh & Hk); [done|lia|apply Hl|done|].
  destruct (IH (r + 1) v1 st) as (v2 & E2 & Hv2 & Hr' & Hm & Hk'); [done|lia|lia| |].
  { intros i Hi. destruct (Hs i) as [l' Hl']; [lia|]. exists l'. by rewrite Hk by lia. }
  exists v2. split; [rewrite (bind_ok _ _ st v1 st []) by done; by rewrite E2|]. split; [done|]. split; [unfold same_rest in *; intuition congruence|].
  split.
  - intros i l' Hi Hl'. destruct (Z.eq_dec i (r + 1)) as [->|].
    + rewrite Hk' by lia. replace (r + 1 - 1) with r by lia. destruct (holds_line v _ _ Hl) as [<- _], (holds_line v _ _ Hl') as [<- _]. done.
    + apply Hm; [lia|]. by rewrite Hk by lia.
  - intros i Hi Hor. rewrite Hk' by lia. apply Hk; lia.
Qed.

(** ** The reference editor: lines above, the line around the cursor, lines below *)

Record zip := Zip { above : list cstr; before : cstr; after : cstr; below : list cstr }.
Definition zlines (z : zip) : list cstr := above z ++ (before z ++ after z) :: below z.

(** The cursor in column [x] of the line [l], when the line is that long. *)
Definition at_col (ab : list cstr) (l : cstr) (be : list cstr) (x : nat) : option zip :=
  if (x <=? length l)%nat then Some (Zip ab (take x l) (drop x l) be) else None.

(** One line up or down; [f] gives the column in the new line. *)
Definition vi_go_up (f : cstr -> nat) (z : zip) : option zip :=
  match last (above z) with
  | Some l => at_col (removelast (above z)) l ((before z ++ after z) :: below z) (f l)
  | None => Some z
  end.
Definition go_down (f : cstr -> nat) (z : zip) : option zip :=
  match below z with
  | l :: be => at_col (above z ++ [before z ++ after z]) l be (f l)
  | [] => Some z
  end.
Definition go_left (z : zip) : zip :=
  match last (before z) with Some c => Zip (above z) (removelast (before z)) (c :: after z) (below z) | None => z end.

Definition zinsert (c : Z) (z : zip) : option (ViMode * zip) :=
  let stay z := Some (VI_INSERT, z) in
  let x := length (before z) in
  if c =? c_esc then Some (VI_NORMAL, go_left z)
  else if c =? KEY_LEFT then stay (go_left z)
  else if c =? KEY_RIGHT then
    stay match after z with a :: r => Zip (above z) (before z ++ [a]) r (below z) | [] => z end
  else if c =? KEY_UP then pair VI_INSERT <$> vi_go_up (fun _ => x) z
  else if c =? KEY_DOWN then pair VI_INSERT <$> go_down (fun _ => x) z
  else if c =? KEY_HOME then stay (Zip (above z) [] (before z ++ after z) (below z))
  else if c =? KEY_END then stay (Zip (above z) (before z ++ after z) [] (below z))
  else if c =? c_bs then
    match last (before z), last (above z) with
    | Some _, _ => stay (Zip (above z) (removelast (before z)) (after z) (below z))
    | None, Some p => if zlen (p ++ after z) <=? 77 then stay (Zip (removelast (above z)) p (after z) (below z)) else None
    | None, None => stay z
    end
  else if c =? c_nl then
    stay (if zlen (zlines z) <? 22 then Zip (above z ++ [before z]) [] (after z) (below z) else z)
  else if (32 <=? c) && (c <? 127) then
    stay (if zlen (before z ++ after z) <? 76 then Zip (above z) (before z ++ [c]) (after z) (below z) else z)
  else stay z.

(** The array and the zipper agree; [m] is the mode. *)
Record zrep (v : vi) (m : ViMode) (z : zip) : Prop := {
  z_shape : shape v;
  z_mode : mode v = m;
  z_count : nlines v = zlen (zlines z);
  z_room : zlen (zlines z) <= 22;
  z_row : cy v = zlen (above z);
  z_col : cx v = zlen (before z);
  z_lines : forall i l, zlines z !! i = Some l -> holds (row v (Z.of_nat i)) l;
}.

(** The lines by their place. *)
Lemma zlines_split (P : nat -> cstr -> Prop) z :
  (forall i l, zlines z !! i = Some l -> P i l) <->
  (forall i l, above z !! i = Some l -> P i l) /\ P (length (above z)) (before z ++ after z) /\
  (forall i l, below z !! i = Some l -> P (length (above z) + 1 + i)%nat l).
Proof.
  unfold zlines. split.
  - intros H. split; [|split].
    + intros i l Hi. apply H. rewrite lookup_app_l; [done|]. by apply lookup_lt_Some in Hi.
    + apply H. by rewrite lookup_app_r, Nat.sub_diag by lia.
    + intros i l Hi. apply H. rewrite lookup_app_r by lia. by replace (length (above z) + 1 + i - length (above z))%nat with (S i) by lia.
  - intros (Ha & Hm & Hb) i l Hi. destruct (decide (i < length (above z))%nat) as [Hlt|Hge]; [rewrite lookup_app_l in Hi by done; auto|].
    rewrite lookup_app_r in Hi by lia. destruct (i - length (above z))%nat as [|k] eqn:E.
    + injection Hi as <-. by replace i with (length (above z)) by lia.
    + replace i with (length (above z) + 1 + k)%nat by lia. by apply Hb.
Qed.

Lemma holds_zero a : length a = 78%nat -> holds (aset a 0 0) [].
Proof. intros Ha. destruct a as [|x a]; [done|]. split; [done|]. split; [apply no_nul_nil|by exists a]. Qed.

(** The bytes from a place on. *)
Lemma read_at v r b a : shape v -> 0 <= r < 24 -> holds (row v r) (b ++ a) ->
  read_cstr (drop (Z.to_nat (zlen b)) (concat (drop (Z.to_nat r) (rows v)))) = a.
Proof.
  intros [Hs _] Hr (Hn & Hnul & j & Hj).
  destruct (rows v !! Z.to_nat r) as [q|] eqn:E; [|apply lookup_ge_None in E; unfold zlen in Hs; lia].
  assert (q = row v r) as -> by (unfold row, aget; by rewrite (nth_lookup_Some _ _ _ _ E)).
  rewrite (drop_S _ _ _ E). cbn [concat]. rewrite Hj. unfold zlen. rewrite Nat2Z.id, <- !app_assoc, drop_app_length. cbn [app].
  apply read_cstr_app. by apply no_nul_app in Hnul as [_ ?].
Qed.

Section Rep.
Context {v : vi} {m : ViMode} {z : zip} (R : zrep v m z).

Lemma z_current : holds (row v (cy v)) (before z ++ after z).
Proof. destruct R as [_ _ _ _ -> _ Hl]. unfold zlen. apply Hl. unfold zlines. by rewrite lookup_app_r, Nat.sub_diag by lia. Qed.

Lemma z_len : line_len v = zlen (before z ++ after z) /\ line_len v <= 77.
Proof. unfold line_len. destruct (holds_line v _ _ z_current) as [-> ?]. done. Qed.

Lemma z_cy : 0 <= cy v < nlines v /\ nlines v <= 22.
Proof.
  destruct R as [_ _ -> ? -> _ _]. split; [|done]. unfold zlines. rewrite zlen_app, zlen_cons.
  pose proof (zlen_nonneg (above z)). pose proof (zlen_nonneg (below z)). lia.
Qed.

(** Another place in the same text. *)
Lemma z_move v' z' m' : rows v' = rows v -> nlines v' = nlines v -> mode v' = m' -> zlines z' = zlines z ->
  cy v' = zlen (above z') -> cx v' = zlen (before z') -> zrep v' m' z'.
Proof.
  intros Hr Hn Hm Hz Hy Hx. destruct R as [Hs _ Hc Hroom _ _ Hl]. constructor; try done; rewrite ?Hz, ?Hn; try done.
  - unfold shape. by rewrite Hr.
  - unfold row. rewrite Hr. exact Hl.
Qed.

(** The current line replaced. *)
Lemma z_replace a b' a' : holds a (b' ++ a') ->
  zrep (set_modified true (set_cx (zlen b') (set_row (cy v) a v))) m (Zip (above z) b' a' (below z)).
Proof.
  intros Ha. pose proof z_cy as Hcy. destruct R as [Hs Hm Hc Hr Hy Hx Hl].
  assert (Hlen : zlen (zlines (Zip (above z) b' a' (below z))) = zlen (zlines z)) by (unfold zlines; cbn; by rewrite !zlen_app, !zlen_cons).
  constructor; cbn [rows nlines cy cx mode set_modified set_cx set_row set_rows above before]; try done; try congruence.
  - apply (shape_set v (cy v) a Hs). apply Ha.
  - intros i l Hi. change (holds (row (set_row (cy v) a v) (Z.of_nat i)) l). rewrite row_set by (done || lia).
    unfold zlines in Hi, Hl. cbn [above before after below] in Hi. destruct (decide (Z.of_nat i = cy v)) as [E|E].
    + rewrite Hy in E. unfold zlen in E. apply Nat2Z.inj in E as ->. rewrite lookup_app_r, Nat.sub_diag in Hi by lia. by injection Hi as <-.
    + apply Hl. rewrite Hy in E. unfold zlen in E. destruct (decide (i < length (above z))%nat).
      * by rewrite lookup_app_l in Hi |- * by lia.
      * rewrite lookup_app_r in Hi |- * by lia. destruct (i - length (above z))%nat as [|k] eqn:Ek; [lia|]. exact Hi.
Qed.
(** *** Text *)

Lemma z_type c st : byte_ok c -> c <> 0 -> line_len v < 76 ->
  exists v', vi_type c v st = Ok v' st [] /\ zrep v' m (Zip (above z) (before z ++ [c]) (after z) (below z)).
Proof.
  intros Hc Hc0 Hlen. destruct z_current as (Hn & Hnul & j & Hj). destruct z_len as [Hl _]. pose proof R as [_ _ _ _ _ Hx _].
  unfold vi_type. cbv zeta. rewrite (proj2 (Z.ltb_lt _ _)) by lia. rewrite zlen_app in Hl.
  pose proof (zlen_nonneg (before z)). pose proof (zlen_nonneg (after z)).
  unfold in_array. rewrite (proj2 (Z.leb_le 0 _)), (proj2 (Z.ltb_lt _ _)) by lia. eexists. split; [done|].
  replace (cx v + 1) with (zlen (before z ++ [c])) by (rewrite zlen_app, zlen_cons, zlen_nil; lia). apply z_replace.
  rewrite Hl, Hx, Hj. replace (zlen (before z) + zlen (after z) - zlen (before z)) with (zlen (after z)) by lia.
  unfold zlen, aset. rewrite !Nat2Z.id. rewrite <- app_assoc. rewrite insert_shift.
  rewrite Hj, length_app in Hn. cbn in Hn. rewrite length_app in Hn. unfold zlen in *.
  destruct j as [|y j]; [cbn in Hn; lia|].
  replace (Z.to_nat (Z.of_nat (length (before z)) + Z.of_nat (length (after z)) + 1)) with (length ((before z ++ [c]) ++ after z))
    by (rewrite !length_app; cbn; lia).
  replace (before z ++ c :: after z ++ y :: j) with (((before z ++ [c]) ++ after z) ++ y :: j) by (rewrite <- !app_assoc; done).
  rewrite insert_app_r_alt, Nat.sub_diag by lia. cbn [insert list_insert]. split; [rewrite !length_app; cbn in *; lia|].
  split; [|by eexists]. apply no_nul_app in Hnul as [? ?]. rewrite !no_nul_app, no_nul_cons. pose proof no_nul_nil. tauto.
Qed.

Lemma z_rub b x st : before z = b ++ [x] ->
  exists v', vi_rub v st = Ok v' st [] /\ zrep v' m (Zip (above z) b (after z) (below z)).
Proof.
  intros Hb. destruct z_current as (Hn & Hnul & j & Hj). destruct z_len as [Hl _]. pose proof R as [_ _ _ _ _ Hx _].
  rewrite Hb in *. rewrite zlen_app, zlen_cons in Hx. change (zlen (@nil Z)) with 0 in Hx. rewrite !zlen_app, zlen_cons in Hl. change (zlen (@nil Z)) with 0 in Hl.
  unfold vi_rub. cbv zeta. eexists. split; [done|]. replace (cx v - 1) with (zlen b) by lia. apply z_replace.
  assert (Ej : row v (cy v) = b ++ x :: (after z ++ [0]) ++ j) by (rewrite Hj, <- !app_assoc; done). rewrite Ej.
  replace (Z.to_nat (line_len v - zlen b)) with (length (after z ++ [0])) by (rewrite length_app; cbn; unfold zlen in *; lia).
  replace (Z.to_nat (cx v)) with (length b + 1)%nat by (unfold zlen in *; lia).
  replace (Z.to_nat (zlen b)) with (length b) by (unfold zlen; lia).
  destruct (remove_shift b (after z ++ [0]) j x) as [q Hq].
  pose proof (length_copy_up (length (after z ++ [0])) (length b) (length b + 1) (b ++ x :: (after z ++ [0]) ++ j)) as Hlen.
  rewrite Hq in Hlen |- *. split; [rewrite Hlen, <- Ej; done|]. rewrite !no_nul_app in Hnul. split; [rewrite no_nul_app; tauto|].
  exists q. by rewrite <- !app_assoc.
Qed.

Lemma z_above i l : above z !! i = Some l -> holds (row v (Z.of_nat i)) l.
Proof. destruct R as [_ _ _ _ _ _ Hl]. apply (zlines_split (fun i l => holds (row v (Z.of_nat i)) l) z) in Hl as (H & _ & _). apply H. Qed.
Lemma z_below i l : below z !! i = Some l -> holds (row v (cy v + 1 + Z.of_nat i)) l.
Proof.
  destruct R as [_ _ _ _ -> _ Hl]. apply (zlines_split (fun i l => holds (row v (Z.of_nat i)) l) z) in Hl as (_ & _ & H).
  intros Hi. apply H in Hi. unfold zlen. by replace (Z.of_nat (length (above z)) + 1 + Z.of_nat i) with (Z.of_nat (length (above z) + 1 + i)) by lia.
Qed.

(** A row below the cursor holds some line. *)
Lemma z_below_some i : cy v < i < nlines v -> exists k l, below z !! k = Some l /\ i = cy v + 1 + Z.of_nat k /\ holds (row v i) l.
Proof.
  intros Hi. pose proof R as [_ _ Hc _ Hy _ _]. unfold zlines in Hc. rewrite zlen_app, zlen_cons in Hc.
  destruct (below z !! Z.to_nat (i - cy v - 1)) as [l|] eqn:E.
  - eexists _, l. split; [done|]. split; [lia|]. replace i with (cy v + 1 + Z.of_nat (Z.to_nat (i - cy v - 1))) by lia. by apply z_below.
  - apply lookup_ge_None in E. unfold zlen in *. lia.
Qed.

Lemma z_split st : nlines v < 22 ->
  exists v', vi_split v st = Ok v' st [] /\ zrep v' m (Zip (above z ++ [before z]) [] (after z) (below z)).
Proof.
  intros Hn. pose proof z_cy as Hcy. pose proof z_current as Hcur. pose proof Hcur as (_ & Hnul & _). apply no_nul_app in Hnul as [Hbn Han].
  pose proof R as [Hs Hm Hc Hroom Hy Hx Hl]. destruct z_len as [Hlen Hle]. rewrite zlen_app in Hlen.
  pose proof (zlen_nonneg (before z)). pose proof (zlen_nonneg (after z)).
  unfold vi_split. rewrite (proj2 (Z.ltb_lt _ _)) by lia.
  destruct (rows_down_spec (Z.to_nat (nlines v - (cy v + 1))) (nlines v) v st) as (v1 & E1 & Hs1 & (Hn1 & Hy1 & Hx1 & Hm1 & _ & _) & Hmv & Hsame);
    [done|lia|lia| |].
  { intros i Hi. destruct (z_below_some i) as (k & l & _ & _ & ?); [lia|]. by exists l. }
  rewrite (bind_silent _ _ st v1 st E1). rewrite Hx1, Hx, Hy1.
  rewrite (bind_silent (in_array _ _) _ st tt st) by (unfold in_array; by rewrite (proj2 (Z.leb_le 0 _)), (proj2 (Z.ltb_lt _ VI_COLS)) by lia).
  rewrite (read_at v1 (cy v) (before z) (after z)) by (done || lia || by rewrite Hsame by lia).
  destruct (vi_copy_row_spec v1 (cy v + 1) (after z) st) as (v2 & E2 & Hs2 & (Hn2 & Hy2 & Hx2 & Hm2 & _ & _) & Hh2 & Hk2); [done|lia|done|lia|].
  rewrite (bind_silent _ _ st v2 st E2). cbv zeta. assert (cy v2 = cy v) as -> by congruence. assert (cx v2 = zlen (before z)) as -> by congruence.
  eexists. split; [done|].
  assert (Hrow : row v2 (cy v) = row v (cy v)) by (rewrite Hk2, Hsame by lia; done).
  assert (Hcut : holds (aset (row v2 (cy v)) (zlen (before z)) 0) (before z)) by (rewrite Hrow; by apply (holds_cut _ _ (after z))).
  constructor; cbn [rows nlines cy cx mode set_modified set_cx set_cy set_nlines set_row set_rows above before after below].
  - apply (shape_set v2); [done|apply Hcut].
  - congruence.
  - rewrite Hn2, Hn1, Hc. unfold zlines. cbn. rewrite !zlen_app, !zlen_cons. change (zlen (@nil cstr)) with 0. lia.
  - unfold zlines. cbn. rewrite !zlen_app, !zlen_cons. change (zlen (@nil cstr)) with 0. unfold zlines in Hc. rewrite zlen_app, zlen_cons in Hc. lia.
  - rewrite zlen_app. change (zlen [before z]) with 1. lia.
  - done.
  - apply (zlines_split (fun i l => holds (row (set_row (cy v) (aset (row v2 (cy v)) (zlen (before z)) 0) v2) (Z.of_nat i)) l)).
    assert (Hset : forall k, 0 <= k -> row (set_row (cy v) (aset (row v2 (cy v)) (zlen (before z)) 0) v2) k =
                     if decide (k = cy v) then aset (row v2 (cy v)) (zlen (before z)) 0 else row v2 k) by (intros; apply row_set; done || lia).
    cbn [above before after below app]. split; [|split].
    + intros i l Hi. rewrite Hset by lia. apply lookup_snoc_Some in Hi as [[Hlt Hi]|[-> <-]].
      * rewrite decide_False by (rewrite ?Hy; unfold zlen; lia). rewrite Hk2, Hsame by (rewrite ?Hy; unfold zlen; lia). by apply z_above.
      * rewrite decide_True by (rewrite Hy; done). exact Hcut.
    + rewrite Hset by lia. rewrite length_app. cbn. rewrite decide_False by (rewrite ?Hy; unfold zlen; lia).
      replace (Z.of_nat (length (above z) + 1)) with (cy v + 1) by (rewrite ?Hy; unfold zlen; lia). done.
    + intros i l Hi. rewrite Hset by lia. rewrite length_app. cbn. rewrite decide_False by (rewrite ?Hy; unfold zlen; lia).
      apply z_below in Hi as Hb. apply lookup_lt_Some in Hi. unfold zlines in Hc. rewrite zlen_app, zlen_cons in Hc.
      rewrite Hk2 by (rewrite ?Hy; unfold zlen; lia).
      replace (Z.of_nat (length (above z) + 1 + 1 + i)) with (cy v + 1 + Z.of_nat i + 1) by (rewrite ?Hy; unfold zlen; lia).
      apply Hmv; [unfold zlen in *; lia|done].
Qed.
Lemma z_join ab p st : before z = [] -> above z = ab ++ [p] -> zlen (p ++ after z) <= 77 ->
  exists v', vi_join v st = Ok v' st [] /\ zrep v' m (Zip ab p (after z) (below z)).
Proof.
  intros Hbe Hab Hfit. pose proof z_cy as Hcy. pose proof z_current as Hcur. rewrite Hbe in Hcur. cbn [app] in Hcur.
  pose proof R as [Hs Hm Hc Hroom Hy Hx Hl]. unfold zlines in Hc. rewrite Hab, !zlen_app, !zlen_cons in Hc. change (zlen (@nil cstr)) with 0 in Hc.
  rewrite Hab, zlen_app in Hy. change (zlen [p]) with 1 in Hy. pose proof (zlen_nonneg ab).
  assert (Hp : holds (row v (cy v - 1)) p).
  { rewrite Hy. replace (zlen ab + 1 - 1) with (Z.of_nat (length ab)) by (unfold zlen; lia). apply z_above. by rewrite Hab, lookup_app_r, Nat.sub_diag by lia. }
  destruct (holds_line v _ _ Hp) as [Ep _]. destruct (holds_line v _ _ Hcur) as [Ec _].
  unfold vi_join. cbv zeta. rewrite Ep, Ec.
  rewrite (bind_silent (fits _ _) _ st tt st) by (unfold fits; by rewrite (proj2 (Z.ltb_lt _ VI_COLS)) by lia).
  assert (Hj : holds (write_cstr (row v (cy v - 1)) (p ++ after z)) (p ++ after z)).
  { apply holds_write; [apply shape_row; [done|lia]| |done]. apply no_nul_app. split; [apply Hp|apply Hcur]. }
  set (v0 := set_row (cy v - 1) (write_cstr (row v (cy v - 1)) (p ++ after z)) v).
  assert (Hs0 : shape v0) by (apply shape_set; [done|apply Hj]).
  assert (Hr0 : forall k, 0 <= k -> row v0 k = if decide (k = cy v - 1) then write_cstr (row v (cy v - 1)) (p ++ after z) else row v k)
    by (intros; apply row_set; done || lia).
  change (nlines v0) with (nlines v). change (cy v0) with (cy v).
  destruct (rows_up_spec (Z.to_nat (nlines v - 1 - cy v)) (cy v) v0 st) as (v1 & E1 & Hs1 & (Hn1 & Hy1 & Hx1 & Hm1 & _ & _) & Hmv & Hsame);
    [done|lia|lia| |].
  { intros i Hi. destruct (z_below_some i) as (k & l & _ & _ & ?); [lia|]. exists l. by rewrite Hr0, decide_False by lia. }
  rewrite (bind_silent _ _ st v1 st E1). eexists. split; [done|].
  change (nlines v0) with (nlines v) in Hn1. change (cy v0) with (cy v) in Hy1. change (mode v0) with (mode v) in Hm1.
  assert (Hz : length (aset (row v1 (nlines v1 - 1)) 0 0) = 78%nat) by (unfold aset; rewrite length_insert; apply shape_row; [done|lia]).
  constructor; cbn [rows nlines cy cx mode set_modified set_cx set_cy set_nlines set_row set_rows above before after below].
  - apply (shape_set v1); done.
  - congruence.
  - rewrite Hn1, Hc. unfold zlines. cbn [above before after below]. rewrite zlen_app, zlen_cons. lia.
  - unfold zlines. cbn [above before after below]. rewrite zlen_app, zlen_cons. lia.
  - lia.
  - done.
  - apply (zlines_split (fun i l => holds (row (set_row (nlines v1 - 1) (aset (row v1 (nlines v1 - 1)) 0 0) v1) (Z.of_nat i)) l)).
    assert (Hset : forall k, 0 <= k < nlines v - 1 -> row (set_row (nlines v1 - 1) (aset (row v1 (nlines v1 - 1)) 0 0) v1) k = row v1 k)
      by (intros; rewrite row_set by (done || lia); by rewrite decide_False by lia).
    cbn [above before after below]. split; [|split].
    + intros i l Hi. apply lookup_lt_Some in Hi as Hlt. pose proof (zlen_nonneg (below z)).
      rewrite Hset, Hsame, Hr0, decide_False by (rewrite ?Hy; unfold zlen in *; lia). apply z_above. by rewrite Hab, lookup_app_l by done.
    + pose proof (zlen_nonneg (below z)). rewrite Hset, Hsame, Hr0, decide_True by (rewrite ?Hy; unfold zlen in *; lia). exact Hj.
    + intros i l Hi. apply lookup_lt_Some in Hi as Hlt. apply z_below in Hi as Hb. rewrite Hset by (unfold zlen in *; lia).
      replace (Z.of_nat (length ab + 1 + i)) with (cy v + 1 + Z.of_nat i - 1) by (unfold zlen in *; lia).
      apply Hmv; [unfold zlen in *; lia|]. by rewrite Hr0, decide_False by lia.
Qed.

(** *** A new line *)

Lemma z_open r st : nlines v < 22 -> r = cy v \/ r = cy v + 1 ->
  exists v', open_line r v st = Ok v' st [] /\ vi_modified v' = true /\
    zrep v' VI_INSERT (Zip (take (Z.to_nat r) (zlines z)) [] [] (drop (Z.to_nat r) (zlines z))).
Proof.
  intros Hn Hr. pose proof z_cy as Hcy. pose proof R as [Hs Hm Hc Hroom Hy Hx Hl].
  unfold open_line. rewrite (proj2 (Z.ltb_lt _ _)) by lia.
  assert (Hsome : forall i, 0 <= i < nlines v -> exists l, zlines z !! Z.to_nat i = Some l /\ holds (row v i) l).
  { intros i Hi. destruct (zlines z !! Z.to_nat i) as [l|] eqn:E; [|apply lookup_ge_None in E; unfold zlen in *; lia].
    exists l. split; [done|]. apply Hl in E. by rewrite Z2Nat.id in E by lia. }
  destruct (rows_down_spec (Z.to_nat (nlines v - r)) (nlines v) v st) as (v1 & E1 & Hs1 & (Hn1 & Hy1 & Hx1 & Hm1 & _ & _) & Hmv & Hsame);
    [done|lia|lia| |].
  { intros i Hi. destruct (Hsome i) as (l & _ & ?); [lia|]. by exists l. }
  rewrite (bind_silent _ _ st v1 st E1).
  rewrite (bind_silent (in_array _ _) _ st tt st) by (unfold in_array; by rewrite (proj2 (Z.leb_le 0 _)), (proj2 (Z.ltb_lt _ 24)) by lia).
  eexists. split; [done|]. split; [done|].
  assert (Hz : holds (aset (row v1 r) 0 0) []) by (apply holds_zero, shape_row; [done|lia]).
  assert (Hlen : length (take (Z.to_nat r) (zlines z)) = Z.to_nat r) by (rewrite length_take; unfold zlen in *; lia).
  assert (Hset : forall k, 0 <= k -> row (set_row r (aset (row v1 r) 0 0) v1) k = if decide (k = r) then aset (row v1 r) 0 0 else row v1 k)
    by (intros; apply row_set; done || lia).
  constructor; cbn [rows nlines cy cx mode set_modified set_mode set_cx set_cy set_nlines set_row set_rows above before after below].
  - apply (shape_set v1); [done|apply Hz].
  - done.
  - unfold zlines at 1. cbn [above before after below]. rewrite zlen_app, zlen_cons. unfold zlen in *. rewrite length_drop, Hlen. lia.
  - unfold zlines at 1. cbn [above before after below]. rewrite zlen_app, zlen_cons. unfold zlen in *. rewrite length_drop, Hlen. lia.
  - unfold zlen. rewrite Hlen. lia.
  - done.
  - apply (zlines_split (fun i l => holds (row (set_row r (aset (row v1 r) 0 0) v1) (Z.of_nat i)) l)).
    cbn [above before after below app]. rewrite Hlen. split; [|split].
    + intros i l Hi. apply lookup_take_Some in Hi as [Hi Hlt]. rewrite Hset, decide_False, Hsame by lia. by apply Hl.
    + rewrite Hset, decide_True by lia. exact Hz.
    + intros i l Hi. rewrite lookup_drop in Hi. apply lookup_lt_Some in Hi as Hlt. rewrite Hset, decide_False by lia.
      replace (Z.of_nat (Z.to_nat r + 1 + i)) with (Z.of_nat (Z.to_nat r + i) + 1) by lia. apply Hmv; [unfold zlen in *; lia|]. by apply Hl.
Qed.

End Rep.

(** *** Deleting a line *)

Definition zdelete (z : zip) : option zip :=
  let x := length (before z) in
  match below z, last (above z) with
  | l :: be, _ => at_col (above z) l be x
  | [], Some l => at_col (removelast (above z)) l [] x
  | [], None => Some z
  end.

Lemma z_remaining z z' : 1 < zlen (zlines z) -> zdelete z = Some z' ->
  zlines z' = above z ++ below z /\ zlen (above z') = Z.min (zlen (above z)) (zlen (zlines z) - 2) /\ length (before z') = length (before z).
Proof.
  unfold zdelete, at_col, zlines. rewrite zlen_app, zlen_cons. intros Hn. destruct (below z) as [|l be].
  - destruct (last (above z)) as [l|] eqn:El.
    + apply last_Some in El as [ab Hab]. rewrite Hab, removelast_last. case_match; [|done]. intros [= <-]. cbn [above before after below].
      rewrite take_drop. rewrite zlen_app. change (zlen [l]) with 1. change (zlen (@nil cstr)) with 0. rewrite app_nil_r.
      split; [done|]. split; [lia|]. apply length_take_le. by apply Nat.leb_le.
    + apply last_None in El. rewrite El in Hn. change (zlen (@nil cstr)) with 0 in Hn. lia.
  - case_match; [|done]. intros [= <-]. cbn [above before after below]. rewrite take_drop, zlen_cons. pose proof (zlen_nonneg be).
    split; [done|]. split; [lia|]. apply length_take_le. by apply Nat.leb_le.
Qed.

Lemma z_dd v m z z' st : zrep v m z -> 1 < nlines v -> zdelete z = Some z' ->
  exists v', delete_line v st = Ok v' st [] /\ zrep v' m z'.
Proof.
  intros R Hn Hd. pose proof (z_cy R) as Hcy. pose proof R as [Hs Hm Hc Hroom Hy Hx Hl].
  destruct (z_remaining z z') as (Hz & Ha & Hb); [lia|done|]. unfold delete_line.
  destruct (rows_up_spec (Z.to_nat (nlines v - 1 - cy v)) (cy v) v st) as (v1 & E1 & Hs1 & (Hn1 & Hy1 & Hx1 & Hm1 & _ & _) & Hmv & Hsame);
    [done|lia|lia| |].
  { intros i Hi. destruct (z_below_some R i) as (k & l & _ & _ & ?); [lia|]. by exists l. }
  rewrite (bind_silent _ _ st v1 st E1). eexists. split; [done|]. cbv zeta.
  assert (Hlen : length (aset (row v1 (nlines v1 - 1)) 0 0) = 78%nat) by (unfold aset; rewrite length_insert; apply shape_row; [done|lia]).
  assert (Hcnt : zlen (zlines z') = nlines v - 1).
  { rewrite Hz, Hc. unfold zlines. rewrite !zlen_app, zlen_cons. lia. }
  assert (Hrows : forall i l, zlines z' !! i = Some l ->
    holds (row (set_row (nlines v1 - 1) (aset (row v1 (nlines v1 - 1)) 0 0) v1) (Z.of_nat i)) l).
  { intros i l Hi. apply lookup_lt_Some in Hi as Hlt. rewrite row_set, decide_False by (done || unfold zlen in Hcnt; lia).
    rewrite Hz in Hi. destruct (decide (i < length (above z))%nat).
    - rewrite lookup_app_l in Hi by done. rewrite Hsame by (unfold zlen in *; lia). by apply (z_above R).
    - rewrite lookup_app_r in Hi by lia. replace (Z.of_nat i) with (cy v + 1 + Z.of_nat (i - length (above z)) - 1) by (unfold zlen in *; lia).
      apply Hmv; [unfold zlen in *; lia|]. by apply (z_below R). }
  destruct (_ <=? _) eqn:E; cbn [nlines cy set_modified set_nlines set_row set_rows set_cy] in E; bool_to_prop;
    (constructor; cbn [rows nlines cy cx mode set_modified set_cy set_nlines set_row set_rows]; try done; try congruence; try lia;
     [by apply (shape_set v1)|rewrite Hx1, Hx; unfold zlen; lia]).
Qed.

(** ** Keys *)

Definition znormal (c : Z) (z : zip) : option (ViMode * zip) :=
  let stay z := Some (VI_NORMAL, z) in
  let x := length (before z) in
  let y := length (above z) in
  let opened r := Some (if zlen (zlines z) <? 22 then (VI_INSERT, Zip (take r (zlines z)) [] [] (drop r (zlines z))) else (VI_NORMAL, z)) in
  if c =? 105 then Some (VI_INSERT, z)
  else if c =? c_colon then None
  else if (c =? 104) || (c =? KEY_LEFT) then stay (go_left z)
  else if (c =? 108) || (c =? KEY_RIGHT) then
    stay match after z with a :: b :: r => Zip (above z) (before z ++ [a]) (b :: r) (below z) | _ => z end
  else if (c =? 107) || (c =? KEY_UP) then pair VI_NORMAL <$> vi_go_up (fun l => Nat.min x (length l)) z
  else if (c =? 106) || (c =? KEY_DOWN) then pair VI_NORMAL <$> go_down (fun l => Nat.min x (length l)) z
  else if c =? 48 then stay (Zip (above z) [] (before z ++ after z) (below z))
  else if c =? 36 then stay (Zip (above z) (before z ++ after z) [] (below z))
  else if c =? 71 then
    match last (below z) with
    | Some l => pair VI_NORMAL <$> at_col (removelast (zlines z)) l [] x
    | None => stay z
    end
  else if c =? 103 then match zlines z with l :: ls => stay (Zip [] [] l ls) | [] => None end
  else if c =? 111 then opened (y + 1)%nat
  else if c =? 79 then opened y
  else stay z.

(** A sequence of keys; [None] when it leaves what the reference covers: a
    command line, or a cursor beyond the end of its line. *)
Fixpoint zkeys (m : ViMode) (ks : list Z) (z : zip) : option (ViMode * zip) :=
  match ks with
  | [] => Some (m, z)
  | c :: ks1 =>
      match m with
      | VI_INSERT => r ← zinsert c z; zkeys r.1 ks1 r.2
      | VI_NORMAL =>
          if c =? 100 then
            match ks1 with
            | c2 :: ks2 => if (c2 =? 100) && (1 <? zlen (zlines z)) then z ← zdelete z; zkeys m ks2 z else zkeys m ks2 z
            | [] => None
            end
          else r ← znormal c z; zkeys r.1 ks1 r.2
      | VI_CMD => None
      end
  end.

Lemma go_left_lines z : zlines (go_left z) = zlines z /\ above (go_left z) = above z /\
  zlen (before (go_left z)) = if 0 <? zlen (before z) then zlen (before z) - 1 else zlen (before z).
Proof.
  unfold go_left. destruct (last (before z)) as [c|] eqn:E.
  - apply last_Some in E as [b Hb]. unfold zlines. cbn [above before after below]. rewrite Hb, removelast_last, <- app_assoc.
    rewrite zlen_app. change (zlen [c]) with 1. pose proof (zlen_nonneg b). rewrite (proj2 (Z.ltb_lt 0 _)) by lia. split; [done|]. split; [done|lia].
  - apply last_None in E. rewrite E. done.
Qed.

Lemma at_col_lines ab l be x z : at_col ab l be x = Some z ->
  zlines z = ab ++ l :: be /\ above z = ab /\ zlen (before z) = Z.of_nat x.
Proof.
  unfold at_col. destruct (Nat.leb_spec x (length l)); [|done]. intros [= <-]. unfold zlines. cbn [above before after below].
  rewrite take_drop. split; [done|]. split; [done|]. unfold zlen. by rewrite length_take_le.
Qed.

Section Moves.
Context {v : vi} {m : ViMode} {z : zip} (R : zrep v m z).

Lemma z_left v' m' : rows v' = rows v -> nlines v' = nlines v -> mode v' = m' -> cy v' = cy v ->
  cx v' = (if 0 <? cx v then cx v - 1 else cx v) -> zrep v' m' (go_left z).
Proof.
  intros Hr Hn Hm Hy Hx. destruct (go_left_lines z) as (H1 & H2 & H3). apply (z_move R); try done.
  - rewrite H2, Hy. apply R.
  - rewrite H3, Hx. destruct R as [_ _ _ _ _ -> _]. done.
Qed.

Lemma z_up f z' v' m' : vi_go_up f z = Some z' -> rows v' = rows v -> nlines v' = nlines v -> mode v' = m' ->
  cy v' = (if 0 <? cy v then cy v - 1 else cy v) ->
  (0 < cy v -> cx v' = Z.of_nat (f (line_at v (cy v - 1)))) -> (cy v = 0 -> cx v' = cx v) -> zrep v' m' z'.
Proof.
  intros Hgo Hr Hn Hm Hy Hx1 Hx0. pose proof R as [_ _ _ _ Ey Ex _]. unfold vi_go_up in Hgo. destruct (last (above z)) as [l|] eqn:E.
  - apply last_Some in E as [ab Hab]. rewrite Hab, removelast_last in Hgo. apply at_col_lines in Hgo as (H1 & H2 & H3).
    rewrite Hab, zlen_app in Ey. change (zlen [l]) with 1 in Ey. pose proof (zlen_nonneg ab). rewrite (proj2 (Z.ltb_lt 0 _)) in Hy by lia.
    assert (Hl : holds (row v (cy v - 1)) l).
    { replace (cy v - 1) with (Z.of_nat (length ab)) by (unfold zlen in Ey; lia). apply (z_above R). by rewrite Hab, lookup_app_r, Nat.sub_diag by lia. }
    destruct (holds_line v _ _ Hl) as [El _]. apply (z_move R); try done.
    + rewrite H1. unfold zlines. rewrite Hab, <- app_assoc. done.
    + rewrite H2. lia.
    + rewrite H3, Hx1, El by lia. done.
  - apply last_None in E. injection Hgo as <-. rewrite E in Ey. change (zlen (@nil cstr)) with 0 in Ey. rewrite Ey in *.
    apply (z_move R); try done; [by rewrite Hy, E|rewrite Hx0; done].
Qed.

Lemma z_down f z' v' m' : go_down f z = Some z' -> rows v' = rows v -> nlines v' = nlines v -> mode v' = m' ->
  cy v' = (if cy v <? nlines v - 1 then cy v + 1 else cy v) ->
  (cy v < nlines v - 1 -> cx v' = Z.of_nat (f (line_at v (cy v + 1)))) -> (nlines v - 1 <= cy v -> cx v' = cx v) -> zrep v' m' z'.
Proof.
  intros Hgo Hr Hn Hm Hy Hx1 Hx0. pose proof R as [_ _ Ec _ Ey Ex _]. unfold zlines in Ec. rewrite zlen_app, zlen_cons in Ec.
  unfold go_down in Hgo. destruct (below z) as [|l be] eqn:E.
  - injection Hgo as <-. change (zlen (@nil cstr)) with 0 in Ec. rewrite (proj2 (Z.ltb_ge _ _)) in Hy by lia.
    apply (z_move R); try done; [congruence|rewrite Hx0 by lia; done].
  - rewrite zlen_cons in Ec. pose proof (zlen_nonneg be). rewrite (proj2 (Z.ltb_lt _ _)) in Hy by lia. apply at_col_lines in Hgo as (H1 & H2 & H3).
    assert (Hl : holds (row v (cy v + 1)) l) by (replace (cy v + 1) with (cy v + 1 + Z.of_nat 0) by lia; apply (z_below R); by rewrite E).
    destruct (holds_line v _ _ Hl) as [El _]. apply (z_move R); try done.
    + rewrite H1. unfold zlines. rewrite E, <- app_assoc. done.
    + rewrite H2, zlen_app. change (zlen [before z ++ after z]) with 1. lia.
    + rewrite H3, Hx1, El by lia. done.
Qed.

Lemma z_home v' m' : rows v' = rows v -> nlines v' = nlines v -> mode v' = m' -> cy v' = cy v -> cx v' = 0 ->
  zrep v' m' (Zip (above z) [] (before z ++ after z) (below z)).
Proof. intros. apply (z_move R); try done. destruct R. cbn. congruence. Qed.

Lemma z_end v' m' : rows v' = rows v -> nlines v' = nlines v -> mode v' = m' -> cy v' = cy v -> cx v' = line_len v ->
  zrep v' m' (Zip (above z) (before z ++ after z) [] (below z)).
Proof.
  intros ? ? ? ? Hx. destruct (z_len R) as [Hl _]. apply (z_move R); try done; [unfold zlines; cbn; by rewrite app_nil_r|destruct R; cbn; congruence|cbn; congruence].
Qed.

Lemma z_right v' m' a r : after z = a :: r -> rows v' = rows v -> nlines v' = nlines v -> mode v' = m' -> cy v' = cy v -> cx v' = cx v + 1 ->
  zrep v' m' (Zip (above z) (before z ++ [a]) r (below z)).
Proof.
  intros Ha ? ? ? ? Hx. apply (z_move R); try done; [unfold zlines; cbn; by rewrite Ha, <- app_assoc|destruct R; cbn; congruence|].
  cbn. rewrite zlen_app, Hx. destruct R as [_ _ _ _ _ -> _]. done.
Qed.

Lemma z_same v' m' : rows v' = rows v -> nlines v' = nlines v -> mode v' = m' -> cy v' = cy v -> cx v' = cx v -> zrep v' m' z.
Proof. intros ? ? ? Hy Hx. apply (z_move R); try done; [rewrite Hy|rewrite Hx]; apply R. Qed.
End Moves.

(** A key leaves the machine as it was and the editor at [z']. *)
Definition lands (r : res fs vi) (st : fs) (m' : ViMode) (z' : zip) : Prop := exists v', r = Ok v' st [] /\ zrep v' m' z'.

Lemma lands_ret v' st m' z' : zrep v' m' z' -> lands ((mret v' : M fs vi) st) st m' z'.
Proof. intros. by exists v'. Qed.

Lemma insert_refines v z c st m' z' :
  zrep v VI_INSERT z -> zinsert c z = Some (m', z') -> lands (vi_insert c v st) st m' z'.
Proof.
  intros R. pose proof R as [_ Hm Hc Hroom Hy Hx _]. destruct (z_len R) as [Hl Hle]. pose proof (z_cy R) as Hcy.
  pose proof (zlen_nonneg (before z)) as Hb0. unfold zinsert, vi_insert. cbv zeta.
  destruct (c =? c_esc). { intros [= <- <-]. apply lands_ret. destruct (0 <? cx v) eqn:E; apply (z_left R); cbn; rewrite ?E; done. }
  destruct (c =? KEY_LEFT). { intros [= <- <-]. apply lands_ret. destruct (0 <? cx v) eqn:E; apply (z_left R); cbn; rewrite ?E; done. }
  destruct (c =? KEY_RIGHT).
  { intros [= <- <-]. apply lands_ret. rewrite zlen_app in Hl. destruct (after z) as [|a r] eqn:Ea.
    - change (zlen (@nil Z)) with 0 in Hl. rewrite (proj2 (Z.ltb_ge _ _)) by lia. by apply (z_same R).
    - rewrite zlen_cons in Hl. pose proof (zlen_nonneg r). rewrite (proj2 (Z.ltb_lt _ _)) by lia. by apply (z_right R). }
  destruct (c =? KEY_UP).
  { destruct (vi_go_up _ z) as [z1|] eqn:E; [|done]. intros [= <- <-]. apply lands_ret.
    apply (z_up R (fun _ => length (before z))); try done; destruct (0 <? cy v) eqn:E0; bool_to_prop; try done; cbn; intros; unfold zlen in *; lia. }
  destruct (c =? KEY_DOWN).
  { destruct (go_down _ z) as [z1|] eqn:E; [|done]. intros [= <- <-]. apply lands_ret.
    apply (z_down R (fun _ => length (before z))); try done; destruct (cy v <? nlines v - 1) eqn:E0; bool_to_prop; try done; cbn; intros; unfold zlen in *; lia. }
  destruct (c =? KEY_HOME). { intros [= <- <-]. apply lands_ret. by apply (z_home R). }
  destruct (c =? KEY_END). { intros [= <- <-]. apply lands_ret. by apply (z_end R). }
  destruct (c =? c_bs).
  { destruct (last (before z)) as [x|] eqn:Eb.
    - apply last_Some in Eb as [b Hb]. rewrite Hb, removelast_last. intros [= <- <-]. rewrite Hb, zlen_app in Hx. change (zlen [x]) with 1 in Hx.
      pose proof (zlen_nonneg b). rewrite (proj2 (Z.ltb_lt 0 _)) by lia. by apply (z_rub R b x).
    - apply last_None in Eb. rewrite Eb in Hx. change (zlen (@nil Z)) with 0 in Hx. rewrite (proj2 (Z.ltb_ge 0 _)) by lia.
      destruct (last (above z)) as [p|] eqn:Ea.
      + apply last_Some in Ea as [ab Hab]. rewrite Hab, removelast_last. destruct (Z.leb_spec (zlen (p ++ after z)) 77); [|done]. intros [= <- <-].
        rewrite Hab, zlen_app in Hy. change (zlen [p]) with 1 in Hy. pose proof (zlen_nonneg ab). rewrite (proj2 (Z.ltb_lt 0 _)) by lia.
        by apply (z_join R ab p).
      + apply last_None in Ea. rewrite Ea in Hy. change (zlen (@nil cstr)) with 0 in Hy. rewrite (proj2 (Z.ltb_ge 0 _)) by lia.
        intros [= <- <-]. apply lands_ret. by apply (z_same R). }
  destruct (c =? c_nl).
  { intros [= <- <-]. destruct (Z.ltb_spec (zlen (zlines z)) 22); [apply (z_split R); lia|].
    unfold vi_split. rewrite (proj2 (Z.ltb_ge _ _)) by lia. apply lands_ret. by apply (z_same R). }
  destruct ((32 <=? c) && (c <? 127)) eqn:Ec; [|intros [= <- <-]; apply lands_ret; by apply (z_same R)].
  intros [= <- <-]. bool_to_prop. destruct (Z.ltb_spec (zlen (before z ++ after z)) 76).
  - apply (z_type R); unfold byte_ok; lia.
  - unfold vi_type. cbv zeta. rewrite (proj2 (Z.ltb_ge _ _)) by lia. apply lands_ret. by apply (z_same R).
Qed.

(** The clamped column. *)
Lemma clamp_cx v : cx (clamp v) = Z.min (cx v) (line_len v).
Proof. unfold clamp. case_test; cbn; lia. Qed.
Lemma clamp_rest v : rows (clamp v) = rows v /\ nlines (clamp v) = nlines v /\ mode (clamp v) = mode v /\ cy (clamp v) = cy v.
Proof. unfold clamp. by case_test. Qed.

Lemma normal_refines v z c ks st m' z' :
  zrep v VI_NORMAL z -> c <> 100 -> znormal c z = Some (m', z') ->
  exists v', vi_normal c ks v st = Ok (v', ks) st [] /\ zrep v' m' z'.
Proof.
  intros R Hd. pose proof R as [_ Hm Hc Hroom Hy Hx _]. destruct (z_len R) as [Hl Hle]. pose proof (z_cy R) as Hcy.
  assert (Hopen : forall r m' z', r = cy v \/ r = cy v + 1 ->
    (if zlen (zlines z) <? 22 then (VI_INSERT, Zip (take (Z.to_nat r) (zlines z)) [] [] (drop (Z.to_nat r) (zlines z))) else (VI_NORMAL, z)) = (m', z') ->
    exists v', (v ← open_line r v; mret (v, ks)) st = Ok (v', ks) st [] /\ zrep v' m' z').
  { intros r m1 z1 Hr. destruct (Z.ltb_spec (zlen (zlines z)) 22); intros [= <- <-].
    - destruct (z_open R r st) as (v' & E & _ & R'); [lia|done|]. exists v'. rewrite (bind_silent _ _ st v' st E). done.
    - exists v. unfold open_line. rewrite (proj2 (Z.ltb_ge _ _)) by lia. done. }
  unfold znormal, vi_normal. cbv zeta.
  destruct (c =? 105). { intros [= <- <-]. eexists. split; [done|]. by apply (z_same R). }
  destruct (c =? c_colon); [done|].
  destruct (_ || _). { intros [= <- <-]. eexists. split; [done|]. destruct (0 <? cx v) eqn:E; apply (z_left R); cbn; rewrite ?E; done. }
  destruct (_ || _).
  { intros [= <- <-]. eexists. split; [done|]. rewrite zlen_app in Hl. destruct (after z) as [|a [|b r]] eqn:Ea.
    - change (zlen (@nil Z)) with 0 in Hl. rewrite (proj2 (Z.ltb_ge _ _)) by lia. by apply (z_same R).
    - change (zlen [a]) with 1 in Hl. rewrite (proj2 (Z.ltb_ge _ _)) by lia. by apply (z_same R).
    - rewrite !zlen_cons in Hl. pose proof (zlen_nonneg r). rewrite (proj2 (Z.ltb_lt _ _)) by lia. by apply (z_right R). }
  destruct (_ || _).
  { destruct (vi_go_up _ z) as [z1|] eqn:E; [|done]. intros [= <- <-]. eexists. split; [done|].
    destruct (clamp_rest (set_cy (cy v - 1) v)) as (H1 & H2 & H3 & H4). pose proof (clamp_cx (set_cy (cy v - 1) v)) as H5.
    apply (z_up R (fun l => Nat.min (length (before z)) (length l)) z1); [done|..]; destruct (0 <? cy v) eqn:E0; bool_to_prop;
      try congruence; try lia; rewrite ?H1, ?H2, ?H3, ?H4; try done.
    intros _. rewrite H5. change (line_len (set_cy (cy v - 1) v)) with (zlen (line_at v (cy v - 1))).
    change (cx (set_cy (cy v - 1) v)) with (cx v). unfold zlen in *. lia. }
  destruct (_ || _).
  { destruct (go_down _ z) as [z1|] eqn:E; [|done]. intros [= <- <-]. eexists. split; [done|].
    destruct (clamp_rest (set_cy (cy v + 1) v)) as (H1 & H2 & H3 & H4). pose proof (clamp_cx (set_cy (cy v + 1) v)) as H5.
    apply (z_down R (fun l => Nat.min (length (before z)) (length l)) z1); [done|..]; destruct (cy v <? nlines v - 1) eqn:E0; bool_to_prop;
      try congruence; try lia; rewrite ?H1, ?H2, ?H3, ?H4; try done.
    intros _. rewrite H5. change (line_len (set_cy (cy v + 1) v)) with (zlen (line_at v (cy v + 1))).
    change (cx (set_cy (cy v + 1) v)) with (cx v). unfold zlen in *. lia. }
  destruct (c =? 48). { intros [= <- <-]. eexists. split; [done|]. by apply (z_home R). }
  destruct (c =? 36). { intros [= <- <-]. eexists. split; [done|]. by apply (z_end R). }
  destruct (c =? 71).
  { unfold zlines in Hc. rewrite zlen_app, zlen_cons in Hc. destruct (last (below z)) as [l|] eqn:El.
    - apply last_Some in El as [be Hbe]. destruct (at_col _ _ _ _) as [z1|] eqn:E; [|done]. intros [= <- <-].
      apply at_col_lines in E as (H1 & H2 & H3). eexists. split; [done|].
      assert (Hz : removelast (zlines z) = above z ++ (before z ++ after z) :: be) by (unfold zlines; rewrite Hbe, app_comm_cons, app_assoc; apply removelast_last).
      apply (z_move R); try done.
      + rewrite H1, Hz. unfold zlines. rewrite Hbe, <- app_assoc. done.
      + rewrite H2, Hz. change (cy (set_cy (nlines v - 1) v)) with (nlines v - 1). rewrite Hc, Hbe, !zlen_app, !zlen_cons. change (zlen (@nil cstr)) with 0. lia.
      + cbn. rewrite H3, Hx. done.
    - apply last_None in El. intros [= <- <-]. eexists. split; [done|]. rewrite El in Hc. change (zlen (@nil cstr)) with 0 in Hc.
      apply (z_same R); try done. cbn. lia. }
  destruct (c =? 103).
  { destruct (zlines z) as [|l ls] eqn:E; [done|]. intros [= <- <-]. eexists. split; [done|]. apply (z_move R); try done. }
  rewrite (proj2 (Z.eqb_neq c 100)) by done.
  destruct (c =? 111). { intros [= H]. apply Hopen; [by right|]. replace (Z.to_nat (cy v + 1)) with (length (above z) + 1)%nat by (unfold zlen in Hy; lia). done. }
  destruct (c =? 79). { intros [= H]. apply Hopen; [by left|]. replace (Z.to_nat (cy v)) with (length (above z)) by (unfold zlen in Hy; lia). done. }
  intros [= <- <-]. eexists. split; [done|]. by apply (z_same R).
Qed.

(** ** Opening *)

Definition good_line (l : cstr) : Prop := no_nul l /\ Forall (fun c => c <> c_nl) l /\ zlen l <= 77.

(** While the text is split: the lines done, the one being filled, and empty
    rows behind. *)
Record filling (v : vi) (dn : list cstr) (l : cstr) : Prop := {
  f_shape : shape v;
  f_count : nlines v = zlen dn + 1;
  f_start : cy v = 0 /\ cx v = 0 /\ mode v = VI_NORMAL /\ cmd_buf v = [] /\ vi_modified v = false;
  f_lines : forall i x, (dn ++ [l]) !! i = Some x -> holds (row v (Z.of_nat i)) x;
  f_empty : forall i, nlines v <= i < 23 -> holds (row v i) [];
}.

Lemma fill_row v dn l a l' : filling v dn l -> zlen dn < 22 -> holds a l' ->
  filling (set_row (nlines v - 1) a v) dn l'.
Proof.
  intros [Hs Hc Hst Hl He] Hd Ha. pose proof (zlen_nonneg dn).
  assert (Hset : forall k, 0 <= k -> row (set_row (nlines v - 1) a v) k = if decide (k = nlines v - 1) then a else row v k) by (intros; apply row_set; done || lia).
  constructor; [apply shape_set; [done|apply Ha]|done|done| |].
  - intros i x Hi. rewrite Hset by lia. apply lookup_snoc_Some in Hi as [[Hlt Hi]|[-> <-]].
    + rewrite decide_False by (unfold zlen in *; lia). apply Hl. by rewrite lookup_app_l.
    + rewrite decide_True by (unfold zlen in *; lia). done.
  - intros i Hi. change (nlines (set_row (nlines v - 1) a v)) with (nlines v) in Hi. rewrite Hset, decide_False by lia. by apply He.
Qed.

Lemma fill_last v dn l : filling v dn l -> holds (row v (nlines v - 1)) l.
Proof.
  intros [_ Hc _ Hl _]. replace (nlines v - 1) with (Z.of_nat (length dn)) by (unfold zlen in Hc; lia). apply Hl.
  by rewrite lookup_app_r, Nat.sub_diag by lia.
Qed.

Lemma fill_chars l : forall v dn cur rest, filling v dn cur -> zlen dn < 21 -> good_line l -> zlen (cur ++ l) <= 77 ->
  exists v', split_rows (l ++ rest) v (zlen cur) = split_rows rest v' (zlen (cur ++ l)) /\ filling v' dn (cur ++ l).
Proof.
  induction l as [|c l IH]; intros v dn cur rest Hf Hd Hg Hlen; [exists v; rewrite app_nil_r; by split|].
  destruct Hg as (Hn & Hnl & Hz). apply no_nul_cons in Hn as [Hc Hn]. apply Forall_cons in Hnl as [Hc' Hnl].
  rewrite zlen_cons in Hz. rewrite zlen_app, zlen_cons in Hlen. pose proof (zlen_nonneg l). pose proof (f_count _ _ _ Hf) as Hcnt.
  cbn [app split_rows]. rewrite (proj2 (Z.ltb_lt _ (VI_ROWS + 2))) by lia. rewrite (proj2 (Z.eqb_neq c c_nl)) by done.
  rewrite (proj2 (Z.ltb_lt _ (VI_COLS - 1))) by lia.
  destruct (fill_last _ _ _ Hf) as (Hl1 & Hl2 & j & Hj).
  assert (Ha : holds (aset (aset (row v (nlines v - 1)) (zlen cur) c) (zlen cur + 1) 0) (cur ++ [c])).
  { rewrite Hj, length_app in Hl1. cbn in Hl1. destruct j as [|y j]; [cbn in Hl1; unfold zlen in *; lia|].
    rewrite Hj. unfold aset. replace (Z.to_nat (zlen cur)) with (length cur) by (unfold zlen; lia). rewrite insert_app_r_alt, Nat.sub_diag by lia.
    replace (Z.to_nat (zlen cur + 1)) with (length cur + 1)%nat by (unfold zlen; lia). rewrite insert_app_r. cbn.
    split; [rewrite length_app; cbn in *; lia|]. split; [rewrite no_nul_app, no_nul_cons; pose proof no_nul_nil; tauto|].
    exists j. by rewrite <- app_assoc. }
  replace (zlen cur + 1) with (zlen (cur ++ [c])) in Ha |- * by (rewrite zlen_app; done).
  destruct (IH _ dn (cur ++ [c]) rest (fill_row _ _ _ _ _ Hf ltac:(lia) Ha)) as (v' & E & Hf'); [done|split; [done|split; [done|lia]]| |].
  - rewrite !zlen_app, zlen_cons. change (zlen (@nil Z)) with 0. lia.
  - rewrite <- app_assoc in E, Hf'. exists v'. by split.
Qed.

Lemma fill_newline v dn cur rest : filling v dn cur -> zlen dn < 21 ->
  exists v', split_rows (c_nl :: rest) v (zlen cur) = split_rows rest v' 0 /\ filling v' (dn ++ [cur]) [].
Proof.
  intros Hf Hd. pose proof (f_count _ _ _ Hf) as Hcnt. pose proof (zlen_nonneg dn). cbn [split_rows].
  rewrite (proj2 (Z.ltb_lt _ (VI_ROWS + 2))) by lia. eexists. split; [done|].
  pose proof (fill_last _ _ _ Hf) as Hl. rewrite <- (app_nil_r cur) in Hl. apply holds_cut in Hl.
  destruct (fill_row _ _ _ _ _ Hf ltac:(lia) Hl) as [Hs Hc Hst Hlines He]. set (v1 := set_row _ _ v) in *.
  constructor; [done| |done| |].
  - change (nlines (set_nlines _ v1)) with (nlines v + 1). rewrite zlen_app. change (zlen [cur]) with 1. lia.
  - intros i x Hi. change (holds (row v1 (Z.of_nat i)) x). apply lookup_snoc_Some in Hi as [[Hlt Hi]|[-> <-]]; [by apply Hlines|].
    rewrite length_app. apply He. change (nlines v1) with (nlines v). unfold zlen in *. cbn. lia.
  - intros i Hi. change (nlines (set_nlines (nlines v + 1) v1)) with (nlines v + 1) in Hi. change (holds (row v1 i) []). apply He.
    change (nlines v1) with (nlines v). lia.
Qed.

Lemma fill_text ls : forall v dn, filling v dn [] -> Forall good_line ls -> ls <> [] -> zlen dn + zlen ls <= 21 ->
  exists v' dn' l, split_rows (join_lines ls) v 0 = v' /\ filling v' dn' l /\ dn' ++ [l] = dn ++ ls.
Proof.
  induction ls as [|l ls IH]; intros v dn Hf Hg Hne Hlen; [done|]. apply Forall_cons in Hg as [Hl Hg]. rewrite zlen_cons in Hlen.
  pose proof (zlen_nonneg ls). destruct ls as [|l2 ls].
  - cbn [join_lines]. rewrite <- (app_nil_r l). destruct (fill_chars l v dn [] [] Hf) as (v' & E & Hf'); [lia|done|apply Hl|].
    exists v', dn, l. cbn [app] in *. rewrite app_nil_r in *. split; [exact E|]. by split.
  - rewrite zlen_cons in Hlen. pose proof (zlen_nonneg ls).
    change (join_lines (l :: l2 :: ls)) with (l ++ c_nl :: join_lines (l2 :: ls)).
    destruct (fill_chars l v dn [] (c_nl :: join_lines (l2 :: ls)) Hf) as (v1 & E1 & Hf1); [lia|done|apply Hl|].
    destruct (fill_newline v1 dn l (join_lines (l2 :: ls)) Hf1) as (v2 & E2 & Hf2); [lia|].
    destruct (IH v2 (dn ++ [l]) Hf2) as (v3 & d3 & l3 & E3 & Hf3 & Heq); [done|done|rewrite zlen_app, !zlen_cons; change (zlen (@nil cstr)) with 0; lia|].
    exists v3, d3, l3. cbn [app] in E1. change (zlen (@nil Z)) with 0 in E1. rewrite E1, E2. split; [done|]. split; [done|].
    by rewrite Heq, <- app_assoc.
Qed.

Definition zstart (ls : list cstr) : zip := match ls with l :: be => Zip [] [] l be | [] => Zip [] [] [] [] end.

Lemma vi_start_rep junk ls : length junk = 24%nat -> Forall (fun a => length a = 78%nat) junk ->
  Forall good_line ls -> ls <> [] -> zlen ls <= 21 ->
  zrep (vi_start junk (join_lines ls)) VI_NORMAL (zstart ls).
Proof.
  intros Hj Hjr Hg Hne Hlen. unfold vi_start. cbv zeta. set (r0 := imap _ junk).
  assert (Hs0 : shape (Vi r0 1 0 0 VI_NORMAL [] false)).
  { split; cbn [rows]; [unfold zlen, r0; by rewrite length_imap, Hj|]. apply Forall_lookup. intros i a Hi. unfold r0 in Hi.
    rewrite list_lookup_imap in Hi. destruct (junk !! i) as [b|] eqn:Eb; [|done].
    change (Some (if (i <? 23)%nat then aset b 0 0 else b) = Some a) in Hi. injection Hi as <-.
    rewrite Forall_lookup in Hjr. specialize (Hjr i b Eb). destruct (i <? 23)%nat; [unfold aset; by rewrite length_insert|done]. }
  assert (Hz : forall i, 0 <= i < 23 -> holds (aget [] r0 i) []).
  { intros i Hi. unfold aget. destruct (junk !! Z.to_nat i) as [b|] eqn:Eb; [|apply lookup_ge_None in Eb; lia].
    assert (Er : r0 !! Z.to_nat i = Some (aset b 0 0)).
    { unfold r0. rewrite list_lookup_imap, Eb.
      change (Some (if (Z.to_nat i <? 23)%nat then aset b 0 0 else b) = Some (aset b 0 0)). by rewrite (proj2 (Nat.ltb_lt _ 23)) by lia. }
    rewrite (nth_lookup_Some _ _ _ _ Er). apply holds_zero. rewrite Forall_lookup in Hjr. by apply (Hjr (Z.to_nat i)). }
  assert (Hf0 : filling (Vi r0 1 0 0 VI_NORMAL [] false) [] []).
  { constructor; [done|done|done| |]; cbn [nlines]; [|intros i Hi; apply Hz; lia].
    intros i x Hi. apply list_lookup_singleton_Some in Hi as [-> <-]. by apply Hz. }
  destruct (fill_text ls _ [] Hf0) as (v & d & l & -> & [Hs Hc (Hy & Hx & Hm & _) Hl _] & Heq); [done|done|rewrite zlen_nil; lia|].
  cbn [app] in Heq. destruct ls as [|a be]; [done|].
  assert (Hzl : zlines (zstart (a :: be)) = a :: be) by done.
  constructor; rewrite ?Hzl; try done; [|lia|].
  - rewrite Hc, <- Heq, zlen_app. done.
  - intros i x Hi. apply Hl. by rewrite Heq.
Qed.

(** ** Sessions *)

Definition prints (m : M fs unit) : Prop := forall st, exists o, m st = Ok tt st o.
Lemma prints_emit e : prints (emit e).
Proof. intros st. by eexists. Qed.
Lemma prints_ret : prints (mret tt).
Proof. intros st. by eexists. Qed.
Lemma prints_seq m k : prints m -> prints k -> prints (m ;; k).
Proof. intros Hm Hk st. destruct (Hm st) as [o E], (Hk st) as [o' E']. exists (o ++ o'). unfold mbind, M_bind. by rewrite E, E'. Qed.
Lemma prints_mapM {A} (f : A -> M fs unit) l : (forall a, prints (f a)) -> prints (mapM_ f l).
Proof. intros Hf. induction l as [|x l IH]; [apply prints_ret|]. apply prints_seq; [apply Hf|done]. Qed.
Create HintDb prints.
#[export] Hint Resolve prints_emit prints_ret : prints.
Ltac prints := repeat first [solve [auto with prints]|apply prints_emit|apply prints_seq|apply prints_mapM; intros ?|case_match].

Lemma draw_prints path v : prints (vi_draw path v).
Proof. unfold vi_draw. cbv zeta. prints. Qed.

Definition prefixed {A} (o : list cev) (r : res fs A) : res fs A :=
  match r with Ok a s o' => Ok a s (o ++ o') | Err f s o' => Err f s (o ++ o') end.

(** One pass of the loop that does not leave it. *)
Lemma loop_pass f path c ks ks' v v' st : vi_key path c ks v st = Ok (Some v', ks') st [] ->
  exists o, vi_loop (S f) path (c :: ks) v st = prefixed o (vi_loop f path ks' v' st).
Proof.
  intros E. cbn [vi_loop]. rewrite (bind_silent _ _ st _ st E). cbn [fst snd]. destruct (draw_prints path v' st) as [o Ho].
  exists o. unfold mbind, M_bind. rewrite Ho. by destruct (vi_loop f path ks' v' st).
Qed.

Lemma prefixed_twice {A} o o' (r : res fs A) : prefixed o (prefixed o' r) = prefixed (o ++ o') r.
Proof. destruct r; cbn; by rewrite app_assoc. Qed.

Lemma keys_refine path st rest : forall n ks m z v m' z' f,
  (length ks <= n)%nat -> zrep v m z -> zkeys m ks z = Some (m', z') ->
  exists v' o f', zrep v' m' z' /\ (f <= f')%nat /\
    vi_loop (length ks + f) path (ks ++ rest) v st = prefixed o (vi_loop f' path rest v' st).
Proof.
  induction n as [|n IH]; intros ks m z v m' z' f Hn R Hz.
  { destruct ks; [|cbn in Hn; lia]. injection Hz as <- <-. exists v, [], f. split; [done|]. split; [done|]. cbn. by destruct (vi_loop _ _ _ _ _). }
  destruct ks as [|c ks]; [injection Hz as <- <-; exists v, [], f; split; [done|]; split; [done|]; cbn; by destruct (vi_loop _ _ _ _ _)|].
  cbn [length] in Hn. pose proof (z_mode _ _ _ R) as Hm.
  assert (Hgo : forall v1 m1 z1 ks1 g, (length ks1 <= n)%nat -> zrep v1 m1 z1 -> zkeys m1 ks1 z1 = Some (m', z') -> (f <= g)%nat ->
    vi_key path c (ks ++ rest) v st = Ok (Some v1, ks1 ++ rest) st [] -> (length ks + f = length ks1 + g)%nat ->
    exists v' o f', zrep v' m' z' /\ (f <= f')%nat /\
      vi_loop (length (c :: ks) + f) path ((c :: ks) ++ rest) v st = prefixed o (vi_loop f' path rest v' st)).
  { intros v1 m1 z1 ks1 g Hl R1 Hz1 Hg Hk Hfuel. destruct (IH ks1 m1 z1 v1 m' z' g Hl R1 Hz1) as (v2 & o2 & f2 & R2 & Hf2 & E2).
    destruct (loop_pass (length ks1 + g) path c (ks ++ rest) (ks1 ++ rest) v v1 st Hk) as [o1 E1].
    exists v2, (o1 ++ o2), f2. split; [done|]. split; [lia|]. cbn [length app]. rewrite <- prefixed_twice, <- E2, <- E1. f_equal. cbn. by rewrite Hfuel. }
  cbn [zkeys] in Hz. destruct m; [| |done].
  - destruct (Z.eqb_spec c 100) as [->|Hc].
    + destruct ks as [|c2 ks]; [done|]. cbn [length] in Hn. pose proof (z_count _ _ _ R) as Hcnt.
      assert (Hkey : vi_key path 100 ((c2 :: ks) ++ rest) v st =
        (r ← (if (c2 =? 100) && (1 <? nlines v) then v ← delete_line v; mret (v, ks ++ rest) else mret (v, ks ++ rest)); mret (Some r.1, r.2)) st)
        by (unfold vi_key; rewrite Hm; done).
      rewrite Hcnt in Hkey. destruct ((c2 =? 100) && _) eqn:E.
      * destruct (zdelete z) as [z1|] eqn:Ed; [|done]. destruct (z_dd v VI_NORMAL z z1 st R) as (v1 & Ev & R1); [bool_to_prop; lia|done|].
        apply (Hgo v1 VI_NORMAL z1 ks (S f)); [lia|done|done|lia| |cbn; lia]. rewrite Hkey.
        rewrite (bind_silent _ _ st (v1, ks ++ rest) st) by (by rewrite (bind_silent _ _ st v1 st Ev)). done.
      * apply (Hgo v VI_NORMAL z ks (S f)); [lia|done|done|lia|done|cbn; lia].
    + destruct (znormal c z) as [[m1 z1]|] eqn:Ez; [|done].
      destruct (normal_refines v z c (ks ++ rest) st m1 z1 R Hc Ez) as (v1 & Ev & R1).
      apply (Hgo v1 m1 z1 ks f); [lia|done|done|lia| |done]. unfold vi_key. rewrite Hm. by rewrite (bind_silent _ _ st (v1, ks ++ rest) st Ev).
  - destruct (zinsert c z) as [[m1 z1]|] eqn:Ez; [|done].
    destruct (insert_refines v z c st m1 z1 R Ez) as (v1 & Ev & R1).
    apply (Hgo v1 m1 z1 ks f); [lia|done|done|lia| |done]. unfold vi_key. rewrite Hm. by rewrite (bind_silent _ _ st v1 st Ev).
Qed.

Lemma join_len ls : Forall (fun l => zlen l <= 77) ls -> zlen (join_lines ls) <= 78 * zlen ls.
Proof.
  induction 1 as [|l ls Hl Hf IH]; [done|]. destruct ls as [|l2 ls]; [cbn [join_lines]; rewrite zlen_cons; change (zlen (@nil cstr)) with 0; lia|].
  change (join_lines (l :: l2 :: ls)) with (l ++ c_nl :: join_lines (l2 :: ls)). rewrite zlen_app, !zlen_cons in *. lia.
Qed.

Lemma rep_text v m z : zrep v m z -> vi_text v = join_lines (zlines z) /\ zlen (vi_text v) < 2048.
Proof.
  intros R. pose proof R as [_ _ Hc Hroom _ _ Hl].
  assert (Ht : map (line_at v) (seqZ 0 (nlines v)) = zlines z).
  { apply list_eq. intros i. change (map (line_at v)) with (fmap (M := list) (line_at v)). rewrite list_lookup_fmap.
    destruct (zlines z !! i) as [l|] eqn:E.
    - apply lookup_lt_Some in E as Hlt. rewrite lookup_seqZ_lt by (unfold zlen in *; lia). cbn. f_equal. apply Hl in E.
      by destruct (holds_line v _ _ E).
    - apply lookup_ge_None in E. rewrite lookup_seqZ_ge by (unfold zlen in *; lia). done. }
  unfold vi_text. rewrite Ht. split; [done|]. enough (zlen (join_lines (zlines z)) <= 78 * zlen (zlines z)) by lia.
  apply join_len, Forall_lookup. intros i l Hi. apply Hl in Hi. by destruct (holds_line v _ _ Hi).
Qed.

Definition vi_text_of (s : fs) (path : cstr) : cstr :=
  match abs s !! path with
  | Some m => mf_content m
  | None =>
      match visible_vnode s path with
      | Some n => match vn_content n with Some c => if zlen c <? 4095 then c else [] | None => [] end
      | None => []
      end
  end.

Lemma vi_load_eq s path : fs_ok s -> vi_load path s = Ok (vi_text_of s path) s [].
Proof.
  intros Hs. unfold vi_load, vi_text_of. rewrite (bind_silent _ _ s (abs s !! path) s) by (by apply lookup_mem_eq).
  destruct (abs s !! path) as [m|] eqn:Em.
  - pose proof (abs_content_fits s path m Hs Em). unfold fits. by rewrite (proj2 (Z.ltb_lt (zlen (mf_content m)) VI_BUF_MAX)) by lia.
  - rewrite (bind_silent _ _ s (visible_vnode s path) s) by (by apply fs_find_vnode_eq).
    destruct (visible_vnode s path) as [n|]; [|done]. destruct (vn_content n) as [c|]; [|done]. change (VI_BUF_MAX - 1) with 4095. by destruct (zlen c <? 4095).
Qed.

(** [:wq] saves and leaves. *)
Lemma wq_saves path v z s f rest : zrep v VI_NORMAL z -> fs_ok s -> zlen path < 128 -> (4 <= f)%nat ->
  exists s' o, vi_loop f path (cs ":wq" ++ [c_nl] ++ rest) v s = Ok rest s' o /\ fs_ok s' /\
    abs s' = if kept s path then <[path := stored s path (join_lines (zlines z))]> (abs s) else abs s.
Proof.
  intros R Hs Hsto Hf. pose proof (z_mode _ _ _ R) as Hm. destruct (rep_text _ _ _ R) as [Ht Hlen].
  destruct f as [|[|[|[|f]]]]; [lia..|]. change (cs ":wq" ++ [c_nl] ++ rest) with (58 :: 119 :: 113 :: 10 :: rest).
  set (v1 := set_cmd [] (set_mode VI_CMD v)). set (v2 := set_cmd [119] v1). set (v3 := set_cmd [119; 113] v2).
  destruct (loop_pass (S (S (S f))) path 58 (119 :: 113 :: 10 :: rest) (119 :: 113 :: 10 :: rest) v v1 s) as [o1 E1]; [unfold vi_key; by rewrite Hm|].
  destruct (loop_pass (S (S f)) path 119 (113 :: 10 :: rest) (113 :: 10 :: rest) v1 v2 s) as [o2 E2]; [done|].
  destruct (loop_pass (S f) path 113 (10 :: rest) (10 :: rest) v2 v3 s) as [o3 E3]; [done|].
  rewrite E1, E2, E3, !prefixed_twice.
  destruct (store_file_spec s path (vi_text v) Hs Hsto Hlen) as (s' & Est & Hs' & _ & Ha).
  assert (E4 : vi_loop (S f) path (10 :: rest) v3 s = Ok rest s' []).
  { cbn [vi_loop]. unfold vi_key. change (mode v3) with VI_CMD. unfold vi_cmd. change (cmd_buf v3) with [119; 113]. cbv zeta.
    rewrite (bind_silent _ _ s (None, rest) s'); [done|]. rewrite (bind_silent _ _ s None s'); [done|].
    change (10 =? c_esc) with false. change (10 =? c_nl) with true. cbv iota.
    change (streq [119; 113] (cs "q!") || streq [119; 113] (cs "q")) with false.
    change (streq [119; 113] (cs "w") || streq [119; 113] (cs "wq") || streq [119; 113] (cs "x")) with true. cbv iota.
    rewrite (bind_silent (vi_save path v3) _ s (set_modified false v3) s'); [done|]. unfold vi_save. change (vi_text v3) with (vi_text v).
    rewrite (bind_silent (fits _ _) _ s tt s) by (unfold fits; by rewrite (proj2 (Z.ltb_lt _ VI_BUF_MAX)) by lia).
    by rewrite (bind_silent _ _ s tt s' Est). }
  rewrite E4. cbn [prefixed]. eexists s', _. split; [done|]. split; [done|]. by rewrite Ha, Ht.
Qed.

(** C20: An editing session with [pi] saves what the reference editor holds.  On a
    file whose resolved name has fewer than 128 characters and whose text has at
    most 21 lines of at most 77 bytes other than NUL, for any keys that the reference editor
    (lines above, text around the cursor, lines below) covers and that end in
    normal mode, followed by [:wq], the session ends with the keys behind unread,
    and the file holds the lines of the reference joined by newlines while every
    other file is as it was, provided the name is not marked deleted and exists
    already or finds a free slot among the 64; otherwise no visible file changes
    and the text is lost. *)
Theorem vi_session_saves junk cwd a ks rest s path ls z' :
  fs_ok s -> length junk = 24%nat -> Forall (fun r => length r = 78%nat) junk ->
  (if bool_decide (a = []) then mret (cs "/tmp/unnamed.txt") else resolve cwd a) s = Ok path s [] ->
  zlen path < 128 -> vi_text_of s path = join_lines ls -> Forall good_line ls -> ls <> [] -> zlen ls <= 21 ->
  zkeys VI_NORMAL ks (zstart ls) = Some (VI_NORMAL, z') ->
  exists s' o, cmd_vi junk cwd a (ks ++ cs ":wq" ++ [c_nl] ++ rest) s = Ok rest s' o /\ fs_ok s' /\
    abs s' = if kept s path then <[path := stored s path (join_lines (zlines z'))]> (abs s) else abs s.
Proof.
  intros Hs Hj Hjr Hp Hsto Htext Hg Hne Hlen Hz. pose proof (vi_start_rep junk ls Hj Hjr Hg Hne Hlen) as R0.
  destruct (keys_refine path s (cs ":wq" ++ [c_nl] ++ rest) (length ks) ks VI_NORMAL (zstart ls) _ VI_NORMAL z' (4 + length rest) (le_n _) R0 Hz)
    as (v' & o1 & f' & R' & Hf & E1).
  destruct (wq_saves path v' z' s f' rest R' Hs Hsto) as (s' & o2 & E2 & Hs' & Ha); [lia|].
  destruct (draw_prints path (vi_start junk (join_lines ls)) s) as [o0 E0].
  unfold cmd_vi. rewrite (bind_silent _ _ s path s Hp), (bind_silent _ _ s _ s (vi_load_eq s path Hs)), Htext. cbv zeta.
  rewrite (bind_ok _ _ s tt s o0 E0).
  replace (length (ks ++ cs ":wq" ++ [c_nl] ++ rest)) with (length ks + (4 + length rest))%nat by (rewrite length_app; done).
  rewrite (bind_ok _ _ s rest s' (o1 ++ o2)) by (rewrite E1, E2; done).
  eexists s', _. split; [done|]. by split.
Qed.

Definition stack_rows : list (list Z) := replicate 24 (replicate 78 1).

Lemma vi_session_saves_witness :
  exists s' o, cmd_vi stack_rows (cs "/tmp") (cs "a") (cs "A" ++ cs "i<" ++ [c_nl; c_bs; c_esc] ++ cs "oomega" ++ [c_esc] ++ cs ":wq" ++ [c_nl] ++ [7]) fs_sample =
      Ok [7] s' o /\ fs_ok s' /\
    abs s' = <[cs "/tmp/a" := MkMem (cs "/tmp/a") (cs "<alpha" ++ [c_nl] ++ cs "omega") true false]> (abs fs_sample).
Proof.
  destruct (vi_session_saves stack_rows (cs "/tmp") (cs "a") (cs "A" ++ cs "i<" ++ [c_nl; c_bs; c_esc] ++ cs "oomega" ++ [c_esc]) [7]
    fs_sample (cs "/tmp/a") [cs "alpha"] (Zip [cs "<alpha"] (cs "omeg") (cs "a") [])) as (s' & o & E & Hs & Ha).
  - exact fs_sample_ok.
  - reflexivity.
  - repeat constructor.
  - reflexivity.
  - reflexivity.
  - reflexivity.
  - constructor; [|constructor]. split; [|split]; [repeat constructor; discriminate..|discriminate].
  - discriminate.
  - discriminate.
  - reflexivity.
  - exists s', o. split; [exact E|]. split; [exact Hs|exact Ha].
Defined.

(** ** What the keys get wrong *)

Definition vi_sample (ls : list cstr) : vi := vi_start stack_rows (join_lines ls).
Definition vi_keys (ks : list Z) (v : vi) : res fs (list Z) := vi_loop (length ks) (cs "/tmp/a") ks v fs_sample.

(** The arrows of the insert mode change the row and keep the column: text typed
    after going up to a shorter line lands behind its terminator and is lost. *)
Lemma vi_up_loses_text :
  match vi_keys ([106] ++ cs "$i" ++ [KEY_UP] ++ cs "XY" ++ [c_esc] ++ cs ":w" ++ [c_nl]) (vi_sample [cs "a"; cs "bbbbbb"]) with
  | Err Blocked s _ => mf_content <$> abs s !! cs "/tmp/a" = Some (cs "a" ++ [c_nl] ++ cs "bbbbbb")
  | _ => False
  end.
Proof. vm_compute. reflexivity. Qed.

(** Joining two lines that do not fit one row writes past it. *)
Lemma vi_join_overflows :
  match vi_keys ([106] ++ cs "i" ++ [c_bs]) (vi_sample [replicate 50 97; replicate 50 98]) with Err BufferOverflow _ _ => True | _ => False end.
Proof. vm_compute. exact I. Qed.

(** Opening keeps 77 characters of a line: saving without a change cuts it. *)
Lemma vi_open_cuts_lines : vi_text (vi_sample [replicate 100 97]) = replicate 77 97.
Proof. vm_compute. reflexivity. Qed.

(** A file of more than 22 lines loses the others. *)
Lemma vi_open_drops_lines : zlen (vi_text (vi_sample (replicate 30 [97]))) = 42.
Proof. vm_compute. reflexivity. Qed.

(** [/] is advertised and ignored. *)
Lemma vi_search_is_ignored v ks s : vi_normal 47 ks v s = Ok (v, ks) s [].
Proof. reflexivity. Qed.
