(* ===== verification/ShellEnv.v ===== *)
(** * Shell variables, aliases, expansion and history

    The tables of [shell/shell.h] and [shell/lash.h]: names and values in fixed
    arrays, [$NAME] expansion into a bounded buffer, the history rings, and the
    integer calculator.  [tokens] at the end is the reference for expansion. *)

From Stdlib Require Import ZArith Lia.
From stdpp Require Import base numbers list strings gmap.
From S2P Require Import Prelude CLib Console PigFs.

Notation SH_BUF := 512 (only parsing).
Notation SH_VARS := 32 (only parsing).
Notation SH_HIST := 64 (only parsing).

(** The arrays of names and values below their count. *)
Notation table := (list (cstr * cstr)) (only parsing).

Record env := Env { vars : list (cstr * cstr); aliases : list (cstr * cstr); sh_hist : list cstr; lash_hist : list cstr }.
Definition set_vars t e := Env t (aliases e) (sh_hist e) (lash_hist e).
Definition set_aliases t e := Env (vars e) t (sh_hist e) (lash_hist e).
Definition set_sh_hist h e := Env (vars e) (aliases e) h (lash_hist e).
Definition set_lash_hist h e := Env (vars e) (aliases e) (sh_hist e) h.

Definition env_boot : env := Env [] [] [] [].

Definition slot_of (t : table) (n : cstr) : option nat := find_index (fun p => streq p.1 n) t.

(** The two setters are one loop over different arrays. *)
Definition table_set (get_t : env -> table) (set_t : table -> env -> env) (n v : cstr) : M env unit :=
  e ← get;
  match slot_of (get_t e) n with
  | Some i => fits 128 v ;; modify (fun e => set_t (alter (fun p => (p.1, v)) i (get_t e)) e)
  | None =>
      if zlen (get_t e) <? SH_VARS
      then fits 32 n ;; fits 128 v ;; modify (fun e => set_t (get_t e ++ [(n, v)]) e)
      else mret tt
  end.

Definition sh_alias_set : cstr -> cstr -> M env unit := table_set aliases set_aliases.
Definition sh_var_set : cstr -> cstr -> M env unit := table_set vars set_vars.

Definition table_get (t : table) (n : cstr) : option cstr := snd <$> List.find (fun p => streq p.1 n) t.
Definition sh_alias_get (e : env) (n : cstr) : option cstr := table_get (aliases e) n.
Definition sh_var_get (e : env) (n : cstr) : option cstr := table_get (vars e) n.

(** [unset]: every slot of that name is emptied and stays in use. *)
Definition sh_unset (n : cstr) (e : env) : env :=
  set_vars (map (fun p => if streq p.1 n then ([], []) else p) (vars e)) e.

(** [unalias]: the first slot of that name. *)
Definition sh_unalias (n : cstr) : M env unit :=
  e ← get;
  match slot_of (aliases e) n with
  | Some i => modify (fun e => set_aliases (alter (fun _ => ([], [])) i (aliases e)) e)
  | None => vps (cs "unalias: ") ;; vps n ;; vpln (cs ": not found")
  end.

(** ** Expansion of [$NAME] *)

Definition name_char (c : Z) : bool := is_upper c || is_lower c || is_digit c || (c =? c_uscore).

(** At most [n] characters of a name, and the rest. *)
Fixpoint span_name (n : nat) (s : cstr) : cstr * cstr :=
  match n, s with
  | S n', c :: s' => if name_char c then let '(t, r) := span_name n' s' in (c :: t, r) else ([], s)
  | _, _ => ([], s)
  end.

Section Expand.
Context (e : env) (user cwd : cstr).

(** The value a name expands to. *)
Definition var_value (n : cstr) : cstr :=
  match sh_var_get e n with
  | Some v => v
  | None =>
      if streq n (cs "HOME") then cs "/root"
      else if streq n (cs "USER") then user
      else if streq n (cs "PWD") then cwd
      else if streq n (cs "SHELL") then cs "/bin/pig"
      else if streq n (cs "?") then cs "0"
      else n
  end.

Fixpoint expand_loop (fuel : nat) (outsz : Z) (s out : cstr) : cstr :=
  match fuel, s with
  | S f, c :: s' =>
      if zlen out <? outsz - 1 then
        if c =? c_dollar
        then let '(n, r) := span_name 31 s' in
             expand_loop f outsz r (out ++ take (Z.to_nat (outsz - 1 - zlen out)) (var_value n))
        else expand_loop f outsz s' (out ++ [c])
      else out
  | _, _ => out
  end.

Definition sh_expand (s : cstr) (outsz : Z) : cstr := expand_loop (length s) outsz s [].

End Expand.

(** ** History *)

(** The copy loop [for(i<63) kcp(h[i],h[i+1])] and the last slot. *)
Definition push_full (h : list cstr) (s : cstr) : list cstr :=
  aset (for_ 0 (SH_HIST - 1) (fun i l => aset l i (aget [] l (i + 1))) h) (SH_HIST - 1) s.

Definition sh_push_hist (s : cstr) : M env unit :=
  fits SH_BUF s ;;
  modify (fun e => set_sh_hist (if zlen (sh_hist e) <? SH_HIST then sh_hist e ++ [s] else push_full (sh_hist e) s) e).

Definition lash_push_hist (s : cstr) : M env unit :=
  e ← get;
  if ksl s =? 0 then mret tt
  else if match last (lash_hist e) with Some l => streq l s | None => false end then mret tt
  else
    fits SH_BUF s ;;
    modify (fun e => set_lash_hist (if zlen (lash_hist e) <? SH_HIST then lash_hist e ++ [s]
                                    else push_full (lash_hist e) s) e).

(** ** calc *)

(** An [int] read in decimal, with its wrap-around. *)
Fixpoint read_int (acc : Z) (s : cstr) : Z * cstr :=
  match s with
  | c :: s' => if is_digit c then read_int (i32 (acc * 10 + (c - c_0))) s' else (acc, s)
  | [] => (acc, [])
  end.

Definition read_signed (s : cstr) : Z * cstr :=
  let '(neg, s) := match s with c :: s' => if c =? c_dash then (true, s') else (false, s) | [] => (false, s) end in
  let '(a, r) := read_int 0 s in (if neg : bool then i32 (- a) else a, r).

Inductive calc_result := CalcUsage | CalcVal (r : Z) | CalcDiv0 | CalcMod0 | CalcTrap | CalcOp.

(** The quotient of the least [int] by -1 traps on this processor; an argument
    that ends before its operator has none of the operators. *)
Definition calc (e : cstr) : calc_result :=
  match e with
  | [] => CalcUsage
  | _ =>
      let '(a, p) := read_signed (skip_char c_sp e) in
      let p := skip_char c_sp p in
      let op := cget p 0 in
      let '(b, _) := read_signed (skip_char c_sp (tail p)) in
      let traps := (a =? -2^31) && (b =? -1) in
      if op =? c_plus then CalcVal (i32 (a + b))
      else if op =? c_dash then CalcVal (i32 (a - b))
      else if op =? c_star then CalcVal (i32 (a * b))
      else if op =? c_slash then
        if b =? 0 then CalcDiv0 else if traps then CalcTrap else CalcVal (Z.quot a b)
      else if op =? 37 then
        if b =? 0 then CalcMod0 else if traps then CalcTrap else CalcVal (Z.rem a b)
      else CalcOp
  end.

Definition cmd_calc_sh {T} (e : cstr) : M T unit :=
  match calc e with
  | CalcUsage => vpln (cs "usage: calc <n> <op> <n>  (+,-,*,/,%)")
  | CalcDiv0 => in_color C_LRED C_BLACK (vpln (cs "div/0!"))
  | CalcMod0 => in_color C_LRED C_BLACK (vpln (cs "mod/0!"))
  | CalcTrap => fail Halted
  | CalcOp => vpln (cs "unknown op: + - * / %")
  | CalcVal r => fits 32 (kia r) ;; in_color C_LGREEN C_BLACK (vps (cs "= ") ;; vpln (kia r))
  end.

(** ** Tables *)

Definition table_ok (t : table) : Prop :=
  zlen t <= SH_VARS /\ Forall (fun p : cstr * cstr => zlen p.1 < 32 /\ zlen p.2 < 128) t.

Lemma slot_of_alter t n v i :
  slot_of t n = Some i ->
  table_get (alter (fun p => (p.1, v)) i t) n = Some v /\
  forall m, m <> n -> table_get (alter (fun p => (p.1, v)) i t) m = table_get t m.
Proof.
  revert i. induction t as [|p t IH]; intros i Hi; [done|]. unfold slot_of in *. simpl in Hi.
  unfold table_get in *. destruct (streq p.1 n) eqn:E.
  - injection Hi as <-. simpl. rewrite E. split; [done|]. intros m Hm.
    apply streq_true in E. by rewrite (proj2 (streq_false p.1 m)) by (rewrite E; done).
  - destruct (find_index _ t) as [j|]; [|done]. injection Hi as <-. destruct (IH j eq_refl) as [H1 H2].
    simpl. rewrite E. split; [exact H1|]. intros m Hm. destruct (streq p.1 m); [done|]. by apply H2.
Qed.

Lemma table_get_snoc t n v m :
  slot_of t n = None -> table_get (t ++ [(n, v)]) m = if streq n m then Some v else table_get t m.
Proof.
  intros Hn. unfold table_get. rewrite find_app_single. simpl. destruct (streq n m) eqn:E.
  - apply streq_true in E as <-. destruct (List.find _ t) as [p|] eqn:F; [|done].
    rewrite find_find_index in F. unfold slot_of in Hn. by rewrite Hn in F.
  - by destruct (List.find _ t).
Qed.

(** The lens laws the two tables satisfy. *)
Class Slots (get_t : env -> table) (set_t : table -> env -> env) := {
  slots_get : forall t e, get_t (set_t t e) = t;
}.
#[export] Instance vars_slots : Slots vars set_vars.
Proof. by constructor. Qed.
#[export] Instance aliases_slots : Slots aliases set_aliases.
Proof. by constructor. Qed.

Lemma table_set_spec `{!Slots get_t set_t} n v e :
  zlen n < 32 -> zlen v < 128 -> table_ok (get_t e) -> (is_Some (slot_of (get_t e) n) \/ zlen (get_t e) < SH_VARS) ->
  exists t, table_set get_t set_t n v e = Ok tt (set_t t e) [] /\ table_ok t /\
    table_get t n = Some v /\ forall m, m <> n -> table_get t m = table_get (get_t e) m.
Proof.
  intros Hn Hv [Hl Hf] Hroom. unfold table_set. rewrite (bind_ok get _ e e e []) by done. unfold fits.
  rewrite (proj2 (Z.ltb_lt _ _) Hn), (proj2 (Z.ltb_lt _ _) Hv).
  destruct (slot_of (get_t e) n) as [i|] eqn:E.
  - eexists. split; [done|]. destruct (slot_of_alter _ n v i E) as [H1 H2]. split; [|done]. split.
    + unfold zlen. by rewrite length_alter.
    + apply Forall_alter; [done|]. intros [a b] _ [? ?]. done.
  - destruct Hroom as [[? ?]|Hroom]; [done|]. rewrite (proj2 (Z.ltb_lt _ _) Hroom).
    eexists. split; [done|]. split; [split|].
    + rewrite zlen_app, zlen_cons, zlen_nil. lia.
    + apply Forall_app; split; [done|]. by apply Forall_singleton.
    + split; [by rewrite table_get_snoc, streq_refl|]. intros m Hm.
      rewrite table_get_snoc by done. by rewrite (proj2 (streq_false n m)) by done.
Qed.

(** ** The calculator *)

Lemma i32_mod a b : a mod 2^32 = b mod 2^32 -> i32 a = i32 b.
Proof.
  intros H. unfold i32. f_equal. rewrite <- (Zplus_mod_idemp_l a), <- (Zplus_mod_idemp_l b). by rewrite H.
Qed.
Lemma i32_idem_mod a : i32 a mod 2^32 = a mod 2^32.
Proof. unfold i32. rewrite Zminus_mod_idemp_l. f_equal. lia. Qed.

Lemma read_int_digits s : forall a,
  read_int (i32 a) s = (i32 (read_digits 10 a s).1, (read_digits 10 a s).2).
Proof.
  induction s as [|c s IH]; intros a; simpl; [done|]. destruct (is_digit c); [|done].
  rewrite <- IH. f_equal. apply i32_mod.
  rewrite <- (Zplus_mod_idemp_l (i32 a * 10)), <- (Zmult_mod_idemp_l (i32 a)), i32_idem_mod.
  by rewrite Zmult_mod_idemp_l, Zplus_mod_idemp_l.
Qed.

Lemma read_int_0 s : read_int 0 s = (i32 (read_digits 10 0 s).1, (read_digits 10 0 s).2).
Proof. exact (read_int_digits s 0). Qed.

Lemma kia_first n : -2^31 <= n < 2^31 ->
  exists c r, kia n = c :: r /\ (c =? c_sp) = false /\ (c = c_dash <-> n < 0).
Proof.
  intros Hn. destruct (Z.lt_trichotomy n 0) as [H|[->|H]].
  - eexists c_dash, _. split; [|done]. unfold kia. rewrite (proj2 (Z.eqb_neq n 0)), (proj2 (Z.ltb_lt n 0)) by lia. reflexivity.
  - eexists c_0, _. split; [reflexivity|]. split; [done|]. lia.
  - destruct (kia_digits n) as (c & ds & -> & Hd & _); [change (10 ^ 20) with 100000000000000000000; lia|].
    apply Forall_cons in Hd as [Hd _]. unfold is_digit in Hd. bool_to_prop. exists c, ds. split; [done|]. lia.
Qed.

Lemma read_signed_kia n rest :
  -2^31 <= n < 2^31 -> no_digit_first rest -> read_signed (kia n ++ rest) = (n, rest).
Proof.
  intros Hn Hr. assert (Hb : forall k, 0 <= k <= 2^31 -> 0 <= k < 10 ^ 20)
    by (intros; change (10 ^ 20) with 100000000000000000000; lia).
  destruct (kia_first n Hn) as (c & r & Hk & _ & Hc). unfold read_signed.
  destruct (Z.lt_ge_cases n 0) as [H|H].
  - assert (Hneg : kia n = c_dash :: kia (- n)).
    { unfold kia. rewrite !(proj2 (Z.eqb_neq _ 0)), (proj2 (Z.ltb_lt n 0)), (proj2 (Z.ltb_ge (- n) 0)) by lia. done. }
    rewrite Hneg. cbn [app]. change (c_dash =? c_dash) with true. cbv iota beta.
    rewrite read_int_0, read_digits_kia by (apply Hb; lia).
    rewrite read_digits_stop by done. simpl. f_equal. rewrite <- (i32_id n) at 2 by done. apply i32_mod.
    rewrite <- (Z.sub_0_l (i32 (- n))), <- Zminus_mod_idemp_r, i32_idem_mod, Zminus_mod_idemp_r. f_equal. lia.
  - rewrite Hk. cbn [app]. rewrite (proj2 (Z.eqb_neq c c_dash)) by (intros ?%Hc; lia).
    rewrite app_comm_cons, <- Hk.
    rewrite read_int_0, read_digits_kia by (apply Hb; lia). rewrite read_digits_stop by done. simpl.
    by rewrite i32_id.
Qed.

Lemma skip_char_kia n rest : -2^31 <= n < 2^31 -> skip_char c_sp (kia n ++ rest) = kia n ++ rest.
Proof. intros Hn. destruct (kia_first n Hn) as (c & r & -> & Hc & _). simpl. by rewrite Hc. Qed.

(** What the operators mean on [int]s that do not trap. *)
Definition calc_op (op a b : Z) : option calc_result :=
  if op =? c_plus then Some (CalcVal (i32 (a + b)))
  else if op =? c_dash then Some (CalcVal (i32 (a - b)))
  else if op =? c_star then Some (CalcVal (i32 (a * b)))
  else if op =? c_slash then
    Some (if b =? 0 then CalcDiv0 else if (a =? -2^31) && (b =? -1) then CalcTrap else CalcVal (Z.quot a b))
  else if op =? 37 then
    Some (if b =? 0 then CalcMod0 else if (a =? -2^31) && (b =? -1) then CalcTrap else CalcVal (Z.rem a b))
  else None.

(** ** The reference for expansion: a line as literal characters and names *)

Inductive tok := Lit (c : Z) | Var (n : cstr).

Definition tok_text (t : tok) : cstr := match t with Lit c => [c] | Var n => c_dollar :: n end.
Definition render (ts : list tok) : cstr := concat (map tok_text ts).

(** A literal is not a dollar sign; a name is at most 31 name characters and
    is not followed by a literal one. *)
Fixpoint toks_ok (ts : list tok) : Prop :=
  match ts with
  | [] => True
  | Lit c :: ts' => c <> c_dollar /\ toks_ok ts'
  | Var n :: ts' =>
      Forall (fun c => name_char c = true) n /\ (length n <= 31)%nat /\
      match ts' with Lit c :: _ => name_char c = false | _ => True end /\ toks_ok ts'
  end.

Definition eval (e : env) (user cwd : cstr) (ts : list tok) : cstr :=
  concat (map (fun t => match t with Lit c => [c] | Var n => var_value e user cwd n end) ts).

Lemma span_name_app k n rest :
  Forall (fun c => name_char c = true) n -> (length n <= k)%nat ->
  match rest with c :: _ => name_char c = false | [] => True end ->
  span_name k (n ++ rest) = (n, rest).
Proof.
  intros Hn. revert k. induction Hn as [|c n Hc _ IH]; intros k Hk Hr; simpl.
  - destruct k, rest as [|x r]; simpl; try done. by rewrite Hr.
  - destruct k as [|k]; [simpl in Hk; lia|]. simpl. rewrite Hc, IH by (simpl in Hk; lia || done). done.
Qed.

Lemma render_first ts : toks_ok ts ->
  match ts with Lit c :: _ => name_char c = false | _ => True end ->
  match render ts with c :: _ => name_char c = false | [] => True end.
Proof. by destruct ts as [|[c|n] ts]. Qed.

Section ExpandLemmas.
Context (e : env) (user cwd : cstr).

Lemma expand_loop_full f outsz s out : outsz - 1 <= zlen out -> expand_loop e user cwd f outsz s out = out.
Proof. intros H. destruct f, s; simpl; try done. by rewrite (proj2 (Z.ltb_ge _ _)) by lia. Qed.

Lemma expand_loop_tokens ts : forall f outsz out,
  toks_ok ts -> (length (render ts) <= f)%nat -> zlen out <= outsz - 1 ->
  expand_loop e user cwd f outsz (render ts) out =
    take (Z.to_nat (outsz - 1)) (out ++ eval e user cwd ts).
Proof.
  induction ts as [|t ts IH]; intros f outsz out Hok Hf Ho.
  { unfold render, eval. simpl. rewrite app_nil_r, take_ge by (unfold zlen in *; lia). by destruct f. }
  destruct (Z.eq_dec (zlen out) (outsz - 1)) as [Heq|Hlt].
  { rewrite expand_loop_full by lia. rewrite <- Heq. unfold zlen. by rewrite Nat2Z.id, take_app_length. }
  destruct t as [c|n]; unfold render, eval; cbn [map concat tok_text app]; fold (render ts) (eval e user cwd ts);
    (destruct f as [|f]; [simpl in Hf; lia|]); cbn [expand_loop]; rewrite (proj2 (Z.ltb_lt _ _)) by lia.
  - destruct Hok as [Hc Hok]. rewrite (proj2 (Z.eqb_neq c c_dollar)) by done. simpl in Hf.
    unfold render in Hf. rewrite IH; [|done|unfold render; lia|rewrite zlen_app, zlen_cons, zlen_nil; lia].
    by rewrite <- app_assoc.
  - destruct Hok as (Hn & Hl & Hnext & Hok). simpl in Hf. rewrite Z.eqb_refl.
    rewrite span_name_app; [|done|done|by apply render_first].
    rewrite IH; [|done| |]. 2:{ unfold render in *. rewrite length_app in Hf. lia. }
    2:{ rewrite zlen_app. unfold zlen in *. rewrite length_take. lia. }
    set (v := var_value e user cwd n). rewrite app_assoc.
    destruct (decide (length v <= Z.to_nat (outsz - 1 - zlen out))%nat) as [Hv|Hv].
    + by rewrite (take_ge v) by done.
    + set (k := Z.to_nat (outsz - 1 - zlen out)) in *.
      assert (HN : Z.to_nat (outsz - 1) = (length out + k)%nat) by (unfold k, zlen in *; lia).
      rewrite HN. rewrite (take_app_le (out ++ take k v)), (take_app_le (out ++ v)) by (rewrite length_app, ?length_take; lia).
      rewrite !take_app_add. by rewrite take_take, Nat.min_id.
Qed.

Lemma expand_loop_length f outsz s : forall out, zlen out <= outsz - 1 -> zlen (expand_loop e user cwd f outsz s out) <= outsz - 1.
Proof.
  revert s. induction f as [|f IH]; intros [|c s] out Ho; cbn [expand_loop]; try done.
  case_test; [|done]. case_test.
  - destruct (span_name 31 s) as [n r]. apply IH. rewrite zlen_app. unfold zlen in *. rewrite length_take. lia.
  - apply IH. rewrite zlen_app, zlen_cons, zlen_nil. lia.
Qed.

End ExpandLemmas.

(** A plain line expands to itself. *)
Lemma expand_plain e user cwd s outsz :
  Forall (fun c => c <> c_dollar) s -> zlen s < outsz -> sh_expand e user cwd s outsz = s.
Proof.
  intros Hs Hl. assert (Hr : render (map Lit s) = s /\ eval e user cwd (map Lit s) = s /\ toks_ok (map Lit s)).
  { induction Hs as [|c s Hc _ IH]; [done|]. rewrite zlen_cons in Hl. destruct IH as (H1 & H2 & H3); [lia|].
    unfold render, eval in *. simpl. by rewrite H1, H2. }
  destruct Hr as (H1 & H2 & H3). unfold sh_expand. rewrite <- H1 at 1 2. pose proof (zlen_nonneg s).
  rewrite expand_loop_tokens; [|done|done|rewrite zlen_nil; lia].
  rewrite H2. simpl. rewrite take_ge; [done|]. unfold zlen in *. lia.
Qed.

(** ** History *)

Lemma shift_left_spec (n : Z) (h : list cstr) (s : cstr) :
  0 <= n -> zlen h = n + 1 ->
  aset (for_ 0 n (fun i l => aset l i (aget [] l (i + 1))) h) n s = tail h ++ [s].
Proof.
  intros Hn Hl.
  pose proof (for_ind (fun i l => zlen l = n + 1 /\ forall j, 0 <= j < n + 1 -> aget [] l j =
    if j <? i then aget [] h (j + 1) else aget [] h j) 0 n (fun i l => aset l i (aget [] l (i + 1))) h) as Hfor.
  destruct Hfor as [H1 H2]; [lia| | |].
  { split; [done|]. intros j Hj. by rewrite (proj2 (Z.ltb_ge j 0)) by lia. }
  { intros i l Hi [Hz Hv]. split; [by rewrite zlen_aset|]. intros j Hj.
    destruct (Z.eq_dec i j) as [->|Hne].
    - rewrite aget_aset_eq by lia. rewrite Hv by lia.
      by rewrite (proj2 (Z.ltb_ge (j + 1) j)), (proj2 (Z.ltb_lt j (j + 1))) by lia.
    - rewrite aget_aset_ne by lia. rewrite Hv by lia.
      destruct (Z.ltb_spec j i), (Z.ltb_spec j (i + 1)); try lia; done. }
  set (l := for_ 0 n _ h) in *. clearbody l.
  destruct h as [|x h]; [rewrite zlen_nil in Hl; lia|]. rewrite zlen_cons in Hl. cbn [tail].
  apply (array_ext []).
  { rewrite zlen_aset, zlen_app, zlen_cons, zlen_nil. lia. }
  intros i Hi. rewrite zlen_aset in Hi. destruct (Z.eq_dec i n) as [->|Hne].
  - rewrite aget_aset_eq by lia. unfold aget. rewrite app_nth2 by (unfold zlen in *; lia).
    replace (Z.to_nat n - length h)%nat with 0%nat by (unfold zlen in *; lia). done.
  - rewrite aget_aset_ne by lia. rewrite H2 by lia. rewrite (proj2 (Z.ltb_lt i n)) by lia.
    unfold aget. replace (Z.to_nat (i + 1)) with (S (Z.to_nat i)) by lia. simpl.
    rewrite app_nth1 by (unfold zlen in *; lia). done.
Qed.

Lemma push_full_spec h s : zlen h = SH_HIST -> push_full h s = tail h ++ [s].
Proof. intros Hl. unfold push_full. apply shift_left_spec; lia. Qed.

Definition last_64 (h : list cstr) : list cstr := drop (length h - 64) h.

Lemma push_last_64 h0 h s :
  h = last_64 h0 -> (if zlen h <? SH_HIST then h ++ [s] else push_full h s) = last_64 (h0 ++ [s]).
Proof.
  intros ->. unfold last_64. pose proof (length_drop h0 (length h0 - 64)) as Hl. case_test.
  - unfold zlen in *. rewrite length_app. simpl. rewrite drop_app_le by lia.
    destruct (decide (length h0 < 64)%nat); [|lia]. by replace (length h0 + 1 - 64)%nat with (length h0 - 64)%nat by lia.
  - unfold zlen in *. rewrite push_full_spec by (unfold zlen; lia). rewrite length_app. simpl.
    rewrite drop_app_le by lia. f_equal.
    replace (length h0 + 1 - 64)%nat with (S (length h0 - 64)) by lia.
    clear. generalize (length h0 - 64)%nat as k. intros k. revert h0. induction k; intros [|x l]; simpl; try done.
Qed.

(** ** Properties *)

(** C16: Variable expansion is token-wise substitution: a line of literal
    characters and names becomes the literals and the names' values in order
    (a set variable's value, the built-in HOME, USER, PWD and SHELL, or the
    name itself), cut at the size of the buffer. *)
Theorem sh_expand_tokens e user cwd ts outsz :
  toks_ok ts -> 1 <= outsz ->
  sh_expand e user cwd (render ts) outsz = take (Z.to_nat (outsz - 1)) (eval e user cwd ts).
Proof. intros Hok Ho. unfold sh_expand. by rewrite expand_loop_tokens by (done || rewrite zlen_nil; lia). Qed.

Lemma sh_expand_tokens_witness :
  sh_expand (Env [(cs "PIG", cs "oink")] [] [] []) (cs "root") (cs "/tmp") (cs "echo $PIG/$USER:$PWD.") 512 =
    cs "echo oink/root:/tmp.".
Proof.
  etransitivity; [apply (sh_expand_tokens (Env [(cs "PIG", cs "oink")] [] [] []) (cs "root") (cs "/tmp")
    (map Lit (cs "echo ") ++ [Var (cs "PIG"); Lit c_slash; Var (cs "USER"); Lit c_colon; Var (cs "PWD"); Lit c_dot]) 512)|].
  - simpl. split_and!; try discriminate; try (repeat constructor); lia.
  - lia.
  - reflexivity.
Defined.

(** [calc] on two [int]s in decimal with any blanks around the operator
    computes the C result: sums, differences and products wrap at 32 bits,
    quotient and remainder truncate towards zero, a zero divisor is reported
    and the one overflowing quotient traps; any other operator is refused. *)
Theorem calc_correct a b op i j k :
  -2^31 <= a < 2^31 -> -2^31 <= b < 2^31 -> op <> c_sp -> is_digit op = false ->
  calc (replicate i c_sp ++ kia a ++ replicate j c_sp ++ [op] ++ replicate k c_sp ++ kia b) =
    default CalcOp (calc_op op a b).
Proof.
  intros Ha Hb Hop Hdig.
  assert (Hsk : forall n s, skip_char c_sp (replicate n c_sp ++ s) = skip_char c_sp s) by (induction n; intros; simpl; auto).
  unfold calc. rewrite Hsk, skip_char_kia by done.
  assert (Hne : exists x y, replicate i c_sp ++ kia a ++ replicate j c_sp ++ [op] ++ replicate k c_sp ++ kia b = x :: y).
  { destruct (kia_first a Ha) as (c & r & -> & _). destruct i; simpl; eauto. }
  destruct Hne as (x & y & ->).
  rewrite read_signed_kia by (try done; by destruct j). rewrite Hsk. cbn [app skip_char].
  rewrite (proj2 (Z.eqb_neq op c_sp)) by done. cbn [tail]. rewrite Hsk. change (cget (op :: _) 0) with op.
  rewrite <- (app_nil_r (kia b)), skip_char_kia, read_signed_kia by done. unfold calc_op. by repeat case_test.
Qed.

Lemma calc_correct_witness :
  calc (cs " -7 / 2") = CalcVal (-3) /\ calc (cs "2147483647 + 1") = CalcVal (-2147483648) /\ calc (cs "5%0") = CalcMod0.
Proof.
  split; [|split].
  - apply (calc_correct (-7) 2 c_slash 1 1 1); lia || reflexivity || discriminate.
  - apply (calc_correct 2147483647 1 c_plus 0 1 1); lia || reflexivity || discriminate.
  - apply (calc_correct 5 0 37 0 0 0); lia || reflexivity || discriminate.
Defined.

(** The calculator crashes the kernel on one pair of operands. *)
Lemma calc_can_trap {T} (s : T) : cmd_calc_sh (cs "2147483648 / -1") s = Err Halted s [].
Proof. reflexivity. Qed.

(** [$?] is never the status: the name reader stops before the question mark. *)
Lemma status_is_not_expanded user cwd : sh_expand env_boot user cwd (cs "$?") 512 = cs "?".
Proof. reflexivity. Qed.

(** A value of 128 characters or more overruns its slot. *)
Lemma long_value_overflows e n v :
  zlen n < 32 -> 128 <= zlen v -> zlen (vars e) < SH_VARS -> sh_var_set n v e = Err BufferOverflow e [].
Proof.
  intros Hn Hv Hl. unfold sh_var_set, table_set. rewrite (bind_ok get _ e e e []) by done. unfold fits.
  rewrite (proj2 (Z.ltb_lt _ _) Hn), (proj2 (Z.ltb_ge (zlen v) 128)) by lia.
  destruct (slot_of (vars e) n); [done|]. by rewrite (proj2 (Z.ltb_lt _ _) Hl).
Qed.

(** A slot freed by [unset] is found again under the empty name only: 32
    different variables may be set in one session. *)
Lemma unset_keeps_the_slot n e : zlen (vars (sh_unset n e)) = zlen (vars e).
Proof. unfold sh_unset, zlen. simpl. by rewrite length_map. Qed.
