(* ===== verification/Rpk.v ===== *)
(** * The package manager ([shell/rpk.h])

    A table of 27 packages with their installed flags, and the list of commands
    that installed packages add to the shell.  [r_keys] is what the keyboard
    will deliver to the simulated programs. *)

From Stdlib Require Import ZArith Lia.
From stdpp Require Import base numbers list strings gmap.
From S2P Require Import Prelude CLib Console PigFs PigFsCmd Ps2 Users Nano.

Record RpkPkg := MkPkg { p_name : cstr; p_version : cstr; p_desc : cstr; p_size : Z }.

Definition rpk_db : list RpkPkg :=
  [MkPkg (cs "btop") (cs "4.0.0") (cs "System monitor (TUI)") 128;
   MkPkg (cs "htop") (cs "3.3.0") (cs "Interactive process viewer") 64;
   MkPkg (cs "pivi") (cs "1.0.0") (cs "Advanced text editor") 512;
   MkPkg (cs "python3") (cs "3.12.0") (cs "Python interpreter") 4096;
   MkPkg (cs "pip3") (cs "23.3.0") (cs "Python package installer") 64;
   MkPkg (cs "neofetch") (cs "7.1.0") (cs "System info tool") 32;
   MkPkg (cs "curl") (cs "8.5.0") (cs "Transfer data with URLs") 256;
   MkPkg (cs "wget") (cs "1.21.4") (cs "Network downloader") 128;
   MkPkg (cs "git") (cs "2.44.0") (cs "Version control system") 512;
   MkPkg (cs "pnano") (cs "1.0.0") (cs "Simple text editor") 64;
   MkPkg (cs "bash") (cs "5.2.0") (cs "Bourne Again Shell") 256;
   MkPkg (cs "gcc") (cs "13.2.0") (cs "GNU C compiler") 2048;
   MkPkg (cs "nmap") (cs "7.94.0") (cs "Network scanner") 256;
   MkPkg (cs "tcpdump") (cs "4.99.4") (cs "Packet analyzer") 128;
   MkPkg (cs "openssl") (cs "3.2.1") (cs "TLS/SSL toolkit") 1024;
   MkPkg (cs "ssh") (cs "9.6.0") (cs "Secure shell client/server") 256;
   MkPkg (cs "tmux") (cs "3.4.0") (cs "Terminal multiplexer") 128;
   MkPkg (cs "zsh") (cs "5.9.0") (cs "Z shell") 512;
   MkPkg (cs "fish") (cs "3.7.0") (cs "Friendly interactive shell") 256;
   MkPkg (cs "make") (cs "4.4.1") (cs "Build tool") 512;
   MkPkg (cs "gdb") (cs "14.1.0") (cs "GNU debugger") 1024;
   MkPkg (cs "strace") (cs "6.6.0") (cs "System call tracer") 256;
   MkPkg (cs "lsof") (cs "4.98.0") (cs "List open files") 64;
   MkPkg (cs "tree") (cs "2.1.1") (cs "Directory tree viewer") 16;
   MkPkg (cs "jq") (cs "1.7.1") (cs "JSON processor") 64;
   MkPkg (cs "ripgrep") (cs "14.1.0") (cs "Fast grep (rg)") 128;
   MkPkg (cs "fd") (cs "9.0.0") (cs "Fast find") 64].

Record rpk := Rpk { installed : list bool; rpk_cmds : list cstr; r_fs : fs; r_keys : list Z }.
Definition set_installed l s := Rpk l (rpk_cmds s) (r_fs s) (r_keys s).
Definition set_cmds l s := Rpk (installed s) l (r_fs s) (r_keys s).
Definition set_rfs f s := Rpk (installed s) (rpk_cmds s) f (r_keys s).
Definition set_rkeys k s := Rpk (installed s) (rpk_cmds s) (r_fs s) k.

Definition rpk_cmd_installed (s : rpk) (n : cstr) : bool := existsb (fun c => streq c n) (rpk_cmds s).
Definition rpk_find_pkg (n : cstr) : option nat := find_index (fun p => streq (p_name p) n) rpk_db.

Definition rpk_progress (action pkg : cstr) : M rpk unit :=
  vset C_LCYAN C_BLACK ;; vps (cs "rpk: ") ;; vps action ;; vps [c_sp] ;; vset C_YELLOW C_BLACK ;; vps pkg ;; vrst ;; vpc c_nl ;;
  vps (cs "  [") ;;
  mapM_ (fun _ => emit (EPutCur 0xDB (COL C_LGREEN C_BLACK))) (seqZ 0 32) ;;
  vpln (cs "] done").

(** ** Installed programs *)

Fixpoint wait_for (p : Z -> bool) (ks : list Z) : M rpk unit :=
  match ks with
  | [] => fail Blocked
  | c :: ks' => if p c then modify (set_rkeys ks') else wait_for p ks'
  end.
Definition await (p : Z -> bool) : M rpk unit := s ← get; wait_for p (r_keys s).

Definition run_monitor (pkg : cstr) : M rpk unit :=
  vclear ;;
  let hb := COL C_BLACK C_LGREEN in
  vfill 0 0 80 1 c_sp hb ;;
  let title := [c_sp] ++ pkg ++ cs " - pigOS System Monitor" in
  fits 64 title ;; vstr 0 0 hb title ;;
  vset C_WHITE C_BLACK ;; vpc c_nl ;;
  vstr 1 2 (COL C_LCYAN C_BLACK) (cs "CPU[") ;; vfill 5 2 70 1 0xDB (COL C_LGREEN C_BLACK) ;;
  vstr 76 2 (COL C_WHITE C_BLACK) (cs "100%]") ;;
  vstr 1 3 (COL C_LCYAN C_BLACK) (cs "Mem[") ;; vfill 5 3 22 1 0xDB (COL C_GREEN C_BLACK) ;;
  vfill 27 3 48 1 c_sp (COL C_BLACK C_BLACK) ;; vstr 76 3 (COL C_WHITE C_BLACK) (cs " 32% ]") ;;
  vpc c_nl ;; vpc c_nl ;;
  in_color C_LCYAN C_BLACK (vpln (cs "  PID   USER   PRI  NI  VIRT  RES  CPU%  MEM%  CMD")) ;;
  vpln (cs "  100   root    20   0  4096  1024  99.9  32.0  pigKernel") ;;
  vpln (cs "    1   root    20   0   512    32   0.0   0.1  poing") ;;
  vpln (cs "  200   root    20   0   256    64   0.0   0.5  larpshell") ;;
  vpc c_nl ;; in_color C_DGREY C_BLACK (vpln (cs "[q=quit  arrows=scroll  F10=quit]")) ;;
  await (fun c => (c =? 113) || (c =? c_esc) || (c =? KEY_F10)) ;; vclear.

(** The answer of the simulated interpreter to the line in [pybuf]; for the bare
    word [import], [pybuf+7] is what the array holds past the terminator. *)
Definition py_answer (buf : list Z) : M rpk unit :=
  let l := read_cstr buf in
  if strneq l (cs "print(") 6 then
    vset C_WHITE C_BLACK ;; mapM_ (fun c => vpc (u8 c)) (span_until 41 (drop 6 l)).1 ;; vpc c_nl
  else if strneq l (cs "import") 6 then
    vps (cs "[pigOS Python: import simulated] ") ;; vpln (read_cstr (drop 7 buf))
  else vpln l.

(** The loop, on the array [pybuf] and its fill count: the array is terminated
    only when a line is entered. *)
Fixpoint py_loop (ks : list Z) (buf : list Z) (n : Z) : M rpk unit :=
  match ks with
  | [] => fail Blocked
  | c :: ks' =>
      if (c =? c_esc) || (streq (read_cstr buf) (cs "exit()") && (c =? c_nl)) then modify (set_rkeys ks')
      else if c =? c_nl then
        in_array 256 n ;;
        let buf := aset buf n 0 in
        vpc c_nl ;;
        if streq (read_cstr buf) (cs "exit()") || streq (read_cstr buf) (cs "quit()") then modify (set_rkeys ks')
        else py_answer buf ;; vps (cs ">>> ") ;; py_loop ks' (aset buf 0 0) 0
      else if c =? c_bs then
        if 0 <? n then vpc c_bs ;; py_loop ks' buf (n - 1) else py_loop ks' buf n
      else if (32 <=? c) && (c <? 127) && (n <? 255) then vpc (u8 c) ;; py_loop ks' (aset buf n c) (n + 1)
      else py_loop ks' buf n
  end.

Definition run_python : M rpk unit :=
  vclear ;; vset C_LGREEN C_BLACK ;;
  vpln (cs "Python 3.12.0 (pigOS build, Jan 1 1970)") ;; vpln (cs "[GCC 13.2.0] on pigOS") ;;
  let q s := [c_dquote] ++ s ++ [c_dquote] in
  vpln (cs "Type " ++ q (cs "help") ++ cs ", " ++ q (cs "copyright") ++ cs ", " ++ q (cs "credits") ++ cs " or " ++
        q (cs "license") ++ cs " for more information.") ;;
  vrst ;; vps (cs ">>> ") ;;
  s ← get; py_loop (r_keys s) (replicate 256 0) 0 ;; vclear ;; vrst.

Definition cmd_rpk_run (pkg : cstr) : M rpk unit :=
  if streq pkg (cs "btop") || streq pkg (cs "htop") then run_monitor pkg
  else if streq pkg (cs "python3") then run_python
  else if streq pkg (cs "pivi") || streq pkg (cs "pi") then mret tt
  else if streq pkg (cs "ssh") then
    vpln (cs "ssh: pigOS SSH client (simulated)") ;; vpln (cs "Usage: ssh [user@]host") ;;
    vpln (cs "[no network - add -net nic,model=rtl8139 -net user to QEMU]")
  else if streq pkg (cs "git") then
    vclear ;; in_color C_LRED C_BLACK (vpln (cs "git version 2.44.0 (pigOS build)")) ;;
    mapM_ vpln [cs "usage: git <command> [options]"; cs "  init      Create empty repository";
      cs "  status    Show working tree status"; cs "  add       Stage files"; cs "  commit    Record changes";
      cs "  log       Show commit history"; cs "[pigOS git: virtual FS, no real storage]"]
  else if streq pkg (cs "make") then
    vpln (cs "make: running Makefile...") ;; vpln (cs "CC=gcc CFLAGS=-m64 -ffreestanding...") ;;
    vpln (cs "make: Nothing to be done (no real build system in kernel mode)")
  else
    vps pkg ;; vps (cs " v") ;;
    match rpk_find_pkg pkg with
    | None => fail OutOfBounds
    | Some i =>
        vps (p_version (nth i rpk_db (MkPkg [] [] [] 0))) ;; vpln (cs " (pigOS build)") ;;
        vps (cs "[") ;; vps pkg ;; vpln (cs "] running... (simulated - type q or ESC to exit)") ;;
        await (fun c => (c =? 113) || (c =? c_esc))
    end.

(** ** The commands of [rpk] *)

Definition is_installed (s : rpk) (i : nat) : bool := nth i (installed s) false.
Definition pkg_at (i : nat) : RpkPkg := nth i rpk_db (MkPkg [] [] [] 0).

Definition rpk_install (pkg : cstr) : M rpk unit :=
  if bool_decide (pkg = []) then vpln (cs "rpk: package name required")
  else match rpk_find_pkg pkg with
  | None =>
      in_color C_LRED C_BLACK (vps (cs "rpk: package '") ;; vps pkg ;; vpln (cs "' not found. Try: rpk roam pk"))
  | Some i =>
      s ← get;
      if is_installed s i then vps pkg ;; vpln (cs " is already installed")
      else
        rpk_progress (cs "downloading") pkg ;; rpk_progress (cs "installing") pkg ;;
        modify (fun s => set_installed (<[i := true]> (installed s)) s) ;;
        (if zlen (rpk_cmds s) <? 32 then fits 32 pkg ;; modify (fun s => set_cmds (rpk_cmds s ++ [pkg]) s) else mret tt) ;;
        let bp := cs "/usr/bin/" ++ pkg in
        fits 64 bp ;;
        zoom r_fs set_rfs (create_with bp (cs "[installed binary]") false) ;;
        vset C_LGREEN C_BLACK ;; vps (cs "rpk: installed ") ;; vps pkg ;;
        let sb := kia (p_size (pkg_at i)) in
        fits 8 sb ;; vps (cs " (") ;; vps sb ;; vpln (cs "KB)") ;; vrst
  end.

(** The first entry of that name leaves the list. *)
Fixpoint drop_cmd (n : cstr) (l : list cstr) : list cstr :=
  match l with [] => [] | c :: l' => if streq c n then l' else c :: drop_cmd n l' end.

Definition rpk_remove (pkg : cstr) : M rpk unit :=
  if bool_decide (pkg = []) then vpln (cs "rpk: package name required")
  else match rpk_find_pkg pkg with
  | None => in_color C_LRED C_BLACK (vps (cs "rpk: '") ;; vps pkg ;; vpln (cs "' not found"))
  | Some i =>
      s ← get;
      if negb (is_installed s i) then vps pkg ;; vpln (cs " is not installed")
      else if streq pkg (cs "larpshell") || streq pkg (cs "poing") || streq pkg (cs "rpk")
      then in_color C_LRED C_BLACK (vpln (cs "rpk: cannot remove essential package"))
      else
        rpk_progress (cs "removing") pkg ;;
        modify (fun s => set_installed (<[i := false]> (installed s)) s) ;;
        modify (fun s => set_cmds (drop_cmd pkg (rpk_cmds s)) s) ;;
        in_color C_LGREEN C_BLACK (vps (cs "rpk: removed ") ;; vpln pkg)
  end.

Definition print_pkg (p : RpkPkg) : M rpk unit :=
  vps (cs "  ") ;; vps (p_name p) ;; vset C_DGREY C_BLACK ;; vps [c_tab] ;; vps (p_version p) ;; vps [c_tab] ;;
  vset C_WHITE C_BLACK ;; vpln (p_desc p).

Definition rpk_list : M rpk unit :=
  in_color C_LCYAN C_BLACK (vpln (cs "Installed packages:")) ;;
  s ← get;
  let l := filter (fun x : RpkPkg * bool => x.2 = true) (zip rpk_db (installed s)) in
  mapM_ (fun x : RpkPkg * bool => vset C_LGREEN C_BLACK ;; print_pkg x.1) l ;;
  fits 8 (kia (zlen l)) ;; vps (kia (zlen l)) ;; vpln (cs " packages installed").

Definition rpk_roam (q : cstr) : M rpk unit :=
  let q := if (cget q 0 =? 112) && (cget q 1 =? 107) then skip_char c_sp (drop 2 q) else q in
  vset C_LCYAN C_BLACK ;; vps (cs "Available packages") ;;
  (if bool_decide (q = []) then mret tt else vps (cs " matching '") ;; vps q ;; vps (cs "'")) ;;
  vpln (cs ":") ;; vrst ;;
  s ← get;
  mapM_ (fun x : RpkPkg * bool =>
    if (0 <? ksl q) && negb (strneq (p_name x.1) q (length q)) && negb (strneq (p_desc x.1) q (length q)) then mret tt
    else vset (if x.2 then C_LGREEN else C_WHITE) C_BLACK ;; print_pkg x.1) (zip rpk_db (installed s)).

Definition rpk_info (pkg : cstr) : M rpk unit :=
  match rpk_find_pkg pkg with
  | None => vps (cs "rpk: '") ;; vps pkg ;; vpln (cs "' not found")
  | Some i =>
      s ← get;
      let r := pkg_at i in
      vset C_LCYAN C_BLACK ;; vps (cs "Package: ") ;; vset C_YELLOW C_BLACK ;; vpln (p_name r) ;; vrst ;;
      vps (cs "Version:  ") ;; vpln (p_version r) ;; vps (cs "Desc:     ") ;; vpln (p_desc r) ;;
      fits 8 (kia (p_size r)) ;; vps (cs "Size:     ") ;; vps (kia (p_size r)) ;; vpln (cs "KB") ;;
      vps (cs "Status:   ") ;; vpln (if is_installed s i then cs "installed" else cs "available")
  end.

Definition rpk_usage : M rpk unit :=
  in_color C_LCYAN C_BLACK (vpln (cs "rpk - pigOS Package Manager v1.0")) ;;
  mapM_ vpln [cs "Usage: rpk <command> [pkg]"; cs "  on <pkg>        - install package"; cs "  install <pkg>   - install package";
    cs "  remove <pkg>    - remove package"; cs "  list            - list installed"; cs "  roam pk [q]     - search packages";
    cs "  info <pkg>      - package info"; cs "  update          - refresh list"; cs "  upgrade         - upgrade all";
    cs "  clean           - clean cache"; cs "  deps <pkg>      - show deps"].

Definition cmd_rpk (args : cstr) : M rpk unit :=
  if bool_decide (args = []) then rpk_usage
  else
    let '(sub, p) := span_max 31 c_sp args in
    let pkg := skip_char c_sp p in
    if streq sub (cs "install") || streq sub (cs "on") then rpk_install pkg
    else if streq sub (cs "remove") then rpk_remove pkg
    else if streq sub (cs "list") then rpk_list
    else if streq sub (cs "roam") then rpk_roam pkg
    else if streq sub (cs "info") then rpk_info pkg
    else if streq sub (cs "update") then
      in_color C_LCYAN C_BLACK (vpln (cs "rpk: refreshing package database...")) ;; vpln (cs "rpk: 32 packages available")
    else if streq sub (cs "upgrade") then vpln (cs "rpk: checking upgrades... all packages up to date")
    else if streq sub (cs "clean") then vpln (cs "rpk: cache cleaned")
    else if streq sub (cs "deps") then
      vps (cs "Dependencies for ") ;; vpln (if bool_decide (pkg = []) then cs "?" else pkg) ;;
      vpln (cs "  larpshell >= 2.0  poing >= 1.0")
    else in_color C_LRED C_BLACK (vps (cs "rpk: unknown: ") ;; vpln sub) ;; vpln (cs "rpk help").

(** ** Invariant: the command list is the set of installed packages *)

Record rpk_ok (s : rpk) : Prop := RpkOk {
  ok_flags : length (installed s) = length rpk_db;
  ok_nodup : NoDup (rpk_cmds s);
  ok_cmds : forall n, n ∈ rpk_cmds s <-> exists i, rpk_find_pkg n = Some i /\ is_installed s i = true;
  ok_rfs : fs_ok (r_fs s);
}.

Definition rpk_boot (f : fs) (ks : list Z) : rpk := Rpk (replicate 27 false) [] f ks.

Lemma rpk_boot_ok f ks : fs_ok f -> rpk_ok (rpk_boot f ks).
Proof.
  intros Hf. constructor; simpl; try done; [constructor|]. intros n. split; [by intros ?%not_elem_of_nil|].
  intros (i & _ & Hi). unfold is_installed in Hi. simpl in Hi. do 27 (destruct i as [|i]; [done|]). by destruct i.
Qed.

Lemma rpk_find_name n i : rpk_find_pkg n = Some i -> (i < length rpk_db)%nat /\ p_name (pkg_at i) = n.
Proof.
  unfold rpk_find_pkg. intros Hf. destruct (find_index_Some _ _ _ Hf) as (p & Hp & Hs).
  apply streq_true in Hs. split; [by eapply lookup_lt_Some|]. unfold pkg_at. by rewrite nth_lookup, Hp.
Qed.

Lemma rpk_find_inj n m i : rpk_find_pkg n = Some i -> rpk_find_pkg m = Some i -> n = m.
Proof. intros [_ <-]%rpk_find_name [_ <-]%rpk_find_name. done. Qed.

Lemma rpk_cmds_room s : rpk_ok s -> (length (rpk_cmds s) <= length rpk_db)%nat.
Proof.
  intros Hs. rewrite <- (length_map p_name rpk_db). apply submseteq_length, NoDup_submseteq; [apply (ok_nodup s Hs)|].
  intros n Hn. apply (ok_cmds s Hs) in Hn as (i & [Hi Hp]%rpk_find_name & _).
  apply list_elem_of_In, in_map_iff. exists (pkg_at i). split; [done|]. unfold pkg_at. by apply nth_In.
Qed.

Lemma rpk_cmd_installed_iff s n : rpk_cmd_installed s n = true <-> n ∈ rpk_cmds s.
Proof.
  unfold rpk_cmd_installed. rewrite existsb_exists. split.
  - intros (x & Hx & He). apply streq_true in He as ->. by apply list_elem_of_In.
  - intros Hn. exists n. rewrite streq_refl. split; [by apply list_elem_of_In|done].
Qed.

Lemma is_installed_insert l i j b : (i < length l)%nat ->
  nth j (<[i := b]> l) false = if decide (i = j) then b else nth j l false.
Proof.
  intros Hi. rewrite !nth_lookup. case_decide as E.
  - subst. by rewrite list_lookup_insert_eq.
  - by rewrite list_lookup_insert_ne.
Qed.

Lemma drop_cmd_spec n l : NoDup l -> NoDup (drop_cmd n l) /\ forall m, m ∈ drop_cmd n l <-> m ∈ l /\ m <> n.
Proof.
  induction 1 as [|c l Hc Hl [IH1 IH2]]; simpl; [split; [constructor|set_solver]|].
  destruct (streq c n) eqn:E.
  - apply streq_true in E as <-. split; [done|]. intros m. rewrite elem_of_cons. split; [|naive_solver].
    intros Hm. split; [by right|]. by intros ->.
  - apply streq_false in E. split; [constructor; [rewrite IH2; naive_solver|done]|].
    intros m. rewrite !elem_of_cons, IH2. naive_solver.
Qed.

Lemma wp_progress a p s Q E : Q tt s -> wp (rpk_progress a p) s Q E.
Proof.
  intros HQ. unfold rpk_progress. wp_run. eapply wp_mono; [apply (wp_mapM _ _ s (fun s' => s' = s) E)|..]; try done.
  intros _ ? ->. by wp_run.
Qed.

(** What the shell sees of the packages. *)
Definition available (s : rpk) (n : cstr) : bool := rpk_cmd_installed s n.

(** The effect of one [rpk] command on the installed packages. *)
Inductive rpk_effect (s s' : rpk) : Prop :=
  | RpkSame : installed s' = installed s -> rpk_cmds s' = rpk_cmds s -> rpk_effect s s'
  | RpkOn n i : rpk_find_pkg n = Some i -> is_installed s i = false -> installed s' = <[i := true]> (installed s) ->
      rpk_cmds s' = rpk_cmds s ++ [n] -> rpk_effect s s'
  | RpkOff n i : rpk_find_pkg n = Some i -> is_installed s i = true -> installed s' = <[i := false]> (installed s) ->
      rpk_cmds s' = drop_cmd n (rpk_cmds s) -> rpk_effect s s'.

Lemma rpk_effect_ok s s' : rpk_ok s -> rpk_effect s s' -> fs_ok (r_fs s') -> rpk_ok s'.
Proof.
  intros Hs He Hf. pose proof Hs as [Hl Hn Hc _]. destruct He as [Hi Hcm|n i Hf1 Hi0 Hi Hcm|n i Hf1 Hi0 Hi Hcm].
  - constructor; rewrite ?Hi, ?Hcm; try done. unfold is_installed in *. by rewrite Hi.
  - assert (Hlt : (i < length (installed s))%nat) by (rewrite Hl; by destruct (rpk_find_name n i Hf1)).
    assert (Hnew : n ∉ rpk_cmds s) by (rewrite Hc; intros (j & Hj & Hj2); simplify_eq; congruence).
    constructor; rewrite ?Hi, ?Hcm; [by rewrite length_insert| | |done].
    + apply NoDup_app. split_and!; [done| |apply NoDup_singleton]. set_solver.
    + intros m. rewrite elem_of_app, list_elem_of_singleton, Hc. unfold is_installed. rewrite Hi.
      split.
      * intros [(j & Hj & Hj2)| ->].
        -- exists j. split; [done|]. rewrite is_installed_insert by done. by case_decide.
        -- exists i. split; [done|]. rewrite is_installed_insert by done. by rewrite decide_True.
      * intros (j & Hj & Hj2). rewrite is_installed_insert in Hj2 by done. case_decide as E; [|left; eauto].
        subst j. right. by eapply rpk_find_inj.
  - assert (Hlt : (i < length (installed s))%nat) by (rewrite Hl; by destruct (rpk_find_name n i Hf1)).
    destruct (drop_cmd_spec n (rpk_cmds s) Hn) as [Hd1 Hd2].
    constructor; rewrite ?Hi, ?Hcm; [by rewrite length_insert|done| |done].
    intros m. rewrite Hd2, Hc. unfold is_installed. rewrite Hi. split.
    + intros [(j & Hj & Hj2) Hne]. exists j. split; [done|]. rewrite is_installed_insert by done.
      case_decide as E; [|done]. subst j. by destruct Hne; eapply rpk_find_inj.
    + intros (j & Hj & Hj2). rewrite is_installed_insert in Hj2 by done. case_decide as E; [done|].
      split; [eauto|]. intros ->. simplify_eq.
Qed.

Lemma rpk_db_small : Forall (fun p => zlen (p_name p) < 32 /\ zlen (kia (p_size p)) < 8) rpk_db.
Proof. by repeat constructor. Qed.

Lemma pkg_small n i : rpk_find_pkg n = Some i -> zlen n < 32 /\ zlen (kia (p_size (pkg_at i))) < 8.
Proof.
  intros [Hi <-]%rpk_find_name. unfold pkg_at. rewrite nth_lookup.
  destruct (lookup_lt_is_Some_2 _ _ Hi) as [p Hp]. rewrite Hp. apply (Forall_lookup_1 _ _ _ _ rpk_db_small Hp).
Qed.

(** Storing a short constant under a name that fits cannot fault. *)
Lemma wp_create_with p c d f :
  fs_ok f -> zlen p < 128 -> zlen c < 2048 -> wp (create_with p c d) f (fun _ => fs_ok) (fun _ _ => False).
Proof.
  intros Hf Hp Hc. unfold create_with. apply wp_bind. unfold wp at 1. rewrite memfs_create_eq by done.
  assert (Hput : forall i f', fs_ok f' -> wp ((if d then put_is_dir i true else mret tt) ;; put_content i c) f'
    (fun _ => fs_ok) (fun _ _ => False)).
  { intros i f' Hf'. apply wp_bind. eapply (wp_mono _ _ (fun _ => fs_ok)  _ (fun _ _ => False)); [|intros _ f1 Hf1|done].
    - destruct d; unfold put_is_dir, memfs_update; wp_run; [|done]. by apply update_any_ok.
    - unfold put_content, memfs_update. wp_run; [|lia]. apply update_any_ok; [done|].
      intros m. split_and!; [done|done|]. by intros [? ?]. }
  destruct (find_slot f p) eqn:?; [by apply Hput|]. case_test; [by wp_run|]. apply Hput. by apply append_ok.
Qed.

Definition rpk_post (s : rpk) (_ : unit) (s' : rpk) : Prop := rpk_effect s s' /\ fs_ok (r_fs s').
Definition no_fault (_ : fault) (_ : rpk) : Prop := False.

Lemma rpk_post_same s : rpk_ok s -> rpk_post s tt s.
Proof. intros Hs. split; [by apply RpkSame|apply (ok_rfs s Hs)]. Qed.

Lemma rpk_install_wp pkg s : rpk_ok s -> wp (rpk_install pkg) s (rpk_post s) no_fault.
Proof.
  intros Hs. pose proof (rpk_post_same s Hs). unfold rpk_install. case_bool_decide; [by wp_run|].
  destruct (rpk_find_pkg pkg) as [i|] eqn:Ef; [|by wp_run]. apply wp_bind, wp_get. case_test; [by wp_run|].
  destruct (pkg_small pkg i Ef) as [Hsm Hsz]. pose proof (rpk_cmds_room s Hs) as Hroom.
  apply wp_bind, wp_progress. apply wp_bind, wp_progress. apply wp_bind, wp_modify. apply wp_bind.
  assert (Hz : zlen (rpk_cmds s) <? 32 = true) by (unfold zlen; apply Z.ltb_lt; change (length rpk_db) with 27%nat in Hroom; lia).
  rewrite Hz. apply wp_bind, wp_fits; [intros _|intros ?; exfalso; lia]. apply wp_modify. cbv zeta.
  assert (Hbp : zlen (cs "/usr/bin/" ++ pkg) < 64) by (rewrite zlen_app; change (zlen (cs "/usr/bin/")) with 9; lia).
  set (bp := cs "/usr/bin/" ++ pkg) in *. clearbody bp.
  apply wp_bind, wp_fits; [intros _|intros ?; exfalso; lia]. apply wp_bind, wp_zoom. simpl.
  eapply wp_mono; [apply wp_create_with; [apply (ok_rfs s Hs)|lia|done]| |done].
  intros ? f Hf. simpl. generalize dependent (kia (p_size (pkg_at i))). intros sb Hsz. wp_run; [|exfalso; lia].
  split; [|done]. by apply (RpkOn _ _ pkg i).
Qed.

Lemma rpk_remove_wp pkg s : rpk_ok s -> wp (rpk_remove pkg) s (rpk_post s) no_fault.
Proof.
  intros Hs. pose proof (rpk_post_same s Hs). unfold rpk_remove. case_bool_decide; [by wp_run|].
  destruct (rpk_find_pkg pkg) as [i|] eqn:Ef; [|by wp_run]. apply wp_bind, wp_get.
  destruct (is_installed s i) eqn:Ei; cbn [negb]; [|by wp_run].
  case_test; [by wp_run|]. apply wp_bind, wp_progress. wp_run.
  split; [|apply (ok_rfs s Hs)]. by apply (RpkOff _ _ pkg i).
Qed.

(** A computation that keeps the state and cannot fault. *)
Definition quiet {T} (m : M T unit) : Prop := forall s (Q : unit -> T -> Prop) E, Q tt s -> wp m s Q E.

Lemma quiet_mapM {T A} (f : A -> M T unit) l : (forall x, quiet (f x)) -> quiet (mapM_ f l).
Proof.
  intros Hf s Q E HQ. eapply wp_mono; [apply (wp_mapM _ _ s (fun s' => s' = s) E)|..]; try done.
  - intros x ? _ ->. by apply Hf.
  - intros [] ? ->. done.
Qed.
Lemma quiet_emit {T} e : quiet (T := T) (emit e).
Proof. intros s Q E HQ. by apply wp_emit. Qed.
Lemma quiet_bind {T} (m : M T unit) k : quiet m -> quiet (k tt) -> quiet (m ≫= k).
Proof. intros Hm Hk s Q E HQ. apply wp_bind. apply Hm. by apply Hk. Qed.

Lemma print_pkg_quiet p : quiet (print_pkg p).
Proof. intros s Q E HQ. unfold print_pkg. by wp_run. Qed.

Lemma zip_filter_len s : rpk_ok s -> zlen (filter (fun x : RpkPkg * bool => x.2 = true) (zip rpk_db (installed s))) <= 27.
Proof.
  intros Hs. unfold zlen. pose proof (length_filter (fun x : RpkPkg * bool => x.2 = true) (zip rpk_db (installed s))).
  rewrite length_zip_with_l_eq in H by (by rewrite (ok_flags s Hs)). change (length rpk_db) with 27%nat in H. lia.
Qed.

Lemma rpk_list_wp s : rpk_ok s -> wp rpk_list s (rpk_post s) no_fault.
Proof.
  intros Hs. pose proof (rpk_post_same s Hs). pose proof (zip_filter_len s Hs). unfold rpk_list. wp_run.
  set (l := filter _ _) in *. clearbody l.
  apply quiet_mapM. { intros x. apply quiet_bind; [apply quiet_emit|apply print_pkg_quiet]. }
  assert (Hk : zlen (kia (zlen l)) <= 2).
  { pose proof (zlen_nonneg l). assert (zlen l = 0 \/ 0 < zlen l) as [->|Hp] by lia; [done|]. unfold kia.
    rewrite (proj2 (Z.eqb_neq _ 0)), (proj2 (Z.ltb_ge _ 0)) by lia. unfold zlen at 1.
    pose proof (digits_loop_length dec_digit 20 2 (zlen l) [] ltac:(change (10 ^ Z.of_nat 2) with 100; lia)) as Hd.
    change (length (@nil Z)) with 0%nat in Hd. lia. }
  generalize dependent (kia (zlen l)). intros sb Hk. wp_run; [done|exfalso; lia].
Qed.

Lemma rpk_roam_wp q s : rpk_ok s -> wp (rpk_roam q) s (rpk_post s) no_fault.
Proof.
  intros Hs. pose proof (rpk_post_same s Hs). unfold rpk_roam.
  generalize (if (cget q 0 =? 112) && (cget q 1 =? 107) then skip_char c_sp (drop 2 q) else q). intros q'. cbv zeta.
  apply wp_bind, wp_emit. apply wp_bind, wp_emit.
  apply wp_bind. assert (Hq : forall m : M rpk unit, quiet m -> forall Q, Q tt s -> wp m s Q no_fault) by (intros m Hm Q; apply Hm).
  apply Hq. { case_bool_decide; intros s' Q E HQ; by wp_run. }
  wp_run. apply quiet_mapM; [|done]. intros x s' Q E HQ. case_test; [by wp_run|].
  apply wp_bind, wp_emit. by apply print_pkg_quiet.
Qed.

Lemma rpk_info_wp pkg s : rpk_ok s -> wp (rpk_info pkg) s (rpk_post s) no_fault.
Proof.
  intros Hs. pose proof (rpk_post_same s Hs). unfold rpk_info. destruct (rpk_find_pkg pkg) as [i|] eqn:Ef; [|by wp_run].
  destruct (pkg_small pkg i Ef) as [_ Hsz]. cbv zeta. generalize dependent (kia (p_size (pkg_at i))). intros sb Hsz.
  wp_run; try done; exfalso; lia.
Qed.

Lemma cmd_rpk_wp args s : rpk_ok s -> wp (cmd_rpk args) s (rpk_post s) no_fault.
Proof.
  intros Hs. pose proof (rpk_post_same s Hs). unfold cmd_rpk. case_bool_decide.
  { unfold rpk_usage. apply wp_bind. unfold in_color. wp_run. apply quiet_mapM; [|done]. intros x. apply quiet_emit. }
  destruct (span_max 31 c_sp args) as [sub p]. cbv zeta.
  repeat (case_test; [first [by apply rpk_install_wp|by apply rpk_remove_wp|by apply rpk_list_wp|by apply rpk_roam_wp
    |by apply rpk_info_wp|by wp_run]|]). by wp_run.
Qed.

(** ** Properties *)

(** The package manager is consistent: no [rpk] command faults, and each one
    keeps the command list equal to the set of installed packages, changing it
    by at most the one package it names; installing a known package makes its
    command available and removing it takes that command away. *)
Theorem rpk_correct args s :
  rpk_ok s -> exists s' out, cmd_rpk args s = Ok tt s' out /\ rpk_ok s' /\ rpk_effect s s'.
Proof.
  intros Hs. pose proof (cmd_rpk_wp args s Hs) as Hwp.
  unfold wp in Hwp. destruct (cmd_rpk args s) as [[] s' out|f s' out]; [|done].
  destruct Hwp as [He Hf]. exists s', out. split; [done|]. split; [by eapply rpk_effect_ok|done].
Qed.

Lemma rpk_correct_witness :
  exists s' out, cmd_rpk (cs "on jq") (rpk_boot fs_sample []) = Ok tt s' out /\ rpk_ok s' /\
    rpk_cmd_installed s' (cs "jq") = true.
Proof.
  destruct (rpk_correct (cs "on jq") (rpk_boot fs_sample [])) as (s' & out & H & Hok & _).
  - apply rpk_boot_ok, fs_sample_ok.
  - exists s', out. split; [exact H|]. split; [exact Hok|]. vm_compute in H. injection H as <- <-. reflexivity.
Defined.

(** Removing a package leaves its file in [/usr/bin]. *)
Lemma removed_binary_stays :
  let s1 := post (cmd_rpk (cs "on jq") (rpk_boot fs_sample [])) in
  let s2 := post (cmd_rpk (cs "remove jq") s1) in
  rpk_cmd_installed s2 (cs "jq") = false /\ mf_content <$> (abs (r_fs s2) !! cs "/usr/bin/jq") = Some (cs "[installed binary]").
Proof. split; vm_compute; reflexivity. Qed.

(** The update message counts 32 packages; the table has 27. *)
Lemma rpk_db_size : length rpk_db = 27%nat.
Proof. reflexivity. Qed.
