(* ===== verification/Polctl.v ===== *)
(** * The log viewer ([shell/polctl.h])

    The boot log, the options of the [polctl] command, the selection and the
    printing of entries.  The state holds the log, which the first call fills,
    and the keys to come. *)

From Stdlib Require Import ZArith Lia.
From stdpp Require Import base numbers list list_numbers strings.
From S2P Require Import Prelude CLib Console ShellEnv ShellCmd.

Record PolLog := Log { priority : Z; unit_ : cstr; msg : cstr }.
Record pol := Pol { pollog : list PolLog; p_keys : list Z }.

Definition pol_add (pri : Z) (u m : cstr) (l : list PolLog) : list PolLog :=
  if 128 <=? zlen l then l else l ++ [Log pri u m].

Definition boot_entries : list (Z * cstr * cstr) :=
  [(6, cs "poing-early.unit", cs "[  0.000] poing: kernel environment setup complete");
   (6, cs "poing-udev.unit", cs "[  0.001] udev-pig: device manager started");
   (6, cs "poing-vga.unit", cs "[  0.002] vga: 80x25 CP437 text mode @ 0xB8000");
   (6, cs "poing-kbd.unit", cs "[  0.003] kbd: PS/2 keyboard initialized");
   (6, cs "poing-mouse.unit", cs "[  0.004] mouse: PS/2 mouse driver loaded");
   (6, cs "poing-mem.unit", cs "[  0.005] mem: 4MB heap @ 0x400000");
   (6, cs "poing-net.unit", cs "[  0.006] net: scanning PCI bus...");
   (6, cs "poing-net.unit", cs "[  0.007] net: RTL8139 found at 00:03.0 [10EC:8139]");
   (4, cs "poing-net.unit", cs "[  0.008] net: RTL8139 no carrier (no cable/bridge)");
   (6, cs "poing-fs.unit", cs "[  0.009] pigfs: mounted at /");
   (6, cs "poing-crypto.unit", cs "[  0.010] pigssl: crypto subsystem ready");
   (6, cs "poing-wm.unit", cs "[  0.011] PigWM: compositor initialized");
   (6, cs "poing-shell.unit", cs "[  0.012] larpshell v5.9.3: tty0 ready");
   (6, cs "poing-log.unit", cs "[  0.013] piglog: system logger started");
   (6, cs "poing-cron.unit", cs "[  0.014] pig-cron: task scheduler ready");
   (4, cs "sshd.unit", cs "[  0.015] sshd: disabled (no network stack)");
   (4, cs "httpd.unit", cs "[  0.016] httpd: disabled (no TCP/IP)");
   (6, cs "kernel", cs "[  0.017] pigOS v1.0 boot complete")].
Definition pollog_init (l : list PolLog) : list PolLog :=
  fold_left (fun l e => pol_add e.1.1 e.1.2 e.2 l) boot_entries l.

Definition pol_pri_color (pri : Z) : Z :=
  if pri <=? 3 then COL C_LRED C_BLACK else if pri =? 4 then COL C_YELLOW C_BLACK
  else if pri =? 6 then COL C_LGREEN C_BLACK else COL C_LGREY C_BLACK.
Definition pol_pri_name (pri : Z) : cstr :=
  if pri =? 0 then cs "EMERG" else if pri =? 1 then cs "ALERT" else if pri =? 2 then cs "CRIT " else if pri =? 3 then cs "ERROR"
  else if pri =? 4 then cs "WARN " else if pri =? 5 then cs "NOTICE" else if pri =? 6 then cs "INFO " else cs "DEBUG".

Definition polctl_print_entry (e : PolLog) : M pol unit :=
  let c := pol_pri_color (priority e) in
  vset C_DGREY C_BLACK ;; vps (cs "-- polOS log -- ") ;;
  emit (EPutCur 91 c) ;;
  vset C_WHITE C_BLACK ;; vps (pol_pri_name (priority e)) ;;
  emit (EPutCur 93 c) ;;
  vpc c_sp ;; vset C_LCYAN C_BLACK ;; vps (unit_ e) ;; vpc c_sp ;; vset C_WHITE C_BLACK ;; vpln (msg e).

(** ** Options *)

Record flags := Flags { filter_pri : Z; last_n : Z; filter_unit : option cstr; follow : bool; list_boots : bool; show_help : bool }.
Definition flags0 : flags := Flags (-1) (-1) None false false false.

(** The option loop; every pass takes a character.  The unit is a pointer into
    the line: the rest of it. *)
Fixpoint parse (fuel : nat) (p : cstr) (fl : flags) : flags :=
  match fuel with
  | O => fl
  | S f =>
      match skip_char c_sp p with
      | [] => fl
      | d :: q =>
          if negb (d =? c_dash) then fl
          else if cget q 0 =? c_dash then
            let r := drop 1 q in
            if strneq r (cs "since") 5 then parse f (skip_until c_sp (drop 5 r)) fl
            else if strneq r (cs "list-boots") 10 then parse f (drop 10 r) (Flags (filter_pri fl) (last_n fl) (filter_unit fl) (follow fl) true (show_help fl))
            else if strneq r (cs "help") 4 then Flags (filter_pri fl) (last_n fl) (filter_unit fl) (follow fl) (list_boots fl) true
            else parse f r fl
          else if cget q 0 =? 102 then parse f (drop 1 q) (Flags (filter_pri fl) (last_n fl) (filter_unit fl) true (list_boots fl) (show_help fl))
          else if cget q 0 =? 110 then
            let '(n, r) := read_int 0 (skip_char c_sp (drop 1 q)) in
            parse f r (Flags (filter_pri fl) n (filter_unit fl) (follow fl) (list_boots fl) (show_help fl))
          else if cget q 0 =? 112 then
            let r := skip_char c_sp (drop 1 q) in
            parse f (skip_until c_sp r) (Flags (cget r 0 - c_0) (last_n fl) (filter_unit fl) (follow fl) (list_boots fl) (show_help fl))
          else if cget q 0 =? 117 then
            let r := skip_char c_sp (drop 1 q) in
            parse f (skip_until c_sp r) (Flags (filter_pri fl) (last_n fl) (Some r) (follow fl) (list_boots fl) (show_help fl))
          else parse f (skip_until c_sp q) fl
      end
  end.

Definition selects (fl : flags) (e : PolLog) : bool :=
  negb ((0 <=? filter_pri fl) && negb (priority e =? filter_pri fl)) &&
  match filter_unit fl with Some u => strneq (unit_ e) u (length u) | None => true end.

Definition help_text : M pol unit :=
  in_color C_LCYAN C_BLACK (vpln (cs "polctl - pigOS system log viewer")) ;;
  mapM_ (fun l : cstr => vpln l)
    [cs "Usage: polctl [OPTIONS]"; cs "  (no flags)     - show all log entries"; cs "  -f             - follow log (press q to stop)";
     cs "  -n <N>         - show last N entries"; cs "  -p <0-7>       - filter by priority (3=error 4=warn 6=info)";
     cs "  -u <unit>      - filter by unit name"; cs "  --since <time> - show entries since time"; cs "  --list-boots   - list boot sessions";
     cs "  --help         - show this help"; cs "Priority: 0=emerg 1=alert 2=crit 3=error 4=warn 5=notice 6=info 7=debug"].

Definition print_log (fl : flags) : M pol unit :=
  in_color C_DGREY C_BLACK (vpln (cs "-- polOS System Log (polctl) -- pigOS poing init system --")) ;;
  s ← get;
  let n := zlen (pollog s) in
  let start := if (0 <? last_n fl) && (last_n fl <? n) then n - last_n fl else 0 in
  mapM_ (fun e => if selects fl e then polctl_print_entry e else mret tt) (drop (Z.to_nat start) (pollog s)).

Definition cmd_polctl (args : cstr) : M pol unit :=
  modify (fun s => if zlen (pollog s) =? 0 then Pol (pollog_init (pollog s)) (p_keys s) else s) ;;
  let fl := parse (S (length args)) args flags0 in
  if show_help fl then help_text
  else if list_boots fl then
    vset C_LCYAN C_BLACK ;; vpln (cs "IDX BOOT_ID              FIRST ENTRY          LAST ENTRY") ;;
    vrst ;; vpln (cs " -1 [current boot]       1970-01-01 00:00     1970-01-01 00:00")
  else
    print_log fl ;;
    if follow fl then
      in_color C_DGREY C_BLACK (vpln (cs "-- polctl: following (press q to stop) --")) ;;
      s ← get;
      match wait_key (fun c => (c =? 113) || (c =? c_esc)) (p_keys s) with
      | None => fail Blocked
      | Some ks => modify (fun s => Pol (pollog s) ks)
      end
    else mret tt.

(** ** The option loop ends *)

Lemma skip_char_length c s : (length (skip_char c s) <= length s)%nat.
Proof. induction s as [|x s IH]; cbn [skip_char]; [lia|]. destruct (x =? c); cbn [length]; lia. Qed.
Lemma skip_until_length c s : (length (skip_until c s) <= length s)%nat.
Proof.
  unfold skip_until. induction s as [|x s IH]; cbn [span_until]; [done|]. destruct (x =? c); [done|]. destruct (span_until c s) as [t r]. cbn [snd length] in *. lia.
Qed.
Lemma read_int_length s : forall a, (length (read_int a s).2 <= length s)%nat.
Proof. induction s as [|c s IH]; intros a; cbn [read_int]; [done|]. destruct (is_digit c); [|done]. specialize (IH (i32 (a * 10 + (c - c_0)))). cbn [length]. lia. Qed.

(** More passes than characters change nothing: the loop has ended. *)
Lemma parse_ends : forall f g p fl, (length p < f)%nat -> (length p < g)%nat -> parse f p fl = parse g p fl.
Proof.
  induction f as [|f IH]; intros [|g] p fl Hf Hg; try lia. cbn [parse]. pose proof (skip_char_length c_sp p) as Hs. destruct (skip_char c_sp p) as [|d q]; [done|]. cbn [length] in Hs.
  pose proof (skip_char_length c_sp (drop 1 q)) as H1. pose proof (skip_until_length c_sp (skip_char c_sp (drop 1 q))) as H2. pose proof (skip_until_length c_sp q) as H3.
  pose proof (skip_until_length c_sp (drop 5 (drop 1 q))) as H4. pose proof (read_int_length (skip_char c_sp (drop 1 q)) 0) as H5.
  destruct (read_int 0 _) as [n r]. cbn [snd] in H5. rewrite ?length_drop in *.
  repeat case_test; try done; cbv zeta; repeat case_test; try done; apply IH; rewrite ?length_drop; lia.
Qed.

(** ** What a line of options selects *)

Inductive opt := Last (n : Z) | Pri (d : Z).
Definition show_opt (o : opt) : cstr := match o with Last n => cs "-n " ++ kia n | Pri d => cs "-p " ++ [c_0 + d] end.
Definition opt_ok (o : opt) : Prop := match o with Last n => 0 <= n < 2^31 | Pri d => 0 <= d <= 9 end.
Definition args (os : list opt) (u : option cstr) : cstr :=
  concat (map (fun o => show_opt o ++ [c_sp]) os) ++ match u with Some w => cs "-u " ++ w | None => [] end.
Definition apply_opt (fl : flags) (o : opt) : flags :=
  match o with
  | Last n => Flags (filter_pri fl) n (filter_unit fl) (follow fl) (list_boots fl) (show_help fl)
  | Pri d => Flags d (last_n fl) (filter_unit fl) (follow fl) (list_boots fl) (show_help fl)
  end.

Lemma parse_blank f p fl : parse f (c_sp :: p) fl = parse f p fl.
Proof. by destruct f. Qed.

Lemma parse_opt f o rest fl : opt_ok o -> parse (S f) (show_opt o ++ c_sp :: rest) fl = parse f rest (apply_opt fl o).
Proof.
  intros Ho. destruct o as [n|d]; cbn in Ho.
  - change (show_opt (Last n) ++ c_sp :: rest) with (c_dash :: 110 :: c_sp :: kia n ++ c_sp :: rest) || (unfold show_opt; rewrite <- app_assoc; cbn [app]).
    cbn [parse skip_char]. change (c_dash =? c_sp) with false. change (c_dash =? c_dash) with true. cbn [negb]. change (cget (110 :: c_sp :: kia n ++ c_sp :: rest) 0) with 110.
    change (110 =? c_dash) with false. change (110 =? 102) with false. change (110 =? 110) with true. cbn iota. cbn [drop skip_char]. change (c_sp =? c_sp) with true. cbn iota.
    rewrite skip_char_kia by lia. rewrite read_int_0, read_digits_kia by (change (10 ^ 20) with 100000000000000000000; lia). rewrite read_digits_stop by reflexivity. cbn [fst snd].
    rewrite i32_id by lia. apply parse_blank.
  - unfold show_opt. change ((cs "-p " ++ [c_0 + d]) ++ c_sp :: rest) with (c_dash :: 112 :: c_sp :: (c_0 + d) :: c_sp :: rest).
    cbn [parse skip_char]. change (c_dash =? c_sp) with false. change (c_dash =? c_dash) with true. cbn [negb]. change (cget (112 :: c_sp :: c_0 + d :: c_sp :: rest) 0) with 112.
    change (112 =? c_dash) with false. change (112 =? 102) with false. change (112 =? 110) with false. change (112 =? 112) with true. cbn iota zeta. cbn [drop skip_char]. change (c_sp =? c_sp) with true. cbn iota.
    replace (c_0 + d =? c_sp) with false by lia. change (cget (c_0 + d :: c_sp :: rest) 0) with (c_0 + d). unfold skip_until. cbn [span_until].
    replace (c_0 + d =? c_sp) with false by lia. change (c_sp =? c_sp) with true. cbn [snd]. rewrite parse_blank. unfold apply_opt. do 2 f_equal. lia.
Qed.

Definition unit_ok (u : cstr) : Prop := u <> [] /\ Forall (fun c => c <> c_sp) u.
Lemma parse_unit f w fl : unit_ok w -> parse (S (S f)) (cs "-u " ++ w) fl = Flags (filter_pri fl) (last_n fl) (Some w) (follow fl) (list_boots fl) (show_help fl).
Proof.
  intros [Hne Hw]. change (cs "-u " ++ w) with (c_dash :: 117 :: c_sp :: w). cbn [parse skip_char]. change (c_dash =? c_sp) with false. change (c_dash =? c_dash) with true. cbn [negb].
  change (cget (117 :: c_sp :: w) 0) with 117. change (117 =? c_dash) with false. change (117 =? 102) with false. change (117 =? 110) with false. change (117 =? 112) with false. change (117 =? 117) with true.
  cbn iota zeta. cbn [drop skip_char]. change (c_sp =? c_sp) with true. cbn iota.
  assert (E : skip_char c_sp w = w) by (destruct w as [|c w]; [done|]; cbn; apply Forall_cons_1 in Hw as [Hc _]; by rewrite (proj2 (Z.eqb_neq _ _))). rewrite E.
  assert (E2 : skip_until c_sp w = []).
  { unfold skip_until. clear Hne E. induction w as [|c w IH]; [done|]. apply Forall_cons_1 in Hw as [Hc Hw]. cbn. rewrite (proj2 (Z.eqb_neq _ _)) by done. specialize (IH Hw). by destruct (span_until c_sp w). }
  rewrite E2. by destruct f.
Qed.

Lemma parse_args os u : forall f fl, Forall opt_ok os -> match u with Some w => unit_ok w | None => True end -> (length (args os u) < f)%nat ->
  parse f (args os u) fl = let fl := fold_left apply_opt os fl in
    match u with Some w => Flags (filter_pri fl) (last_n fl) (Some w) (follow fl) (list_boots fl) (show_help fl) | None => fl end.
Proof.
  induction os as [|o os IH]; intros f fl Ho Hu Hf.
  - unfold args in *. cbn [map concat app] in *. destruct u as [w|]; [|by destruct f]. destruct f as [|[|f]]; [lia|rewrite length_app in Hf; cbn in Hf; lia|]. by apply parse_unit.
  - apply Forall_cons_1 in Ho as [Ho Hos]. assert (Ea : args (o :: os) u = show_opt o ++ c_sp :: args os u) by (unfold args; cbn [map concat]; by rewrite <- !app_assoc).
    rewrite Ea in *. rewrite length_app in Hf. cbn [length] in Hf. destruct f as [|f]; [lia|]. rewrite parse_opt by done. rewrite IH by (done || lia). done.
Qed.

(** The entries a user asks for: the last [n], of priority [d], of units whose
    name starts with [u]; of an option given twice the second counts. *)
Definition lasts (os : list opt) : option Z := last (omap (fun o => match o with Last n => Some n | Pri _ => None end) os).
Definition pris (os : list opt) : option Z := last (omap (fun o => match o with Pri d => Some d | Last _ => None end) os).
Definition wanted (os : list opt) (u : option cstr) (e : PolLog) : bool :=
  match pris os with Some d => priority e =? d | None => true end && match u with Some w => bool_decide (w `prefix_of` unit_ e) | None => true end.
Definition selected (os : list opt) (u : option cstr) (l : list PolLog) : list PolLog :=
  List.filter (wanted os u) (match lasts os with Some n => if n =? 0 then l else drop (length l - Z.to_nat n) l | None => l end).

Lemma fold_opts os fl : Forall opt_ok os -> let r := fold_left apply_opt os fl in
  filter_pri r = default (filter_pri fl) (pris os) /\ last_n r = default (last_n fl) (lasts os) /\
  filter_unit r = filter_unit fl /\ follow r = follow fl /\ list_boots r = list_boots fl /\ show_help r = show_help fl.
Proof.
  induction os as [|o os IH] using rev_ind; intros Ho; [done|]. apply Forall_app in Ho as [Ho Ho1]. specialize (IH Ho). cbv zeta in *. rewrite fold_left_app. cbn [fold_left].
  destruct IH as (E1 & E2 & E3 & E4 & E5 & E6). unfold pris, lasts in *. rewrite !omap_app. destruct o; cbn; rewrite ?last_snoc, ?app_nil_r; split_and!; done.
Qed.

Definition entry_events (e : PolLog) : list cev := output (polctl_print_entry e (Pol [] [])).
Lemma print_entry_run e s : polctl_print_entry e s = Ok tt s (entry_events e).
Proof. reflexivity. Qed.
Lemma print_entries_run fl l s : mapM_ (fun e => if selects fl e then polctl_print_entry e else mret tt) l s = Ok tt s (concat (map entry_events (List.filter (selects fl) l))).
Proof.
  induction l as [|e l IH]; [done|]. cbn [mapM_ List.filter]. destruct (selects fl e); [|rewrite (bind_silent (mret tt) _ s tt s) by done; exact IH].
  rewrite (bind_ok _ _ s tt s _ (print_entry_run e s)), IH. done.
Qed.

Lemma omap_ok {B} (f : opt -> option B) (P : B -> Prop) os b : (forall o c, opt_ok o -> f o = Some c -> P c) -> Forall opt_ok os -> last (omap f os) = Some b -> P b.
Proof.
  intros Hf Ho Hl. apply last_Some in Hl as [l' Hl]. assert (Hin : b ∈ omap f os) by (rewrite Hl; apply elem_of_app; right; left).
  apply list_elem_of_omap in Hin as (o & Hin & E). rewrite Forall_forall in Ho. by apply (Hf o); [apply Ho|].
Qed.

Definition header_events : list cev := [ESet C_DGREY C_BLACK; EPln (cs "-- polOS System Log (polctl) -- pigOS poing init system --"); ERst].

(** C34: What the log viewer shows.  For every line of options [-n N] (N from 0),
    [-p] (a digit) and a final [-u] (a unit without spaces), the last [-n] and the
    last [-p] counting, the command returns and prints the header and then exactly
    the entries of the given priority whose unit starts with the given name, among
    the last N entries, in the order of the log; the boot log is filled in by the
    first call and not changed by later ones.  [-n 0] differs from what the help
    says ([last_zero_shows_all]): it stands for no limit, and all entries are
    looked at. *)
Theorem polctl_shows_selected os u l ks : Forall opt_ok os -> match u with Some w => unit_ok w | None => True end ->
  let l' := match l with [] => pollog_init [] | _ => l end in
  cmd_polctl (args os u) (Pol l ks) = Ok tt (Pol l' ks) (header_events ++ concat (map entry_events (selected os u l'))).
Proof.
  intros Ho Hu l'. unfold cmd_polctl. rewrite (bind_silent (modify _) _ (Pol l ks) tt (Pol l' ks)) by (unfold l', modify; by destruct l).
  cbv zeta. rewrite (parse_args os u) by (done || lia). cbv zeta. destruct (fold_opts os flags0 Ho) as (E1 & E2 & E3 & E4 & E5 & E6). cbv zeta in *. set (r := fold_left apply_opt os flags0) in *.
  set (fl := match u with Some w => _ | None => _ end).
  assert (F1 : filter_pri fl = default (-1) (pris os)) by (unfold fl; destruct u; cbn; by rewrite E1). assert (F2 : last_n fl = default (-1) (lasts os)) by (unfold fl; destruct u; cbn; by rewrite E2).
  assert (F3 : filter_unit fl = u) by (unfold fl; destruct u; cbn; [done|by rewrite E3]). assert (F4 : follow fl = false) by (unfold fl; destruct u; cbn; by rewrite E4).
  assert (F5 : list_boots fl = false) by (unfold fl; destruct u; cbn; by rewrite E5). assert (F6 : show_help fl = false) by (unfold fl; destruct u; cbn; by rewrite E6).
  rewrite F4, F5, F6. assert (Hsel : List.filter (selects fl) (drop (Z.to_nat (if (0 <? last_n fl) && (last_n fl <? zlen l') then zlen l' - last_n fl else 0)) l') = selected os u l').
  { unfold selected. rewrite (List.filter_ext (selects fl) (wanted os u)).
    - f_equal. rewrite F2. destruct (lasts os) as [n|] eqn:En; [|done]. change (default (-1) (Some n)) with n.
      assert (Hn : 0 <= n) by (revert En; apply (omap_ok _ (fun n => 0 <= n)); [|done]; intros [m|d] c Hm Hc; cbn in Hm; simplify_eq; lia).
      destruct (n =? 0) eqn:E0; [apply Z.eqb_eq in E0; by subst n|]. apply Z.eqb_neq in E0. unfold zlen. case_test; f_equal; lia.
    - intros e. unfold selects, wanted. rewrite F1, F3. f_equal.
      + destruct (pris os) as [d|] eqn:Ed; [|done]. change (default (-1) (Some d)) with d.
        assert (Hd : 0 <= d) by (revert Ed; apply (omap_ok _ (fun n => 0 <= n)); [|done]; intros [m|d'] c Hm Hc; cbn in Hm; simplify_eq; lia).
        rewrite (proj2 (Z.leb_le 0 d)) by done. cbn [andb]. apply negb_involutive.
      + destruct u as [w|]; [|done]. apply eq_bool_prop_intro. rewrite !Is_true_true, bool_decide_eq_true. apply strneq_prefix. }
  unfold print_log. erewrite (bind_ok _ _ (Pol l' ks) tt (Pol l' ks) (header_events ++ _)).
  2:{ erewrite (bind_ok _ _ (Pol l' ks) tt (Pol l' ks) header_events) by reflexivity. rewrite (bind_silent get _ (Pol l' ks) (Pol l' ks) (Pol l' ks)) by done. cbv zeta. cbn [pollog]. rewrite print_entries_run, Hsel. reflexivity. }
  cbn. by rewrite app_nil_r.
Qed.

Lemma polctl_shows_selected_witness :
  cmd_polctl (args [Last 10; Pri 4] (Some (cs "sshd"))) (Pol [] []) =
  Ok tt (Pol (pollog_init []) []) (header_events ++ concat (map entry_events (selected [Last 10; Pri 4] (Some (cs "sshd")) (pollog_init [])))).
Proof.
  apply (polctl_shows_selected [Last 10; Pri 4] (Some (cs "sshd")) [] []).
  - repeat (apply Forall_cons_2; [cbn; lia|]). apply Forall_nil_2.
  - split; [done|]. repeat (apply Forall_cons_2; [cbn; lia|]). apply Forall_nil_2.
Defined.
Example ssh_warning : map msg (selected [Last 10; Pri 4] (Some (cs "sshd")) (pollog_init [])) = [cs "[  0.015] sshd: disabled (no network stack)"].
Proof. reflexivity. Qed.
(** [piglog] is [polctl -n 20]. *)
Example piglog_line : args [Last 20] None = cs "-n 20 ".
Proof. reflexivity. Qed.

(** ** What the viewer gets wrong *)

Definition shown_by (line : cstr) : list cev := output (cmd_polctl line (Pol [] [])).
(** The unit is compared with the rest of the line, so an option after it hides
    every entry. *)
Lemma unit_takes_rest : shown_by (cs "-u kernel") <> header_events /\ shown_by (cs "-u kernel -n 5") = header_events.
Proof. split; [vm_compute; discriminate|vm_compute; reflexivity]. Qed.

(** The time of [--since] ends the options: it is not used, and what follows is
    ignored. *)
Lemma since_ends_options : shown_by (cs "--since 5 -p 4") = shown_by [] /\ shown_by (cs "-p 4") <> shown_by [].
Proof. split; [vm_compute; reflexivity|vm_compute; discriminate]. Qed.

(** The help promises the last N entries; the last 0 entries are all of them. *)
Lemma last_zero_shows_all : shown_by (cs "-n 0 ") = shown_by [] /\ zlen (shown_by (cs "-n 1 ")) < zlen (shown_by (cs "-n 0 ")).
Proof. split; vm_compute; reflexivity. Qed.
