(* ===== verification/NetCmd.v ===== *)
(** * The network commands ([shell/netpg.h], the network branches of [shell/shell.h])

    [netpg], [ip]/[ifconfig], [ping], [dhcpcd], [wget] and the boot messages, over
    the network layer of [Net.v].  [ifconfig] of [network.h] is another function. *)

From Stdlib Require Import ZArith Lia.
From stdpp Require Import base numbers list list_numbers strings.
From S2P Require Import Prelude CLib Console Rtl Net ShellEnv.

Section NetCmd.
Context {W : Type} `{Nic W} `{Lwip W}.

(** ** netpg *)

Definition netpg_status : M (net W) unit :=
  in_color C_LCYAN C_BLACK (vpln (cs "netpg v1.0 - pigOS Network Manager")) ;;
  vpln (cs "--------------------------------") ;;
  in_color C_LGREEN C_BLACK (vps (cs "lo        ")) ;; vpln (cs "LOOPBACK  UP   127.0.0.1/8") ;;
  s ← get;
  if net_ok s then
    in_color C_LGREEN C_BLACK (vps (cs "eth0      ")) ;; vps (cs "RTL8139   UP   ") ;; net_print_ip (net_my_ip s) ;;
    vps (cs "  HW:") ;; vps (cs "XX:XX:XX:XX:XX:XX")
  else in_color C_YELLOW C_BLACK (vps (cs "eth0      ")) ;; vpln (cs "RTL8139   DOWN  [no carrier]").

(** The two words of the line, at most 31 characters each. *)
Definition netpg_words (a : cstr) : cstr * cstr :=
  let '(sub, p) := span_max 31 c_sp a in (sub, (span_max 31 c_sp (skip_char c_sp p)).1).

Definition netpg_dhcp : M (net W) unit :=
  vps (cs "netpg: DHCP discover on eth0... ") ;;
  s ← get;
  if negb (net_hw_ok s) then
    vset C_LRED C_BLACK ;; vps (cs "FAILED: no ") ;; vps (nic_name (nic s)) ;; vpln (cs " detected") ;;
    vpln (cs "  Tip: qemu ... -net nic,model=rtl8139|e1000 -net user") ;; vrst
  else
    ok ← do_dhcp;
    if ok : bool then
      vset C_LGREEN C_BLACK ;; vps (cs "OK  IP: ") ;; s ← get; net_print_ip (net_my_ip s) ;;
      vps (cs "  GW: ") ;; net_print_ip (net_gw_ip s) ;; vps (cs "  Mask: ") ;; net_print_ip (net_mask s) ;; vpc c_nl ;; vrst
    else vset C_LRED C_BLACK ;; vpln (cs "FAILED: no DHCP offer") ;; vrst.

Definition netpg_help : list cstr :=
  [cs "netpg commands:"; cs "  (none)     - show interface status"; cs "  status     - show all interfaces"; cs "  up <if>    - bring up interface";
   cs "  down <if>  - bring down interface"; cs "  ip <addr>  - set/show IP address"; cs "  dhcp       - request DHCP";
   cs "  dns        - show DNS servers"; cs "  scan       - scan interfaces"].

Definition or_eth0 (iface : cstr) : cstr := if bool_decide (iface = []) then cs "eth0" else iface.

Definition cmd_netpg (a : cstr) : M (net W) unit :=
  if bool_decide (a = []) then netpg_status
  else
    let '(sub, iface) := netpg_words a in
    if streq sub (cs "status") then netpg_status
    else if streq sub (cs "up") then
      vps (cs "netpg: bringing up ") ;; vpln (or_eth0 iface) ;;
      s ← get;
      if negb (net_ok s) then vpln (cs "  [no carrier - start QEMU with: -net nic,model=rtl8139 -net user]") else vpln (cs "  [up]")
    else if streq sub (cs "down") then vps (cs "netpg: bringing down ") ;; vpln (or_eth0 iface)
    else if streq sub (cs "ip") then
      if bool_decide (iface = []) then vps (cs "eth0: ") ;; s ← get; net_print_ip (net_my_ip s) ;; vpc c_nl
      else vps (cs "netpg: eth0 ip set to ") ;; vpln iface
    else if streq sub (cs "dhcp") then netpg_dhcp
    else if streq sub (cs "dns") then vpln (cs "nameserver 8.8.8.8") ;; vpln (cs "nameserver 8.8.4.4")
    else if streq sub (cs "scan") then vpln (cs "netpg: scanning...") ;; vpln (cs "  lo    loopback") ;; vpln (cs "  eth0  RTL8139 PCI 00:03.0")
    else if streq sub (cs "help") then mapM_ (fun l : cstr => vpln l) netpg_help
    else vps (cs "netpg: unknown command: ") ;; vpln sub ;; vpln (cs "Try: netpg help").

(** ** ip and ifconfig *)

Definition ifn (s : net W) : cstr := if bool_decide (netif_name s = []) then cs "eth0" else netif_name s.

Definition ip_show : M (net W) unit :=
  in_color C_LCYAN C_BLACK (vpln (cs "1: lo: <LOOPBACK,UP> mtu 65536")) ;;
  vpln (cs "    inet 127.0.0.1/8 scope host lo") ;;
  s ← get;
  if net_ok s then
    vset C_LCYAN C_BLACK ;; vps (cs "2: ") ;; vps (ifn s) ;; vpln (cs ": <BROADCAST,MULTICAST,UP,LOWER_UP> mtu 1500") ;; vrst ;;
    vps (cs "    inet ") ;; net_print_ip (net_my_ip s) ;; vps (cs "/24 brd 10.0.2.255 scope global ") ;; vpln (ifn s) ;;
    vps (cs "    RX packets: ") ;; vps (kia (i32 (rx_count (drv s)))) ;; vps (cs " TX packets: ") ;; vpln (kia (i32 (tx_count (drv s))))
  else
    vset C_YELLOW C_BLACK ;; vps (cs "2: ") ;; vps (ifn s) ;; vpln (cs ": <BROADCAST,MULTICAST> mtu 1500 state DOWN") ;; vrst ;;
    vps (cs "    Tip: ip link set ") ;; vps (ifn s) ;; vpln (cs " up  OR  dhcpcd ") ;; vpln (ifn s).

(** The branch of [link set]: the words after it. *)
Definition ip_link_set (p : cstr) : M (net W) unit :=
  s ← get;
  let '(iface, q) := span_max 31 c_sp (skip_char c_sp (drop 8 p)) in
  let action := (span_max 15 c_sp (skip_char c_sp q)).1 in
  if negb (streq iface (ifn s)) && negb (streq iface (cs "eth0")) then
    vps (cs "ip: interface '") ;; vps iface ;; vps (cs "' not found (detected: ") ;; vps (ifn s) ;; vpln (cs ")")
  else if streq action (cs "up") then
    vps (ifn s) ;; vpln (cs ": bringing interface up...") ;;
    ok ← eth0_up;
    if ok : bool then vset C_LGREEN C_BLACK ;; vps (ifn s) ;; vps (cs ": UP - 10.0.2.15/24 gw 10.0.2.2") ;; vrst
    else vset C_LRED C_BLACK ;; vps (ifn s) ;; vpln (cs ": FAILED - no hardware detected") ;; vrst
  else if streq action (cs "down") then eth0_down ;; vps (ifn s) ;; vpln (cs ": DOWN")
  else vps (cs "ip: unknown action: ") ;; vpln action.

Definition cmd_ip (a : cstr) : M (net W) unit :=
  s ← get;
  if bool_decide (a = []) then
    in_color C_LCYAN C_BLACK (vpln (cs "lo:")) ;; vpln (cs "  inet 127.0.0.1  netmask 255.0.0.0") ;;
    if net_ok s then in_color C_LCYAN C_BLACK (vps (ifn s)) ;; vps (cs ":  inet ") ;; net_print_ip (net_my_ip s) ;; vpln (cs "  UP")
    else vset C_YELLOW C_BLACK ;; vps (ifn s) ;; vpln (cs ": DOWN [no carrier]") ;; vps (cs "  Fix: ip link set ") ;; vps (ifn s) ;;
         vpln (cs " up  OR  dhcpcd ") ;; vpln (ifn s) ;; vrst
  else
    let p := skip_char c_sp a in
    if streq p (cs "link") || streq p (cs "addr") then ip_show
    else if streq p (cs "link set") then ip_link_set p
    else mret tt.

(** ** ping, wget, dhcpcd, dmesg *)

Definition ping_args (a : cstr) : cstr * Z :=
  let '(host, count) :=
    if (cget a 0 =? c_dash) && (cget a 1 =? 99) then
      let r := skip_char c_sp (drop 2 a) in
      if is_digit (cget r 0) then let '(n, r) := read_int 0 r in (skip_char c_sp r, n) else (a, 4)
    else (a, 4) in
  (host, if count =? 0 then 4 else count).
Definition cmd_ping (a : cstr) : M (net W) unit :=
  if bool_decide (a = []) then vpln (cs "usage: ping [-c count] <host>")
  else let '(host, count) := ping_args a in do_ping_count host count.

Definition cmd_wget (a : cstr) : M (net W) unit :=
  s ← get;
  if negb (net_ok s) then vset C_LRED C_BLACK ;; vpln (cs "no network carrier. Fix: -net nic,model=rtl8139 -net user") ;; vrst
  else _ ← tcp_wget a; mret tt.

Definition detected (s : net W) : cstr := if bool_decide (netif_name s = []) then cs "none" else netif_name s.
Definition cmd_dhcpcd (a : cstr) : M (net W) unit :=
  s ← get;
  let name := netif_name s in
  let iface := skip_char c_sp a in
  let say (t : cstr) := vps (cs "dhcpcd[1001]: ") ;; vps name ;; vpln t in
  if bool_decide (a = []) then
    vpln (cs "usage: dhcpcd <interface>") ;; vps (cs "  Detected: ") ;; vpln (detected s) ;; vpln (cs "  Example: dhcpcd enp0s3")
  else if negb (negb (bool_decide (name = [])) && streq iface name) && negb (streq iface (cs "eth0")) then
    vset C_LRED C_BLACK ;; vps (cs "dhcpcd: interface '") ;; vps iface ;; vpln (cs "' not found") ;;
    vps (cs "  Detected interface: ") ;; vpln (detected s) ;; vrst
  else
    vps (cs "dhcpcd[") ;; vps (kia 1001) ;; vps (cs "]: ") ;; vps name ;; vpln (cs ": starting DHCP client") ;;
    say (cs ": sending DHCP DISCOVER") ;;
    ok ← do_dhcp;
    if ok : bool then
      say (cs ": leased 10.0.2.15 for 86400 seconds") ;; say (cs ": adding route to 10.0.2.0/24") ;;
      say (cs ": adding default route via 10.0.2.2") ;; say (cs ": writing resolv.conf to /etc/resolv.conf") ;;
      vset C_LGREEN C_BLACK ;; say (cs ": carrier acquired") ;; vrst
    else vset C_LRED C_BLACK ;; say (cs ": DHCP failed - no hardware?") ;; vrst.

Definition cmd_pigfetch_dmesg : M (net W) unit :=
  vset C_LGREEN C_BLACK ;;
  mapM_ (fun l : cstr => vpln l)
    [cs "[  0.000] POUG: multiboot loaded pigKernel"; cs "[  0.001] pigKernel 1.0 x86_64 Long Mode"; cs "[  0.002] VGA: 80x25 CP437 @ 0xB8000";
     cs "[  0.003] PS/2: keyboard + mouse initialized"; cs "[  0.004] PCI: RTL8139 found at 00:03.0"] ;;
  s ← get;
  (if negb (net_ok s) then vset C_YELLOW C_BLACK ;; vpln (cs "[  0.005] WARN: RTL8139 no carrier") else mret tt) ;;
  vset C_LGREEN C_BLACK ;; vpln (cs "[  0.006] poing: 13 units started") ;; vpln (cs "[  0.007] larpshell: tty0 ready").

(** ** Properties *)

(** [ping -c N host] asks for [N] packets to [host]. *)
Theorem ping_line n host : 0 < n < 2^31 -> no_digit_first host -> cget host 0 <> c_sp ->
  cmd_ping (cs "-c " ++ kia n ++ c_sp :: host) = do_ping_count host n.
Proof.
  intros Hn Hd Hs. assert (Ek : exists c ds, kia n = c :: ds /\ is_digit c = true).
  { destruct (kia_digits n) as (c & ds & E & Hf & _); [change (10 ^ 20) with 100000000000000000000; lia|]. exists c, ds. split; [done|]. by apply Forall_cons_1 in Hf as [? _]. }
  unfold cmd_ping. rewrite bool_decide_eq_false_2 by done. unfold ping_args. change (cget (cs "-c " ++ kia n ++ c_sp :: host) 0) with c_dash. change (cget (cs "-c " ++ kia n ++ c_sp :: host) 1) with 99.
  change ((c_dash =? c_dash) && (99 =? 99)) with true. cbv iota zeta. change (drop 2 (cs "-c " ++ kia n ++ c_sp :: host)) with (c_sp :: kia n ++ c_sp :: host). cbn [skip_char].
  change (c_sp =? c_sp) with true. cbv iota. rewrite skip_char_kia by lia. replace (is_digit (cget (kia n ++ c_sp :: host) 0)) with true by (destruct Ek as (c & ds & -> & Hc); by rewrite <- Hc).
  rewrite read_int_0, read_digits_kia by (change (10 ^ 20) with 100000000000000000000; lia). rewrite read_digits_stop by reflexivity. cbn [fst snd skip_char]. change (c_sp =? c_sp) with true. cbv iota.
  rewrite i32_id, (proj2 (Z.eqb_neq n 0)) by lia. f_equal. destruct host as [|h host]; [done|]. cbn in *. by rewrite (proj2 (Z.eqb_neq h c_sp)).
Qed.

Definition still {A} (m : M (net W) A) : Prop := forall s, exists a o, m s = Ok a s o.
Lemma still_emit e : still (emit e).
Proof. intros s. by eexists _, _. Qed.
Lemma still_bind {A B} (m : M (net W) A) (k : A -> M (net W) B) : still m -> (forall a, still (k a)) -> still (m ≫= k).
Proof. intros Hm Hk s. destruct (Hm s) as (a & o & E). destruct (Hk a s) as (b & o' & E'). rewrite (bind_ok _ _ s a s o E), E'. by eexists _, _. Qed.
Lemma still_get : still get.
Proof. intros s. by eexists _, _. Qed.
Lemma still_ret {A} (a : A) : still (mret a).
Proof. intros s. by eexists _, _. Qed.
Lemma still_lines l : still (mapM_ (fun x : cstr => vpln x) l).
Proof. induction l as [|x l IH]; [apply still_ret|]. apply still_bind; [apply still_emit|done]. Qed.
Lemma still_ip ip : still (net_print_ip ip).
Proof. unfold net_print_ip. repeat (apply still_bind; [apply still_emit|intros _]). apply still_emit. Qed.
Ltac still := repeat first [apply still_get | apply still_ret | apply still_lines | apply still_ip | apply still_bind; [|intros ?] | lazymatch goal with |- still (if ?b then _ else _) => destruct b | |- still (let '(_, _) := ?p in _) => destruct p end | apply still_emit].

(** Of all lines of [netpg] only those with the subcommand [dhcp] change the
    network: [up], [down] and [ip] with an address only print. *)
Theorem netpg_only_dhcp_acts a s : (netpg_words a).1 <> cs "dhcp" -> exists o, cmd_netpg a s = Ok tt s o.
Proof.
  intros Hd. assert (Hq : still (cmd_netpg a)).
  { unfold cmd_netpg. destruct (bool_decide (a = [])); [unfold netpg_status, in_color; still|]. destruct (netpg_words a) as [sub iface]. cbn [fst] in Hd.
    assert (E : streq sub (cs "dhcp") = false) by (unfold streq; by apply bool_decide_eq_false_2). rewrite E. unfold netpg_status, in_color. still. }
  destruct (Hq s) as ([] & o & E). eauto.
Qed.

(** The words after [link set] are never read: the whole line is compared with
    the two words, so the documented command does nothing. *)
Theorem ip_link_set_is_ignored rest s : rest <> [] -> cmd_ip (cs "link set" ++ rest) s = Ok tt s [].
Proof.
  intros Hr. unfold cmd_ip. rewrite (bind_silent get _ s s s) by done. rewrite bool_decide_eq_false_2 by done. cbv zeta.
  change (skip_char c_sp (cs "link set" ++ rest)) with (cs "link set" ++ rest). unfold streq. rewrite !bool_decide_eq_false_2; [done| | |]; try done.
  intros E. apply (f_equal length) in E. rewrite length_app in E. destruct rest; [done|]. cbn in E. lia.
Qed.
End NetCmd.
