(* ===== verification/Desktop.v ===== *)
(** * The desktop: the [wm] command of [shell/shell.h]

    A login screen over the accounts, then a desktop with a terminal that runs
    shell lines through [rec] (the dispatcher), a file list and a power menu.
    Loops that wait for keys take the number of keys left as fuel: every pass
    reads at least one. *)

From Stdlib Require Import ZArith Lia.
From stdpp Require Import base numbers list strings gmap.
From S2P Require Import Prelude CLib Console PigFs Ps2 Users ShellEnv ShellCmd.

Notation CH_TL := 0xC9 (only parsing).
Notation CH_TR := 0xBB (only parsing).
Notation CH_BL := 0xC8 (only parsing).
Notation CH_BR := 0xBC (only parsing).
Notation CH_ML := 0xCC (only parsing).
Notation CH_MR := 0xB9 (only parsing).
Notation CH_SBL := 0xC0 (only parsing).
Notation CH_SBR := 0xD9 (only parsing).
Notation CH_SH := 0xC4 (only parsing).
Notation CH_SV := 0xB3 (only parsing).

(** [for(i=lo;i<hi;i++) draw(i)] *)
Definition span (lo hi : Z) (f : Z -> M sh unit) : M sh unit := mapM_ f (seqZ lo (hi - lo)).

Definition bx : Z := 18.
Definition by_ : Z := 5.
Definition bw : Z := 44.
Definition bh : Z := 15.

Definition draw_login : M sh unit :=
  vclear ;; emit ECursorOff ;;
  span 0 25 (fun y => vfill 0 y 80 1 c_sp (COL C_WHITE C_BLUE)) ;;
  vfill bx by_ bw bh c_sp (COL C_WHITE C_BLACK) ;;
  let c := COL C_LCYAN C_BLACK in
  span (bx + 1) (bx + bw - 1) (fun i => vat CH_SH c i by_ ;; vat CH_SH c i (by_ + bh - 1)) ;;
  span (by_ + 1) (by_ + bh - 1) (fun i => vat CH_SV c bx i ;; vat CH_SV c (bx + bw - 1) i) ;;
  vat CH_TL c bx by_ ;; vat CH_TR c (bx + bw - 1) by_ ;;
  vat CH_BL c bx (by_ + bh - 1) ;; vat CH_BR c (bx + bw - 1) (by_ + bh - 1) ;;
  vfill (bx + 1) (by_ + 1) (bw - 2) 1 c_sp (COL C_BLACK C_LCYAN) ;;
  vstr (bx + 5) (by_ + 1) (COL C_BLACK C_LCYAN) (cs " VDM - Vibecoded Display Manager ") ;;
  vstr (bx + 14) (by_ + 2) (COL C_LGREY C_BLACK) (cs "ported from erofs") ;;
  vstr (bx + 6) (by_ + 3) (COL C_LCYAN C_BLACK) (cs " __      __  _____    __  __ ") ;;
  vstr (bx + 6) (by_ + 4) (COL C_LCYAN C_BLACK) (cs " \ \    / / |  __ \  |  \/  |") ;;
  vstr (bx + 6) (by_ + 5) (COL C_LGREEN C_BLACK) (cs "  \ \  / /  | |  ) | | \  / |") ;;
  vstr (bx + 6) (by_ + 6) (COL C_LGREEN C_BLACK) (cs "   \ \/ /   | |  | | | |\/| |") ;;
  vstr (bx + 6) (by_ + 7) (COL C_YELLOW C_BLACK) (cs "    \  /    | |__/ | | |  | |") ;;
  vstr (bx + 6) (by_ + 8) (COL C_YELLOW C_BLACK) (cs "     \/     |_____/  |_|  |_|") ;;
  vstr (bx + 10) (by_ + 10) (COL C_LGREY C_BLACK) (cs "pigOS Desktop Environment") ;;
  vstr (bx + 4) (by_ + 11) (COL C_WHITE C_BLACK) (cs "Username: ") ;;
  vstr (bx + 4) (by_ + 12) (COL C_WHITE C_BLACK) (cs "Password: ") ;;
  vstr (bx + 12) (by_ + 13) (COL C_DGREY C_BLACK) (cs "root / toor") ;;
  emit (ECursorOn 13 15).

(** One input field: [shown] is the character drawn for a key. [None]: escape. *)
Fixpoint read_field (shown : Z -> Z) (x y : Z) (ks : list Z) (t : cstr) : M sh (option cstr) :=
  match ks with
  | [] => fail Blocked
  | c :: ks' =>
      if c =? c_esc then modify (set_keys ks') ;; emit (ECursorOn 13 15) ;; vclear ;; mret None
      else if (c =? c_nl) || (c =? c_cr) then modify (set_keys ks') ;; mret (Some t)
      else if (c =? c_bs) || (c =? 127) || (c =? KEY_DEL) then
        if 0 <? zlen t then
          let n := zlen t - 1 in
          vat c_sp (COL C_WHITE C_BLACK) (x + n) y ;; emit (EMove (x + n) y) ;; emit EHwCursor ;;
          read_field shown x y ks' (take (length t - 1) t)
        else read_field shown x y ks' t
      else if (32 <=? c) && (c <? 127) && (zlen t <? 31) then
        vat (u8 (shown c)) (COL C_WHITE C_BLACK) (x + zlen t) y ;;
        emit (EMove (x + zlen t + 1) y) ;; emit EHwCursor ;;
        read_field shown x y ks' (t ++ [c])
      else read_field shown x y ks' t
  end.

Definition field (shown : Z -> Z) (x y : Z) : M sh (option cstr) :=
  emit (EMove x y) ;; emit EHwCursor ;; s ← get; read_field shown x y (ukeys (s_ust s)) [].

(** The account whose name and password were typed. *)
Definition check_login (s : sh) (username password : cstr) : option bool :=
  match ufind (s_ust s) username with
  | None => None
  | Some i => Some (streq password (pass (user_at s i)))
  end.

(** [true] after a successful login, [false] after escape. *)
Fixpoint login_loop (fuel : nat) : M sh bool :=
  match fuel with
  | O => fail Blocked
  | S f =>
      let blank x y n := span 0 n (fun i => vat c_sp (COL C_WHITE C_BLACK) (x + i) y) in
      blank (bx + 14) (by_ + 11) 30 ;; blank (bx + 14) (by_ + 12) 30 ;; blank (bx + 4) (by_ + 13) (bw - 8) ;;
      u ← field (fun c => c) (bx + 14) (by_ + 11);
      match u with
      | None => mret false
      | Some username =>
          p ← field (fun _ => c_star) (bx + 14) (by_ + 12);
          match p with
          | None => mret false
          | Some password =>
              s ← get;
              match check_login s username password with
              | Some true => mret true
              | Some false => vstr (bx + 10) (by_ + 13) (COL C_LRED C_BLACK) (cs "Invalid password") ;; login_loop f
              | None => vstr (bx + 10) (by_ + 13) (COL C_LRED C_BLACK) (cs "Invalid username") ;; login_loop f
              end
          end
      end
  end.

Definition login : M sh bool := draw_login ;; s ← get; login_loop (S (length (ukeys (s_ust s)))).

(** Background, wallpaper, welcome window and dock. *)
Definition draw_desktop : M sh unit :=
  let wx := 22 in let wy := 2 in let ww := 36 in let wh := 14 in
  let dock_y := 25 - 4 in
  let b := COL C_LGREY C_WHITE in
  span 0 25 (fun y => vfill 0 y 80 1 c_sp (if y <? 3 then COL C_WHITE C_LGREY else COL C_WHITE C_DGREY)) ;;
  vstr 30 2 (COL C_LCYAN C_LGREY) (cs "   ____  _       ") ;;
  vstr 30 3 (COL C_LCYAN C_LGREY) (cs "  |  _ \(_) ___   ") ;;
  vstr 30 4 (COL C_LCYAN C_LGREY) (cs "  | |_) | |/ _ \  ") ;;
  vstr 30 5 (COL C_LCYAN C_LGREY) (cs "  |  __/| | (_) | ") ;;
  vstr 30 6 (COL C_LCYAN C_LGREY) (cs "  |_|   |_|\___/  ") ;;
  vstr 32 8 (COL C_LCYAN C_LGREY) (cs "pigOS v1.0") ;;
  vstr 28 10 (COL C_DGREY C_LGREY) (cs "Powered by larpshell") ;;
  vfill wx wy ww wh c_sp (COL C_WHITE C_WHITE) ;;
  vfill (wx + 1) (wy + 1) (ww - 2) 3 c_sp (COL C_BLACK C_LCYAN) ;;
  vstr (wx + 2) (wy + 1) (COL C_BLACK C_LCYAN) (cs " Welcome to pigOS Desktop ") ;;
  vstr (wx + ww - 5) (wy + 1) (COL C_WHITE C_LRED) (cs "[X]") ;;
  span wx (wx + ww) (fun i => vat CH_SH b i (wy + 3)) ;;
  vat CH_ML b wx (wy + 3) ;; vat CH_MR b (wx + ww - 1) (wy + 3) ;;
  span (wy + 4) (wy + wh) (fun r => vat CH_SV b wx r ;; vat CH_SV b (wx + ww - 1) r) ;;
  vat CH_SBL b wx (wy + wh - 1) ;; vat CH_SBR b (wx + ww - 1) (wy + wh - 1) ;;
  span (wx + 1) (wx + ww - 1) (fun i => vat CH_SH b i (wy + wh - 1)) ;;
  vstr (wx + 2) (wy + 4) (COL C_BLACK C_WHITE) (cs "  Welcome to pigOS!") ;;
  vstr (wx + 2) (wy + 5) (COL C_BLACK C_WHITE) (cs "  =================") ;;
  vstr (wx + 2) (wy + 7) (COL C_BLACK C_WHITE) (cs "  F2 = Terminal") ;;
  vstr (wx + 2) (wy + 8) (COL C_BLACK C_WHITE) (cs "  F3 = File Manager") ;;
  vstr (wx + 2) (wy + 9) (COL C_BLACK C_WHITE) (cs "  F5 = Power Menu") ;;
  vstr (wx + 2) (wy + 10) (COL C_BLACK C_WHITE) (cs "  ESC = Exit Desktop") ;;
  vstr (wx + 2) (wy + 12) (COL C_DGREY C_WHITE) (cs "  Type commands in terminal") ;;
  vfill 0 dock_y 80 4 c_sp (COL C_WHITE C_LGREY) ;;
  vfill 0 dock_y 80 1 c_sp (COL C_WHITE C_WHITE) ;;
  vstr 2 (dock_y + 1) (COL C_LGREEN C_LGREY) (cs "[F2]Terminal") ;;
  vstr 16 (dock_y + 1) (COL C_LBLUE C_LGREY) (cs "[F3]Files") ;;
  vstr 28 (dock_y + 1) (COL C_LCYAN C_LGREY) (cs "[F5]Power") ;;
  vstr 40 (dock_y + 1) (COL C_DGREY C_LGREY) (cs "[ESC]Exit") ;;
  vstr 68 (dock_y + 2) (COL C_DGREY C_LGREY) (cs "10:00 AM").

(** The terminal frame; its [vat] calls pass the colour where the row belongs. *)
Definition draw_terminal : M sh unit :=
  let tx := 3 in let ty := 2 in let tw := 74 in let th := 18 in
  let c := COL C_LCYAN C_BLACK in
  vfill tx ty tw th c_sp (COL C_WHITE C_BLACK) ;;
  vfill (tx + 1) ty (tw - 2) 1 c_sp (COL C_BLACK C_LCYAN) ;;
  vstr (tx + 2) ty (COL C_BLACK C_LCYAN) (cs " larpshell - ESC=exit ") ;;
  vstr (tx + tw - 6) ty (COL C_WHITE C_LRED) (cs "[X]") ;;
  span tx (tx + tw) (fun i => vat 0xCD i (ty + th - 1) c) ;;
  span ty (ty + th) (fun i => vat 0xBA tx i c ;; vat 0xBA (tx + tw - 1) i c) ;;
  vat 0xC9 tx ty c ;; vat 0xBB (tx + tw - 1) ty c ;;
  vat 0xC8 tx (ty + th - 1) c ;; vat 0xBC (tx + tw - 1) (ty + th - 1) c ;;
  vset C_LGREEN C_BLACK ;;
  vstr (tx + 2) (ty + 2) (COL C_LGREEN C_BLACK) (cs "> larpshell v5.9.3 ready").

Definition erase1 : M sh unit := vpc c_bs ;; vpc c_sp ;; vpc c_bs.
Definition erase (t : cstr) : M sh unit := mapM_ (fun _ => erase1) t.

(** Recall entry [h] counted from the newest into [char input[128]]. *)
Definition recall (t : cstr) (h : Z) : M sh cstr :=
  s ← get;
  erase t ;;
  let hist := sh_hist (s_env s) in
  let e := aget [] hist (zlen hist - 1 - h) in
  fits 128 e ;; mapM_ (fun c => vpc (u8 c)) e ;; mret e.

(** One line of the terminal: the text ([None] after escape) and the history
    position, which lives across lines. *)
Fixpoint term_line (ks : list Z) (t : cstr) (h : Z) : M sh (option cstr * Z) :=
  match ks with
  | [] => fail Blocked
  | c :: ks' =>
      if (c =? c_nl) || (c =? c_cr) then modify (set_keys ks') ;; mret (Some t, h)
      else if c =? 3 then vps (cs "^C") ;; vpc c_nl ;; modify (set_keys ks') ;; mret (Some [], h)
      else if (c =? c_bs) || (c =? 127) then
        if 0 <? zlen t then erase1 ;; term_line ks' (take (length t - 1) t) h else term_line ks' t h
      else if c =? KEY_UP then
        s ← get;
        let hn := zlen (sh_hist (s_env s)) in
        if (0 <? hn) && (h <? hn - 1) then t' ← recall t (h + 1); term_line ks' t' (h + 1)
        else term_line ks' t h
      else if c =? KEY_DOWN then
        if 0 <? h then t' ← recall t (h - 1); term_line ks' t' (h - 1)
        else if h =? 0 then erase t ;; term_line ks' [] (-1)
        else term_line ks' t h
      else if c =? c_esc then modify (set_keys ks') ;; mret (None, h)
      else if (32 <=? c) && (c <? 127) && (zlen t <? 127) then vpc (u8 c) ;; term_line ks' (t ++ [c]) h
      else term_line ks' t h
  end.

Section Desktop.
Context (rec : cstr -> M sh unit).

Fixpoint terminal (fuel : nat) (cur_y h : Z) : M sh unit :=
  match fuel with
  | O => fail Blocked
  | S f =>
      leaf (vstr 5 cur_y (COL C_LGREEN C_BLACK) (cs "> ")) ;;
      s ← get;
      r ← leaf (term_line (ukeys (s_ust s)) [] h);
      match r with
      | (None, _) => mret tt
      | (Some t, h') =>
          if 0 <? zlen t then
            in_env (sh_push_hist t) ;; rec t ;;
            let y := cur_y + 1 in
            if 18 <=? y
            then leaf (vfill 4 4 72 14 c_sp (COL C_WHITE C_BLACK)) ;; terminal f 4 h'
            else terminal f y h'
          else terminal f cur_y h'
      end
  end.

Definition run_terminal : M sh unit :=
  leaf draw_terminal ;; s ← get; terminal (S (length (ukeys (s_ust s)))) 6 (-1) ;; leaf draw_desktop.

Definition file_manager : M sh unit :=
  vclear ;; vfill 0 0 80 1 c_sp (COL C_BLACK C_LCYAN) ;;
  vstr 1 0 (COL C_WHITE C_LCYAN) (cs " Files - pigOS File Manager ") ;;
  vstr 58 0 (COL C_LGREY C_LCYAN) (cs "ESC=close") ;;
  vstr 2 3 (COL C_LCYAN C_BLACK) (cs "/ pigfs virtual filesystem") ;;
  mapM_ (fun p : Z * cstr => vstr 2 p.1 (COL C_YELLOW C_BLACK) (cs "  [dir] " ++ p.2))
    [(5, cs "boot/"); (6, cs "kernel/"); (7, cs "drivers/"); (8, cs "shell/"); (9, cs "wm/"); (10, cs "crypto/");
     (11, cs "lwip/"); (12, cs "vdm/")] ;;
  mapM_ (fun p : Z * cstr => vstr 2 p.1 (COL C_WHITE C_BLACK) (cs "  [file] " ++ p.2))
    [(13, cs "Makefile"); (14, cs "README-FILES.txt"); (15, cs "linker.ld")] ;;
  vstr 2 23 (COL C_DGREY C_BLACK) (cs "Use 'ls' command for full listing") ;;
  kb_wait (fun c => c =? c_esc) ;; draw_desktop.

Definition next_key : M sh Z :=
  s ← get;
  match ukeys (s_ust s) with [] => fail Blocked | c :: ks => modify (set_keys ks) ;; mret c end.

Definition power_menu : M sh unit :=
  let px := 25 in let py := 8 in let pw := 30 in let ph := 8 in
  vfill (px - 1) (py - 1) (pw + 2) (ph + 2) c_sp (COL C_DGREY C_DGREY) ;;
  vfill px py pw ph c_sp (COL C_WHITE C_BLACK) ;;
  vfill px py pw 2 c_sp (COL C_WHITE C_LCYAN) ;;
  vstr (px + 1) py (COL C_BLACK C_LCYAN) (cs " Power Options") ;;
  vstr (px + 2) (py + 3) (COL C_BLACK C_WHITE) (cs "[1] Sleep") ;;
  vstr (px + 2) (py + 4) (COL C_BLACK C_WHITE) (cs "[2] Restart") ;;
  vstr (px + 2) (py + 5) (COL C_BLACK C_WHITE) (cs "[3] Shutdown") ;;
  vstr (px + 2) (py + 6) (COL C_BLACK C_WHITE) (cs "[ESC] Cancel") ;;
  c ← next_key;
  (if c =? 51 then vclear ;; vset C_LRED C_BLACK ;; vpln (cs "Shutting down...") ;; emit (EOut 0xF4 0) ;; fail Halted
   else mret tt) ;;
  (if c =? 50 then vclear ;; emit (EOut 0x64 0xFE) else mret tt) ;;
  draw_desktop.

Fixpoint desktop_loop (fuel : nat) : M sh unit :=
  match fuel with
  | O => fail Blocked
  | S f =>
      c ← next_key;
      if c =? KEY_F2 then run_terminal ;; desktop_loop f
      else if c =? KEY_F3 then leaf file_manager ;; desktop_loop f
      else if c =? KEY_F5 then leaf power_menu ;; desktop_loop f
      else if c =? c_esc then mret tt
      else desktop_loop f
  end.

Definition cmd_wm : M sh unit :=
  ok ← leaf login;
  if ok : bool then
    leaf (vclear ;; emit ECursorOff ;; draw_desktop) ;;
    s ← get; desktop_loop (S (length (ukeys (s_ust s)))) ;;
    leaf (emit (ECursorOn 13 15) ;; vclear)
  else mret tt.

End Desktop.
