(* ===== verification/Wm.v ===== *)
(** * The window manager ([wm/wm.h])

    A table of eight text windows with a focus, drawn on the console with a
    wallpaper, a dock and the mouse cursor; a desktop that reacts to keys and
    clicks; a power menu, a file page and a terminal that runs shell lines
    through [rec], the dispatcher.  Drawing works on the screen of [Vga.v], since
    the cursor reads back what is under it: the console events of a computation
    are performed on it at once ([sub]).  The mouse bytes found by each poll are
    the stream [m_in]; a pass of the desktop is the number of keys it finds. *)

From Stdlib Require Import ZArith Lia.
From stdpp Require Import base numbers list strings gmap.
From S2P Require Import Prelude CLib Vga Console PigFs Ps2 Users ShellEnv ShellCmd Desktop.

Notation WM_MAX := 8 (only parsing).
Notation WIN_LINES := 20 (only parsing).
Notation WIN_COLS := 76 (only parsing).
Notation CH_BLOCK := 0xDB (only parsing).
Notation CH_H := 0xCD (only parsing).
Notation CH_V := 0xBA (only parsing).

Record PigWin := Win {
  alive : bool; focused : bool; minimized : bool; maximized : bool;
  w_x : Z; w_y : Z; w_w : Z; w_h : Z; w_ox : Z; w_oy : Z; w_ow : Z; w_oh : Z;
  title : cstr; lines : list cstr; nlines : Z; scroll : Z }.
Definition win0 : PigWin := Win false false false false 0 0 0 0 0 0 0 0 [] (replicate 20 []) 0 0.
Definition set_flags al fo mi W := Win al fo mi (maximized W) (w_x W) (w_y W) (w_w W) (w_h W) (w_ox W) (w_oy W) (w_ow W) (w_oh W) (title W) (lines W) (nlines W) (scroll W).
Definition set_focused b W := set_flags (alive W) b (minimized W) W.
Definition set_rows ls n sc W := Win (alive W) (focused W) (minimized W) (maximized W) (w_x W) (w_y W) (w_w W) (w_h W) (w_ox W) (w_oy W) (w_ow W) (w_oh W) (title W) ls n sc.

(** The table: [wins], [wfocus], [wcount], [dock_selected]. *)
Record table := Table { wins : list PigWin; wfocus : Z; wcount : Z; dock_selected : Z }.
Definition table0 : table := Table (replicate 8 win0) (-1) 0 (-1).
Definition win (t : table) (i : Z) : PigWin := aget win0 (wins t) i.
Definition set_win (i : Z) (W : PigWin) (t : table) : table := Table (aset (wins t) i W) (wfocus t) (wcount t) (dock_selected t).
Definition set_wfocus f t := Table (wins t) f (wcount t) (dock_selected t).
Definition set_dock d t := Table (wins t) (wfocus t) (wcount t) d.
Definition in_table (i : Z) : bool := (0 <=? i) && (i <? WM_MAX).
Definition ids : list Z := seqZ 0 WM_MAX.

(** ** Windows *)

Definition wm_find_win (t : table) : Z := default (-1) (List.find (fun i => negb (alive (win t i))) ids).

Definition wm_new (x y w h : Z) (tl : cstr) (t : table) : Z * table :=
  match List.find (fun i => negb (alive (win t i))) ids with
  | None => (-1, t)
  | Some i =>
      let W := Win true false false false x y w h x y w h (take 47 tl) (lines (win t i)) 0 0 in
      let t := set_win i W t in
      let t := Table (wins t) (wfocus t) (i32 (wcount t + 1)) (dock_selected t) in
      (i, if wfocus t <? 0 then set_win i (set_focused true (win t i)) (set_wfocus i t) else t)
  end.
Definition wm_create_win (tl : cstr) (x y w h : Z) (t : table) : table := (wm_new x y w h tl t).2.

Definition wm_write (id : Z) (s : cstr) (t : table) : table :=
  if negb (in_table id) || negb (alive (win t id)) then t
  else
    let W := win t id in
    if nlines W <? WIN_LINES then set_win id (set_rows (aset (lines W) (nlines W) (take 75 s)) (nlines W + 1) (scroll W) W) t else t.

Definition wm_writeln (id : Z) (s : cstr) (t : table) : table :=
  let t := wm_write id s t in
  if in_table id && alive (win t id) then set_win id (set_rows (lines (win t id)) (nlines (win t id)) 0 (win t id)) t else t.

Definition wm_focus (id : Z) (t : table) : table :=
  let t := if in_table (wfocus t) then set_win (wfocus t) (set_focused false (win t (wfocus t))) t else t in
  let t := set_wfocus id t in
  if in_table id then set_win id (set_focused true (win t id)) t else t.

(** [for(j..) if(p) { wm_focus(j); break; }] after [wfocus=-1] *)
Definition refocus (p : PigWin -> bool) (t : table) : table :=
  let t := set_wfocus (-1) t in
  match List.find (fun j => p (win t j)) ids with Some j => wm_focus j t | None => t end.

Definition wm_close (id : Z) (t : table) : table :=
  if in_table id && alive (win t id) then
    let t := set_win id (set_flags false (focused (win t id)) (minimized (win t id)) (win t id)) t in
    if wfocus t =? id then refocus alive t else t
  else t.

Definition in_view (W : PigWin) : bool := alive W && negb (minimized W).
Definition wm_minimize (id : Z) (t : table) : table :=
  if in_table id && alive (win t id) then
    let t := set_win id (set_flags (alive (win t id)) (focused (win t id)) true (win t id)) t in
    if wfocus t =? id then refocus in_view t else t
  else t.

(** ** Drawing *)

Definition for_ (lo hi : Z) (f : Z -> list cev) : list cev := concat (f <$> seqZ lo (hi - lo)).

Definition wm_wallpaper : list cev :=
  EFill 0 0 80 25 c_sp (COL C_WHITE C_LGREY) ::
  for_ 1 24 (fun y => [EFill 0 y 80 1 c_sp (if y <? 15 then COL C_WHITE C_LGREY else if y <? 20 then COL C_DGREY C_LGREY else COL C_DGREY C_LGREY)]) ++
  [EStr 32 9 (COL C_LCYAN C_LGREY) (cs "   ____  _       "); EStr 32 10 (COL C_LCYAN C_LGREY) (cs "|  _ \(_) ___   ");
   EStr 32 11 (COL C_LCYAN C_LGREY) (cs "| |_) | |/ _ \  "); EStr 32 12 (COL C_LCYAN C_LGREY) (cs "|  __/| | (_) | ");
   EStr 32 13 (COL C_LCYAN C_LGREY) (cs "|_|   |_|\___/  "); EStr 34 15 (COL C_LCYAN C_LGREY) (cs "pigOS v1.0");
   EStr 30 17 (COL C_DGREY C_LGREY) (cs "Powered by larpshell")].

Definition dock : list (Z * cstr * Z * Z) :=
  [(3, cs "Term", 1, COL C_LGREEN C_LGREEN); (12, cs "Files", 2, COL C_LBLUE C_LBLUE); (21, cs "Browser", 3, COL C_LCYAN C_LCYAN);
   (30, cs "Settings", 4, COL C_LMAG C_LMAG); (39, cs "Browser2", 5, COL C_YELLOW C_YELLOW); (48, cs "Power", 6, COL C_LRED C_LRED)].
Definition dock_y : Z := 19.

Definition dock_icon (selected : bool) (d : Z * cstr * Z * Z) : list cev :=
  let '(dx, label, ch, col) := d in
  let icon_bg := if selected then COL C_LCYAN C_LCYAN else COL C_WHITE C_WHITE in
  let icon_col := if selected then COL C_BLACK C_LCYAN else col in
  [EFill dx (dock_y + 1) 8 4 c_sp (COL C_DGREY C_LGREY); EFill (dx + 1) (dock_y + 2) 7 3 c_sp icon_bg;
   EFill (dx + 3) (dock_y + 3) 2 1 c_sp icon_col; EAt ch icon_col (dx + 3) (dock_y + 2);
   EStr dx (dock_y + 6) (COL C_DGREY C_LGREY) label; EStr dx (dock_y + 5) (COL C_BLACK C_LGREY) label].
Definition wm_dock (sel : Z) : list cev :=
  [EFill 0 dock_y 80 6 c_sp (COL C_LGREY C_LGREY); EFill 0 dock_y 80 1 c_sp (COL C_WHITE C_WHITE)] ++
  concat (imap (fun i d => dock_icon (sel =? Z.of_nat i) d) dock) ++
  [EStr 68 (dock_y + 2) (COL C_WHITE C_LGREY) (cs "10:00 AM"); EStr 68 (dock_y + 4) (COL C_DGREY C_LGREY) (cs "Jan 1 1970")].

(** The clipped rectangle of a window. *)
Definition clip (W : PigWin) : Z * Z * Z * Z :=
  let x := if w_x W <? 0 then 0 else w_x W in
  let y := if w_y W <? 1 then 1 else w_y W in
  let w := if 79 <? x + w_w W then 79 - x else w_w W in
  let h := if 24 <? y + w_h W then 24 - y else w_h W in
  (x, y, w, h).
Definition max_rows (h : Z) : Z := if WIN_LINES <? h - 4 then WIN_LINES else h - 4.

(** Everything of a window up to its contents. *)
Definition win_events (W : PigWin) : list cev :=
  let '(x, y, w, h) := clip W in
  let fo (a b : Z) := if focused W then a else b in
  let shadow := COL C_BLACK C_LGREY in
  let tb := fo (COL C_WHITE C_LCYAN) (COL C_WHITE C_LGREY) in
  let tl := if w - 10 <? zlen (title W) then w - 10 else zlen (title W) in
  let border := fo (COL C_LGREY C_LGREY) (COL C_DGREY C_LGREY) in
  for_ 0 h (fun r => [EAt CH_BLOCK shadow (x + w) (y + r + 1)]) ++ [EAt CH_BLOCK shadow (x + w) (y + h + 1)] ++
  [EFill x y w (h + 1) c_sp (fo (COL C_WHITE C_WHITE) (COL C_DGREY C_LGREY)); EFill x y w 3 c_sp tb] ++
  for_ 0 tl (fun i => [EAt (u8 (cget (title W) i)) tb (x + 2 + i) (y + 1)]) ++
  (if 8 <? w then [EAt 88 (fo (COL C_LRED C_LRED) (COL C_DGREY C_LGREY)) (x + w - 4) (y + 1);
                   EAt 95 (fo (COL C_YELLOW C_YELLOW) (COL C_DGREY C_LGREY)) (x + w - 6) (y + 1);
                   EAt 79 (fo (COL C_LGREEN C_LGREEN) (COL C_DGREY C_LGREY)) (x + w - 8) (y + 1)] else []) ++
  for_ x (x + w) (fun c => [EAt CH_H border c (y + 2)]) ++ [EAt CH_TL border x (y + 2); EAt CH_TR border (x + w - 1) (y + 2)] ++
  for_ (y + 3) (y + h + 1) (fun r => [EAt CH_V border x r; EAt CH_V border (x + w - 1) r]) ++
  for_ 0 (max_rows h) (fun r => if r + scroll W <? nlines W then [EStr (x + 1) (y + 3 + r) (COL C_BLACK C_WHITE) (aget [] (lines W) (r + scroll W))] else []).

Definition has_bar (W : PigWin) : bool := let '(x, y, w, h) := clip W in (max_rows h <? nlines W) && (3 <? w).
Definition bar_events (W : PigWin) : list cev :=
  let '(x, y, w, h) := clip W in
  for_ 0 (max_rows h) (fun r => [EAt CH_V (COL C_LGREY C_LGREY) (x + w - 1) (y + 3 + r)]) ++
  [EAt CH_BLOCK (COL C_BLUE C_LGREY) (x + w - 1) (y + 3 + Z.quot (scroll W * max_rows h) (nlines W))].

(** ** The desktop *)

Record wst := Wst { tab : table; wm_running : bool; wm_tick : Z; mouse_wm_mode : bool; ms : mouse; m_in : list (list Z); screen : vga; usr : sh }.
Definition set_tab t s := Wst t (wm_running s) (wm_tick s) (mouse_wm_mode s) (ms s) (m_in s) (screen s) (usr s).
Definition set_mode r mm s := Wst (tab s) r (wm_tick s) mm (ms s) (m_in s) (screen s) (usr s).
Definition set_tick k s := Wst (tab s) (wm_running s) k (mouse_wm_mode s) (ms s) (m_in s) (screen s) (usr s).
Definition set_ms m s := Wst (tab s) (wm_running s) (wm_tick s) (mouse_wm_mode s) m (m_in s) (screen s) (usr s).
Definition set_m_in l s := Wst (tab s) (wm_running s) (wm_tick s) (mouse_wm_mode s) (ms s) l (screen s) (usr s).
Definition set_screen v s := Wst (tab s) (wm_running s) (wm_tick s) (mouse_wm_mode s) (ms s) (m_in s) v (usr s).
Definition set_usr u s := Wst (tab s) (wm_running s) (wm_tick s) (mouse_wm_mode s) (ms s) (m_in s) (screen s) u.

Section Desktop.
(** [crtc]: what the cursor registers read; [rec]: the dispatcher. *)
Context (crtc : Z -> Z) (rec : cstr -> M sh unit).

(** A computation on a part of the state; what it prints goes to the screen. *)
Definition sub {U A} (g : wst -> U) (p : U -> wst -> wst) (m : M U A) : M wst A := fun s =>
  match m (g s) with
  | Ok a u o => Ok a (p u (set_screen (run_evs crtc o (screen s)) s)) []
  | Err f u o => Err f (p u (set_screen (run_evs crtc o (screen s)) s)) []
  end.
Definition shell {A} (m : M sh A) : M wst A := sub usr set_usr m.
Definition text (m : M sh unit) : M wst unit := shell (leaf m).
Definition draw (es : list cev) : M wst unit := modify (fun s => set_screen (run_evs crtc es (screen s)) s).
Definition on_table (f : table -> table) : M wst unit := modify (fun s => set_tab (f (tab s)) s).

Definition poll_mouse : M wst unit :=
  s ← get; modify (set_m_in (tail (m_in s))) ;; sub ms set_ms (mouse_poll (default [] (head (m_in s)))).
Definition cursor (f : mouse * vga -> mouse * vga) : M wst unit :=
  modify (fun s => let '(m, v) := f (ms s, screen s) in set_ms m (set_screen v s)).

Definition wm_draw_win (id : Z) : M wst unit :=
  s ← get;
  let W := win (tab s) id in
  if negb (in_table id) || negb (alive W) || minimized W then mret tt
  else
    draw (win_events W) ;;
    if has_bar W then (if nlines W =? 0 then fail DivByZero else draw (bar_events W)) else mret tt.

Definition behind (W : PigWin) : bool := alive W && negb (focused W) && negb (minimized W).
Definition wm_render : M wst unit :=
  cursor mouse_erase ;; draw wm_wallpaper ;;
  mapM_ (fun i => s ← get; if behind (win (tab s) i) then wm_draw_win i else mret tt) ids ;;
  s ← get;
  (if (0 <=? wfocus (tab s)) && alive (win (tab s) (wfocus (tab s))) then wm_draw_win (wfocus (tab s)) else mret tt) ;;
  draw (wm_dock (dock_selected (tab s))) ;;
  poll_mouse ;;
  s ← get; (if mouse_enabled (ms s) then cursor mouse_draw_cursor else mret tt) ;;
  modify (fun s => set_tick (u32 (wm_tick s + 1)) s).

Definition wm_init (ctrl : Z) : M wst unit :=
  on_table (fun t => Table (map (fun W => set_flags false (focused W) (minimized W) W) (wins t)) (-1) 0 (dock_selected t)) ;;
  modify (fun s => set_mode true (mouse_wm_mode s) s) ;;
  sub ms set_ms (mouse_init ctrl) ;;
  modify (fun s => set_mode (wm_running s) true s).

Definition wm_power_menu : M wst unit :=
  let px := 25 in let py := 8 in let pw := 30 in let ph := 8 in
  let tb := COL C_WHITE C_LCYAN in let oc := COL C_BLACK C_WHITE in
  draw [EFill (px - 1) (py - 1) (pw + 2) (ph + 2) c_sp (COL C_DGREY C_DGREY); EFill px py pw ph c_sp (COL C_WHITE C_BLACK);
        EFill px py pw 2 c_sp tb; EStr (px + 1) py tb (cs " Power Options");
        EStr (px + 2) (py + 3) oc (cs "[1] Sleep"); EStr (px + 2) (py + 4) oc (cs "[2] Restart");
        EStr (px + 2) (py + 5) oc (cs "[3] Shutdown"); EStr (px + 2) (py + 6) oc (cs "[ESC] Cancel")] ;;
  c ← shell next_key;
  (if c =? 51 then text (vclear ;; vset C_LRED C_BLACK ;; vpln (cs "Shutting down...")) ;; draw [EOut 0xF4 0] ;; fail Halted else mret tt) ;;
  (if c =? 50 then draw [EClear; EOut 0x64 0xFE] else mret tt).

Definition wm_robin : M wst unit :=
  let tb := COL C_WHITE C_LCYAN in let sb := COL C_WHITE C_LGREY in
  draw ([EClear; EFill 0 0 80 1 c_sp tb; EStr 1 0 tb (cs " Files - pigOS File Manager "); EStr 60 0 (COL C_WHITE C_LGREY) (cs "ESC=close");
         EFill 0 1 80 23 c_sp sb; EStr 2 3 (COL C_LCYAN C_LGREY) (cs "/ pigfs virtual filesystem")] ++
        for_ 5 15 (fun row => [EStr 2 row (COL C_YELLOW C_LGREY) (cs "  [dir]  virtual_entry")]) ++
        [EStr 2 22 (COL C_DGREY C_LGREY) (cs "Use 'ls' command for full listing")]) ;;
  shell (kb_wait (fun c => c =? c_esc)) ;; draw [EClear].

(** The terminal's frame; its [vat] calls pass the position where the colour
    belongs. *)
Definition term_frame : list cev :=
  let tx := 3 in let ty := 3 in let tw := 74 in let th := 17 in
  let c := COL C_LCYAN C_BLACK in
  EFill tx ty tw th c_sp (COL C_WHITE C_BLACK) ::
  for_ tx (tx + tw) (fun i => [EAt 0xCD i ty c; EAt 0xCD i (ty + th - 1) c]) ++
  for_ ty (ty + th) (fun i => [EAt 0xBA tx i c; EAt 0xBA (tx + tw - 1) i c]) ++
  [EAt 0xC9 tx ty c; EAt 0xBB (tx + tw - 1) ty c; EAt 0xC8 tx (ty + th - 1) c; EAt 0xBC (tx + tw - 1) (ty + th - 1) c;
   EFill (tx + 1) ty (tw - 2) 1 c_sp (COL C_BLACK C_LCYAN); EStr (tx + 2) ty (COL C_BLACK C_LCYAN) (cs " larpshell ");
   EStr (tx + tw - 8) ty (COL C_WHITE C_LRED) (cs " [X]")].
Definition term_wipe : list cev := for_ 5 19 (fun y => for_ 5 75 (fun x => [EAt c_sp (COL C_WHITE C_BLACK) x y])).

(** One line: the text, [None] after escape.  Every pass takes a key. *)
Fixpoint wm_line (fuel : nat) (t : cstr) (h : Z) : M wst (option cstr) :=
  match fuel with
  | O => fail Blocked
  | S f =>
      poll_mouse ;;
      c ← shell next_key;
      if (c =? c_nl) || (c =? c_cr) then text (vpc c_nl) ;; mret (Some t)
      else if c =? 3 then text (vps (cs "^C") ;; vpc c_nl) ;; mret (Some [])
      else if (c =? c_bs) || (c =? 127) then
        if 0 <? zlen t then text erase1 ;; wm_line f (take (length t - 1) t) h else wm_line f t h
      else if c =? KEY_UP then
        s ← get;
        let hn := zlen (sh_hist (s_env (usr s))) in
        if (0 <? hn) && (h <? hn - 1) then t' ← shell (leaf (recall t (h + 1))); wm_line f t' (h + 1) else wm_line f t h
      else if c =? KEY_DOWN then
        if 0 <? h then t' ← shell (leaf (recall t (h - 1))); wm_line f t' (h - 1)
        else if h =? 0 then text (erase t) ;; wm_line f [] (-1)
        else wm_line f t h
      else if c =? c_esc then draw [ECursorOff] ;; wm_render ;; mret None
      else if (32 <=? c) && (c <? 127) && (zlen t <? 127) then text (vpc (u8 c)) ;; wm_line f (t ++ [c]) h
      else wm_line f t h
  end.

Definition keys_left (s : wst) : nat := length (ukeys (s_ust (usr s))).
Fixpoint term_loop (fuel : nat) (cur_y : Z) : M wst unit :=
  match fuel with
  | O => fail Blocked
  | S f =>
      draw [ESet C_LGREEN C_BLACK; EStr 5 cur_y (COL C_LGREEN C_BLACK) (cs "> ")] ;;
      s ← get;
      r ← wm_line (S (keys_left s)) [] (-1);
      match r with
      | None => mret tt
      | Some t =>
          if 0 <? zlen t then
            shell (in_env (sh_push_hist t) ;; rec t) ;;
            let y := cur_y + 1 in
            if 18 <=? y then draw (term_wipe ++ term_frame) ;; term_loop f 5 else term_loop f y
          else term_loop f cur_y
      end
  end.
Definition wm_terminal : M wst unit :=
  draw (term_frame ++ [ESet C_LGREEN C_BLACK; EStr 5 5 (COL C_LGREEN C_BLACK) (cs "> larpshell v5.9.3 ready")]) ;;
  s ← get; term_loop (S (keys_left s)) 7.

(** The tab key: the next window in view, from the focus on. *)
Definition next_focus (t : table) : Z :=
  default (wfocus t) (List.find (fun i => in_view (win t i)) (map (fun i => Z.rem (wfocus t + i) WM_MAX) (seqZ 1 WM_MAX))).

(** [n]: how often [kb_avail] says yes in this pass; [true]: the desktop is left. *)
Fixpoint key_loop (n : nat) : M wst bool :=
  match n with
  | O => mret false
  | S n' =>
      c ← shell next_key;
      if c =? KEY_F5 then wm_power_menu ;; wm_render ;; key_loop n'
      else if c =? KEY_F3 then wm_robin ;; wm_render ;; key_loop n'
      else if c =? KEY_F2 then wm_terminal ;; wm_render ;; key_loop n'
      else if c =? KEY_F7 then on_table (fun t => wm_close (wfocus t) t) ;; wm_render ;; key_loop n'
      else if c =? c_esc then draw [ECursorOn 13 15; EClear] ;; mret true
      else if c =? 9 then on_table (fun t => wm_focus (next_focus t) t) ;; wm_render ;; key_loop n'
      else key_loop n'
  end.

(** What a click at [(mx, my)] does: the dock first, then the windows in the
    order of the table. *)
Definition dock_hit (mx my : Z) : option nat :=
  if dock_y <=? my then fst <$> list_find (fun d : Z * cstr * Z * Z => d.1.1.1 <= mx <= d.1.1.1 + 7) dock else None.
Definition win_hit (mx my : Z) (i : Z) (W : PigWin) : option (table -> table) :=
  if negb (alive W) || minimized W then None
  else if (my =? w_y W + 1) && (mx =? w_x W + w_w W - 4) then Some (wm_close i)
  else if (my =? w_y W + 1) && (mx =? w_x W + w_w W - 6) then Some (wm_minimize i)
  else if (my =? w_y W + 1) && (w_x W <=? mx) && (mx <? w_x W + w_w W - 8) then Some (wm_focus i)
  else if (w_x W <=? mx) && (mx <? w_x W + w_w W) && (w_y W <=? my) && (my <=? w_y W + w_h W) then Some (wm_focus i)
  else None.
Definition click_hit (mx my : Z) (t : table) : option (table -> table) :=
  match dock_hit mx my with
  | Some i => Some (set_dock (Z.of_nat i))
  | None => head (omap (fun i => win_hit mx my i (win t i)) ids)
  end.

Definition set_prev (m : mouse) : mouse :=
  Mouse (mouse_x m) (mouse_y m) (mouse_btn_l m) (mouse_btn_r m) (mouse_btn_l m) (mouse_enabled m) (mouse_cycle m) (mouse_packet m) (mouse_bg m) (mouse_drawn m).
Definition clicks : M wst unit :=
  s ← get;
  (if mouse_btn_l (ms s) && negb (mouse_btn_l_prev (ms s)) then
     match click_hit (mouse_x (ms s)) (mouse_y (ms s)) (tab s) with Some f => on_table f ;; wm_render | None => mret tt end
   else mret tt) ;;
  modify (fun s => set_ms (set_prev (ms s)) s).

Fixpoint desk_loop (passes : list nat) : M wst bool :=
  match passes with
  | [] => mret false
  | n :: rest => poll_mouse ;; out ← key_loop n; if out : bool then mret true else clicks ;; desk_loop rest
  end.

Definition welcome : list cstr :=
  [cs "  Welcome to pigOS!"; cs "  ================="; []; cs "  F2 = Terminal"; cs "  F3 = File Manager"; cs "  F5 = Power Menu"; cs "  ESC = Exit WM"; [];
   cs "  Click buttons to"; cs "  minimize/close"].
Definition wm_desktop (ctrl : Z) (passes : list nat) : M wst bool :=
  draw [EClear; ECursorOff] ;; wm_init ctrl ;;
  on_table (fun t => let '(wa, t) := wm_new 25 2 30 12 (cs " Welcome ") t in fold_left (fun t l => wm_write wa l t) welcome t) ;;
  wm_render ;; desk_loop passes.
End Desktop.

(** ** The invariant of the table *)

Record win_ok (W : PigWin) : Prop := WinOk {
  wo_title : zlen (title W) <= 47;
  wo_rows : zlen (lines W) = WIN_LINES;
  wo_lines : Forall (fun l => zlen l <= WIN_COLS - 1) (lines W);
  wo_n : 0 <= nlines W <= WIN_LINES;
  wo_scroll : scroll W = 0;
  wo_geom : alive W = true -> 4 <= w_h W /\ w_y W <= 20 }.

(** The focus is none or a live window that has the flag; of the windows that
    are in_view, no other one has it. *)
Record table_ok (t : table) : Prop := TableOk {
  to_len : zlen (wins t) = WM_MAX;
  to_wins : Forall win_ok (wins t);
  to_focus : -1 <= wfocus t < WM_MAX;
  to_alive : 0 <= wfocus t -> alive (win t (wfocus t)) = true /\ focused (win t (wfocus t)) = true;
  to_one : forall i, 0 <= i < WM_MAX -> in_view (win t i) = true -> focused (win t i) = true -> i = wfocus t }.

Lemma in_table_spec i : in_table i = true <-> 0 <= i < WM_MAX.
Proof. unfold in_table. lia. Qed.

Lemma win_set t i j W : zlen (wins t) = WM_MAX -> 0 <= i < WM_MAX -> 0 <= j -> win (set_win i W t) j = if decide (i = j) then W else win t j.
Proof. intros Hl Hi Hj. unfold win, set_win. cbn. case_decide; subst; [apply aget_aset_eq; lia|by apply aget_aset_ne; lia]. Qed.

Lemma win_at t i : table_ok t -> 0 <= i < WM_MAX -> win_ok (win t i).
Proof. intros [Hl Hw _ _ _] Hi. unfold win, aget. eapply Forall_nth; [exact Hw|]. unfold zlen in Hl. lia. Qed.

Lemma find_ids p i : List.find p ids = Some i -> 0 <= i < WM_MAX /\ p i = true.
Proof. intros Hf. apply List.find_some in Hf as [Hin Hp]. apply list_elem_of_In, elem_of_seqZ in Hin. split; [lia|done]. Qed.

(** Changing the flags of one window, with the focus set anew. *)
Lemma set_win_ok t i W f : table_ok t -> 0 <= i < WM_MAX -> win_ok W -> -1 <= f < WM_MAX ->
  (0 <= f -> alive (win (set_win i W t) f) = true /\ focused (win (set_win i W t) f) = true) ->
  (forall j, 0 <= j < WM_MAX -> in_view (win (set_win i W t) j) = true -> focused (win (set_win i W t) j) = true -> j = f) ->
  table_ok (set_wfocus f (set_win i W t)).
Proof.
  intros [Hl Hw _ _ _] Hi HW Hf Ha Ho. constructor; cbn; try done; [by rewrite zlen_aset|by apply Forall_aset].
Qed.

Lemma win_flags W al fo mi : win_ok W -> (al = true -> alive W = true) -> win_ok (set_flags al fo mi W).
Proof. intros [] Ha. constructor; cbn; auto. Qed.

Lemma wm_focus_ok id t : table_ok t -> (id = -1 \/ 0 <= id < WM_MAX /\ alive (win t id) = true) -> table_ok (wm_focus id t).
Proof.
  intros Ht Hid. pose proof Ht as [Hl Hw Hf Ha Ho]. unfold wm_focus.
  set (t1 := if in_table (wfocus t) then set_win (wfocus t) (set_focused false (win t (wfocus t))) t else t).
  assert (Hl1 : zlen (wins t1) = WM_MAX) by (unfold t1; destruct (in_table _); cbn; [by rewrite zlen_aset|done]).
  assert (Hw1 : Forall win_ok (wins t1)).
  { unfold t1. destruct (in_table _) eqn:Ei; [|done]. apply in_table_spec in Ei. cbn. apply Forall_aset; [done|]. apply win_flags; [by apply win_at|done]. }
  assert (Hsame : forall j, 0 <= j < WM_MAX -> alive (win t1 j) = alive (win t j) /\ (in_view (win t1 j) = true -> focused (win t1 j) = false)).
  { intros j Hj. unfold t1. destruct (in_table (wfocus t)) eqn:Ei.
    - apply in_table_spec in Ei. rewrite (win_set t _ j) by (done || lia). case_decide as Hd; [subst j; cbn; done|]. split; [done|].
      intros Hs. destruct (focused (win t j)) eqn:Ef; [|done]. by rewrite (Ho j Hj Hs Ef) in Hd.
    - split; [done|]. intros Hs. destruct (focused (win t j)) eqn:Ef; [|done]. specialize (Ho j Hj Hs Ef). subst j. apply in_table_spec in Hj. congruence. }
  destruct Hid as [-> | [Hid Hal]].
  - change (in_table (-1)) with false. cbv iota zeta. constructor; [exact Hl1|exact Hw1|cbn; lia|cbn; lia|]. intros i Hi Hs Hf1. destruct (Hsame i Hi) as [_ H2]. change (win (set_wfocus (-1) t1) i) with (win t1 i) in *. specialize (H2 Hs). congruence.
  - rewrite (proj2 (in_table_spec id)) by done. constructor; cbn [wins wfocus set_win set_wfocus].
    + by rewrite zlen_aset.
    + apply Forall_aset; [done|]. apply win_flags; [|done]. unfold win, aget. cbn. eapply Forall_nth; [exact Hw1|]. unfold zlen in Hl1. lia.
    + lia.
    + intros _. rewrite (win_set (set_wfocus id t1) id id) by (cbn; done || lia). rewrite decide_True by done. cbn [alive focused set_focused set_flags]. split; [|done]. destruct (Hsame id Hid) as [E _]. change (win (set_wfocus id t1) id) with (win t1 id). congruence.
    + intros i Hi. rewrite (win_set (set_wfocus id t1) id i) by (cbn; done || lia). case_decide; [done|]. intros Hs Hf1. destruct (Hsame i Hi) as [_ H2]. change (win (set_wfocus id t1) i) with (win t1 i) in *. specialize (H2 Hs). congruence.
Qed.

Lemma refocus_ok p t : (forall W, p W = true -> alive W = true) -> table_ok (set_wfocus (-1) t) -> table_ok (refocus p t).
Proof.
  intros Hp Ht. unfold refocus. cbv zeta. destruct (List.find _ ids) as [j|] eqn:Ej; [|done]. apply find_ids in Ej as [Hj Hpj].
  apply wm_focus_ok; [done|]. right. split; [done|]. by apply Hp.
Qed.

(** Putting a window out of sight. *)
Lemma hide_ok p id W t : table_ok t -> 0 <= id < WM_MAX -> win_ok W -> in_view W = false -> (id <> wfocus t -> focused W = focused (win t id)) ->
  (forall W, p W = true -> alive W = true) ->
  table_ok (if wfocus (set_win id W t) =? id then refocus p (set_win id W t) else set_win id W t).
Proof.
  intros Ht Hid HW Hs Hfo Hp. pose proof Ht as [Hl Hw Hf Ha Ho]. change (wfocus (set_win id W t)) with (wfocus t). destruct (wfocus t =? id) eqn:E.
  - apply Z.eqb_eq in E. apply refocus_ok; [done|]. apply set_win_ok; try done; try lia. intros j Hj. rewrite win_set by (done || lia). case_decide; [congruence|].
    intros H1 H2. pose proof (Ho j Hj H1 H2). congruence.
  - apply Z.eqb_neq in E. change (set_win id W t) with (set_wfocus (wfocus t) (set_win id W t)). apply set_win_ok; try done.
    + intros H0. rewrite win_set by (done || lia). rewrite decide_False by done. by apply Ha.
    + intros j Hj. rewrite win_set by (done || lia). case_decide; [congruence|]. by apply Ho.
Qed.

Lemma wm_close_ok id t : table_ok t -> table_ok (wm_close id t).
Proof.
  intros Ht. unfold wm_close. destruct (in_table id && alive (win t id)) eqn:E; [|done]. apply andb_prop in E as [Ei Ea]. apply in_table_spec in Ei.
  apply hide_ok; try done. apply win_flags; [by apply win_at|done].
Qed.
Lemma wm_minimize_ok id t : table_ok t -> table_ok (wm_minimize id t).
Proof.
  intros Ht. unfold wm_minimize. destruct (in_table id && alive (win t id)) eqn:E; [|done]. apply andb_prop in E as [Ei Ea]. apply in_table_spec in Ei.
  apply hide_ok; try done; [apply win_flags; [by apply win_at|done]|unfold in_view; cbn; by rewrite andb_false_r|]. intros W. unfold in_view. by destruct (alive W).
Qed.

Lemma keep_flags_ok t i W : table_ok t -> 0 <= i < WM_MAX -> win_ok W ->
  alive W = alive (win t i) -> focused W = focused (win t i) -> minimized W = minimized (win t i) -> table_ok (set_win i W t).
Proof.
  intros Ht Hi HW E1 E2 E3. pose proof Ht as [Hl Hw Hf Ha Ho]. change (set_win i W t) with (set_wfocus (wfocus t) (set_win i W t)). apply set_win_ok; try done.
  - intros H0. rewrite win_set by (done || lia). case_decide; [subst i; rewrite E1, E2|]; by apply Ha.
  - intros j Hj. rewrite win_set by (done || lia). case_decide; [subst j; unfold in_view; rewrite E1, E2, E3|]; by apply Ho.
Qed.

Lemma zlen_take_le {A} n (l : list A) : zlen (take n l) <= Z.of_nat n.
Proof. unfold zlen. rewrite length_take. lia. Qed.

Lemma wm_write_ok id s t : table_ok t -> table_ok (wm_write id s t).
Proof.
  intros Ht. unfold wm_write. destruct (negb (in_table id) || negb (alive (win t id))) eqn:E; [done|]. apply orb_false_iff in E as [Ei _].
  apply negb_false_iff, in_table_spec in Ei. pose proof (win_at t id Ht Ei) as []. cbv zeta. case_test; [|done]. apply keep_flags_ok; try done.
  constructor; cbn; try done; try lia; [by rewrite zlen_aset|]. apply Forall_aset; [done|]. apply (zlen_take_le 75).
Qed.
Lemma wm_writeln_ok id s t : table_ok t -> table_ok (wm_writeln id s t).
Proof.
  intros Ht. unfold wm_writeln. cbv zeta. pose proof (wm_write_ok id s t Ht) as Ht1. destruct (_ && _) eqn:E; [|done]. apply andb_prop in E as [Ei _].
  apply in_table_spec in Ei. pose proof (win_at _ id Ht1 Ei) as []. by apply keep_flags_ok.
Qed.

Lemma wm_new_ok x y w h tl t : table_ok t -> 4 <= h -> y <= 20 -> table_ok (wm_new x y w h tl t).2.
Proof.
  intros Ht Hh Hy. unfold wm_new. destruct (List.find _ ids) as [i|] eqn:Ef; [|done]. apply find_ids in Ef as [Hi Ha]. cbv zeta.
  apply negb_true_iff in Ha. pose proof (win_at t i Ht Hi) as Hwi. pose proof Ht as [Hl Hw Hf Hal Ho]. cbn [snd].
  set (W := Win true false false false x y w h x y w h (take 47 tl) (lines (win t i)) 0 0).
  assert (HW : win_ok W) by (destruct Hwi; constructor; cbn; try done; try lia; apply (zlen_take_le 47)).
  assert (Hfree : i <> wfocus t) by (intros ->; destruct Hal; [lia|congruence]).
  assert (Hplain : table_ok (set_win i W t)).
  { change (set_win i W t) with (set_wfocus (wfocus t) (set_win i W t)). apply set_win_ok; try done.
    - intros H0. rewrite win_set, decide_False by (done || lia). by apply Hal.
    - intros j Hj. rewrite win_set by (done || lia). case_decide; [done|]. by apply Ho. }
  cbn [wfocus set_win]. destruct (wfocus t <? 0) eqn:E; [|destruct Hplain; constructor; done]. apply Z.ltb_lt in E.
  assert (Hw1 : forall u, win (Table (aset (wins t) i W) u (i32 (wcount t + 1)) (dock_selected t)) i = W).
  { intros u. unfold win. cbn. apply aget_aset_eq. lia. }
  cbn [wins]. rewrite Hw1. unfold set_win, set_wfocus. cbn [wins wfocus wcount dock_selected]. constructor; cbn [wins wfocus].
  - by rewrite !zlen_aset.
  - apply Forall_aset; [by apply Forall_aset|]. apply win_flags; done.
  - lia.
  - intros _. unfold win. cbn [wins]. rewrite aget_aset_eq by (rewrite zlen_aset; lia). done.
  - intros j Hj. unfold win. cbn [wins]. destruct (decide (j = i)) as [-> | Hne]; [done|]. rewrite !aget_aset_ne by lia. intros H1 H2. pose proof (Ho j Hj H1 H2). lia.
Qed.

(** ** The desktop keeps the invariant *)

Definition wst_ok (s : wst) : Prop := table_ok (tab s) /\ mouse_ok (ms s).

Section Invariant.
Context (crtc : Z -> Z) (rec : cstr -> M sh unit).

(** The faults a user can cause, and those of the shell. *)
Definition ok_fault (f : fault) : Prop := f = Blocked \/ f = Halted \/ f = BufferOverflow \/ exists l u, result (rec l u) = inr f.
Definition keeps {A} (m : M wst A) : Prop := forall s, wst_ok s -> wp m s (fun _ => wst_ok) (fun f s' => wst_ok s' /\ ok_fault f).
Definition fair {A} (m : M sh A) : Prop := forall u, wp m u (fun _ _ => True) (fun f _ => ok_fault f).

Lemma keeps_seq {A B} (m : M wst A) (k : A -> M wst B) : keeps m -> (forall a, keeps (k a)) -> keeps (m ≫= k).
Proof. intros Hm Hk s Hs. apply wp_bind. eapply wp_mono; [by apply Hm| |done]. intros a s' Hs'. by apply Hk. Qed.
Lemma keeps_ret {A} (a : A) : keeps (mret a).
Proof. intros s Hs. exact Hs. Qed.
Lemma keeps_get {B} (k : wst -> M wst B) : (forall s, wst_ok s -> wp (k s) s (fun _ => wst_ok) (fun f s' => wst_ok s' /\ ok_fault f)) -> keeps (get ≫= k).
Proof. intros Hk s Hs. apply wp_bind, wp_get. by apply Hk. Qed.
Lemma keeps_modify f : (forall s, wst_ok s -> wst_ok (f s)) -> keeps (modify f).
Proof. intros Hf s Hs. by apply Hf. Qed.
Lemma keeps_draw es : keeps (draw crtc es).
Proof. by apply keeps_modify. Qed.
Lemma keeps_table f : (forall t, table_ok t -> table_ok (f t)) -> keeps (on_table f).
Proof. intros Hf. apply keeps_modify. intros s [Ht Hm]. split; [by apply Hf|done]. Qed.
Lemma keeps_shell {A} (m : M sh A) : fair m -> keeps (shell crtc m).
Proof. intros Hm s Hs. specialize (Hm (usr s)). unfold wp, shell, sub in *. by destruct (m (usr s)). Qed.

Lemma fair_leaf {A} (m : M sh A) : fair m -> fair (leaf m).
Proof. intros Hm u. specialize (Hm (sync_grep u)). unfold wp, leaf in *. by destruct (m (sync_grep u)). Qed.
Lemma fair_bind {A B} (m : M sh A) (k : A -> M sh B) : fair m -> (forall a, fair (k a)) -> fair (m ≫= k).
Proof. intros Hm Hk u. apply wp_bind. eapply wp_mono; [by apply Hm| |done]. intros a u' _. by apply Hk. Qed.
Lemma fair_emit e : fair (emit e).
Proof. done. Qed.
Lemma fair_ret {A} (a : A) : fair (mret a).
Proof. done. Qed.
Lemma fair_map {A} (f : A -> M sh unit) l : (forall x, fair (f x)) -> fair (mapM_ f l).
Proof. intros Hf. induction l as [|x l IH]; [done|]. by apply fair_bind. Qed.
Lemma fair_fits n x : fair (fits n x).
Proof. intros u. wp_run; [done|]. right. right. by left. Qed.
Lemma fair_next_key : fair next_key.
Proof. intros u. unfold next_key. wp_step. wp_step. destruct (ukeys _); [by left|]. by wp_run. Qed.
Lemma fair_wait p : fair (kb_wait p).
Proof. intros u. unfold kb_wait. wp_step. wp_step. destruct (wait_key _ _); [done|]. by left. Qed.
Lemma fair_rec l : fair (rec l).
Proof. intros u. unfold wp. destruct (rec l u) as [|f u' o] eqn:E; [done|]. right. right. right. exists l, u. by rewrite E. Qed.
Lemma fair_env {A} (m : M env A) : (forall e, wp m e (fun _ _ => True) (fun f _ => ok_fault f)) -> fair (in_env m).
Proof. intros Hm u. unfold in_env. by apply wp_zoom. Qed.
Lemma fair_push t : fair (in_env (sh_push_hist t)).
Proof. apply fair_env. intros e. unfold sh_push_hist. wp_run; [done|]. right. right. by left. Qed.
Lemma fair_erase t : fair (erase t).
Proof. apply fair_map. intros x. by repeat (apply fair_bind; [apply fair_emit|intros]). Qed.
Lemma fair_recall t h : fair (recall t h).
Proof.
  unfold recall. apply fair_bind; [done|]. intros s. apply fair_bind; [apply fair_erase|]. intros _. apply fair_bind; [apply fair_fits|]. intros _.
  apply fair_bind; [by apply fair_map|]. done.
Qed.

Lemma mouse_poll_wp b m : mouse_ok m -> wp (mouse_poll b) m (fun _ => mouse_ok) (fun _ _ => False).
Proof.
  intros Hm. unfold mouse_poll. wp_run; [done|]. apply wp_mapM; [done|]. intros x s _ Hs. eapply wp_mono; [by apply mouse_byte_wp| |done]. by intros ? ? [].
Qed.
Lemma keeps_poll : keeps (poll_mouse crtc).
Proof.
  unfold poll_mouse. apply keeps_get. intros s [Ht Hm]. apply wp_bind, wp_modify. pose proof (mouse_poll_wp (default [] (head (m_in s))) (ms s) Hm) as Hp.
  unfold wp, sub in *. cbn [ms set_m_in] in *. by destruct (mouse_poll _ (ms s)).
Qed.

Lemma mouse_draw_ok m v : mouse_ok m -> mouse_ok (mouse_draw (m, v)).1.
Proof. intros Hm. unfold mouse_draw. repeat case_test; try done. by destruct Hm. Qed.
Lemma mouse_erase_ok m v : mouse_ok m -> mouse_ok (mouse_erase (m, v)).1.
Proof. intros Hm. unfold mouse_erase. repeat case_test; try done. by destruct Hm. Qed.
Lemma keeps_cursor f : (forall m v, mouse_ok m -> mouse_ok (f (m, v)).1) -> keeps (cursor f).
Proof. intros Hf. apply keeps_modify. intros s [Ht Hm]. specialize (Hf (ms s) (screen s) Hm). by destruct (f (ms s, screen s)). Qed.
Lemma keeps_draw_cursor : keeps (cursor mouse_draw_cursor).
Proof. apply keeps_cursor. intros m v Hm. unfold mouse_draw_cursor. pose proof (mouse_erase_ok m v Hm). destruct (mouse_erase (m, v)). by apply mouse_draw_ok. Qed.

Lemma bar_has_lines W : win_ok W -> alive W = true -> has_bar W = true -> nlines W <> 0.
Proof. intros [_ _ _ Hn _ Hg] Ha. destruct (Hg Ha). unfold has_bar, clip, max_rows. cbv zeta. repeat case_test; lia. Qed.

Lemma keeps_draw_win id : keeps (wm_draw_win crtc id).
Proof.
  unfold wm_draw_win. apply keeps_get. intros s Hs. cbv zeta. destruct (_ || _ || _) eqn:E; [by apply keeps_ret|].
  apply orb_false_iff in E as [E Em]. apply orb_false_iff in E as [Ei Ea]. apply negb_false_iff in Ei, Ea. apply in_table_spec in Ei.
  apply wp_bind, wp_modify. destruct (has_bar _) eqn:Eb; [|by apply keeps_ret]. pose proof (bar_has_lines _ (win_at _ id (proj1 Hs) Ei) Ea Eb).
  rewrite (proj2 (Z.eqb_neq _ 0)) by done. by apply keeps_draw.
Qed.
Lemma keeps_map {A} (f : A -> M wst unit) l : (forall x, keeps (f x)) -> keeps (mapM_ f l).
Proof. intros Hf. induction l as [|x l IH]; [apply keeps_ret|]. by apply keeps_seq. Qed.
Lemma keeps_get' : keeps get.
Proof. intros s Hs. exact Hs. Qed.
Lemma keeps_blocked {A} : keeps (fail (A := A) Blocked).
Proof. intros s Hs. split; [done|by left]. Qed.
Lemma keeps_halted : keeps (fail (A := unit) Halted).
Proof. intros s Hs. split; [done|right; by left]. Qed.
Lemma keeps_if {A} (b : bool) (m k : M wst A) : keeps m -> keeps k -> keeps (if b then m else k).
Proof. by destruct b. Qed.
Lemma keeps_text m : fair m -> keeps (text crtc m).
Proof. intros Hm. by apply keeps_shell, fair_leaf. Qed.
End Invariant.

Create HintDb wm.
#[export] Hint Resolve keeps_ret keeps_get' keeps_draw keeps_poll keeps_draw_cursor keeps_draw_win keeps_blocked keeps_halted fair_emit fair_ret fair_fits fair_next_key fair_wait fair_rec fair_push fair_erase fair_recall mouse_erase_ok : wm.
#[export] Hint Resolve wm_focus_ok wm_close_ok wm_minimize_ok wm_write_ok : wm.

(** Follow the structure of a computation. *)
Ltac fair :=
  repeat first [ solve [auto with wm] | apply fair_bind; [|intros ?] | apply fair_leaf | apply fair_map; intros ? | apply fair_emit | progress cbv zeta ].
Ltac keep :=
  repeat first
    [ solve [auto with wm]
    | apply keeps_seq; [|intros ?] | apply keeps_if | apply keeps_shell | apply keeps_text | apply keeps_cursor; intros | apply keeps_map; intros ?
    | apply keeps_table; intros ? ?
    | lazymatch goal with |- keeps _ (match ?x with _ => _ end) => destruct x end
    | lazymatch goal with |- fair _ _ => progress fair end | progress cbv zeta ].

Section Desktop_ok.
Context (crtc : Z -> Z) (rec : cstr -> M sh unit).

Lemma keeps_tick : keeps rec (modify (fun s => set_tick (u32 (wm_tick s + 1)) s)).
Proof. by apply keeps_modify. Qed.
Lemma keeps_render : keeps rec (wm_render crtc).
Proof. unfold wm_render. keep. apply keeps_tick. Qed.
#[local] Hint Resolve keeps_render : wm.

Lemma keeps_power_menu : keeps rec (wm_power_menu crtc).
Proof. unfold wm_power_menu. keep. Qed.
Lemma keeps_robin : keeps rec (wm_robin crtc).
Proof. unfold wm_robin. keep. Qed.
Lemma keeps_line fuel : forall t h, keeps rec (wm_line crtc fuel t h).
Proof. induction fuel as [|f IH]; intros t h; cbn [wm_line]; [keep|]. unfold erase1. keep. Qed.
#[local] Hint Resolve keeps_line keeps_power_menu keeps_robin : wm.
Lemma keeps_term fuel : forall y, keeps rec (term_loop crtc rec fuel y).
Proof. induction fuel as [|f IH]; intros y; cbn [term_loop]; keep. Qed.
#[local] Hint Resolve keeps_term : wm.
Lemma keeps_terminal : keeps rec (wm_terminal crtc rec).
Proof. unfold wm_terminal. keep. Qed.

Lemma next_focus_ok t : table_ok t -> next_focus t = -1 \/ 0 <= next_focus t < WM_MAX /\ alive (win t (next_focus t)) = true.
Proof.
  intros [Hl Hw Hf Ha Ho]. unfold next_focus. destruct (List.find _ _) as [i|] eqn:E; cbn [default].
  - apply List.find_some in E as [Hin Hs]. apply List.in_map_iff in Hin as (k & <- & Hk). apply list_elem_of_In, elem_of_seqZ in Hk. right.
    unfold in_view in Hs. apply andb_prop in Hs as [Hs _]. split; [|done]. split; [apply Z.rem_nonneg; lia|apply Z.rem_bound_pos; lia].
  - destruct (decide (wfocus t = -1)); [by left|]. right. split; [lia|]. apply Ha. lia.
Qed.
#[local] Hint Resolve keeps_terminal next_focus_ok : wm.
Lemma keeps_keys n : keeps rec (key_loop crtc rec n).
Proof. induction n as [|n IH]; cbn [key_loop]; keep. Qed.
#[local] Hint Resolve keeps_keys : wm.

Lemma click_hit_ok mx my t f : table_ok t -> click_hit mx my t = Some f -> table_ok (f t).
Proof.
  intros Ht. unfold click_hit. destruct (dock_hit mx my); [intros [= <-]; by destruct Ht; constructor|].
  intros Hh. assert (Hin : f ∈ omap (fun i => win_hit mx my i (win t i)) ids) by (destruct (omap _ _); [done|]; injection Hh as <-; left).
  apply list_elem_of_omap in Hin as (i & Hi & Hw). apply elem_of_seqZ in Hi. unfold win_hit in Hw.
  destruct (negb (alive (win t i)) || minimized (win t i)) eqn:E; [done|]. apply orb_false_iff in E as [Ea _]. apply negb_false_iff in Ea.
  repeat (match type of Hw with (if ?b then _ else _) = _ => destruct b end; [injection Hw as <-; auto with wm; apply wm_focus_ok; auto with lia|]). done.
Qed.
Lemma keeps_clicks : keeps rec (clicks crtc).
Proof.
  unfold clicks. apply keeps_get. intros s Hs. apply wp_bind. eapply wp_mono with (Q := fun _ => wst_ok); [|intros _ s' [Ht []]; apply wp_modify; split; [done|by constructor]|intros f s' Hf; exact Hf].
  destruct (_ && _); [|done]. destruct (click_hit _ _ _) as [f|] eqn:E; [|done].
  apply wp_bind, wp_modify. apply keeps_render. split; [by eapply click_hit_ok; [apply Hs|]|apply Hs].
Qed.
#[local] Hint Resolve keeps_clicks : wm.
Lemma keeps_desk l : keeps rec (desk_loop crtc rec l).
Proof. induction l as [|n l IH]; cbn [desk_loop]; keep. Qed.

Lemma init_table_ok t : table_ok t -> table_ok (Table (map (fun W => set_flags false (focused W) (minimized W) W) (wins t)) (-1) 0 (dock_selected t)).
Proof.
  intros [Hl Hw _ _ _]. constructor; cbn [wins wfocus]; [unfold zlen in *; by rewrite length_map| |lia|lia|].
  - apply List.Forall_map. eapply Forall_impl; [exact Hw|]. intros W HW. by apply win_flags.
  - intros i Hi. unfold win, aget. cbn [wins]. rewrite (List.nth_indep _ _ (set_flags false (focused win0) (minimized win0) win0)), (List.map_nth (fun W => set_flags false (focused W) (minimized W) W)) by (rewrite length_map; unfold zlen in Hl; lia). done.
Qed.
Lemma keeps_init ctrl : keeps rec (wm_init crtc ctrl).
Proof.
  unfold wm_init. keep; [by apply init_table_ok|by apply keeps_modify| |by apply keeps_modify].
  intros s [Ht []]. unfold mouse_init, wp, sub. cbn. split; [done|]. constructor; cbn; lia || done.
Qed.
End Desktop_ok.

(** C31: The focus of the window manager is always sound.  From any well-formed
    state, whatever keys and mouse bytes arrive, with terminals run in between and
    whatever the shell does, the desktop keeps the table well formed: the focus is
    none or a live window and no other window on the screen looks focused; texts
    and titles fit their buffers; the pointer stays on the screen; and the only
    faults are a missing key, the shutdown, a recalled line longer than the
    terminal's buffer, and those of the shell itself. *)
Theorem desktop_keeps_focus crtc rec ctrl passes s : wst_ok s ->
  wp (wm_desktop crtc rec ctrl passes) s (fun _ => wst_ok) (fun f s' => wst_ok s' /\ ok_fault rec f).
Proof.
  revert s. change (keeps rec (wm_desktop crtc rec ctrl passes)). unfold wm_desktop. apply keeps_seq; [apply keeps_draw|intros _].
  apply keeps_seq; [apply keeps_init|intros _]. apply keeps_seq; [|intros _; apply keeps_seq; [apply keeps_render|intros _; apply keeps_desk]].
  apply keeps_table. intros t Ht. pose proof (wm_new_ok 25 2 30 12 (cs " Welcome ") t Ht) as Hn. destruct (wm_new _ _ _ _ _ t) as [wa t1].
  cbn [snd] in Hn. specialize (Hn ltac:(lia) ltac:(lia)). clear Ht. generalize welcome. intros l. revert t1 Hn. induction l as [|x l IH]; [done|]. intros t1 Hn. apply IH. by apply wm_write_ok.
Qed.

(** ** What a frame shows *)

Definition paint (W : PigWin) : list cev := win_events W ++ if has_bar W then bar_events W else [].
(** The windows of the screen from the bottom to the top. *)
Definition stack (t : table) : list Z :=
  filter (fun i => behind (win t i) = true) ids ++ if (0 <=? wfocus t) && in_view (win t (wfocus t)) then [wfocus t] else [].

Lemma run_evs_app crtc a b v : run_evs crtc (a ++ b) v = run_evs crtc b (run_evs crtc a v).
Proof. apply fold_left_app. Qed.

Lemma draw_win_run crtc s id : table_ok (tab s) -> 0 <= id < WM_MAX -> in_view (win (tab s) id) = true ->
  wm_draw_win crtc id s = Ok tt (set_screen (run_evs crtc (paint (win (tab s) id)) (screen s)) s) [].
Proof.
  intros Ht Hid Hs. unfold in_view in Hs. apply andb_prop in Hs as [Ha Hm]. apply negb_true_iff in Hm. unfold wm_draw_win, paint. set (W := win (tab s) id) in *.
  rewrite (bind_silent get _ s s s) by done. cbv zeta. fold W. rewrite (proj2 (in_table_spec id)), Ha, Hm by done. cbn [negb orb].
  erewrite (bind_silent (draw crtc _)) by reflexivity. rewrite run_evs_app. destruct (has_bar W) eqn:Eb; [|done].
  rewrite (proj2 (Z.eqb_neq _ 0)) by (apply bar_has_lines; [by apply win_at|done..]). done.
Qed.

Lemma draw_wins_run crtc l : forall s, table_ok (tab s) -> Forall (fun i => 0 <= i < WM_MAX) l ->
  mapM_ (fun i => s ← get; if behind (win (tab s) i) then wm_draw_win crtc i else mret tt) l s =
  Ok tt (set_screen (run_evs crtc (concat ((fun i => paint (win (tab s) i)) <$> filter (fun i => behind (win (tab s) i) = true) l)) (screen s)) s) [].
Proof.
  induction l as [|i l IH]; intros s Ht Hl; [by destruct s|]. apply Forall_cons_1 in Hl as [Hi Hl]. cbn [mapM_]. rewrite filter_cons.
  destruct (behind (win (tab s) i)) eqn:Eb.
  - rewrite decide_True by done. assert (Hs : in_view (win (tab s) i) = true) by (unfold behind, in_view in *; by destruct (alive (win (tab s) i)), (focused (win (tab s) i)), (minimized (win (tab s) i))).
    rewrite (bind_silent _ _ s tt (set_screen (run_evs crtc (paint (win (tab s) i)) (screen s)) s)).
    2:{ rewrite (bind_silent get _ s s s) by done. cbv beta. rewrite Eb. by apply draw_win_run. }
    rewrite IH by done. cbn [tab set_screen screen fmap list_fmap concat]. by rewrite run_evs_app.
  - rewrite decide_False by done. rewrite (bind_silent _ _ s tt s); [by apply IH|]. rewrite (bind_silent get _ s s s) by done. cbv beta. by rewrite Eb.
Qed.

(** On the stack is every window in view, once, with the focus on top. *)
Lemma stack_spec t : table_ok t -> NoDup (stack t) /\ (forall i, i ∈ stack t <-> 0 <= i < WM_MAX /\ in_view (win t i) = true) /\
  (0 <= wfocus t -> in_view (win t (wfocus t)) = true -> last (stack t) = Some (wfocus t)).
Proof.
  intros [Hl Hw Hf Ha Ho]. unfold stack. assert (Hb : forall i, i ∈ filter (fun i => behind (win t i) = true) ids <-> 0 <= i < WM_MAX /\ in_view (win t i) = true /\ focused (win t i) = false).
  { intros i. rewrite list_elem_of_filter. unfold ids. rewrite elem_of_seqZ. unfold behind, in_view. destruct (alive (win t i)), (focused (win t i)), (minimized (win t i)); cbn; (split; [intros [? ?]|intros (? & ? & ?)]; split_and!; first [done | lia]). }
  destruct ((0 <=? wfocus t) && in_view (win t (wfocus t))) eqn:E.
  - apply andb_prop in E as [E1 E2]. apply Z.leb_le in E1. destruct (Ha E1) as [_ Hfo]. split_and!.
    + apply NoDup_app. split_and!; [apply NoDup_filter, NoDup_seqZ| |apply NoDup_singleton]. intros i Hi. apply Hb in Hi as (_ & _ & Hi). rewrite list_elem_of_singleton. congruence.
    + intros i. rewrite elem_of_app, Hb, list_elem_of_singleton. split; [intros [(? & ? & _) | ->]; [done|split; [lia|done]]|].
      intros [Hi Hs]. destruct (focused (win t i)) eqn:Ef; [right; by apply Ho|by left].
    + intros _ _. apply last_snoc.
  - rewrite app_nil_r. split_and!; [apply NoDup_filter, NoDup_seqZ| |].
    + intros i. rewrite Hb. split; [intros (? & ? & _); done|]. intros [Hi Hs]. split; [done|]. split; [done|]. destruct (focused (win t i)) eqn:Ef; [|done].
      pose proof (Ho i Hi Hs Ef). subst i. rewrite Hs in E. lia.
    + intros H1 H2. rewrite H2 in E. lia.
Qed.

(** C32: A frame of the desktop shows every window that is alive and not
    minimised exactly once, the focused one over the others: rendering returns,
    and the screen is the wallpaper, then the windows of the stack from bottom to
    top, then the dock, then the scrolling of the mouse wheel and the pointer. *)
Theorem render_shows_windows crtc s : wst_ok s ->
  exists m' o, let '(m, v) := mouse_erase (ms s, screen s) in
  mouse_poll (default [] (head (m_in s))) m = Ok tt m' o /\
  (exists s', wm_render crtc s = Ok tt s' [] /\ tab s' = tab s /\
     (ms s', screen s') =
       (let mv := (m', run_evs crtc (wm_wallpaper ++ concat ((fun i => paint (win (tab s) i)) <$> stack (tab s)) ++ wm_dock (dock_selected (tab s)) ++ o) v) in
        if mouse_enabled m' then mouse_draw_cursor mv else mv)) /\
  NoDup (stack (tab s)) /\ (forall i, i ∈ stack (tab s) <-> 0 <= i < WM_MAX /\ in_view (win (tab s) i) = true) /\
  (0 <= wfocus (tab s) -> in_view (win (tab s) (wfocus (tab s))) = true -> last (stack (tab s)) = Some (wfocus (tab s))).
Proof.
  intros [Ht Hm]. pose proof (mouse_erase_ok (ms s) (screen s) Hm) as Hme. destruct (mouse_erase (ms s, screen s)) as [m v] eqn:Eme. cbn [fst] in Hme.
  pose proof (mouse_poll_wp (default [] (head (m_in s))) m Hme) as Hp. unfold wp in Hp. destruct (mouse_poll _ m) as [[] m' o|] eqn:Ep; [|done].
  exists m', o. split; [done|]. split; [|by apply stack_spec]. unfold wm_render.
  rewrite (bind_silent _ _ s tt (set_ms m (set_screen v s))) by (unfold cursor, modify; by rewrite Eme).
  set (s1 := set_ms m (set_screen v s)). erewrite (bind_silent (draw _ _)) by reflexivity. set (s2 := set_screen _ s1).
  erewrite (bind_silent _ _ s2 tt); [|apply draw_wins_run; [done|apply Forall_forall; intros i Hi; apply elem_of_seqZ in Hi; lia]]. set (s3 := set_screen _ s2).
  erewrite (bind_silent get) by reflexivity. set (fo := if (0 <=? wfocus (tab s)) && in_view (win (tab s) (wfocus (tab s))) then [wfocus (tab s)] else []).
  rewrite (bind_silent _ _ s3 tt (set_screen (run_evs crtc (concat ((fun i => paint (win (tab s) i)) <$> fo)) (screen s3)) s3)).
  2:{ change (tab s3) with (tab s). destruct Ht as [Hl Hw Hf Ha Ho] eqn:Et. clear Et. unfold fo. destruct (0 <=? wfocus (tab s)) eqn:E0; [|by destruct s3]. apply Z.leb_le in E0. destruct (Ha E0) as [Hal _].
      rewrite Hal. cbn [andb]. destruct (in_view _) eqn:Es.
      - cbn [fmap list_fmap concat]. rewrite app_nil_r. by apply (draw_win_run crtc s3); [constructor|lia|].
      - cbn [fmap list_fmap concat]. unfold wm_draw_win. rewrite (bind_silent get _ s3 s3 s3) by done. cbv zeta. change (tab s3) with (tab s). unfold in_view in Es. rewrite Hal in *. cbn [andb] in Es. apply negb_false_iff in Es. rewrite Es, orb_true_r. by destruct s3. }
  set (s4 := set_screen _ s3). erewrite (bind_silent (draw _ _)) by reflexivity. set (s5 := set_screen _ s4).
  rewrite (bind_silent (poll_mouse crtc) _ s5 tt (set_ms m' (set_screen (run_evs crtc o (screen s5)) (set_m_in (tail (m_in s5)) s5)))).
  2:{ unfold poll_mouse. rewrite (bind_silent get _ s5 s5 s5) by done. erewrite (bind_silent (modify _)) by reflexivity. unfold sub. cbn [ms set_m_in]. change (ms s5) with m. change (m_in s5) with (m_in s). by rewrite Ep. }
  set (s6 := set_ms m' _). rewrite (bind_silent get _ s6 s6 s6) by done. change (mouse_enabled (ms s6)) with (mouse_enabled m').
  assert (E6 : screen s6 = run_evs crtc (wm_wallpaper ++ concat ((fun i => paint (win (tab s) i)) <$> stack (tab s)) ++ wm_dock (dock_selected (tab s)) ++ o) v).
  { rewrite run_evs_app. unfold stack. fold fo. rewrite fmap_app, concat_app, <- app_assoc, !run_evs_app. reflexivity. }
  cbv zeta. rewrite <- E6. destruct (mouse_enabled m').
  - unfold cursor. erewrite (bind_silent (modify _)) by reflexivity. unfold modify. eexists. split; [reflexivity|]. change (ms s6) with m'. destruct (mouse_draw_cursor (m', screen s6)) as [mm vv]. done.
  - rewrite (bind_silent (mret tt) _ s6 tt s6) by done. unfold modify. eexists. split; [reflexivity|]. done.
Qed.

(** ** A desktop *)

Definition user (ks : list Z) : sh :=
  Sh (Ust [] [] 0 (cs "root") fs_sample ks) [] 5 (Ident (cs "root") 0 [c_slash] true) env_boot (Pipe (replicate 4096 0) 0 false) (Misc 0 0 []) (replicate 27 false, []).
Definition start (ks : list Z) (mouse_in : list (list Z)) : wst := Wst table0 false 0 false mouse_boot mouse_in (vga_boot (replicate 2000 0)) (user ks).
Definition two_windows : table := (wm_new 20 5 30 8 (cs "b") (wm_new 2 2 30 10 (cs "a") table0).2).2.

Lemma table0_ok : table_ok table0.
Proof.
  constructor; [reflexivity|repeat constructor; cbn; (lia || done)|cbn; lia|cbn; lia|].
  intros i Hi. assert (E : win table0 i = win0) by exact (List.nth_repeat win0 8 (Z.to_nat i)). by rewrite E.
Qed.
Lemma start_ok ks mi : wst_ok (start ks mi).
Proof. split; [apply table0_ok|]. constructor; cbn; (lia || done). Qed.

Lemma desktop_keeps_focus_witness :
  wp (wm_desktop (fun _ => 0) (fun _ => mret tt) 0 [1; 1; 2]%nat) (start [9; KEY_F7; 9; c_esc] [[8; 9; 8]; []; [9; 8; 8]])
    (fun _ => wst_ok) (fun f s' => wst_ok s' /\ ok_fault (fun _ => mret tt) f).
Proof. apply desktop_keeps_focus. apply start_ok. Defined.

Lemma two_windows_ok : table_ok two_windows.
Proof. apply wm_new_ok; [apply wm_new_ok; [apply table0_ok|lia..]|lia..]. Qed.

Lemma render_shows_windows_witness : let s := set_tab two_windows (start [] []) in
  exists m' o, let '(m, v) := mouse_erase (ms s, screen s) in
  mouse_poll (default [] (head (m_in s))) m = Ok tt m' o /\
  (exists s', wm_render (fun _ => 0) s = Ok tt s' [] /\ tab s' = tab s /\
     (ms s', screen s') =
       (let mv := (m', run_evs (fun _ => 0) (wm_wallpaper ++ concat ((fun i => paint (win (tab s) i)) <$> stack (tab s)) ++ wm_dock (dock_selected (tab s)) ++ o) v) in
        if mouse_enabled m' then mouse_draw_cursor mv else mv)) /\
  NoDup (stack (tab s)) /\ (forall i, i ∈ stack (tab s) <-> 0 <= i < WM_MAX /\ in_view (win (tab s) i) = true) /\
  (0 <= wfocus (tab s) -> in_view (win (tab s) (wfocus (tab s))) = true -> last (stack (tab s)) = Some (wfocus (tab s))).
Proof. intros s. apply (render_shows_windows (fun _ => 0) s). split; [exact two_windows_ok|apply (start_ok [] [])]. Defined.

(** The first frame: the welcome text below its title bar. *)
Definition row_text (v : vga) (x y n : Z) : list Z := map (fun i => Z.land (mem_get v (y * 80 + x + i)) 255) (seqZ 0 n).
Example welcome_is_shown :
  let v := screen (post (wm_desktop (fun _ => 0) (fun _ => mret tt) 0 [] (start [] []))) in
  row_text v 27 3 9 = cs " Welcome " /\ row_text v 26 5 19 = cs "  Welcome to pigOS!" /\ row_text v 26 8 15 = cs "  F2 = Terminal".
Proof. vm_compute. auto. Qed.

(** ** What the window manager gets wrong *)

(** A minimised window keeps its focus flag, so two windows have it. *)
Lemma minimized_looks_focused :
  let t := wm_minimize 0 two_windows in (wfocus t, focused (win t 0), focused (win t 1)) = (1, true, true).
Proof. reflexivity. Qed.

(** Closing the focused window may move the focus to a minimised one, which
    nothing can restore. *)
Lemma close_focuses_hidden :
  let t := wm_close 1 (wm_minimize 0 two_windows) in wfocus t = 0 /\ in_view (win t 0) = false /\ next_focus t = 0.
Proof. split_and!; reflexivity. Qed.

(** The number of windows is never lowered. *)
Lemma count_never_drops : let t := wm_close 0 (wm_close 1 two_windows) in wcount t = 2 /\ forall i, i ∈ ids -> alive (win t i) = false.
Proof. split; [reflexivity|]. intros i Hi. cbn in Hi. repeat (apply elem_of_cons in Hi as [-> | Hi]; [reflexivity|]). by apply elem_of_nil in Hi. Qed.

(** Where two windows overlap a click goes to the first of the table, even when
    the other one is drawn on top. *)
Lemma click_goes_below :
  let t := wm_focus 1 two_windows in
  last (stack t) = Some 1 /\ option_map (fun f => wfocus (f t)) (click_hit 25 8 t) = Some 0.
Proof. split; reflexivity. Qed.

(** The frame of the terminal passes its position as colour: a row in the middle
    of the window is overwritten and no corner is drawn. *)
Lemma terminal_frame_misplaced :
  let v := run_evs (fun _ => 0) term_frame (vga_boot (replicate 2000 0)) in
  row_text v 3 11 17 = 0xBB :: replicate 15 0xBA ++ [0xBC] /\ Z.land (mem_get v (19 * 80 + 3)) 255 = c_sp.
Proof. vm_compute. auto. Qed.

(** Leaving with escape keeps the mouse in window-manager mode: the statement
    that resets it follows an endless loop. *)
Lemma mouse_mode_is_kept :
  let r := wm_desktop (fun _ => 0) (fun _ => mret tt) 0 [1]%nat (start [c_esc] []) in result r = inl true /\ mouse_wm_mode (post r) = true.
Proof. vm_compute. auto. Qed.

(** A line longer than its window runs over the border. *)
Lemma long_line_leaves_window :
  let t := wm_write 0 (replicate 40 65) (wm_new 2 2 20 10 (cs "a") table0).2 in
  row_text (screen (post (wm_draw_win (fun _ => 0) 0 (set_tab t (start [] []))))) 3 5 40 = replicate 40 65.
Proof. vm_compute. reflexivity. Qed.

(** A window lower than its frame is divided by its number of lines, zero. *)
Lemma low_window_divides_by_zero :
  let t := (wm_new 2 2 20 3 (cs "a") table0).2 in
  result (wm_draw_win (fun _ => 0) 0 (set_tab t (start [] []))) = inr DivByZero.
Proof. vm_compute. reflexivity. Qed.
