(* ===== verification/Shell.v ===== *)
(** * The dispatcher ([sh_dispatch] of [shell/shell.h], [lash_source] of [shell/lash.h])

    A line is expanded, split at the first pipe, its alias followed, and one
    command run.  [app] stands for the commands that are programs of their own
    and are not modelled here (help, pigfetch, menuconfig, the network commands,
    the games, the other editor, ...).

    Recursion (pipes, aliases, [rok], [eval], [source], ...) is bounded by the
    depth of the kernel stack, the fuel of [sh_dispatch]: deeper calls fault. *)

From Stdlib Require Import ZArith Lia.
From stdpp Require Import base numbers list strings gmap.
From S2P Require Import Prelude CLib Console PigPath PigFs PigFsCmd Poing Users Nano ShellEnv Rpk ShellCmd Desktop.

(** ** Splitting a line *)

(** The position of the first unquoted pipe; [q] is the open quote or 0. *)
Fixpoint find_pipe (q : Z) (s : cstr) : option nat :=
  match s with
  | [] => None
  | c :: s' =>
      let q := if (c =? c_dquote) || (c =? c_quote) then if q =? c then 0 else if q =? 0 then c else q else q in
      if (c =? c_pipe) && (q =? 0) then Some O else S <$> find_pipe q s'
  end.

(** Left and right command of a pipeline; a pipe in first position is none. *)
Definition split_pipe (line : cstr) : option (cstr * cstr) :=
  match find_pipe 0 line with
  | Some (S n) => Some (take 511 (take (S n) line), take 511 (skip_char c_sp (drop (S (S n)) line)))
  | _ => None
  end.

(** The command word, at most 63 characters, and its argument. *)
Definition split_cmd (line : cstr) : cstr * cstr :=
  let '(cmd, r) := span_max 63 c_sp line in (cmd, skip_char c_sp r).

(** An alias line of a sourced file; [beyond] is the line buffer past the
    terminator, where the code reads when there is no [=]. *)
Fixpoint source_value (n : nat) (q : cstr) : cstr :=
  match n, q with
  | S n', c :: q' => if (c =? c_quote) || (c =? c_dquote) then [] else c :: source_value n' q'
  | _, _ => []
  end.
Definition source_alias (l : cstr) (beyond : list Z) : cstr * cstr :=
  let '(n, q) := span_max 31 c_eq (skip_char c_sp (drop 6 l)) in
  let q := match q with _ :: q' => q' | [] => read_cstr beyond end in
  let q := match q with c :: q' => if (c =? c_quote) || (c =? c_dquote) then q' else q | [] => [] end in
  (n, source_value 127 q).

Definition is_alias_line (l : cstr) : bool := strneq l (cs "alias ") 6.

Section Dispatch.

(** [nd]: the network log [cat] can show; [stale], [stale_line]: what the stack
    arrays of the editor and of [source] held before. *)
Context (app : cstr -> cstr -> M sh unit) (nd : cstr) (stale stale_line : list Z).

Section Commands.
Context (rec : cstr -> M sh unit).

Fixpoint source_lines (fuel : nat) (buf : list Z) (content : cstr) : M sh unit :=
  match fuel, content with
  | S f, _ :: _ =>
      let '(l, r) := span_max 511 c_nl content in
      let r := match r with c :: r' => if c =? c_nl then r' else r | [] => [] end in
      let buf := write_cstr buf l in
      (match skip_char c_sp l with
       | [] => mret tt
       | c :: _ =>
           if c =? c_hash then mret tt
           else if is_alias_line l then
             let '(n, v) := source_alias l (drop (length l + 1) buf) in
             in_env (sh_alias_set n v) ;;
             leaf (vps (cs "alias ") ;; vps n ;; vps (cs "='") ;; vps v ;; vpln (cs "'"))
           else in_env (lash_push_hist l) ;; rec l
       end) ;;
      source_lines f buf r
  | _, _ => mret tt
  end.

Definition lash_source (path : cstr) : M sh unit :=
  s ← get;
  rp ← in_fsys (resolve (cwd_of s) path);
  vn ← in_fsys (fs_find_vnode rp);
  mf ← in_fsys (lookup_mem rp);
  match (match mf with
         | Some m => Some (mf_content m)
         | None => match vn with Some n => vn_content n | None => None end
         end) with
  | None => leaf (vps (cs "source: ") ;; vps path ;; vpln (cs ": file not found"))
  | Some c => source_lines (S (length c)) stale_line c
  end.

Definition cmd_rok (a : cstr) : M sh unit :=
  if bool_decide (a = []) then leaf (vpln (cs "usage: rok <cmd> - run command with root privileges"))
  else
    ok ← leaf rok_check;
    if ok : bool then
      modify (set_rok true) ;;
      leaf (vset C_LRED C_BLACK ;; vps (cs "[rok] ") ;; vpln a ;; vrst) ;;
      rec a ;; modify (set_rok false)
    else leaf (vpln (cs "rok: Authentication failure")).

Definition in_list (c : cstr) (l : list cstr) : bool := existsb (streq c) l.

Definition APPS : list cstr :=
  [cs "help"; cs "pigfetch"; cs "dmesg"; cs "menuconfig"; cs "polctl"; cs "pi"; cs "pivi"; cs "ifconfig"; cs "ip"; cs "ping";
   cs "pigget"; cs "wget"; cs "curl"; cs "pigcurl"; cs "netpg"; cs "pignet"; cs "rtldebug"; cs "rtlstat"; cs "dhcpcd";
   cs "pigssl"; cs "discord"; cs "yes"; cs "tcp_test"; cs "robin"; cs "dc"; cs "llm"; cs "pigai"; cs "ask"; cs "chat";
   cs "go"; cs "larpshell"; cs "lash"; cs "snake"; cs "tetris"; cs "matrix"; cs "piglog"; cs "logcat"].

(** Programs of installed packages, and the last branch: any other name. *)
Definition run_pkg (cmd : cstr) : M sh unit :=
  s ← get;
  let avail n := existsb (fun c => streq c n) (s_pkg s).2 in
  let missing n := in_color C_LRED C_BLACK (vpln (n ++ cs ": not installed. Run: rpk on " ++ n)) in
  if in_list cmd [cs "python3"; cs "pip3"; cs "make"] then
    if avail cmd then leaf (in_rpk (cmd_rpk_run cmd)) else leaf (missing cmd)
  else if avail cmd then leaf (in_rpk (cmd_rpk_run cmd))
  else leaf (vset C_LRED C_BLACK ;; vps (cs "larpshell: ") ;; vps cmd ;; vpln (cs ": command not found") ;; vrst ;;
             in_color C_DGREY C_BLACK (vpln (cs "(type 'help' for commands)"))).

Definition run_cmd (cmd a : cstr) : M sh unit :=
  s ← get;
  match first_match cmd (static_cmds (sh_user (s_id s)) ++ arg_cmds a ++ state_cmds nd stale s a) with
  | Some m => leaf m
  | None =>
      if streq cmd (cs "rok") then cmd_rok a
      else if streq cmd (cs "r") && streq a [c_dash] then leaf cmd_r
      else if streq cmd (cs "htop") then rec (cs "top")
      else if in_list cmd [cs "nice"; cs "nohup"; cs "eval"; cs "exec"] then rec a
      else if streq cmd (cs "source") then
        if bool_decide (a = []) then leaf (vpln (cs "usage: source <file>")) else lash_source a
      else if streq cmd (cs "!!") then
        match last (sh_hist (s_env s)) with Some l => rec l | None => mret tt end
      else if in_list cmd [cs "man"; cs "info"; cs "whatis"; cs "apropos"] then
        if bool_decide (a = []) then leaf (app (cs "help") a)
        else leaf (vps (cs "man: ") ;; vps a ;; vpln (cs ": see 'help' for all commands"))
      else if in_list cmd [cs "rpk"; cs "pigpkg"] then leaf (in_rpk (cmd_rpk a))
      else if in_list cmd [cs "wm"; cs "compositor"] then cmd_wm rec
      else if in_list cmd APPS then leaf (app cmd a)
      else run_pkg cmd
  end.

End Commands.

Definition pipe_begin (s : sh) : sh := set_pipe (Pipe (aset (p_buf (s_pipe s)) 0 0) 0 true) s.
Definition pipe_stop (s : sh) : sh := set_pipe (Pipe (p_buf (s_pipe s)) (p_len (s_pipe s)) false) s.

Fixpoint sh_dispatch (fuel : nat) (raw_line : cstr) : M sh unit :=
  match fuel with
  | O => fail StackOverflow
  | S f =>
      s ← get;
      let line := skip_char c_sp (sh_expand (s_env s) (sh_user (s_id s)) (sh_cwd (s_id s)) raw_line 512) in
      if bool_decide (line = []) then mret tt
      else match split_pipe line with
      | Some (l, r) =>
          modify pipe_begin ;; emit (EPipe true) ;;
          sh_dispatch f l ;;
          modify pipe_stop ;; emit (EPipe false) ;;
          s ← get;
          in_fsys (grep_set_pipe_input (Some (read_cstr (p_buf (s_pipe s))))) ;;
          sh_dispatch f r
      | None =>
          let '(cmd, a) := split_cmd line in
          match sh_alias_get (s_env s) cmd with
          | Some v => sh_dispatch f v
          | None => run_cmd (sh_dispatch f) cmd a
          end
      end
  end.

End Dispatch.
