(* ===== verification/ShellRuns.v ===== *)
(** * Relations every run of the shell stays in

    [Session R]: the preorder [R] on session states contains the state changes
    of the single commands.  [dispatch_runs]: then it contains every run of the
    dispatcher, whatever the line, its aliases, pipes and scripts, the desktop
    included.  The invariant of the session is an instance. *)

From Stdlib Require Import ZArith Lia.
From stdpp Require Import base numbers list strings gmap.
From S2P Require Import Prelude CLib Console PigPath PigFs PigFsCmd Poing Users Nano ShellEnv Rpk ShellCmd Desktop Shell.

Class Session (R : sh -> sh -> Prop) := {
  session_preorder :: PreOrder R;
  session_leaf : forall A (m : M sh A), runs R m -> runs R (leaf m);
  session_keys : forall ks, runs R (modify (set_keys ks));
  session_rok : forall b, runs R (modify (set_rok b));
  session_begin : runs R (modify pipe_begin);
  session_stop : runs R (modify pipe_stop);
  session_grep : forall d, runs R (in_fsys (grep_set_pipe_input d));
  session_alias : forall n v, runs R (in_env (sh_alias_set n v));
  session_sh_hist : forall l, runs R (in_env (sh_push_hist l));
  session_lash_hist : forall l, runs R (in_env (lash_push_hist l));
  session_resolve : forall cwd a, runs R (in_fsys (resolve cwd a));
  session_vnode : forall p, runs R (in_fsys (fs_find_vnode p));
  session_mem : forall p, runs R (in_fsys (lookup_mem p));
  session_rpk_run : forall c, runs R (in_rpk (cmd_rpk_run c));
  session_rpk : forall a, runs R (in_rpk (cmd_rpk a));
  session_r : runs R cmd_r;
  session_cmds : forall nd stale s a, Forall (fun p => runs R p.2) (state_cmds nd stale s a);
}.
#[export] Hint Resolve session_leaf session_keys session_rok session_begin session_stop session_grep session_alias session_sh_hist
  session_lash_hist session_resolve session_vnode session_mem session_rpk_run session_rpk session_r : runs.

Lemma first_match_Forall {A} (P : A -> Prop) c (t : list (list cstr * A)) m :
  Forall (fun p => P p.2) t -> first_match c t = Some m -> P m.
Proof.
  induction 1 as [|[ns x] t Hx _ IH]; simpl; [done|]. destruct (existsb (streq c) ns); [by intros [= <-]|done].
Qed.

(** ** Commands that print *)

Section Prints.
Context (R : sh -> sh -> Prop) `{!PreOrder R}.

Lemma runs_calc a : runs R (cmd_calc_sh a).
Proof. unfold cmd_calc_sh, in_color. runs. Qed.

Lemma runs_static user : Forall (fun p => runs R p.2) (static_cmds user).
Proof. unfold static_cmds, in_color, lines, heading, cmd_shutdown, cmd_panic. repeat constructor; cbn [snd]; unfold in_color; runs. Qed.

Lemma runs_arg a : Forall (fun p => runs R p.2) (arg_cmds a).
Proof.
  unfold arg_cmds. repeat constructor; cbn [snd];
    unfold cmd_kill, cmd_seq, cmd_sleep, cmd_countdown, cmd_xxd, in_color; auto using runs_calc; runs; apply runs_calc.
Qed.

Lemma runs_echo n : forall a, (length a <= n)%nat -> runs R (echo_chars a).
Proof.
  induction n as [|n IH]; intros [|c [|d a]] Hn; simpl in Hn; try lia; cbn [echo_chars];
    auto using runs_ret with runs typeclass_instances.
  destruct ((c =? c_bslash) && (d =? 110)); (apply runs_bind; [typeclasses eauto|auto with runs|intros _]).
  - apply IH. lia.
  - apply (IH (d :: a)). simpl. lia.
Qed.
Lemma runs_echo_cmd a : runs R (cmd_echo a).
Proof. unfold cmd_echo. apply runs_bind; [typeclasses eauto|auto with runs typeclass_instances|intros s]. runs. by eapply runs_echo. Qed.

Lemma runs_draw_desktop : runs R draw_desktop.
Proof. unfold draw_desktop, span. runs. Qed.
Lemma runs_draw_terminal : runs R draw_terminal.
Proof. unfold draw_terminal, span. runs. Qed.

Lemma runs_recall t h : runs R (recall t h).
Proof. unfold recall, erase, erase1. runs. Qed.

End Prints.
#[export] Hint Resolve runs_draw_desktop runs_draw_terminal runs_recall : runs.

(** ** Commands that read keys, the desktop, the dispatcher *)

Section Session.
Context (R : sh -> sh -> Prop) `{!Session R}.

Lemma runs_kb_wait p : runs R (kb_wait p).
Proof. unfold kb_wait. runs. Qed.
Lemma runs_read_secret ks : forall pw, runs R (read_secret ks pw).
Proof. induction ks as [|c ks IH]; intros pw; cbn [read_secret]; runs; apply IH. Qed.
Lemma runs_ask : runs R ask_password.
Proof. unfold ask_password. runs. apply runs_read_secret. Qed.
Hint Resolve runs_kb_wait runs_ask : runs.
Lemma runs_rok_check : runs R rok_check.
Proof. unfold rok_check. runs. Qed.

Lemma runs_read_field sh x y ks : forall t, runs R (read_field sh x y ks t).
Proof. induction ks as [|c ks IH]; intros t; cbn [read_field]; runs; apply IH. Qed.
Lemma runs_field sh x y : runs R (field sh x y).
Proof. unfold field. runs. apply runs_read_field. Qed.
Hint Resolve runs_field : runs.
Lemma runs_login_loop f : runs R (login_loop f).
Proof. induction f as [|f IH]; cbn [login_loop]; unfold span; runs; apply IH. Qed.
Lemma runs_login : runs R login.
Proof. unfold login, draw_login, span. runs; apply runs_login_loop. Qed.

Lemma runs_term_line ks : forall t h, runs R (term_line ks t h).
Proof. induction ks as [|c ks IH]; intros t h; cbn [term_line]; unfold erase, erase1; runs; apply IH. Qed.
Lemma runs_next_key : runs R next_key.
Proof. unfold next_key. runs. Qed.
Hint Resolve runs_next_key : runs.

Lemma runs_file_manager : runs R file_manager.
Proof. unfold file_manager. runs. Qed.
Lemma runs_power_menu : runs R power_menu.
Proof. unfold power_menu. runs. Qed.

(** A piece of a command that stays in the relation. *)
Hint Resolve runs_login runs_term_line runs_next_key runs_file_manager runs_power_menu runs_rok_check : runs.
Ltac pieces := repeat first [progress runs|apply session_leaf].

Context (rec : cstr -> M sh unit) (Hrec : forall l, runs R (rec l)).

Lemma runs_terminal f : forall y h, runs R (terminal rec f y h).
Proof.
  induction f as [|f IH]; intros y h; cbn [terminal]; [apply runs_fail, _|]. pieces; auto.
Qed.
Lemma runs_run_terminal : runs R (run_terminal rec).
Proof. unfold run_terminal. pieces; apply runs_terminal. Qed.
Hint Resolve runs_run_terminal : runs.
Lemma runs_desktop_loop f : runs R (desktop_loop rec f).
Proof. induction f as [|f IH]; cbn [desktop_loop]; [apply runs_fail, _|]. pieces; apply IH. Qed.
Lemma runs_wm : runs R (cmd_wm rec).
Proof. unfold cmd_wm. pieces; apply runs_desktop_loop. Qed.

Lemma runs_source f : forall buf c, runs R (source_lines rec f buf c).
Proof.
  induction f as [|f IH]; intros buf [|x c]; cbn [source_lines]; try apply runs_ret, _.
  destruct (span_max 511 c_nl (x :: c)) as [l r]. pieces; auto.
Qed.
Lemma runs_lash_source stale_line p : runs R (lash_source stale_line rec p).
Proof. unfold lash_source. pieces; apply runs_source. Qed.
Lemma runs_rok a : runs R (cmd_rok rec a).
Proof. unfold cmd_rok. pieces; auto. Qed.
Lemma runs_run_pkg c : runs R (run_pkg c).
Proof. unfold run_pkg. pieces. Qed.

Context (app : cstr -> cstr -> M sh unit) (Happ : forall c a, runs R (app c a)) (nd : cstr) (stale stale_line : list Z).

Lemma runs_run_cmd c a : runs R (run_cmd app nd stale stale_line rec c a).
Proof.
  unfold run_cmd. apply runs_bind; [typeclasses eauto|apply runs_get, _|intros s].
  destruct (first_match c _) as [m|] eqn:E.
  { apply session_leaf. revert E. apply first_match_Forall. rewrite !Forall_app.
    split_and!; [apply runs_static, _|apply runs_arg, _|apply session_cmds]. }
  repeat match goal with |- runs _ (if ?b then _ else _) => destruct b end;
    auto using runs_rok, runs_lash_source, runs_wm, runs_run_pkg; pieces; auto.
Qed.

End Session.

Lemma dispatch_runs R `{!Session R} app nd stale stale_line fuel :
  (forall c a, runs R (app c a)) -> forall line, runs R (sh_dispatch app nd stale stale_line fuel line).
Proof.
  intros Happ. induction fuel as [|f IH]; intros line; cbn [sh_dispatch]; [apply runs_fail, _|].
  apply runs_bind; [typeclasses eauto|apply runs_get, _|intros s]. cbv zeta. case_bool_decide; [apply runs_ret, _|].
  set (l := skip_char _ _). destruct (split_pipe l) as [[a b]|]; [runs; apply IH|].
  destruct (split_cmd l) as [c a]. destruct (sh_alias_get (s_env s) c); [apply IH|]. by apply runs_run_cmd.
Qed.
