(* ===== verification/Lash.v ===== *)
(** * The command line ([shell/lash.h], [shell_run] of [shell/shell.h])

    Line editing with history and completion, and the read-dispatch loop.  The
    array [input] and its counters are a [line]; the completion globals are a
    [comp].  The theorems relate editing to text before and after the cursor
    and bound every index of the loop, except after the one key that leaves the
    cursor behind the text ([down_leaves_the_cursor]). *)

From Stdlib Require Import ZArith Lia.
From stdpp Require Import base numbers list strings gmap.
From S2P Require Import Prelude CLib Console PigPath PigFs PigFsCmd Ps2 Users Rtl Nano ShellEnv Rpk ShellCmd Desktop Shell ShellRuns.
Import Libc.

Notation TAB_COMPLETE_MAX := 64%nat (only parsing).

Record line := Line { l_in : list Z; l_len : Z; l_cur : Z; l_hi : Z }.
Record comp := Comp { c_cands : list cstr; c_pos : Z; c_shown : bool; c_in : list Z; c_len : Z }.

Definition line0 : line := Line (replicate 512 0) 0 0 (-1).
Definition comp0 (pos : Z) : comp := Comp [] pos false (replicate 512 0) 0.
Definition no_comp (k : comp) : comp := Comp [] (c_pos k) false (c_in k) (c_len k).

(** ** Completion *)

Definition LASH_COMPLETIONS : list cstr := map cs
  ["help"; "ls"; "cd"; "cat"; "echo"; "pwd"; "mkdir"; "rmdir"; "rm"; "cp"; "mv";
   "chmod"; "chown"; "touch"; "grep"; "find"; "tar"; "gzip"; "gunzip";
   "apt"; "apt-get"; "dpkg"; "make"; "gcc"; "g++"; "python"; "python3";
   "git"; "npm"; "node"; "curl"; "wget"; "ssh"; "scp"; "rsync";
   "systemctl"; "service"; "journalctl"; "ps"; "top"; "htop";
   "kill"; "killall"; "pkill"; "bg"; "fg"; "jobs";
   "alias"; "unalias"; "export"; "unset"; "env";
   "ifconfig"; "ip"; "ping"; "route"; "netstat"; "traceroute";
   "pi"; "pnano"; "pivi"; "emacs";
   "clear"; "date"; "whoami"; "uname"; "hostname"; "uptime";
   "pigfetch"; "wm"; "snake"; "tetris"; "matrix"; "fortune";
   "adduser"; "passwd"; "su"; "sudo"; "useradd"; "userdel"; "usermod";
   "pigcrypt"; "pighash"; "pigkey";
   "rpk"; "menuconfig";
   "exit"; "logout"; "reboot"; "shutdown"; "halt"; "poweroff";
   "mount"; "umount"; "df"; "du"; "free"; "lsblk"]%string.

(** The comparison stops at the end of either string. *)
Fixpoint pmatch (w p : cstr) : bool :=
  match w, p with x :: w', y :: p' => (x =? y) && pmatch w' p' | _, _ => true end.

(** [fn] starts with [filt], case folded. *)
Definition file_match (filt fn : cstr) : bool :=
  (zlen filt <=? 0) ||
  ((zlen filt <=? zlen fn) && forallb (fun j => to_lower (cget fn j) =? to_lower (cget filt j)) (seqZ 0 (zlen filt))).

Fixpoint add_files (filt : cstr) (ns : list VNode) (acc : list cstr) : list cstr :=
  match ns with
  | [] => acc
  | n :: ns' =>
      if (length acc <? TAB_COMPLETE_MAX - 1)%nat then
        let fn := after_last_slash (vn_path n) (vn_path n) in
        if negb (cget (vn_path n) 0 =? c_slash) || bool_decide (fn = []) || negb (file_match filt fn) || existsb (fun c => streq c fn) acc
        then add_files filt ns' acc
        else add_files filt ns' (acc ++ [fn])
      else acc
  end.

(** The part of [prefix[64]] after the first space. *)
Definition file_filter (prefix : cstr) : option cstr :=
  i ← find_index (fun c => c =? c_sp) prefix; Some (take (63 - i) (drop (i + 1) prefix)).

Definition find_completions (cmds : list cstr) (prefix : cstr) : list cstr :=
  if bool_decide (prefix = []) then []
  else
    let a := take TAB_COMPLETE_MAX (filter (fun w => pmatch w prefix = true) LASH_COMPLETIONS) in
    let b := filter (fun w => existsb (fun x => streq x w) LASH_COMPLETIONS = false /\ pmatch w prefix = true) cmds in
    let ab := a ++ take (TAB_COMPLETE_MAX - length a) b in
    match file_filter prefix with
    | Some filt => add_files filt VFS ab
    | None => ab
    end.

(** Each candidate is copied into [char[64]]. *)
Definition lash_find_completions (prefix : cstr) (k : comp) : M sh comp :=
  s ← get;
  let l := find_completions (s_pkg s).2 prefix in
  mapM_ (fits 64) l ;;
  mret (Comp l 0 (c_shown k) (c_in k) (c_len k)).

(** ** Printing *)

Definition lash_print_logo : M sh unit :=
  vrst ;; vpln [] ;;
  in_color C_LCYAN C_BLACK (lines [cs "  +====================================+"; cs "  |    LARP SHELL v5.9.3 - pigOS    |";
                                   cs "  +====================================+"]) ;;
  lines [[]; cs "  Credits: github.com/usr-undeleted/lash"; cs "  Type 'help' for all commands."; []].

Definition prompt_text : M sh unit :=
  s ← get;
  vps (cs "[") ;; in_color C_LGREEN C_BLACK (vps (sh_user (s_id s))) ;;
  vps (cs "@") ;; in_color C_LCYAN C_BLACK (vps (cs "pigOS")) ;;
  vps (cs ":") ;; in_color C_YELLOW C_BLACK (vps (sh_cwd (s_id s))) ;; vps (cs "]$ ").
Definition lash_render_prompt : M sh unit := vrst ;; vpc c_nl ;; prompt_text.

Definition put_chars (t : list Z) : M sh unit := mapM_ (fun c => vpc (u8 c)) t.
Definition erase_n (n : Z) : M sh unit := mapM_ (fun _ => erase1) (seqZ 0 n).
Definition back_n (n : Z) : M sh unit := mapM_ (fun _ => vpc c_bs) (seqZ 0 n).

(** The bytes [input[i..j-1]]. *)
Definition slice (b : list Z) (i j : Z) : list Z := take (Z.to_nat (j - i)) (drop (Z.to_nat i) b).

(** Every key redraws what is right of the cursor. *)
Definition put_tail (l : line) : M sh unit :=
  put_chars (slice (l_in l) (l_cur l) (l_len l)) ;; back_n (l_len l - l_cur l).

(** List the candidates below the line and draw it again. *)
Definition lash_show_completions (input : list Z) (ilen : Z) (k : comp) : M sh comp :=
  if bool_decide (c_cands k = []) then mret k
  else
    in_array 512 ilen ;;
    let b := aset (take (Z.to_nat (Z.min ilen 511)) input ++ drop (Z.to_nat (Z.min ilen 511)) (c_in k)) ilen 0 in
    vpc c_nl ;;
    mapM_ (fun p : Z * cstr => vps p.2 ;; vpc c_sp ;; if Z.rem (p.1 + 1) 8 =? 0 then vpc c_nl else mret tt)
          (zip (seqZ 0 (zlen (c_cands k))) (c_cands k)) ;;
    vpc c_nl ;; vpc c_nl ;; vrst ;; prompt_text ;;
    put_chars (slice input 0 ilen) ;;
    mret (Comp (c_cands k) (c_pos k) true b ilen).

(** ** Keys *)

(** The line is erased on the screen and replaced by [t]. *)
Definition set_text (t : cstr) (l : line) : M sh line :=
  erase_n (l_len l) ;;
  let t := take 511 t in
  put_chars t ;; mret (Line (write_cstr (l_in l) t) (zlen t) (zlen t) (l_hi l)).

Definition redraw (l : line) : M sh unit := erase_n (l_len l) ;; put_chars (slice (l_in l) 0 (l_len l)).

Definition lash_insert (c : Z) (l : line) : M sh line :=
  in_array 512 (l_cur l) ;;
  let b := copy_down (Z.to_nat (l_len l - l_cur l)) (Z.to_nat (l_cur l) + 1) (Z.to_nat (l_cur l)) (l_in l) in
  let b := aset b (l_cur l) c in
  let l' := Line (aset b (l_len l + 1) 0) (l_len l + 1) (l_cur l + 1) (l_hi l) in
  vpc (u8 c) ;; put_tail l' ;; mret l'.

Definition lash_backspace (l : line) : M sh line :=
  l ← (if 0 <? l_len l then
         let cur := if 0 <? l_cur l then l_cur l - 1 else l_cur l in
         let b := copy_up (Z.to_nat (l_len l - 1 - cur)) (Z.to_nat cur) (Z.to_nat cur + 1) (l_in l) in
         let l' := Line b (l_len l - 1) cur (l_hi l) in
         erase1 ;; put_tail l' ;; mret l'
       else mret l);
  mret (if l_len l =? 0 then Line (replicate 512 0) 0 0 (l_hi l)
        else Line (aset (l_in l) (l_len l) 0) (l_len l) (l_cur l) (l_hi l)).

(** Recall entry [h] of the history. *)
Definition lash_recall (h : Z) (l : line) : M sh line :=
  s ← get;
  let hist := lash_hist (s_env s) in
  in_array (zlen hist) h ;;
  let e := aget [] hist h in
  fits 512 e ;; l' ← set_text e l; mret (Line (l_in l') (l_len l') (l_cur l') h).

Definition lash_up (l : line) : M sh line :=
  s ← get;
  let hn := zlen (lash_hist (s_env s)) in
  if 0 <? hn
  then lash_recall (if l_hi l <? 0 then hn - 1 else if 0 <? l_hi l then l_hi l - 1 else l_hi l) l
  else mret l.

(** Past the newest entry the text goes, the cursor stays. *)
Definition lash_down (l : line) : M sh line :=
  s ← get;
  let hn := zlen (lash_hist (s_env s)) in
  if (0 <=? l_hi l) && (l_hi l <? hn - 1) then lash_recall (l_hi l + 1) l
  else erase_n (l_len l) ;; mret (Line (l_in l) 0 (l_cur l) (-1)).

(** Whether the line, less one trailing space, is a candidate. *)
Definition already_complete (l : line) (k : comp) : bool :=
  let n := if aget 0 (l_in l) (l_len l - 1) =? c_sp then l_len l - 1 else l_len l in
  existsb (fun c => streq (read_cstr (slice (l_in l) 0 n)) c) (c_cands k).

Definition lash_tab (l : line) (k : comp) : M sh (line * comp) :=
  if l_len l =? 0 then mret (l, k)
  else
    let prefix := read_cstr (span_max 63 c_sp (slice (l_in l) 0 (l_len l))).1 in
    k ← lash_find_completions prefix k;
    let n := zlen (c_cands k) in
    if n =? 0 then mret (l, k)
    else if already_complete l k then mret (l, k)
    else if c_shown k && (1 <? n) then
      let p := if n <=? c_pos k + 1 then 0 else c_pos k + 1 in
      l ← set_text (aget [] (c_cands k) p) l;
      mret (l, Comp (c_cands k) p (c_shown k) (c_in k) (c_len k))
    else if n =? 1 then
      l ← set_text (aget [] (c_cands k) 0) l; vpc c_sp ;; mret (l, k)
    else
      vpc c_nl ;; mapM_ (fun c => vps c ;; vpc c_sp) (c_cands k) ;; vpc c_nl ;;
      fits 512 (read_cstr (l_in l)) ;;
      lash_render_prompt ;; put_chars (slice (l_in l) 0 (l_len l)) ;;
      mret (l, Comp (c_cands k) 0 true (write_cstr (c_in k) (read_cstr (l_in l))) (l_len l)).

(** Enter while the list is shown: the first candidate replaces what follows the
    first space of the remembered line, or the line. *)
Definition take_candidate (l : line) (k : comp) : M sh line :=
  let cmd := aget [] (c_cands k) 0 in
  match find_index (fun c => c =? c_sp) (read_cstr (c_in k)) with
  | Some sp =>
      let st := Z.of_nat sp + 1 in
      erase_n (c_len k - st) ;;
      put_chars (take (Z.to_nat (511 - st)) cmd) ;;
      let n := st + zlen cmd in
      in_array 512 n ;;
      let b := take (Z.to_nat st) (c_in k) ++ cmd ++ [0] ++ drop (Z.to_nat (n + 1)) (c_in k) in
      mret (Line (take (Z.to_nat n) b ++ [0] ++ drop (Z.to_nat (n + 1)) (l_in l)) n n (l_hi l))
  | None => set_text cmd l
  end.

(** Every key but enter and ^C. *)
Definition lash_key (c : Z) (l : line) (k : comp) : M sh (line * comp) :=
  if c =? KEY_LEFT then
    let l' := Line (l_in l) (l_len l) (if 0 <? l_cur l then l_cur l - 1 else l_cur l) (l_hi l) in redraw l' ;; mret (l', k)
  else if c =? KEY_RIGHT then
    let l' := Line (l_in l) (l_len l) (if l_cur l <? l_len l then l_cur l + 1 else l_cur l) (l_hi l) in redraw l' ;; mret (l', k)
  else if (c =? c_bs) || (c =? 127) then l' ← lash_backspace l; mret (l', no_comp k)
  else if c =? KEY_UP then l' ← lash_up l; mret (l', no_comp k)
  else if c =? KEY_DOWN then l' ← lash_down l; mret (l', no_comp k)
  else if c =? c_tab then lash_tab l k
  else if (32 <=? c) && (c <? 127) && (l_len l <? 511) then l' ← lash_insert c l; mret (l', k)
  else mret (l, k).

(** ** The loop *)

(** A computation on state beside the session's: its output and its faults show,
    the session does not change, and its own state is the result. *)
Definition beside {T A} (m : M T A) (x : T) : M sh T := fun s =>
  match m x with Ok _ x' o => Ok x' s o | Err f _ o => Err f s o end.

Section Loop.

(** [rec]: the dispatcher; [queued ks]: how many of the keys still to come are
    in the keyboard buffer when it is emptied; [card_at ks]: the state in which
    the pass that finds the next of the keys [ks] polls the network card, any
    state the card, earlier passes and commands may have left, or nothing while
    [net_ok] is 0. *)
Context {W : Type} `{Nic W} (rec : cstr -> M sh unit) (queued : list Z -> nat) (card_at : list Z -> option (rtl W)).

(** [if(net_ok){rtl_input(&pig_netif);}] *)
Definition poll_net : M sh unit :=
  s ← get;
  match card_at (ukeys (s_ust s)) with
  | Some d => beside rtl_input d ;; mret tt
  | None => mret tt
  end.

Definition flush_keys : M sh unit :=
  s ← get; modify (set_keys (drop (queued (ukeys (s_ust s))) (ukeys (s_ust s)))).

Fixpoint lash_loop (fuel : nat) (l : line) (k : comp) : M sh unit :=
  match fuel with
  | O => fail Blocked
  | S f =>
      poll_net ;;
      c ← next_key;
      if (c =? c_nl) || (c =? c_cr) then
        if c_shown k && negb (bool_decide (c_cands k = [])) then
          l' ← leaf (take_candidate l k); lash_loop f l' (no_comp k)
        else
          leaf (vpc c_nl) ;;
          (if 0 <? l_len l
           then in_env (lash_push_hist (read_cstr (l_in l))) ;; rec (read_cstr (l_in l))
           else mret tt) ;;
          flush_keys ;; leaf lash_render_prompt ;; lash_loop f line0 (comp0 (c_pos k))
      else if c =? 3 then
        leaf (vps (cs "^C") ;; vpc c_nl) ;; flush_keys ;; leaf lash_render_prompt ;; lash_loop f line0 (comp0 (c_pos k))
      else
        r ← leaf (lash_key c l k); lash_loop f r.1 r.2
  end.

Definition pigos_splash : M sh unit :=
  vset C_LMAG C_BLACK ;;
  lines [[]; cs "   ____  _       ___  ____   v1.0 x86_64"; cs "  |  _ \(_) ___ / _ \/ ___|  larpshell 5.9";
         cs "  | |_) | |/ _ \ | | \___ \  poing init"; cs "  |  __/| | (_) | |_| |___) | PigWM";
         cs "  |_|   |_|\___/ \___/|____/  RTL8139"; []] ;; vrst ;;
  in_color C_LCYAN C_BLACK (vpln (cs "  pigOS v1.0 - type 'help' for all commands")) ;;
  in_color C_DGREY C_BLACK (lines [cs "  pigfetch=sysinfo  wm=desktop  rpk on <pkg>=install";
                                   cs "  Network: qemu ... -net nic,model=rtl8139 -net user"; []]).

(** The keys bound the number of passes: each one reads a key. *)
Definition shell_run : M sh unit :=
  leaf vclear ;; leaf pigos_splash ;;
  in_env (sh_alias_set (cs "ll") (cs "ls -la")) ;;
  in_env (sh_alias_set (cs "la") (cs "ls -la")) ;;
  in_env (sh_alias_set (cs "cls") (cs "clear")) ;;
  leaf lash_print_logo ;; leaf lash_render_prompt ;;
  s ← get; lash_loop (S (length (ukeys (s_ust s)))) line0 (comp0 0).

End Loop.

(** ** The loop stays in every session relation *)

Section Runs.
Context (R : sh -> sh -> Prop) `{!Session R} (rec : cstr -> M sh unit) (Hrec : forall l, runs R (rec l)) (queued : list Z -> nat).
Context {W : Type} `{Nic W} (card_at : list Z -> option (rtl W)).

Lemma runs_beside {T A} (m : M T A) x : runs R (beside m x).
Proof. intros s. unfold beside. destruct (m x); simpl; reflexivity. Qed.
Lemma runs_poll_net : runs R (poll_net card_at).
Proof.
  apply runs_bind; [typeclasses eauto|apply runs_get, _|intros s]. destruct (card_at _) as [d|]; [|apply runs_ret, _].
  apply runs_bind; [typeclasses eauto|apply runs_beside|intros _; apply runs_ret, _].
Qed.

Lemma runs_prompt_text : runs R prompt_text.
Proof. unfold prompt_text. runs. Qed.
Hint Resolve runs_prompt_text : runs.
Lemma runs_render : runs R lash_render_prompt.
Proof. unfold lash_render_prompt. runs. Qed.
Lemma runs_set_text t l : runs R (set_text t l).
Proof. unfold set_text, erase_n, erase1, put_chars. runs. Qed.
Hint Resolve runs_render runs_set_text : runs.
Lemma runs_recall_hist h l : runs R (lash_recall h l).
Proof. unfold lash_recall. runs. Qed.
Hint Resolve runs_recall_hist : runs.
Lemma runs_find p k : runs R (lash_find_completions p k).
Proof. unfold lash_find_completions. runs. Qed.
Hint Resolve runs_find : runs.
Lemma runs_tab l k : runs R (lash_tab l k).
Proof. unfold lash_tab, put_chars. runs. Qed.
Lemma runs_take_candidate l k : runs R (take_candidate l k).
Proof. unfold take_candidate, erase_n, erase1, put_chars. runs. Qed.
Hint Resolve runs_tab runs_take_candidate : runs.
Lemma runs_key c l k : runs R (lash_key c l k).
Proof.
  unfold lash_key, redraw, lash_backspace, lash_up, lash_down, lash_insert, put_tail, erase_n, erase1, put_chars, back_n. runs.
Qed.
Hint Resolve runs_key : runs.
Lemma runs_flush : runs R (flush_keys queued).
Proof. unfold flush_keys. runs. Qed.
Hint Resolve runs_flush : runs.

Lemma runs_lash_loop f : forall l k, runs R (lash_loop rec queued card_at f l k).
Proof.
  induction f as [|f IH]; intros l k; cbn [lash_loop]; [apply runs_fail, _|].
  apply runs_bind; [typeclasses eauto|apply runs_poll_net|intros _].
  apply runs_bind; [typeclasses eauto|apply runs_next_key, _|intros c].
  repeat first [progress runs|apply session_leaf|apply IH|apply Hrec].
Qed.

Lemma runs_shell_run : runs R (shell_run rec queued card_at).
Proof.
  unfold shell_run, pigos_splash, lash_print_logo, lines.
  repeat first [progress runs|apply session_leaf|apply runs_beside|apply runs_lash_loop].
Qed.

End Runs.

(** The loop is left by a fault only: it waits for keys for ever. *)
Lemma bind_err {A B} (m : M sh A) (k : A -> M sh B) s :
  (forall a s', exists e s2 o, k a s' = Err e s2 o) -> exists e s2 o, (m ≫= k) s = Err e s2 o.
Proof.
  intros Hk. unfold mbind, M_bind. destruct (m s) as [a s1 o1|e s1 o1]; [|by eexists _, _, _].
  destruct (Hk a s1) as (e & s2 & o & ->). by eexists _, _, _.
Qed.

Lemma lash_never_returns {W} `{Nic W} rec queued (card_at : list Z -> option (rtl W)) f : forall l k s, exists e s' o, lash_loop rec queued card_at f l k s = Err e s' o.
Proof.
  induction f as [|f IH]; intros l k s; cbn [lash_loop]; [by eexists _, _, _|]. apply bind_err. intros _ s0. apply bind_err. intros c s1.
  repeat (case_match; try (repeat (apply bind_err; intros ? ?); apply IH)).
Qed.
Lemma shell_never_returns {W} `{Nic W} rec queued (card_at : list Z -> option (rtl W)) s : exists e s' o, shell_run rec queued card_at s = Err e s' o.
Proof. unfold shell_run. repeat first [apply lash_never_returns|apply bind_err; intros ? ?]. Qed.

(** ** Editing refines text before and after the cursor *)

(** One key on (before, after, history position); keys that end the line or
    complete it are not editing keys.  [KEY_DOWN] is one while there is a newer
    entry or the line is empty; on other lines the loop empties the line and
    leaves the cursor where it was, outside what an editor's state can be
    ([down_leaves_the_cursor] below), and the reference gives no answer. *)
Definition entry (hist : list cstr) (h : Z) : list Z * list Z * Z := (aget [] hist h, [], h).
Definition ledit (hist : list cstr) (c : Z) (st : list Z * list Z * Z) : option (list Z * list Z * Z) :=
  let '(b, a, h) := st in
  let hn := zlen hist in
  if (c =? c_nl) || (c =? c_cr) || (c =? 3) || (c =? c_tab) then None
  else if c =? KEY_LEFT then Some (match last b with Some x => (removelast b, x :: a, h) | None => st end)
  else if c =? KEY_RIGHT then Some (match a with x :: a' => (b ++ [x], a', h) | [] => st end)
  else if (c =? c_bs) || (c =? 127) then Some (match b with [] => ([], tail a, h) | _ => (removelast b, a, h) end)
  else if c =? KEY_UP then
    Some (if 0 <? hn then entry hist (if h <? 0 then hn - 1 else if 0 <? h then h - 1 else h) else st)
  else if c =? KEY_DOWN then
    if (0 <=? h) && (h <? hn - 1) then Some (entry hist (h + 1))
    else match b ++ a with [] => Some ([], [], -1) | _ => None end
  else Some (if (32 <=? c) && (c <? 127) && (zlen (b ++ a) <? 511) then (b ++ [c], a, h) else st).

Fixpoint ledits (hist : list cstr) (ks : list Z) (st : list Z * list Z * Z) : option (list Z * list Z * Z) :=
  match ks with
  | [] => Some st
  | c :: ks' => st' ← ledit hist c st; ledits hist ks' st'
  end.

Definition lrep (l : line) (st : list Z * list Z * Z) : Prop :=
  let '(b, a, h) := st in
  zlen (l_in l) = 512 /\ l_len l = zlen (b ++ a) /\ l_cur l = zlen b /\ l_hi l = h /\ no_nul (b ++ a) /\
  exists r, l_in l = b ++ a ++ 0 :: r.

Ltac zlens := rewrite ?zlen_app, ?zlen_cons, ?zlen_nil, ?zlen_app, ?zlen_cons, ?zlen_nil in *; lia.

Lemma aset_middle {A} (p r : list A) x y n : n = zlen p -> aset (p ++ x :: r) n y = p ++ y :: r.
Proof.
  intros ->. unfold aset. replace (Z.to_nat (zlen p)) with (length p + 0)%nat by (unfold zlen; lia).
  by rewrite insert_app_r.
Qed.

Lemma lrep_len l b a h : lrep l (b, a, h) -> zlen (b ++ a) <= 511.
Proof. intros (H & _ & _ & _ & _ & r & Hr). rewrite Hr, app_assoc, zlen_app, zlen_cons in H. pose proof (zlen_nonneg r). lia. Qed.

Lemma lrep0 : lrep line0 ([], [], -1).
Proof. split_and!; try done; [constructor|]. by exists (replicate 511 0). Qed.

Lemma no_nul_split (b a : list Z) : no_nul (b ++ a) <-> no_nul b /\ no_nul a.
Proof. apply Forall_app. Qed.

Lemma read_line l b a h : lrep l (b, a, h) -> read_cstr (l_in l) = b ++ a.
Proof. intros (_ & _ & _ & _ & Hn & r & ->). rewrite app_assoc. by apply read_cstr_app. Qed.

(** The cursor moves over the same text. *)
Lemma lrep_move l b a h b' a' :
  lrep l (b, a, h) -> b ++ a = b' ++ a' -> lrep (Line (l_in l) (l_len l) (zlen b') (l_hi l)) (b', a', h).
Proof.
  intros (H1 & H2 & H3 & H4 & H5 & r & H6) He. unfold lrep. simpl. rewrite <- He.
  split_and!; try done. exists r. by rewrite H6, !app_assoc, He.
Qed.

Lemma lrep_insert l b a h c :
  lrep l (b, a, h) -> zlen (b ++ a) < 511 -> c <> 0 ->
  lrep (Line (aset (aset (copy_down (Z.to_nat (l_len l - l_cur l)) (Z.to_nat (l_cur l) + 1) (Z.to_nat (l_cur l)) (l_in l)) (l_cur l) c)
                   (l_len l + 1) 0) (l_len l + 1) (l_cur l + 1) (l_hi l)) (b ++ [c], a, h).
Proof.
  intros (H1 & H2 & H3 & H4 & H5 & r & H6) Hlt Hc. unfold lrep. simpl. rewrite zlen_app in *.
  destruct r as [|x r]; [rewrite H6 in H1; zlens|]. rewrite H6 in H1.
  match goal with |- context [aset (aset ?d ?i ?v) ?j 0] => assert (Hd : aset (aset d i v) j 0 = (b ++ c :: a) ++ 0 :: r) end.
  { rewrite H2, H3, H6. replace (Z.to_nat (zlen b + zlen a - zlen b)) with (length a) by (unfold zlen; lia).
    replace (Z.to_nat (zlen b)) with (length b) by (unfold zlen; lia).
    rewrite (eq_refl : aset _ (zlen b) c = <[Z.to_nat (zlen b) := c]> _).
    replace (Z.to_nat (zlen b)) with (length b) by (unfold zlen; lia). rewrite insert_shift.
    replace (b ++ c :: a ++ x :: r) with ((b ++ c :: a) ++ x :: r) by (by rewrite <- app_assoc).
    apply aset_middle. zlens. }
  rewrite Hd. apply no_nul_split in H5 as [? ?].
  split_and!; [zlens|zlens|zlens|done| |].
  - rewrite !no_nul_split. split; [split; [done|by repeat constructor]|done].
  - exists r. by rewrite <- !app_assoc.
Qed.

Lemma lrep_remove l b a h b1 x a1 :
  lrep l (b, a, h) -> b ++ a = b1 ++ x :: a1 ->
  lrep (let b' := copy_up (Z.to_nat (l_len l - 1 - zlen b1)) (Z.to_nat (zlen b1)) (Z.to_nat (zlen b1) + 1) (l_in l) in
        if l_len l - 1 =? 0 then Line (replicate 512 0) 0 0 (l_hi l)
        else Line (aset b' (l_len l - 1) 0) (l_len l - 1) (zlen b1) (l_hi l)) (b1, a1, h).
Proof.
  intros (H1 & H2 & H3 & H4 & H5 & r & H6) He. cbv zeta. rewrite He in H2, H5. rewrite zlen_app, zlen_cons in H2.
  pose proof (zlen_nonneg b1). pose proof (zlen_nonneg a1). case_test.
  { assert (b1 = []) as -> by (apply zlen_zero; lia). assert (a1 = []) as -> by (apply zlen_zero; lia).
    split_and!; try done; [constructor|]. by exists (replicate 511 0). }
  unfold lrep. simpl. rewrite app_assoc, He, <- app_assoc in H6. cbn [app] in H6.
  replace (Z.to_nat (l_len l - 1 - zlen b1)) with (length a1) by (unfold zlen in *; lia).
  replace (Z.to_nat (zlen b1)) with (length b1) by (unfold zlen; lia).
  destruct (remove_shift b1 a1 (0 :: r) x) as [q Hq]. rewrite H6, Hq.
  assert (Hz : zlen (b1 ++ a1 ++ q) = 512).
  { rewrite <- Hq. unfold zlen. rewrite length_copy_up, <- H6. exact H1. }
  rewrite H6 in H1. rewrite !zlen_app, !zlen_cons, zlen_app, zlen_cons in H1.
  destruct q as [|y q]; [rewrite !zlen_app, zlen_nil in Hz; pose proof (zlen_nonneg r); lia|].
  rewrite app_assoc, aset_middle by (rewrite zlen_app; lia). apply no_nul_split in H5 as [? H5]. apply Forall_cons in H5 as [_ ?].
  split_and!; [|rewrite zlen_app; lia|done|done|by apply no_nul_split|exists q; by rewrite <- app_assoc].
  rewrite !zlen_app, !zlen_cons in *. lia.
Qed.

Lemma lrep_text l b a h t h' :
  lrep l (b, a, h) -> zlen t < 512 -> no_nul t -> lrep (Line (write_cstr (l_in l) t) (zlen t) (zlen t) h') (t, [], h').
Proof.
  intros (H1 & _) Ht Hn. unfold lrep, write_cstr. simpl. rewrite app_nil_r. split_and!; try done; [|by eexists].
  unfold zlen in *. rewrite length_app. simpl. rewrite length_drop. lia.
Qed.

(** *** Keys *)

Lemma quiet_puts {A} (f : A -> M sh unit) l : (forall x, quiet (f x)) -> quiet (mapM_ f l).
Proof. apply quiet_mapM. Qed.
Lemma quiet_erase1 : quiet erase1.
Proof. unfold erase1. repeat (apply quiet_bind; [apply quiet_emit|]). apply quiet_emit. Qed.
Lemma quiet_erase_n n : quiet (erase_n n).
Proof. apply quiet_mapM. intros _. apply quiet_erase1. Qed.
Lemma quiet_put_chars t : quiet (put_chars t).
Proof. apply quiet_mapM. intros c. apply quiet_emit. Qed.
Lemma quiet_redraw l : quiet (redraw l).
Proof. apply quiet_bind; [apply quiet_erase_n|apply quiet_put_chars]. Qed.
Lemma quiet_put_tail l : quiet (put_tail l).
Proof. apply quiet_bind; [apply quiet_put_chars|]. apply quiet_mapM. intros _. apply quiet_emit. Qed.

(** A printing step keeps the state, and what follows decides the result. *)
Lemma quiet_then {A} (m : M sh unit) (k : M sh A) s a s' :
  quiet m -> (exists o, k s = Ok a s' o) -> exists o, (m ;; k) s = Ok a s' o.
Proof.
  intros Hm [o Ho]. pose proof (Hm s (fun _ x => x = s) (fun _ _ => False) eq_refl) as Hw. unfold wp in Hw.
  unfold mbind, M_bind. destruct (m s) as [[] s1 o1|]; [|done]. subst s1. rewrite Ho. by eexists.
Qed.

Definition hist_texts (hist : list cstr) : Prop := Forall (fun e => no_nul e /\ zlen e < 512) hist.

Lemma set_text_ok t l s : zlen t < 512 ->
  exists o, set_text t l s = Ok (Line (write_cstr (l_in l) t) (zlen t) (zlen t) (l_hi l)) s o.
Proof.
  intros Ht. unfold set_text. cbv zeta. rewrite take_ge by (unfold zlen in *; lia).
  apply quiet_then; [apply quiet_erase_n|]. apply quiet_then; [apply quiet_put_chars|]. by eexists.
Qed.

Lemma recall_ok b a h h' l s :
  lrep l (b, a, h) -> hist_texts (lash_hist (s_env s)) -> 0 <= h' < zlen (lash_hist (s_env s)) ->
  exists l' o, lash_recall h' l s = Ok l' s o /\ lrep l' (entry (lash_hist (s_env s)) h').
Proof.
  intros Hl Hh Hr. unfold entry. set (e := aget [] (lash_hist (s_env s)) h').
  assert (He : no_nul e /\ zlen e < 512).
  { unfold e, aget. rewrite nth_lookup. destruct (lookup_lt_is_Some_2 (lash_hist (s_env s)) (Z.to_nat h')) as [x Hx];
      [unfold zlen in *; lia|]. rewrite Hx. by apply (Forall_lookup_1 _ _ _ _ Hh Hx). }
  destruct He as [Hn Ht]. destruct (set_text_ok e l s Ht) as [o Ho].
  exists (Line (write_cstr (l_in l) e) (zlen e) (zlen e) h'). unfold lash_recall.
  rewrite (bind_ok get _ s s s []) by done. cbv zeta. fold e.
  rewrite (bind_ok (in_array _ _) _ s tt s []) by (unfold in_array; by replace ((0 <=? h') && _) with true by lia).
  rewrite (bind_ok (fits 512 e) _ s tt s []) by (unfold fits; by rewrite (proj2 (Z.ltb_lt _ _) Ht)).
  rewrite (bind_ok _ _ _ _ _ _ Ho). eexists. split; [reflexivity|]. by apply (lrep_text l b a h).
Qed.

Definition key_ok (l : line) (k : comp) (s : sh) (st : list Z * list Z * Z) (r : res sh (line * comp)) : Prop :=
  exists l' k' o, r = Ok (l', k') s o /\ lrep l' st /\ (k' = k \/ k' = no_comp k).

(** The steps of [lash_key] that compute a line and keep or drop the list. *)
Lemma key_ok_line l k s st (m : M sh line) k' :
  (exists l' o, m s = Ok l' s o /\ lrep l' st) -> (k' = k \/ k' = no_comp k) ->
  key_ok l k s st ((l' ← m; mret (l', k')) s).
Proof. intros (l' & o & Hm & Hl) Hk. rewrite (bind_ok _ _ _ _ _ _ Hm). by eexists l', k', _. Qed.

Lemma key_ok_quiet l k s st (m : M sh unit) l' : quiet m -> lrep l' st -> key_ok l k s st ((m ;; mret (l', k)) s).
Proof.
  intros Hm Hl. destruct (quiet_then m (mret (l', k)) s (l', k) s Hm) as [o Ho]; [by eexists|]. rewrite Ho.
  exists l', k, o. by split_and!; [| |left].
Qed.

Lemma insert_ok b a h c l s :
  lrep l (b, a, h) -> zlen (b ++ a) < 511 -> c <> 0 -> exists l' o, lash_insert c l s = Ok l' s o /\ lrep l' (b ++ [c], a, h).
Proof.
  intros Hl Hlt Hc. pose proof Hl as (_ & H2 & H3 & _). rewrite zlen_app in Hlt. pose proof (zlen_nonneg a). pose proof (zlen_nonneg b).
  unfold lash_insert. cbv zeta.
  rewrite (bind_ok (in_array _ _) _ s tt s []) by (unfold in_array; by replace ((0 <=? l_cur l) && _) with true by lia).
  set (l' := Line (aset (aset _ _ _) _ 0) _ _ _).
  destruct (quiet_then (vpc (u8 c)) (put_tail l' ;; mret l') s l' s) as [o Ho]; [apply quiet_emit| |].
  { apply quiet_then; [apply quiet_put_tail|]. by eexists. }
  rewrite Ho. eexists l', _. split; [reflexivity|]. apply lrep_insert; [done|rewrite zlen_app; lia|done].
Qed.

Lemma backspace_ok b a h l s :
  lrep l (b, a, h) -> exists l' o, lash_backspace l s = Ok l' s o /\
    lrep l' (match b with [] => ([], tail a, h) | _ => (removelast b, a, h) end).
Proof.
  intros Hl. pose proof Hl as (_ & H2 & H3 & H4 & _). unfold lash_backspace. rewrite zlen_app in H2.
  pose proof (zlen_nonneg a). pose proof (zlen_nonneg b). case_test.
  - cbv zeta. assert (exists b1 x a1, b ++ a = b1 ++ x :: a1 /\ (if 0 <? l_cur l then l_cur l - 1 else l_cur l) = zlen b1 /\
      match b with [] => ([], tail a, h) | _ => (removelast b, a, h) end = (b1, a1, h)) as (b1 & x & a1 & He & Hc & ->).
    { destruct b as [|y b]; [|destruct (last (y :: b)) as [x|] eqn:Ex; [|by apply last_None in Ex]].
      - destruct a as [|x a]; [rewrite zlen_nil in *; lia|]. exists [], x, a. rewrite H3. done.
      - exists (removelast (y :: b)), x, a. pose proof (zlen_removelast _ _ Ex). apply last_removelast in Ex.
        split_and!; [by rewrite Ex at 1; rewrite <- app_assoc| |done].
        rewrite (proj2 (Z.ltb_lt _ _)) by (rewrite zlen_cons in *; pose proof (zlen_nonneg b); lia). lia. }
    rewrite Hc. set (l' := Line (copy_up _ _ _ _) _ _ _).
    assert (exists o, (erase1 ;; put_tail l' ;; mret l') s = Ok l' s o) as [o Ho].
    { apply quiet_then; [apply quiet_erase1|]. apply quiet_then; [apply quiet_put_tail|]. by eexists. }
    rewrite (bind_ok _ _ _ _ _ _ Ho). eexists _, _. split; [reflexivity|]. exact (lrep_remove l b a h b1 x a1 Hl He).
  - assert (a = []) as -> by (apply zlen_zero; lia). assert (b = []) as -> by (apply zlen_zero; lia).
    rewrite (bind_ok (mret l) _ s l s []) by done. eexists _, _. split; [reflexivity|].
    rewrite (proj2 (Z.eqb_eq (l_len l) 0)) by (rewrite zlen_nil in *; lia).
    split_and!; try done; [constructor|]. by exists (replicate 511 0).
Qed.

Definition hi_ok (hist : list cstr) (st : list Z * list Z * Z) : Prop := -1 <= st.2 < zlen hist.

Lemma ledit_hi hist c st st' : hi_ok hist st -> ledit hist c st = Some st' -> hi_ok hist st'.
Proof.
  unfold hi_ok, ledit, entry. destruct st as [[b a] h]. cbn [snd]. intros Hi.
  repeat (case_test; try done); intros [= <-]; repeat case_match; simplify_eq; simpl; bool_to_prop; lia.
Qed.

Lemma lash_key_refines c st st' l k s :
  let hist := lash_hist (s_env s) in
  hist_texts hist -> hi_ok hist st -> lrep l st -> ledit hist c st = Some st' -> key_ok l k s st' (lash_key c l k s).
Proof.
  intros hist Ht Hi Hl. destruct st as [[b a] h]. pose proof Hl as (_ & H2 & H3 & H4 & _). unfold ledit, lash_key.
  rewrite zlen_app in H2. pose proof (zlen_nonneg a). pose proof (zlen_nonneg b). unfold hi_ok in Hi. cbn [snd] in Hi.
  destruct ((c =? c_nl) || (c =? c_cr) || (c =? 3) || (c =? c_tab)) eqn:Ec; [done|]. rewrite !orb_false_iff in Ec.
  destruct (c =? KEY_LEFT).
  { intros [= <-]. apply key_ok_quiet; [apply quiet_redraw|]. destruct (last b) as [x|] eqn:Ex.
    - pose proof (zlen_removelast b x Ex). pose proof (zlen_nonneg (removelast b)). rewrite (proj2 (Z.ltb_lt _ _)) by lia.
      replace (l_cur l - 1) with (zlen (removelast b)) by lia. apply (lrep_move l b a); [done|].
      apply last_removelast in Ex. by rewrite Ex at 1; rewrite <- app_assoc.
    - apply last_None in Ex as ->. rewrite H3. by apply (lrep_move l [] a). }
  destruct (c =? KEY_RIGHT).
  { intros [= <-]. apply key_ok_quiet; [apply quiet_redraw|]. destruct a as [|x a].
    - rewrite (proj2 (Z.ltb_ge _ _)) by zlens. rewrite H3. by apply (lrep_move l b []).
    - rewrite (proj2 (Z.ltb_lt _ _)) by (pose proof (zlen_nonneg a); zlens).
      replace (l_cur l + 1) with (zlen (b ++ [x])) by zlens. apply (lrep_move l b (x :: a)); [done|]. by rewrite <- app_assoc. }
  destruct ((c =? c_bs) || (c =? 127)).
  { intros [= <-]. apply key_ok_line; [by apply backspace_ok|by right]. }
  destruct (c =? KEY_UP).
  { intros [= <-]. apply key_ok_line; [|by right]. unfold lash_up. rewrite (bind_ok get _ s s s []) by done. cbv zeta.
    fold hist. rewrite H4. destruct (0 <? zlen hist) eqn:E; [|by eexists l, _].
    destruct (recall_ok b a h (if h <? 0 then zlen hist - 1 else if 0 <? h then h - 1 else h) l s Hl Ht) as (l' & o & Ho & Hr).
    - fold hist. bool_to_prop. repeat case_test; lia.
    - eexists l', _. by rewrite Ho. }
  destruct (c =? KEY_DOWN).
  { destruct ((0 <=? h) && (h <? zlen hist - 1)) eqn:E.
    2:{ destruct (b ++ a) eqn:Eba; [|done]. apply app_eq_nil in Eba as [-> ->]. intros [= <-].
        apply key_ok_line; [|by right]. unfold lash_down. rewrite (bind_ok get _ s s s []) by done. cbv zeta. fold hist.
        rewrite H4, E, H2, H3. eexists _, _. split; [reflexivity|]. destruct Hl as (? & _ & _ & _ & ? & ?). by split_and!. }
    intros [= <-]. apply key_ok_line; [|by right]. unfold lash_down. rewrite (bind_ok get _ s s s []) by done. cbv zeta.
    fold hist. rewrite H4, E. destruct (recall_ok b a h (h + 1) l s Hl Ht) as (l' & o & Ho & Hr); [fold hist; bool_to_prop; lia|].
    eexists l', _. by rewrite Ho. }
  destruct Ec as [_ ->]. rewrite H2, <- zlen_app. intros [= <-]. case_test; [|exists l, k, []; by split_and!; [| |left]].
  apply key_ok_line; [|by left]. apply insert_ok; [done|lia|lia].
Qed.

(** *** Lines *)

(** Two runs that end alike; the output is not compared. *)
Definition alike {A} (r1 r2 : res sh A) : Prop := result r1 = result r2 /\ post r1 = post r2.

Lemma alike_trans {A} (r1 r2 r3 : res sh A) : alike r1 r2 -> alike r2 r3 -> alike r1 r3.
Proof. intros [? ?] [? ?]. split; congruence. Qed.

Lemma alike_bind {A B} (m : M sh A) (k : A -> M sh B) s a s' o : m s = Ok a s' o -> alike ((m ≫= k) s) (k a s').
Proof. intros Hm. rewrite (bind_ok _ _ _ _ _ _ Hm). by destruct (k a s'). Qed.

Lemma sync_sync s : sync_grep (sync_grep s) = sync_grep s.
Proof. unfold sync_grep. destruct (grep_pipe_input (ufs (s_ust s))) as [[d n]|] eqn:E; simpl; [done|by rewrite E]. Qed.
Lemma sync_keys ks s : sync_grep (set_keys ks s) = set_keys ks (sync_grep s).
Proof. unfold sync_grep. simpl. by destruct (grep_pipe_input _) as [[d n]|]. Qed.
Lemma sync_env s : s_env (sync_grep s) = s_env s.
Proof. unfold sync_grep. by destruct (grep_pipe_input _) as [[d n]|]. Qed.
Lemma sync_pipe s : s_pipe (sync_grep s) = s_pipe s.
Proof. unfold sync_grep. by destruct (grep_pipe_input _) as [[d n]|]. Qed.

Lemma absorb_inactive o p : p_active p = false -> absorb_all o p = p.
Proof. intros Hp. unfold absorb_all. induction o as [|e o IH]; simpl; [done|]. unfold absorb at 2. by rewrite Hp. Qed.

Lemma leaf_ok {A} (m : M sh A) s a o :
  p_active (s_pipe s) = false -> m (sync_grep s) = Ok a (sync_grep s) o -> leaf m s = Ok a (sync_grep s) o.
Proof.
  intros Hp Hm. unfold leaf. rewrite Hm, absorb_inactive by (by rewrite sync_pipe). f_equal. by destruct (sync_grep s).
Qed.

Lemma poll_net_ok {W} `{NicOk W} (card_at : list Z -> option (rtl W)) s :
  (forall ks d, card_at ks = Some d -> ring_ok d) -> exists o, poll_net card_at s = Ok tt s o.
Proof.
  intros Hd. unfold poll_net. rewrite (bind_ok get _ s s s []) by done.
  destruct (card_at (ukeys (s_ust s))) as [d|] eqn:E; [|eexists; reflexivity].
  destruct (rtl_input_total d (Hd _ _ E)) as [d' Hi].
  rewrite (bind_ok _ _ s d' s []) by (unfold beside; by rewrite Hi). eexists. reflexivity.
Qed.

Section Lines.
Context {W : Type} `{NicOk W} (card_at : list Z -> option (rtl W)) (Hcard : forall ks d, card_at ks = Some d -> ring_ok d).
Context (rec : cstr -> M sh unit) (queued : list Z -> nat) (f : nat) (rest : list Z) (c : Z) (Hc : c = c_nl \/ c = c_cr).

(** What enter does with a line. *)
Definition run_line (t : cstr) (pos : Z) : M sh unit :=
  (if 0 <? zlen t then in_env (lash_push_hist t) ;; rec t else mret tt) ;;
  flush_keys queued ;; leaf lash_render_prompt ;; lash_loop rec queued card_at f line0 (comp0 pos).

Lemma loop_refines ks : forall st b a h l k s,
  hist_texts (lash_hist (s_env s)) -> hi_ok (lash_hist (s_env s)) st -> lrep l st ->
  ledits (lash_hist (s_env s)) ks st = Some (b, a, h) -> p_active (s_pipe s) = false -> c_shown k = false ->
  alike (lash_loop rec queued card_at (length ks + S f) l k (set_keys (ks ++ c :: rest) s))
        (run_line (b ++ a) (c_pos k) (set_keys rest (sync_grep s))).
Proof.
  induction ks as [|x ks IH]; intros st b a h l k s Ht Hi Hl He Hp Hk; cbn [length app Nat.add lash_loop].
  - injection He as ->. destruct (poll_net_ok card_at (set_keys (c :: rest) s) Hcard) as [o0 Ho0].
    eapply alike_trans; [by eapply alike_bind|]. eapply alike_trans; [apply (alike_bind next_key _ _ c (set_keys rest s) []); done|].
    replace ((c =? c_nl) || (c =? c_cr)) with true by (destruct Hc as [-> | ->]; done). rewrite Hk. cbn [andb].
    eapply alike_trans; [apply (alike_bind (leaf (vpc c_nl)) _ _ tt (set_keys rest (sync_grep s)) [EPc c_nl])|].
    { rewrite <- sync_keys. by apply leaf_ok. }
    pose proof Hl as (_ & H2 & _). rewrite (read_line l b a h Hl), H2. done.
  - cbn [ledits] in He. destruct (ledit (lash_hist (s_env s)) x st) as [st1|] eqn:E; [|done]. simpl in He.
    destruct (poll_net_ok card_at (set_keys (x :: ks ++ c :: rest) s) Hcard) as [o0 Ho0].
    eapply alike_trans; [by eapply alike_bind|]. eapply alike_trans; [apply (alike_bind next_key _ _ x (set_keys (ks ++ c :: rest) s) []); done|].
    assert ((x =? c_nl) || (x =? c_cr) = false /\ (x =? 3) = false) as [-> ->].
    { unfold ledit in E. destruct st as [[b0 a0] h0].
      destruct ((x =? c_nl) || (x =? c_cr)) eqn:E1; [done|]. destruct (x =? 3) eqn:E2; [done|]. done. }
    set (s1 := set_keys (ks ++ c :: rest) s) in *.
    destruct (lash_key_refines x st st1 l k (sync_grep s1)) as (l' & k' & o & Ho & Hl' & Hk').
    1-4: rewrite ?sync_env; done.
    eapply alike_trans; [eapply alike_bind, leaf_ok; [done|exact Ho]|]. cbn [fst snd]. unfold s1. rewrite sync_keys.
    pose proof (IH st1 b a h l' k' (sync_grep s)) as IH'. rewrite sync_env, sync_pipe, sync_sync in IH'.
    replace (c_pos k) with (c_pos k') by (by destruct Hk' as [-> | ->]).
    apply IH'; try done; [by eapply ledit_hi|by destruct Hk' as [-> | ->]].
Qed.

End Lines.

(** ** Properties *)

(** C10: The command line is an editor.  From an empty line, with no output going
    to a pipe, a history of texts and a network card that keeps its receive ring
    well formed (the loop polls it before every key), for every sequence of
    characters, backspaces, left, right, history-up and history-down keys on which
    the reference editor is defined, enter dispatches exactly the reference
    editor's text, which holds the text before and after the cursor; it pushes
    that text to the history first, then empties the key buffer, draws the prompt
    and reads the next line.  The reference is not defined on tab, on control-C,
    on enter inside the sequence, and on history-down past the newest entry while
    the line holds text, where the code loses the text and keeps the cursor. *)
Theorem command_line_refines {W} `{NicOk W} rec queued (card_at : list Z -> option (rtl W)) f pos ks c rest s b a h :
  (forall ks d, card_at ks = Some d -> ring_ok d) ->
  (c = c_nl \/ c = c_cr) -> p_active (s_pipe s) = false -> hist_texts (lash_hist (s_env s)) ->
  ukeys (s_ust s) = ks ++ c :: rest -> ledits (lash_hist (s_env s)) ks ([], [], -1) = Some (b, a, h) ->
  alike (lash_loop rec queued card_at (length ks + S f) line0 (comp0 pos) s)
        (run_line card_at rec queued f (b ++ a) pos (set_keys rest (sync_grep s))).
Proof.
  intros Hcard Hc Hp Ht Hk He.
  pose proof (loop_refines card_at Hcard rec queued f rest c Hc ks ([], [], -1) b a h line0 (comp0 pos) s) as Hr.
  rewrite <- Hk in Hr. replace (set_keys (ukeys (s_ust s)) s) with s in Hr by (by destruct s as [[]]).
  apply Hr; try done; [|apply lrep0]. unfold hi_ok. cbn [snd]. pose proof (zlen_nonneg (lash_hist (s_env s))). lia.
Qed.

(** A session to compute with. *)
Definition lash_sample (ks : list Z) : sh :=
  Sh (Ust [MkUser (cs "root") (cs "toor") 0 0 [c_slash] true] [MkGroup (cs "root") 0 [0]] 0 (cs "root") fs_sample ks)
     [] 5 (Ident (cs "root") 0 [c_slash] false) env_boot (Pipe (replicate 4096 0) 0 false) (Misc 0 0 []) (replicate 27 false, []).

(** A dispatcher that only notes the line, as its prompt's history. *)
Definition note_line (t : cstr) : M sh unit := in_env (sh_push_hist t).

(** A card with frames waiting while keys are left. *)
Definition card_sample (ks : list Z) : option (rtl rig) :=
  match ks with [] => None | _ => Some (rig_sample (replicate (Z.to_nat 8192) 5) 8188) end.

Lemma card_sample_ok ks d : card_sample ks = Some d -> ring_ok d.
Proof.
  unfold card_sample. destruct ks; [done|]. intros Hd%(inj Some). rewrite <- Hd. clear Hd d. split; [vm_compute; reflexivity|].
  split; [apply Forall_replicate; unfold byte_ok; lia|]. split; [cbn; lia|reflexivity].
Qed.

Lemma command_line_refines_witness :
  let ks := cs "heo" ++ [KEY_LEFT] ++ cs "l" in
  let s := lash_sample (ks ++ [c_nl]) in
  alike (lash_loop note_line (fun _ => O) card_sample (length ks + 1) line0 (comp0 0) s)
        (run_line card_sample note_line (fun _ => O) 0 (cs "helo") 0 (set_keys [] (sync_grep s))) /\
  sh_hist (s_env (post (lash_loop (W := rig) note_line (fun _ => O) (fun _ => None) (length ks + 1) line0 (comp0 0) s))) = [cs "helo"].
Proof.
  intros ks s. split; [|vm_compute; reflexivity].
  apply (command_line_refines note_line (fun _ => O) card_sample 0 0 ks c_nl [] s (cs "hel") (cs "o") (-1)).
  - exact card_sample_ok.
  - left. reflexivity.
  - reflexivity.
  - constructor.
  - reflexivity.
  - vm_compute. reflexivity.
Defined.

(** The text the loop would dispatch, after these keys on an empty line. *)
Definition after_keys (ks : list Z) : cstr :=
  read_cstr (l_in (fold_left (fun lk c => match lash_key c lk.1 lk.2 (lash_sample []) with Ok r _ _ => r | Err _ _ _ => lk end)
                             ks (line0, comp0 0)).1).

(** [KEY_DOWN] past the newest entry forgets the text but not the cursor: the
    next character is stored behind the old text, which comes back. *)
Lemma down_leaves_the_cursor : after_keys (cs "ab" ++ [KEY_DOWN] ++ cs "x") = cs "a".
Proof. vm_compute. reflexivity. Qed.

(** On a full line this writes past the array. *)
Lemma down_then_typing_overflows :
  let ks := replicate 511 97 ++ [KEY_DOWN; 98; 99] in
  result (lash_loop (W := rig) note_line (fun _ => O) (fun _ => None) 600 line0 (comp0 0) (lash_sample ks)) = inr OutOfBounds.
Proof. vm_compute. reflexivity. Qed.

(** A word longer than a known command is completed to the shorter command. *)
Lemma tab_shortens : after_keys (cs "lsfoo" ++ [c_tab]) = cs "ls".
Proof. vm_compute. reflexivity. Qed.

(** The word searched for ends at the first space: files are never completed. *)
Lemma tab_never_completes_files t : file_filter (read_cstr (span_max 63 c_sp t).1) = None.
Proof.
  unfold file_filter. enough (find_index (fun c => c =? c_sp) (read_cstr (span_max 63 c_sp t).1) = None) as -> by done.
  generalize 63%nat. intros n. revert t. induction n as [|n IH]; intros [|x t]; simpl; try done.
  destruct (x =? c_sp) eqn:E; [done|]. specialize (IH t). destruct (span_max n c_sp t) as [u r]. simpl in *.
  unfold read_cstr in *. simpl. destruct (x =? 0) eqn:E0; [done|].
  destruct (span_until 0 u) as [v w]. simpl in *. rewrite E. by rewrite IH.
Qed.

(** Tab cycles to the second candidate and no further. *)
Lemma tab_cycles_once :
  after_keys (cs "p" ++ [c_tab; c_tab]) = cs "python" /\ after_keys (cs "p" ++ [c_tab; c_tab; c_tab]) = cs "python".
Proof. split; vm_compute; reflexivity. Qed.

(** Enter with the list shown replaces the argument, not the command, by the
    command completed. *)
Lemma enter_replaces_the_argument :
  let r := fold_left (fun lk c => match lash_key c lk.1 lk.2 (lash_sample []) with Ok r _ _ => r | Err _ _ _ => lk end)
             (cs "p x" ++ [c_tab]) (line0, comp0 0) in
  match take_candidate r.1 r.2 (lash_sample []) with Ok l _ _ => read_cstr (l_in l) = cs "p pwd" | Err _ _ _ => False end.
Proof. vm_compute. reflexivity. Qed.
