(* ===== verification/ShellAuth.v ===== *)
(** * Who the shell acts for

    The identity of the session ([sh_user], [sh_uid]) and the two places where a
    password is asked for: [su], which changes it, and the login screen of the
    desktop.  Both are related to what the keys type and to the accounts. *)

From Stdlib Require Import ZArith Lia.
From stdpp Require Import base numbers list strings gmap relations.
From S2P Require Import Prelude CLib Console PigPath PigFs PigFsCmd Poing Users Nano ShellEnv Rpk ShellCmd Desktop Shell ShellRuns Ps2.

Definition who (s : sh) : cstr * Z := (sh_user (s_id s), sh_uid (s_id s)).

(** What the keys type at the password prompt, and the keys left. *)
Fixpoint typed_secret (ks : list Z) (pw : cstr) : option (cstr * list Z) :=
  match ks with
  | [] => None
  | c :: ks' =>
      if (c =? c_nl) || (c =? c_cr) then Some (pw, ks')
      else if (c =? c_bs) || (c =? 127) then typed_secret ks' (take (length pw - 1) pw)
      else if (32 <=? c) && (c <? 127) && (zlen pw <? 62) then typed_secret ks' (pw ++ [c])
      else typed_secret ks' pw
  end.

(** ** The password prompt *)

Lemma read_secret_spec ks : forall pw s,
  match typed_secret ks pw with
  | Some (t, r) => exists out, read_secret ks pw s = Ok t (set_keys r s) out
  | None => exists out, read_secret ks pw s = Err Blocked s out
  end.
Proof.
  induction ks as [|c ks IH]; intros pw s; cbn [typed_secret read_secret]; [by eexists|].
  destruct ((c =? c_nl) || (c =? c_cr)); [by eexists|].
  destruct ((c =? c_bs) || (c =? 127)).
  - case_test.
    + specialize (IH (take (length pw - 1) pw) s). unfold vpc, emit, mbind, M_bind.
      destruct (typed_secret ks (take (length pw - 1) pw)) as [[t' r]|]; destruct IH as [out ->]; by eexists.
    + rewrite (zlen_zero pw) by lia. apply IH.
  - case_test; [|apply IH]. specialize (IH (pw ++ [c]) s). unfold vpc, emit, mbind, M_bind.
    destruct (typed_secret ks (pw ++ [c])) as [[t' r]|]; destruct IH as [out ->]; by eexists.
Qed.

Lemma ask_password_spec s :
  match typed_secret (ukeys (s_ust s)) [] with
  | Some (t, r) => exists out, ask_password s = Ok t (set_keys r s) out
  | None => exists out, ask_password s = Err Blocked s out
  end.
Proof.
  pose proof (read_secret_spec (ukeys (s_ust s)) [] s) as H. unfold ask_password.
  destruct (typed_secret _ _) as [[t r]|]; destruct H as [out H];
    unfold vps, vrst, vpc, emit, get, mbind, M_bind; rewrite H; by eexists.
Qed.

Lemma typed_secret_print w rest : forall t,
  Forall (fun c => 32 <= c < 127) w -> zlen t + zlen w <= 62 ->
  typed_secret (w ++ c_nl :: rest) t = Some (t ++ w, rest).
Proof.
  induction w as [|c w IH]; intros t Hw Hl; cbn [app typed_secret]; [by rewrite app_nil_r|].
  apply Forall_cons in Hw as [Hc Hw]. rewrite zlen_cons in Hl. pose proof (zlen_nonneg w).
  rewrite !(proj2 (Z.eqb_neq c _)) by lia. cbn [orb].
  replace ((32 <=? c) && (c <? 127) && (zlen t <? 62)) with true by lia.
  rewrite IH; [by rewrite <- app_assoc|done|rewrite zlen_app, zlen_cons, zlen_nil; lia].
Qed.

(** ** The login screen *)

(** What the keys type into a field; [None] inside for escape. *)
Fixpoint typed_field (ks : list Z) (t : cstr) : option (option cstr * list Z) :=
  match ks with
  | [] => None
  | c :: ks' =>
      if c =? c_esc then Some (None, ks')
      else if (c =? c_nl) || (c =? c_cr) then Some (Some t, ks')
      else if (c =? c_bs) || (c =? 127) || (c =? KEY_DEL) then typed_field ks' (take (length t - 1) t)
      else if (32 <=? c) && (c <? 127) && (zlen t <? 31) then typed_field ks' (t ++ [c])
      else typed_field ks' t
  end.

Definition outcome {A} (r : res sh A) (ref : option (A * list Z)) (s : sh) : Prop :=
  exists out, r = match ref with Some (a, ks) => Ok a (set_keys ks s) out | None => Err Blocked s out end.

Lemma read_field_spec shown x y ks : forall t s, outcome (read_field shown x y ks t s) (typed_field ks t) s.
Proof.
  induction ks as [|c ks IH]; intros t s; cbn [typed_field read_field]; [by eexists|].
  destruct (c =? c_esc); [by eexists|]. destruct ((c =? c_nl) || (c =? c_cr)); [by eexists|].
  destruct ((c =? c_bs) || (c =? 127) || (c =? KEY_DEL)).
  - case_test; cbv zeta.
    + specialize (IH (take (length t - 1) t) s). destruct IH as [out Ho].
      unfold vat, emit, mbind, M_bind. rewrite Ho. destruct (typed_field ks _) as [[]|]; by eexists.
    + rewrite (zlen_zero t) by lia. apply IH.
  - case_test; [|apply IH]. specialize (IH (t ++ [c]) s). destruct IH as [out Ho].
    unfold vat, emit, mbind, M_bind. rewrite Ho. destruct (typed_field ks _) as [[]|]; by eexists.
Qed.

Lemma field_spec shown x y s : outcome (field shown x y s) (typed_field (ukeys (s_ust s)) []) s.
Proof.
  destruct (read_field_spec shown x y (ukeys (s_ust s)) [] s) as [out Ho]. unfold field, emit, get, mbind, M_bind.
  rewrite Ho. unfold outcome. destruct (typed_field _ _) as [[]|]; by eexists.
Qed.

(** The attempts: name, password, next attempt on a mismatch. *)
Fixpoint login_ref (fuel : nat) (s : sh) (ks : list Z) : option (bool * list Z) :=
  match fuel with
  | O => None
  | S f =>
      match typed_field ks [] with
      | None => None
      | Some (None, r) => Some (false, r)
      | Some (Some n, ks1) =>
          match typed_field ks1 [] with
          | None => None
          | Some (None, r) => Some (false, r)
          | Some (Some p, ks2) =>
              match check_login s n p with Some true => Some (true, ks2) | _ => login_ref f s ks2 end
          end
      end
  end.

(** A run against a reference: the same result and keys, or waiting for a key
    in a state that differs in the keys alone. *)
Definition follows {A} (r : res sh A) (ref : option (A * list Z)) (s : sh) : Prop :=
  match ref with
  | Some (a, ks) => exists out, r = Ok a (set_keys ks s) out
  | None => exists ks out, r = Err Blocked (set_keys ks s) out
  end.

Lemma set_keys_id s : set_keys (ukeys (s_ust s)) s = s.
Proof. by destruct s as [[] ? ? ? ? ? ? ?]. Qed.
Lemma set_keys_twice a b s : set_keys a (set_keys b s) = set_keys a s.
Proof. done. Qed.

Lemma follows_field {B} shown x y (k : option cstr -> M sh B) s ks ref :
  match typed_field ks [] with
  | Some (r, ks1) => follows (k r (set_keys ks1 s)) ref s
  | None => ref = None
  end -> follows ((r ← field shown x y; k r) (set_keys ks s)) ref s.
Proof.
  destruct (field_spec shown x y (set_keys ks s)) as [out Ho]. change (ukeys (s_ust (set_keys ks s))) with ks in Ho.
  intros Hk. unfold follows, mbind, M_bind in *. rewrite Ho. destruct (typed_field ks []) as [[r ks1]|].
  - rewrite set_keys_twice. destruct ref as [[b ks2]|].
    + destruct Hk as [o ->]. by eexists.
    + destruct Hk as (ks2 & o & ->). by eexists _, _.
  - subst ref. by eexists _, _.
Qed.

Lemma follows_print {B} (m : M sh unit) (k : M sh B) s ks ref :
  quiet m -> follows (k (set_keys ks s)) ref s -> follows ((m ;; k) (set_keys ks s)) ref s.
Proof.
  intros Hm Hk. pose proof (Hm (set_keys ks s) (fun _ s' => s' = set_keys ks s) (fun _ _ => False) eq_refl) as Hw.
  unfold wp in Hw. unfold follows, mbind, M_bind in *. destruct (m (set_keys ks s)) as [[] s' o|]; [|done]. subst s'.
  destruct ref as [[b ks']|].
  - destruct Hk as [o' ->]. by eexists.
  - destruct Hk as (ks' & o' & ->). by eexists _, _.
Qed.

Lemma quiet_span lo hi f : (forall i, quiet (f i)) -> quiet (span lo hi f).
Proof. apply quiet_mapM. Qed.

Lemma login_loop_follows s f : forall ks, follows (login_loop f (set_keys ks s)) (login_ref f s ks) s.
Proof.
  induction f as [|f IH]; intros ks; cbn [login_loop login_ref]; [by eexists _, _|].
  do 3 (apply follows_print; [apply quiet_span; intros i; apply quiet_emit|]).
  apply follows_field. destruct (typed_field ks []) as [[[n|] ks1]|]; [|by eexists|done].
  apply follows_field. destruct (typed_field ks1 []) as [[[p|] ks2]|]; [|by eexists|done].
  unfold get. unfold mbind at 1, M_bind at 1. change (check_login (set_keys ks2 s) n p) with (check_login s n p).
  destruct (check_login s n p) as [[|]|]; [by eexists| |].
  all: match goal with |- context [(?m ;; ?k) ?st] =>
         pose proof (follows_print m k s ks2 _ (quiet_emit _) (IH ks2)) as Hp end;
       unfold follows in *; destruct (login_ref f s ks2) as [[b ks3]|];
       [destruct Hp as [o ->]; by eexists|destruct Hp as (k3 & o & ->); by eexists _, _].
Qed.

Lemma login_follows s : follows (login s) (login_ref (S (length (ukeys (s_ust s)))) s (ukeys (s_ust s))) s.
Proof.
  pose proof (login_loop_follows s (S (length (ukeys (s_ust s)))) (ukeys (s_ust s))) as H. rewrite set_keys_id in H.
  pose proof (follows_print draw_login (s' ← get; login_loop (S (length (ukeys (s_ust s'))))) s (ukeys (s_ust s))) as Hp.
  rewrite set_keys_id in Hp. apply Hp; clear Hp.
  - unfold draw_login. cbv zeta. repeat (apply quiet_bind; [first [apply quiet_emit|apply quiet_span; intros i; first [apply quiet_emit|apply quiet_bind; apply quiet_emit]]|]).
    apply quiet_emit.
  - unfold follows, mbind, M_bind, get in *. destruct (login_ref _ s _) as [[b ks]|].
    + destruct H as [o ->]. by eexists.
    + destruct H as (ks & o & ->). by eexists _, _.
Qed.

Lemma typed_field_suffix ks : forall t r ks', typed_field ks t = Some (r, ks') -> exists pre, ks = pre ++ ks'.
Proof.
  induction ks as [|c ks IH]; intros t r ks'; cbn [typed_field]; [done|].
  repeat case_test; try (intros [= <- <-]; by exists [c]); intros Ht; apply IH in Ht as [pre ->]; by exists (c :: pre).
Qed.

Lemma typed_field_print w rest : forall t,
  Forall (fun c => 32 <= c < 127) w -> zlen t + zlen w <= 31 ->
  typed_field (w ++ c_nl :: rest) t = Some (Some (t ++ w), rest).
Proof.
  induction w as [|c w IH]; intros t Hw Hl; cbn [app typed_field]; [by rewrite app_nil_r|].
  apply Forall_cons in Hw as [Hc Hw]. rewrite zlen_cons in Hl. pose proof (zlen_nonneg w).
  rewrite !(proj2 (Z.eqb_neq c _)) by lia. cbn [orb].
  replace ((32 <=? c) && (c <? 127) && (zlen t <? 31)) with true by lia.
  rewrite IH; [by rewrite <- app_assoc|done|rewrite zlen_app, zlen_cons, zlen_nil; lia].
Qed.

Lemma login_ref_sound s f : forall ks ks', login_ref f s ks = Some (true, ks') ->
  exists pre ks0 n p ks1, ks = pre ++ ks0 /\ typed_field ks0 [] = Some (Some n, ks1) /\
    typed_field ks1 [] = Some (Some p, ks') /\ check_login s n p = Some true.
Proof.
  induction f as [|f IH]; intros ks ks'; cbn [login_ref]; [done|].
  destruct (typed_field ks []) as [[[n|] ks1]|] eqn:E1; try done.
  destruct (typed_field ks1 []) as [[[p|] ks2]|] eqn:E2; try done.
  assert (Hrec : login_ref f s ks2 = Some (true, ks') -> exists pre ks0 n p ks1, ks = pre ++ ks0 /\
    typed_field ks0 [] = Some (Some n, ks1) /\ typed_field ks1 [] = Some (Some p, ks') /\ check_login s n p = Some true).
  { intros H. destruct (IH _ _ H) as (pre & ks0 & n' & p' & ks1' & -> & Hr).
    destruct (typed_field_suffix _ _ _ _ E1) as [p1 ->]. destruct (typed_field_suffix _ _ _ _ E2) as [p2 ->].
    exists (p1 ++ p2 ++ pre), ks0, n', p', ks1'. by rewrite <- !app_assoc. }
  destruct (check_login s n p) as [[|]|] eqn:Ec; [|exact Hrec|exact Hrec].
  intros [= <-]. by exists [], ks, n, p, ks1.
Qed.

Lemma check_login_true s n p :
  check_login s n p = Some true -> exists i u, users (s_ust s) !! i = Some u /\ active u = true /\ name u = n /\ pass u = p.
Proof.
  unfold check_login. destruct (ufind (s_ust s) n) as [i|] eqn:E; [|done].
  destruct (find_index_Some _ _ _ E) as (u & Hu & Ha). apply andb_true_iff in Ha as [Ha Hn]. apply streq_true in Hn.
  unfold user_at. rewrite nth_lookup, Hu. simpl. intros [= Hp]. apply streq_true in Hp. eauto 10.
Qed.

(** ** Properties *)

(** C14: The desktop opens only for the accounts: when the login succeeds, the
    last keys read typed the name and then the password of an active account,
    and nothing but the keyboard was consumed; and typing the name and password
    of an account succeeds at the first attempt, when both are printable and of at
    most 31 characters and it is the first active account of that name. *)
Theorem login_correct s :
  (forall s' out, login s = Ok true s' out ->
     exists pre ks0 ks1 ks2 i u, ukeys (s_ust s) = pre ++ ks0 /\
       users (s_ust s) !! i = Some u /\ active u = true /\
       typed_field ks0 [] = Some (Some (name u), ks1) /\ typed_field ks1 [] = Some (Some (pass u), ks2) /\
       s' = set_keys ks2 s) /\
  (forall i u rest, ufind (s_ust s) (name u) = Some i -> users (s_ust s) !! i = Some u ->
     Forall (fun c => 32 <= c < 127) (name u ++ pass u) -> zlen (name u) <= 31 -> zlen (pass u) <= 31 ->
     ukeys (s_ust s) = name u ++ [c_nl] ++ pass u ++ [c_nl] ++ rest ->
     exists out, login s = Ok true (set_keys rest s) out).
Proof.
  pose proof (login_follows s) as Hf. split.
  - intros s' out Hl. unfold follows in Hf. destruct (login_ref _ s _) as [[b ks']|] eqn:E.
    2:{ destruct Hf as (? & ? & Hf). congruence. }
    destruct Hf as [o Hf]. rewrite Hl in Hf. injection Hf as <- -> ->.
    destruct (login_ref_sound s _ _ _ E) as (pre & ks0 & n & p & ks1 & Hk & H1 & H2 & Hc).
    destruct (check_login_true s n p Hc) as (i & u & Hu & Ha & <- & <-). by exists pre, ks0, ks1, ks', i, u.
  - intros i u rest Hi Hu [Hn Hp]%Forall_app Hln Hlp Hk. cbn [app] in Hk. unfold follows in Hf. rewrite Hk in Hf. cbn [login_ref] in Hf.
    rewrite (typed_field_print (name u)) in Hf by (done || rewrite zlen_nil; lia). simpl in Hf.
    rewrite (typed_field_print (pass u)) in Hf by (done || rewrite zlen_nil; lia). simpl in Hf.
    assert (Hc : check_login s (name u) (pass u) = Some true).
    { unfold check_login, user_at. rewrite Hi, nth_lookup, Hu. simpl. by rewrite streq_refl. }
    by rewrite Hc in Hf.
Qed.

(** C13: [su] on every branch, for every argument, key sequence and table of
    accounts.  Without an argument, or with one that starts with a dash, the
    account is root.  When no active account has the name, the error is printed
    and nothing changes.  Otherwise a password is read: printable characters up
    to 62, with backspace, up to enter; while enter has not come the shell waits.
    When what was typed is the account's password, the session's user, uid and
    directory become the account's and nothing else changes but the keys read
    (unless the name or directory is too long for its array, which overflows);
    when it is not, only the keys are gone.  In particular typing the password
    of an active account (at most 62 printable characters) and enter is enough. *)
Theorem su_correct a s :
  let target := if bool_decide (a = []) || (cget a 0 =? c_dash) then cs "root" else a in
  match ufind (s_ust s) target with
  | None => cmd_su a s = Ok tt s [EPs (cs "su: user '"); EPs target; EPln (cs "' not found")]
  | Some i =>
      exists u, users (s_ust s) !! i = Some u /\ active u = true /\ name u = target /\
      match typed_secret (ukeys (s_ust s)) [] with
      | None => exists out, cmd_su a s = Err Blocked s out
      | Some (pw, ks) =>
          if bool_decide (pw = pass u) then
            if (zlen (name u) <? 32) && (zlen (home u) <? 256) then
              exists out, cmd_su a s = Ok tt (set_id (Ident (name u) (uid u) (home u) (sh_rok (s_id s))) (set_keys ks s)) out
            else exists out, cmd_su a s = Err BufferOverflow (set_keys ks s) out
          else exists out, cmd_su a s = Ok tt (set_keys ks s) (out ++ [EPln (cs "su: Authentication failure")])
      end /\
      (forall rest, Forall (fun c => 32 <= c < 127) (pass u) -> zlen (pass u) <= 62 ->
         ukeys (s_ust s) = pass u ++ c_nl :: rest -> typed_secret (ukeys (s_ust s)) [] = Some (pass u, rest))
  end.
Proof.
  cbv zeta. unfold cmd_su. set (target := if bool_decide (a = []) || _ then _ else _). cbv zeta.
  rewrite (bind_ok get _ s s s []) by done.
  destruct (ufind (s_ust s) target) as [ui|] eqn:Eu; [|done].
  destruct (find_index_Some _ _ _ Eu) as (u & Hu & Ha). apply andb_true_iff in Ha as [Ha Hn%streq_true].
  exists u. split_and!; [done|done|done| |].
  2:{ intros rest Hw Hl ->. by rewrite typed_secret_print. }
  pose proof (ask_password_spec s) as Hp.
  destruct (typed_secret (ukeys (s_ust s)) []) as [[pw r]|]; destruct Hp as [out Ho].
  2:{ unfold mbind, M_bind. rewrite Ho. by eexists. }
  rewrite (bind_ok _ _ _ _ _ _ Ho), (bind_ok get _ (set_keys r s) (set_keys r s) (set_keys r s) []) by done.
  assert (Hat : user_at (set_keys r s) ui = u) by (unfold user_at; simpl; by rewrite nth_lookup, Hu).
  rewrite Hat. unfold streq. case_bool_decide; [|by exists out].
  unfold fits. destruct (zlen (name u) <? 32); [|by eexists]. destruct (zlen (home u) <? 256); by eexists.
Qed.

(** A session to compute with: root and an ordinary user who is logged in. *)
Definition sh_sample (ks : list Z) : sh :=
  Sh (Ust [MkUser (cs "root") (cs "toor") 0 0 [c_slash] true; MkUser (cs "pig") (cs "oink") 1001 2 (cs "/home/pig/") true]
          [MkGroup (cs "root") 0 [0]] 0 (cs "root") fs_sample ks)
     [] 5 (Ident (cs "pig") 1001 (cs "/home/pig/") false) env_boot (Pipe (replicate 4096 0) 0 false) (Misc 0 0 [])
     (replicate 27 false, []).

Lemma login_correct_witness :
  exists out, login (sh_sample (cs "pig" ++ [c_nl] ++ cs "oink" ++ [c_nl] ++ [1])) = Ok true (set_keys [1] (sh_sample [])) out.
Proof.
  destruct (login_correct (sh_sample (cs "pig" ++ [c_nl] ++ cs "oink" ++ [c_nl] ++ [1]))) as [_ H].
  apply (H 1%nat (MkUser (cs "pig") (cs "oink") 1001 2 (cs "/home/pig/") true) [1]).
  - reflexivity.
  - reflexivity.
  - repeat constructor; discriminate.
  - discriminate.
  - discriminate.
  - reflexivity.
Defined.

(** Any user becomes root without a password. *)
Lemma r_needs_no_password :
  who (post (sh_dispatch (fun _ _ => mret tt) [] [] [] 5 (cs "r-") (sh_sample []))) = (cs "root", 0).
Proof. vm_compute. reflexivity. Qed.

(** [passwd] without a name changes the password of root, whoever runs it: the
    account it names, [cur_user], is never updated. *)
Lemma passwd_changes_root :
  let s := post (sh_dispatch (fun _ _ => mret tt) [] [] [] 5 (cs "passwd") (sh_sample (cs "mine" ++ [c_nl]))) in
  who s = (cs "pig", 1001) /\ pass (user_at s 0) = cs "mine" /\ pass (user_at s 1) = cs "oink".
Proof. vm_compute. done. Qed.

(** [rok] accepts the string "toor" even when it is nobody's password. *)
Lemma rok_accepts_toor :
  let s := set_ust (set_users [MkUser (cs "root") (cs "secret") 0 0 [c_slash] true; MkUser (cs "pig") (cs "oink") 1001 2 (cs "/home/pig/") true]
                     (s_ust (sh_sample (cs "toor" ++ [c_nl])))) (sh_sample (cs "toor" ++ [c_nl])) in
  result (rok_check s) = inl true.
Proof. vm_compute. reflexivity. Qed.
