(* ===== verification/ShellInv.v ===== *)
(** * The invariant of a shell session

    [sh_ok]: every table the shell reaches is well-formed and within its buffer
    (accounts, files, units, packages, variables, aliases, histories, pipe), and
    uid 0 belongs to the name root only.  Every command and every run of the
    dispatcher keeps it, also when it ends in a fault. *)

From Stdlib Require Import ZArith Lia.
From stdpp Require Import base numbers list strings gmap relations.
From S2P Require Import Prelude CLib Console PigPath PigFs PigFsCmd Poing Users Nano ShellEnv Rpk ShellCmd Desktop Shell ShellRuns ShellAuth.

(** ** The file system *)

Notation fs_keeps := (runs (keeps fs_ok)).

Lemma keeps_fs_runs {A} (m : M fs A) : keeps_fs m -> fs_keeps m.
Proof. intros H. by apply runs_keeps_wp. Qed.

Lemma fsk_is_deleted p : fs_keeps (fs_is_deleted p).
Proof. apply runs_keeps_wp. intros s Hs. by apply wp_is_deleted. Qed.
Lemma fsk_memfs_find p : fs_keeps (memfs_find p).
Proof. apply runs_keeps_wp. intros s Hs. by apply wp_memfs_find. Qed.
Lemma fsk_find_vnode p : fs_keeps (fs_find_vnode p).
Proof. apply runs_keeps_wp. intros s Hs. by apply wp_find_vnode. Qed.
Lemma fsk_lookup_mem p : fs_keeps (lookup_mem p).
Proof. apply runs_keeps_wp. intros s Hs. by apply wp_lookup_mem. Qed.
Lemma fsk_resolve cwd a : fs_keeps (resolve cwd a).
Proof. apply runs_keeps_wp. intros s Hs. by apply wp_resolve. Qed.
Lemma fsk_create p : fs_keeps (memfs_create p).
Proof. apply keeps_fs_runs, create_keeps. Qed.
Lemma fsk_put_content i c : fs_keeps (put_content i c).
Proof. apply keeps_fs_runs, put_content_keeps. Qed.
Lemma fsk_put_is_dir i b : fs_keeps (put_is_dir i b).
Proof. apply keeps_fs_runs, put_is_dir_keeps. Qed.
Lemma fsk_put_unused i : fs_keeps (put_used i false).
Proof.
  apply runs_keeps_wp. intros s Hs. unfold put_used, memfs_update. wp_run. by apply update_any_ok.
Qed.
Lemma fsk_set_pipe d : fs_keeps (grep_set_pipe_input d).
Proof. apply runs_keeps_wp. intros s Hs. unfold grep_set_pipe_input. destruct d; wp_run; by destruct Hs. Qed.
#[export] Hint Resolve fsk_is_deleted fsk_memfs_find fsk_find_vnode fsk_lookup_mem fsk_resolve fsk_create
  fsk_put_content fsk_put_is_dir fsk_put_unused fsk_set_pipe : runs.

Lemma fsk_ls_collect o p ms : forall es, fs_keeps (ls_collect o p ms es).
Proof. induction ms as [|m ms IH]; intros es; cbn [ls_collect]; runs; apply IH. Qed.
Lemma fsk_ls_search p a : fs_keeps (ls_search_mem p a).
Proof. unfold ls_search_mem. runs. Qed.
#[export] Hint Resolve fsk_ls_collect fsk_ls_search : runs.
Lemma fsk_ls cwd a : fs_keeps (fs_ls cwd a).
Proof.
  unfold fs_ls. cbv zeta. destruct (ls_flags _ _ _) as [p o].
  generalize VFS. intros vfs. unfold ls_vnode, ls_print, spaces. runs.
Qed.

Lemma fsk_cat nd cwd a : fs_keeps (fs_cat nd cwd a).
Proof. unfold fs_cat. runs. Qed.
Lemma fsk_touch cwd a : fs_keeps (fs_touch cwd a).
Proof. unfold fs_touch. runs. Qed.
Lemma fsk_rm cwd a : fs_keeps (fs_rm cwd a).
Proof.
  unfold fs_rm. runs.
  apply runs_keeps_wp. intros s Hs. eapply wp_mono; [by apply rm_resolved_safe|..]; by intros ? ? [? _].
Qed.

Lemma fsk_grep_content f o : forall c l n, fs_keeps (grep_content f o c l n).
Proof.
  induction f as [|f IH]; intros [|x c] l n; cbn [grep_content]; try apply runs_ret, _.
  destruct (span_until c_nl (x :: c)) as [line rest]. unfold grep_line. runs.
Qed.
Lemma fsk_grep_text o c n : fs_keeps (grep_text o c n).
Proof. apply fsk_grep_content. Qed.
#[export] Hint Resolve fsk_grep_text : runs.
Lemma fsk_grep_all o sel : fs_keeps (grep_all o sel).
Proof. unfold grep_all. generalize VFS. intros vfs. runs. Qed.
#[export] Hint Resolve fsk_grep_all : runs.
Lemma fsk_grep cwd a : fs_keeps (fs_grep cwd a).
Proof.
  unfold fs_grep. destruct (no_arg a); [runs|]. cbv zeta. destruct (grep_flags _ _ _) as [p o].
  destruct (span_max 255 c_sp p) as [pt q]. runs.
Qed.

Lemma fsk_find_vnodes o b ns : fs_keeps (find_vnodes o b ns).
Proof. induction ns as [|n ns IH]; cbn [find_vnodes]; runs; apply IH. Qed.
#[export] Hint Resolve fsk_find_vnodes : runs.
Lemma fsk_find cwd a : fs_keeps (fs_find_cmd cwd a).
Proof.
  unfold fs_find_cmd. cbv zeta. generalize VFS. intros vfs. destruct (if negb _ && _ then _ else _) as [start p]. runs.
Qed.

Lemma fsk_nano_redraw e : fs_keeps (nano_redraw_cursor e).
Proof. unfold nano_redraw_cursor. runs. Qed.
#[export] Hint Resolve fsk_nano_redraw : runs.
Lemma fsk_nano_home e : fs_keeps (nano_home e).
Proof. unfold nano_home. runs. Qed.
Lemma fsk_nano_shown e : fs_keeps (nano_shown e).
Proof. unfold nano_shown. runs. Qed.
#[export] Hint Resolve fsk_nano_home fsk_nano_shown : runs.
Lemma fsk_nano_save p e : fs_keeps (nano_save p e).
Proof. unfold nano_save, store_file, message_line. runs. Qed.
#[export] Hint Resolve fsk_nano_save : runs.
Lemma fsk_nano_key p c e : fs_keeps (nano_key p c e).
Proof. unfold nano_key, message_line, nano_up, nano_down, nano_insert. runs. Qed.
#[export] Hint Resolve fsk_nano_key : runs.

Lemma fsk_nano_loop p n : forall ks e, (length ks <= n)%nat -> fs_keeps (nano_loop p ks e).
Proof.
  induction n as [|n IH]; intros [|c ks] e Hn; simpl in Hn; try lia; cbn [nano_loop]; try apply runs_fail, _.
  unfold message_line. destruct (c =? 24).
  - destruct (modified e); [|runs]. destruct ks as [|a ks]; [runs|]. simpl in Hn. runs; apply IH; lia.
  - runs. apply IH. lia.
Qed.
Lemma fsk_nano stale cwd f ks : fs_keeps (cmd_nano stale cwd f ks).
Proof. unfold cmd_nano, nano_path, nano_open. runs. by eapply fsk_nano_loop. Qed.
#[export] Hint Resolve fsk_ls fsk_cat fsk_touch fsk_rm fsk_grep fsk_find fsk_nano : runs.

(** ** Packages *)

Notation rpk_keeps := (runs (keeps rpk_ok)).

Lemma rpk_ok_keys ks s : rpk_ok s -> rpk_ok (set_rkeys ks s).
Proof. by intros []. Qed.
Lemma rpkk_modify_keys ks : rpk_keeps (modify (set_rkeys ks)).
Proof. apply runs_modify. intros s Hs. by apply rpk_ok_keys. Qed.
#[export] Hint Resolve rpkk_modify_keys : runs.

Lemma rpkk_wait_for p ks : rpk_keeps (wait_for p ks).
Proof. induction ks as [|c ks IH]; cbn [wait_for]; runs. Qed.
Lemma rpkk_py_loop ks : forall b n, rpk_keeps (py_loop ks b n).
Proof. induction ks as [|c ks IH]; intros b n; cbn [py_loop]; unfold py_answer; runs; apply IH. Qed.
#[export] Hint Resolve rpkk_wait_for rpkk_py_loop : runs.
Lemma rpkk_run pkg : rpk_keeps (cmd_rpk_run pkg).
Proof. unfold cmd_rpk_run, run_monitor, run_python, await. runs. Qed.
Lemma rpkk_cmd args : rpk_keeps (cmd_rpk args).
Proof.
  apply runs_keeps_wp. intros s Hs. eapply wp_mono; [by apply cmd_rpk_wp| |by intros ? ? []].
  intros [] s' [He Hf]. by eapply rpk_effect_ok.
Qed.

(** ** Variables, aliases and histories *)

Definition hist_ok (h : list cstr) : Prop := zlen h <= SH_HIST /\ Forall (fun l => zlen l < SH_BUF) h.

Record env_ok (e : env) : Prop := EnvOk {
  ok_vars : table_ok (vars e);
  ok_aliases : table_ok (aliases e);
  ok_sh_hist : hist_ok (sh_hist e);
  ok_lash_hist : hist_ok (lash_hist e);
}.
Notation env_keeps := (runs (keeps env_ok)).

Lemma table_set_keeps get_t set_t n v (P : env -> Prop) e :
  (forall t, table_ok t -> P (set_t t e)) -> table_ok (get_t e) -> P e -> P (post (table_set get_t set_t n v e)).
Proof.
  intros HP [Hl Hf] He. unfold table_set. rewrite (bind_ok get _ e e e []) by done. cbn [app].
  assert (forall m : M env unit, post (match m e with Ok a s o => Ok a s o | Err f s o => Err f s o end) = post (m e)) as ->
    by (intros m; by destruct (m e)).
  destruct (slot_of (get_t e) n) as [i|]; unfold fits.
  - case_test; simpl; [|done]. apply HP. split; [unfold zlen; by rewrite length_alter|].
    apply Forall_alter; [done|]. by intros [a b] _ [? ?].
  - case_test; simpl; [|done]. repeat case_test; simpl; try done. apply HP. split.
    + rewrite zlen_app, zlen_cons, zlen_nil. lia.
    + apply Forall_app; split; [done|]. by apply Forall_singleton.
Qed.

Lemma envk_alias_set n v : env_keeps (sh_alias_set n v).
Proof. intros e He. apply (table_set_keeps aliases set_aliases n v env_ok e); [|by destruct He|done]. intros t Ht. by destruct He. Qed.
Lemma envk_var_set n v : env_keeps (sh_var_set n v).
Proof. intros e He. apply (table_set_keeps vars set_vars n v env_ok e); [|by destruct He|done]. intros t Ht. by destruct He. Qed.

Lemma envk_unset n : env_keeps (modify (sh_unset n)).
Proof.
  apply runs_modify. intros e [[Hl Hf] ? ? ?]. constructor; try done. split; cbn [vars sh_unset set_vars].
  - unfold zlen. by rewrite length_map.
  - apply Forall_map. eapply Forall_impl; [exact Hf|]. intros p Hp. simpl. by case_test.
Qed.
Lemma envk_unalias n : env_keeps (sh_unalias n).
Proof.
  unfold sh_unalias. runs. apply runs_modify. intros e [? [Hl Hf] ? ?]. constructor; try done.
  split; cbn [aliases set_aliases].
  - unfold zlen. by rewrite length_alter.
  - by apply Forall_alter.
Qed.

Lemma push_ok h s : hist_ok h -> zlen s < SH_BUF -> hist_ok (if zlen h <? SH_HIST then h ++ [s] else push_full h s).
Proof.
  intros [Hl Hf] Hs. case_test.
  - split; [rewrite zlen_app, zlen_cons, zlen_nil; lia|]. apply Forall_app; split; [done|]. by apply Forall_singleton.
  - rewrite push_full_spec by lia. destruct h as [|x h]; [rewrite zlen_nil in *; lia|]. apply Forall_cons in Hf as [_ Hf].
    simpl. rewrite zlen_cons in *. split; [rewrite zlen_app, zlen_cons, zlen_nil; lia|].
    apply Forall_app; split; [done|]. by apply Forall_singleton.
Qed.
Lemma envk_sh_push l : env_keeps (sh_push_hist l).
Proof.
  apply runs_keeps_wp. intros e []. unfold sh_push_hist. wp_run; [|done]. constructor; try done. by apply push_ok.
Qed.
Lemma envk_lash_push l : env_keeps (lash_push_hist l).
Proof.
  apply runs_keeps_wp. intros e []. unfold lash_push_hist. wp_run; try done. constructor; try done. by apply push_ok.
Qed.

(** ** The session *)

Definition pkg_ok (k : list bool * list cstr) : Prop := forall f ks, fs_ok f -> rpk_ok (Rpk k.1 k.2 f ks).
Definition ident_ok (i : ident) : Prop :=
  zlen (sh_user i) < 32 /\ zlen (sh_cwd i) < 256 /\ (sh_uid i = 0 <-> sh_user i = cs "root").
Definition pipe_ok (p : pipe) : Prop := zlen (p_buf p) = 4096 /\ 0 <= p_len p <= 4095.
Definition todos_ok (m : misc) : Prop := zlen (todos m) <= 8 /\ Forall (fun t => zlen t < 64) (todos m).

Record sh_ok (s : sh) : Prop := ShOk {
  ok_accounts : users_ok (s_ust s);
  ok_services : poing_ok (Poing (s_pu s) (s_prl s) []);
  ok_packages : pkg_ok (s_pkg s);
  ok_ident : ident_ok (s_id s);
  ok_env : env_ok (s_env s);
  ok_pipe : pipe_ok (s_pipe s);
  ok_todos : todos_ok (s_misc s);
}.
Notation sh_keeps := (runs (keeps sh_ok)).

Lemma shk_ust {A} (m : M ust A) : runs (keeps users_ok) m -> sh_keeps (in_ust m).
Proof. intros Hm. apply (runs_zoom _ _ _ _ _ Hm). intros s u Hu []. constructor; simpl; auto. Qed.
Lemma shk_fsys {A} (m : M fs A) : fs_keeps m -> sh_keeps (in_fsys m).
Proof.
  intros Hm. apply shk_ust. apply (runs_zoom _ _ _ _ _ Hm). intros u f Hf Hu. apply set_ufs_ok; [done|]. apply Hf, ok_fs, Hu.
Qed.
Lemma shk_env {A} (m : M env A) : env_keeps m -> sh_keeps (in_env m).
Proof. intros Hm. apply (runs_zoom _ _ _ _ _ Hm). intros s e He []. constructor; simpl; auto. Qed.
Lemma shk_rpk {A} (m : M rpk A) : rpk_keeps m -> sh_keeps (in_rpk m).
Proof.
  intros Hm. apply (runs_zoom _ _ _ _ _ Hm). intros s r Hr Hs. pose proof Hs as [].
  destruct Hr as [? ? ? ?]; [apply ok_packages0; by destruct ok_accounts0|]. constructor; simpl; try done.
  by destruct ok_accounts0.
Qed.
Lemma shk_poing {A} (m : M poing A) : runs (keeps poing_ok) m -> sh_keeps (in_poing m).
Proof.
  intros Hm. apply (runs_zoom _ _ _ _ _ Hm). intros s p Hp Hs. pose proof Hs as [].
  destruct Hp; [by destruct ok_services0|]. constructor; simpl; try done. by destruct ok_accounts0.
Qed.

Lemma shk_poingctl a : runs (keeps poing_ok) (cmd_poingctl a).
Proof.
  intros p Hp. unfold cmd_poingctl. destruct a as [[|c a]|]; [done| |done].
  destruct (span_max 31 c_sp (c :: a)) as [sub q]. by apply poing_do_ok.
Qed.

Lemma shk_keys ks : sh_keeps (modify (set_keys ks)).
Proof. apply runs_modify. intros s []. constructor; simpl; try done. by destruct ok_accounts0. Qed.
Lemma shk_rok b : sh_keeps (modify (set_rok b)).
Proof. apply runs_modify. by intros s []. Qed.
Lemma shk_kb_wait p : sh_keeps (kb_wait p).
Proof. unfold kb_wait. runs. apply shk_keys. Qed.

#[export] Hint Resolve shk_ust shk_fsys shk_env shk_rpk shk_poing shk_keys shk_rok shk_kb_wait shk_poingctl rpkk_run rpkk_cmd
  envk_alias_set envk_var_set envk_unset envk_unalias envk_sh_push envk_lash_push : runs.

Lemma sh_pipe_put_ok c p : pipe_ok p -> pipe_ok (pipe_put c p).
Proof. intros [Hb Hl]. unfold pipe_put. case_test; [|done]. split; simpl; [by rewrite zlen_aset|lia]. Qed.
Lemma pipe_puts_ok s : forall p, pipe_ok p -> pipe_ok (fold_left (fun p c => pipe_put c p) s p).
Proof. induction s as [|c s IH]; simpl; auto using sh_pipe_put_ok. Qed.
Lemma absorb_ok e p : pipe_ok p -> pipe_ok (absorb e p).
Proof. intros Hp. unfold absorb. destruct (p_active p); [|done]. destruct e; auto using sh_pipe_put_ok, pipe_puts_ok. Qed.
Lemma absorb_all_ok es : forall p, pipe_ok p -> pipe_ok (absorb_all es p).
Proof. unfold absorb_all. induction es as [|e es IH]; simpl; auto using absorb_ok. Qed.

Lemma sync_grep_ok s : sh_ok s -> sh_ok (sync_grep s).
Proof.
  intros Hs. unfold sync_grep. destruct (grep_pipe_input _) as [[d n]|]; [|done].
  destruct Hs. constructor; simpl; try done. apply set_ufs_ok; [done|]. by destruct ok_accounts0 as [? ? ? ? ? ? ? []].
Qed.

(** A piece of a command: its output goes into the pipe as well. *)
Lemma shk_leaf {A} (m : M sh A) : sh_keeps m -> sh_keeps (leaf m).
Proof.
  intros Hm s Hs. specialize (Hm (sync_grep s) (sync_grep_ok s Hs)). unfold leaf.
  destruct (m (sync_grep s)); simpl in *; destruct Hm; constructor; simpl; auto using absorb_all_ok.
Qed.

(** ** The commands *)

Lemma keeps_users_runs (m : M ust unit) : keeps_users m -> runs (keeps users_ok) m.
Proof. intros H. by apply runs_keeps_wp. Qed.
#[export] Hint Resolve keeps_users_runs adduser_keeps passwd_keeps usermod_keeps groupadd_keeps : runs.

Lemma shk_groups a : runs (keeps users_ok) (cmd_groups a).
Proof. unfold cmd_groups. runs. Qed.
Lemma shk_id : runs (keeps users_ok) cmd_id.
Proof. unfold cmd_id. runs. Qed.
#[export] Hint Resolve shk_groups shk_id : runs.

(** Only the first account is root, by name and by number. *)
Lemma account_ident s i u :
  users_ok s -> users s !! i = Some u -> active u = true ->
  zlen (name u) < 32 /\ zlen (home u) < 64 /\ (uid u = 0 <-> name u = cs "root").
Proof.
  intros Hs Hi Ha. pose proof (Forall_lookup_1 _ _ _ _ (ok_users s Hs) Hi) as (? & _ & ?). split_and!; [done|done|].
  destruct (ok_root s Hs) as (r & Hr & Hra & Hrn). rewrite (ok_uids s Hs i u Hi). case_decide as E.
  - subst i. simplify_eq. by rewrite Hrn.
  - split; [lia|]. intros Hn. destruct E. eapply (Users.ok_names s Hs); eauto. congruence.
Qed.

Lemma shk_su a : sh_keeps (cmd_su a).
Proof.
  unfold cmd_su. generalize (if bool_decide (a = []) || (cget a 0 =? c_dash) then cs "root" else a). intros target.
  cbv zeta. apply runs_get_bind. intros s.
  destruct (ufind (s_ust s) target) as [ui|] eqn:Eu; [|by intros Hs].
  pose proof (ask_password_spec s) as Hp.
  destruct (typed_secret (ukeys (s_ust s)) []) as [[pw r]|] eqn:Et; destruct Hp as [out Ho].
  2:{ unfold mbind, M_bind. rewrite Ho. by intros Hs. }
  rewrite (bind_ok _ _ _ _ _ _ Ho), (bind_ok get _ (set_keys r s) (set_keys r s) (set_keys r s) []) by done.
  intros Hs. apply (shk_keys r s) in Hs as Hk. simpl in Hk.
  destruct (find_index_Some _ _ _ Eu) as (u & Hu & Ha). apply andb_true_iff in Ha as [Ha _].
  assert (Hat : user_at (set_keys r s) ui = u) by (unfold user_at; simpl; by rewrite nth_lookup, Hu).
  rewrite Hat. destruct (streq pw (pass u)); [|done]. unfold fits. repeat case_test; simpl; try done.
  destruct (account_ident (s_ust s) ui u) as (? & ? & ?); [by destruct Hs|done|done|].
  destruct Hk. by constructor.
Qed.

Lemma shk_r : sh_keeps cmd_r.
Proof. unfold cmd_r. runs. apply runs_modify. intros s []. by constructor. Qed.

Lemma shk_deluser a : sh_keeps (cmd_deluser a).
Proof.
  unfold cmd_deluser. case_bool_decide; [runs|]. apply runs_get_bind. intros s.
  destruct (ufind (s_ust s) a) as [ui|] eqn:E; [|by intros Hs]. destruct (streq a (cs "root")) eqn:Er; [by intros Hs|].
  intros Hs. apply streq_false in Er. destruct (find_index_Some _ _ _ E) as (u & Hu & Ha).
  apply andb_true_iff in Ha as [Ha Hn%streq_true]. destruct Hs. pose proof ok_accounts0 as Hu0.
  set (g := fun x => MkUser (name x) (pass x) (uid x) (gid x) (home x) false).
  assert (Hal : forall j v, alter g ui (users (s_ust s)) !! j = Some v ->
    exists w, users (s_ust s) !! j = Some w /\ uid v = uid w /\ name v = name w /\ (active v = true -> active w = true)).
  { intros j v. destruct (decide (ui = j)) as [<-|Hne].
    - rewrite list_lookup_alter, decide_True, Hu by done. intros [= <-]. by exists u.
    - rewrite list_lookup_alter_ne by done. eauto. }
  constructor; simpl; try done. constructor; cbn [users groups ufs set_users]; try apply Hu0.
  - unfold zlen. rewrite length_alter. apply Hu0.
  - destruct (ok_root _ Hu0) as (r & Hr & Hra & Hrn). exists r. rewrite list_lookup_alter_ne; [done|].
    intros ->. simplify_eq.
  - apply Forall_alter; [apply Hu0|]. intros x _ Hx. exact Hx.
  - unfold zlen. rewrite length_alter. apply Hu0.
  - intros i v Hi. destruct (Hal i v Hi) as (w & Hw & -> & _). by apply Hu0.
  - intros i j v w Hi Hj Hv Hw He. destruct (Hal i v Hi) as (v' & Hv' & _ & H1 & H2).
    destruct (Hal j w Hj) as (w' & Hw' & _ & H3 & H4). eapply (Users.ok_names _ Hu0); eauto. congruence.
Qed.

Lemma shk_cd a : sh_keeps (cmd_cd a).
Proof.
  unfold cmd_cd. apply runs_get_bind. intros s Hs. pose proof Hs as [].
  pose proof (fs_cd_wp (cwd_of s) (Some a) (ufs (s_ust s)) ltac:(by destruct ok_accounts0) ltac:(apply ok_ident0)) as Hw.
  unfold wp in Hw. unfold in_fsys, in_ust, in_fs, zoom, mbind, M_bind.
  destruct (fs_cd (cwd_of s) (Some a) (ufs (s_ust s))) as [c f o|e f o]; simpl.
  - destruct Hw as (-> & _ & Hc). replace (set_ufs _ _) with (s_ust s) by (by destruct (s_ust s)).
    constructor; simpl; try done. by destruct ok_ident0 as (? & _ & ?).
  - subst f. by destruct s as [[]].
Qed.

Lemma shk_todo a : sh_keeps (cmd_todo a).
Proof.
  apply runs_keeps_wp. intros s Hs. unfold cmd_todo. apply wp_bind, wp_get. cbv zeta. case_bool_decide.
  { apply (proj1 (runs_keeps_wp _ _)); [|done]. runs. }
  case_test; [|by wp_run]. wp_run; [|done]. destruct Hs, ok_todos0 as [? ?]. constructor; simpl; try done. split; simpl.
  - rewrite zlen_app, zlen_cons, zlen_nil. lia.
  - apply Forall_app; split; [done|]. by apply Forall_singleton.
Qed.

Lemma shk_misc : sh_keeps cmd_color /\ sh_keeps cmd_fortune.
Proof. split; apply runs_keeps_wp; intros s Hs; unfold cmd_color, cmd_fortune, in_color; wp_run; try done; by destruct Hs. Qed.

Lemma shk_mkdir a : sh_keeps (cmd_mkdir a).
Proof. unfold cmd_mkdir. runs. apply shk_fsys. runs. Qed.
Lemma shk_rmdir a : sh_keeps (cmd_rmdir a).
Proof. unfold cmd_rmdir. runs. apply shk_fsys. runs. Qed.
#[export] Hint Resolve shk_cd shk_mkdir shk_rmdir : runs.

Lemma shk_state nd stale s a : Forall (fun p => sh_keeps p.2) (state_cmds nd stale s a).
Proof.
  unfold state_cmds. cbv zeta.
  repeat (constructor; [cbn [snd]; first [apply shk_su|apply shk_r|apply shk_deluser|apply shk_todo|apply shk_misc|
    apply runs_echo_cmd, _|
    unfold cmd_users, cmd_history, cmd_export, cmd_set, cmd_ls,
      cmd_stat, cmd_pnano, cmd_top, cmd_printf, cmd_env, cmd_alias, cmd_pigbrowse, print_vars, lines, fs_pwd;
    runs; fail]|]).
  constructor.
Qed.

#[export] Instance ok_session : Session (keeps sh_ok).
Proof.
  split; try typeclasses eauto; intros; auto with runs.
  - by apply shk_leaf.
  - apply runs_modify. intros s []. constructor; try done. destruct ok_pipe0. split; simpl; [by rewrite zlen_aset|lia].
  - apply runs_modify. by intros s [].
  - apply shk_r.
  - apply shk_state.
Qed.
