(* ===== verification/Kernel.v ===== *)
(** * Boot ([kernel/kernel.c])

    [rt_cfg], the boot screen and messages, and [kernel_main] from the multiboot
    entry to the shell.  What the probed devices answer is a record [hw].  The
    network is brought up by [net_init] and [eth0_up] of [Net], on a network
    state beside the session's; of [mouse_init] only the outcome is used.  The
    state is the state of a shell session with empty tables ([sh_static]); the
    deletion store survives from before. *)

From Stdlib Require Import ZArith Lia.
From stdpp Require Import base numbers list strings gmap.
From S2P Require Import Rtl Net.
From S2P Require Import Prelude CLib Console PigPath PigFs PigFsCmd Poing Users Nano ShellEnv Rpk ShellCmd Desktop Shell ShellRuns Lash.
From S2P Require Import ShellAuth ShellInv.

(** ** The run-time configuration *)

(** One line: enabled, disabled, or nothing about this key. *)
Definition cfg_line (key line : cstr) : option bool :=
  if (zlen line <? 8) || (cget line 0 =? c_hash) then None
  else if negb (strneq line (cs "CONFIG_") 7) then None
  else if negb (strneq (drop 7 line) key (length key)) then None
  else
    let after := drop (7 + length key) line in
    if (cget after 0 =? c_eq) && (cget after 1 =? 121) then Some true
    else if (10 <=? zlen after) && (cget after 0 =? c_sp) && (cget after 1 =? 105) then Some false
    else None.

Definition line_end (c : Z) : bool := (c =? c_nl) || (c =? c_cr) || (c =? 0).

(** The scan ends only at a line that decides: the terminator is taken for one
    more line end, so it goes on behind the text. *)
Fixpoint rt_scan (key : cstr) (mem : list Z) (line : cstr) : M fs bool :=
  match mem with
  | [] => fail OutOfBounds
  | c :: mem' =>
      if line_end c then match cfg_line key line with Some b => mret b | None => rt_scan key mem' [] end
      else rt_scan key mem' (line ++ [c])
  end.

Section Boot.

(** [beyond]: the memory behind the terminator of the configuration text. *)
Context {W : Type} `{ENic : Nic W} `{ELwip : Lwip W} (beyond : list Z).

Definition rt_cfg (key : cstr) : M sh bool := in_fsys (
  m ← lookup_mem (cs "/etc/pigos.conf");
  match m with
  | None => mret true
  | Some m => if bool_decide (mf_content m = []) then mret true else rt_scan key (mf_content m ++ 0 :: beyond) []
  end).

(** ** Screens and messages *)

Definition boot_line (col : Z) (tag msg : cstr) : M sh unit :=
  mapM_ (fun c => emit (EPutCur (u8 c) col)) tag ;; vset C_WHITE C_BLACK ;; vpln msg.

Definition OK_C : Z := COL C_LGREEN C_BLACK.
Definition WARN_C : Z := COL C_YELLOW C_BLACK.
Definition INFO_C : Z := COL C_LCYAN C_BLACK.
Definition ok_line (msg : cstr) : M sh unit := boot_line OK_C (cs "[  OK  ] ") msg.
Definition skip_line (msg : cstr) : M sh unit := boot_line WARN_C (cs "[ SKIP ] ") msg.
Definition warn_line (msg : cstr) : M sh unit := boot_line WARN_C (cs "[ WARN ] ") msg.
Definition info_line (msg : cstr) : M sh unit := boot_line INFO_C (cs "[  ..  ] ") msg.

Definition fire : list Z :=
  [COL C_YELLOW C_LRED; COL C_LRED C_RED; COL C_YELLOW C_YELLOW; COL C_LRED C_LRED; COL C_WHITE C_YELLOW; COL C_LMAG C_LRED].
Definition fire_at (i : Z) : Z := aget 0 fire (Z.rem i 6).
Definition bar_fire : list Z :=
  [COL C_LRED C_BLACK; COL C_YELLOW C_BLACK; COL C_LMAG C_BLACK; COL C_LCYAN C_BLACK; COL C_LGREEN C_BLACK; COL C_WHITE C_BLACK].

Definition flare_logo : M sh unit :=
  vfill 0 0 80 25 c_sp (COL C_WHITE C_BLUE) ;;
  span 0 80 (fun i => vat 0xDB (fire_at i) i 0) ;; span 0 80 (fun i => vat 0xB2 (fire_at (i + 3)) i 1) ;;
  span 0 80 (fun i => vat 0xB2 (fire_at (i + 2)) i 23) ;; span 0 80 (fun i => vat 0xDB (fire_at (i + 1)) i 24) ;;
  span 2 23 (fun i => vat 0xDB (fire_at i) 0 i ;; vat 0xDB (fire_at (i + 3)) 79 i) ;;
  vstr 20 3 (COL C_YELLOW C_BLUE) (cs "  ______  _       ____  ____  _____") ;;
  vstr 20 4 (COL C_YELLOW C_BLUE) (cs " |  ____|/ |     /    ||  _ \|  ___|") ;;
  vstr 20 5 (COL C_LRED C_BLUE) (cs " | |_   | |    /  /| || |_) | |_") ;;
  vstr 20 6 (COL C_LRED C_BLUE) (cs " |  _|  | |___/  /_| ||  _ <|  _|") ;;
  vstr 20 7 (COL C_RED C_BLUE) (cs " |_|    |____-_____/ |_| \_\_|") ;;
  mapM_ (fun x => vat 94 (COL C_YELLOW C_BLUE) x 3 ;; vat 126 (COL C_LRED C_BLUE) x 4 ;; vat 42 (COL C_YELLOW C_BLUE) x 5 ;;
                  vat 126 (COL C_RED C_BLUE) x 6 ;; vat 94 (COL C_LRED C_BLUE) x 7) [18; 57] ;;
  vstr 13 9 (COL C_LCYAN C_BLUE) (cs " >>> pigOS Bootloader v1.0 | x86_64 Long Mode <<<") ;;
  span 1 79 (fun i => vat 0xB1 (COL C_LCYAN C_BLUE) i 11) ;;
  vat 43 (COL C_LCYAN C_BLUE) 0 11 ;; vat 43 (COL C_LCYAN C_BLUE) 79 11.

Definition boot_menu : M sh unit :=
  let c := COL C_LCYAN C_BLACK in
  vfill 14 13 52 8 c_sp (COL C_WHITE C_BLACK) ;;
  span 15 65 (fun i => vat 0xC4 c i 13) ;; span 15 65 (fun i => vat 0xC4 c i 20) ;;
  span 14 21 (fun i => vat 0xB3 c 14 i) ;; span 14 21 (fun i => vat 0xB3 c 65 i) ;;
  vat 0xC9 c 14 13 ;; vat 0xBB c 65 13 ;; vat 0xC8 c 14 20 ;; vat 0xBC c 65 20 ;;
  vfill 15 13 50 1 c_sp (COL C_BLACK C_LCYAN) ;;
  vstr 22 13 (COL C_BLACK C_LCYAN) (cs " FLARE Boot Menu - pigOS v1.0 ") ;;
  vstr 16 14 (COL C_LGREEN C_BLACK) (cs " " ++ [0x10] ++ cs " [1]  pigOS v1.0 x86_64 Long Mode ") ;;
  vstr 51 14 (COL C_LGREEN C_BLACK) (cs "[DEFAULT]") ;;
  vstr 16 15 (COL C_LGREY C_BLACK) (cs "   [2]  pigOS v1.0 (safe mode)         ") ;;
  vstr 16 16 (COL C_LGREY C_BLACK) (cs "   [3]  pigOS recovery shell            ") ;;
  vstr 16 17 (COL C_LGREY C_BLACK) (cs "   [4]  pigMemTest x86_64              ").

Definition countdown : M sh unit :=
  vstr 16 21 (COL C_WHITE C_BLUE) (cs "  Loading: [") ;; vstr 54 21 (COL C_WHITE C_BLUE) (cs "]") ;;
  mapM_ (fun sec =>
    vstr 56 21 (COL C_YELLOW C_BLUE) [c_0 + sec] ;;
    span 0 5 (fun b => vat 0xDB (aget 0 bar_fire (5 - sec)) (27 + (5 - sec) * 5 + b) 21 ;; emit EHwCursor))
    [5; 4; 3; 2; 1] ;;
  vfill 27 21 27 1 c_sp (COL C_LGREEN C_BLUE) ;;
  vstr 28 21 (COL C_LGREEN C_BLUE) (cs "  pigOS v1.0 loaded - starting...  ").

Definition flash : M sh unit :=
  mapM_ (fun _ => vfill 0 0 80 25 c_sp (COL C_WHITE C_WHITE) ;; vfill 0 0 80 25 c_sp (COL C_WHITE C_BLUE)) [0; 1].

(** ** The boot sequence *)

(** [h_queued] and [h_card] as in [lash_loop]; [h_net], [h_virtio]: the network
    state before [net_init], with its card, and what the VirtIO slots answer;
    [h_pci b d]: [pci_r32(b,d,0,0)]. *)
Record hw := Hw {
  h_magic : Z; h_mouse : bool; h_pci : Z -> Z -> Z; h_net : net W; h_virtio : option (list (Z * Z));
  h_queued : list Z -> nat; h_card : list Z -> option (rtl W) }.
Context (h : hw).

(** [net_init(); eth0_up();] *)
Definition net_start : M (net W) unit := Net.net_init (h_virtio h) ;; Net.eth0_up ;; mret tt.

(** [if(rt_cfg(key)) m; else boot_line(WARN_C,"[ SKIP ] ",msg);] *)
Definition module (key : cstr) (m : M sh unit) (msg : cstr) : M sh unit :=
  on ← rt_cfg key; if on : bool then m else skip_line msg.

Definition boot_splash : M sh unit :=
  on ← rt_cfg (cs "BOOT_SPLASH");
  if on : bool then flare_logo ;; boot_menu ;; countdown ;; flush_keys (h_queued h) ;; flash
  else vclear ;; vset C_WHITE C_BLACK ;; vpln (cs "Boot splash disabled in config").

Definition boot_verbose : M sh unit :=
  module (cs "BOOT_VERBOSE")
    (vclear ;; vset C_WHITE C_BLACK ;;
     vstr 0 0 (COL C_LCYAN C_BLACK) (cs "pigOS v1.0 - pigKernel x86_64 - POUG") ;;
     vstr 40 0 (COL C_DGREY C_BLACK) (cs "[Long Mode | PML4 Paging]") ;; emit (EMove 0 2) ;;
     ok_line (cs "x86_64 Long Mode active (PML4->PDPT->PD, 2MB pages)") ;;
     ok_line (cs "VGA driver: 80x25 CP437 text mode @ 0xB8000") ;;
     ok_line (cs "VGA: hardware cursor port 0x3D4/0x3D5"))
    (cs "Verbose boot: disabled in config").

Definition boot_drivers : M sh unit :=
  module (cs "PS2_KEYBOARD") (ok_line (cs "PS/2 keyboard: polling US QWERTY layout")) (cs "PS/2 keyboard: disabled in config") ;;
  module (cs "PS2_MOUSE")
    (ok_line (cs "PS/2 mouse: initializing...") ;;
     if h_mouse h then ok_line (cs "PS/2 mouse: ready, software cursor enabled")
     else warn_line (cs "PS/2 mouse: no response (normal in some configs)"))
    (cs "PS/2 mouse: disabled in config") ;;
  module (cs "HEAP_ALLOC") (ok_line (cs "Memory: 4MB heap @ 0x400000 (bump allocator)")) (cs "Heap allocator: disabled in config") ;;
  if h_magic h =? 0x2BADB002 then ok_line (cs "Multiboot magic verified: 0x2BADB002")
  else warn_line (cs "Multiboot magic mismatch").

(** The three flags of the bus scan. *)
Record found := Found { f_host : bool; f_vga : bool; f_net : bool }.

(** One function: each flag and the message printed when it is set. *)
Definition pci_id (id : Z) (p : found) : M sh found :=
  if id =? 0xFFFFFFFF then mret p
  else
    p ← (if (Z.land id 0xFFFF0000 =? 0x80860000) && (Z.land id 0xFFFF =? 0x1237) && negb (f_host p)
         then ok_line (cs "PCI: Host bridge detected") ;; mret (Found true (f_vga p) (f_net p)) else mret p);
    p ← (if (Z.land id 0xFFFF =? 0x1111) && (Z.land id 0xFFFF0000 =? 0x12340000) && negb (f_vga p)
         then ok_line (cs "PCI: VGA compatible controller detected") ;; mret (Found (f_host p) true (f_net p)) else mret p);
    p ← (if (id =? 0x813910EC) && negb (f_net p)
         then on ← rt_cfg (cs "NET_RTL8139");
              if on : bool then ok_line (cs "PCI: RTL8139 Ethernet controller detected") ;; mret (Found (f_host p) (f_vga p) true)
              else mret p
         else mret p);
    if ((id =? 0x10088086) || (id =? 0x100E8086)) && negb (f_net p)
    then on ← rt_cfg (cs "NET_E1000");
         if on : bool then ok_line (cs "PCI: Intel PRO/1000 Ethernet controller detected") ;; mret (Found (f_host p) (f_vga p) true)
         else mret p
    else mret p.

Fixpoint pci_scan (bds : list (Z * Z)) (p : found) : M sh found :=
  match bds with
  | [] => mret p
  | (b, d) :: bds' => p ← pci_id (h_pci h b d) p; pci_scan bds' p
  end.
Definition pci_slots : list (Z * Z) := b ← seqZ 0 4; d ← seqZ 0 32; [(b, d)].

Definition boot_net : M sh unit :=
  module (cs "LWIP")
    (info_line (cs "PCI bus scan: enumerating devices...") ;;
     n ← beside net_start (h_net h);
     p ← pci_scan pci_slots (Found false false false);
     (if f_host p then mret tt else warn_line (cs "PCI: No host bridge detected")) ;;
     (if f_vga p then mret tt else warn_line (cs "PCI: No VGA device detected")) ;;
     if net_ok n then ok_line (cs "Network: carrier detected")
     else if negb (nic n =? 0) then warn_line (cs "Network: no carrier (check cable/QEMU args)")
     else warn_line (cs "Network: no supported NIC found"))
    (cs "Network stack: disabled in config").

Definition unit_lines : list cstr := map cs
  ["poing-early.unit  Early kernel environment"; "poing-udev.unit   Device manager (udev-pig)"; "poing-vga.unit    VGA console driver";
   "poing-kbd.unit    PS/2 keyboard"; "poing-mouse.unit  PS/2 mouse"; "poing-mem.unit    Memory allocator";
   "poing-net.unit    pig-net network stack"; "poing-fs.unit     pigfs virtual filesystem"; "poing-crypto.unit pigssl subsystem";
   "poing-wm.unit     PigWM compositor"; "poing-shell.unit  larpshell tty0"; "poing-log.unit    piglog logger";
   "poing-cron.unit   pig-cron scheduler"]%string.

Definition boot_services : M sh unit :=
  info_line (cs "udev-pig: enumerating /dev entries...") ;;
  ok_line (cs "/dev/tty0  /dev/kbd  /dev/mouse  /dev/null  /dev/zero") ;;
  ok_line (cs "/dev/eth0  /dev/mem  /dev/random  /dev/urandom") ;;
  in_fsys del_sync_from_store ;;
  module (cs "POING") (info_line (cs "poing: starting init system...")) (cs "poing init: disabled in config") ;;
  module (cs "USERS") (in_ust users_init) (cs "User management: disabled in config") ;;
  on ← rt_cfg (cs "POING");
  (if on : bool then in_poing poing_init ;; mapM_ ok_line unit_lines else mret tt) ;;
  module (cs "PIGFS") (ok_line (cs "pigfs: virtual filesystem mounted at /")) (cs "pigfs: disabled in config") ;;
  module (cs "PIGSSL") (ok_line (cs "pigssl: crypto subsystem ready")) (cs "pigssl: disabled in config") ;;
  ok_line (cs "pigOS v1.0 boot complete - starting larpshell").

Definition kernel_boot : M sh unit :=
  vclear ;; emit ECursorOff ;;
  boot_splash ;; boot_verbose ;; boot_drivers ;; boot_net ;; boot_services ;;
  emit (ECursorOn 13 15) ;; vclear.

(** [rec]: the dispatcher. *)
Definition kernel_main (rec : cstr -> M sh unit) : M sh unit :=
  kernel_boot ;;
  on ← rt_cfg (cs "LARPSHELL");
  (if on : bool then shell_run rec (h_queued h) (h_card h) else vpln (cs "larpshell disabled in config - halting")) ;;
  fail Halted.

End Boot.
Arguments hw : clear implicits.
Arguments Hw {W}.

(** The static data before [kernel_main]. *)
Definition sh_static (d : DelStore) (ks : list Z) : sh :=
  Sh (ust_boot (fs_boot d) ks) [] 5 (Ident (cs "root") 0 [c_slash] false) env_boot (Pipe (replicate 4096 0) 0 false) (Misc 0 0 [])
     (replicate 27 false, []).

(** ** The configuration *)

Definition conf : cstr := cs "/etc/pigos.conf".
Definition no_conf (f : fs) : Prop := Forall (fun m => mf_path m <> conf) (memfs f).

Lemma no_conf_lookup f : no_conf f -> lookup_mem conf f = Ok None f [].
Proof.
  intros Hf. unfold lookup_mem, memfs_find, get, mbind, M_bind. simpl.
  assert (H : forall i, memfs_scan i (memfs f) conf f = Ok None f []).
  { induction Hf as [|m l Hm _ IH]; intros i; cbn [memfs_scan]; [done|].
    rewrite (proj2 (streq_false _ _) Hm), andb_false_r. apply IH. }
  by rewrite H.
Qed.

Lemma rt_cfg_absent beyond key s : no_conf (ufs (s_ust s)) -> rt_cfg beyond key s = Ok true s [].
Proof.
  intros Hs. apply no_conf_lookup in Hs. unfold rt_cfg, in_fsys, in_ust, in_fs, zoom, mbind, M_bind. fold conf. rewrite Hs. simpl.
  f_equal. by destruct s as [[]].
Qed.

(** The text of a configuration: lines with their ends. *)
Definition is_line (l : cstr) : Prop := Forall (fun c => line_end c = false) l.
Definition cfg_text (ls : list (cstr * Z)) : list Z := concat (map (fun p => p.1 ++ [p.2]) ls).
Fixpoint cfg_ref (key : cstr) (ls : list cstr) : option bool :=
  match ls with [] => None | l :: ls' => match cfg_line key l with Some b => Some b | None => cfg_ref key ls' end end.

Lemma rt_scan_line key l e mem : forall acc s,
  is_line l -> line_end e = true ->
  rt_scan key (l ++ e :: mem) acc s = match cfg_line key (acc ++ l) with Some b => Ok b s [] | None => rt_scan key mem [] s end.
Proof.
  induction l as [|c l IH]; intros acc s Hl He; cbn [app rt_scan].
  - rewrite He, app_nil_r. by destruct (cfg_line key acc).
  - apply Forall_cons in Hl as [-> Hl]. rewrite IH, <- app_assoc by done. done.
Qed.

Lemma rt_scan_lines key ls mem s :
  Forall (fun p => is_line p.1 /\ line_end p.2 = true) ls ->
  rt_scan key (cfg_text ls ++ mem) [] s =
    match cfg_ref key (map fst ls) with Some b => Ok b s [] | None => rt_scan key mem [] s end.
Proof.
  induction 1 as [|[l e] ls [Hl He] _ IH]; [done|]. cbn [cfg_text map concat fst snd cfg_ref].
  rewrite <- !app_assoc. cbn [app]. rewrite rt_scan_line by done. cbn [app]. destruct (cfg_line key l); [done|]. apply IH.
Qed.

(** ** The boot sequence keeps the state but for its tables *)

Lemma quiet_boot_line c t m : quiet (boot_line c t m).
Proof. apply quiet_bind; [apply quiet_mapM; intros; apply quiet_emit|]. apply quiet_bind; apply quiet_emit. Qed.

Lemma quiet_ret : quiet (mret (M := M sh) tt).
Proof. intros s Q E HQ. by apply wp_ret. Qed.

Create HintDb quiet.
#[export] Hint Resolve quiet_emit quiet_ret quiet_boot_line : quiet.
Ltac quiet :=
  repeat first [progress cbv zeta|solve [auto with quiet]|apply quiet_emit|apply quiet_span; intros ?|apply quiet_mapM; intros ?|apply quiet_bind
               |match goal with |- quiet (if ?b then _ else _) => destruct b end].

Lemma quiet_logo : quiet flare_logo.
Proof. unfold flare_logo. quiet. Qed.
Lemma quiet_menu : quiet boot_menu.
Proof. unfold boot_menu. quiet. Qed.
Lemma quiet_countdown : quiet countdown.
Proof. unfold countdown. quiet. Qed.
Lemma quiet_flash : quiet flash.
Proof. unfold flash. quiet. Qed.
#[export] Hint Resolve quiet_logo quiet_menu quiet_countdown quiet_flash : quiet.

Definition never (_ : fault) (_ : sh) : Prop := False.

Section Boot.
Context {W : Type} `{ENic : Nic W} `{ELwip : Lwip W} (beyond : list Z) (h : hw W).

(** The fault, if any, in which bringing up the network ends. *)
Definition net_fault : option fault := match net_start h (h_net h) with Ok _ _ _ => None | Err f _ _ => Some f end.

(** The configuration is absent, so every module runs. *)
Lemma wp_rt_cfg key s (Q : bool -> sh -> Prop) E : no_conf (ufs (s_ust s)) -> Q true s -> wp (rt_cfg beyond key) s Q E.
Proof. intros Hs HQ. unfold wp. by rewrite rt_cfg_absent. Qed.

Lemma wp_module key m msg s Q E : no_conf (ufs (s_ust s)) -> wp m s Q E -> wp (module beyond key m msg) s Q E.
Proof. intros Hs Hm. unfold module. apply wp_bind, wp_rt_cfg; done. Qed.

Lemma wp_quiet m (k : M sh unit) s Q E : quiet m -> wp k s Q E -> wp (m ;; k) s Q E.
Proof. intros Hm Hk. apply wp_bind. by apply Hm. Qed.

Lemma wp_pci_id id p s (Q : found -> sh -> Prop) E : no_conf (ufs (s_ust s)) -> (forall p, Q p s) -> wp (pci_id beyond id p) s Q E.
Proof.
  intros Hs HQ. unfold pci_id. destruct (id =? 0xFFFFFFFF); [by apply wp_ret|].
  assert (Hset : forall (b : bool) m p p' (K : found -> sh -> Prop), (forall p, K p s) ->
    wp (if b then ok_line m ;; mret p' else mret p) s K E).
  { intros [|] m p1 p2 K HK; [|by apply wp_ret]. apply wp_bind, quiet_boot_line. by apply wp_ret. }
  apply wp_bind, Hset. clear p. intros p. apply wp_bind, Hset. clear p. intros p. apply wp_bind.
  assert (Hcfg : forall key m p p' (K : found -> sh -> Prop), (forall p, K p s) ->
    wp (on ← rt_cfg beyond key; if on : bool then ok_line m ;; mret p' else mret p) s K E).
  { intros key m p1 p2 K HK. apply wp_bind, wp_rt_cfg; [done|]. by apply (Hset true). }
  destruct (_ && negb (f_net p)); [apply Hcfg|apply wp_ret]; try intros p'; (destruct (_ && negb _); [by apply Hcfg|by apply wp_ret]).
Qed.

Lemma wp_pci_scan bds : forall p s (Q : found -> sh -> Prop) E,
  no_conf (ufs (s_ust s)) -> (forall p, Q p s) -> wp (pci_scan beyond h bds p) s Q E.
Proof.
  induction bds as [|[b d] bds IH]; intros p s Q E Hs HQ; cbn [pci_scan]; [by apply wp_ret|].
  apply wp_bind, wp_pci_id; [done|]. intros p'. by apply IH.
Qed.

Lemma wp_splash s : no_conf (ufs (s_ust s)) ->
  wp (boot_splash beyond h) s (fun _ s' => s' = set_keys (drop (h_queued h (ukeys (s_ust s))) (ukeys (s_ust s))) s) never.
Proof.
  intros Hs. unfold boot_splash. apply wp_bind, wp_rt_cfg; [done|].
  do 3 (apply wp_quiet; [auto with quiet|]). apply wp_bind. unfold flush_keys. apply wp_bind, wp_get, wp_modify. by apply quiet_flash.
Qed.

Lemma wp_devices s : no_conf (ufs (s_ust s)) ->
  wp (boot_verbose beyond ;; boot_drivers beyond h ;; boot_net beyond h) s
     (fun _ s' => s' = s /\ net_fault = None) (fun f s' => net_fault = Some f).
Proof.
  intros Hs. apply wp_bind. unfold boot_verbose. apply wp_module; [done|].
  assert (Hq : forall (m : M sh unit) (Q : unit -> sh -> Prop) E, quiet m -> Q tt s -> wp m s Q E) by (intros m Q E Hm; apply Hm).
  apply Hq; [unfold ok_line; quiet|]. apply wp_bind. unfold boot_drivers.
  apply wp_bind, wp_module; [done|]. apply Hq; [unfold ok_line; quiet|].
  apply wp_bind, wp_module; [done|]. apply Hq; [unfold ok_line, warn_line; quiet|].
  apply wp_bind, wp_module; [done|]. apply Hq; [unfold ok_line; quiet|].
  apply Hq; [unfold ok_line, warn_line; quiet|].
  unfold boot_net. apply wp_module; [done|]. apply wp_quiet; [unfold info_line; quiet|].
  apply wp_bind. unfold wp at 1, beside, net_fault. destruct (net_start h (h_net h)) as [[] n o|f n o]; [|done].
  apply wp_bind, wp_pci_scan; [done|]. intros p.
  apply Hq; [|done]. unfold ok_line, warn_line. quiet.
Qed.

Definition boot_fs (dl : list cstr) (f : fs) : Prop := fs_ok f /\ no_conf f /\ deleted_list f = dl.

Lemma boot_create dl p c d f (Q : unit -> fs -> Prop) E :
  boot_fs dl f -> p <> conf -> zlen p < 128 -> zlen c < 2048 -> (forall f', boot_fs dl f' -> Q tt f') -> wp (create_with p c d) f Q E.
Proof.
  intros (Hf & Hn & Hd) Hp Hl Hc HQ. unfold create_with. apply wp_bind. unfold wp at 1. rewrite memfs_create_eq by done.
  assert (Hput : forall i f1, boot_fs dl f1 -> wp ((if d then put_is_dir i true else mret tt) ;; put_content i c) f1 Q E).
  { intros i f1 H1.
    assert (Hup : forall g f2, boot_fs dl f2 -> (forall m, mf_path (g m) = mf_path m /\ (mf_used (g m) = true -> mf_used m = true) /\
      (slot_ok m -> slot_ok (g m))) -> boot_fs dl (set_memfs (alter g i (memfs f2)) f2)).
    { intros g f2 (? & Hn2 & ?) Hg. split_and!; [by apply update_any_ok| |done]. apply Forall_alter; [done|].
      intros m _ Hm. by destruct (Hg m) as [-> _]. }
    apply wp_bind. unfold put_is_dir, put_content, memfs_update.
    destruct d; wp_run; try lia; apply HQ; repeat apply Hup; try done; intros m; split_and!; try done; intros [? ?]; by split. }
  destruct (find_slot f p) eqn:?; [by apply Hput|]. case_test; [by wp_run; apply HQ|]. apply Hput. split_and!; [by apply append_ok| |done].
  apply Forall_app. split; [done|]. by apply Forall_singleton.
Qed.

(** What the boot leaves: the accounts and units are set up, the deletions of the
    store are loaded, nothing else changed. *)
Definition booted (d : DelStore) (ks : list Z) (s : sh) : Prop :=
  exists f, boot_fs (if magic d =? DEL_MAGIC then take (Z.to_nat (count d)) (paths d) else []) f /\
  s = Sh (Ust [MkUser (cs "root") (cs "toor") 0 0 [c_slash] true]
              [MkGroup (cs "root") 0 [0]; MkGroup (cs "wheel") 1 [0]; MkGroup (cs "users") 2 []] 0 (cs "root") f ks)
         initial_units 5 (Ident (cs "root") 0 [c_slash] false) env_boot (Pipe (replicate 4096 0) 0 false) (Misc 0 0 [])
         (replicate 27 false, []).

Lemma wp_services d ks : store_ok d -> wp (boot_services beyond) (sh_static d ks) (fun _ => booted d ks) never.
Proof.
  intros Hd. unfold boot_services. do 3 (apply wp_quiet; [unfold info_line, ok_line; auto with quiet|]). apply wp_bind.
  destruct (boot_sync d Hd) as (f & Hf & Hok & Hl & Hm).
  unfold in_fsys at 1, in_ust at 1, in_fs. apply wp_zoom, wp_zoom. unfold wp at 1. change (ufs (s_ust (sh_static d ks))) with (fs_boot d). rewrite Hf.
  assert (H0 : boot_fs (if magic d =? DEL_MAGIC then take (Z.to_nat (count d)) (paths d) else []) f)
    by (split_and!; [done|unfold no_conf; rewrite Hm; constructor|done]).
  clear Hf Hok Hl Hm. set (dl := if magic d =? DEL_MAGIC then _ else _) in *.
  apply wp_bind, wp_module; [apply H0|]. apply quiet_boot_line.
  apply wp_bind, wp_module; [apply H0|]. unfold in_ust. apply wp_zoom. unfold users_init. apply wp_bind, wp_modify, wp_bind, wp_modify.
  apply wp_zoom. cbn [ufs set_groups set_users set_ufs s_ust set_ust sh_static ust_boot].
  apply wp_bind. eapply boot_create; [exact H0|done|done|done|]. intros f1 H1.
  apply wp_bind. eapply boot_create; [exact H1|done|done|done|]. intros f2 H2.
  eapply boot_create; [exact H2|done|done|done|]. intros f3 H3.
  apply wp_bind, wp_rt_cfg; [apply H3|]. apply wp_bind, wp_bind. unfold in_poing at 1. apply wp_zoom.
  cbn [s_pu s_prl set_ust s_ust ukeys set_ufs set_groups set_users].
  unfold wp at 1. change (Poing [] 5 ks) with (poing_boot ks). rewrite poing_init_eq.
  assert (Hb : forall s : sh, s = Sh (Ust [MkUser (cs "root") (cs "toor") 0 0 [c_slash] true]
    [MkGroup (cs "root") 0 [0]; MkGroup (cs "wheel") 1 [0]; MkGroup (cs "users") 2 []] 0 (cs "root") f3 ks)
    initial_units 5 (Ident (cs "root") 0 [c_slash] false) env_boot (Pipe (replicate 4096 0) 0 false) (Misc 0 0 []) (replicate 27 false, []) ->
    booted d ks s) by (intros s ->; by exists f3).
  assert (Hq : forall s (m : M sh unit) (Q : unit -> sh -> Prop), quiet m -> Q tt s -> wp m s Q never) by (intros s m Q Hm; apply Hm).
  apply Hq; [apply quiet_mapM; intros; apply quiet_boot_line|].
  apply wp_bind, wp_module; [apply H3|]. apply quiet_boot_line.
  apply wp_bind, wp_module; [apply H3|]. apply quiet_boot_line. apply quiet_boot_line. by apply Hb.
Qed.

Lemma wp_kernel_boot d ks : store_ok d ->
  wp (kernel_boot beyond h) (sh_static d ks)
     (fun _ s => booted d (drop (h_queued h ks) ks) s /\ net_fault = None) (fun f _ => net_fault = Some f).
Proof.
  intros Hd. unfold kernel_boot. do 2 (apply wp_quiet; [apply quiet_emit|]).
  apply wp_bind. eapply wp_mono; [apply wp_splash; constructor| |by intros ? ? []]. intros _ s ->.
  change (set_keys _ (sh_static d ks)) with (sh_static d (drop (h_queued h ks) ks)). generalize (drop (h_queued h ks) ks). clear ks. intros ks.
  pose proof (wp_devices (sh_static d ks) ltac:(constructor)) as Hdev.
  assert (Hassoc : forall m1 m2 m3 m4 : M sh unit, forall s Q E, wp (m1 ;; m2 ;; m3) s (fun _ s' => wp m4 s' Q E) E ->
    wp (m1 ;; m2 ;; m3 ;; m4) s Q E).
  { intros m1 m2 m3 m4 s Q E Hm. unfold wp, mbind, M_bind in *. destruct (m1 s) as [? s1 ?|]; [|done].
    destruct (m2 s1) as [? s2 ?|]; [|done]. destruct (m3 s2) as [? s3 ?|]; [|done]. by destruct (m4 s3). }
  apply Hassoc. eapply wp_mono; [exact Hdev| |done]. intros [] s [-> Hn].
  apply wp_bind. eapply wp_mono; [by apply wp_services| |by intros ? ? []].
  intros [] s Hs. apply wp_bind, wp_emit, wp_emit. done.
Qed.

End Boot.

Lemma booted_ok d ks s : booted d ks s -> sh_ok s.
Proof.
  intros (f & (Hf & _) & ->). constructor; cbn [s_ust s_pu s_prl s_pkg s_id s_env s_pipe s_misc].
  - constructor; cbn [users groups ufs].
    + by unfold zlen; simpl; lia.
    + by unfold zlen; simpl; lia.
    + eexists. split; [reflexivity|done].
    + by apply Forall_singleton.
    + repeat constructor; unfold zlen; simpl; lia.
    + intros i u [-> <-]%list_lookup_singleton_Some. done.
    + intros i j u v [-> _]%list_lookup_singleton_Some [-> _]%list_lookup_singleton_Some. done.
    + done.
  - destruct (init_units []) as (q & o & Hq & _ & Hok & _). rewrite poing_init_eq in Hq. injection Hq as <- _. exact Hok.
  - intros f' ks' Hf'. apply rpk_boot_ok. done.
  - done.
  - repeat constructor; done.
  - done.
  - split; [done|constructor].
Qed.

(** ** Properties *)

(** C11: Boot.  Whatever the devices answer and the keys pressed, and for every
    deletion store that is absent or well formed, bringing up the network
    ([net_init] and [eth0_up], on the card and the stack found) decides.  When it
    ends without a fault, so does the whole boot sequence: then root is the only
    account and the user, the 16 units are loaded, exactly the stored deletions
    are in force, the session is well formed, and [kernel_main] goes on as the
    shell does.  When it ends in a fault (the register dump and the address text
    of [eth0_up] can overflow their arrays), boot and kernel end in that fault. *)
Theorem boot_reaches_shell {W} `{Nic W} `{Lwip W} beyond (h : hw W) rec d ks :
  store_ok d ->
  match net_fault h with
  | None =>
      exists s o, kernel_boot beyond h (sh_static d ks) = Ok tt s o /\ booted d (drop (h_queued h ks) ks) s /\ sh_ok s /\
        alike (kernel_main beyond h rec (sh_static d ks)) (shell_run rec (h_queued h) (h_card h) s)
  | Some f =>
      result (kernel_boot beyond h (sh_static d ks)) = inr f /\ result (kernel_main beyond h rec (sh_static d ks)) = inr f
  end.
Proof.
  intros Hd. pose proof (wp_kernel_boot beyond h d ks Hd) as Hw. unfold wp in Hw. unfold kernel_main.
  destruct (kernel_boot beyond h (sh_static d ks)) as [[] s o|f s o] eqn:E.
  - destruct Hw as [Hw ->].
    exists s, o. split_and!; [done|done|by eapply booted_ok|].
    eapply alike_trans; [by eapply alike_bind|]. assert (Hc : no_conf (ufs (s_ust s))) by (destruct Hw as (f & Hf & ->); apply Hf).
    eapply alike_trans; [by eapply alike_bind, rt_cfg_absent|].
    destruct (shell_never_returns rec (h_queued h) (h_card h) s) as (e & s' & o' & Hs). unfold mbind, M_bind. by rewrite Hs.
  - rewrite Hw. split; [done|]. unfold mbind, M_bind. by rewrite E.
Qed.

(** A machine without a network card, and one whose card reads back the 0x03000700
    that [eth0_up] stores in the transmit register. *)
Definition hw_sample : hw lab :=
  Hw 0x2BADB002 true (fun b d => if (b =? 0) && (d =? 3) then 0x813910EC else 0xFFFFFFFF)
     (Net 0 false false 0 0 0 [] false None false false false false 0 None
        (Rtl false 0 (replicate 6 0) 0 0 0 0 0 [] [] netlog0 (Lab []))) None (fun _ => 1%nat) (fun _ => None).

Record emu := Emu { emu_tx : Z }.
#[export] Instance emu_nic : Nic emu := {|
  in_port p := fun w => Ok (if p =? 0xC040 then emu_tx w else 0) w []; out_port p v := fun w => Ok tt (if p =? 0xC040 then Emu v else w) [];
  pci_r32 b d r := mret (if (b =? 0) && (d =? 3) then if r =? 0 then 0x813910EC else if r =? 0x10 then 0xC001 else 0 else 0xFFFFFFFF);
  pci_w32 _ _ _ _ := mret tt; pbuf_alloc _ := mret true; netif_input _ := mret tt |}.
#[export] Instance emu_lwip : Lwip emu := {|
  virtio_hw_init := mret false; e1000_hw_init := mret false; lwip_init := mret tt; netif_add _ := mret tt; netif_up := mret tt; netif_down := mret tt;
  netif_addr _ _ _ := mret tt; netif_flags := mret 14; netif_mtu := mret 1500; lw_poll _ := mret []; tcp_tmr := mret []; sys_check_timeouts := mret [];
  tcp_new := mret (Some 1); tcp_connect _ _ _ := mret 0; tcp_write _ d := mret 0; tcp_output _ := mret tt;
  tcp_recv _ := mret tt; tcp_abort _ := mret tt; tcp_close _ := mret tt; dns_gethostbyname _ := mret (Some 0x0202000A);
  raw_new := mret (Some 7); raw_sendto _ _ _ := mret 0; raw_remove _ := mret tt; pbuf_ok := mret true |}.
Definition hw_emu : hw emu :=
  Hw 0x2BADB002 true (fun b d => if (b =? 0) && (d =? 3) then 0x813910EC else 0xFFFFFFFF)
     (Net 0 false false 0 0 0 [] false None false false false false 0 None
        (Rtl false 0 (replicate 6 0) 0 0 0 0 0 [] [] netlog0 (Emu 0))) None (fun _ => 1%nat) (fun _ => None).

(** With a card that reads back what was stored in that register, the dump
    overflows its array while the machine boots. *)
Lemma boot_overflows_with_rtl8139 : net_fault hw_emu = Some BufferOverflow.
Proof. vm_compute. reflexivity. Qed.

Lemma hw_sample_boots : net_fault hw_sample = None.
Proof. vm_compute. reflexivity. Qed.

Lemma boot_reaches_shell_witness :
  (exists s o, kernel_boot [] hw_sample (sh_static (MkDel 0 0 []) [1; 2]) = Ok tt s o /\ ukeys (s_ust s) = [2]) /\
  result (kernel_boot [] hw_emu (sh_static (MkDel 0 0 []) [])) = inr BufferOverflow.
Proof.
  split.
  - pose proof (boot_reaches_shell [] hw_sample (fun _ => mret tt) (MkDel 0 0 []) [1; 2]) as Hb.
    rewrite hw_sample_boots in Hb.
    destruct Hb as (s & o & Hk & (f & _ & ->) & _); [intros Hm; discriminate Hm|].
    eexists _, o. split; [exact Hk|reflexivity].
  - pose proof (boot_reaches_shell [] hw_emu (fun _ => mret tt) (MkDel 0 0 []) []) as Hb.
    rewrite boot_overflows_with_rtl8139 in Hb. destruct Hb as [Hb _]; [intros Hm; discriminate Hm|]. exact Hb.
Defined.

(** The session invariant, up to the first fault (the model stops at a copy that
    does not fit its array, where the program would write past it): from power-on,
    for every sequence of keys, in every state the machine stops or waits in, the
    accounts, files, deletions, units, packages, variables, aliases, histories and
    the pipe buffer are well formed, root exists and only root has uid 0.  It is
    relative to the programs behind [app], which must keep the invariant. *)
Theorem system_invariant {W} `{Nic W} `{Lwip W} app nd stale stale_line fuel beyond (h : hw W) d ks :
  (forall c a, runs (keeps sh_ok) (app c a)) -> store_ok d -> net_fault h = None ->
  sh_ok (post (kernel_main beyond h (sh_dispatch app nd stale stale_line fuel) (sh_static d ks))).
Proof.
  intros Happ Hd Hn. pose proof (wp_kernel_boot beyond h d ks Hd) as Hw. unfold wp in Hw. unfold kernel_main.
  destruct (kernel_boot beyond h (sh_static d ks)) as [[] s o|] eqn:E; [|congruence]. destruct Hw as [Hw _].
  rewrite (bind_ok _ _ _ _ _ _ E).
  assert (Hc : no_conf (ufs (s_ust s))) by (destruct Hw as (f & Hf & ->); apply Hf).
  rewrite (bind_ok _ _ _ _ _ _ (rt_cfg_absent beyond _ s Hc)).
  pose proof (runs_shell_run (keeps sh_ok) (sh_dispatch app nd stale stale_line fuel)
    (dispatch_runs _ app nd stale stale_line fuel Happ) (h_queued h) (h_card h) s (booted_ok _ _ _ Hw)) as Hs.
  unfold mbind, M_bind. by destruct (shell_run _ _ _ s).
Qed.

Lemma system_invariant_witness :
  let s := post (kernel_main [] hw_sample (sh_dispatch (fun _ _ => mret tt) [] [] [] 5) (sh_static (MkDel 0 0 []) (1 :: cs "mkdir a" ++ [c_nl]))) in
  sh_ok s /\ abs (ufs (s_ust s)) !! cs "/a" <> None.
Proof.
  split; [|vm_compute; discriminate].
  apply (system_invariant (fun _ _ => mret tt) [] [] [] 5 [] hw_sample (MkDel 0 0 [])).
  - intros c a s Hs. exact Hs.
  - intros Hm. discriminate Hm.
  - vm_compute. reflexivity.
Defined.

(** The configuration file is read line by line: the first line that says
    CONFIG_key=y or CONFIG_key followed by " i" decides, comments and other lines
    do not; when no line decides, the scan goes on in the memory behind the text
    until one does or the memory ends. *)
Theorem rt_cfg_correct beyond key s ls l m :
  fs_ok (ufs (s_ust s)) -> abs (ufs (s_ust s)) !! conf = Some m -> mf_content m = cfg_text ls ++ l -> mf_content m <> [] ->
  Forall (fun p => is_line p.1 /\ line_end p.2 = true) ls -> is_line l ->
  rt_cfg beyond key s = match cfg_ref key (map fst ls ++ [l]) with
                        | Some b => Ok b s []
                        | None => in_fsys (rt_scan key beyond []) s
                        end.
Proof.
  intros Hf Hm Hc Hne Hls Hl. unfold rt_cfg, in_fsys, in_ust, in_fs, zoom, mbind, M_bind. fold conf.
  rewrite lookup_mem_eq by done. rewrite Hm. rewrite bool_decide_false by done. rewrite Hc.
  replace (cfg_text ls ++ l) with (cfg_text ls ++ l) by done. rewrite <- app_assoc, rt_scan_lines by done.
  rewrite rt_scan_line by done. cbn [app].
  assert (Href : cfg_ref key (map fst ls ++ [l]) = match cfg_ref key (map fst ls) with Some b => Some b | None => cfg_line key l end).
  { clear. induction ls as [|p ls IH]; simpl; [by destruct (cfg_line key l)|]. by destruct (cfg_line key p.1). }
  rewrite Href. destruct (cfg_ref key (map fst ls)) as [b|]; [f_equal; by destruct s as [[]]|].
  destruct (cfg_line key l); [f_equal; by destruct s as [[]]|]. simpl. by destruct (rt_scan key beyond [] (ufs (s_ust s))).
Qed.

(** A session whose configuration file says this. *)
Definition conf_sample (c : cstr) : sh :=
  set_ust (set_ufs (set_memfs [MkMem conf c true false] fs_sample) (s_ust (sh_static (MkDel 0 0 []) []))) (sh_static (MkDel 0 0 []) []).

Lemma conf_sample_ok c : zlen c < 2048 -> fs_ok (ufs (s_ust (conf_sample c))).
Proof.
  intros Hc. pose proof fs_sample_ok as []. constructor; try done.
  - by apply Forall_singleton.
  - intros i j m m' [-> _]%list_lookup_singleton_Some [-> _]%list_lookup_singleton_Some. done.
Qed.

Lemma rt_cfg_correct_witness :
  rt_cfg [] (cs "LWIP") (conf_sample (cs "CONFIG_LWIP is not set" ++ [c_nl])) =
    Ok false (conf_sample (cs "CONFIG_LWIP is not set" ++ [c_nl])) [].
Proof.
  refine (rt_cfg_correct [] (cs "LWIP") _ [(cs "CONFIG_LWIP is not set", c_nl)] []
            (MkMem conf (cs "CONFIG_LWIP is not set" ++ [c_nl]) true false) _ _ _ _ _ _).
  - apply conf_sample_ok. reflexivity.
  - vm_compute. reflexivity.
  - reflexivity.
  - discriminate.
  - apply Forall_singleton. split; [|reflexivity]. repeat constructor.
  - constructor.
Defined.

(** The form the comment in the source documents, with a leading hash, is
    skipped as a comment and disables nothing. *)
Lemma commented_module_stays_undecided key l : cfg_line key (c_hash :: l) = None.
Proof. unfold cfg_line. rewrite (eq_refl : cget (c_hash :: l) 0 =? c_hash = true). by rewrite orb_true_r. Qed.

(** A key the file does not mention makes the scan run past the file. *)
Lemma missing_key_overruns :
  result (rt_cfg [] (cs "USERS") (conf_sample (cs "CONFIG_LWIP=y" ++ [c_nl]))) = inr OutOfBounds.
Proof. vm_compute. reflexivity. Qed.

(** The halves of the vendor and device number are swapped: the host bridge and
    the display of the emulator (8086:1237, 1234:1111) are not recognised. *)
Lemma pci_ids_swapped beyond p s : forall r s' o,
  (pci_id beyond 0x12378086 p s = Ok r s' o -> f_host r = f_host p) /\ (pci_id beyond 0x11111234 p s = Ok r s' o -> f_vga r = f_vga p).
Proof. intros r s' o. split; unfold pci_id; simpl; by intros [= <- _ _]. Qed.
