(* ===== verification/Menuconfig.v ===== *)
(** * Kernel configuration ([shell/menuconfig.h])

    The menu edits the values of a fixed table of modules and saves them as the
    text that [rt_cfg] of [kernel/kernel.c] reads.  Keys arrive in bursts:
    draining the keyboard drops what is left of the current one, so that every
    interleaving of typing and draining is a list of bursts. *)

From Stdlib Require Import ZArith Lia.
From stdpp Require Import base numbers list list_numbers strings gmap.
From S2P Require Import Prelude CLib Console PigPath PigFs PigFsCmd Ps2 Users ShellCmd Lash ShellInv Kernel.

(** [mcfg_items]: keys and labels; the values are state. *)
Definition mcfg_items : list (cstr * cstr) := [
  (cs "BOOT_SPLASH", cs "Boot splash screen"); (cs "BOOT_VERBOSE", cs "Verbose boot"); (cs "VGA_DRIVER", cs "VGA text driver");
  (cs "PS2_KEYBOARD", cs "PS/2 keyboard driver"); (cs "PS2_MOUSE", cs "PS/2 mouse driver"); (cs "NET_RTL8139", cs "RTL8139 Ethernet");
  (cs "NET_E1000", cs "Intel PRO/1000 (e1000)"); (cs "NET_VIRTIO", cs "VirtIO Network"); (cs "LWIP", cs "lwIP network stack");
  (cs "LWIP_TCP", cs "TCP support"); (cs "LWIP_UDP", cs "UDP support"); (cs "LWIP_ICMP", cs "ICMP support");
  (cs "LWIP_DNS", cs "DNS resolution"); (cs "LWIP_DHCP", cs "DHCP client"); (cs "PIGFS", cs "pigFS virtual FS");
  (cs "PIGFS_PERSIST", cs "Persistent storage"); (cs "HEAP_ALLOC", cs "Heap allocator"); (cs "PIGSSL", cs "pigSSL/TLS");
  (cs "POING", cs "poing init system"); (cs "USERS", cs "User management"); (cs "LARPSHELL", cs "larpshell");
  (cs "PIGWM", cs "PigWM window manager"); (cs "VDM", cs "VDM display server"); (cs "PIGLOG", cs "piglog logger")].
Definition mcfg_count : Z := zlen mcfg_items.

Record mcfg := Mcfg {
  mc_sh : sh; mc_vals : list bool; mc_cursor : Z; mc_scroll : Z; mc_dirty : bool; mc_input : list (list Z) }.
Definition mc_set_sh (w : sh) s := Mcfg w (mc_vals s) (mc_cursor s) (mc_scroll s) (mc_dirty s) (mc_input s).
Definition mc_set_vals v s := Mcfg (mc_sh s) v (mc_cursor s) (mc_scroll s) (mc_dirty s) (mc_input s).
Definition mc_set_cursor c s := Mcfg (mc_sh s) (mc_vals s) c (mc_scroll s) (mc_dirty s) (mc_input s).
Definition mc_set_scroll c s := Mcfg (mc_sh s) (mc_vals s) (mc_cursor s) c (mc_dirty s) (mc_input s).
Definition mc_set_dirty d s := Mcfg (mc_sh s) (mc_vals s) (mc_cursor s) (mc_scroll s) d (mc_input s).
Definition mc_set_input i s := Mcfg (mc_sh s) (mc_vals s) (mc_cursor s) (mc_scroll s) (mc_dirty s) i.
Definition in_mc {A} (m : M fs A) : M mcfg A := zoom mc_sh mc_set_sh (in_fsys m).

(** ** The keyboard *)

Fixpoint next_key (bs : list (list Z)) : option (Z * list (list Z)) :=
  match bs with [] => None | [] :: r => next_key r | (k :: b) :: r => Some (k, b :: r) end.
Definition mc_get : M mcfg Z :=
  s ← get; match next_key (mc_input s) with Some (k, r) => modify (mc_set_input r) ;; mret k | None => fail Blocked end.
(** [while(kb_avail()) kb_get();] *)
Definition drain : M mcfg unit := modify (fun s => mc_set_input (tl (mc_input s)) s).

(** ** Reading the file *)

Definition key_char (c : Z) : bool := negb ((c =? c_eq) || (c =? c_sp)).
Fixpoint take_key (l : list Z) : list Z := match l with c :: l' => if key_char c then c :: take_key l' else [] | [] => [] end.

(** One line: [m] is the memory from its start, [len] its length. *)
Definition mcfg_line (m : list Z) (len : Z) (vals : list bool) : list bool :=
  if len <? 8 then vals
  else
    let hash := aget 0 m 0 =? c_hash in
    let off := if hash then 2%nat else O in
    if negb (strneq (drop off m) (cs "CONFIG_") 7) then vals
    else
      let start := (off + 7)%nat in
      let key := take_key (take (Z.to_nat len - start) (drop start m)) in
      let after := drop (start + length key) m in
      match list_find (fun it => streq it.1 key = true) mcfg_items with
      | Some (j, _) => <[j := if hash then false else (aget 0 after 0 =? c_eq) && (aget 0 after 1 =? 121)]> vals
      | None => vals
      end.

(** The terminator counts as a line end and the scan goes on behind it. *)
Fixpoint mcfg_scan (mem start : list Z) (len : Z) : M mcfg unit :=
  match mem with
  | [] => fail OutOfBounds
  | c :: mem' =>
      if line_end c then modify (fun s => mc_set_vals (mcfg_line start len (mc_vals s)) s) ;; mcfg_scan mem' mem' 0
      else mcfg_scan mem' start (len + 1)
  end.

(** [beyond]: the memory behind the terminator of the text. *)
Definition mcfg_load (beyond : list Z) : M mcfg unit :=
  m ← in_mc (lookup_mem (cs "/etc/pigos.conf"));
  match m with
  | None => mret tt
  | Some m => if bool_decide (mf_content m = []) then mret tt
              else mcfg_scan (mf_content m ++ 0 :: beyond) (mf_content m ++ 0 :: beyond) 0
  end.

(** ** Saving it *)

Definition mcfg_header : cstr :=
  cs "# pigOS Kernel Configuration" ++ [c_nl] ++ cs "# Generated by menuconfig" ++ [c_nl] ++ cs "# Changes apply on next reboot" ++ [c_nl; c_nl].
Definition item_line (key : cstr) (v : bool) : cstr := cs "CONFIG_" ++ key ++ (if v then cs "=y" else cs " is not set").
Definition mcfg_text (vals : list bool) : cstr :=
  mcfg_header ++ concat (zip_with (fun it v => item_line it.1 v ++ [c_nl]) mcfg_items vals).

(** [mf=memfs_find(MCFG_PATH); if(!mf) mf=memfs_create(MCFG_PATH);] *)
Definition conf_slot : M mcfg (option nat) :=
  i ← in_mc (memfs_find (cs "/etc/pigos.conf"));
  match i with Some _ => mret i | None => in_mc (memfs_create (cs "/etc/pigos.conf")) end.

Definition mcfg_save : M mcfg unit :=
  s ← get;
  let text := mcfg_text (mc_vals s) in
  fits 4096 text ;;
  i ← conf_slot;
  (match i with Some i => in_mc (put_content i (take 2047 text)) | None => mret tt end) ;;
  modify (mc_set_dirty false).

(** ** The menu *)

Notation MAX_VISIBLE := 18 (only parsing).

Definition fix_scroll (s : mcfg) : mcfg :=
  let s := if mc_cursor s <? mc_scroll s then mc_set_scroll (mc_cursor s) s else s in
  if mc_scroll s + MAX_VISIBLE <=? mc_cursor s then mc_set_scroll (mc_cursor s - MAX_VISIBLE + 1) s else s.

Definition draw_item (s : mcfg) (i : Z) : M mcfg unit :=
  let idx := mc_scroll s + i in
  let y := 5 + i in
  in_array 25 idx ;;
  (if idx =? mc_cursor s then vat 62 (COL C_LGREEN C_BLACK) 1 y else vat c_sp (COL C_WHITE C_BLACK) 1 y) ;;
  (if aget false (mc_vals s) idx then
     vat 91 (COL C_LGREEN C_BLACK) 3 y ;; vat 42 (COL C_LGREEN C_BLACK) 4 y ;; vat 93 (COL C_LGREEN C_BLACK) 5 y
   else
     vat 91 (COL C_DGREY C_BLACK) 3 y ;; vat c_sp (COL C_DGREY C_BLACK) 4 y ;; vat 93 (COL C_DGREY C_BLACK) 5 y) ;;
  vstr 7 y (COL C_WHITE C_BLACK) (aget ([], []) mcfg_items idx).2.

Definition draw_menu : M mcfg unit :=
  vclear ;; emit (EMove 0 0) ;;
  vfill 0 0 80 1 c_sp (COL C_BLACK C_LCYAN) ;;
  vstr 2 0 (COL C_WHITE C_LCYAN) (cs " pigOS Kernel Configuration (menuconfig) ") ;;
  vstr 1 2 (COL C_YELLOW C_BLACK) (cs "UP/DOWN: navigate  SPACE: toggle  S: save  Q: quit  R: reset defaults") ;;
  vstr 1 3 (COL C_DGREY C_BLACK) (cs "-----------------------------------------------------------------------") ;;
  modify fix_scroll ;;
  s ← get;
  mapM_ (draw_item s) (seqZ 0 (MAX_VISIBLE `min` (mcfg_count - mc_scroll s))) ;;
  (if MAX_VISIBLE <? mcfg_count then vstr 60 3 (COL C_DGREY C_BLACK) (cs "[scroll]") else mret tt) ;;
  vfill 0 24 80 1 c_sp (COL C_BLACK C_DGREY) ;;
  vstr 1 24 (COL C_WHITE C_DGREY) (cs " S=Save  Q=Quit  R=Reset  ") ;;
  (if mc_dirty s then vstr 30 24 (COL C_YELLOW C_DGREY) (cs "[*] Unsaved changes") else mret tt) ;;
  emit EHwCursor.

Definition is_up (k : Z) : bool := (k =? KEY_UP) || (k =? KEY_LEFT).
Definition is_down (k : Z) : bool := (k =? KEY_DOWN) || (k =? KEY_RIGHT).
Definition is_save (k : Z) : bool := (k =? 115) || (k =? 83).
Definition is_reset (k : Z) : bool := (k =? 114) || (k =? 82).
Definition is_quit (k : Z) : bool := (k =? 113) || (k =? 81).

(** One key; the result is [running]. *)
Definition menu_key (k : Z) : M mcfg bool :=
  s ← get;
  if is_up k then (if 0 <? mc_cursor s then modify (mc_set_cursor (mc_cursor s - 1)) else mret tt) ;; mret true
  else if is_down k then (if mc_cursor s <? mcfg_count - 1 then modify (mc_set_cursor (mc_cursor s + 1)) else mret tt) ;; mret true
  else
    run ← (if k =? c_sp then
             in_array 25 (mc_cursor s) ;;
             modify (fun s => mc_set_dirty true (mc_set_vals (aset (mc_vals s) (mc_cursor s) (negb (aget false (mc_vals s) (mc_cursor s)))) s)) ;;
             drain ;; mret true
           else if is_save k then
             mcfg_save ;;
             vfill 1 23 78 1 c_sp (COL C_LGREEN C_BLACK) ;;
             vstr 1 23 (COL C_LGREEN C_BLACK) (cs "Config saved! Reboot to apply changes.") ;;
             drain ;; mret true
           else if is_reset k then
             modify (fun s => mc_set_dirty true (mc_set_vals (map (fun _ => true) mcfg_items) s)) ;; drain ;; mret true
           else if is_quit k then drain ;; mret false
           else mret true);
    drain ;; mret (run : bool).

(** Each pass reads one key. *)
Fixpoint menu_loop (fuel : nat) : M mcfg unit :=
  match fuel with
  | O => fail Blocked
  | S f => draw_menu ;; k ← mc_get; run ← menu_key k; if (run : bool) then menu_loop f else mret tt
  end.

Definition cmd_menuconfig (beyond : list Z) : M mcfg unit :=
  s ← get;
  let id := s_id (mc_sh s) in
  if negb (streq (sh_user id) (cs "root")) && negb (sh_rok id) then
    vset C_LRED C_BLACK ;; vpln (cs "menuconfig: permission denied") ;;
    vpln (cs "You must be root to configure kernel modules.") ;; vpln (cs "Use 'rok' to switch to root, then try again.") ;; vrst
  else if negb (streq (sh_cwd id) (cs "/kernel")) then
    vset C_LRED C_BLACK ;; vpln (cs "menuconfig: must be run from /kernel directory") ;; vpln (cs "Run 'cd /kernel' first, then try again.") ;; vrst
  else
    mcfg_load beyond ;;
    modify (fun s => mc_set_dirty false (mc_set_scroll 0 (mc_set_cursor 0 s))) ;;
    drain ;; vclear ;;
    s ← get;
    menu_loop (S (length (concat (mc_input s)))) ;;
    vclear ;; vrst.

(** ** The text *)

Lemma item_line_le key v : zlen (item_line key v) <= zlen (item_line key false).
Proof. unfold item_line. rewrite !zlen_app. do 2 apply Z.add_le_mono_l. by destruct v. Qed.

Lemma items_text_le its vals :
  zlen (concat (zip_with (fun (it : cstr * cstr) v => item_line it.1 v ++ [c_nl]) its vals)) <=
  zlen (concat (map (fun it : cstr * cstr => item_line it.1 false ++ [c_nl]) its)).
Proof.
  revert vals. induction its as [|it its IH]; intros [|v vals]; cbn [zip_with map concat]; try (unfold zlen; simpl; lia).
  rewrite !zlen_app. specialize (IH vals). pose proof (item_line_le it.1 v). lia.
Qed.

Lemma mcfg_text_fits vals : zlen (mcfg_text vals) < 2047.
Proof.
  unfold mcfg_text. rewrite zlen_app. pose proof (items_text_le mcfg_items vals) as H.
  eapply Z.le_lt_trans; [apply Z.add_le_mono_l, H|]. by vm_compute.
Qed.

Lemma mcfg_text_ne vals : mcfg_text vals <> [].
Proof. discriminate. Qed.

(** The lines of the text with their ends. *)
Definition cfg_lines (vals : list bool) : list (cstr * Z) :=
  [(cs "# pigOS Kernel Configuration", c_nl); (cs "# Generated by menuconfig", c_nl); (cs "# Changes apply on next reboot", c_nl); ([], c_nl)]
  ++ zip_with (fun it v => (item_line it.1 v, c_nl)) mcfg_items vals.

Lemma mcfg_text_lines vals : mcfg_text vals = cfg_text (cfg_lines vals).
Proof.
  unfold mcfg_text, cfg_lines, cfg_text. rewrite map_app, concat_app. f_equal.
  generalize mcfg_items. intros its. revert vals. induction its as [|it its IH]; intros [|v vals]; cbn [zip_with map concat]; [done..|].
  by rewrite IH.
Qed.

Definition no_end (l : cstr) : bool := forallb (fun c => negb (line_end c)) l.
Lemma no_end_line l : no_end l = true -> is_line l.
Proof. intros H. apply Forall_forall. intros c Hc. apply negb_true_iff. by eapply forallb_forall in H; [|apply list_elem_of_In]. Qed.

Lemma items_no_end : Forall (fun it : cstr * cstr => forall v, no_end (item_line it.1 v) = true) mcfg_items.
Proof. repeat constructor; intros []; reflexivity. Qed.

Lemma cfg_lines_ok vals : Forall (fun p => is_line p.1 /\ line_end p.2 = true) (cfg_lines vals).
Proof.
  apply Forall_app. split.
  - repeat constructor; cbn [fst]; by apply no_end_line.
  - pose proof items_no_end as Hi. revert Hi vals. generalize mcfg_items. induction 1 as [|it its Hit _ IH]; intros [|v vals]; cbn [zip_with]; constructor; [|done].
    cbn [fst snd]. split; [by apply no_end_line|done].
Qed.

(** A line of the table decides its own key and no other key of the table. *)
Definition decides_own (key key' : cstr) (v : bool) : bool :=
  bool_decide (cfg_line key (item_line key' v) = if streq key key' then Some v else None).
Lemma items_decide_own :
  forallb (fun it => forallb (fun it' => decides_own it.1 it'.1 true && decides_own it.1 it'.1 false) mcfg_items) mcfg_items = true.
Proof. vm_compute. reflexivity. Qed.

Lemma item_decides it it' v : it ∈ mcfg_items -> it' ∈ mcfg_items ->
  cfg_line it.1 (item_line it'.1 v) = if streq it.1 it'.1 then Some v else None.
Proof.
  intros H1%list_elem_of_In H2%list_elem_of_In. pose proof items_decide_own as H.
  eapply forallb_forall in H; [|exact H1]. eapply forallb_forall in H; [|exact H2].
  apply andb_true_iff in H as [Ht%bool_decide_eq_true Hf%bool_decide_eq_true]. by destruct v.
Qed.

Lemma items_distinct : NoDup (fst <$> mcfg_items).
Proof. apply (bool_decide_unpack _). vm_compute. exact I. Qed.

Lemma items_ref its : NoDup (fst <$> its) -> (forall it, it ∈ its -> it ∈ mcfg_items) ->
  forall i vals (it : cstr * cstr) v, its !! i = Some it -> vals !! i = Some v ->
  cfg_ref it.1 (zip_with (fun it v => item_line it.1 v) its vals) = Some v.
Proof.
  intros Hnd Hin i vals it v Hi Hv.
  assert (Hit : it ∈ mcfg_items) by (apply Hin; by eapply list_elem_of_lookup_2).
  revert Hnd Hin i vals Hi Hv. induction its as [|it' its IH]; intros Hnd Hin [|i] [|v' vals] Hi Hv; try discriminate;
    cbn [lookup list_lookup fmap list_fmap] in *; cbn [zip_with cfg_ref].
  - injection Hi as ->. injection Hv as ->. by rewrite item_decides, streq_refl.
  - apply NoDup_cons in Hnd as [Hn Hnd]. rewrite item_decides; [|done|apply Hin; left].
    rewrite (proj2 (streq_false _ _)).
    + apply IH with i; try done. intros x Hx. apply Hin. by right.
    + intros E. apply Hn. rewrite <- E. apply list_elem_of_fmap_2. by eapply list_elem_of_lookup_2.
Qed.

Lemma hash_line key l : cget l 0 = c_hash -> cfg_line key l = None.
Proof. intros E. unfold cfg_line. by rewrite E, orb_true_r. Qed.

Lemma cfg_lines_ref vals i it v : mcfg_items !! i = Some it -> vals !! i = Some v -> cfg_ref it.1 (map fst (cfg_lines vals)) = Some v.
Proof.
  intros Hi Hv. unfold cfg_lines. rewrite map_app. cbn [map fst app cfg_ref].
  rewrite !hash_line by reflexivity.
  assert (Hm : map fst (zip_with (fun (it : cstr * cstr) v => (item_line it.1 v, c_nl)) mcfg_items vals) = zip_with (fun it v => item_line it.1 v) mcfg_items vals).
  { generalize mcfg_items. intros its. clear. revert vals. induction its as [|it its IH]; intros [|v vals]; cbn [zip_with map]; [done..|]. by rewrite IH. }
  rewrite Hm. cbn [cfg_line zlen]. eapply items_ref; [apply items_distinct|done|done|done].
Qed.

(** ** Saving *)

Definition fs_of (s : mcfg) : fs := ufs (s_ust (mc_sh s)).
Definition with_fs (f : fs) (s : mcfg) : mcfg := mc_set_sh (set_ust (set_ufs f (s_ust (mc_sh s))) (mc_sh s)) s.

Lemma wp_in_mc {A} (m : M fs A) s Q E :
  wp m (fs_of s) (fun a f => Q a (with_fs f s)) (fun e f => E e (with_fs f s)) -> wp (in_mc m) s Q E.
Proof. intros H. do 3 apply wp_zoom. exact H. Qed.

Lemma with_fs_id s : with_fs (fs_of s) s = s.
Proof. by destruct s as [[[]]]. Qed.
Lemma with_fs_twice f g s : with_fs f (with_fs g s) = with_fs f s.
Proof. done. Qed.

(** The file can be written: it exists, or there is room for it. *)
Record ready (f : fs) : Prop := Ready {
  rd_ok : fs_ok f;
  rd_del : is_deleted f conf = false;
  rd_room : match abs f !! conf with Some m => mf_is_dir m = false | None => memfs_n f < 64 end }.

Definition saved_file (vals : list bool) : MemFile := MkMem conf (mcfg_text vals) true false.

Lemma is_deleted_eq f g : deleted_n f = deleted_n g -> deleted_paths f = deleted_paths g -> is_deleted f conf = is_deleted g conf.
Proof. unfold is_deleted. by intros -> ->. Qed.

(** The slot of the file, made if need be. *)
Lemma wp_conf_slot s (Q : option nat -> mcfg -> Prop) E : ready (fs_of s) ->
  (forall i f m, ready f -> find_slot f conf = Some i -> memfs f !! i = Some m -> mf_is_dir m = false ->
     <[conf := m]> (abs f) = abs f -> (forall x, <[conf := x]> (abs f) = <[conf := x]> (abs (fs_of s))) -> Q (Some i) (with_fs f s)) ->
  wp conf_slot s Q E.
Proof.
  unfold conf_slot. fold conf. intros [Hok Hd Hr] HQ. apply wp_bind, wp_in_mc. eapply wp_eq; [by apply memfs_find_eq|]. rewrite with_fs_id.
  destruct (find_slot (fs_of s) conf) as [i|] eqn:Ef.
  - apply wp_ret. destruct (find_slot_Some _ _ _ Ef) as (m & Hm & _). pose proof (abs_find_slot (fs_of s) conf) as Ha. rewrite Ef, Hm in Ha. rewrite Ha in Hr.
    rewrite <- (with_fs_id s) at 1. eapply HQ; eauto; [|by apply insert_id]. constructor; try done. by rewrite Ha.
  - pose proof (abs_find_slot (fs_of s) conf) as Ha. rewrite Ef in Ha. rewrite Ha in Hr.
    apply wp_in_mc. eapply wp_eq. { rewrite memfs_create_eq, Ef by done. by rewrite (proj2 (Z.leb_gt 64 (memfs_n (fs_of s)))). }
    set (new := MkMem conf [] true _). set (f := set_memfs _ _).
    assert (Hnew : new = MkMem conf [] true false) by done.
    assert (Hok' : fs_ok f) by (subst f; rewrite Hnew; by apply append_ok).
    assert (Habs : abs f = <[conf := new]> (abs (fs_of s))) by (subst f; rewrite Hnew; by apply abs_append).
    assert (Hl : abs f !! conf = Some new) by (rewrite Habs; apply lookup_insert_eq).
    apply abs_live in Hl as (i & Hi & _ & _ & Hs); [|done]. assert (i = length (memfs (fs_of s))) as ->.
    { apply (ok_unique f Hok' i (length (memfs (fs_of s))) new new); [done| | | |done];
        [subst f; cbn; rewrite lookup_app_r, Nat.sub_diag by lia; done|..]; unfold live; by rewrite Hnew; cbn [mf_used mf_path]; rewrite (is_deleted_eq f (fs_of s)), Hd. }
    eapply (HQ _ f new); [|done|done|by rewrite Hnew| |].
    + constructor; [done|by rewrite (is_deleted_eq f (fs_of s))|]. rewrite Habs, lookup_insert_eq. by rewrite Hnew.
    + rewrite Habs. apply insert_insert_eq.
    + intros x. rewrite Habs. apply insert_insert_eq.
Qed.

Lemma wp_mcfg_save s (Q : unit -> mcfg -> Prop) E : ready (fs_of s) ->
  (forall f, ready f -> abs f = <[conf := saved_file (mc_vals s)]> (abs (fs_of s)) -> Q tt (mc_set_dirty false (with_fs f s))) ->
  wp mcfg_save s Q E.
Proof.
  intros Hr HQ. unfold mcfg_save. apply wp_bind, wp_get. cbv zeta. pose proof (mcfg_text_fits (mc_vals s)) as Ht.
  apply wp_bind. unfold fits. rewrite (proj2 (Z.ltb_lt _ _)) by lia. apply wp_ret.
  rewrite take_ge by (unfold zlen in Ht; lia).
  apply wp_bind, wp_conf_slot; [done|]. intros i f m Hrf Hs Hi Hm _ Hx.
  apply wp_bind, wp_in_mc. destruct (put_content_spec f conf i m (mcfg_text (mc_vals s))) as (f' & Hp & Hok & Ha & _ & Hn & Hl); [apply Hrf|done|done|lia|].
  eapply wp_eq; [exact Hp|]. rewrite Hm in Ha. fold (saved_file (mc_vals s)) in Ha.
  apply wp_modify. rewrite with_fs_twice. apply HQ; [|by rewrite Ha, Hx].
  constructor; [done| |by rewrite Ha, lookup_insert_eq]. rewrite (is_deleted_eq f' f) by done. apply Hrf.
Qed.

(** ** The menu as an editor of the table *)

(** What the user edits: the values, the selected item, what was saved last. *)
Record medit := Medit { me_vals : list bool; me_sel : nat; me_saved : option (list bool) }.

Definition edit_key (e : medit) (k : Z) : medit :=
  if is_up k then Medit (me_vals e) (pred (me_sel e)) (me_saved e)
  else if is_down k then Medit (me_vals e) (S (me_sel e) `min` 23) (me_saved e)
  else if k =? c_sp then Medit (alter negb (me_sel e) (me_vals e)) (me_sel e) (me_saved e)
  else if is_save k then Medit (me_vals e) (me_sel e) (Some (me_vals e))
  else if is_reset k then Medit (replicate 24 true) (me_sel e) (me_saved e)
  else e.

(** The keys that are read until the menu is left: an arrow leaves the rest of
    its burst, a command drops it and the keys of its second drain. *)
Definition is_arrow (k : Z) : bool := is_up k || is_down k.
Definition is_command (k : Z) : bool := (k =? c_sp) || is_save k || is_reset k.
Inductive hears : list (list Z) -> list Z -> Prop :=
  | hears_next r ks : hears r ks -> hears ([] :: r) ks
  | hears_arrow k b r ks : is_arrow k = true -> hears (b :: r) ks -> hears ((k :: b) :: r) (k :: ks)
  | hears_command k b r ks : is_arrow k = false -> is_command k = true -> hears (tl r) ks -> hears ((k :: b) :: r) (k :: ks)
  | hears_other k b r ks : is_arrow k = false -> is_command k = false -> is_quit k = false -> hears r ks -> hears ((k :: b) :: r) (k :: ks)
  | hears_quit k b r : is_arrow k = false -> is_command k = false -> is_quit k = true -> hears ((k :: b) :: r) [k].

Record shows (f0 : fs) (e : medit) (s : mcfg) : Prop := Shows {
  sw_ready : ready (fs_of s);
  sw_vals : mc_vals s = me_vals e; sw_len : length (me_vals e) = 24%nat;
  sw_sel : mc_cursor s = Z.of_nat (me_sel e); sw_lt : (me_sel e < 24)%nat;
  sw_scroll : 0 <= mc_scroll s;
  sw_file : abs (fs_of s) = match me_saved e with Some v => <[conf := saved_file v]> (abs f0) | None => abs f0 end;
  sw_saved : match me_saved e with Some v => length v = 24%nat | None => True end }.

Lemma wp_mapM_id {T A} (f : A -> M T unit) l s (Q : unit -> T -> Prop) E :
  (forall x, x ∈ l -> wp (f x) s (fun _ s' => s' = s) E) -> Q tt s -> wp (mapM_ f l) s Q E.
Proof.
  intros Hf HQ. eapply wp_mono; [apply (wp_mapM f l s (fun s' => s' = s))| |done]; [done| |].
  - intros x s' Hx ->. by apply Hf.
  - by intros [] s' ->.
Qed.

Lemma wp_draw_item s0 i s E : 0 <= mc_scroll s0 -> 0 <= i < mcfg_count - mc_scroll s0 -> wp (draw_item s0 i) s (fun _ s' => s' = s) E.
Proof.
  intros Hs Hi. change mcfg_count with 24 in Hi. unfold draw_item. cbv zeta. apply wp_bind, wp_in_array; [intros _|intros []; lia].
  apply wp_bind. case_match; apply wp_emit; (apply wp_bind; case_match; [repeat (apply wp_bind, wp_emit)|repeat (apply wp_bind, wp_emit)]; apply wp_emit; by apply wp_emit).
Qed.

Lemma wp_draw_menu s (Q : unit -> mcfg -> Prop) E : 0 <= mc_cursor s -> 0 <= mc_scroll s -> Q tt (fix_scroll s) -> wp draw_menu s Q E.
Proof.
  intros Hc Hs HQ. unfold draw_menu. do 6 apply wp_bind, wp_emit. apply wp_bind, wp_modify, wp_bind, wp_get.
  assert (0 <= mc_scroll (fix_scroll s)) by (unfold fix_scroll; cbv zeta; repeat case_test; cbn in *; lia).
  apply wp_bind, wp_mapM_id.
  { intros i Hi%elem_of_seqZ. apply wp_draw_item; [done|lia]. }
  do 3 (apply wp_bind; first [apply wp_emit|case_match; [apply wp_emit|apply wp_ret]]).
  apply wp_bind. case_match; [apply wp_emit|apply wp_ret]; by apply wp_emit.
Qed.

Lemma shows_fix_scroll f0 e s : shows f0 e s -> shows f0 e (fix_scroll s) /\ mc_input (fix_scroll s) = mc_input s.
Proof.
  intros []. unfold fix_scroll. cbv zeta. repeat case_test; cbn in *; (split; [|done]); constructor; cbn; try done; lia.
Qed.

Definition rest (k : Z) (bs : list (list Z)) : list (list Z) :=
  if is_arrow k then bs else if is_command k || is_quit k then tl (tl bs) else tl bs.
Definition goes_on (k : Z) : bool := is_arrow k || is_command k || negb (is_quit k).

Lemma shows_input f0 e s bs : shows f0 e s -> shows f0 e (mc_set_input bs s).
Proof. by intros []. Qed.

Lemma wp_menu_key f0 e s k (Q : bool -> mcfg -> Prop) E : shows f0 e s ->
  (forall s', shows f0 (edit_key e k) s' -> mc_input s' = rest k (mc_input s) -> Q (goes_on k) s') -> wp (menu_key k) s Q E.
Proof.
  intros Hs HQ. unfold menu_key, edit_key, rest, goes_on, is_arrow, is_command in *. apply wp_bind, wp_get. cbv zeta.
  destruct (is_up k); [|destruct (is_down k)]; cbn [orb andb negb] in *.
  1,2: apply wp_bind; change (mcfg_count - 1) with 23; case_test; [apply wp_modify|]; apply wp_ret, HQ; try done; destruct Hs; constructor; cbn in *; try done; lia.
  destruct (k =? c_sp); [|destruct (is_save k); [|destruct (is_reset k); [|destruct (is_quit k)]]]; cbn [orb andb negb] in *; apply wp_bind.
  - apply wp_bind, wp_in_array; [intros _|destruct Hs; intros []; lia].
    apply wp_bind, wp_modify, wp_bind, wp_modify, wp_ret, wp_bind, wp_modify, wp_ret, HQ; [|done]. destruct Hs as [? Hv Hl Hc]. constructor; cbn; try done.
    + rewrite Hv, Hc. unfold aset, aget. rewrite Nat2Z.id. apply list_eq. intros j. destruct (decide (j = me_sel e)) as [->|Hne].
      * rewrite list_lookup_alter, decide_True, list_lookup_insert_eq by lia. destruct (lookup_lt_is_Some_2 (me_vals e) (me_sel e)) as [x Hx]; [lia|].
        by rewrite Hx, nth_lookup, Hx.
      * by rewrite list_lookup_alter_ne, list_lookup_insert_ne by done.
    + by rewrite length_alter.
  - apply wp_bind, wp_mcfg_save; [apply Hs|]. intros f Hf Ha. do 2 apply wp_bind, wp_emit. apply wp_bind, wp_modify, wp_ret, wp_bind, wp_modify, wp_ret, HQ; [|done].
    destruct Hs as [? Hv Hl Hc ? ? Hfile]. constructor; cbn; try done. rewrite Ha, Hfile, Hv. by destruct (me_saved e); [rewrite insert_insert_eq|].
  - apply wp_bind, wp_modify, wp_bind, wp_modify, wp_ret, wp_bind, wp_modify, wp_ret, HQ; [|done]. destruct Hs; constructor; by cbn.
  - apply wp_bind, wp_modify, wp_ret, wp_bind, wp_modify, wp_ret, HQ; [|done]. by do 2 apply shows_input.
  - apply wp_ret, wp_bind, wp_modify, wp_ret, HQ; [|done]. by apply shows_input.
Qed.

Lemma length_tl_concat (r : list (list Z)) : (length (concat (tl r)) <= length (concat r))%nat.
Proof. destruct r; simpl; [lia|]. rewrite length_app. lia. Qed.

Lemma hears_step bs ks : hears bs ks -> exists k r ks', next_key bs = Some (k, r) /\ ks = k :: ks' /\ (length (concat r) < length (concat bs))%nat /\
  if goes_on k then hears (rest k r) ks' else ks' = [].
Proof.
  induction 1 as [r ks _ (k & r' & ks' & Hn & -> & Hl & Hk)|k b r ks Ha Hh _|k b r ks Ha Hc Hh _|k b r ks Ha Hc Hq Hh _|k b r Ha Hc Hq].
  1: exists k, r', ks'; cbn; by rewrite Hn.
  all: eexists k, (b :: r), _; split_and!; [done|done|cbn; lia|]; unfold goes_on, rest; try rewrite Ha; try rewrite Hc; try rewrite Hq; done.
Qed.

Lemma length_rest k r : (length (concat (rest k r)) <= length (concat r))%nat.
Proof.
  unfold rest. pose proof (length_tl_concat r). pose proof (length_tl_concat (tl r)). repeat case_match; lia.
Qed.

Lemma wp_menu_loop f0 ks : forall fuel e s (Q : unit -> mcfg -> Prop) E, shows f0 e s -> hears (mc_input s) ks -> (length (concat (mc_input s)) < fuel)%nat ->
  (forall s', shows f0 (foldl edit_key e ks) s' -> Q tt s') -> wp (menu_loop fuel) s Q E.
Proof.
  induction ks as [|k0 ks IH]; intros fuel e s Q E Hs Hh Hf HQ; [by apply hears_step in Hh as (? & ? & ? & _ & ? & _)|].
  destruct fuel as [|fuel]; [lia|]. apply hears_step in Hh as (k & r & ks' & Hn & [= <- <-] & Hl & Hk).
  cbn [menu_loop]. apply wp_bind, wp_draw_menu; [destruct Hs; lia|apply Hs|]. destruct (shows_fix_scroll _ _ _ Hs) as [Hs' Hi].
  apply wp_bind. unfold mc_get. apply wp_bind, wp_get. rewrite Hi, Hn. apply wp_bind, wp_modify, wp_ret.
  apply wp_bind, (wp_menu_key f0 e); [by apply shows_input|]. intros s' He Hr. cbn in Hr. destruct (goes_on k0).
  - apply (IH fuel (edit_key e k0)); [done|by rewrite Hr| |done]. rewrite Hr. pose proof (length_rest k0 r). lia.
  - subst. apply wp_ret. by apply HQ.
Qed.

(** ** The command *)

Lemma cfg_ref_app key a b v : cfg_ref key a = Some v -> cfg_ref key (a ++ b) = Some v.
Proof. induction a as [|l a IH]; cbn [app cfg_ref]; [done|]. destruct (cfg_line key l); auto. Qed.

(** The kernel reads back what was saved. *)
Lemma rt_cfg_saved beyond w vals i it v : fs_ok (ufs (s_ust w)) -> abs (ufs (s_ust w)) !! conf = Some (saved_file vals) ->
  mcfg_items !! i = Some it -> vals !! i = Some v -> rt_cfg beyond it.1 w = Ok v w [].
Proof.
  intros Hok Hf Hi Hv. rewrite (rt_cfg_correct beyond it.1 w (cfg_lines vals) [] (saved_file vals)); try done.
  - by erewrite cfg_ref_app by (by eapply cfg_lines_ref).
  - cbn [saved_file mf_content]. by rewrite mcfg_text_lines, app_nil_r.
  - apply cfg_lines_ok.
  - constructor.
Qed.

Lemma rt_cfg_no_file beyond key w : fs_ok (ufs (s_ust w)) -> abs (ufs (s_ust w)) !! conf = None -> rt_cfg beyond key w = Ok true w [].
Proof.
  intros Hok Hf. unfold rt_cfg, in_fsys, in_ust, in_fs, zoom, mbind, M_bind. fold conf. rewrite lookup_mem_eq by done. rewrite Hf.
  cbn. f_equal. by destruct w as [[]].
Qed.

Definition may_configure (id : ident) : bool := (streq (sh_user id) (cs "root") || sh_rok id) && streq (sh_cwd id) (cs "/kernel").

Lemma wp_cmd_menuconfig beyond s ks (Q : unit -> mcfg -> Prop) E :
  may_configure (s_id (mc_sh s)) = true -> ready (fs_of s) -> abs (fs_of s) !! conf = None -> length (mc_vals s) = 24%nat -> hears (tl (mc_input s)) ks ->
  (forall s', shows (fs_of s) (foldl edit_key (Medit (mc_vals s) 0 None) ks) s' -> Q tt s') -> wp (cmd_menuconfig beyond) s Q E.
Proof.
  intros Hm Hr Hc Hl Hh HQ. unfold cmd_menuconfig. apply wp_bind, wp_get. cbv zeta. unfold may_configure in Hm.
  apply andb_true_iff in Hm as [H1 H2]. rewrite H2. replace (_ && _) with false by (symmetry; by destruct (streq _ _), (sh_rok _)). cbn [negb].
  apply wp_bind. unfold mcfg_load. fold conf. apply wp_bind, wp_in_mc. eapply wp_eq; [apply lookup_mem_eq, Hr|]. rewrite Hc. apply wp_ret.
  rewrite with_fs_id. apply wp_bind, wp_modify, wp_bind, wp_modify, wp_bind, wp_emit, wp_bind, wp_get.
  apply wp_bind, (wp_menu_loop (fs_of s) ks _ (Medit (mc_vals s) 0 None)); [|done|cbn; lia|].
  - constructor; cbn; try done; lia.
  - intros s' Hs. apply wp_bind, wp_emit, wp_emit. by apply HQ.
Qed.

(** A session that saves and leaves. *)
Definition mc_sample (bs : list (list Z)) : mcfg :=
  let w := sh_static (MkDel 0 0 []) [] in
  Mcfg (set_id (Ident (cs "root") 0 (cs "/kernel") false) (set_ust (set_ufs fs_sample (s_ust w)) w)) (replicate 24 true) 0 0 false bs.

Lemma mc_sample_ready bs : ready (fs_of (mc_sample bs)) /\ abs (fs_of (mc_sample bs)) !! conf = None.
Proof. split; [|reflexivity]. constructor; [apply fs_sample_ok|reflexivity|reflexivity]. Qed.

Lemma mcfg_scan_never_ends mem : forall start len s, result (mcfg_scan mem start len s) = inr OutOfBounds.
Proof.
  induction mem as [|c mem IH]; intros start len s; cbn [mcfg_scan]; [done|]. destruct (line_end c); [|apply IH].
  unfold modify, mbind, M_bind. specialize (IH mem 0 (mc_set_vals (mcfg_line start len (mc_vals s)) s)).
  unfold result in *. by destruct (mcfg_scan _ _ _ _).
Qed.

(** With a configuration in the file system the menu does not open: the scan
    passes the terminator and leaves the memory, whatever it holds. *)
Lemma saved_configuration_cannot_be_opened beyond s m :
  may_configure (s_id (mc_sh s)) = true -> fs_ok (fs_of s) -> abs (fs_of s) !! conf = Some m -> mf_content m <> [] ->
  result (cmd_menuconfig beyond s) = inr OutOfBounds.
Proof.
  intros Hm Hok Hf Hc. unfold may_configure in Hm. apply andb_true_iff in Hm as [H1 H2].
  assert (Hl : result (mcfg_load beyond s) = inr OutOfBounds).
  { unfold mcfg_load. fold conf. rewrite (bind_silent _ _ s (Some m) s).
    - rewrite bool_decide_false by done. apply mcfg_scan_never_ends.
    - unfold in_mc, in_fsys, in_ust, in_fs, zoom. change (ufs (s_ust (mc_sh s))) with (fs_of s). rewrite lookup_mem_eq, Hf by done. f_equal. apply (with_fs_id s). }
  unfold cmd_menuconfig. rewrite (bind_silent get _ s s s) by done. cbv zeta. rewrite H2.
  replace (_ && _) with false by (symmetry; by destruct (streq _ _), (sh_rok _)). cbn [negb].
  unfold mbind at 1, M_bind at 1. unfold result in *. by destruct (mcfg_load beyond s).
Qed.

(** C27: The configuration menu and the kernel agree.  The caller may configure
    (root or sudo, in /kernel), the file name was never removed, and the session
    is any keys, however they arrive, up to the first one that leaves the menu.
    When no configuration is saved yet and the table of files has room, the
    session ends with the values of an editor on the table of modules that hears
    the same keys; nothing but the configuration file changes; and the kernel's
    [rt_cfg] then reads for every module the value at the last save, or enabled
    when nothing was saved.  When one is saved and not empty the menu does not open:
    reading it leaves the memory. *)
Theorem menuconfig_configures beyond beyond' s ks :
  may_configure (s_id (mc_sh s)) = true -> ready (fs_of s) -> length (mc_vals s) = 24%nat -> hears (tl (mc_input s)) ks ->
  match abs (fs_of s) !! conf with
  | Some m => mf_content m <> [] -> result (cmd_menuconfig beyond s) = inr OutOfBounds
  | None =>
      exists s' out, cmd_menuconfig beyond s = Ok tt s' out /\
        let e := foldl edit_key (Medit (mc_vals s) 0 None) ks in
        mc_vals s' = me_vals e /\
        abs (fs_of s') = match me_saved e with Some v => <[conf := saved_file v]> (abs (fs_of s)) | None => abs (fs_of s) end /\
        forall i it, mcfg_items !! i = Some it ->
          rt_cfg beyond' it.1 (mc_sh s') = Ok (match me_saved e with Some v => nth i v true | None => true end) (mc_sh s') []
  end.
Proof.
  intros Hm Hr Hl Hh. destruct (abs (fs_of s) !! conf) as [m|] eqn:Hc.
  { intros Hne. eapply saved_configuration_cannot_be_opened; [done|apply Hr|exact Hc|done]. }
  pose proof (wp_cmd_menuconfig beyond s ks (fun _ => shows (fs_of s) (foldl edit_key (Medit (mc_vals s) 0 None) ks)) (fun _ _ => False) Hm Hr Hc Hl Hh (fun s' H => H)) as Hw.
  unfold wp in Hw. destruct (cmd_menuconfig beyond s) as [[] s' out|]; [|done]. exists s', out. split; [done|]. cbv zeta.
  destruct Hw as [Hr' Hv _ _ _ _ Hf Hlv]. split; [done|]. split; [done|]. intros i it Hi. destruct (me_saved _) as [v|] eqn:Es.
  - destruct (lookup_lt_is_Some_2 v i) as [x Hx]; [rewrite Hlv; by eapply (lookup_lt_Some mcfg_items)|].
    rewrite nth_lookup, Hx. eapply rt_cfg_saved; [apply Hr'| |done|done]. fold (fs_of s'). by rewrite Hf, lookup_insert_eq.
  - apply rt_cfg_no_file; [apply Hr'|]. fold (fs_of s'). by rewrite Hf.
Qed.

(** Disable verbose boot (down, space), save, toggle another item, quit. *)
Definition sample_keys : list (list Z) := [[]; [KEY_DOWN; c_sp]; []; [115]; []; [KEY_DOWN; c_sp; 65]; [113]; [113]].
Lemma menuconfig_configures_witness :
  exists s' out, cmd_menuconfig [] (mc_sample sample_keys) = Ok tt s' out /\
    rt_cfg [] (cs "BOOT_VERBOSE") (mc_sh s') = Ok false (mc_sh s') [] /\ rt_cfg [] (cs "VGA_DRIVER") (mc_sh s') = Ok true (mc_sh s') [].
Proof.
  pose proof (menuconfig_configures [] [] (mc_sample sample_keys) [KEY_DOWN; c_sp; 115; KEY_DOWN; c_sp; 113]) as H.
  rewrite (proj2 (mc_sample_ready sample_keys)) in H. destruct H as (s' & out & Hr & _ & _ & Hk).
  - reflexivity.
  - apply mc_sample_ready.
  - reflexivity.
  - cbn. apply hears_arrow; [reflexivity|]. apply hears_command; [reflexivity..|]. cbn. apply hears_command; [reflexivity..|]. cbn.
    apply hears_arrow; [reflexivity|]. apply hears_command; [reflexivity..|]. cbn. apply hears_quit; reflexivity.
  - exists s', out. split; [exact Hr|]. split; [exact (Hk 1%nat (cs "BOOT_VERBOSE", cs "Verbose boot") eq_refl)|exact (Hk 2%nat (cs "VGA_DRIVER", cs "VGA text driver") eq_refl)].
Defined.

(** ** What the menu gets wrong *)

(** The file lives in memory only: after a reboot every module is enabled. *)
Lemma saved_configuration_is_lost beyond key d ks : rt_cfg beyond key (sh_static d ks) = Ok true (sh_static d ks) [].
Proof. apply rt_cfg_absent. constructor. Qed.

(** With all 64 slots used nothing is saved, and the menu says it was. *)
Lemma full_table_saves_nothing :
  let f := set_memfs (replicate 64 (MkMem (cs "/x") [] false false)) fs_sample in
  let s := with_fs f (mc_sample [[]; [115]; []; [113]]) in
  let r := cmd_menuconfig [] s in
  result r = inl tt /\ abs (fs_of (post r)) !! conf = None /\ EStr 1 23 (COL C_LGREEN C_BLACK) (cs "Config saved! Reboot to apply changes.") ∈ output r.
Proof. cbv zeta. split_and!; [vm_compute; reflexivity..|]. apply (bool_decide_unpack _). vm_compute. exact I. Qed.
