(* ===== verification/ShellProps.v ===== *)
(** * Properties of the dispatcher

    Lines through expansion, splitting, aliases and commands: variables that
    are set are seen, an alias that names itself exhausts the stack, and a
    pipeline hands on what its left command printed. *)

From Stdlib Require Import ZArith Lia.
From stdpp Require Import base numbers list strings gmap.
From S2P Require Import Prelude CLib Console PigPath PigFs PigFsCmd Poing Users Nano ShellEnv Rpk ShellCmd Desktop Shell ShellRuns Lash.
From S2P Require Import ShellAuth ShellInv.

(** ** One simple command *)

(** No character that expands, pipes or quotes. *)
Definition plain (c : Z) : Prop := c <> c_dollar /\ c <> c_pipe /\ c <> c_dquote /\ c <> c_quote /\ c <> 0.
Definition plain_text (t : cstr) : Prop := Forall plain t.

Lemma find_pipe_plain t : plain_text t -> find_pipe 0 t = None.
Proof.
  induction 1 as [|c t (_ & H1 & H2 & H3 & _) _ IH]; simpl; [done|].
  rewrite !(proj2 (Z.eqb_neq c _)) by done. simpl. rewrite IH. done.
Qed.

Lemma span_word n w rest : zlen w <= Z.of_nat n -> Forall (fun c => c <> c_sp) w ->
  span_max n c_sp (w ++ c_sp :: rest) = (w, c_sp :: rest).
Proof.
  revert n. induction w as [|c w IH]; intros n Hn Hw; [by destruct n|].
  rewrite zlen_cons in Hn. pose proof (zlen_nonneg w). destruct n as [|n]; [lia|]. apply Forall_cons in Hw as [Hc Hw]. simpl.
  rewrite (proj2 (Z.eqb_neq c c_sp)) by done. rewrite IH by (done || lia). done.
Qed.

Lemma skip_first c t : cget t 0 <> c -> t <> [] -> skip_char c t = t.
Proof. destruct t as [|x t]; [done|]. intros Hx _. simpl. rewrite (proj2 (Z.eqb_neq x c)); [done|]. exact Hx. Qed.

Definition word (w : cstr) : Prop := w <> [] /\ zlen w <= 63 /\ Forall (fun c => c <> c_sp) w.

Lemma split_cmd_word w a : word w -> cget a 0 <> c_sp -> split_cmd (w ++ c_sp :: a) = (w, a).
Proof.
  intros (Hw & Hl & Hs) Ha. unfold split_cmd. rewrite span_word by done. simpl.
  destruct a as [|x a]; [done|]. by rewrite skip_first.
Qed.

Section Props.
Context (app : cstr -> cstr -> M sh unit) (nd : cstr) (stale stale_line : list Z).
Notation dispatch := (sh_dispatch app nd stale stale_line).

(** The line after expansion is plain: it is one command. *)
Lemma dispatch_simple f raw w a s :
  sh_expand (s_env s) (sh_user (s_id s)) (sh_cwd (s_id s)) raw 512 = w ++ c_sp :: a ->
  word w -> plain_text (w ++ c_sp :: a) -> cget a 0 <> c_sp -> sh_alias_get (s_env s) w = None ->
  dispatch (S f) raw s = run_cmd app nd stale stale_line (dispatch f) w a s.
Proof.
  intros He Hw Hp Ha Hal. cbn [sh_dispatch]. unfold mbind at 1, M_bind at 1, get. cbv zeta. rewrite He.
  pose proof Hw as (Hne & _ & Hs). destruct w as [|x w]; [done|]. apply Forall_cons in Hs as [Hx _].
  rewrite skip_first by done. rewrite bool_decide_false by done. unfold split_pipe. rewrite find_pipe_plain by done.
  rewrite split_cmd_word, Hal by done. by destruct (run_cmd _ _ _ _ _ _ _ _).
Qed.

Lemma expand_here s raw : plain_text raw -> zlen raw < 512 ->
  sh_expand (s_env s) (sh_user (s_id s)) (sh_cwd (s_id s)) raw 512 = raw.
Proof. intros Hp Hl. apply expand_plain; [|done]. eapply Forall_impl; [exact Hp|]. by intros c [? _]. Qed.

(** ** Aliases *)

(** An alias whose value names it again never ends: whatever the depth of the
    stack, dispatching it overflows the stack, and the session is unchanged. *)
Theorem self_alias_overflows f w a v b s :
  word w -> plain_text (w ++ c_sp :: a) -> cget a 0 <> c_sp -> zlen (w ++ c_sp :: a) < 512 ->
  v = w ++ c_sp :: b -> plain_text v -> cget b 0 <> c_sp -> zlen v < 512 ->
  sh_alias_get (s_env s) w = Some v ->
  dispatch f (w ++ c_sp :: a) s = Err StackOverflow s [].
Proof.
  intros Hw Hpa Ha Hla -> Hpb Hb Hlb Hal. revert a Hpa Ha Hla. induction f as [|f IH]; intros a Hpa Ha Hla; [done|].
  cbn [sh_dispatch]. unfold mbind at 1, M_bind at 1, get. cbv zeta. rewrite expand_here by done.
  pose proof Hw as (Hne & _ & Hs). destruct w as [|x w]; [done|]. apply Forall_cons in Hs as [Hx _].
  rewrite skip_first by done. rewrite bool_decide_false by done. unfold split_pipe. rewrite find_pipe_plain by done.
  rewrite split_cmd_word, Hal by done. rewrite IH by done. done.
Qed.

(** ** Variables *)

Lemma run_set rec a s : run_cmd app nd stale stale_line rec (cs "set") a s = leaf (cmd_set a) s.
Proof.
  unfold run_cmd. unfold mbind at 1, M_bind at 1, get.
  rewrite (eq_refl : first_match (cs "set") (static_cmds (sh_user (s_id s)) ++ arg_cmds a ++ state_cmds nd stale s a) = Some (cmd_set a)).
  by destruct (leaf (cmd_set a) s).
Qed.
Lemma run_echo rec a s : run_cmd app nd stale stale_line rec (cs "echo") a s = leaf (cmd_echo a) s.
Proof.
  unfold run_cmd. unfold mbind at 1, M_bind at 1, get.
  rewrite (eq_refl : first_match (cs "echo") (static_cmds (sh_user (s_id s)) ++ arg_cmds a ++ state_cmds nd stale s a) = Some (cmd_echo a)).
  by destruct (leaf (cmd_echo a) s).
Qed.

Definition is_name (n : cstr) : Prop := n <> [] /\ Forall (fun c => name_char c = true) n /\ (length n <= 31)%nat.

Lemma name_plain c : name_char c = true -> plain c /\ c <> c_sp /\ c <> c_eq.
Proof. unfold name_char, is_upper, is_lower, is_digit, plain. intros H. bool_to_prop. lia. Qed.

Lemma span_name_eq k n v : Forall (fun c => c <> c_eq) n -> (length n <= k)%nat -> span_max k c_eq (n ++ c_eq :: v) = (n, c_eq :: v).
Proof.
  intros Hn. revert k. induction Hn as [|c n Hc _ IH]; intros k Hk; [by destruct k|]. simpl in Hk.
  destruct k as [|k]; [lia|]. simpl. rewrite (proj2 (Z.eqb_neq c c_eq)) by done. by rewrite IH by lia.
Qed.

Lemma parse_name n v : is_name n -> parse_assign (n ++ c_eq :: v) = (n, v).
Proof.
  intros (_ & Hn & Hl). unfold parse_assign. rewrite span_name_eq; [done| |done].
  eapply Forall_impl; [exact Hn|]. intros c Hc. by apply name_plain in Hc as (_ & _ & ?).
Qed.

(** A line printed without escapes. *)
Lemma echo_plain t : forall s, Forall (fun c => c <> c_bslash) t -> echo_chars t s = Ok tt s (map (fun c => EPc (u8 c)) t).
Proof.
  induction t as [|c t IH]; intros s Ht; [done|]. apply Forall_cons in Ht as [Hc Ht]. cbn [echo_chars].
  destruct t as [|d t]; [done|]. rewrite (proj2 (Z.eqb_neq c c_bslash)) by done. cbn [andb].
  unfold vpc, emit, mbind, M_bind. by rewrite IH.
Qed.

Lemma echo_shows s v : plain_text v -> Forall (fun c => byte_ok c /\ c <> c_bslash) v -> zlen v < 512 ->
  cmd_echo v s = Ok tt s (map EPc v ++ [EPc c_nl]).
Proof.
  intros Hp Hb Hl. unfold cmd_echo. rewrite (bind_ok get _ s s s []) by done. unfold expand_in. rewrite expand_here by done.
  rewrite (bind_ok (echo_chars v) _ s tt s (map (fun c => EPc (u8 c)) v)) by (apply echo_plain; eapply Forall_impl; [exact Hb|]; by intros c [_ ?]).
  replace (map (fun c => EPc (u8 c)) v) with (map EPc v); [done|]. apply map_ext_in. intros c Hc.
  rewrite u8_id; [done|]. rewrite Forall_forall in Hb. destruct (Hb c) as [Hk _]; [by apply list_elem_of_In|]. exact Hk.
Qed.

Lemma set_env_pipe e s : s_pipe (set_env e s) = s_pipe s.
Proof. done. Qed.

Lemma expand_echo e user cwd n v : is_name n -> sh_var_get e n = Some v -> zlen v <= 500 ->
  sh_expand e user cwd (cs "echo $" ++ n) 512 = cs "echo" ++ c_sp :: v.
Proof.
  intros (Hne & Hnc & Hnl) Hget Hl. unfold sh_expand.
  replace (cs "echo $" ++ n) with (render (map Lit (cs "echo ") ++ [Var n])) by (unfold render; simpl; by rewrite app_nil_r).
  rewrite expand_loop_tokens; [|simpl; by split_and!|done|rewrite zlen_nil; lia].
  assert (Hval : var_value e user cwd n = v) by (unfold var_value; by rewrite Hget).
  unfold eval. simpl. rewrite Hval, app_nil_r. rewrite take_ge by (unfold zlen in *; lia). done.
Qed.

Lemma leaf_set s n v :
  is_name n -> zlen v < 128 -> p_active (s_pipe s) = false -> table_ok (vars (s_env s)) ->
  is_Some (slot_of (vars (s_env s)) n) \/ zlen (vars (s_env s)) < 32 ->
  exists t, leaf (cmd_set (n ++ c_eq :: v)) s = Ok tt (set_env (set_vars t (s_env s)) (sync_grep s)) [] /\ table_get t n = Some v.
Proof.
  intros Hn Hv Hp Ht Hroom. pose proof Hn as (Hne & _ & Hl).
  destruct (table_set_spec (get_t := vars) (set_t := set_vars) n v (s_env s)) as (t & Et & _ & Hg & _); try done; [unfold zlen; lia|].
  exists t. split; [|done]. unfold leaf, cmd_set. rewrite bool_decide_false by (by destruct n). rewrite parse_name by done.
  rewrite (bind_ok (fits 128 v) _ (sync_grep s) tt (sync_grep s) []) by (unfold fits; by rewrite (proj2 (Z.ltb_lt _ _) Hv)).
  unfold in_env, zoom, sh_var_set. rewrite sync_env, Et. simpl. f_equal.
Qed.

(** C12: A variable that is set is seen: after [set NAME=value] (a name of at most 31
    characters, a value below 128 bytes without characters special to the shell,
    room in the table), [echo $NAME] prints exactly the value and a newline. *)
Theorem set_then_echo f g s n v :
  is_name n -> plain_text v -> Forall (fun c => byte_ok c /\ c <> c_bslash) v -> zlen v < 128 -> cget v 0 <> c_sp ->
  p_active (s_pipe s) = false -> table_ok (vars (s_env s)) ->
  (is_Some (slot_of (vars (s_env s)) n) \/ zlen (vars (s_env s)) < 32) ->
  sh_alias_get (s_env s) (cs "set") = None -> sh_alias_get (s_env s) (cs "echo") = None ->
  exists s1 s2, dispatch (S f) (cs "set " ++ n ++ c_eq :: v) s = Ok tt s1 [] /\
    dispatch (S g) (cs "echo $" ++ n) s1 = Ok tt s2 (map EPc v ++ [EPc c_nl]).
Proof.
  intros Hn Hv Hb Hl Hsp Hp Ht Hroom Ha1 Ha2. pose proof Hn as (Hne & Hnc & Hnl).
  assert (Hnp : plain_text n) by (eapply Forall_impl; [exact Hnc|]; intros c Hc; by apply name_plain in Hc as [? _]).
  assert (Hpl : forall w : cstr, plain_text w -> plain_text (w ++ n ++ c_eq :: v)).
  { intros w Hw. apply Forall_app. split; [done|]. apply Forall_app. split; [done|]. constructor; [done|exact Hv]. }
  destruct (leaf_set s n v) as (t & Hset & Hget); try done.
  set (s1 := set_env (set_vars t (s_env s)) (sync_grep s)) in *. exists s1.
  assert (Hecho : sh_expand (s_env s1) (sh_user (s_id s1)) (sh_cwd (s_id s1)) (cs "echo $" ++ n) 512 = cs "echo" ++ c_sp :: v)
    by (apply expand_echo; [done|exact Hget|lia]).
  eexists. split.
  - rewrite (dispatch_simple f _ (cs "set") (n ++ c_eq :: v)); [by rewrite run_set| | | | |done].
    + apply expand_here; [by apply (Hpl (cs "set ")); repeat constructor|].
      rewrite zlen_app, zlen_cons, zlen_app, zlen_cons. change (zlen (cs "set")) with 3. unfold zlen in *. lia.
    + split; [done|]. split; [done|]. by repeat constructor.
    + by apply (Hpl (cs "set ")); repeat constructor.
    + destruct n as [|c n]; [done|]. apply Forall_cons in Hnc as [Hc _]. by apply name_plain in Hc as (_ & ? & _).
  - rewrite (dispatch_simple g _ (cs "echo") v); [|done| | |done|exact Ha2].
    + rewrite run_echo. apply leaf_ok; [unfold s1; by rewrite set_env_pipe, sync_pipe|]. apply echo_shows; try done. lia.
    + split; [done|]. split; [done|]. by repeat constructor.
    + apply (Forall_app_2 _ (cs "echo ")); [by repeat constructor|done].
Qed.

End Props.

(** ** Concrete sessions *)

Definition no_app : cstr -> cstr -> M sh unit := fun _ _ => mret tt.
Definition sh_run (ls : list cstr) : M sh unit := mapM_ (sh_dispatch no_app [] [] [] 8) ls.
Definition ll_session : sh := post (sh_run [cs "alias ll='ll -a'"] (sh_sample [])).

Lemma word_ll : word (cs "ll").
Proof. split; [done|]. split; [done|]. by repeat constructor. Qed.

Lemma self_alias_overflows_witness :
  sh_alias_get (s_env ll_session) (cs "ll") = Some (cs "ll -a") /\
  sh_dispatch no_app [] [] [] 1000 (cs "ll -l") ll_session = Err StackOverflow ll_session [].
Proof.
  split; [vm_compute; reflexivity|].
  apply (self_alias_overflows no_app [] [] [] 1000 (cs "ll") (cs "-l") (cs "ll -a") (cs "-a") ll_session);
    [apply word_ll|by repeat constructor|done|done|done|by repeat constructor|done|done|vm_compute; reflexivity].
Defined.

Lemma set_then_echo_witness :
  exists s1 s2, sh_dispatch no_app [] [] [] 3 (cs "set X=oink oink") (sh_sample []) = Ok tt s1 [] /\
    sh_dispatch no_app [] [] [] 3 (cs "echo $X") s1 = Ok tt s2 (map EPc (cs "oink oink") ++ [EPc c_nl]).
Proof.
  apply (set_then_echo no_app [] [] [] 2 2 (sh_sample []) (cs "X") (cs "oink oink"));
    [|by repeat constructor|by repeat constructor|done|done|vm_compute; reflexivity| |right; vm_compute; reflexivity
     |vm_compute; reflexivity|vm_compute; reflexivity].
  - split; [done|]. split; [by repeat constructor|]. apply Nat.leb_le. vm_compute. reflexivity.
  - split; [done|]. vm_compute. constructor.
Defined.

(** What a line prints. *)
Definition printed (r : res sh unit) : list cev := match r with Ok _ _ o | Err _ _ o => o end.

(** The left command ends without a NUL in the buffer: what an earlier pipe left
    behind is still there, and is matched. *)
Lemma stale_pipe_matches :
  printed (sh_dispatch no_app [] [] [] 8 (cs "printf pig | grep ers")
    (post (sh_run [cs "printf oinkers | grep oink"] (sh_sample [])))) =
  [EPipe true; EPs (cs "pig "); EPipe false; EPs (cs "(pipe)"); EPs (cs ":"); ESet C_LGREEN C_BLACK] ++
  map EPc (cs "pig ers ") ++ [EPc c_nl; ERst].
Proof. vm_compute. reflexivity. Qed.

(** [echo] prints by [vpc], which the pipe does not see. *)
Lemma echo_is_not_piped :
  let s := post (sh_dispatch no_app [] [] [] 8 (cs "echo oinkers | true") (sh_sample [])) in
  p_len (s_pipe s) = 0 /\ read_cstr (p_buf (s_pipe s)) = [].
Proof. vm_compute. done. Qed.

(** In a pipeline of three the second pipe empties the buffer the middle command
    was to read. *)
Lemma middle_stage_reads_nothing :
  let s := post (sh_dispatch no_app [] [] [] 8 (cs "pwd | grep home | true") (sh_sample [])) in
  p_len (s_pipe s) = 0 /\ read_cstr (p_buf (s_pipe s)) = [].
Proof. vm_compute. done. Qed.

(** The arguments given to an alias are dropped. *)
Lemma alias_drops_arguments :
  printed (sh_dispatch no_app [] [] [] 8 (cs "p x") (post (sh_run [cs "alias p='printf oink'"] (sh_sample [])))) = [EPs (cs "oink")].
Proof. vm_compute. reflexivity. Qed.
